(* ===== verification/_CoqProject ===== *)
-Q . S2P
Prelude.v
Hash.v
Merkle.v
Types.v
Block.v
MetaState.v
MetaView.v
MetaTx.v
Ledger.v
LedgerRefine.v
Sample.v
Supply.v
Nonce.v
Permission.v
Database.v
Billing.v
Safety.v
Storage.v
StorageProps.v
Branch.v
BranchProps.v
ChainSample.v
Chain.v
ForkChoice.v
ChainProps.v
ChainRun.v
Bytes.v
LevelDB.v
KayakWal.v
Kayak.v
KayakInv.v
KayakProps.v
KayakRestart.v
KayakApply.v
KayakSample.v
SqlTypes.v
Sanitizer.v
Xenomint.v
XenoProps.v
XenoPool.v
XenoSample.v
AckIndex.v
SqlNode.v
SqlBilling.v
SqlChain.v
SqlChainProps.v
SqlRestart.v
SqlReplicate.v
SqlBill.v
WireSample.v
SqlSample.v
Pow.v
NodeInfo.v
Consistent.v
ConsistentProps.v
RingWalk.v
KeyStore.v
Dht.v
DhtProps.v
NodeSample.v
Worker.v
WorkerProps.v
DbReplica.v
Dbms.v
DbmsProps.v
WorkerSample.v
Bus.v
TwoPC.v
TwoPCProps.v
Dsn.v
Client.v
ClientProps.v
ClientSample.v
KeyFile.v
Seed.v
Submit.v
SubmitProps.v
Observer.v
ObserverProps.v
ObserverSample.v
