(* ===== verification/Prelude.v ===== *)
(** * SQLess: a verification development

    SQLess is a decentralised SQL service.  Block producers keep a main chain: a
    ledger of accounts, databases ("SQL chains") and storage providers, changed by
    signed transactions that are packed into blocks.  Each database is served by a
    group of miners that replicate its requests with Kayak, a two-phase protocol over
    write-ahead logs, execute them in a state over sqlite (xenomint) and pack them
    into a chain of their own.  Clients number and sign requests and submit
    transactions; observers follow the chains; nodes find each other through a ring
    of proven identities.  This development models these components and how they
    are put together, and proves what makes them correct.

    The parts interact in this way.  A client ([Client]) sends requests to the leader
    of a database, which replicates them ([Kayak]) to services ([Worker]) that check
    them and run them on the chain of the database ([SqlChain]) and its state
    ([Xenomint]); miners open the databases the main chain assigns to them ([Dbms]),
    send it their bills ([SqlBill]), and hand blocks to observers ([Observer]).  A
    client's transactions ([Submit]) go to a block producer, whose chain ([Chain])
    pools them, packs them on branches ([Branch]), applies them to the ledger
    ([MetaTx]) and stores it ([Storage]).

    ** Parts of the program and where they are modelled

    - [Prelude]: machine integers, Go results (value, error, panic), the state
      monad [GoM] in which an error keeps the writes made before it, and the rules
      for reasoning about it ([preserves], [keeps], [bind_inv]).
    - [Hash] ([src/crypto/hash/hash.go]): hashes as 32 bytes, printing with byte
      reversal, parsing, difficulty; database ids and addresses.
    - [Merkle] ([src/merkle/merkletrie.go]): the array-based merkle tree.
    - [Types] ([src/types], [src/crypto/verifier], [src/crypto/asymmetric],
      [src/blockproducer/interfaces]): accounts, profiles, permissions, tokens, the
      transactions, signature checks.
    - [Block] ([src/types/bp_block.go], [src/blockproducer/blocknode.go]): packing,
      signing and verifying blocks; the tree of block nodes and its ancestor queries.
    - [MetaState] ([metaindex.go], [metastate.go] of [src/blockproducer]): the state
      as a dirty index over a read-only one, with the copy-on-write operations;
      [MetaView]: its meaning as one map per object kind, and well-formedness.
    - [MetaTx] ([metastate.go]): the transaction handlers, [applyTransaction] and
      [apply].
    - [Ledger]: the abstract ledger: the same handlers on plain maps, without
      overlay, copies or write-through; [LedgerRefine]: [MetaTx] refines it.
    - [Supply], [Nonce], [Permission], [Database], [Billing], [Safety]: theorems
      about transactions, most of them proved on the ledger and carried over by the
      refinement; [Sample]: a concrete environment and state on which they run.
    - [Storage] ([storage.go], [compileChanges]): SQL tables, storage procedures,
      the transactional [store] whose engine may fail at any statement, loaders;
      [StorageProps]: disk and memory stay in step.
    - [Branch] ([branch.go]): head, previewed state and pools of a branch;
      [BranchProps]: pool invariants, producer and peer agree.
    - [Chain] ([chain.go], [chain_io.go], [bpinfo.go], [config.go]): start-up,
      received transactions and blocks, branch switching, block production, schedule,
      readers; [ForkChoice]: the abstract fork choice; [ChainProps]: the chain
      refines it.  [ChainSample], [ChainRun]: concrete blocks, branches and chains.
    - [Bytes], [LevelDB]: byte strings in order, big-endian numbers, and the ordered
      store of LevelDB as a class that may fail, with an instance.
    - [KayakWal] ([src/kayak/types], [src/kayak/wal]): logs, the interface of a
      write-ahead log as a class, the memory log and the LevelDB log as instances;
      [Kayak] ([runtime.go], [commit.go], [processes.go], [log.go], [tracker.go] of
      [src/kayak]): leader and follower; [KayakInv]: the invariant of a log;
      [KayakProps]: leader and followers as one system that refines a replicated
      log; [KayakRestart]: start-up from a log; [KayakApply]: quorums and the
      outcomes of a request; [KayakSample]: a store, a service and a run.
    - [SqlTypes] ([src/types]): requests, responses, acknowledgements and blocks of
      a database; [Sanitizer] ([src/xenomint/query_sanitizer.go]); [Xenomint]
      ([state.go], [pool.go], [chain.go] of [src/xenomint]): the state of a database
      with its transaction and pool; [XenoProps], [XenoPool]: replay and the life of
      a state; [XenoSample]: a store and runs.
    - [AckIndex], [SqlNode], [SqlBilling], [SqlChain] ([src/sqlchain]): the index of
      acknowledgements, block nodes and runtime, bills, and the chain of a database;
      [SqlChainProps], [SqlRestart], [SqlReplicate], [SqlBill]: theorems about it;
      [WireSample], [SqlSample]: wire codes, a leader and a follower.
    - [Pow] ([src/pow]), [NodeInfo] ([src/proto]), [Consistent] ([src/consistent]),
      [KeyStore] ([src/crypto/kms/pubkeystore.go]), [Dht] ([src/route]): nonces, node
      ids, the ring, the key store and the directory of nodes; [ConsistentProps],
      [RingWalk], [DhtProps]: theorems about them; [NodeSample]: concrete nodes.
    - [Worker] ([db.go], [db_storage.go] of [src/worker]): a database as the service
      that Kayak replicates; [Dbms] ([dbms.go], [dbms_rpc.go], [dbms_mux.go],
      [chainbusservice.go], [observer.go]): the databases of a miner; [WorkerProps],
      [DbReplica], [DbmsProps]: theorems, among them the composition of Kayak, the
      service and the state; [WorkerSample]: a miner.
    - [Bus] ([src/chainbus/bus.go]): the event bus.
    - [TwoPC] ([src/twopc/twopc.go], [src/storage/storage.go]): the two-phase
      coordinator and the sqlite storage that is its worker; [TwoPCProps]: what a
      worker promises, and that storages are one database, and runs; [Dsn]
      ([src/storage/dsn.go], [src/xenomint/sqlite]): connection strings.
    - [Client] ([src/client]): connections, statements, transactions and the numbers
      of requests; [ClientProps]: what a session sends, and that the numbers fit the
      check of [Worker]; [ClientSample].
    - [Submit] ([src/blockproducer/rpc.go], [src/client/driver.go]): the service of
      a block producer and the transactions a client submits; [SubmitProps]: their
      admission by [Chain] and their effect on [Ledger], and a client that runs.
    - [KeyFile] ([src/crypto/cipher.go], [symmetric/aes.go],
      [privatekeystore.go], [localkeystore.go]): padding, password encryption, the
      key file and the local keys; [Seed] ([src/route/ipv6.go], [ipv6seed.go]): block
      producers from a DNS seed, and runs of both.
    - [Observer] ([service.go], [worker.go] of [src/sqlchain/observer]): the
      observer; [ObserverProps]: what it answers; [ObserverSample].

    ** Correspondence

    Records, fields, constants, functions and error values keep their Go names
    (record fields with a short prefix).  A pointer that may be nil is an [option],
    a nil dereference or an index out of range is [Panic], and so is [log.Fatal].
    An unsigned integer is a [Z] with its wrap-around written out ([u32], [u64]);
    float64 arithmetic is that of [SpecFloat].  A Go map is a [gmap]; where the
    code iterates over one, the theorem holds for every order of iteration, or the
    definition takes the order as an argument.  Code outside the repository
    (curves, ciphers and hash functions, MessagePack, base58 and [MarshalHash]
    codes, the SQL parser and engine, LevelDB, DNS, files, configuration values)
    enters through classes ([Env], [BlockEnv], [SqlEnv], [NodeEnv], [SeedEnv],
    [MsgPack], [LevelDB], [Wal], [Handler], [SqlParser], [SqlStore], [Sqlite],
    [KmsTable], [MetaFile], [BlockCipher], [KeyCodec], [RowChoice], [TxMarshal]) and
    the type [engine], with the documented facts about it (signing and verifying
    agree, decoding inverts encoding, hashes have 32 bytes, a rolled back
    transaction changes nothing) as fields or in classes of laws ([SqlLaws],
    [SqliteLaws]); the [Sample] files give instances.  The id of a node has a binary
    form of its own, so a stored node comes back with its id printed anew.  What the
    network does is an argument: a lost call, a late or repeated delivery, an answer
    of a peer.

    ** What the theorems show

    - Refinement: [apply] on the overlay computes what the abstract ledger computes
      ([apply_refines]); handlers of the chain are steps of the fork choice
      ([chain_refines]); storing compiled changes with their commit keeps the
      database equal to the immutable state ([store_commit_atomic]).
    - Value: no transaction but a base account creates tokens ([apply_no_mint]),
      transfers move exactly their amount, a bill of solvent users moves exactly what
      it says ([updateBilling_conserves]; that costs and credits agree is not checked
      by the code, [unbalanced_bill_accepted]) and a period is billed once.
    - Authority: accepted transactions carry and use up the next nonce and are not
      accepted again ([apply_no_replay], for single-use transactions:
      [base_account_replays] is the exception); a permission change by a user keeps a
      super user.
    - Consensus: finality ([chain_finality]), miner selection and block replay that do
      not depend on map order, an irreversible block that only moves forward.
    - Replication: any run of a Kayak leader and its followers is a run of one
      replicated log ([replication_refines]), a restarted node takes up where it
      stopped ([leader_restart], [follower_restart]), [Apply] commits or leaves no
      trace, and its errors say which but for two named cases ([Apply_atomic]); and
      composed with the services, the replicas of a database hold the content of a
      prefix of one list of requests without transaction control
      ([database_replicas_agree]).
    - Databases: a replica that replays the blocks of the leader has its content
      ([replay_converges], [block_replicates]), as long as the leader's failed requests
      leave it untouched ([failed_write_leaks_seq] shows one that does not); a chain
      whose blocks are of different periods restarts from its store
      ([restart_roundtrip]; see [same_period_restart_fails]), the sanitizer passes
      exactly what an independent description allows ([sanitizer_spec]), bills are
      what the blocks say ([billing_correct]), the pool holds every write once ([pool_life]).
    - Miners: requests are served exactly to those who may send them
      ([requests_authorized]), registry and map agree, and the meta file with them
      while its writes succeed ([registry_consistent]); the requests of a connection
      whose checks do not overlap are accepted in order and once
      ([connection_order]; see [overlapping_checks]).
    - Clients: a session sends its batches ([session_batches]), a number that waits
      is accepted ([waiting_request_accepted]), a transaction is queued at most once
      and admitted ([submission_admitted]), the database a client is told of is the
      one that is created ([create_names_database]).
    - Nodes: the ring is a map of its members ([ring_refines], [neighbors_spec]), the
      directory only holds proven identities ([dht_directory]), keys and identities
      survive files and DNS ([key_file_restart], [seed_roundtrip]).
    - Storage: storages under the two-phase coordinator are one database
      while no timeout falls into a commit phase ([twopc_one_database]; see
      [timeout_parts_storages]); an observer finds what it observed of chains with one
      block per period ([observer_answers]; see [siblings_confused]).
    - Failure: [apply] does not panic, refused transactions and blocks leave no
      trace where the code checks first, and the exceptions are stated as lemmas
      (for instance [failed_transfer_creates_account], [irreversible_moves_back]).

    ** Bounds and fuel

    Recursion is structural (on lists, on the parent chain of a block node, on the
    words of a number) except where the code loops until something outside ends it.
    [readLogs] reads at most [fuel] logs; the restart theorems show that one more
    than the log holds is enough.  [syncTo] counts the turns up to the current
    height; the walk round the ring ([around]) takes as many rounds as there are
    keys, and [neighbors_spec] says exactly when the code itself never returns.
    Mining and waiting take the list of their polls and answer nothing while it is
    not long enough.  The choice of a follower takes draws ([pickFollower_first],
    [pickFollower_never]), and a domain is read in at most [fuel] groups, where more
    groups than a fifth of the lines of its zone are enough ([seed_roundtrip]).  Theorems about
    Kayak assume that log indices stay below 2^64 ([room]), theorems about
    block counts assume that counts stay below 2^32 ([room], [wf_node]), the width
    of the counter; theorems about the merkle tree assume at most 2^63 leaves.

    ** Not modelled

    Goroutines and channels around the handlers: the mutex of a component makes each
    handler one atomic step, and steps may come in any order; a check of a service,
    which has no lock, is two steps that interleave with others; the phases of a Kayak
    request are steps of a system that interleaves them freely, and the goroutine that
    fetches a missing log is one of its deliveries.  Timeouts, apart from calls that
    fail and the timeout of a two-phase put, which may fall anywhere.  The LRU cache
    that drops the blocks of old irreversible nodes.  The aliasing of a base-account
    transaction's account into the state.  The signature caches and the
    [BypassSignature] switch of the tests.  The generated codecs.  The transport
    ([src/rpc], [src/naconn], [src/crypto/etls]) and the broadcasts of block producers,
    the reading of DSNs with [net/url], the HTTP interface of the observer, the command
    line, configuration, metrics and logging are input and output around these
    components.  The storage proofs of [src/sqlchain] are not used by it. *)
From Stdlib Require Import ZArith Lia Permutation.
From stdpp Require Import base tactics option list numbers gmap strings sorting.

#[export] Set Default Goal Selector "!".
Open Scope Z_scope.

(** * Machine integers *)

(** Go's fixed-width integers, as [Z] with the wrap-around written out. *)
Definition two32 : Z := 2 ^ 32.
Definition two64 : Z := 2 ^ 64.
Definition u8 (z : Z) : Z := z mod 2 ^ 8.
Definition u32 (z : Z) : Z := z mod two32.
Definition u64 (z : Z) : Z := z mod two64.
Definition is_u32 (z : Z) : Prop := 0 <= z < two32.
Definition is_u64 (z : Z) : Prop := 0 <= z < two64.

(** Two's complement signed 32-bit wrap, for [int32] counters. *)
Definition i32 (z : Z) : Z := (z + 2 ^ 31) mod two32 - 2 ^ 31.
Definition is_i32 (z : Z) : Prop := - 2 ^ 31 <= z < 2 ^ 31.
Definition i64 (z : Z) : Z := (z + 2 ^ 63) mod two64 - 2 ^ 63.

(** [t.Sub(u)] on times: a saturating [int64] of nanoseconds. *)
Definition time_Sub (t u : Z) : Z := Z.max (- 2 ^ 63) (Z.min (2 ^ 63 - 1) (t - u)).

#[export] Instance is_u32_dec z : Decision (is_u32 z).
Proof. unfold is_u32. apply _. Defined.
#[export] Instance is_u64_dec z : Decision (is_u64 z).
Proof. unfold is_u64. apply _. Defined.

Create HintDb gomach.

Lemma u64_range z : is_u64 (u64 z).
Proof. apply Z.mod_pos_bound. reflexivity. Qed.

Lemma u32_range z : is_u32 (u32 z).
Proof. apply Z.mod_pos_bound. reflexivity. Qed.

Lemma u64_id z : is_u64 z → u64 z = z.
Proof. apply Z.mod_small. Qed.

Lemma u32_id z : is_u32 z → u32 z = z.
Proof. apply Z.mod_small. Qed.

Lemma i32_range z : is_i32 (i32 z).
Proof.
  unfold is_i32, i32.
  pose proof (Z.mod_pos_bound (z + 2 ^ 31) two32 ltac:(reflexivity)).
  unfold two32 in *. lia.
Qed.

Lemma i32_id z : is_i32 z → i32 z = z.
Proof.
  unfold is_i32, i32, two32. intros ?. rewrite Z.mod_small by lia. lia.
Qed.

(** Incrementing a [uint32] never gives back the value it started from, wrap
    included; this is what makes nonces single use. *)
Lemma u32_succ_ne z : is_u32 z → u32 (z + 1) ≠ z.
Proof.
  unfold is_u32, u32, two32. intros Hz Heq.
  destruct (decide (z = 2 ^ 32 - 1)) as [->|Hne].
  - vm_compute in Heq. lia.
  - rewrite Z.mod_small in Heq by lia. lia.
Qed.

Lemma u64_add_overflow x y :
  is_u64 x → is_u64 y → (u64 (x + y) < x ↔ two64 <= x + y).
Proof.
  unfold is_u64, u64, two64. intros Hx Hy. split; intros H.
  - destruct (decide (2 ^ 64 <= x + y)) as [|Hn]; [done|].
    rewrite Z.mod_small in H by lia. lia.
  - replace (x + y) with ((x + y - 2 ^ 64) + 1 * 2 ^ 64) by lia.
    rewrite Z_mod_plus_full, Z.mod_small by lia. lia.
Qed.

#[export] Hint Resolve u64_range u32_range i32_range : gomach.

(** * Results of Go code *)

(** A call returns a value, returns a non-nil [error], or panics (nil
    dereference, index out of range). *)
Inductive GoResult (E A : Type) : Type :=
| Ok (a : A)
| Err (e : E)
| Panic.
Arguments Ok {E A} a.
Arguments Err {E A} e.
Arguments Panic {E A}.

#[export] Instance GoResult_eq_dec `{EqDecision E, EqDecision A} :
  EqDecision (GoResult E A).
Proof. solve_decision. Defined.

(** Stateful Go code: the state survives an error return, because Go code does
    not roll back what it already wrote. *)
Definition GoM (S E A : Type) : Type := S → GoResult E A * S.

#[export] Instance gom_ret S E : MRet (GoM S E) := λ A a s, (Ok a, s).
#[export] Instance gom_bind S E : MBind (GoM S E) := λ A B f m s,
  match m s with
  | (Ok a, s') => f a s'
  | (Err e, s') => (Err e, s')
  | (Panic, s') => (Panic, s')
  end.

Definition throw {S E A} (e : E) : GoM S E A := λ s, (Err e, s).
Definition panic {S E A} : GoM S E A := λ s, (Panic, s).
Definition getS {S E} : GoM S E S := λ s, (Ok s, s).
Definition putS {S E} (s : S) : GoM S E unit := λ _, (Ok tt, s).
Definition modifyS {S E} (f : S → S) : GoM S E unit := λ s, (Ok tt, f s).

(** [v, ok := f(); if !ok ...]: a pointer read that panics on nil. *)
Definition deref {S E A} (o : option A) : GoM S E A :=
  match o with Some a => mret a | None => panic end.

(** A pure fallible call used inside stateful code. *)
Definition liftR {S E A} (r : GoResult E A) : GoM S E A := λ s, (r, s).

(** [x, err := m()] where the caller inspects [err] itself. *)
Definition attempt {S E A} (m : GoM S E A) : GoM S E (E + A) := λ s,
  match m s with
  | (Ok a, s') => (Ok (inr a), s')
  | (Err e, s') => (Ok (inl e), s')
  | (Panic, s') => (Panic, s')
  end.

Definition result_bind {E A B} (r : GoResult E A) (f : A → GoResult E B) : GoResult E B :=
  match r with Ok a => f a | Err e => Err e | Panic => Panic end.

(** ** Reasoning about stateful code *)

(** [preserves I m]: whatever [m] returns, the invariant survives. *)
Definition preserves {S E A} (I : S → Prop) (m : GoM S E A) : Prop :=
  ∀ s r s', I s → m s = (r, s') → I s'.

(** [no_panic I m]: from a state satisfying [I], [m] does not panic. *)
Definition no_panic {S E A} (I : S → Prop) (m : GoM S E A) : Prop :=
  ∀ s s', I s → m s ≠ (Panic, s').

Section monad_lemmas.
Context {S E : Type}.
Implicit Types (I : S → Prop).

Lemma bind_Ok {A B} (m : GoM S E A) (f : A → GoM S E B) s b s' :
  mbind f m s = (Ok b, s') ↔ ∃ a s1, m s = (Ok a, s1) ∧ f a s1 = (Ok b, s').
Proof.
  unfold mbind, gom_bind. destruct (m s) as [[a|e|] s1]; split.
  - intros Hf. by exists a, s1.
  - by intros (? & ? & [= <- <-] & Hf).
  - done.
  - by intros (? & ? & ? & ?).
  - done.
  - by intros (? & ? & ? & ?).
Qed.

(** A sequence runs to its end, or stops in its first part. *)
Lemma bind_inv {A B} (m : GoM S E A) (f : A → GoM S E B) s r s' :
  mbind f m s = (r, s') →
  (∃ a s1, m s = (Ok a, s1) ∧ f a s1 = (r, s')) ∨
  (∃ r0, m s = (r0, s') ∧ (∀ a, r0 ≠ Ok a) ∧ ∀ b, r ≠ Ok b).
Proof.
  unfold mbind, gom_bind. destruct (m s) as [[a|e|] s1]; intros Hf; [by left; eauto|right..];
    injection Hf as <- <-; by eexists.
Qed.

Lemma deref_inv {A} (o : option A) (s : S) (r : GoResult E A) s' :
  deref o s = (r, s') → s' = s ∧ ∀ a, r = Ok a → o = Some a.
Proof. destruct o; intros [= <- <-]; split; congruence. Qed.

Lemma attempt_inv {A} (m : GoM S E A) s r s' : attempt m s = (r, s') →
  ∃ r0, m s = (r0, s') ∧
    match r0 with Ok a => r = Ok (inr a) | Err e => r = Ok (inl e) | Panic => r = Panic end.
Proof. unfold attempt. destruct (m s) as [[a|e|] s1]; intros [= <- <-]; by eexists. Qed.

Lemma liftR_Ok {A} (r : GoResult E A) (s s' : S) a : liftR r s = (Ok a, s') → r = Ok a.
Proof. unfold liftR. congruence. Qed.

Lemma bind_liftR_Ok {A B} (r : GoResult E A) (f : A → GoM S E B) s b s' :
  mbind f (liftR r) s = (Ok b, s') → ∃ a, r = Ok a ∧ f a s = (Ok b, s').
Proof. unfold mbind, gom_bind, liftR. destruct r as [a|e|]; [|done..]. by exists a. Qed.

Lemma bind_assoc {A B C} (m : GoM S E A) (f : A → GoM S E B) (g : B → GoM S E C) s :
  mbind g (mbind f m) s = mbind (λ a, mbind g (f a)) m s.
Proof. unfold mbind, gom_bind. by destruct (m s) as [[]]. Qed.

Lemma preserves_ret {A} I (a : A) : preserves I (mret a : GoM S E A).
Proof. by intros s r s' ? [= <- <-]. Qed.

Lemma preserves_throw {A} I e : preserves I (throw e : GoM S E A).
Proof. by intros s r s' ? [= <- <-]. Qed.

Lemma preserves_panic {A} I : preserves I (panic : GoM S E A).
Proof. by intros s r s' ? [= <- <-]. Qed.

Lemma preserves_getS I : preserves I (getS : GoM S E S).
Proof. by intros s r s' ? [= <- <-]. Qed.

Lemma preserves_liftR {A} I (r : GoResult E A) : preserves I (liftR r : GoM S E A).
Proof. by intros s r' s' ? [= <- <-]. Qed.

Lemma preserves_deref {A} I (o : option A) : preserves I (deref o : GoM S E A).
Proof. destruct o; [apply preserves_ret | apply preserves_panic]. Qed.

Lemma preserves_modifyS I f : (∀ s, I s → I (f s)) → preserves I (modifyS f : GoM S E unit).
Proof. intros H s r s' ? [= <- <-]. auto. Qed.

Lemma preserves_bind {A B} I (m : GoM S E A) (f : A → GoM S E B) :
  preserves I m → (∀ a, preserves I (f a)) → preserves I (mbind f m).
Proof.
  intros Hm Hf s r s' HI. unfold mbind, gom_bind.
  destruct (m s) as [[a|e|] s1] eqn:E1; intros H; simplify_eq; eauto.
  eapply Hf; [|done]. eauto.
Qed.

Lemma preserves_attempt {A} I (m : GoM S E A) : preserves I m → preserves I (attempt m).
Proof.
  intros Hm s r s' HI. unfold attempt.
  destruct (m s) as [[a|e|] s1] eqn:E1; intros [= <- <-]; eauto.
Qed.
End monad_lemmas.

#[export] Hint Resolve preserves_ret preserves_throw preserves_panic preserves_getS
  preserves_liftR preserves_deref preserves_attempt : gomach.

(** Split a goal [preserves I (x ← m; k)] along the code's own structure. *)
Ltac preserve_step :=
  match goal with
  | |- preserves _ (mbind _ _) => apply preserves_bind; [|intros ?]
  | |- preserves _ (match ?x with _ => _ end) => destruct x eqn:?
  | |- preserves _ _ => solve [auto with gomach]
  end.

(** Run one statement of stateful code in hypothesis [H]. *)
Ltac go_step H :=
  match type of H with
  | context [match ?x with _ => _ end] =>
      lazymatch x with context [match _ with _ => _ end] => fail | _ => destruct x eqn:? end
  end; simplify_eq.

(** Unfold the monad's plumbing in a hypothesis or in the goal. *)
Tactic Notation "go_unfold" "in" hyp(H) :=
  unfold mbind, gom_bind, mret, gom_ret, throw, panic, getS, putS, modifyS, deref,
    liftR, attempt in H; cbn beta iota zeta in H.
Tactic Notation "go_unfold" :=
  unfold mbind, gom_bind, mret, gom_ret, throw, panic, getS, putS, modifyS, deref,
    liftR, attempt; cbn beta iota zeta.

(** ** Runs related by a preorder *)

(** [keeps R s m]: running [m] from [s] ends in a state related to [s] by [R],
    whatever it returns. *)
Definition keeps {S E A} (R : S → S → Prop) (s : S) (m : GoM S E A) : Prop := R s (m s).2.

Section keeps.
Context {S E : Type} (R : S → S → Prop) `{!PreOrder R}.

Lemma keeps_pure {A} s (m : GoM S E A) : (m s).2 = s → keeps R s m.
Proof. unfold keeps. by intros ->. Qed.

Lemma keeps_bind {A B} s (m : GoM S E A) (k : A → GoM S E B) :
  keeps R s m → (∀ a s', m s = (Ok a, s') → keeps R s' (k a)) → keeps R s (mbind k m).
Proof.
  unfold keeps, mbind, gom_bind. intros Hm Hk.
  destruct (m s) as [[a|e|] s']; cbn in *; [|done..]. etrans; [done|]. by apply Hk.
Qed.

Lemma keeps_pure_bind {A B} s (m : GoM S E A) (k : A → GoM S E B) :
  (m s).2 = s → (∀ a, m s = (Ok a, s) → keeps R s (k a)) → keeps R s (mbind k m).
Proof.
  intros Hm Hk. apply keeps_bind; [by apply keeps_pure|].
  intros a s' Ha. rewrite Ha in Hm. cbn in Hm. subst s'. by apply Hk.
Qed.

Lemma keeps_getS {A} s (k : S → GoM S E A) : keeps R s (k s) → keeps R s (mbind k getS).
Proof. done. Qed.

Lemma keeps_attempt {A} s (m : GoM S E A) : keeps R s m → keeps R s (attempt m).
Proof. unfold keeps, attempt. by destruct (m s) as [[]]. Qed.
End keeps.

(** ** Lists *)

Lemma elem_of_insert_inv {A} (l : list A) i x y : y ∈ <[i := x]> l → y = x ∨ y ∈ l.
Proof.
  intros [j Hj]%list_elem_of_lookup. destruct (decide (i = j)) as [<-|Hne].
  - destruct (decide (i < length l)%nat).
    + rewrite list_lookup_insert_eq in Hj by done. left. congruence.
    + rewrite list_insert_ge in Hj by lia. right. by eapply list_elem_of_lookup_2.
  - rewrite list_lookup_insert_ne in Hj by done. right. by eapply list_elem_of_lookup_2.
Qed.

(** ** Codes *)

(** [utils.EncodeMsgPack] and [utils.DecodeMsgPack] at one type. *)
Class MsgPack (A : Type) := {
  EncodeMsgPack : A → option (list Z);
  DecodeMsgPack : list Z → option A;
  Decode_Encode : ∀ a enc, EncodeMsgPack a = Some enc → DecodeMsgPack enc = Some a;
}.
