(* ===== verification/Hash.v ===== *)
(** * crypto/hash: the 32-byte [Hash], its hexadecimal form and its difficulty

    Models [src/crypto/hash/hash.go]: the byte-reversed hexadecimal printer
    ([Hash.String], [Hash.Short]), its parser ([Decode], [NewHashFromStr]), byte
    constructors and the leading-zero-bit count ([Hash.Difficulty]), together
    with the two conversions of [src/proto] built on them
    ([AccountAddress.DatabaseID] and [DatabaseID.AccountAddress]).  Bytes are
    [Z] in [0, 256); a [Hash] is the list of its bytes, 32 of them when
    [valid_hash] holds.  Go's [encoding/hex] is written out. *)
From S2P Require Import Prelude.
From Stdlib Require Import Ascii String ZArith Lia.
From stdpp Require Import base list numbers strings.
Local Open Scope Z_scope.

Definition HashSize : nat := 32.
Definition MaxHashStringSize : nat := HashSize * 2.

(** [type Hash [HashSize]byte] *)
Abbreviation Hash := (list Z).

Definition is_byte (b : Z) : Prop := 0 <= b < 256.
Definition valid_hash (h : Hash) : Prop := length h = HashSize ∧ Forall is_byte h.

(** The zero value [hash.Hash{}]. *)
Definition zeroHash : Hash := replicate HashSize 0.

#[export] Instance is_byte_dec b : Decision (is_byte b).
Proof. unfold is_byte. apply _. Defined.
#[export] Instance valid_hash_dec h : Decision (valid_hash h).
Proof. unfold valid_hash. apply _. Defined.

Inductive HashError := ErrHashStrSize | InvalidByteError | ErrHashLength.

(** [[]byte(s)] *)
Definition string_bytes (s : string) : list Z :=
  (λ c, Z.of_N (N_of_ascii c)) <$> String.list_ascii_of_string s.

(** ** encoding/hex *)

Definition hexChar (d : Z) : ascii :=
  if decide (d < 10) then ascii_of_N (Z.to_N (48 + d)) else ascii_of_N (Z.to_N (87 + d)).

Definition fromHexChar (c : ascii) : option Z :=
  let n := Z.of_N (N_of_ascii c) in
  if decide (48 <= n ∧ n <= 57) then Some (n - 48)
  else if decide (97 <= n ∧ n <= 102) then Some (n - 97 + 10)
  else if decide (65 <= n ∧ n <= 70) then Some (n - 65 + 10)
  else None.

(** [hex.EncodeToString] *)
Fixpoint EncodeToString (bs : list Z) : string :=
  match bs with
  | [] => EmptyString
  | b :: bs => String (hexChar (Z.shiftr b 4)) (String (hexChar (Z.land b 15)) (EncodeToString bs))
  end.

(** [hex.Decode]: pairs of digits, an error on the first byte that is not one. *)
Fixpoint hexDecode (s : string) : option (list Z) :=
  match s with
  | EmptyString => Some []
  | String a (String b s) =>
      match fromHexChar a, fromHexChar b with
      | Some x, Some y => r ← hexDecode s; Some (Z.lor (Z.shiftl x 4) y :: r)
      | _, _ => None
      end
  | String _ EmptyString => None
  end.

(** ** Hash methods *)

(** The in-place swap loop of [Hash.String]: [h[i], h[31-i] = h[31-i], h[i]]
    for [i < HashSize/2]. *)
Definition swap_at (h : Hash) (i : nat) : Hash :=
  match h !! i, h !! (HashSize - 1 - i)%nat with
  | Some a, Some b => <[i := b]> (<[(HashSize - 1 - i)%nat := a]> h)
  | _, _ => h
  end.
Definition swap_loop (h : Hash) : Hash := foldl swap_at h (seq 0 (HashSize / 2)).

Definition Hash_String (h : Hash) : string := EncodeToString (swap_loop h).

Definition Hash_Short (h : Hash) (n : nat) : string :=
  let l := if decide (n < HashSize)%nat then n else HashSize in
  EncodeToString (take l (swap_loop h)).

Definition Hash_SetBytes (newHash : list Z) : GoResult HashError Hash :=
  if decide (length newHash = HashSize) then Ok newHash else Err ErrHashLength.

Definition NewHash (newHash : list Z) : GoResult HashError Hash := Hash_SetBytes newHash.

Definition Hash_IsEqual (h target : option Hash) : bool :=
  match h, target with
  | None, None => true
  | Some a, Some b => bool_decide (a = b)
  | _, _ => false
  end.

(** [math/bits.LeadingZeros8] on a non-zero byte. *)
Definition LeadingZeros8 (v : Z) : Z := 8 - (Z.log2 v + 1).

(** The loop of [Hash.Difficulty], over the bytes from the last one down. *)
Fixpoint difficulty_loop (i : Z) (rev_bytes : list Z) : Z :=
  match rev_bytes with
  | [] => 8 * i
  | v :: r => if decide (v ≠ 0) then 8 * i + LeadingZeros8 v else difficulty_loop (i + 1) r
  end.

Definition Hash_Difficulty (h : option Hash) : Z :=
  match h with None => -1 | Some h => difficulty_loop 0 (reverse h) end.

(** [Decode]: length check, odd-length padding with ['0'], hexadecimal decoding
    into the right-aligned temporary, reversed copy. *)
Definition Decode (src : string) : GoResult HashError Hash :=
  if decide (MaxHashStringSize < String.length src)%nat then Err ErrHashStrSize
  else
    let srcBytes := if decide (Nat.modulo (String.length src) 2 = 0)%nat then src
                    else String "0"%char src in
    match hexDecode srcBytes with
    | None => Err InvalidByteError
    | Some bs => Ok (reverse (replicate (HashSize - length bs) 0 ++ bs))
    end.

Definition NewHashFromStr (s : string) : GoResult HashError Hash := Decode s.

(** ** proto: addresses and database identifiers *)

(** [AccountAddress.DatabaseID] and [AccountAddress.String]. *)
Definition DatabaseID_of (a : Hash) : string := Hash_String a.

(** [DatabaseID.AccountAddress] *)
Definition AccountAddress_of (d : string) : GoResult HashError Hash := NewHashFromStr d.

(** * Properties *)

Lemma hexChar_fromHexChar d : 0 <= d < 16 → fromHexChar (hexChar d) = Some d.
Proof.
  intros Hd.
  assert (d = 0 ∨ d = 1 ∨ d = 2 ∨ d = 3 ∨ d = 4 ∨ d = 5 ∨ d = 6 ∨ d = 7 ∨ d = 8 ∨
    d = 9 ∨ d = 10 ∨ d = 11 ∨ d = 12 ∨ d = 13 ∨ d = 14 ∨ d = 15) by lia.
  destruct_or!; subst; reflexivity.
Qed.

Lemma byte_split b : is_byte b →
  0 <= Z.shiftr b 4 < 16 ∧ 0 <= Z.land b 15 < 16 ∧
  Z.lor (Z.shiftl (Z.shiftr b 4) 4) (Z.land b 15) = b.
Proof.
  intros Hb. unfold is_byte in Hb.
  change 15 with (Z.ones 4). rewrite Z.land_ones by lia.
  rewrite Z.shiftr_div_pow2 by lia. change (2 ^ 4) with 16.
  pose proof (Z.mod_pos_bound b 16 ltac:(lia)).
  split; [split; [apply Z.div_pos; lia | apply Z.div_lt_upper_bound; lia]|].
  split; [done|]. change 16 with (2 ^ 4).
  rewrite <- Z.land_ones, <- Z.shiftr_div_pow2 by lia.
  rewrite <- Z.ldiff_ones_r by lia. apply Z.lor_ldiff_and.
Qed.

(** Decoding what the encoder printed gives the bytes back. *)
Lemma hexDecode_EncodeToString bs :
  Forall is_byte bs → hexDecode (EncodeToString bs) = Some bs.
Proof.
  induction 1 as [|b bs Hb _ IH]; [done|].
  destruct (byte_split b Hb) as (H1 & H2 & H3). cbn [EncodeToString hexDecode].
  rewrite !hexChar_fromHexChar by done. rewrite IH. cbn. by rewrite H3.
Qed.

Lemma EncodeToString_length bs : String.length (EncodeToString bs) = (2 * length bs)%nat.
Proof. induction bs as [|b bs IH]; cbn [EncodeToString String.length length]; lia. Qed.

(** The swap loop is list reversal. *)
Lemma swap_loop_reverse (h : Hash) : length h = HashSize → swap_loop h = reverse h.
Proof.
  unfold HashSize. intros Hl.
  do 32 (destruct h as [|? h]; [discriminate Hl|]).
  destruct h; [|discriminate Hl]. reflexivity.
Qed.

Lemma reverse_valid h : valid_hash h → valid_hash (reverse h).
Proof.
  intros [Hl Hf]. split; [by rewrite length_reverse|]. by apply Forall_reverse.
Qed.

Lemma Decode_Hash_String h : valid_hash h → Decode (Hash_String h) = Ok h.
Proof.
  intros [Hl Hf]. unfold Decode, Hash_String. rewrite swap_loop_reverse by done.
  rewrite EncodeToString_length, length_reverse, Hl.
  rewrite decide_False by (unfold MaxHashStringSize; lia).
  rewrite decide_True by reflexivity.
  rewrite hexDecode_EncodeToString by (by apply Forall_reverse).
  rewrite length_reverse, Hl, Nat.sub_diag. cbn [replicate app].
  by rewrite reverse_involutive.
Qed.

(** Printing a hash and parsing the text gives the same hash back, so the
    string forms used as database keys denote exactly one hash. *)
Theorem Decode_String h : valid_hash h → Decode (Hash_String h) = Ok h.
Proof. apply Decode_Hash_String. Qed.

Lemma Decode_String_witness :
  valid_hash (seqZ 3 32) ∧ Decode (Hash_String (seqZ 3 32)) = Ok (seqZ 3 32).
Proof.
  assert (valid_hash (seqZ 3 32)) as H by (by apply (bool_decide_unpack _); vm_compute).
  split; [exact H|]. apply Decode_String. exact H.
Defined.

(** Distinct valid hashes print differently: [AccountAddress.DatabaseID] is
    injective, so one database identifier belongs to one address. *)
Lemma Hash_String_inj h1 h2 :
  valid_hash h1 → valid_hash h2 → Hash_String h1 = Hash_String h2 → h1 = h2.
Proof.
  intros H1 H2 He. apply (f_equal Decode) in He.
  rewrite !Decode_Hash_String in He by done. by injection He.
Qed.

Lemma hexDecode_valid s bs : hexDecode s = Some bs →
  Forall is_byte bs ∧ (2 * length bs = String.length s)%nat.
Proof.
  revert s. induction bs as [|b bs IH]; intros s Hs.
  - destruct s as [|a [|b s]]; simplify_eq/=; [done|].
    destruct (fromHexChar a), (fromHexChar b); try done. by destruct (hexDecode s).
  - destruct s as [|a [|c s]]; simplify_eq/=.
    destruct (fromHexChar a) as [x|] eqn:Ha, (fromHexChar c) as [y|] eqn:Hc; try done.
    destruct (hexDecode s) as [r|] eqn:Hr; simplify_eq/=.
    destruct (IH s Hr) as [Hf Hl]. split; [|lia].
    constructor; [|done].
    assert (∀ ch d, fromHexChar ch = Some d → 0 <= d < 16) as Hdig.
    { intros ch d. unfold fromHexChar. intros H. repeat case_decide; simplify_eq; lia. }
    apply Hdig in Ha, Hc. unfold is_byte.
    assert (0 <= Z.lor (Z.shiftl x 4) y) by (apply Z.lor_nonneg; split; [apply Z.shiftl_nonneg|]; lia).
    split; [done|].
    destruct (decide (Z.lor (Z.shiftl x 4) y = 0)) as [->|]; [lia|].
    apply Z.log2_lt_cancel. rewrite Z.log2_lor, Z.max_lub_lt_iff
      by (try apply Z.shiftl_nonneg; lia).
    change (Z.log2 256) with 8. split.
    + rewrite Z.shiftl_mul_pow2 by lia. apply Z.le_lt_trans with (Z.log2 (15 * 2 ^ 4)); [|reflexivity].
      apply Z.log2_le_mono. lia.
    + apply Z.le_lt_trans with (Z.log2 15); [|reflexivity]. apply Z.log2_le_mono. lia.
Qed.

(** Whatever text it is given, [Decode] either rejects it or returns a
    well-formed 32-byte hash; short texts are zero-extended, never truncated. *)
Theorem Decode_valid s :
  (∃ h, Decode s = Ok h ∧ valid_hash h ∧ (String.length s <= MaxHashStringSize)%nat) ∨
  (Decode s = Err ErrHashStrSize ∧ (MaxHashStringSize < String.length s)%nat) ∨
  Decode s = Err InvalidByteError.
Proof.
  unfold Decode. case_decide as Hlen; [auto|].
  set (src := if decide _ then s else _).
  assert (String.length src <= MaxHashStringSize)%nat as Hsrc.
  { subst src. unfold MaxHashStringSize, HashSize in *. case_decide as Hm; [lia|].
    cbn [String.length]. destruct (decide (String.length s = 64)%nat) as [He|]; [|lia].
    rewrite He in Hm. by destruct Hm. }
  destruct (hexDecode src) as [bs|] eqn:Hd; [left|auto].
  destruct (hexDecode_valid _ _ Hd) as [Hf Hl].
  eexists; split; [done|]. split; [|lia].
  apply reverse_valid. unfold valid_hash, MaxHashStringSize, HashSize in *.
  rewrite length_app, length_replicate. split; [lia|].
  apply Forall_app; split; [|done]. apply Forall_replicate. unfold is_byte. lia.
Qed.

(** ** Difficulty *)

(** The unsigned integer whose little-endian bytes are the hash, i.e. the number
    the byte-reversed hexadecimal string denotes. *)
Fixpoint le_value (bs : list Z) : Z :=
  match bs with [] => 0 | b :: r => b + 256 * le_value r end.

Lemma le_value_app bs b :
  le_value (bs ++ [b]) = le_value bs + 256 ^ Z.of_nat (length bs) * b.
Proof.
  induction bs as [|c bs IH]; [cbn; lia|].
  cbn [app le_value length]. rewrite IH, Nat2Z.inj_succ, Z.pow_succ_r by lia. lia.
Qed.

Lemma le_value_bound bs : Forall is_byte bs → 0 <= le_value bs < 256 ^ Z.of_nat (length bs).
Proof.
  induction 1 as [|b bs Hb _ IH]; [cbn; lia|].
  cbn [le_value length]. rewrite Nat2Z.inj_succ, Z.pow_succ_r by lia.
  unfold is_byte in Hb. lia.
Qed.

Lemma LeadingZeros8_spec v : is_byte v → v ≠ 0 →
  0 <= LeadingZeros8 v < 8 ∧ 2 ^ (7 - LeadingZeros8 v) <= v < 2 ^ (8 - LeadingZeros8 v).
Proof.
  unfold is_byte, LeadingZeros8. intros Hb Hv.
  destruct (Z.log2_spec v ltac:(lia)) as [H1 H2].
  assert (0 <= Z.log2 v) by apply Z.log2_nonneg.
  assert (Z.log2 v < 8) by (apply Z.log2_lt_pow2; lia).
  split; [lia|].
  replace (7 - (8 - (Z.log2 v + 1))) with (Z.log2 v) by lia.
  replace (8 - (8 - (Z.log2 v + 1))) with (Z.succ (Z.log2 v)) by lia. done.
Qed.

Lemma difficulty_loop_spec bs i d :
  Forall is_byte bs → 0 <= i → difficulty_loop i (reverse bs) = d →
  le_value bs = 0 ∧ d = 8 * (i + Z.of_nat (length bs)) ∨
  8 * i <= d < 8 * (i + Z.of_nat (length bs)) ∧
  2 ^ (8 * (i + Z.of_nat (length bs)) - 1 - d) <= le_value bs
    < 2 ^ (8 * (i + Z.of_nat (length bs)) - d).
Proof.
  revert i d. induction bs as [|b bs IH] using rev_ind; intros i d Hf Hi Hd.
  { left. cbn in *. split; [done|lia]. }
  apply Forall_app in Hf as [Hf Hb]. apply Forall_cons in Hb as [Hb _].
  rewrite reverse_app in Hd. cbn [reverse rev_append app difficulty_loop] in Hd.
  change (reverse [b] ++ reverse bs) with (b :: reverse bs) in Hd.
  rewrite le_value_app, length_app. cbn [length]. rewrite Nat2Z.inj_add. change (Z.of_nat 1) with 1.
  pose proof (le_value_bound bs Hf) as Hlb.
  set (n := Z.of_nat (length bs)) in *. assert (0 <= n) by lia.
  replace (256 ^ n) with (2 ^ (8 * n)) in * by (rewrite Z.pow_mul_r by lia; done).
  cbn [difficulty_loop] in Hd. case_decide as Hz.
  - right. destruct (LeadingZeros8_spec b Hb Hz) as [Hr [Hlo Hhi]].
    set (lz := LeadingZeros8 b) in *. split; [lia|].
    replace (8 * (i + (n + 1)) - 1 - d) with (8 * n + (7 - lz)) by lia.
    replace (8 * (i + (n + 1)) - d) with (8 * n + (8 - lz)) by lia.
    rewrite !Z.pow_add_r by lia.
    assert (b + 1 <= 2 ^ (8 - lz)) by lia.
    set (P := 2 ^ (8 * n)) in *. nia.
  - assert (b = 0) as -> by (destruct (decide (b = 0)); [done|tauto]).
    destruct (IH (i + 1) d Hf ltac:(lia) Hd) as [[Hv ->]|[Hr Hv]].
    + left. split; [lia|lia].
    + right. split; [lia|].
      replace (8 * (i + (n + 1)) - 1 - d) with (8 * (i + 1 + n) - 1 - d) by lia.
      replace (8 * (i + (n + 1)) - d) with (8 * (i + 1 + n) - d) by lia. lia.
Qed.

(** [Difficulty] is the number of leading zero bits of the 256-bit integer
    the hash denotes: 256 for zero, and otherwise the value lies in
    [2^(255-d), 2^(256-d)). *)
Theorem Difficulty_spec h : valid_hash h →
  let d := Hash_Difficulty (Some h) in
  0 <= d <= 256 ∧
  (d = 256 → le_value h = 0) ∧
  (d < 256 → 2 ^ (255 - d) <= le_value h < 2 ^ (256 - d)).
Proof.
  intros [Hl Hf] d.
  destruct (difficulty_loop_spec h 0 d Hf ltac:(lia) eq_refl) as [[Hv Hd]|[Hr Hv]];
    rewrite Hl in *; change (8 * (0 + Z.of_nat HashSize)) with 256 in *.
  - split; [lia|]. split; [done|lia].
  - split; [lia|]. split; [lia|]. intros _.
    by replace (255 - d) with (256 - 1 - d) by lia.
Qed.

Lemma Difficulty_spec_witness :
  valid_hash (replicate 31 0 ++ [16]) ∧ Hash_Difficulty (Some (replicate 31 0 ++ [16])) = 3 ∧
  2 ^ (255 - 3) <= le_value (replicate 31 0 ++ [16]).
Proof.
  assert (valid_hash (replicate 31 0 ++ [16])) as H
    by (by apply (bool_decide_unpack _); vm_compute).
  split; [exact H|]. split; [vm_compute; reflexivity|].
  apply (Difficulty_spec (replicate 31 0 ++ [16]) H). vm_compute. reflexivity.
Defined.
