(* ===== verification/Merkle.v ===== *)
(** * merkle: the array-based Merkle tree

    Models [src/merkle/merkletrie.go]: [upperPowOfTwo], [NewMerkle], [GetRoot]
    and [MergeTwoHash].  The tree is the Go slice itself, a list of optional
    hashes ([None] is the nil pointer), filled by the same loop over [offset].
    [THashH] (sha256 of blake2b-512, a third-party package) is a parameter.
    The theorems show that the slice algorithm computes the root of the perfect
    binary tree over the padded leaves. *)
From S2P Require Import Prelude Hash.
From Stdlib Require Import ZArith Lia.
From stdpp Require Import base list numbers.
Local Open Scope Z_scope.

(** ** Rounding up to a power of two *)

Definition upperPowOfTwo (n : Z) : Z :=
  let n := u64 (n - 1) in
  let n := Z.lor n (Z.shiftr n 1) in
  let n := Z.lor n (Z.shiftr n 2) in
  let n := Z.lor n (Z.shiftr n 4) in
  let n := Z.lor n (Z.shiftr n 8) in
  let n := Z.lor n (Z.shiftr n 16) in
  let n := Z.lor n (Z.shiftr n 32) in
  u64 (n + 1).

(** [x] has bit [i] exactly when [m] has one of the bits [i .. i+w-1]. *)
Definition smeared (w x m : Z) : Prop :=
  0 <= x ∧
  ∀ i, 0 <= i → (Z.testbit x i = true ↔ ∃ d, 0 <= d < w ∧ Z.testbit m (i + d) = true).

Lemma smeared_start m : 0 <= m → smeared 1 m m.
Proof.
  intros Hm. split; [done|]. intros i Hi. split.
  - intros H. exists 0. by rewrite Z.add_0_r.
  - intros (d & Hd & H). by replace (i + d) with i in H by lia.
Qed.

Lemma smeared_double w w' x m :
  0 < w → w' = 2 * w → smeared w x m → smeared w' (Z.lor x (Z.shiftr x w)) m.
Proof.
  intros Hw -> [Hx0 Hx]. split.
  { apply Z.lor_nonneg. by rewrite Z.shiftr_nonneg. }
  intros i Hi. rewrite Z.lor_spec, Z.shiftr_spec by lia.
  rewrite orb_true_iff, (Hx i Hi), (Hx (i + w)) by lia. split.
  - intros [(d & Hd & H)|(d & Hd & H)]; [exists d; split; [lia|done]|].
    exists (w + d). split; [lia|]. by rewrite Z.add_assoc.
  - intros (d & Hd & H). destruct (decide (d < w)); [left; exists d; split; [lia|done]|].
    right. exists (d - w). split; [lia|]. by replace (i + w + (d - w)) with (i + d) by lia.
Qed.

Lemma smeared_ones x m : 0 < m < two64 → smeared 64 x m → x = Z.ones (Z.log2 m + 1).
Proof.
  intros [Hm Hm64] [Hx0 Hx]. apply Z.bits_inj'. intros i Hi.
  assert (0 <= Z.log2 m) by apply Z.log2_nonneg.
  assert (Z.log2 m < 64) by (apply Z.log2_lt_pow2; done).
  destruct (decide (i < Z.log2 m + 1)) as [Hlt|Hge].
  - rewrite Z.ones_spec_low by lia. apply Hx; [done|].
    exists (Z.log2 m - i). split; [lia|]. replace (i + _) with (Z.log2 m) by lia.
    by apply Z.bit_log2.
  - rewrite Z.ones_spec_high by lia. apply not_true_is_false. rewrite (Hx i Hi).
    intros (d & Hd & Hb). rewrite Z.bits_above_log2 in Hb by lia. done.
Qed.

Lemma upperPowOfTwo_pow n :
  1 <= n <= 2 ^ 63 → upperPowOfTwo n = 2 ^ Z.log2_up n.
Proof.
  intros Hn. unfold upperPowOfTwo. rewrite (u64_id (n - 1)) by (unfold is_u64, two64; lia).
  destruct (decide (n = 1)) as [->|Hne]; [reflexivity|].
  rewrite Z.log2_up_eqn by lia. rewrite <- Z.sub_1_r.
  set (m := n - 1). assert (0 < m < 2 ^ 63) as Hm by (unfold m; lia).
  assert (0 <= Z.log2 m) by apply Z.log2_nonneg.
  assert (Z.log2 m < 63) by (apply Z.log2_lt_pow2; lia).
  assert (0 <= m) as Hm0 by lia. pose proof (smeared_start m Hm0) as Hs.
  apply (smeared_double 1 2) in Hs; [|lia..].
  apply (smeared_double 2 4) in Hs; [|lia..].
  apply (smeared_double 4 8) in Hs; [|lia..].
  apply (smeared_double 8 16) in Hs; [|lia..].
  apply (smeared_double 16 32) in Hs; [|lia..].
  apply (smeared_double 32 64) in Hs; [|lia..].
  apply smeared_ones in Hs; [|unfold two64; lia]. cbv zeta. rewrite Hs, Z.ones_equiv.
  replace (Z.pred (2 ^ (Z.log2 m + 1)) + 1) with (2 ^ Z.succ (Z.log2 m)) by (rewrite <- Z.add_1_r; lia).
  apply u64_id. unfold is_u64, two64. split; [lia|]. apply Z.pow_lt_mono_r; lia.
Qed.

(** [upperPowOfTwo] rounds up to the next power of two, for every length up
    to 2^63 (the bound the source comment assumes). *)
Theorem upperPowOfTwo_spec n :
  1 <= n <= 2 ^ 63 → upperPowOfTwo n = 2 ^ Z.log2_up n.
Proof. apply upperPowOfTwo_pow. Qed.

Lemma upperPowOfTwo_spec_witness : 1 <= 5 <= 2 ^ 63 ∧ upperPowOfTwo 5 = 2 ^ Z.log2_up 5.
Proof. split; [lia|]. apply upperPowOfTwo_spec. lia. Defined.

(** ** The tree *)

Section merkle.
(** [hash.THashH] *)
Context (THashH : list Z → Hash).

Definition MergeTwoHash (l r : Hash) : Hash := THashH (l ++ r).

(** One iteration's right-hand side: what is stored at [hashArray[offset]]. *)
Definition mergeNode (l r : option Hash) : option Hash :=
  match l, r with
  | Some a, Some b => Some (MergeTwoHash a b)
  | Some a, None => Some (MergeTwoHash a a)
  | None, _ => None
  end.

(** [hashArray[i]], with nil for an empty slot. *)
Definition slot (arr : list (option Hash)) (i : nat) : option Hash :=
  default None (arr !! i).

(** The loop [for i := 0; i < maxMerkleSize-1; i += 2 { ...; offset++ }], at
    its [j]-th iteration: [i = 2*j] and [offset = upperPoT + j]. *)
Definition merkle_step (upperPoT : nat) (arr : list (option Hash)) (j : nat) : list (option Hash) :=
  <[(upperPoT + j)%nat := mergeNode (slot arr (2 * j)) (slot arr (2 * j + 1))]> arr.

Definition NewMerkle (items : list (option Hash)) : list (option Hash) :=
  let items := match items with [] => [Some zeroHash] | _ => items end in
  let upperPoT := Z.to_nat (upperPowOfTwo (Z.of_nat (length items))) in
  let maxMerkleSize := (upperPoT * 2 - 1)%nat in
  let hashArray := items ++ replicate (maxMerkleSize - length items) None in
  foldl (merkle_step upperPoT) hashArray (seq 0 (upperPoT - 1)).

Definition GetRoot (tree : list (option Hash)) : option Hash :=
  slot tree (length tree - 1).

(** *** Reference: the perfect binary tree over the padded leaves *)

(** The value of the [i]-th node at height [k] above the leaves. *)
Fixpoint treeNode (items : list (option Hash)) (k i : nat) : option Hash :=
  match k with
  | O => slot items i
  | S k => mergeNode (treeNode items k (2 * i)) (treeNode items k (2 * i + 1))
  end.

(** Where node [(k, i)] lives in the slice of a tree with [2^K] leaves. *)
Definition treePos (K k i : nat) : nat := (2 ^ (K + 1) - 2 ^ (K + 1 - k) + i)%nat.

Lemma treePos_child K k i : (S k <= K)%nat → (i < 2 ^ (K - S k))%nat →
  ∃ j, treePos K (S k) i = (2 ^ K + j)%nat ∧ treePos K k (2 * i) = (2 * j)%nat ∧
       treePos K k (2 * i + 1) = (2 * j + 1)%nat ∧ (j < 2 ^ K - 1)%nat.
Proof.
  intros Hk Hi. unfold treePos.
  assert (2 ^ (K + 1) = 2 * 2 ^ K)%nat as -> by (rewrite Nat.add_1_r; done).
  replace (K + 1 - S k)%nat with (K - k)%nat by lia.
  replace (K + 1 - k)%nat with (S (K - k))%nat by lia.
  replace (K - k)%nat with (S (K - S k))%nat in * by lia.
  rewrite !Nat.pow_succ_r'.
  set (q := (2 ^ (K - S k))%nat) in *.
  assert (2 ^ K = 2 ^ S k * q)%nat as HK.
  { unfold q. rewrite <- Nat.pow_add_r. f_equal. lia. }
  assert (2 ^ S k >= 2)%nat by (rewrite Nat.pow_succ_r'; pose proof (Nat.pow_nonzero 2 k); lia).
  assert (2 * q <= 2 ^ K)%nat by nia.
  exists (2 ^ K - 2 * q + i)%nat. lia.
Qed.

Lemma slot_insert_ne arr i j x : i ≠ j → slot (<[i := x]> arr) j = slot arr j.
Proof. intros Hne. unfold slot. by rewrite list_lookup_insert_ne. Qed.

Lemma slot_insert_eq arr i x : (i < length arr)%nat → slot (<[i := x]> arr) i = x.
Proof. intros Hi. unfold slot. by rewrite list_lookup_insert_eq. Qed.

Lemma slot_app_replicate items m i : slot (items ++ replicate m None) i = slot items i.
Proof.
  unfold slot. destruct (decide (i < length items)%nat).
  { by rewrite lookup_app_l. }
  rewrite lookup_app_r, (lookup_ge_None_2 items) by lia.
  destruct (replicate m None !! _) as [x|] eqn:Hx; [|done].
  apply lookup_replicate in Hx as [-> _]. done.
Qed.

(** What the loop has established after [n] iterations. *)
Lemma merkle_loop_spec N arr n :
  length arr = (N * 2 - 1)%nat → (n <= N - 1)%nat →
  let arr' := foldl (merkle_step N) arr (seq 0 n) in
  length arr' = length arr ∧
  (∀ i, (i < N)%nat → slot arr' i = slot arr i) ∧
  (∀ j, (j < n)%nat → slot arr' (N + j) = mergeNode (slot arr' (2 * j)) (slot arr' (2 * j + 1))).
Proof.
  intros Hl. induction n as [|n IH]; intros Hn; cbv zeta.
  { cbn. split_and!; [done..|lia]. }
  rewrite seq_S, foldl_snoc. cbn [Nat.add].
  destruct (IH ltac:(lia)) as (IH1 & IH2 & IH3).
  set (a := foldl (merkle_step N) arr (seq 0 n)) in *. unfold merkle_step.
  split_and!.
  - by rewrite length_insert.
  - intros i Hi. rewrite slot_insert_ne by lia. auto.
  - intros j Hj. rewrite (slot_insert_ne _ _ (2 * j)), (slot_insert_ne _ _ (2 * j + 1)) by lia.
    destruct (decide (j = n)) as [->|Hne].
    + rewrite slot_insert_eq by lia. done.
    + rewrite slot_insert_ne by lia. apply IH3. lia.
Qed.

Lemma merkle_slots items K arr :
  (∀ i, (i < 2 ^ K)%nat → slot arr i = slot items i) →
  (∀ j, (j < 2 ^ K - 1)%nat →
    slot arr (2 ^ K + j) = mergeNode (slot arr (2 * j)) (slot arr (2 * j + 1))) →
  ∀ k i, (k <= K)%nat → (i < 2 ^ (K - k))%nat → slot arr (treePos K k i) = treeNode items k i.
Proof.
  intros Hleaf Hnode k. induction k as [|k IH]; intros i Hk Hi.
  { unfold treePos. rewrite Nat.sub_0_r in *. rewrite Nat.sub_diag. auto. }
  destruct (treePos_child K k i Hk Hi) as (j & -> & H0 & H1 & Hj).
  assert (2 ^ (K - k) = 2 * 2 ^ (K - S k))%nat as Hp.
  { rewrite <- Nat.pow_succ_r'. f_equal. lia. }
  rewrite Hnode by done. cbn [treeNode].
  rewrite <- H1, <- H0, !IH by lia. done.
Qed.

Definition leaves (items : list (option Hash)) : list (option Hash) :=
  match items with [] => [Some zeroHash] | _ => items end.

Definition treeHeight (items : list (option Hash)) : nat :=
  Z.to_nat (Z.log2_up (Z.of_nat (length (leaves items)))).

Lemma upperPoT_height items : Z.of_nat (length (leaves items)) <= 2 ^ 63 →
  Z.to_nat (upperPowOfTwo (Z.of_nat (length (leaves items)))) = (2 ^ treeHeight items)%nat ∧
  (length (leaves items) <= 2 ^ treeHeight items)%nat.
Proof.
  intros Hle. assert (1 <= length (leaves items))%nat by (destruct items; cbn; lia).
  rewrite upperPowOfTwo_pow by lia. unfold treeHeight.
  set (n := Z.of_nat (length (leaves items))) in *.
  assert (0 <= Z.log2_up n) by apply Z.log2_up_nonneg.
  assert (Z.to_nat (2 ^ Z.log2_up n) = 2 ^ Z.to_nat (Z.log2_up n))%nat as Heq
    by (apply Nat2Z.inj; rewrite Nat2Z.inj_pow, !Z2Nat.id by lia; done).
  split; [done|]. rewrite <- Heq.
  assert (n <= 2 ^ Z.log2_up n); [|lia].
  destruct (decide (n = 1)) as [->|]; [done|]. apply Z.log2_up_spec. lia.
Qed.

Lemma root_treeNode items :
  Z.of_nat (length items) <= 2 ^ 63 →
  GetRoot (NewMerkle items) = treeNode (leaves items) (treeHeight items) 0.
Proof.
  intros Hle. assert (Z.of_nat (length (leaves items)) <= 2 ^ 63) as Hle'
    by (destruct items; cbn in *; lia).
  destruct (upperPoT_height items Hle') as [HN Hlen].
  unfold NewMerkle. fold (leaves items). rewrite HN.
  set (K := treeHeight items) in *. set (N := (2 ^ K)%nat) in *.
  assert (1 <= N)%nat by (unfold N; pose proof (Nat.pow_nonzero 2 K); lia).
  set (arr := leaves items ++ _).
  assert (length arr = (N * 2 - 1))%nat as Harr
    by (unfold arr; rewrite length_app, length_replicate; lia).
  destruct (merkle_loop_spec N arr (N - 1) Harr ltac:(lia)) as (H1 & H2 & H3).
  unfold GetRoot. rewrite H1, Harr.
  rewrite <- (merkle_slots (leaves items) K (foldl (merkle_step N) arr (seq 0 (N - 1)))).
  - f_equal. unfold treePos. replace (K + 1 - K)%nat with 1%nat by lia.
    rewrite Nat.add_1_r, Nat.pow_succ_r'. fold N. cbn. lia.
  - intros i Hi. rewrite H2 by done. apply slot_app_replicate.
  - intros j Hj. by apply H3.
  - done.
  - rewrite Nat.sub_diag. cbn. lia.
Qed.

(** The root [NewMerkle(items).GetRoot()] leaves in the last slot is the root
    of the perfect binary tree whose leaves are the items padded with nil, where
    a lone left child is merged with itself; no items count as one zero hash. *)
Theorem NewMerkle_root items :
  Z.of_nat (length items) <= 2 ^ 63 →
  GetRoot (NewMerkle items) = treeNode (leaves items) (treeHeight items) 0.
Proof. apply root_treeNode. Qed.
End merkle.

(** The model runs: five leaves give a tree of height three. *)
Lemma NewMerkle_root_witness :
  let items := [Some [1]; Some [2]; Some [3]; Some [4]; Some [5]] in
  let H := λ bs : list Z, [foldr Z.add 7 bs] in
  Z.of_nat (length items) <= 2 ^ 63 ∧
  GetRoot (NewMerkle H items) = treeNode H (leaves items) (treeHeight items) 0 ∧
  treeHeight items = 3%nat.
Proof.
  intros items H. split; [cbn; lia|]. split; [|reflexivity].
  apply NewMerkle_root. cbn. lia.
Defined.

(** A non-nil leaf to the left keeps every node above it non-nil, so the
    dereference of [GetRoot()] in the callers is safe. *)
Lemma treeNode_leftmost THashH items k :
  is_Some (slot items 0) → is_Some (treeNode THashH items k 0).
Proof.
  intros H0. induction k as [|k [h Hh]]; [done|].
  cbn [treeNode]. change (2 * 0)%nat with 0%nat. rewrite Hh.
  unfold mergeNode. destruct (treeNode THashH items k (0 + 1)); eexists; reflexivity.
Qed.

(** [GetRoot] never returns nil when the items are non-nil pointers, so the
    callers' [*NewMerkle(hs).GetRoot()] does not dereference nil. *)
Theorem GetRoot_not_nil THashH hs :
  Z.of_nat (length hs) <= 2 ^ 63 → is_Some (GetRoot (NewMerkle THashH (Some <$> hs))).
Proof.
  intros Hle. rewrite root_treeNode by (by rewrite length_fmap).
  apply treeNode_leftmost. by destruct hs.
Qed.

Lemma GetRoot_not_nil_witness :
  Z.of_nat (length [[1]; [2]]) <= 2 ^ 63 ∧
  is_Some (GetRoot (NewMerkle (λ bs, bs) (Some <$> [[1]; [2]]))).
Proof. split; [cbn; lia|]. apply GetRoot_not_nil. cbn. lia. Defined.

(** An odd last leaf is merged with itself, so the root does not determine the
    number of leaves: repeating the third of three leaves leaves the root as it was. *)
Lemma NewMerkle_duplicate_last THashH a b c :
  GetRoot (NewMerkle THashH [Some a; Some b; Some c]) =
  GetRoot (NewMerkle THashH [Some a; Some b; Some c; Some c]).
Proof. reflexivity. Qed.
