(* ===== verification/Types.v ===== *)
(** * types: tokens, permissions, accounts, profiles and transactions

    Models [src/types/account.go], [token.go], the seven transaction types of
    [src/types] (transfer, baseaccount, provideservice, createdb,
    updatepermission, issuekeys, updatebilling) with the [Transaction] interface
    of [src/blockproducer/interfaces], the error values of
    [src/blockproducer/errors.go] and [crypto.PubKeyHash].  Struct fields keep
    their Go name behind a short record prefix.  A [float64] is IEEE binary64
    as specified by [SpecFloat].  What the repository does not contain (the
    public key serializer, blake2b, msgpack and the generated hash marshaller)
    is a field of the class [Env]. *)
From S2P Require Import Prelude Hash.
From Stdlib Require Import Ascii String ZArith Lia.
From Corelib Require Import SpecFloat.
From stdpp Require Import base list gmap strings.
Local Open Scope Z_scope.

Abbreviation AccountAddress := Hash.
Abbreviation DatabaseID := string.
Abbreviation NodeID := string.
Abbreviation float64 := spec_float.

(** ** Errors *)

(** The sentinel errors of [blockproducer/errors.go], wrapping by
    [errors.Wrap], and errors made where they are returned. *)
Inductive error :=
| ErrNoSuchDatabase | ErrParentNotFound | ErrInvalidHash | ErrExistedTx | ErrParentNotMatch
| ErrTooManyTransactionsInBlock | ErrBalanceOverflow | ErrInsufficientBalance
| ErrInsufficientTransfer | ErrAccountNotFound | ErrAccountExists | ErrDatabaseNotFound
| ErrDatabaseExists | ErrDatabaseUserExists | ErrInvalidAccountNonce
| ErrUnknownTransactionType | ErrInvalidSender | ErrInvalidRange | ErrNoSuchMiner
| ErrNoEnoughMiner | ErrAccountPermissionDeny | ErrNoSuperUserLeft | ErrInvalidPermission
| ErrMinerUserNotMatch | ErrInsufficientAdvancePayment | ErrNilGenesis | ErrMultipleGenesis
| ErrGenesisHashNotMatch | ErrInvalidGasPrice | ErrInvalidMinerCount | ErrLocalNodeNotFound
| ErrNoAvailableBranch | ErrWrongTokenType | ErrMerkleRootVerification
| ErrWrap (e : error)
| ErrNew (msg : string).

#[export] Instance error_eq_dec : EqDecision error.
Proof. solve_decision. Defined.

(** [errors.Wrap(err, msg)]: a nil error stays nil. *)
Definition Wrap (e : option error) : option error := ErrWrap <$> e.

(** ** Tokens *)

(** [type TokenType int32] *)
Abbreviation TokenType := Z (only parsing).
Definition Particle : TokenType := 0.
Definition Wave : TokenType := 1.
Definition SupportTokenNumber : Z := 2.

Definition TokenType_Listed (t : TokenType) : bool :=
  bool_decide (0 <= t) && bool_decide (t < SupportTokenNumber).

Definition TokenType_String (t : TokenType) : string :=
  if decide (t < 0 ∨ t >= SupportTokenNumber) then "Unknown"
  else if decide (t = Particle) then "Particle" else "Wave".

(** [strings.EqualFold] on ASCII text. *)
Definition lower_ascii (c : ascii) : ascii :=
  let n := N_of_ascii c in
  if decide (65 <= n ∧ n <= 90)%N then ascii_of_N (n + 32) else c.
Fixpoint EqualFold (a b : string) : bool :=
  match a, b with
  | EmptyString, EmptyString => true
  | String x a, String y b => bool_decide (lower_ascii x = lower_ascii y) && EqualFold a b
  | _, _ => false
  end.

Definition TokenType_FromString (t : string) : TokenType :=
  if EqualFold "Particle" t then Particle
  else if EqualFold "Wave" t then Wave
  else -1.

(** ** Permissions *)

(** [type UserPermissionRole int32], a bit set. *)
Abbreviation UserPermissionRole := Z (only parsing).
Definition Read : UserPermissionRole := 1.
Definition Write : UserPermissionRole := 2.
Definition Super : UserPermissionRole := 4.
Definition Invalid : UserPermissionRole := 8.
Definition Admin : UserPermissionRole := Z.lor Read (Z.lor Write Super).
Definition Void : UserPermissionRole := 0.

Definition hasRole (r bit : UserPermissionRole) : bool := bool_decide (Z.land r bit ≠ 0).

(** [strings.Join] and [strings.Split] with the separator [","]. *)
Fixpoint Join (parts : list string) : string :=
  match parts with
  | [] => EmptyString
  | [p] => p
  | p :: ps => p +:+ "," +:+ Join ps
  end.

Fixpoint Split (acc s : string) : list string :=
  match s with
  | EmptyString => [acc]
  | String c s => if decide (c = ","%char) then acc :: Split EmptyString s
                  else Split (acc +:+ String c EmptyString) s
  end.

(** [strings.TrimSpace], for the ASCII white space characters. *)
Definition is_space (c : ascii) : bool :=
  let n := N_of_ascii c in bool_decide ((9 <= n ∧ n <= 13) ∨ n = 32)%N.
Fixpoint trim_left (s : string) : string :=
  match s with
  | String c s' => if is_space c then trim_left s' else s
  | EmptyString => s
  end.
Fixpoint trim_right (s : string) : string :=
  match s with
  | EmptyString => s
  | String c s' =>
      match trim_right s' with
      | EmptyString => if is_space c then EmptyString else String c EmptyString
      | r => String c r
      end
  end.
Definition TrimSpace (s : string) : string := trim_right (trim_left s).

Definition UserPermissionRole_String (r : UserPermissionRole) : string :=
  if decide (r = Void) then "Void"
  else if decide (r = Admin) then "Admin"
  else Join ((if hasRole r Read then ["Read"] else []) ++
             (if hasRole r Write then ["Write"] else []) ++
             (if hasRole r Super then ["Super"] else [])).

Definition roleOfWord (r : UserPermissionRole) (p : string) : UserPermissionRole :=
  let p := TrimSpace p in
  if decide (p = "Read") then Z.lor r Read
  else if decide (p = "Write") then Z.lor r Write
  else if decide (p = "Super") then Z.lor r Super
  else r.

Definition UserPermissionRole_FromString (perm : string) : UserPermissionRole :=
  if decide (perm = "Void") then Void
  else if decide (perm = "Admin") then Admin
  else foldl roleOfWord Void (Split EmptyString perm).

(** [*UserPermission]; [None] is the nil pointer. *)
Record UserPermission := MkUserPermission {
  up_Role : UserPermissionRole;
  up_Patterns : list string;
}.

Definition UserPermissionFromRole (role : UserPermissionRole) : option UserPermission :=
  Some (MkUserPermission role []).

Definition HasReadPermission (up : option UserPermission) : bool :=
  match up with None => false | Some up => hasRole (up_Role up) Read end.
Definition HasWritePermission (up : option UserPermission) : bool :=
  match up with None => false | Some up => hasRole (up_Role up) Write end.
Definition HasSuperPermission (up : option UserPermission) : bool :=
  match up with None => false | Some up => hasRole (up_Role up) Super end.

Definition UserPermission_IsValid (up : option UserPermission) : bool :=
  match up with
  | None => false
  | Some up => bool_decide (Void <= up_Role up ∧ up_Role up < Invalid)
  end.

(** [HasDisallowedQueryPatterns]: the first pattern outside the white list. *)
Definition HasDisallowedQueryPatterns (up : option UserPermission) (queries : list string)
    : string * bool :=
  match up with
  | None => (EmptyString, true)
  | Some up =>
      match up_Patterns up with
      | [] => (EmptyString, false)
      | ps =>
          match list_find (λ q, q ∉ ps) queries with
          | Some (_, q) => (q, true)
          | None => (EmptyString, false)
          end
      end
  end.

(** ** Status *)

(** [type Status int32] *)
Abbreviation Status := Z (only parsing).
Definition UnknownStatus : Status := 0.
Definition Normal : Status := 1.
Definition Reminder : Status := 2.
Definition Arrears : Status := 3.
Definition Arbitration : Status := 4.

Definition EnableQuery (s : Status) : bool := bool_decide (Normal <= s ∧ s <= Reminder).

(** ** Accounts, providers and database profiles *)

Record SQLChainUser := MkSQLChainUser {
  su_Address : AccountAddress;
  su_Permission : option UserPermission;
  su_AdvancePayment : Z;
  su_Arrears : Z;
  su_Deposit : Z;
  su_Status : Status;
}.

Record UserArrears := MkUserArrears { ua_User : AccountAddress; ua_Arrears : Z }.

Record MinerInfo := MkMinerInfo {
  mi_Address : AccountAddress;
  mi_NodeID : NodeID;
  mi_Name : string;
  mi_PendingIncome : Z;
  mi_ReceivedIncome : Z;
  mi_UserArrears : list UserArrears;
  mi_Deposit : Z;
  mi_Status : Status;
  mi_EncryptionKey : string;
}.

Record ResourceMeta := MkResourceMeta {
  rm_TargetMiners : list AccountAddress;
  rm_Node : Z;  (* uint16 *)
  rm_Space : Z;
  rm_Memory : Z;
  rm_LoadAvgPerCPU : float64;
  rm_EncryptionKey : string;
  rm_UseEventualConsistency : bool;
  rm_ConsistencyLevel : float64;
  rm_IsolationLevel : Z;
}.

Record SQLChainProfile := MkSQLChainProfile {
  sp_ID : DatabaseID;
  sp_Address : AccountAddress;
  sp_Period : Z;
  sp_GasPrice : Z;
  sp_LastUpdatedHeight : Z;
  sp_TokenType : TokenType;
  sp_Owner : AccountAddress;
  sp_Miners : list MinerInfo;
  sp_Users : list SQLChainUser;
  sp_EncodedGenesis : list Z;
  sp_Meta : ResourceMeta;
}.

Record ProviderProfile := MkProviderProfile {
  pp_Provider : AccountAddress;
  pp_Space : Z;
  pp_Memory : Z;
  pp_LoadAvgPerCPU : float64;
  pp_TargetUser : list AccountAddress;
  pp_Deposit : Z;
  pp_GasPrice : Z;
  pp_TokenType : TokenType;
  pp_NodeID : NodeID;
}.

(** [TokenBalance] is the array [[SupportTokenNumber]uint64]. *)
Record Account := MkAccount {
  ac_Address : AccountAddress;
  ac_TokenBalance : list Z;
  ac_Rating : float64;
  ac_NextNonce : Z;
}.

(** The composite literal [&types.Account{Address: addr}]. *)
Definition newAccount (addr : AccountAddress) : Account :=
  MkAccount addr (replicate (Z.to_nat SupportTokenNumber) 0) (S754_zero false) 0.

Definition set_TokenBalance (a : Account) (b : list Z) : Account :=
  MkAccount (ac_Address a) b (ac_Rating a) (ac_NextNonce a).
Definition set_NextNonce (a : Account) (n : Z) : Account :=
  MkAccount (ac_Address a) (ac_TokenBalance a) (ac_Rating a) n.
Definition set_Users (p : SQLChainProfile) (us : list SQLChainUser) : SQLChainProfile :=
  MkSQLChainProfile (sp_ID p) (sp_Address p) (sp_Period p) (sp_GasPrice p)
    (sp_LastUpdatedHeight p) (sp_TokenType p) (sp_Owner p) (sp_Miners p) us
    (sp_EncodedGenesis p) (sp_Meta p).
Definition set_Miners (p : SQLChainProfile) (ms : list MinerInfo) : SQLChainProfile :=
  MkSQLChainProfile (sp_ID p) (sp_Address p) (sp_Period p) (sp_GasPrice p)
    (sp_LastUpdatedHeight p) (sp_TokenType p) (sp_Owner p) ms (sp_Users p)
    (sp_EncodedGenesis p) (sp_Meta p).
Definition set_LastUpdatedHeight (p : SQLChainProfile) (h : Z) : SQLChainProfile :=
  MkSQLChainProfile (sp_ID p) (sp_Address p) (sp_Period p) (sp_GasPrice p)
    h (sp_TokenType p) (sp_Owner p) (sp_Miners p) (sp_Users p)
    (sp_EncodedGenesis p) (sp_Meta p).
Definition set_Permission (u : SQLChainUser) (perm : option UserPermission) : SQLChainUser :=
  MkSQLChainUser (su_Address u) perm (su_AdvancePayment u) (su_Arrears u) (su_Deposit u)
    (su_Status u).
Definition set_Funds (u : SQLChainUser) (advance arrears deposit : Z) (st : Status) : SQLChainUser :=
  MkSQLChainUser (su_Address u) (su_Permission u) advance arrears deposit st.
Definition set_Income (m : MinerInfo) (pending received : Z) (ua : list UserArrears) : MinerInfo :=
  MkMinerInfo (mi_Address m) (mi_NodeID m) (mi_Name m) pending received ua (mi_Deposit m)
    (mi_Status m) (mi_EncryptionKey m).
Definition set_EncryptionKey (m : MinerInfo) (key : string) : MinerInfo :=
  MkMinerInfo (mi_Address m) (mi_NodeID m) (mi_Name m) (mi_PendingIncome m)
    (mi_ReceivedIncome m) (mi_UserArrears m) (mi_Deposit m) (mi_Status m) key.

(** ** Code and configuration outside the repository *)

(** The header of a block of a database's own chain ([types.Header]), as far as
    [generateGenesisBlock] fills it in. *)
Record Header := MkHeader {
  hd_Version : Z;
  hd_Producer : NodeID;
  hd_GenesisHash : Hash;
  hd_ParentHash : Hash;
  hd_MerkleRoot : Hash;
  hd_Timestamp : Z;
}.

(** [types.Block] without queries, i.e. a genesis block: its header and the
    [DataHash] of its signature object. *)
Record GenesisBlock := MkGenesisBlock { gb_Header : Header; gb_DataHash : Hash }.

(** What the code calls and the repository does not contain: the compressed
    serialization of a public key (btcec), [THashH]'s blake2b, the generated
    [MarshalHash] of a header and the msgpack encoder; the conversion of an
    out-of-range [float64] to [uint64], which Go leaves to the platform; and the
    run-time configuration [conf.GConf].  The laws state what is documented:
    [THashH] returns 32 bytes, a conversion returns a [uint64], configuration
    values have their declared width. *)
Class Env := {
  PublicKey : Type;
  PublicKey_eq_dec :: EqDecision PublicKey;
  Signature : Type;
  pub_Serialize : PublicKey → list Z;
  sig_Verify : Signature → list Z → PublicKey → bool;
  THashH : list Z → Hash;
  THashH_valid : ∀ b, valid_hash (THashH b);
  MarshalHash_Header : Header → option (list Z);
  EncodeMsgPack_Block : GenesisBlock → option (list Z);
  float_overflow_u64 : float64 → Z;
  float_overflow_range : ∀ f, is_u64 (float_overflow_u64 f);
  conf_QPS : Z;
  conf_BillingBlockCount : Z;
  conf_MinProviderDeposit : Z;
  conf_QPS_range : is_u32 conf_QPS;
  conf_BillingBlockCount_range : is_u64 conf_BillingBlockCount;
  conf_MinProviderDeposit_range : is_u64 conf_MinProviderDeposit;
}.

(** [conf.BPHeightCIPFixProvideService] and the chain limits of [conf]. *)
Definition BPHeightCIPFixProvideService : Z := 675550.
Definition MaxTransactionsPerBlock : Z := 10000.
Definition MaxPendingTxsPerAccount : Z := 1000.
Definition MaxTxBroadcastTTL : Z := 1.

(** ** float64 *)

Definition prec64 : Z := 53.
Definition emax64 : Z := 1024.
(** [float64(x)] for an unsigned integer: round to nearest, ties to even. *)
Definition float_of_u64 (x : Z) : float64 := binary_normalize prec64 emax64 x 0 false.
Definition float_div : float64 → float64 → float64 := SFdiv prec64 emax64.
Definition float_mul : float64 → float64 → float64 := SFmul prec64 emax64.
(** [x > y]; false when either is NaN. *)
Definition float_gt (x y : float64) : bool :=
  match SFcompare x y with Some Gt => true | _ => false end.
Definition float_zero : float64 := S754_zero false.

Section with_env.
Context `{Env}.

(** [uint64(f)]: truncation toward zero; out of range it is the platform's. *)
Definition u64_of_float (f : float64) : Z :=
  match f with
  | S754_zero _ => 0
  | S754_finite false m e =>
      let v := Z.shiftl (Zpos m) e in
      if decide (v < two64) then v else float_overflow_u64 f
  | S754_finite true m e =>
      if decide (Z.shiftl (Zpos m) e = 0) then 0 else float_overflow_u64 f
  | _ => float_overflow_u64 f
  end.

(** ** Signatures *)

(** [verifier.DefaultHashSignVerifierImpl] *)
Record HSV := MkHSV {
  hsv_DataHash : Hash;
  hsv_Signee : option PublicKey;
  hsv_Signature : option Signature;
}.

(** [Signature.Verify]: false when the key or the signature is nil. *)
Definition Signature_Verify (s : option Signature) (hash : list Z) (signee : option PublicKey)
    : bool :=
  match signee, s with
  | Some k, Some s => sig_Verify s hash k
  | _, _ => false
  end.

(** [VerifyHash], with the bytes [MarshalHash] produced ([None] for its error). *)
Definition VerifyHash (enc : option (list Z)) (i : HSV) : option error :=
  match enc with
  | None => Some (ErrNew "marshal")
  | Some enc =>
      if bool_decide (hsv_DataHash i = THashH enc) then None
      else Some (ErrWrap (ErrNew "hash value not match"))
  end.

Definition VerifySignature (i : HSV) : option error :=
  if Signature_Verify (hsv_Signature i) (hsv_DataHash i) (hsv_Signee i) then None
  else Some (ErrWrap (ErrNew "signature not match")).

Definition HSV_Verify (enc : option (list Z)) (i : HSV) : option error :=
  match VerifyHash enc i with
  | Some e => Some e
  | None => VerifySignature i
  end.

(** [crypto.PubKeyHash] *)
Definition PubKeyHash (pubKey : option PublicKey) : GoResult error AccountAddress :=
  match pubKey with
  | None => Err (ErrNew "nil public key")
  | Some k => Ok (THashH (pub_Serialize k))
  end.

(** ** Transactions *)

Record TransferHeader := MkTransferHeader {
  tr_Sender : AccountAddress;
  tr_Receiver : AccountAddress;
  tr_Nonce : Z;
  tr_Amount : Z;
  tr_TokenType : TokenType;
}.

Record ProvideServiceHeader := MkProvideServiceHeader {
  ps_Space : Z;
  ps_Memory : Z;
  ps_LoadAvgPerCPU : float64;
  ps_TargetUser : list AccountAddress;
  ps_GasPrice : Z;
  ps_TokenType : TokenType;
  ps_NodeID : NodeID;
  ps_Nonce : Z;
}.

Record CreateDatabaseHeader := MkCreateDatabaseHeader {
  cd_Owner : AccountAddress;
  cd_ResourceMeta : ResourceMeta;
  cd_GasPrice : Z;
  cd_AdvancePayment : Z;
  cd_TokenType : TokenType;
  cd_Nonce : Z;
}.

Record UpdatePermissionHeader := MkUpdatePermissionHeader {
  upd_TargetSQLChain : AccountAddress;
  upd_TargetUser : AccountAddress;
  upd_Permission : option UserPermission;
  upd_Nonce : Z;
}.

Record MinerKey := MkMinerKey { mk_Miner : AccountAddress; mk_EncryptionKey : string }.
Record IssueKeysHeader := MkIssueKeysHeader {
  ik_TargetSQLChain : AccountAddress;
  ik_MinerKeys : list MinerKey;
  ik_Nonce : Z;
}.

Record MinerIncome := MkMinerIncome { inc_Miner : AccountAddress; inc_Income : Z }.
Record UserCost := MkUserCost {
  uc_User : AccountAddress;
  uc_Cost : Z;
  uc_Miners : list MinerIncome;
}.
Record UpdateBillingHeader := MkUpdateBillingHeader {
  ub_Receiver : AccountAddress;
  ub_Nonce : Z;
  ub_Users : list UserCost;
  ub_From : Z;
  ub_To : Z;
  ub_Version : Z;
}.

(** [interfaces.TransactionTypeMixin]; the type travels with the transaction. *)
Record TransactionTypeMixin := MkMixin { mx_TxType : Z; mx_Timestamp : Z }.
Definition TransactionTypeBaseAccount : Z := 7.

(** A signed transaction: a header, the type mixin and the signature object. *)
Record Signed (Hd : Type) := MkSigned {
  tx_Header : Hd;
  tx_Mixin : TransactionTypeMixin;
  tx_HSV : HSV;
}.

(** Values of the interface [interfaces.Transaction].  [TxOther] stands for an
    implementation outside [src/types], seen through the interface alone. *)
Inductive Transaction :=
| TxTransfer (t : Signed TransferHeader)
| TxBaseAccount (account : Account) (mixin : TransactionTypeMixin)
| TxProvideService (t : Signed ProvideServiceHeader)
| TxCreateDatabase (t : Signed CreateDatabaseHeader)
| TxUpdatePermission (t : Signed UpdatePermissionHeader)
| TxIssueKeys (t : Signed IssueKeysHeader)
| TxUpdateBilling (t : Signed UpdateBillingHeader)
| TxWrapper (t : Transaction)
| TxOther (addr : AccountAddress) (nonce : Z) (ttype : Z) (hash : Hash) (verify : option error).
End with_env.

Arguments tx_Header {_ _} _.
Arguments tx_Mixin {_ _} _.
Arguments tx_HSV {_ _} _.
Arguments MkSigned {_ _} _ _ _.

Section transactions.
Context `{Env}.

(** [addr, _ := crypto.PubKeyHash(signee)]: the zero address on error. *)
Definition signeeAddress (i : HSV) : AccountAddress :=
  match PubKeyHash (hsv_Signee i) with Ok a => a | _ => zeroHash end.

Fixpoint GetAccountAddress (t : Transaction) : AccountAddress :=
  match t with
  | TxTransfer t => tr_Sender (tx_Header t)
  | TxBaseAccount a _ => ac_Address a
  | TxProvideService t => signeeAddress (tx_HSV t)
  | TxCreateDatabase t => signeeAddress (tx_HSV t)
  | TxUpdatePermission t => signeeAddress (tx_HSV t)
  | TxIssueKeys t => signeeAddress (tx_HSV t)
  | TxUpdateBilling t => signeeAddress (tx_HSV t)
  | TxWrapper t => GetAccountAddress t
  | TxOther a _ _ _ _ => a
  end.

Fixpoint GetAccountNonce (t : Transaction) : Z :=
  match t with
  | TxTransfer t => tr_Nonce (tx_Header t)
  | TxBaseAccount _ _ => 0
  | TxProvideService t => ps_Nonce (tx_Header t)
  | TxCreateDatabase t => cd_Nonce (tx_Header t)
  | TxUpdatePermission t => upd_Nonce (tx_Header t)
  | TxIssueKeys t => ik_Nonce (tx_Header t)
  | TxUpdateBilling t => ub_Nonce (tx_Header t)
  | TxWrapper t => GetAccountNonce t
  | TxOther _ n _ _ _ => n
  end.

Fixpoint GetTransactionType (t : Transaction) : Z :=
  match t with
  | TxTransfer t => mx_TxType (tx_Mixin t)
  | TxBaseAccount _ m => mx_TxType m
  | TxProvideService t => mx_TxType (tx_Mixin t)
  | TxCreateDatabase t => mx_TxType (tx_Mixin t)
  | TxUpdatePermission t => mx_TxType (tx_Mixin t)
  | TxIssueKeys t => mx_TxType (tx_Mixin t)
  | TxUpdateBilling t => mx_TxType (tx_Mixin t)
  | TxWrapper t => GetTransactionType t
  | TxOther _ _ ty _ _ => ty
  end.

(** [Hash()]: the stored [DataHash]; a [BaseAccount] has none and returns zero. *)
Fixpoint Tx_Hash (t : Transaction) : Hash :=
  match t with
  | TxTransfer t => hsv_DataHash (tx_HSV t)
  | TxBaseAccount _ _ => zeroHash
  | TxProvideService t => hsv_DataHash (tx_HSV t)
  | TxCreateDatabase t => hsv_DataHash (tx_HSV t)
  | TxUpdatePermission t => hsv_DataHash (tx_HSV t)
  | TxIssueKeys t => hsv_DataHash (tx_HSV t)
  | TxUpdateBilling t => hsv_DataHash (tx_HSV t)
  | TxWrapper t => Tx_Hash t
  | TxOther _ _ _ h _ => h
  end.
End transactions.

(** * Properties *)

Lemma role_cases r : 0 <= r < Invalid →
  r = 0 ∨ r = 1 ∨ r = 2 ∨ r = 3 ∨ r = 4 ∨ r = 5 ∨ r = 6 ∨ r = 7.
Proof. unfold Invalid. lia. Qed.

(** Printing a valid role and reading the text gives the role back. *)
Theorem UserPermissionRole_roundtrip r :
  0 <= r < Invalid → UserPermissionRole_FromString (UserPermissionRole_String r) = r.
Proof. intros Hr%role_cases. destruct_or!; subst; vm_compute; reflexivity. Qed.

Lemma UserPermissionRole_roundtrip_witness :
  0 <= 3 < Invalid ∧ UserPermissionRole_FromString (UserPermissionRole_String 3) = 3.
Proof. split; [done|]. by apply UserPermissionRole_roundtrip. Defined.

(** Whatever text it reads, [FromString] yields a valid role. *)
Lemma roleOfWord_valid r p : 0 <= r < Invalid → 0 <= roleOfWord r p < Invalid.
Proof.
  intros Hr%role_cases. unfold roleOfWord.
  destruct_or!; subst; repeat case_decide; vm_compute; split; congruence.
Qed.

Lemma FromString_valid s : 0 <= UserPermissionRole_FromString s < Invalid.
Proof.
  unfold UserPermissionRole_FromString. repeat case_decide; [done|done|].
  generalize (Split EmptyString s) as l. assert (0 <= Void < Invalid) as Hv by done.
  revert Hv. generalize Void. intros r Hr l. revert r Hr.
  induction l as [|p l IH]; intros r Hr; [done|]. cbn [foldl].
  apply IH. by apply roleOfWord_valid.
Qed.

(** A query list is refused exactly when the user has no permission object, or
    has a non-empty white list and some query's pattern is not on it. *)
Theorem HasDisallowedQueryPatterns_spec up queries :
  snd (HasDisallowedQueryPatterns up queries) = true ↔
  up = None ∨ ∃ p, up = Some p ∧ up_Patterns p ≠ [] ∧ ∃ q, q ∈ queries ∧ q ∉ up_Patterns p.
Proof.
  destruct up as [[role ps]|]; cbn; [|by split; auto].
  destruct ps as [|p0 ps]; cbn.
  { split; [done|]. intros [?|(p & [= <-] & Hn & _)]; done. }
  destruct (list_find _ queries) as [[i q]|] eqn:Hf; cbn.
  - apply list_find_Some in Hf as (Hi & Hq & _). split; [|done]. intros _. right.
    exists (MkUserPermission role (p0 :: ps)). split; [done|]. split; [done|].
    exists q. split; [by eapply list_elem_of_lookup_2|done].
  - apply list_find_None in Hf. rewrite Forall_forall in Hf. split; [done|].
    intros [?|(p & [= <-] & _ & q & Hq & Hn)]; [done|]. by destruct (Hf q Hq).
Qed.

Lemma u64_of_float_range `{Env} f : is_u64 (u64_of_float f).
Proof.
  pose proof float_overflow_range. unfold u64_of_float.
  destruct f as [| | |[] m e]; repeat case_decide; auto; [done|done|].
  split; [|done]. apply Z.shiftl_nonneg. lia.
Qed.
