(* ===== verification/Block.v ===== *)
(** * Main chain blocks and block nodes

    Models [src/types/bp_block.go] (blocks, their merkle root, hash and
    signature checks) and [src/blockproducer/blocknode.go] (the in-memory tree of
    blocks: a node points to its parent and counts its ancestors).  A node is an
    inductive value; a nil parent is [None], a cleared block cache is [None]. *)
From S2P Require Import Prelude Hash Merkle Types.
From Stdlib Require Import String ZArith Lia.
From stdpp Require Import base list gmap strings.
Local Open Scope Z_scope.
#[local] Set Warnings "-register-all".

(** ** Blocks *)

(** [types.BPHeader]; a timestamp is its [UnixNano]. *)
Record BPHeader := MkBPHeader {
  bh_Version : Z;
  bh_Producer : AccountAddress;
  bh_MerkleRoot : Hash;
  bh_ParentHash : Hash;
  bh_Timestamp : Z;
}.

Section block_types.
Context `{Env}.

Record BPSignedHeader := MkBPSignedHeader { bs_BPHeader : BPHeader; bs_HSV : HSV }.

Record BPBlock := MkBPBlock {
  bl_SignedHeader : BPSignedHeader;
  bl_Transactions : list Transaction;
}.

(** [blockproducer.blockNode] *)
Inductive blockNode : Type := MkBlockNode {
  bn_parent : option blockNode;
  bn_count : Z;
  bn_height : Z;
  bn_hash : Hash;
  bn_txCount : Z;
  bn_block : option BPBlock;
}.
End block_types.

(** Code outside the repository that blocks use: the generated [MarshalHash] of
    the block header and of the transaction headers, and the signing key
    (secp256k1), of which signing and verifying agree. *)
Class BlockEnv `{Env} := {
  MarshalHash_BPHeader : BPHeader → option (list Z);
  MarshalHash_Transaction : Transaction → option (list Z);
  PrivateKey : Type;
  key_PubKey : PrivateKey → PublicKey;
  key_Sign : PrivateKey → list Z → option Signature;
  key_Sign_Verify : ∀ k h sig, key_Sign k h = Some sig → sig_Verify sig h (key_PubKey k) = true;
}.

Section blocks.
Context `{BlockEnv}.
Implicit Types b : BPBlock.

Definition Timestamp b : Z := bh_Timestamp (bs_BPHeader (bl_SignedHeader b)).
Definition Producer b : AccountAddress := bh_Producer (bs_BPHeader (bl_SignedHeader b)).
Definition ParentHash b : Hash := bh_ParentHash (bs_BPHeader (bl_SignedHeader b)).
Definition BlockHash b : Hash := hsv_DataHash (bs_HSV (bl_SignedHeader b)).

Definition GetTxHashes b : list Hash := Tx_Hash <$> bl_Transactions b.

(** [merkle.NewMerkle(b.GetTxHashes()).GetRoot()]; a nil root is dereferenced. *)
Definition merkleRoot b : GoResult error Hash :=
  match GetRoot (NewMerkle THashH (Some <$> GetTxHashes b)) with
  | Some r => Ok r
  | None => Panic
  end.

Definition with_MerkleRoot b (r : Hash) : BPBlock :=
  let h := bs_BPHeader (bl_SignedHeader b) in
  MkBPBlock
    (MkBPSignedHeader
       (MkBPHeader (bh_Version h) (bh_Producer h) r (bh_ParentHash h) (bh_Timestamp h))
       (bs_HSV (bl_SignedHeader b)))
    (bl_Transactions b).

Definition with_HSV b (i : HSV) : BPBlock :=
  MkBPBlock (MkBPSignedHeader (bs_BPHeader (bl_SignedHeader b)) i) (bl_Transactions b).

Definition setMerkleRoot b : GoResult error BPBlock :=
  result_bind (merkleRoot b) (λ r, Ok (with_MerkleRoot b r)).

Definition verifyMerkleRoot b : GoResult error unit :=
  result_bind (merkleRoot b) (λ r,
    if Hash_IsEqual (Some r) (Some (bh_MerkleRoot (bs_BPHeader (bl_SignedHeader b)))) then Ok tt
    else Err ErrMerkleRootVerification).

(** [DefaultHashSignVerifierImpl.SetHash], [SignHash] and [Sign] on the bytes
    [MarshalHash] produced. *)
Definition HSV_SetHash (enc : option (list Z)) (i : HSV) : GoResult error HSV :=
  match enc with
  | None => Err (ErrNew "marshal")
  | Some enc => Ok (MkHSV (THashH enc) (hsv_Signee i) (hsv_Signature i))
  end.

Definition HSV_SignHash (signer : PrivateKey) (i : HSV) : GoResult error HSV :=
  match key_Sign signer (hsv_DataHash i) with
  | None => Err (ErrNew "sign")
  | Some sig => Ok (MkHSV (hsv_DataHash i) (Some (key_PubKey signer)) (Some sig))
  end.

Definition HSV_Sign (enc : option (list Z)) (signer : PrivateKey) (i : HSV) : GoResult error HSV :=
  result_bind (HSV_SetHash enc i) (HSV_SignHash signer).

Definition asResult (e : option error) : GoResult error unit :=
  match e with Some e => Err e | None => Ok tt end.

Definition headerBytes b : option (list Z) := MarshalHash_BPHeader (bs_BPHeader (bl_SignedHeader b)).

Definition SetHash b : GoResult error BPBlock :=
  result_bind (setMerkleRoot b) (λ b,
    result_bind (HSV_SetHash (headerBytes b) (bs_HSV (bl_SignedHeader b))) (λ i, Ok (with_HSV b i))).

Definition Block_VerifyHash b : GoResult error unit :=
  result_bind (verifyMerkleRoot b) (λ _,
    asResult (VerifyHash (headerBytes b) (bs_HSV (bl_SignedHeader b)))).

Definition PackAndSignBlock b (signer : PrivateKey) : GoResult error BPBlock :=
  result_bind (setMerkleRoot b) (λ b,
    result_bind (HSV_Sign (headerBytes b) signer (bs_HSV (bl_SignedHeader b))) (λ i, Ok (with_HSV b i))).

Definition Block_Verify b : GoResult error unit :=
  result_bind (verifyMerkleRoot b) (λ _,
    asResult (HSV_Verify (headerBytes b) (bs_HSV (bl_SignedHeader b)))).

(** [Verify()] of a transaction: hash and signature, except for a base account,
    which carries neither. *)
Fixpoint Tx_Verify (t : Transaction) : option error :=
  match t with
  | TxTransfer x => HSV_Verify (MarshalHash_Transaction t) (tx_HSV x)
  | TxBaseAccount _ _ => None
  | TxProvideService x => HSV_Verify (MarshalHash_Transaction t) (tx_HSV x)
  | TxCreateDatabase x => HSV_Verify (MarshalHash_Transaction t) (tx_HSV x)
  | TxUpdatePermission x => HSV_Verify (MarshalHash_Transaction t) (tx_HSV x)
  | TxIssueKeys x => HSV_Verify (MarshalHash_Transaction t) (tx_HSV x)
  | TxUpdateBilling x => HSV_Verify (MarshalHash_Transaction t) (tx_HSV x)
  | TxWrapper x => Tx_Verify x
  | TxOther _ _ _ _ v => v
  end.
End blocks.

(** ** Block nodes *)

Section nodes.
Context `{BlockEnv}.
Implicit Types (n p : blockNode) (b : BPBlock).

Definition newBlockNode (h : Z) b (p : option blockNode) : blockNode :=
  MkBlockNode p (match p with Some p => u32 (bn_count p + 1) | None => 0 end) h
    (BlockHash b) (Z.of_nat (length (bl_Transactions b))) (Some b).

Definition load n : option BPBlock := bn_block n.

Definition clear n : blockNode :=
  MkBlockNode (bn_parent n) (bn_count n) (bn_height n) (bn_hash n) (bn_txCount n) None.

Definition newNonCacheBlockNode (h : Z) b (p : option blockNode) : blockNode :=
  clear (newBlockNode h b p).

(** The loop of [fetchNodeList], filling [k] slots from the end: slot [k-1] is
    the current node.  A nil node is stored as such and its parent is a nil
    dereference ([None]). *)
Fixpoint fetchLoop (k : nat) (iter : option blockNode) : option (list (option blockNode)) :=
  match k with
  | O => Some []
  | S k =>
      match iter with
      | None => None
      | Some n =>
          match fetchLoop k (bn_parent n) with
          | None => None
          | Some bl => Some (bl ++ [Some n])
          end
      end
  end.

Definition fetchNodeList n (from : Z) : option (list (option blockNode)) :=
  if decide (bn_count n < from) then Some []
  else fetchLoop (Z.to_nat (bn_count n - from + 1)) (Some n).

(** [for ancestor != nil && ancestor.height > h { ancestor = ancestor.parent }] *)
Fixpoint ancestorLoop (h : Z) n : option blockNode :=
  if decide (bn_height n > h) then
    match bn_parent n with Some p => ancestorLoop h p | None => None end
  else Some n.

Definition ancestor n (h : Z) : option blockNode :=
  if decide (h > bn_height n) then None
  else
    match ancestorLoop h n with
    | Some a => if decide (bn_height a ≠ h) then None else Some a
    | None => None
    end.

Fixpoint countLoop (c : Z) n : option blockNode :=
  if decide (bn_count n ≠ c) then
    match bn_parent n with Some p => countLoop c p | None => None end
  else Some n.

Definition ancestorByCount n (c : Z) : option blockNode :=
  if decide (c > bn_count n) then None else countLoop c n.

(** [for irr = n; irr.count > count; irr = irr.parent {}]; [None] is the nil
    dereference after the root. *)
Fixpoint irrLoop (count : Z) n : option blockNode :=
  if decide (bn_count n > count) then
    match bn_parent n with Some p => irrLoop count p | None => None end
  else Some n.

Definition lastIrreversible n (confirm : Z) : option blockNode :=
  let count := if decide (bn_count n > confirm) then u32 (bn_count n - confirm) else 0 in
  irrLoop count n.

Definition hasAncestor n (anc : blockNode) : bool :=
  match ancestorByCount n (bn_count anc) with
  | Some m => bool_decide (bn_hash m = bn_hash anc)
  | None => false
  end.

Fixpoint minCountLoop (blockHash : Hash) (minCount : Z) n : option blockNode :=
  if decide (bn_count n >= minCount) then
    if Hash_IsEqual (Some (bn_hash n)) (Some blockHash) then Some n
    else match bn_parent n with Some p => minCountLoop blockHash minCount p | None => None end
  else None.

(** [match, ok]: a found node or nil. *)
Definition hasAncestorWithMinCount n (blockHash : Hash) (minCount : Z) : option blockNode :=
  minCountLoop blockHash minCount n.
End nodes.

(** * Properties *)

(** ** Blocks *)

Section block_props.
Context `{BlockEnv}.

Lemma merkleRoot_with_HSV b i : merkleRoot (with_HSV b i) = merkleRoot b.
Proof. unfold merkleRoot, GetTxHashes. cbn [with_HSV bl_Transactions]. reflexivity. Qed.
Lemma merkleRoot_with_MerkleRoot b r : merkleRoot (with_MerkleRoot b r) = merkleRoot b.
Proof. unfold merkleRoot, GetTxHashes. cbn [with_MerkleRoot bl_Transactions]. reflexivity. Qed.

(** The root a packed block carries is the one its transactions have. *)
Lemma packed_root b b1 i : setMerkleRoot b = Ok b1 → verifyMerkleRoot (with_HSV b1 i) = Ok tt.
Proof.
  unfold setMerkleRoot, verifyMerkleRoot. destruct (merkleRoot b) as [r| |] eqn:Hr; [|done..].
  cbn [result_bind]. intros [= <-]. rewrite merkleRoot_with_HSV, merkleRoot_with_MerkleRoot, Hr.
  cbn. by rewrite bool_decide_true.
Qed.
End block_props.

(** A block that was packed and signed passes its own verification: merkle
    root, header hash and signature all check. *)
Theorem PackAndSignBlock_Verify `{BlockEnv} b signer b' :
  PackAndSignBlock b signer = Ok b' → Block_Verify b' = Ok tt.
Proof.
  unfold PackAndSignBlock. destruct (setMerkleRoot b) as [b1| |] eqn:Hm; [|done..]. cbn [result_bind].
  unfold HSV_Sign, HSV_SetHash, HSV_SignHash.
  destruct (headerBytes b1) as [enc|] eqn:Henc; [|done]. cbn [result_bind hsv_DataHash].
  destruct (key_Sign signer (THashH enc)) as [sig|] eqn:Hs; [|done]. cbn [result_bind]. intros [= <-].
  unfold Block_Verify. rewrite (packed_root _ _ _ Hm). cbn [result_bind].
  change (headerBytes (with_HSV b1 ?i)) with (headerBytes b1). rewrite Henc.
  unfold HSV_Verify, VerifyHash, VerifySignature. cbn. rewrite bool_decide_true by done.
  by rewrite (key_Sign_Verify _ _ _ Hs).
Qed.

(** ** Block nodes *)

Section node_props.
Context `{BlockEnv}.
Implicit Types (n p a : blockNode).

Definition parentOf n p : Prop := bn_parent n = Some p.
(** [a] is [n] or one of its ancestors. *)
Definition ancestry n a : Prop := rtc parentOf n a.

(** A node of a chain that starts at a genesis node of count 0. *)
Inductive wf_node : blockNode → Prop :=
| wf_genesis n : bn_parent n = None → bn_count n = 0 → wf_node n
| wf_child n p : bn_parent n = Some p → wf_node p → bn_count n = bn_count p + 1 →
    bn_count n < two32 → wf_node n.

Lemma wf_count n : wf_node n → is_u32 (bn_count n).
Proof. unfold is_u32. induction 1 as [n _ ->|n p _ _ IH -> ?]; [done|]. lia. Qed.

Lemma wf_newBlockNode h b p :
  wf_node p → bn_count p + 1 < two32 → wf_node (newBlockNode h b (Some p)).
Proof.
  intros Hp Hlt. pose proof (wf_count p Hp) as Hc. apply (wf_child _ p); [done|done|..]; cbn.
  - apply u32_id. unfold is_u32 in *. lia.
  - rewrite u32_id; unfold is_u32 in *; lia.
Qed.

Lemma wf_ancestry n a : wf_node n → ancestry n a → wf_node a.
Proof.
  intros Hn Ha. revert Hn. induction Ha as [|n p a Hp _ IH]; [done|]. intros Hn. apply IH.
  unfold parentOf in Hp. destruct Hn; congruence.
Qed.

Lemma ancestry_count n a : wf_node n → ancestry n a → bn_count a <= bn_count n.
Proof.
  intros Hn Ha. revert Hn. induction Ha as [|n p a Hp _ IH]; [lia|]. unfold parentOf in Hp.
  intros Hn. destruct Hn as [|n p' Hp' Hwf Hc]; [congruence|]. simplify_eq. specialize (IH Hwf). lia.
Qed.

(** The ancestor with a given count is unique. *)
Lemma ancestry_unique n a a' :
  wf_node n → ancestry n a → ancestry n a' → bn_count a = bn_count a' → a = a'.
Proof.
  intros Hn Ha. revert a' Hn. induction Ha as [n|n p a Hp Ha IH]; intros a' Hn Ha' Hc.
  - inversion Ha' as [|? p' ? Hp' Ha'']; [done|subst]. unfold parentOf in Hp'.
    destruct Hn as [|n p Hp Hwf Hcn]; [congruence|]. simplify_eq.
    pose proof (ancestry_count _ _ Hwf Ha''). lia.
  - unfold parentOf in Hp. destruct Hn as [|n p' Hp' Hwf Hcn]; [congruence|]. simplify_eq.
    inversion Ha' as [|? p' ? Hp'' Ha'']; subst.
    + pose proof (ancestry_count _ _ Hwf Ha). lia.
    + unfold parentOf in Hp''. simplify_eq. by apply IH.
Qed.

Lemma countLoop_spec n c : wf_node n → 0 <= c <= bn_count n →
  ∃ a, countLoop c n = Some a ∧ bn_count a = c ∧ ancestry n a.
Proof.
  induction 1 as [n Hp Hc|n p Hp Hwf IH Hc _]; intros Hr; destruct n as [par cn hn hh tc bl];
    cbn in Hp, Hc, Hr; subst par; cbn [countLoop bn_count bn_parent].
  - exists (MkBlockNode None cn hn hh tc bl). rewrite decide_False by lia.
    split; [done|]. cbn. split; [lia|]. apply rtc_refl.
  - case_decide as Hd.
    + destruct IH as (a & Ha & Hca & Hanc); [lia|]. exists a. split_and!; [done..|].
      eapply rtc_l; [|done]. done.
    + eexists. split; [done|]. cbn. split; [lia|]. apply rtc_refl.
Qed.

Lemma irrLoop_spec n c : wf_node n → 0 <= c <= bn_count n →
  ∃ a, irrLoop c n = Some a ∧ bn_count a = c ∧ ancestry n a.
Proof.
  induction 1 as [n Hp Hc|n p Hp Hwf IH Hc _]; intros Hr; destruct n as [par cn hn hh tc bl];
    cbn in Hp, Hc, Hr; subst par; cbn [irrLoop bn_count bn_parent].
  - exists (MkBlockNode None cn hn hh tc bl). rewrite decide_False by lia.
    split; [done|]. cbn. split; [lia|]. apply rtc_refl.
  - case_decide as Hd.
    + destruct IH as (a & Ha & Hca & Hanc); [lia|]. exists a. split_and!; [done..|].
      eapply rtc_l; [|done]. done.
    + eexists. split; [done|]. cbn. split; [lia|]. apply rtc_refl.
Qed.

Lemma fetchLoop_spec k n : wf_node n → Z.of_nat k <= bn_count n + 1 →
  ∃ bl, fetchLoop k (Some n) = Some (Some <$> bl) ∧ length bl = k ∧
    ∀ i m, bl !! i = Some m → ancestry n m ∧ bn_count m = bn_count n + 1 - Z.of_nat k + Z.of_nat i.
Proof.
  intros Hwf. revert k. induction Hwf as [n Hp Hc|n p Hp Hwf IH Hc _]; intros [|k] Hk; try by exists [].
  - rewrite Hc in Hk. assert (k = 0%nat) as -> by lia. exists [n]. cbn. split_and!; [done..|].
    intros [|i] m Hm; [|done]. injection Hm as <-. split; [apply rtc_refl|lia].
  - destruct (IH k) as (bl & Hbl & Hlen & Hi); [lia|]. exists (bl ++ [n]). cbn [fetchLoop].
    rewrite Hp, Hbl. split; [by rewrite fmap_app|]. split; [rewrite length_app; cbn; lia|].
    intros i m Hm. apply lookup_app_Some in Hm as [Hm|[Hlt Hm]].
    + destruct (Hi i m Hm) as [Ha ->]. split; [by eapply rtc_l|lia].
    + destruct (i - length bl)%nat eqn:Hd; [|done]. injection Hm as <-. split; [apply rtc_refl|lia].
Qed.

Lemma lastIrreversible_some n confirm : wf_node n → 0 <= confirm →
  ∃ irr, lastIrreversible n confirm = Some irr ∧ ancestry n irr ∧
         bn_count irr = Z.max 0 (bn_count n - confirm).
Proof.
  intros Hn Hc. unfold lastIrreversible. pose proof (wf_count n Hn) as Hu.
  destruct (irrLoop_spec n (Z.max 0 (bn_count n - confirm)) Hn) as (a & Ha & Hca & Hanc);
    [unfold is_u32 in *; lia|]. exists a. split_and!; [|done|done]. rewrite <- Ha. f_equal.
  case_decide; [|lia]. rewrite u32_id by (unfold is_u32 in *; lia). lia.
Qed.
Lemma hasAncestor_iff n x : wf_node n → 0 <= bn_count x →
  hasAncestor n x = true ↔ ∃ a, ancestry n a ∧ bn_count a = bn_count x ∧ bn_hash a = bn_hash x.
Proof.
  intros Hn Hc. unfold hasAncestor, ancestorByCount. case_decide as Hd.
  - split; [done|]. intros (a & Ha & Hca & _). pose proof (ancestry_count _ _ Hn Ha). lia.
  - destruct (countLoop_spec n (bn_count x) Hn) as (a & -> & Hca & Ha); [lia|].
    rewrite bool_decide_eq_true. split; [eauto|]. intros (a' & Ha' & Hca' & <-).
    by rewrite (ancestry_unique n a a') by (done || congruence).
Qed.

(** Ancestors are linearly ordered by count. *)
Lemma ancestry_linear n a m :
  wf_node n → ancestry n a → ancestry n m → bn_count m <= bn_count a → ancestry a m.
Proof.
  intros Hn Ha Hm Hc. pose proof (wf_ancestry _ _ Hn Ha) as Hwa.
  pose proof (wf_count m (wf_ancestry _ _ Hn Hm)) as [Hm0 _].
  destruct (countLoop_spec a (bn_count m) Hwa) as (m' & _ & Hcm & Ham); [lia|].
  rewrite (ancestry_unique n m m' Hn Hm); [done| |done]. by apply (rtc_trans n a m').
Qed.

Lemma hasAncestor_refl n : hasAncestor n n = true.
Proof.
  unfold hasAncestor, ancestorByCount. rewrite decide_False by lia. destruct n as [p c h hh tc bl].
  cbn [countLoop bn_count bn_hash]. rewrite decide_False by naive_solver. by apply bool_decide_eq_true.
Qed.

(** Ancestry by hash, seen from a later node and from an ancestor that is not
    too far back. *)
Lemma hasAncestor_child n p x :
  wf_node n → parentOf n p → 0 <= bn_count x → hasAncestor p x = true → hasAncestor n x = true.
Proof.
  intros Hn Hp Hx Ha. assert (wf_node p) as Hwp by (apply (wf_ancestry n); [done|by apply rtc_once]).
  apply (hasAncestor_iff p x Hwp Hx) in Ha as (a & Ha & Hc). apply (hasAncestor_iff n x Hn Hx).
  exists a. split; [by eapply rtc_l|done].
Qed.

Lemma hasAncestor_back n a x :
  wf_node n → ancestry n a → 0 <= bn_count x <= bn_count a → hasAncestor n x = true → hasAncestor a x = true.
Proof.
  intros Hn Ha Hx Hnx. apply (hasAncestor_iff n x Hn) in Hnx as (m & Hm & Hc & Hh); [|lia].
  apply hasAncestor_iff; [by eapply wf_ancestry|lia|]. exists m. split; [|done].
  apply (ancestry_linear n); [done..|lia].
Qed.
End node_props.

(** [fetchNodeList] returns, without a nil dereference, exactly the nodes from
    count [from] to the head, in order: one per count, each an ancestor. *)
Theorem fetchNodeList_spec `{BlockEnv} n from : wf_node n → 0 <= from <= bn_count n →
  ∃ bl, fetchNodeList n from = Some (Some <$> bl) ∧ Z.of_nat (length bl) = bn_count n - from + 1 ∧
    ∀ i m, bl !! i = Some m → ancestry n m ∧ bn_count m = from + Z.of_nat i.
Proof.
  intros Hn Hf. unfold fetchNodeList. rewrite decide_False by lia.
  destruct (fetchLoop_spec (Z.to_nat (bn_count n - from + 1)) n Hn) as (bl & Hbl & Hlen & Hi); [lia|].
  exists bl. split_and!; [done|lia|]. intros i m Hm. destruct (Hi i m Hm). split; [done|lia].
Qed.

(** [hasAncestor] decides ancestry by hash: it holds exactly when the chain of
    [n] has, at the other node's count, a node with its hash. *)
Theorem hasAncestor_spec `{BlockEnv} n anc : wf_node n → 0 <= bn_count anc →
  hasAncestor n anc = true ↔
  ∃ a, ancestry n a ∧ bn_count a = bn_count anc ∧ bn_hash a = bn_hash anc.
Proof. apply hasAncestor_iff. Qed.

(** C33: the irreversible block is the ancestor [confirm] blocks back (the genesis
    block while the chain is shorter), and it only moves forward along the chain:
    when a block is added it stays or advances to a child. *)
Theorem lastIrreversible_advances `{BlockEnv} n p confirm :
  wf_node n → parentOf n p → 0 <= confirm →
  ∃ i i', lastIrreversible p confirm = Some i ∧ lastIrreversible n confirm = Some i' ∧
    ancestry n i' ∧ bn_count i' = Z.max 0 (bn_count n - confirm) ∧ (i' = i ∨ parentOf i' i).
Proof.
  intros Hn Hp Hc. pose proof Hn as Hn'. unfold parentOf in Hp.
  destruct Hn' as [|n p' Hp' Hwf Hcn Hlt]; [congruence|]. simplify_eq.
  destruct (lastIrreversible_some p confirm Hwf Hc) as (i & Hi & Hia & Hic).
  destruct (lastIrreversible_some n confirm Hn Hc) as (i' & Hi' & Hia' & Hic').
  exists i, i'. split_and!; [done..|].
  pose proof (rtc_l _ n p i Hp Hia) as Hni.
  destruct (decide (bn_count i' = bn_count i)) as [Heq|Hne].
  - left. by apply (ancestry_unique n).
  - right. inversion Hia' as [|? p' ? Hpp Ha']; subst.
    + assert (i = p) as ->; [|done]. apply (ancestry_unique p); [done|done|apply rtc_refl|lia].
    + unfold parentOf in Hpp. simplify_eq. pose proof (wf_ancestry _ _ Hwf Ha') as Hwi'.
      destruct Hwi' as [i' Hnone Hz|i' q Hq Hwq Hcq _].
      { lia. }
      assert (i = q) as ->; [|done]. apply (ancestry_unique p); [done|done| |lia].
      eapply rtc_r; [exact Ha'|exact Hq].
Qed.
