(* ===== verification/MetaState.v ===== *)
(** * blockproducer: the meta state

    Models [src/blockproducer/metaindex.go] and [src/blockproducer/metastate.go]:
    the main chain's account, database and provider indexes, kept as a dirty
    overlay on a read-only index, and every operation on them up to [apply].
    A map from keys to pointers is a [gmap] to [option]: [Some None] is a nil
    pointer, which in the dirty index marks a deletion.  An operation is a
    [GoM metaState error] computation: what it wrote before an error stays
    written, and a nil dereference or an index out of range is [Panic].
    [deepcopy.Copy] makes a fresh object, so sharing between the two indexes
    never arises except where the code reads a pointer and writes through it
    ([storeBaseAccount] writes into the read-only index: see [where_]).
    Iterating a Go map is [map_to_list]; where the order could matter the
    theorems quantify over it. *)
From S2P Require Import Prelude Hash Types.
From Stdlib Require Import Ascii String ZArith Lia.
From stdpp Require Import base list gmap strings sorting pretty.
Local Open Scope Z_scope.

(** ** Checked arithmetic (metaindex.go) *)

(** [safeAdd(x, y)]: [*x += *y] unless the sum wraps. *)
Definition safeAdd (x y : Z) : GoResult error Z :=
  if decide (u64 (x + y) < x) then Err ErrBalanceOverflow else Ok (u64 (x + y)).

(** [safeSub(x, y)]: [*x -= *y] unless it would go below zero. *)
Definition safeSub (x y : Z) : GoResult error Z :=
  if decide (x < y) then Err ErrInsufficientBalance else Ok (u64 (x - y)).

(** ** Indexes *)

Record metaIndex := MkIndex {
  ix_accounts : gmap AccountAddress (option Account);
  ix_databases : gmap DatabaseID (option SQLChainProfile);
  ix_provider : gmap AccountAddress (option ProviderProfile);
}.

Definition newMetaIndex : metaIndex := MkIndex ∅ ∅ ∅.

(** [metaIndex.deepCopy]: equal contents in fresh objects. *)
Definition metaIndex_deepCopy (i : metaIndex) : metaIndex :=
  MkIndex (ix_accounts i) (ix_databases i) (ix_provider i).

Record metaState := MkState { dirty : metaIndex; readonly : metaIndex }.

Definition newMetaState : metaState := MkState newMetaIndex newMetaIndex.

Abbreviation MS := (GoM metaState error).

(** Writes to one entry of the dirty index. *)
Definition set_dirty_account (k : AccountAddress) (v : option Account) (s : metaState) : metaState :=
  MkState (MkIndex (<[k := v]> (ix_accounts (dirty s))) (ix_databases (dirty s))
             (ix_provider (dirty s))) (readonly s).
Definition set_dirty_database (k : DatabaseID) (v : option SQLChainProfile) (s : metaState)
    : metaState :=
  MkState (MkIndex (ix_accounts (dirty s)) (<[k := v]> (ix_databases (dirty s)))
             (ix_provider (dirty s))) (readonly s).
Definition set_dirty_provider (k : AccountAddress) (v : option ProviderProfile) (s : metaState)
    : metaState :=
  MkState (MkIndex (ix_accounts (dirty s)) (ix_databases (dirty s))
             (<[k := v]> (ix_provider (dirty s)))) (readonly s).
Definition set_readonly_account (k : AccountAddress) (v : option Account) (s : metaState)
    : metaState :=
  MkState (dirty s)
    (MkIndex (<[k := v]> (ix_accounts (readonly s))) (ix_databases (readonly s))
       (ix_provider (readonly s))).

(** [a.TokenBalance[t]] and its assignment; out of range the index panics. *)
Definition balanceAt (b : list Z) (t : TokenType) : option Z :=
  if decide (0 <= t) then b !! Z.to_nat t else None.
Definition setBalanceAt (b : list Z) (t : TokenType) (v : Z) : list Z := <[Z.to_nat t := v]> b.

(** ** Loads *)

(** The overlay read shared by the three [load*Object] methods: a nil pointer in
    the dirty index hides the read-only entry. *)
Definition overlayLoad {K V} `{Countable K} (d r : gmap K (option V)) (k : K) : option V * bool :=
  match d !! k with
  | Some (Some o) => (Some o, true)
  | Some None => (None, false)
  | None => match r !! k with Some o => (o, true) | None => (None, false) end
  end.

Definition loadAccountObject (s : metaState) (k : AccountAddress) : option Account * bool :=
  overlayLoad (ix_accounts (dirty s)) (ix_accounts (readonly s)) k.

Definition loadSQLChainObject (s : metaState) (k : DatabaseID) : option SQLChainProfile * bool :=
  overlayLoad (ix_databases (dirty s)) (ix_databases (readonly s)) k.

Definition loadProviderObject (s : metaState) (k : AccountAddress) : option ProviderProfile * bool :=
  overlayLoad (ix_provider (dirty s)) (ix_provider (readonly s)) k.

(** The index holding the object a [loadOrStore*Object] call returned. *)
Inductive where_ := InDirty | InReadonly.

(** The read of [loadOrStore*Object]: a nil dirty entry does not count. *)
Definition overlayFind {K V} `{Countable K} (d r : gmap K (option V)) (k : K)
    : option (option V * where_) :=
  match d !! k with
  | Some (Some o) => Some (Some o, InDirty)
  | _ => match r !! k with Some o => Some (o, InReadonly) | None => None end
  end.

Definition loadOrStoreAccountObject (k : AccountAddress) (v : Account)
    : MS (option (option Account * where_)) :=
  s ← getS;
  match overlayFind (ix_accounts (dirty s)) (ix_accounts (readonly s)) k with
  | Some r => mret (Some r)
  | None => modifyS (set_dirty_account k (Some v));; mret None
  end.

Definition loadOrStoreSQLChainObject (k : DatabaseID) (v : SQLChainProfile)
    : MS (option (option SQLChainProfile * where_)) :=
  s ← getS;
  match overlayFind (ix_databases (dirty s)) (ix_databases (readonly s)) k with
  | Some r => mret (Some r)
  | None => modifyS (set_dirty_database k (Some v));; mret None
  end.

Definition loadOrStoreProviderObject (k : AccountAddress) (v : ProviderProfile)
    : MS (option (option ProviderProfile * where_)) :=
  s ← getS;
  match overlayFind (ix_provider (dirty s)) (ix_provider (readonly s)) k with
  | Some r => mret (Some r)
  | None => modifyS (set_dirty_provider k (Some v));; mret None
  end.

(** [loadAccountTokenBalance]: [None] of the pair is a panic of the array index,
    which the [Listed] guard excludes. *)
Definition loadAccountTokenBalance (s : metaState) (addr : AccountAddress) (t : TokenType)
    : GoResult error (Z * bool) :=
  if negb (TokenType_Listed t) then Ok (0, false)
  else
    match overlayFind (ix_accounts (dirty s)) (ix_accounts (readonly s)) addr with
    | Some (Some o, _) =>
        match balanceAt (ac_TokenBalance o) t with Some b => Ok (b, true) | None => Panic end
    | Some (None, _) => Panic
    | None => Ok (0, false)
    end.

(** ** Account operations *)

(** [storeBaseAccount]: creates the account, or adds the given balances to an
    account a transfer created before.  The pointer it writes through may be the
    read-only index's own object. *)
Definition storeBaseAccount (k : AccountAddress) (v : Account) : MS unit :=
  r ← loadOrStoreAccountObject k v;
  match r with
  | None => mret tt
  | Some (ao, w) =>
      ao ← deref ao;
      if decide (ac_NextNonce ao ≠ 0) then throw ErrAccountExists
      else
        cb0 ← deref (balanceAt (ac_TokenBalance ao) Wave);
        sb0 ← deref (balanceAt (ac_TokenBalance ao) Particle);
        vw ← deref (balanceAt (ac_TokenBalance v) Wave);
        vp ← deref (balanceAt (ac_TokenBalance v) Particle);
        cb ← liftR (safeAdd cb0 vw);
        sb ← liftR (safeAdd sb0 vp);
        let ao' := set_TokenBalance ao
                     (setBalanceAt (setBalanceAt (ac_TokenBalance ao) Wave cb) Particle sb) in
        match w with
        | InDirty => modifyS (set_dirty_account k (Some ao'))
        | InReadonly => modifyS (set_readonly_account k (Some ao'))
        end
  end.

Definition deleteAccountObject (k : AccountAddress) : MS unit := modifyS (set_dirty_account k None).
Definition deleteSQLChainObject (k : DatabaseID) : MS unit := modifyS (set_dirty_database k None).
Definition deleteProviderObject (k : AccountAddress) : MS unit :=
  modifyS (set_dirty_provider k None).

(** The copy-on-write prologue of the account mutators: the dirty entry, or a
    copy of the read-only entry made dirty, or [notFound]. *)
Definition dirtyAccount (notFound : error) (k : AccountAddress) : MS (option Account) :=
  s ← getS;
  match ix_accounts (dirty s) !! k with
  | Some dst => mret dst
  | None =>
      match ix_accounts (readonly s) !! k with
      | None => throw notFound
      | Some src => modifyS (set_dirty_account k src);; mret src
      end
  end.

Definition increaseAccountToken (k : AccountAddress) (amount : Z) (t : TokenType) : MS unit :=
  dst ← dirtyAccount (ErrWrap ErrAccountNotFound) k;
  dst ← deref dst;
  b ← deref (balanceAt (ac_TokenBalance dst) t);
  b' ← liftR (safeAdd b amount);
  modifyS (set_dirty_account k (Some (set_TokenBalance dst (setBalanceAt (ac_TokenBalance dst) t b')))).

Definition decreaseAccountToken (k : AccountAddress) (amount : Z) (t : TokenType) : MS unit :=
  dst ← dirtyAccount (ErrWrap ErrAccountNotFound) k;
  dst ← deref dst;
  b ← deref (balanceAt (ac_TokenBalance dst) t);
  b' ← liftR (safeSub b amount);
  modifyS (set_dirty_account k (Some (set_TokenBalance dst (setBalanceAt (ac_TokenBalance dst) t b')))).

Definition increaseAccountStableBalance (k : AccountAddress) (amount : Z) : MS unit :=
  increaseAccountToken k amount Particle.
Definition decreaseAccountStableBalance (k : AccountAddress) (amount : Z) : MS unit :=
  decreaseAccountToken k amount Particle.
Definition increaseAccountCovenantBalance (k : AccountAddress) (amount : Z) : MS unit :=
  increaseAccountToken k amount Wave.
Definition decreaseAccountCovenantBalance (k : AccountAddress) (amount : Z) : MS unit :=
  decreaseAccountToken k amount Wave.

(** The object pointer and whether it is in the dirty index already. *)
Definition accountPtr (s : metaState) (k : AccountAddress) : option (option Account * bool) :=
  match ix_accounts (dirty s) !! k with
  | Some o => Some (o, true)
  | None => match ix_accounts (readonly s) !! k with Some o => Some (o, false) | None => None end
  end.

Definition nextNonce (addr : AccountAddress) : MS Z :=
  s ← getS;
  match accountPtr s addr with
  | None => throw ErrAccountNotFound
  | Some (o, _) => o ← deref o; mret (ac_NextNonce o)
  end.

Definition increaseNonce (addr : AccountAddress) : MS unit :=
  dst ← dirtyAccount ErrAccountNotFound addr;
  dst ← deref dst;
  modifyS (set_dirty_account addr (Some (set_NextNonce dst (u32 (ac_NextNonce dst + 1))))).

(** ** Commit and copies *)

(** The loop over one dirty map: install new values, drop deleted keys. *)
Definition commitMap {K V} `{Countable K} (d r : gmap K (option V)) : gmap K (option V) :=
  foldl (λ r kv, match kv.2 with Some _ => <[kv.1 := kv.2]> r | None => delete kv.1 r end)
    r (map_to_list d).

Definition commit (s : metaState) : metaState :=
  MkState newMetaIndex
    (MkIndex (commitMap (ix_accounts (dirty s)) (ix_accounts (readonly s)))
       (commitMap (ix_databases (dirty s)) (ix_databases (readonly s)))
       (commitMap (ix_provider (dirty s)) (ix_provider (readonly s)))).

Definition clean (s : metaState) : metaState := MkState newMetaIndex (readonly s).

Definition makeCopy (s : metaState) : metaState :=
  MkState newMetaIndex (metaIndex_deepCopy (readonly s)).

(** ** Database users *)

Definition createSQLChain (addr : AccountAddress) (id : DatabaseID) (noMeta : ResourceMeta)
    : MS unit :=
  s ← getS;
  match accountPtr s addr with
  | None => throw ErrAccountNotFound
  | Some _ =>
      match ix_databases (dirty s) !! id, ix_databases (readonly s) !! id with
      | None, None =>
          modifyS (set_dirty_database id (Some
            (MkSQLChainProfile id zeroHash 0 0 0 Particle addr []
               [MkSQLChainUser addr (UserPermissionFromRole Admin) 0 0 0 UnknownStatus] [] noMeta)))
      | _, _ => throw ErrDatabaseExists
      end
  end.

(** The copy-on-write prologue of the database mutators. *)
Definition dirtyDatabase (k : DatabaseID) : MS (option SQLChainProfile) :=
  s ← getS;
  match ix_databases (dirty s) !! k with
  | Some dst => mret dst
  | None =>
      match ix_databases (readonly s) !! k with
      | None => throw ErrDatabaseNotFound
      | Some src => modifyS (set_dirty_database k src);; mret src
      end
  end.

Definition addSQLChainUser (k : DatabaseID) (addr : AccountAddress) (perm : option UserPermission)
    : MS unit :=
  dst ← dirtyDatabase k;
  dst ← deref dst;
  if decide (Exists (λ v, su_Address v = addr) (sp_Users dst)) then throw ErrDatabaseUserExists
  else modifyS (set_dirty_database k (Some (set_Users dst
         (sp_Users dst ++ [MkSQLChainUser addr perm 0 0 0 UnknownStatus])))).

(** The loop of [deleteSQLChainUser]: [arr] is the backing array the [range]
    walks (its length fixed at the start), [len] the length of the re-sliced
    [dst.Users].  [None] in the result is a panic: a nil element, or an index
    past [len]. *)
Fixpoint deleteUserLoop (addr : AccountAddress) (fuel i : nat)
    (arr : list (option SQLChainUser)) (len : nat)
    : option (list (option SQLChainUser) * nat) :=
  match fuel with
  | O => Some (arr, len)
  | S fuel =>
      match arr !! i with
      | Some (Some v) =>
          if decide (su_Address v = addr) then
            if decide (0 < len ∧ i < len)%nat then
              let last := (len - 1)%nat in
              let arr := <[last := None]> (<[i := default None (arr !! last)]> arr) in
              deleteUserLoop addr fuel (S i) arr last
            else None
          else deleteUserLoop addr fuel (S i) arr len
      | _ => None
      end
  end.

Definition deleteSQLChainUser (k : DatabaseID) (addr : AccountAddress) : MS unit :=
  dst ← dirtyDatabase k;
  dst ← deref dst;
  let n := length (sp_Users dst) in
  match deleteUserLoop addr n 0 (Some <$> sp_Users dst) n with
  | None => panic
  | Some (arr, len) => modifyS (set_dirty_database k (Some (set_Users dst (omap id (take len arr)))))
  end.

Definition alterSQLChainUser (k : DatabaseID) (addr : AccountAddress) (perm : option UserPermission)
    : MS unit :=
  dst ← dirtyDatabase k;
  dst ← deref dst;
  modifyS (set_dirty_database k (Some (set_Users dst
    ((λ v, if decide (su_Address v = addr) then set_Permission v perm else v) <$> sp_Users dst)))).

Definition loadROSQLChains (s : metaState) (addr : AccountAddress) : list SQLChainProfile :=
  db ← (map_to_list (ix_databases (readonly s))).*2;
  match db with
  | None => []
  | Some db => (λ _, db) <$> filter (λ m, mi_Address m = addr) (sp_Miners db)
  end.
