(* ===== verification/MetaView.v ===== *)
(** * The meta state as one map: overlay, commit, well-formedness

    The abstract state behind [metaState] is a single map per index, the dirty
    overlay applied to the read-only entries ([overlay]).  This file shows that
    the loads read it, that [commit] keeps it while emptying the overlay
    (whatever the iteration order of the dirty maps), and that every operation
    preserves the type invariant [wf_state]: keys agree with the addresses stored
    in the objects, balances are two [uint64]s, nonces are [uint32]s, and no
    account entry is nil. *)
From S2P Require Import Prelude Hash Types MetaState.
From Stdlib Require Import ZArith Lia Permutation.
From stdpp Require Import base list gmap strings.
Local Open Scope Z_scope.

(** ** Overlay *)

Definition overlayValue {V} (d r : option (option V)) : option V :=
  match d with Some o => o | None => mjoin r end.

Definition overlay {K V} `{Countable K} (d r : gmap K (option V)) : gmap K V :=
  merge overlayValue d r.

Lemma lookup_overlay {K V} `{Countable K} (d r : gmap K (option V)) k :
  overlay d r !! k = overlayValue (d !! k) (r !! k).
Proof.
  unfold overlay. rewrite lookup_merge. by destruct (d !! k), (r !! k).
Qed.

Definition accounts (s : metaState) : gmap AccountAddress Account :=
  overlay (ix_accounts (dirty s)) (ix_accounts (readonly s)).
Definition databases (s : metaState) : gmap DatabaseID SQLChainProfile :=
  overlay (ix_databases (dirty s)) (ix_databases (readonly s)).
Definition providers (s : metaState) : gmap AccountAddress ProviderProfile :=
  overlay (ix_provider (dirty s)) (ix_provider (readonly s)).

(** An index whose entries are all non-nil, as the read-only index always is. *)
Definition no_nil {K V} `{Countable K} (m : gmap K (option V)) : Prop :=
  ∀ k, m !! k ≠ Some None.

Lemma overlayLoad_spec {K V} `{Countable K} (d r : gmap K (option V)) k :
  no_nil r →
  overlayLoad d r k = match overlay d r !! k with Some o => (Some o, true) | None => (None, false) end.
Proof.
  intros Hr. rewrite lookup_overlay. unfold overlayLoad.
  destruct (d !! k) as [[]|] eqn:Hd; cbn; [done..|].
  destruct (r !! k) as [[]|] eqn:Hk; cbn; [done| |done]. by destruct (Hr k).
Qed.

(** The three [load*Object] methods read the overlay: an object is found exactly
    when the overlay has one, and it is that object. *)
Theorem load_reads_overlay s :
  no_nil (ix_accounts (readonly s)) → no_nil (ix_databases (readonly s)) →
  no_nil (ix_provider (readonly s)) →
  (∀ k, loadAccountObject s k = match accounts s !! k with Some o => (Some o, true) | None => (None, false) end) ∧
  (∀ k, loadSQLChainObject s k = match databases s !! k with Some o => (Some o, true) | None => (None, false) end) ∧
  (∀ k, loadProviderObject s k = match providers s !! k with Some o => (Some o, true) | None => (None, false) end).
Proof. intros Ha Hd Hp. split_and!; intros k; by apply overlayLoad_spec. Qed.

Lemma load_reads_overlay_witness :
  no_nil (ix_accounts (readonly newMetaState)) ∧
  loadAccountObject (set_dirty_account zeroHash (Some (newAccount zeroHash)) newMetaState) zeroHash
  = (Some (newAccount zeroHash), true).
Proof.
  split; [by intros k|].
  rewrite (proj1 (load_reads_overlay
    (set_dirty_account zeroHash (Some (newAccount zeroHash)) newMetaState)
    ltac:(by intros k) ltac:(by intros k) ltac:(by intros k))).
  vm_compute. reflexivity.
Defined.

(** ** Commit *)

Definition commitStep {K V} `{Countable K} (r : gmap K (option V)) (kv : K * option V)
    : gmap K (option V) :=
  match kv.2 with Some _ => <[kv.1 := kv.2]> r | None => delete kv.1 r end.

(** Whatever order the dirty entries come in, committing them gives this map. *)
Lemma commit_any_order {K V} `{Countable K} (d r : gmap K (option V)) (l : list (K * option V)) k :
  l ≡ₚ map_to_list d →
  foldl commitStep r l !! k =
    match d !! k with Some (Some v) => Some (Some v) | Some None => None | None => r !! k end.
Proof.
  intros Hperm.
  assert (NoDup l.*1) as Hnd by (rewrite Hperm; apply NoDup_fst_map_to_list).
  assert (∀ v, d !! k = Some v ↔ (k, v) ∈ l) as Hin
    by (intros v; rewrite Hperm, elem_of_map_to_list; done).
  clear Hperm. revert r d Hin. induction l as [|[k' v'] l IH]; intros r d Hin.
  { destruct (d !! k) as [v|]; [|done]. exfalso. by eapply not_elem_of_nil, Hin. }
  cbn [fmap list_fmap] in Hnd. apply NoDup_cons in Hnd as [Hni Hnd]. cbn [foldl].
  rewrite (IH Hnd _ (delete k' d)).
  2:{ intros v. rewrite lookup_delete_Some, Hin, elem_of_cons. split.
      - intros [Hne [[= -> ->]|?]]; done.
      - intros Hl. split; [|by right]. intros ->. apply Hni.
        apply list_elem_of_fmap. by exists (k, v). }
  unfold commitStep; cbn. destruct (decide (k = k')) as [->|Hne].
  - rewrite lookup_delete_eq.
    assert (d !! k' = Some v') as -> by (apply Hin; left).
    destruct v' as [v'|]; [by rewrite lookup_insert_eq|by rewrite lookup_delete_eq].
  - rewrite lookup_delete_ne by done. destruct (d !! k) as [[]|]; [done..|].
    destruct v'; [by rewrite lookup_insert_ne|by rewrite lookup_delete_ne].
Qed.

Lemma lookup_commitMap {K V} `{Countable K} (d r : gmap K (option V)) k :
  commitMap d r !! k =
    match d !! k with Some (Some v) => Some (Some v) | Some None => None | None => r !! k end.
Proof. by apply (commit_any_order d r (map_to_list d)). Qed.

Lemma commitMap_no_nil {K V} `{Countable K} (d r : gmap K (option V)) :
  no_nil r → no_nil (commitMap d r).
Proof. intros Hr k. rewrite lookup_commitMap. by destruct (d !! k) as [[]|]. Qed.

Lemma overlay_commitMap {K V} `{Countable K} (d r : gmap K (option V)) :
  overlay ∅ (commitMap d r) = overlay d r.
Proof.
  apply map_eq. intros k. rewrite !lookup_overlay, lookup_commitMap, lookup_empty. cbn.
  by destruct (d !! k) as [[]|].
Qed.

(** [commit] empties the dirty index and leaves every index of the overlay as
    it was, so a committed state answers every load as before; the merged
    provider map of [filterNMiners] is computed the same way. *)
Theorem commit_overlay s :
  accounts (commit s) = accounts s ∧ databases (commit s) = databases s ∧
  providers (commit s) = providers s ∧ dirty (commit s) = newMetaIndex.
Proof. split_and!; [apply overlay_commitMap..|done]. Qed.

(** Cleaning or copying drops the overlay. *)
Lemma makeCopy_overlay s : accounts (makeCopy s) = overlay ∅ (ix_accounts (readonly s)).
Proof. done. Qed.

Lemma accounts_set_dirty k v s : accounts (set_dirty_account k (Some v) s) = <[k := v]> (accounts s).
Proof.
  apply map_eq. intros j. unfold accounts. rewrite lookup_overlay. cbn.
  destruct (decide (k = j)) as [->|Hne].
  - by rewrite !lookup_insert_eq.
  - by rewrite !lookup_insert_ne, lookup_overlay.
Qed.

Lemma databases_set_dirty k v s :
  databases (set_dirty_database k (Some v) s) = <[k := v]> (databases s).
Proof.
  apply map_eq. intros j. unfold databases. rewrite lookup_overlay. cbn.
  destruct (decide (k = j)) as [->|Hne].
  - by rewrite !lookup_insert_eq.
  - by rewrite !lookup_insert_ne, lookup_overlay.
Qed.

(** ** Well-formedness *)

Record wf_account (k : AccountAddress) (a : Account) : Prop := {
  wfa_key : ac_Address a = k;
  wfa_len : length (ac_TokenBalance a) = 2%nat;
  wfa_bal : Forall is_u64 (ac_TokenBalance a);
  wfa_nonce : is_u32 (ac_NextNonce a);
}.

Record wf_user (u : SQLChainUser) : Prop := {
  wfu_advance : is_u64 (su_AdvancePayment u);
  wfu_arrears : is_u64 (su_Arrears u);
  wfu_deposit : is_u64 (su_Deposit u);
}.

Record wf_miner (m : MinerInfo) : Prop := {
  wfm_pending : is_u64 (mi_PendingIncome m);
  wfm_received : is_u64 (mi_ReceivedIncome m);
  wfm_arrears : Forall (λ ua, is_u64 (ua_Arrears ua)) (mi_UserArrears m);
}.

Record wf_profile (k : DatabaseID) (p : SQLChainProfile) : Prop := {
  wfp_key : sp_ID p = k;
  wfp_users : Forall wf_user (sp_Users p);
  wfp_miners : Forall wf_miner (sp_Miners p);
}.

Record wf_provider (k : AccountAddress) (p : ProviderProfile) : Prop := {
  wfv_key : pp_Provider p = k;
  wfv_deposit : is_u64 (pp_Deposit p);
}.

(** Every entry of an account index is a well-formed account. *)
Definition wf_accounts (m : gmap AccountAddress (option Account)) : Prop :=
  map_Forall (λ k o, ∃ a, o = Some a ∧ wf_account k a) m.
Definition wf_entries {K V} `{Countable K} (P : K → V → Prop) (m : gmap K (option V)) : Prop :=
  map_Forall (λ k o, ∀ v, o = Some v → P k v) m.

Record wf_state (s : metaState) : Prop := {
  wf_dirty_accounts : wf_accounts (ix_accounts (dirty s));
  wf_ro_accounts : wf_accounts (ix_accounts (readonly s));
  wf_dirty_databases : wf_entries wf_profile (ix_databases (dirty s));
  wf_ro_databases : wf_entries wf_profile (ix_databases (readonly s));
  wf_dirty_provider : wf_entries wf_provider (ix_provider (dirty s));
  wf_ro_provider : wf_entries wf_provider (ix_provider (readonly s));
  wf_ro_nil_databases : no_nil (ix_databases (readonly s));
  wf_ro_nil_provider : no_nil (ix_provider (readonly s));
}.

Lemma wf_newMetaState : wf_state newMetaState.
Proof. split; cbn; try apply map_Forall_empty; by intros k. Qed.

Lemma wf_newAccount k : wf_account k (newAccount k).
Proof. split; cbn; [done..| |done]. repeat constructor; done. Qed.

Lemma wf_accounts_no_nil m : wf_accounts m → no_nil m.
Proof. intros Hm k Hk. destruct (Hm _ _ Hk) as (a & ? & _). done. Qed.

Lemma wf_set_dirty_account k a s :
  wf_state s → wf_account k a → wf_state (set_dirty_account k (Some a) s).
Proof. intros [] ?. split; cbn; try done. apply map_Forall_insert_2; eauto. Qed.

Lemma wf_set_readonly_account k a s :
  wf_state s → wf_account k a → wf_state (set_readonly_account k (Some a) s).
Proof. intros [] ?. split; cbn; try done. apply map_Forall_insert_2; eauto. Qed.

Lemma wf_set_dirty_database k p s :
  wf_state s → wf_profile k p → wf_state (set_dirty_database k (Some p) s).
Proof. intros [] ?. split; cbn; try done. apply map_Forall_insert_2; naive_solver. Qed.

Lemma wf_del_database k s : wf_state s → wf_state (set_dirty_database k None s).
Proof. intros []. split; cbn; try done. apply map_Forall_insert_2; done. Qed.

Lemma wf_set_dirty_provider k o s :
  wf_state s → (∀ p, o = Some p → wf_provider k p) → wf_state (set_dirty_provider k o s).
Proof. intros [] ?. split; cbn; try done. apply map_Forall_insert_2; done. Qed.

#[export] Hint Resolve wf_set_dirty_account wf_set_readonly_account wf_set_dirty_database
  wf_newAccount wf_newMetaState : gomach.

(** Entries of a committed map come from one of the two. *)
Lemma commitMap_Forall {K V} `{Countable K} (P : K → option V → Prop) (d r : gmap K (option V)) :
  map_Forall P d → map_Forall P r → map_Forall P (commitMap d r).
Proof.
  intros Hd Hr k o. rewrite lookup_commitMap.
  destruct (d !! k) as [[v|]|] eqn:E; intros Ho; simplify_eq; eauto.
Qed.

Lemma wf_commit s : wf_state s → wf_state (commit s).
Proof.
  intros []. split; cbn; try apply map_Forall_empty; try by apply commitMap_Forall.
  - by apply commitMap_no_nil.
  - by apply commitMap_no_nil.
Qed.

Lemma wf_makeCopy s : wf_state s → wf_state (makeCopy s).
Proof. intros []. split; cbn; try apply map_Forall_empty; done. Qed.

Lemma wf_clean s : wf_state s → wf_state (clean s).
Proof. intros []. split; cbn; try apply map_Forall_empty; done. Qed.

Lemma wf_lookup_account s k a : wf_state s → accounts s !! k = Some a → wf_account k a.
Proof.
  intros Hwf. unfold accounts. rewrite lookup_overlay.
  destruct (ix_accounts (dirty s) !! k) as [o|] eqn:Hd; cbn.
  - intros ->. destruct (wf_dirty_accounts _ Hwf _ _ Hd) as (? & [= ->] & ?). done.
  - destruct (ix_accounts (readonly s) !! k) as [o|] eqn:Hr; cbn; [|done].
    intros ->. destruct (wf_ro_accounts _ Hwf _ _ Hr) as (? & [= ->] & ?). done.
Qed.

Lemma wf_lookup_database s k p : wf_state s → databases s !! k = Some p → wf_profile k p.
Proof.
  intros Hwf. unfold databases. rewrite lookup_overlay.
  destruct (ix_databases (dirty s) !! k) as [o|] eqn:Hd; cbn.
  - intros ->. by eapply wf_dirty_databases.
  - destruct (ix_databases (readonly s) !! k) as [o|] eqn:Hr; cbn; [|done].
    intros ->. by eapply wf_ro_databases.
Qed.

Lemma wf_lookup_provider s k p : wf_state s → providers s !! k = Some p → wf_provider k p.
Proof.
  intros Hwf. unfold providers. rewrite lookup_overlay.
  destruct (ix_provider (dirty s) !! k) as [o|] eqn:Hd; cbn.
  - intros ->. by eapply wf_dirty_provider.
  - destruct (ix_provider (readonly s) !! k) as [o|] eqn:Hr; cbn; [|done].
    intros ->. by eapply wf_ro_provider.
Qed.

(** The loads, in a well-formed state. *)
Lemma load_database s k : wf_state s →
  loadSQLChainObject s k =
    match databases s !! k with Some o => (Some o, true) | None => (None, false) end.
Proof. intros Hwf. apply overlayLoad_spec, wf_ro_nil_databases, Hwf. Qed.

Lemma load_provider s k : wf_state s →
  loadProviderObject s k =
    match providers s !! k with Some o => (Some o, true) | None => (None, false) end.
Proof. intros Hwf. apply overlayLoad_spec, wf_ro_nil_provider, Hwf. Qed.

Lemma load_account s k : wf_state s →
  loadAccountObject s k =
    match accounts s !! k with Some o => (Some o, true) | None => (None, false) end.
Proof. intros Hwf. apply overlayLoad_spec, wf_accounts_no_nil, wf_ro_accounts, Hwf. Qed.

(** The pointer lookups of the account mutators, in a well-formed state. *)
Lemma accountPtr_spec s k : wf_state s →
  match accountPtr s k with
  | Some (o, b) => ∃ a, o = Some a ∧ accounts s !! k = Some a
  | None => accounts s !! k = None
  end.
Proof.
  intros Hwf. unfold accountPtr, accounts. rewrite lookup_overlay.
  destruct (ix_accounts (dirty s) !! k) as [o|] eqn:Hd; cbn.
  - destruct (wf_dirty_accounts _ Hwf _ _ Hd) as (a & -> & _). eauto.
  - destruct (ix_accounts (readonly s) !! k) as [o|] eqn:Hr; cbn; [|done].
    destruct (wf_ro_accounts _ Hwf _ _ Hr) as (a & -> & _). eauto.
Qed.

Lemma overlayFind_spec s k : wf_state s →
  match overlayFind (ix_accounts (dirty s)) (ix_accounts (readonly s)) k with
  | Some (o, w) => ∃ a, o = Some a ∧ accounts s !! k = Some a ∧
                     (w = InReadonly → ix_accounts (dirty s) !! k = None)
  | None => accounts s !! k = None
  end.
Proof.
  intros Hwf. unfold overlayFind, accounts. rewrite lookup_overlay.
  destruct (ix_accounts (dirty s) !! k) as [o|] eqn:Hd; cbn.
  - destruct (wf_dirty_accounts _ Hwf _ _ Hd) as (a & -> & _). naive_solver.
  - destruct (ix_accounts (readonly s) !! k) as [o|] eqn:Hr; cbn; [|done].
    destruct (wf_ro_accounts _ Hwf _ _ Hr) as (a & -> & _). eauto.
Qed.

(** Writing an account object the read-only index holds and the overlay does not. *)
Lemma accounts_set_readonly k v s : ix_accounts (dirty s) !! k = None →
  accounts (set_readonly_account k (Some v) s) = <[k := v]> (accounts s).
Proof.
  intros Hd. apply map_eq. intros j. unfold accounts. rewrite lookup_overlay. cbn.
  destruct (decide (k = j)) as [->|Hne].
  - by rewrite Hd, !lookup_insert_eq.
  - by rewrite !lookup_insert_ne, lookup_overlay.
Qed.
