(* ===== verification/MetaTx.v ===== *)
(** * blockproducer: transactions on the meta state

    Models the transaction handlers of [src/blockproducer/metastate.go]
    ([transferAccountToken] to [apply]) as computations over [metaState].  The
    [err] variable a Go function carries along is kept where the code inspects
    it later ([matchProvidersWithUser]), with [errors.Wrapf(nil) = nil].
    Arithmetic is [uint64] with its wrap-around; the arrears rate is computed in
    binary64. *)
From S2P Require Import Prelude Hash Types MetaState.
From Stdlib Require Import Ascii String ZArith Lia.
From Corelib Require Import SpecFloat.
From stdpp Require Import base list gmap strings sorting pretty.
Local Open Scope Z_scope.

(** [err := <a HashError>] seen as an error value. *)
Definition liftHash {A} (r : GoResult HashError A) : GoResult error A :=
  match r with
  | Ok a => Ok a
  | Err _ => Err (ErrWrap (ErrNew "fail to convert string to hash"))
  | Panic => Panic
  end.

Lemma liftHash_Ok {A} (r : GoResult HashError A) a : liftHash r = Ok a → r = Ok a.
Proof. destruct r; cbn; by intros [=->]. Qed.

Section handlers.
Context `{Env}.

(** ** Transfers between accounts *)

(** [realSender, err := crypto.PubKeyHash(signee)] with the error wrapped, then
    the comparison with the claimed sender. *)
Definition checkSender (signee : option PublicKey) (sender : AccountAddress) : MS unit :=
  match PubKeyHash signee with
  | Ok realSender =>
      if decide (realSender ≠ sender) then throw (ErrWrap ErrInvalidSender) else mret tt
  | Err e => throw (ErrWrap e)
  | Panic => panic
  end.

(** The transfer proper, after the sender check. *)
Definition moveTokens (sender receiver : AccountAddress) (amount : Z) (tokenType : TokenType)
    : MS unit :=
  if decide (sender = receiver ∨ amount = 0) then mret tt
  else
    loadOrStoreAccountObject receiver (newAccount receiver);;
    s ← getS;
    match accountPtr s sender with
    | None => throw ErrAccountNotFound
    | Some (so, sd) =>
        match accountPtr s receiver with
        | None => throw ErrAccountNotFound
        | Some (ro, rd) =>
            so ← deref so;
            sb0 ← deref (balanceAt (ac_TokenBalance so) tokenType);
            ro ← deref ro;
            rb0 ← deref (balanceAt (ac_TokenBalance ro) tokenType);
            sb ← liftR (safeSub sb0 amount);
            rb ← liftR (safeAdd rb0 amount);
            modifyS (set_dirty_account sender
              (Some (set_TokenBalance so (setBalanceAt (ac_TokenBalance so) tokenType sb))));;
            modifyS (set_dirty_account receiver
              (Some (set_TokenBalance ro (setBalanceAt (ac_TokenBalance ro) tokenType rb))))
        end
    end.

Definition transferAccountToken (transfer : Signed TransferHeader) : MS unit :=
  let h := tx_Header transfer in
  checkSender (hsv_Signee (tx_HSV transfer)) (tr_Sender h);;
  moveTokens (tr_Sender h) (tr_Receiver h) (tr_Amount h) (tr_TokenType h).

(** ** Providers *)

Definition updateProviderList (tx : Signed ProvideServiceHeader) (height : Z) : MS unit :=
  let h := tx_Header tx in
  match PubKeyHash (hsv_Signee (tx_HSV tx)) with
  | Err e => throw (ErrWrap e)
  | Panic => panic
  | Ok sender =>
      (if decide (height >= BPHeightCIPFixProvideService) then
         s ← getS;
         match loadProviderObject s sender with
         | (po, true) =>
             po ← deref po;
             increaseAccountStableBalance sender (pp_Deposit po);;
             deleteProviderObject sender
         | (_, false) => mret tt
         end
       else mret tt);;
      decreaseAccountStableBalance sender conf_MinProviderDeposit;;
      modifyS (set_dirty_provider sender (Some
        (MkProviderProfile sender (ps_Space h) (ps_Memory h) (ps_LoadAvgPerCPU h)
           (ps_TargetUser h) conf_MinProviderDeposit (ps_GasPrice h) Particle (ps_NodeID h))))
  end.

(** ** Database creation *)

Definition minDeposit (gasPrice minerNumber : Z) : Z :=
  u64 (u64 (u64 (gasPrice * conf_QPS) * conf_BillingBlockCount) * minerNumber).

Definition sqlchainPeriod : Z := 60 * 24 * 30.

Definition isProviderUserMatch (targetUsers : list AccountAddress) (user : AccountAddress) : bool :=
  match targetUsers with
  | [] => true
  | _ => bool_decide (user ∈ targetUsers)
  end.

Definition isProviderReqMatch (po : ProviderProfile) (req : CreateDatabaseHeader)
    : bool * option error :=
  let rm := cd_ResourceMeta req in
  if decide (pp_GasPrice po > cd_GasPrice req) then (false, Some (ErrNew "gas price mismatch"))
  else if float_gt (rm_LoadAvgPerCPU rm) float_zero &&
          float_gt (pp_LoadAvgPerCPU po) (rm_LoadAvgPerCPU rm)
  then (false, Some (ErrNew "load average mismatch"))
  else if decide (pp_Memory po < rm_Memory rm) then (false, Some (ErrNew "memory mismatch"))
  else if decide (pp_Space po < rm_Space rm) then (false, Some (ErrNew "disk space mismatch"))
  else if decide (pp_TokenType po ≠ cd_TokenType req)
  then (false, Some (ErrNew "token type mismatch"))
  else (true, None).

Definition filterAndAppendMiner (miners : list MinerInfo) (po : ProviderProfile)
    (req : CreateDatabaseHeader) (user : AccountAddress) : list MinerInfo * option error :=
  if negb (isProviderUserMatch (pp_TargetUser po) user) then (miners, Some ErrMinerUserNotMatch)
  else
    match isProviderReqMatch po req with
    | (false, err) => (miners, err)
    | (true, err) =>
        (miners ++ [MkMinerInfo (pp_Provider po) (pp_NodeID po) EmptyString 0 0 []
                      (pp_Deposit po) UnknownStatus EmptyString], err)
    end.

(** [MinerInfos.Less], as the order [sort.Slice] sorts by. *)
Definition miner_le (a b : MinerInfo) : Prop := String.leb (mi_NodeID a) (mi_NodeID b) = true.

#[export] Instance miner_le_dec a b : Decision (miner_le a b).
Proof. unfold miner_le. apply _. Defined.

(** The merged provider map without the designated miners. *)
Definition allProviderMap (s : metaState) (targets : list AccountAddress)
    : gmap AccountAddress (option ProviderProfile) :=
  foldl (λ m k, delete k m)
    (commitMap (ix_provider (dirty s)) (ix_provider (readonly s))) targets.

(** [filterNMiners], for the providers in the order a map iteration gives them. *)
Definition filterNMiners_from (providers : list ProviderProfile) (tx : CreateDatabaseHeader)
    (user : AccountAddress) (minerCount : nat) : GoResult error (list MinerInfo) :=
  let newMiners := foldl (λ ms po, (filterAndAppendMiner ms po tx user).1) [] providers in
  if decide (length newMiners < minerCount)%nat then Err ErrNoEnoughMiner
  else Ok (take minerCount (merge_sort miner_le newMiners)).

Definition filterNMiners (s : metaState) (tx : CreateDatabaseHeader) (user : AccountAddress)
    (minerCount : nat) : GoResult error (list MinerInfo) :=
  filterNMiners_from
    (omap snd (map_to_list (allProviderMap s (rm_TargetMiners (cd_ResourceMeta tx)))))
    tx user minerCount.

(** The loop over [TargetMiners], [load] being [s.loadProviderObject]: the miners so far and the last [err].
    [None] is the nil dereference of a nil read-only provider. *)
Fixpoint targetLoop (load : AccountAddress → option ProviderProfile * bool)
    (tx : CreateDatabaseHeader) (sender : AccountAddress) (minerCount : nat)
    (targets : list AccountAddress) (miners : list MinerInfo)
    (err : option error) : option (list MinerInfo * option error) :=
  match targets with
  | [] => Some (miners, err)
  | m :: rest =>
      match load m with
      | (_, false) => targetLoop load tx sender minerCount rest miners (Some ErrNoSuchMiner)
      | (None, true) => None
      | (Some po, true) =>
          let '(miners, err) := filterAndAppendMiner miners po tx sender in
          if decide (length miners = minerCount) then Some (miners, err)
          else targetLoop load tx sender minerCount rest miners err
      end
  end.

(** [proto.FromAccountAndNonce] *)
Definition FromAccountAndNonce (accountAddress : AccountAddress) (nonce : Z) : DatabaseID :=
  Hash_String (THashH (string_bytes (Hash_String accountAddress +:+ pretty (Z.to_N nonce)))).

(** [generateGenesisBlock], with [PackAsGenesis]. *)
Definition generateGenesisBlock (timestamp : Z) : GoResult error GenesisBlock :=
  let header := MkHeader 0x01000000 (Hash_String zeroHash) zeroHash zeroHash zeroHash timestamp in
  match MarshalHash_Header header with
  | None => Err (ErrNew "marshal")
  | Some enc => Ok (MkGenesisBlock header (THashH enc))
  end.

(** The part of [matchProvidersWithUser] after the miners are known. *)
Definition createMatched (tx : Signed CreateDatabaseHeader) (sender : AccountAddress)
    (minAdvancePayment : Z) (miners : list MinerInfo) : MS unit :=
  let h := tx_Header tx in
  let dbID := FromAccountAndNonce (cd_Owner h) (u32 (cd_Nonce h)) in
  dbAddr ← liftR (liftHash (AccountAddress_of dbID));
  all ← liftR (safeAdd minAdvancePayment (cd_AdvancePayment h));
  decreaseAccountToken sender all (cd_TokenType h);;
  let users := [MkSQLChainUser sender (UserPermissionFromRole Admin) (cd_AdvancePayment h) 0
                  minAdvancePayment Normal] in
  gb ← liftR (generateGenesisBlock (mx_Timestamp (tx_Mixin tx)));
  match EncodeMsgPack_Block gb with
  | None => throw (ErrNew "encode")
  | Some enc =>
      let sp := MkSQLChainProfile dbID dbAddr sqlchainPeriod (cd_GasPrice h) 0 Particle sender
                  miners users enc (cd_ResourceMeta h) in
      s ← getS;
      if (loadSQLChainObject s dbID).2 then throw (ErrWrap ErrDatabaseExists)
      else
        modifyS (set_dirty_account dbAddr (Some (newAccount dbAddr)));;
        modifyS (set_dirty_database dbID (Some sp));;
        modifyS (λ s, foldl (λ s m, set_dirty_provider (mi_Address m) None s) s miners)
  end.

Definition matchProvidersWithUser (tx : Signed CreateDatabaseHeader) : MS unit :=
  let h := tx_Header tx in
  let rm := cd_ResourceMeta h in
  match PubKeyHash (hsv_Signee (tx_HSV tx)) with
  | Err e => throw (ErrWrap e)
  | Panic => panic
  | Ok sender =>
      if decide (sender ≠ cd_Owner h) then throw (ErrWrap ErrInvalidSender)
      else if decide (cd_GasPrice h <= 0) then throw ErrInvalidGasPrice
      else if decide (rm_Node rm <= 0) then throw ErrInvalidMinerCount
      else
        let minerCount := Z.to_nat (rm_Node rm) in
        let minAdvancePayment := minDeposit (cd_GasPrice h) (rm_Node rm) in
        if decide (cd_AdvancePayment h < minAdvancePayment)
        then throw ErrInsufficientAdvancePayment
        else
          s ← getS;
          match targetLoop (loadProviderObject s) h sender minerCount (rm_TargetMiners rm) [] None with
          | None => panic
          | Some (miners, err) =>
              if decide (length miners < minerCount)%nat then
                if decide (minerCount <= length (rm_TargetMiners rm))%nat then
                  (* err = errors.Wrapf(err, ...); return *)
                  match Wrap err with Some e => throw e | None => mret tt end
                else
                  newMiners ← liftR (filterNMiners s h sender (minerCount - length miners));
                  createMatched tx sender minAdvancePayment (miners ++ newMiners)
              else createMatched tx sender minAdvancePayment miners
          end
  end.

(** ** Permissions and keys *)

(** The scan of [updatePermission] over the users: [None] on permission denied,
    else the number of super users and the index of the target. *)
Fixpoint permissionScan (sender target : AccountAddress) (i : nat) (users : list SQLChainUser)
    (supers : nat) (idx : option nat) : option (nat * option nat) :=
  match users with
  | [] => Some (supers, idx)
  | u :: rest =>
      let super := HasSuperPermission (su_Permission u) in
      if bool_decide (sender = su_Address u) && negb super then None
      else permissionScan sender target (S i) rest
             (if super then S supers else supers)
             (if decide (target = su_Address u) then Some i else idx)
  end.

(** The users after the change. *)
Definition setPermission (users : list SQLChainUser) (target : AccountAddress)
    (perm : option UserPermission) (idx : option nat) : list SQLChainUser :=
  match idx with
  | None => users ++ [MkSQLChainUser target perm 0 0 0 UnknownStatus]
  | Some i => alter (λ u, set_Permission u perm) i users
  end.

Definition updatePermission (tx : Signed UpdatePermissionHeader) : MS unit :=
  let h := tx_Header tx in
  match PubKeyHash (hsv_Signee (tx_HSV tx)) with
  | Err e => throw e
  | Panic => panic
  | Ok sender =>
      let id := DatabaseID_of (upd_TargetSQLChain h) in
      s ← getS;
      match loadSQLChainObject s id with
      | (_, false) => throw ErrDatabaseNotFound
      | (so, true) =>
          so ← deref so;
          match permissionScan sender (upd_TargetUser h) 0 (sp_Users so) 0 None with
          | None => throw ErrAccountPermissionDeny
          | Some (numOfSuperUsers, targetUserIndex) =>
              if bool_decide (numOfSuperUsers <= 1)%nat && bool_decide (upd_TargetUser h = sender) &&
                 negb (HasSuperPermission (upd_Permission h))
              then throw ErrNoSuperUserLeft
              else modifyS (set_dirty_database id (Some (set_Users so
                     (setPermission (sp_Users so) (upd_TargetUser h) (upd_Permission h)
                        targetUserIndex))))
          end
      end
  end.

(** The first user entry of the sender, which [updateKeys] checks. *)
Definition findUser (users : list SQLChainUser) (addr : AccountAddress) : option SQLChainUser :=
  snd <$> list_find (λ u, su_Address u = addr) users.

(** [keyMap], and the miners with their new keys. *)
Definition keyMap (keys : list MinerKey) : gmap AccountAddress string :=
  foldl (λ m k, <[mk_Miner k := mk_EncryptionKey k]> m) ∅ keys.
Definition issueKeysMiners (keys : list MinerKey) (miners : list MinerInfo) : list MinerInfo :=
  (λ m, match keyMap keys !! mi_Address m with
        | Some key => set_EncryptionKey m key
        | None => m
        end) <$> miners.

(** [updateKeys] works on the copy [loadSQLChainObject] returned and does not
    store it back. *)
Definition updateKeys (tx : Signed IssueKeysHeader) : MS unit :=
  let h := tx_Header tx in
  let sender := signeeAddress (tx_HSV tx) in
  s ← getS;
  match loadSQLChainObject s (DatabaseID_of (ik_TargetSQLChain h)) with
  | (_, false) => throw ErrDatabaseNotFound
  | (so, true) =>
      so ← deref so;
      match findUser (sp_Users so) sender with
      | Some user =>
          if negb (HasSuperPermission (su_Permission user)) then throw ErrAccountPermissionDeny
          else let _so' := set_Miners so (issueKeysMiners (ik_MinerKeys h) (sp_Miners so)) in mret tt
      | None =>
          let _so' := set_Miners so (issueKeysMiners (ik_MinerKeys h) (sp_Miners so)) in mret tt
      end
  end.

(** ** Billing *)

(** [costMap] and [userMap], built from the reported user costs. *)
Definition costMap (users : list UserCost) : gmap AccountAddress Z :=
  foldl (λ m u, <[uc_User u := uc_Cost u]> m) ∅ users.

Definition addIncome (m : gmap AccountAddress Z) (inc : MinerIncome) : gmap AccountAddress Z :=
  <[inc_Miner inc := u64 (default 0 (m !! inc_Miner inc) + inc_Income inc)]> m.
Definition userMap (users : list UserCost) : gmap AccountAddress (gmap AccountAddress Z) :=
  foldl (λ m u, <[uc_User u := foldl addIncome (default ∅ (m !! uc_User u)) (uc_Miners u)]> m)
    ∅ users.

(** [userMap[user][miner]] *)
Definition incomeOf (um : gmap AccountAddress (gmap AccountAddress Z))
    (user miner : AccountAddress) : Z :=
  default 0 (um !! user ≫= λ m, m !! miner).

Definition addPending (m : MinerInfo) (x : Z) : MinerInfo :=
  set_Income m (u64 (mi_PendingIncome m + x)) (mi_ReceivedIncome m) (mi_UserArrears m).

(** A user who can pay: every miner is credited in full. *)
Definition payMiners (um : gmap AccountAddress (gmap AccountAddress Z)) (gasPrice : Z)
    (user : AccountAddress) (miners : list MinerInfo) : list MinerInfo :=
  (λ m, addPending m (u64 (incomeOf um user (mi_Address m) * gasPrice))) <$> miners.

(** The inner loop over [miner.UserArrears]: the entries of [user] grow by
    [diff], one is appended if there was none; also returns how often [diff]
    was added to [user.Arrears]. *)
Definition recordArrears (user : AccountAddress) (diff : Z) (uas : list UserArrears)
    : list UserArrears * nat :=
  let uas' := (λ ua, if decide (ua_User ua = user)
                     then MkUserArrears (ua_User ua) (u64 (ua_Arrears ua + diff)) else ua) <$> uas in
  let n := length (filter (λ ua, ua_User ua = user) uas) in
  match n with
  | O => (uas' ++ [MkUserArrears user diff], 1%nat)
  | _ => (uas', n)
  end.

Definition add_times (n : nat) (diff x : Z) : Z := Nat.iter n (λ x, u64 (x + diff)) x.

(** One miner's share when the user cannot pay. *)
Definition arrearsMiner (um : gmap AccountAddress (gmap AccountAddress Z)) (gasPrice : Z)
    (user : AccountAddress) (rate : float64) (m : MinerInfo) (userArrears : Z) : MinerInfo * Z :=
  let income := u64 (incomeOf um user (mi_Address m) * gasPrice) in
  let minerIncome := u64_of_float (float_mul (float_of_u64 income) rate) in
  let diff := u64 (income - minerIncome) in
  let m1 := addPending m minerIncome in
  let '(uas, n) := recordArrears user diff (mi_UserArrears m1) in
  (set_Income m1 (mi_PendingIncome m1) (mi_ReceivedIncome m1) uas, add_times n diff userArrears).

Fixpoint arrearsMiners um gasPrice user rate (miners : list MinerInfo) (userArrears : Z)
    : list MinerInfo * Z :=
  match miners with
  | [] => ([], userArrears)
  | m :: ms =>
      let '(m', a) := arrearsMiner um gasPrice user rate m userArrears in
      let '(ms', a') := arrearsMiners um gasPrice user rate ms a in
      (m' :: ms', a')
  end.

(** One iteration of [for _, user := range newProfile.Users]. *)
Definition billUser (cm : gmap AccountAddress Z) (um : gmap AccountAddress (gmap AccountAddress Z))
    (gasPrice : Z) (user : SQLChainUser) (miners : list MinerInfo) : SQLChainUser * list MinerInfo :=
  let addr := su_Address user in
  let due := u64 (default 0 (cm !! addr) * gasPrice) in
  if decide (su_AdvancePayment user >= due) then
    (set_Funds user (u64 (su_AdvancePayment user - due)) (su_Arrears user) (su_Deposit user)
       (su_Status user), payMiners um gasPrice addr miners)
  else
    let rate := float_div (float_of_u64 (su_AdvancePayment user)) (float_of_u64 due) in
    let '(miners', arrears) := arrearsMiners um gasPrice addr rate miners (su_Arrears user) in
    (set_Funds user 0 arrears (su_Deposit user) Arrears, miners').

Fixpoint billUsers cm um gasPrice (users : list SQLChainUser) (miners : list MinerInfo)
    : list SQLChainUser * list MinerInfo :=
  match users with
  | [] => ([], miners)
  | u :: us =>
      let '(u', ms) := billUser cm um gasPrice u miners in
      let '(us', ms') := billUsers cm um gasPrice us ms in
      (u' :: us', ms')
  end.

(** The first loop: pending income becomes received income. *)
Definition settleMiner (m : MinerInfo) : MinerInfo :=
  set_Income m 0 (u64 (mi_ReceivedIncome m + mi_PendingIncome m)) (mi_UserArrears m).

Definition billProfile (tx : UpdateBillingHeader) (p : SQLChainProfile) : SQLChainProfile :=
  let '(users, miners) :=
    billUsers (costMap (ub_Users tx)) (userMap (ub_Users tx)) (sp_GasPrice p)
      (sp_Users p) (settleMiner <$> sp_Miners p) in
  set_LastUpdatedHeight (set_Miners (set_Users p users) miners) (ub_To tx).

Definition updateBilling (tx : Signed UpdateBillingHeader) : MS unit :=
  let h := tx_Header tx in
  let id := DatabaseID_of (ub_Receiver h) in
  s ← getS;
  match loadSQLChainObject s id with
  | (_, false) => throw (ErrWrap ErrDatabaseNotFound)
  | (newProfile, true) =>
      newProfile ← deref newProfile;
      if decide (ub_Version h > 0 ∧
                 (ub_From h >= ub_To h ∨ sp_LastUpdatedHeight newProfile ≠ ub_From h))
      then throw (ErrWrap ErrInvalidRange)
      else if decide (sp_GasPrice newProfile = 0) then mret tt
      else
        let minerAddr := signeeAddress (tx_HSV tx) in
        if negb (bool_decide (Exists (λ m, mi_Address m = minerAddr) (sp_Miners newProfile)))
        then throw ErrInvalidSender
        else modifyS (set_dirty_database id (Some (billProfile h newProfile)))
  end.

(** ** Transfers to a database *)

(** The arrears loop of one miner, as written: [i] counts the entries of other
    users seen so far, and [UserArrears[i]] is the entry that is paid out. *)
Fixpoint settleArrearsLoop (user : AccountAddress) (all rest : list UserArrears) (i : nat)
    (pending : Z) : Z :=
  match rest with
  | [] => pending
  | ua :: rest =>
      if decide (ua_User ua = user) then
        settleArrearsLoop user all rest i
          (u64 (pending + match all !! i with Some x => ua_Arrears x | None => 0 end))
      else settleArrearsLoop user all rest (S i) pending
  end.

Definition settleArrears (user : AccountAddress) (m : MinerInfo) : MinerInfo :=
  set_Income m (settleArrearsLoop user (mi_UserArrears m) (mi_UserArrears m) 0 (mi_PendingIncome m))
    (mi_ReceivedIncome m) (mi_UserArrears m).

(** What a transfer of [amount] does to the sender's user entry once arrears are
    dealt with: top up the deposit to [minDep], the rest is advance payment. *)
Definition topUp (minDep amount : Z) (user : SQLChainUser) : GoResult error SQLChainUser :=
  if decide (su_Deposit user < minDep) then
    let diff := u64 (minDep - su_Deposit user) in
    if decide (diff >= amount) then
      Ok (set_Funds user (su_AdvancePayment user) (su_Arrears user)
            (u64 (su_Deposit user + amount)) (su_Status user))
    else
      Ok (set_Funds user (u64 (su_AdvancePayment user + u64 (amount - diff))) (su_Arrears user)
            minDep (su_Status user))
  else
    match safeAdd (su_AdvancePayment user) amount with
    | Ok a => Ok (set_Funds user a (su_Arrears user) (su_Deposit user) (su_Status user))
    | Err e => Err e
    | Panic => Panic
    end.

Definition enableUser (minDep : Z) (user : SQLChainUser) : SQLChainUser :=
  if negb (EnableQuery (su_Status user)) && bool_decide (su_AdvancePayment user > minDep)
  then set_Funds user (su_AdvancePayment user) (su_Arrears user) (su_Deposit user) Normal
  else user.

(** The body of the loop over [sqlchain.Users] for the sender's entry. *)
Definition creditUser (p : SQLChainProfile) (amount : Z) (user : SQLChainUser)
    : GoResult error (SQLChainUser * list MinerInfo) :=
  let paid :=
    if decide (su_Arrears user > 0) then
      if decide (su_Arrears user <= amount) then
        Ok (set_Funds user (su_AdvancePayment user) 0 (su_Deposit user) Normal,
            settleArrears (su_Address user) <$> sp_Miners p)
      else Err ErrInsufficientTransfer
    else Ok (user, sp_Miners p) in
  result_bind paid (λ '(user, miners),
    let minDep := minDeposit (sp_GasPrice p) (Z.of_nat (length miners)) in
    result_bind (topUp minDep amount user) (λ user,
      Ok (enableUser minDep user, miners))).

Definition transferSQLChainTokenBalance (transfer : Signed TransferHeader) : MS unit :=
  let h := tx_Header transfer in
  let t := tr_TokenType h in
  match hsv_Signee (tx_HSV transfer) with
  | None => throw ErrInvalidSender
  | Some k =>
      checkSender (Some k) (tr_Sender h);;
      let id := DatabaseID_of (tr_Receiver h) in
      s ← getS;
      match loadSQLChainObject s id with
      | (_, false) => throw ErrDatabaseNotFound
      | (sqlchain, true) =>
          sqlchain ← deref sqlchain;
          if decide (sp_TokenType sqlchain ≠ t) then throw ErrWrongTokenType
          else
            account ← deref (loadAccountObject s (tr_Sender h)).1;
            b ← deref (balanceAt (ac_TokenBalance account) t);
            if decide (b < tr_Amount h) then throw ErrInsufficientBalance
            else
              match list_find (λ u, su_Address u = tr_Sender h) (sp_Users sqlchain) with
              | None => mret tt
              | Some (i, user) =>
                  r ← liftR (creditUser sqlchain (tr_Amount h) user);
                  let '(user', miners') := r in
                  modifyS (set_dirty_database id (Some
                    (set_Miners (set_Users sqlchain (<[i := user']> (sp_Users sqlchain))) miners')));;
                  modifyS (set_dirty_account (tr_Sender h) (Some (set_TokenBalance account
                    (setBalanceAt (ac_TokenBalance account) t (u64 (b - tr_Amount h))))))
              end
      end
  end.

(** ** Dispatch *)

Fixpoint applyTransaction (tx : Transaction) (height : Z) : MS unit :=
  match tx with
  | TxTransfer t =>
      r ← attempt (transferSQLChainTokenBalance t);
      match r with
      | inr _ => mret tt
      | inl e => if decide (e = ErrDatabaseNotFound) then transferAccountToken t else throw e
      end
  | TxBaseAccount a _ => storeBaseAccount (ac_Address a) a
  | TxProvideService t => updateProviderList t height
  | TxCreateDatabase t => matchProvidersWithUser t
  | TxUpdatePermission t => updatePermission t
  | TxIssueKeys t => updateKeys t
  | TxUpdateBilling t => updateBilling t
  | TxWrapper t => applyTransaction t height
  | TxOther _ _ _ _ _ => throw ErrUnknownTransactionType
  end.

(** The nonce a transaction must carry: an account that does not exist counts
    as nonce 0, for the base-account type only. *)
Definition expectedNonce (t : Transaction) : MS Z :=
  r ← attempt (nextNonce (GetAccountAddress t));
  match r with
  | inr n => mret n
  | inl e => if decide (GetTransactionType t ≠ TransactionTypeBaseAccount) then throw e else mret 0
  end.

Definition apply (t : Transaction) (height : Z) : MS unit :=
  n ← expectedNonce t;
  if decide (n ≠ GetAccountNonce t) then throw ErrInvalidAccountNonce
  else
    applyTransaction t height;;
    increaseNonce (GetAccountAddress t).
End handlers.
