(* ===== verification/Ledger.v ===== *)
(** * The abstract ledger

    What the meta state promises, without overlay, copy-on-write or nil
    pointers: three finite maps, and one program per transaction kind that reads
    and writes them.  [view] abstracts a [metaState] to a [ledger], and
    [apply_refines] (file LedgerRefine) shows that [metaState.apply] computes on
    the overlay exactly what [L_apply] computes on the ledger, result, error and
    panic included.  Properties of transactions are proved on the ledger. *)
From S2P Require Import Prelude Hash Types MetaState MetaView MetaTx.
From Stdlib Require Import String ZArith Lia.
From stdpp Require Import base list gmap strings.
Local Open Scope Z_scope.

Record ledger := MkLedger {
  l_accounts : gmap AccountAddress Account;
  l_databases : gmap DatabaseID SQLChainProfile;
  l_providers : gmap AccountAddress ProviderProfile;
}.

Definition view (s : metaState) : ledger := MkLedger (accounts s) (databases s) (providers s).

Abbreviation LM := (GoM ledger error).

Definition L_setAccount (k : AccountAddress) (a : Account) (l : ledger) : ledger :=
  MkLedger (<[k := a]> (l_accounts l)) (l_databases l) (l_providers l).
Definition L_setDatabase (k : DatabaseID) (p : SQLChainProfile) (l : ledger) : ledger :=
  MkLedger (l_accounts l) (<[k := p]> (l_databases l)) (l_providers l).
Definition L_setProvider (k : AccountAddress) (p : ProviderProfile) (l : ledger) : ledger :=
  MkLedger (l_accounts l) (l_databases l) (<[k := p]> (l_providers l)).
Definition L_delProvider (k : AccountAddress) (l : ledger) : ledger :=
  MkLedger (l_accounts l) (l_databases l) (delete k (l_providers l)).

Definition L_getAccount (e : error) (k : AccountAddress) : LM Account :=
  l ← getS; match l_accounts l !! k with Some a => mret a | None => throw e end.
Definition L_getDatabase (e : error) (k : DatabaseID) : LM SQLChainProfile :=
  l ← getS; match l_databases l !! k with Some p => mret p | None => throw e end.

Definition withBalance (a : Account) (t : TokenType) (b : Z) : Account :=
  set_TokenBalance a (setBalanceAt (ac_TokenBalance a) t b).

(** Balances of one account. *)
Definition L_increase (k : AccountAddress) (amount : Z) (t : TokenType) : LM unit :=
  a ← L_getAccount (ErrWrap ErrAccountNotFound) k;
  b ← deref (balanceAt (ac_TokenBalance a) t);
  b' ← liftR (safeAdd b amount);
  modifyS (L_setAccount k (withBalance a t b')).

Definition L_decrease (k : AccountAddress) (amount : Z) (t : TokenType) : LM unit :=
  a ← L_getAccount (ErrWrap ErrAccountNotFound) k;
  b ← deref (balanceAt (ac_TokenBalance a) t);
  b' ← liftR (safeSub b amount);
  modifyS (L_setAccount k (withBalance a t b')).

(** Creating the receiver of a transfer. *)
Definition L_ensureAccount (k : AccountAddress) (v : Account) (l : ledger) : ledger :=
  match l_accounts l !! k with Some _ => l | None => L_setAccount k v l end.

Definition L_moveTokens (sender receiver : AccountAddress) (amount : Z) (t : TokenType) : LM unit :=
  if decide (sender = receiver ∨ amount = 0) then mret tt
  else
    modifyS (L_ensureAccount receiver (newAccount receiver));;
    so ← L_getAccount ErrAccountNotFound sender;
    ro ← L_getAccount ErrAccountNotFound receiver;
    sb0 ← deref (balanceAt (ac_TokenBalance so) t);
    rb0 ← deref (balanceAt (ac_TokenBalance ro) t);
    sb ← liftR (safeSub sb0 amount);
    rb ← liftR (safeAdd rb0 amount);
    modifyS (L_setAccount sender (withBalance so t sb));;
    modifyS (L_setAccount receiver (withBalance ro t rb)).

Definition L_storeBaseAccount (k : AccountAddress) (v : Account) : LM unit :=
  l ← getS;
  match l_accounts l !! k with
  | None => modifyS (L_setAccount k v)
  | Some ao =>
      if decide (ac_NextNonce ao ≠ 0) then throw ErrAccountExists
      else
        cb0 ← deref (balanceAt (ac_TokenBalance ao) Wave);
        sb0 ← deref (balanceAt (ac_TokenBalance ao) Particle);
        vw ← deref (balanceAt (ac_TokenBalance v) Wave);
        vp ← deref (balanceAt (ac_TokenBalance v) Particle);
        cb ← liftR (safeAdd cb0 vw);
        sb ← liftR (safeAdd sb0 vp);
        modifyS (L_setAccount k (withBalance (withBalance ao Wave cb) Particle sb))
  end.

Section ledger_handlers.
Context `{Env}.

Definition L_checkSender (signee : option PublicKey) (sender : AccountAddress) : LM unit :=
  match PubKeyHash signee with
  | Ok realSender =>
      if decide (realSender ≠ sender) then throw (ErrWrap ErrInvalidSender) else mret tt
  | Err e => throw (ErrWrap e)
  | Panic => panic
  end.

Definition L_transferAccountToken (t : Signed TransferHeader) : LM unit :=
  let h := tx_Header t in
  L_checkSender (hsv_Signee (tx_HSV t)) (tr_Sender h);;
  L_moveTokens (tr_Sender h) (tr_Receiver h) (tr_Amount h) (tr_TokenType h).

Definition L_updateProviderList (tx : Signed ProvideServiceHeader) (height : Z) : LM unit :=
  let h := tx_Header tx in
  match PubKeyHash (hsv_Signee (tx_HSV tx)) with
  | Err e => throw (ErrWrap e)
  | Panic => panic
  | Ok sender =>
      (if decide (height >= BPHeightCIPFixProvideService) then
         l ← getS;
         match l_providers l !! sender with
         | Some po => L_increase sender (pp_Deposit po) Particle;; modifyS (L_delProvider sender)
         | None => mret tt
         end
       else mret tt);;
      L_decrease sender conf_MinProviderDeposit Particle;;
      modifyS (L_setProvider sender
        (MkProviderProfile sender (ps_Space h) (ps_Memory h) (ps_LoadAvgPerCPU h)
           (ps_TargetUser h) conf_MinProviderDeposit (ps_GasPrice h) Particle (ps_NodeID h)))
  end.

Definition L_createMatched (tx : Signed CreateDatabaseHeader) (sender : AccountAddress)
    (minAdvancePayment : Z) (miners : list MinerInfo) : LM unit :=
  let h := tx_Header tx in
  let dbID := FromAccountAndNonce (cd_Owner h) (u32 (cd_Nonce h)) in
  dbAddr ← liftR (liftHash (AccountAddress_of dbID));
  all ← liftR (safeAdd minAdvancePayment (cd_AdvancePayment h));
  L_decrease sender all (cd_TokenType h);;
  gb ← liftR (generateGenesisBlock (mx_Timestamp (tx_Mixin tx)));
  match EncodeMsgPack_Block gb with
  | None => throw (ErrNew "encode")
  | Some enc =>
      let sp := MkSQLChainProfile dbID dbAddr sqlchainPeriod (cd_GasPrice h) 0 Particle sender
                  miners [MkSQLChainUser sender (UserPermissionFromRole Admin)
                            (cd_AdvancePayment h) 0 minAdvancePayment Normal]
                  enc (cd_ResourceMeta h) in
      l ← getS;
      match l_databases l !! dbID with
      | Some _ => throw (ErrWrap ErrDatabaseExists)
      | None =>
          modifyS (L_setAccount dbAddr (newAccount dbAddr));;
          modifyS (L_setDatabase dbID sp);;
          modifyS (λ l, foldl (λ l m, L_delProvider (mi_Address m) l) l miners)
      end
  end.

(** The lookup of a designated miner. *)
Definition L_loadProvider (l : ledger) (k : AccountAddress) : option ProviderProfile * bool :=
  match l_providers l !! k with Some p => (Some p, true) | None => (None, false) end.

Definition L_filterNMiners (l : ledger) (tx : CreateDatabaseHeader) (user : AccountAddress)
    (minerCount : nat) : GoResult error (list MinerInfo) :=
  filterNMiners_from
    (omap snd (map_to_list (Some <$>
      foldl (λ m k, delete k m) (l_providers l) (rm_TargetMiners (cd_ResourceMeta tx)))))
    tx user minerCount.

Definition L_matchProvidersWithUser (tx : Signed CreateDatabaseHeader) : LM unit :=
  let h := tx_Header tx in
  let rm := cd_ResourceMeta h in
  match PubKeyHash (hsv_Signee (tx_HSV tx)) with
  | Err e => throw (ErrWrap e)
  | Panic => panic
  | Ok sender =>
      if decide (sender ≠ cd_Owner h) then throw (ErrWrap ErrInvalidSender)
      else if decide (cd_GasPrice h <= 0) then throw ErrInvalidGasPrice
      else if decide (rm_Node rm <= 0) then throw ErrInvalidMinerCount
      else
        let minerCount := Z.to_nat (rm_Node rm) in
        let minAdvancePayment := minDeposit (cd_GasPrice h) (rm_Node rm) in
        if decide (cd_AdvancePayment h < minAdvancePayment)
        then throw ErrInsufficientAdvancePayment
        else
          l ← getS;
          match targetLoop (L_loadProvider l) h sender minerCount (rm_TargetMiners rm) [] None with
          | None => panic
          | Some (miners, err) =>
              if decide (length miners < minerCount)%nat then
                if decide (minerCount <= length (rm_TargetMiners rm))%nat then
                  match Wrap err with Some e => throw e | None => mret tt end
                else
                  newMiners ← liftR (L_filterNMiners l h sender (minerCount - length miners));
                  L_createMatched tx sender minAdvancePayment (miners ++ newMiners)
              else L_createMatched tx sender minAdvancePayment miners
          end
  end.

Definition L_updatePermission (tx : Signed UpdatePermissionHeader) : LM unit :=
  let h := tx_Header tx in
  match PubKeyHash (hsv_Signee (tx_HSV tx)) with
  | Err e => throw e
  | Panic => panic
  | Ok sender =>
      let id := DatabaseID_of (upd_TargetSQLChain h) in
      so ← L_getDatabase ErrDatabaseNotFound id;
      match permissionScan sender (upd_TargetUser h) 0 (sp_Users so) 0 None with
      | None => throw ErrAccountPermissionDeny
      | Some (supers, idx) =>
          if bool_decide (supers <= 1)%nat && bool_decide (upd_TargetUser h = sender) &&
             negb (HasSuperPermission (upd_Permission h))
          then throw ErrNoSuperUserLeft
          else modifyS (L_setDatabase id (set_Users so
                 (setPermission (sp_Users so) (upd_TargetUser h) (upd_Permission h) idx)))
      end
  end.

(** Issuing keys changes nothing: it only checks the sender. *)
Definition L_updateKeys (tx : Signed IssueKeysHeader) : LM unit :=
  so ← L_getDatabase ErrDatabaseNotFound (DatabaseID_of (ik_TargetSQLChain (tx_Header tx)));
  match findUser (sp_Users so) (signeeAddress (tx_HSV tx)) with
  | Some user =>
      if negb (HasSuperPermission (su_Permission user)) then throw ErrAccountPermissionDeny
      else mret tt
  | None => mret tt
  end.

Definition L_updateBilling (tx : Signed UpdateBillingHeader) : LM unit :=
  let h := tx_Header tx in
  let id := DatabaseID_of (ub_Receiver h) in
  p ← L_getDatabase (ErrWrap ErrDatabaseNotFound) id;
  if decide (ub_Version h > 0 ∧ (ub_From h >= ub_To h ∨ sp_LastUpdatedHeight p ≠ ub_From h))
  then throw (ErrWrap ErrInvalidRange)
  else if decide (sp_GasPrice p = 0) then mret tt
  else if negb (bool_decide (Exists (λ m, mi_Address m = signeeAddress (tx_HSV tx)) (sp_Miners p)))
  then throw ErrInvalidSender
  else modifyS (L_setDatabase id (billProfile h p)).

Definition L_transferSQLChainTokenBalance (tr : Signed TransferHeader) : LM unit :=
  let h := tx_Header tr in
  let t := tr_TokenType h in
  match hsv_Signee (tx_HSV tr) with
  | None => throw ErrInvalidSender
  | Some k =>
      L_checkSender (Some k) (tr_Sender h);;
      let id := DatabaseID_of (tr_Receiver h) in
      p ← L_getDatabase ErrDatabaseNotFound id;
      if decide (sp_TokenType p ≠ t) then throw ErrWrongTokenType
      else
        l ← getS;
        account ← deref (l_accounts l !! tr_Sender h);
        b ← deref (balanceAt (ac_TokenBalance account) t);
        if decide (b < tr_Amount h) then throw ErrInsufficientBalance
        else
          match list_find (λ u, su_Address u = tr_Sender h) (sp_Users p) with
          | None => mret tt
          | Some (i, user) =>
              r ← liftR (creditUser p (tr_Amount h) user);
              let '(user', miners') := r in
              modifyS (L_setDatabase id (set_Miners (set_Users p (<[i := user']> (sp_Users p))) miners'));;
              modifyS (L_setAccount (tr_Sender h) (withBalance account t (u64 (b - tr_Amount h))))
          end
  end.

Fixpoint L_applyTransaction (tx : Transaction) (height : Z) : LM unit :=
  match tx with
  | TxTransfer t =>
      r ← attempt (L_transferSQLChainTokenBalance t);
      match r with
      | inr _ => mret tt
      | inl e => if decide (e = ErrDatabaseNotFound) then L_transferAccountToken t else throw e
      end
  | TxBaseAccount a _ => L_storeBaseAccount (ac_Address a) a
  | TxProvideService t => L_updateProviderList t height
  | TxCreateDatabase t => L_matchProvidersWithUser t
  | TxUpdatePermission t => L_updatePermission t
  | TxIssueKeys t => L_updateKeys t
  | TxUpdateBilling t => L_updateBilling t
  | TxWrapper t => L_applyTransaction t height
  | TxOther _ _ _ _ _ => throw ErrUnknownTransactionType
  end.

Definition L_expectedNonce (t : Transaction) : LM Z :=
  l ← getS;
  match l_accounts l !! GetAccountAddress t with
  | Some a => mret (ac_NextNonce a)
  | None =>
      if decide (GetTransactionType t ≠ TransactionTypeBaseAccount) then throw ErrAccountNotFound
      else mret 0
  end.

Definition L_increaseNonce (addr : AccountAddress) : LM unit :=
  a ← L_getAccount ErrAccountNotFound addr;
  modifyS (L_setAccount addr (set_NextNonce a (u32 (ac_NextNonce a + 1)))).

Definition L_apply (t : Transaction) (height : Z) : LM unit :=
  n ← L_expectedNonce t;
  if decide (n ≠ GetAccountNonce t) then throw ErrInvalidAccountNonce
  else
    L_applyTransaction t height;;
    L_increaseNonce (GetAccountAddress t).
End ledger_handlers.
