(* ===== verification/LedgerRefine.v ===== *)
(** * The meta state refines the ledger

    [refines_at s Q m f]: from the well-formed state [s], the code [m] and the
    ledger program [f] return the same result, end in states related by [view],
    the final state is well-formed, and a returned value satisfies [Q].  One
    lemma per operation, composed along the code, gives [apply_refines]. *)
From S2P Require Import Prelude Hash Types MetaState MetaView MetaTx Ledger.
From Stdlib Require Import String ZArith Lia.
From stdpp Require Import base list gmap strings sorting.
Local Open Scope Z_scope.

Definition refines_at {A} (s : metaState) (Q : A → Prop) (m : MS A) (f : LM A) : Prop :=
  ∃ r s', m s = (r, s') ∧ f (view s) = (r, view s') ∧ wf_state s' ∧ (∀ a, r = Ok a → Q a).

Definition anyv {A} (_ : A) : Prop := True.

Create HintDb refine.

Section rules.
Context {A B : Type}.
Implicit Types (s : metaState) (Q : A → Prop) (R : B → Prop).

Lemma at_ret s Q (a : A) : wf_state s → Q a → refines_at s Q (mret a) (mret a).
Proof. intros Hwf HQ. exists (Ok a), s. split_and!; [done..|]. by intros ? [= <-]. Qed.

Lemma at_throw s Q e : wf_state s → refines_at s Q (throw e) (throw e).
Proof. intros Hwf. by exists (Err e), s. Qed.

Lemma at_panic s Q : wf_state s → refines_at s Q panic panic.
Proof. intros Hwf. by exists Panic, s. Qed.

Lemma at_liftR s Q (r : GoResult error A) :
  wf_state s → (∀ a, r = Ok a → Q a) → refines_at s Q (liftR r) (liftR r).
Proof. intros Hwf HQ. by exists r, s. Qed.

Lemma at_deref s Q (o : option A) :
  wf_state s → (∀ a, o = Some a → Q a) → refines_at s Q (deref o) (deref o).
Proof. intros Hwf HQ. destruct o; [by apply at_ret; auto|by apply at_panic]. Qed.

Lemma at_modify s (g : metaState → metaState) (g' : ledger → ledger) :
  wf_state (g s) → view (g s) = g' (view s) → refines_at s anyv (modifyS g) (modifyS g').
Proof. intros Hwf Hv. exists (Ok tt), (g s). unfold modifyS. rewrite Hv. done. Qed.

Lemma at_bind s Q R m f (k : A → MS B) (g : A → LM B) :
  refines_at s Q m f → (∀ a s', wf_state s' → Q a → refines_at s' R (k a) (g a)) →
  refines_at s R (mbind k m) (mbind g f).
Proof.
  intros (r & s' & Hm & Hf & Hwf & HQ) Hk. unfold refines_at, mbind, gom_bind.
  rewrite Hm, Hf. destruct r as [a|e|].
  - apply (Hk a s' Hwf). auto.
  - by exists (Err e), s'.
  - by exists Panic, s'.
Qed.

Lemma at_getS s R (k : metaState → MS B) (g : ledger → LM B) :
  refines_at s R (k s) (g (view s)) → refines_at s R (mbind k getS) (mbind g getS).
Proof. done. Qed.

(** A statement that runs to [Ok a] on one side and [Ok a'] on the other. *)
Lemma at_bind_run {A' : Type} s s' (a : A) (a' : A') R m f (k : A → MS B) (g : A' → LM B) :
  m s = (Ok a, s') → f (view s) = (Ok a', view s') → refines_at s' R (k a) (g a') →
  refines_at s R (mbind k m) (mbind g f).
Proof. intros Hm Hf Hk. unfold refines_at, mbind, gom_bind. by rewrite Hm, Hf. Qed.

(** Reading the state on the code's side only. *)
Lemma at_getS' s R (k : metaState → MS B) (g : LM B) :
  refines_at s R (k s) g → refines_at s R (mbind k getS) g.
Proof. done. Qed.

(** Reading the ledger on the abstract side only. *)
Lemma at_getL s R (m : MS B) (g : ledger → LM B) :
  refines_at s R m (g (view s)) → refines_at s R m (mbind g getS).
Proof. done. Qed.

Lemma at_derefSome s R (a : A) (k : A → MS B) (g : LM B) :
  refines_at s R (k a) g → refines_at s R (mbind k (deref (Some a))) g.
Proof. done. Qed.

(** Pure statements, after which the state is still [s]. *)
Lemma at_deref_bind s R (o : option A) (k : A → MS B) (g : A → LM B) :
  wf_state s → (∀ a, o = Some a → refines_at s R (k a) (g a)) →
  refines_at s R (mbind k (deref o)) (mbind g (deref o)).
Proof.
  intros Hwf Hk. destruct o as [a|]; [by apply (Hk a)|]. by exists Panic, s.
Qed.

Lemma at_liftR_bind s R (r : GoResult error A) (k : A → MS B) (g : A → LM B) :
  wf_state s → (∀ a, r = Ok a → refines_at s R (k a) (g a)) →
  refines_at s R (mbind k (liftR r)) (mbind g (liftR r)).
Proof.
  intros Hwf Hk. destruct r as [a|e|]; [by apply (Hk a)|by exists (Err e), s|by exists Panic, s].
Qed.

Lemma at_attempt s m f :
  refines_at s (anyv (A:=A)) m f → refines_at s (anyv (A:=error + A)) (attempt m) (attempt f).
Proof.
  intros (r & s' & Hm & Hf & Hwf & _). unfold refines_at, attempt. rewrite Hm, Hf.
  destruct r; eexists _, _; split_and!; done.
Qed.
End rules.

#[export] Hint Resolve at_ret at_throw at_panic at_liftR at_deref : refine.
#[export] Hint Extern 1 (anyv _) => exact I : refine.

(** One step of a refinement proof: a returned value, an error, a branch. *)
Ltac refine_step :=
  match goal with
  | |- refines_at _ _ (throw _) _ => by apply at_throw
  | |- refines_at _ _ (if ?c then _ else _) _ => destruct c eqn:?
  | |- refines_at _ _ (match ?c with _ => _ end) _ => destruct c eqn:?
  | |- refines_at _ _ _ _ => solve [eauto with refine]
  end.

(** ** Reading *)

Lemma at_loadDatabase {A} s (Q : A → Prop) id e (K : SQLChainProfile → MS A) K' :
  wf_state s →
  (∀ p, databases s !! id = Some p → wf_profile id p → refines_at s Q (K p) (K' p)) →
  refines_at s Q
    (match loadSQLChainObject s id with (_, false) => throw e | (so, true) => so ← deref so; K so end)
    (p ← L_getDatabase e id; K' p).
Proof.
  intros Hwf HK. rewrite (load_database _ _ Hwf).
  unfold refines_at, L_getDatabase. go_unfold. cbn [view l_databases].
  destruct (databases s !! id) as [p|] eqn:Hp.
  - apply (HK p eq_refl), (wf_lookup_database s id p Hwf Hp).
  - by eexists _, _.
Qed.

Lemma dirtyAccount_spec s e k : wf_state s →
  match accounts s !! k with
  | Some a => ∃ s', dirtyAccount e k s = (Ok (Some a), s') ∧ wf_state s' ∧ view s' = view s
  | None => dirtyAccount e k s = (Err e, s)
  end.
Proof.
  intros Hwf. unfold dirtyAccount, accounts. go_unfold. rewrite lookup_overlay.
  destruct (ix_accounts (dirty s) !! k) as [o|] eqn:Hd; cbn.
  { destruct (wf_dirty_accounts _ Hwf _ _ Hd) as (a & -> & _). eauto. }
  destruct (ix_accounts (readonly s) !! k) as [o|] eqn:Hr; cbn; [|done].
  destruct (wf_ro_accounts _ Hwf _ _ Hr) as (a & -> & Ha).
  eexists. split_and!; [done|by apply wf_set_dirty_account|].
  unfold view. f_equal. rewrite accounts_set_dirty. apply insert_id.
  unfold accounts. by rewrite lookup_overlay, Hd, Hr.
Qed.

Lemma at_dirtyAccount {A} s (Q : A → Prop) k e (K : Account → MS A) K' :
  wf_state s →
  (∀ a s', wf_state s' → wf_account k a → refines_at s' Q (K a) (K' a)) →
  refines_at s Q (dst ← dirtyAccount e k; dst ← deref dst; K dst) (a ← L_getAccount e k; K' a).
Proof.
  intros Hwf HK. pose proof (dirtyAccount_spec s e k Hwf) as Hd.
  unfold refines_at, L_getAccount. go_unfold. cbn [view l_accounts].
  destruct (accounts s !! k) as [a|] eqn:Ha.
  - destruct Hd as (s' & -> & Hwf' & Hv).
    destruct (HK a s' Hwf') as (r & s2 & H1 & H2 & H3); [exact (wf_lookup_account s k a Hwf Ha)|].
    exists r, s2. rewrite Hv in H2. done.
  - rewrite Hd. by eexists _, _.
Qed.

Lemma loadOrStore_spec s k v :
  wf_state s → wf_account k v →
  ∃ r s', loadOrStoreAccountObject k v s = (Ok r, s') ∧ wf_state s' ∧
    view s' = L_ensureAccount k v (view s) ∧
    match accounts s !! k with
    | Some a => ∃ w, r = Some (Some a, w) ∧ s' = s ∧
                  (w = InReadonly → ix_accounts (dirty s) !! k = None)
    | None => r = None
    end.
Proof.
  intros Hwf Hv. unfold loadOrStoreAccountObject, L_ensureAccount. go_unfold. cbn [view l_accounts].
  pose proof (overlayFind_spec s k Hwf) as Hf. destruct (overlayFind _ _ k) as [[o w]|].
  - destruct Hf as (a & -> & -> & Hw). eexists _, _. split_and!; [done..|]. eauto.
  - rewrite Hf. eexists _, _. split_and!; [done|by apply wf_set_dirty_account| |done].
    unfold view. by rewrite accounts_set_dirty.
Qed.

(** ** Writing *)

Lemma view_set_account k a s : view (set_dirty_account k (Some a) s) = L_setAccount k a (view s).
Proof. unfold view. by rewrite accounts_set_dirty. Qed.

Lemma view_set_database k p s : view (set_dirty_database k (Some p) s) = L_setDatabase k p (view s).
Proof. unfold view. by rewrite databases_set_dirty. Qed.

Lemma view_set_provider k p s : view (set_dirty_provider k (Some p) s) = L_setProvider k p (view s).
Proof.
  unfold view, L_setProvider. f_equal. apply map_eq. intros j. unfold providers.
  rewrite lookup_overlay. cbn [dirty readonly ix_provider set_dirty_provider l_providers].
  destruct (decide (k = j)) as [->|Hne].
  - by rewrite !lookup_insert_eq.
  - by rewrite !lookup_insert_ne, lookup_overlay.
Qed.

Lemma view_del_provider k s : view (set_dirty_provider k None s) = L_delProvider k (view s).
Proof.
  unfold view, L_delProvider. f_equal. apply map_eq. intros j. unfold providers.
  rewrite lookup_overlay. cbn [dirty readonly ix_provider set_dirty_provider l_providers].
  destruct (decide (k = j)) as [->|Hne].
  - by rewrite lookup_insert_eq, lookup_delete_eq.
  - by rewrite lookup_insert_ne, lookup_delete_ne, lookup_overlay.
Qed.

Lemma at_setAccount s k a : wf_state s → wf_account k a →
  refines_at s anyv (modifyS (set_dirty_account k (Some a))) (modifyS (L_setAccount k a)).
Proof. intros. apply at_modify; [by apply wf_set_dirty_account|apply view_set_account]. Qed.

Lemma at_setDatabase s k p : wf_state s → wf_profile k p →
  refines_at s anyv (modifyS (set_dirty_database k (Some p))) (modifyS (L_setDatabase k p)).
Proof. intros. apply at_modify; [by apply wf_set_dirty_database|apply view_set_database]. Qed.

Lemma at_setProvider s k p : wf_state s → wf_provider k p →
  refines_at s anyv (modifyS (set_dirty_provider k (Some p))) (modifyS (L_setProvider k p)).
Proof.
  intros. apply at_modify; [|apply view_set_provider].
  apply wf_set_dirty_provider; [done|]. by intros ? [= <-].
Qed.

Lemma at_delProvider s k : wf_state s →
  refines_at s anyv (deleteProviderObject k) (modifyS (L_delProvider k)).
Proof.
  intros. apply at_modify; [|apply view_del_provider]. by apply wf_set_dirty_provider.
Qed.

#[export] Hint Resolve at_setAccount at_setDatabase at_setProvider at_delProvider : refine.

(** ** Widths *)

Lemma safeAdd_u64 x y z : safeAdd x y = Ok z → is_u64 z.
Proof. unfold safeAdd. case_decide; intros [= <-]. apply u64_range. Qed.

Lemma safeSub_u64 x y z : safeSub x y = Ok z → is_u64 z.
Proof. unfold safeSub. case_decide; intros [= <-]. apply u64_range. Qed.

Lemma wf_withBalance k a t b : wf_account k a → is_u64 b → wf_account k (withBalance a t b).
Proof.
  intros [] Hb. split; cbn; unfold setBalanceAt; [done|by rewrite length_insert| |done].
  by apply Forall_insert.
Qed.

Lemma wf_set_NextNonce k a n : wf_account k a → wf_account k (set_NextNonce a (u32 n)).
Proof. intros []. split; cbn; try done. apply u32_range. Qed.

#[export] Hint Resolve safeAdd_u64 safeSub_u64 wf_withBalance wf_set_NextNonce u64_range : refine.

(** ** Account operations *)

Lemma at_increase s k amount t : wf_state s →
  refines_at s anyv (increaseAccountToken k amount t) (L_increase k amount t).
Proof.
  intros Hwf. apply at_dirtyAccount; [done|]. intros a s1 Hwf1 Ha.
  apply at_deref_bind; [done|]. intros b _.
  apply at_liftR_bind; [done|]. intros b' Hb'. eauto with refine.
Qed.

Lemma at_decrease s k amount t : wf_state s →
  refines_at s anyv (decreaseAccountToken k amount t) (L_decrease k amount t).
Proof.
  intros Hwf. apply at_dirtyAccount; [done|]. intros a s1 Hwf1 Ha.
  apply at_deref_bind; [done|]. intros b _.
  apply at_liftR_bind; [done|]. intros b' Hb'. eauto with refine.
Qed.

Lemma at_increaseNonce s k : wf_state s → refines_at s anyv (increaseNonce k) (L_increaseNonce k).
Proof.
  intros Hwf. apply at_dirtyAccount; [done|]. intros a s1 Hwf1 Ha.
  apply at_setAccount; [done|]. by apply wf_set_NextNonce.
Qed.

Lemma at_ensure s k v : wf_state s → wf_account k v →
  ∃ s', wf_state s' ∧ view s' = L_ensureAccount k v (view s) ∧
    ∃ r, loadOrStoreAccountObject k v s = (Ok r, s').
Proof.
  intros Hwf Hv. destruct (loadOrStore_spec s k v Hwf Hv) as (r & s' & ? & ? & ? & _). eauto.
Qed.

(** The pointer lookup of [transferAccountToken] against the ledger read. *)
Lemma at_accountPtr {A} s (Q : A → Prop) k e (K : option Account → bool → MS A) K' :
  wf_state s →
  (∀ a b, wf_account k a → refines_at s Q (K (Some a) b) (K' a)) →
  refines_at s Q (match accountPtr s k with None => throw e | Some (o, b) => K o b end)
    (a ← L_getAccount e k; K' a).
Proof.
  intros Hwf HK. pose proof (accountPtr_spec s k Hwf) as Hp.
  unfold refines_at, L_getAccount. go_unfold. cbn [view l_accounts].
  destruct (accountPtr s k) as [[o b]|].
  - destruct Hp as (a & -> & Ha). rewrite Ha.
    apply (HK a b (wf_lookup_account s k a Hwf Ha)).
  - rewrite Hp. by eexists _, _.
Qed.

Lemma at_moveTokens s sender receiver amount t : wf_state s →
  refines_at s anyv (moveTokens sender receiver amount t) (L_moveTokens sender receiver amount t).
Proof.
  intros Hwf. unfold moveTokens, L_moveTokens. case_decide; [eauto with refine|].
  destruct (at_ensure s receiver _ Hwf (wf_newAccount receiver)) as (s1 & Hwf1 & Hv1 & r & Hr).
  eapply (at_bind_run s s1 r tt); [exact Hr|unfold modifyS; by rewrite Hv1|].
  apply at_getS'. apply at_accountPtr; [done|]. intros so b1 Hso.
  apply at_accountPtr; [done|]. intros ro b2 Hro.
  apply at_derefSome. apply at_deref_bind; [done|]. intros sb0 _.
  apply at_derefSome. apply at_deref_bind; [done|]. intros rb0 _.
  apply at_liftR_bind; [done|]. intros sb Hsb.
  apply at_liftR_bind; [done|]. intros rb Hrb.
  apply (at_bind _ anyv); [eauto with refine|]. intros _ s6 Hwf6 _.
  eauto with refine.
Qed.

Lemma at_storeBaseAccount s k v : wf_state s → wf_account k v →
  refines_at s anyv (storeBaseAccount k v) (L_storeBaseAccount k v).
Proof.
  intros Hwf Hv. unfold storeBaseAccount, L_storeBaseAccount.
  destruct (loadOrStore_spec s k v Hwf Hv) as (r & s1 & Hr & Hwf1 & Hv1 & Hcase).
  unfold L_ensureAccount in Hv1. cbn [view l_accounts] in Hv1.
  destruct (accounts s !! k) as [ao|] eqn:Hao.
  2:{ subst r. exists (Ok tt), s1. go_unfold. rewrite Hr.
      replace (l_accounts (view s) !! k) with (@None Account). by rewrite Hv1. }
  destruct Hcase as (w & -> & -> & Hw).
  pose proof (wf_lookup_account s k ao Hwf Hao) as Hwao.
  eapply (at_bind_run s s _ (view s)); [exact Hr|done|]. cbn beta iota.
  replace (l_accounts (view s) !! k) with (Some ao). cbn iota.
  apply at_derefSome. case_decide; [by apply at_throw|].
  do 4 (apply at_deref_bind; [done|]; intros ? _).
  apply at_liftR_bind; [done|]. intros cb Hcb.
  apply at_liftR_bind; [done|]. intros sb Hsb.
  assert (wf_account k (withBalance (withBalance ao Wave cb) Particle sb)) by eauto 6 with refine.
  destruct w; [by apply at_setAccount|].
  apply at_modify; [by apply wf_set_readonly_account|].
  unfold view. rewrite accounts_set_readonly by auto. done.
Qed.

(** ** Widths of billing and top-up results *)

Section widths.
Context `{Env}.

Lemma wf_settleMiner m : wf_miner m → wf_miner (settleMiner m).
Proof. intros []. split; cbn; [done|apply u64_range|done]. Qed.

Lemma wf_addPending m x : wf_miner m → wf_miner (addPending m x).
Proof. intros []. split; cbn; [apply u64_range|done..]. Qed.

Lemma wf_recordArrears user diff uas :
  is_u64 diff → Forall (λ ua, is_u64 (ua_Arrears ua)) uas →
  Forall (λ ua, is_u64 (ua_Arrears ua)) (recordArrears user diff uas).1 ∧
  (0 < (recordArrears user diff uas).2)%nat.
Proof.
  intros Hd Hf.
  assert (Forall (λ ua, is_u64 (ua_Arrears ua))
    ((λ ua, if decide (ua_User ua = user)
            then MkUserArrears (ua_User ua) (u64 (ua_Arrears ua + diff)) else ua) <$> uas)) as Hmap.
  { apply Forall_fmap. eapply Forall_impl; [done|]. intros ua Hua. cbn.
    case_decide; [apply u64_range|done]. }
  unfold recordArrears. destruct (length _) eqn:Hn; cbn [fst snd]; [|split; [done|lia]].
  split; [|lia]. apply Forall_app_2; [done|]. by constructor.
Qed.

Lemma add_times_u64 n d x : (0 < n)%nat → is_u64 (add_times n d x).
Proof. destruct n; [lia|]. intros _. apply u64_range. Qed.

Lemma wf_arrearsMiner um gp user rate m a : wf_miner m →
  wf_miner (arrearsMiner um gp user rate m a).1 ∧ is_u64 (arrearsMiner um gp user rate m a).2.
Proof.
  intros Hm. unfold arrearsMiner.
  set (x := u64_of_float _). pose proof (wf_addPending m x Hm) as Hm1.
  set (m1 := addPending m x) in *. set (diff := u64 (_ - x)).
  pose proof (wf_recordArrears user diff (mi_UserArrears m1) (u64_range _) (wfm_arrears _ Hm1)) as [Hf Hn].
  destruct (recordArrears user diff (mi_UserArrears m1)) as [uas n]; cbn [fst snd] in *.
  split; [|by apply add_times_u64]. destruct Hm1. by split.
Qed.

Lemma wf_arrearsMiners um gp user rate ms a : Forall wf_miner ms → is_u64 a →
  Forall wf_miner (arrearsMiners um gp user rate ms a).1 ∧
  is_u64 (arrearsMiners um gp user rate ms a).2.
Proof.
  intros Hf. revert a. induction Hf as [|m ms Hm _ IH]; intros a Ha; cbn; [done|].
  pose proof (wf_arrearsMiner um gp user rate m a Hm) as [Hm' Ha'].
  destruct (arrearsMiner _ _ _ _ m a) as [m' a']; cbn [fst snd] in *.
  specialize (IH a' Ha'). destruct (arrearsMiners _ _ _ _ ms a') as [ms' a'']; cbn in *.
  destruct IH. split; [by constructor|done].
Qed.

Lemma wf_billUser cm um gp u ms : wf_user u → Forall wf_miner ms →
  wf_user (billUser cm um gp u ms).1 ∧ Forall wf_miner (billUser cm um gp u ms).2.
Proof.
  intros [] Hms. unfold billUser. case_decide.
  - cbn [fst snd]. split; [split; cbn; [apply u64_range|done..]|].
    apply Forall_fmap. eapply Forall_impl; [done|]. intros m Hm. by apply wf_addPending.
  - set (rate := float_div _ _).
    pose proof (wf_arrearsMiners um gp (su_Address u) rate ms (su_Arrears u) Hms wfu_arrears) as [Hf Ha].
    destruct (arrearsMiners _ _ _ _ ms _) as [ms' a']; cbn [fst snd] in *.
    split; [|done]. by split.
Qed.

Lemma wf_billUsers cm um gp us ms : Forall wf_user us → Forall wf_miner ms →
  Forall wf_user (billUsers cm um gp us ms).1 ∧ Forall wf_miner (billUsers cm um gp us ms).2.
Proof.
  intros Hf. revert ms. induction Hf as [|u us Hu _ IH]; intros ms Hms; cbn; [done|].
  pose proof (wf_billUser cm um gp u ms Hu Hms) as [Hu' Hms'].
  destruct (billUser cm um gp u ms) as [u' ms']; cbn [fst snd] in *.
  specialize (IH ms' Hms'). destruct (billUsers cm um gp us ms') as [us' ms'']; cbn in *.
  destruct IH. split; [by constructor|done].
Qed.

Lemma wf_billProfile tx k p : wf_profile k p → wf_profile k (billProfile tx p).
Proof.
  intros []. unfold billProfile.
  pose proof (wf_billUsers (costMap (ub_Users tx)) (userMap (ub_Users tx)) (sp_GasPrice p)
    (sp_Users p) (settleMiner <$> sp_Miners p) wfp_users) as [Hu Hm].
  { apply Forall_fmap. eapply Forall_impl; [done|]. intros m Hm. by apply wf_settleMiner. }
  destruct (billUsers _ _ _ _ _) as [us ms]; cbn [fst snd] in *. by split.
Qed.

Lemma minDeposit_u64 g n : is_u64 (minDeposit g n).
Proof. apply u64_range. Qed.

Lemma wf_topUp minDep amount u u' : is_u64 minDep → wf_user u → topUp minDep amount u = Ok u' → wf_user u'.
Proof.
  intros Hd [] Ht. unfold topUp in Ht. repeat case_decide.
  - injection Ht as <-. split; cbn; [done..|apply u64_range].
  - injection Ht as <-. split; cbn; [apply u64_range|done..].
  - destruct (safeAdd _ _) as [a| |] eqn:Ha; simplify_eq.
    split; cbn; [by eapply safeAdd_u64|done..].
Qed.

Lemma wf_enableUser minDep u : wf_user u → wf_user (enableUser minDep u).
Proof. intros []. unfold enableUser. destruct (_ && _); by split. Qed.

Lemma settleArrearsLoop_u64 user all rest i p : is_u64 p → is_u64 (settleArrearsLoop user all rest i p).
Proof.
  revert i p. induction rest as [|ua rest IH]; intros i p Hp; cbn; [done|].
  case_decide; apply IH; [apply u64_range|done].
Qed.

Lemma wf_creditUser k p amount u u' ms : wf_profile k p → wf_user u →
  creditUser p amount u = Ok (u', ms) → wf_user u' ∧ Forall wf_miner ms.
Proof.
  intros [] Hu Hc. unfold creditUser in Hc.
  set (paid := if decide _ then _ else _) in Hc.
  assert (∀ u1 ms1, paid = Ok (u1, ms1) → wf_user u1 ∧ Forall wf_miner ms1) as Hpaid.
  { subst paid. intros u1 ms1 He. destruct Hu. repeat case_decide; simplify_eq; [|done].
    split; [by split|]. apply Forall_fmap. eapply Forall_impl; [done|].
    intros m []. split; cbn; [by apply settleArrearsLoop_u64|done..]. }
  destruct paid as [[u1 ms1]| |]; [|done..]. destruct (Hpaid _ _ eq_refl) as [Hu1 Hms1].
  cbn [result_bind] in Hc. destruct (topUp _ amount u1) as [u2| |] eqn:Ht; [|done..].
  cbn [result_bind] in Hc. injection Hc as <- <-. split; [|done].
  eapply wf_enableUser, wf_topUp; [|done..]. apply minDeposit_u64.
Qed.

Lemma wf_setPermission us target perm idx :
  Forall wf_user us → Forall wf_user (setPermission us target perm idx).
Proof.
  intros Hf. destruct idx as [i|]; cbn.
  - apply Forall_alter; [done|]. intros u Hu []. by split.
  - apply Forall_app_2; [done|]. constructor; [by split|done].
Qed.
End widths.

(** ** Handlers *)

(** The fields of a transaction that end up in the state have their Go widths. *)
Fixpoint wf_tx `{Env} (t : Transaction) : Prop :=
  match t with
  | TxTransfer t => is_u64 (tr_Amount (tx_Header t))
  | TxBaseAccount a _ => wf_account (ac_Address a) a
  | TxCreateDatabase t => is_u64 (cd_AdvancePayment (tx_Header t))
  | TxWrapper t => wf_tx t
  | _ => True
  end.

Section handlers.
Context `{Env}.

Lemma at_checkSender s k a : wf_state s → refines_at s anyv (checkSender k a) (L_checkSender k a).
Proof.
  intros Hwf. unfold checkSender, L_checkSender.
  destruct (PubKeyHash k); [case_decide|..]; eauto with refine.
Qed.

Lemma at_transferAccountToken s t : wf_state s →
  refines_at s anyv (transferAccountToken t) (L_transferAccountToken t).
Proof.
  intros Hwf. apply (at_bind _ anyv); [by apply at_checkSender|]. intros _ s1 Hwf1 _.
  by apply at_moveTokens.
Qed.

Lemma at_updateProviderList s t h : wf_state s →
  refines_at s anyv (updateProviderList t h) (L_updateProviderList t h).
Proof.
  intros Hwf. unfold updateProviderList, L_updateProviderList.
  destruct (PubKeyHash _) as [sender|e|]; [|eauto with refine..].
  apply (at_bind _ anyv).
  - case_decide; [|eauto with refine]. apply at_getS. rewrite (load_provider _ _ Hwf).
    cbn [view l_providers]. destruct (providers s !! sender) as [po|]; [|eauto with refine].
    apply at_derefSome. apply (at_bind _ anyv); [by apply at_increase|].
    intros _ s1 Hwf1 _. eauto with refine.
  - intros _ s1 Hwf1 _. apply (at_bind _ anyv); [by apply at_decrease|].
    intros _ s2 Hwf2 _. apply at_setProvider; [done|]. split; [done|].
    apply conf_MinProviderDeposit_range.
Qed.

Lemma wf_del_providers ms s : wf_state s →
  wf_state (foldl (λ s m, set_dirty_provider (mi_Address m) None s) s ms).
Proof.
  revert s. induction ms as [|m ms IH]; intros s Hwf; cbn; [done|].
  apply IH. by apply wf_set_dirty_provider.
Qed.

Lemma view_del_providers ms s :
  view (foldl (λ s m, set_dirty_provider (mi_Address m) None s) s ms) =
  foldl (λ l m, L_delProvider (mi_Address m) l) (view s) ms.
Proof.
  revert s. induction ms as [|m ms IH]; intros s; cbn; [done|].
  by rewrite IH, view_del_provider.
Qed.

Lemma at_createMatched s t sender minAdv ms :
  wf_state s → is_u64 (cd_AdvancePayment (tx_Header t)) → is_u64 minAdv → Forall wf_miner ms →
  refines_at s anyv (createMatched t sender minAdv ms) (L_createMatched t sender minAdv ms).
Proof.
  intros Hwf Hadv Hmin Hms. unfold createMatched, L_createMatched.
  apply at_liftR_bind; [done|]. intros dbAddr _.
  apply at_liftR_bind; [done|]. intros all _.
  apply (at_bind _ anyv); [by apply at_decrease|]. intros _ s1 Hwf1 _.
  apply at_liftR_bind; [done|]. intros gb _.
  destruct (EncodeMsgPack_Block gb) as [enc|]; [|eauto with refine].
  apply at_getS. rewrite (load_database _ _ Hwf1). cbn [view l_databases].
  destruct (databases s1 !! _) as [p|]; cbn [snd]; [by apply at_throw|].
  apply (at_bind _ anyv); [eauto with refine gomach|]. intros _ s2 Hwf2 _.
  apply (at_bind _ anyv).
  { apply at_setDatabase; [done|]. split; cbn; [done| |done].
    constructor; [by split|constructor]. }
  intros _ s3 Hwf3 _. apply at_modify; [by apply wf_del_providers|apply view_del_providers].
Qed.

Lemma filterAndAppend_wf ms po req user :
  Forall wf_miner ms → Forall wf_miner (filterAndAppendMiner ms po req user).1.
Proof.
  intros Hf. unfold filterAndAppendMiner. destruct (isProviderUserMatch _ _); [|done].
  destruct (isProviderReqMatch po req) as [[] e]; cbn; [|done].
  apply Forall_app_2; [done|]. repeat constructor; done.
Qed.

Lemma targetLoop_wf load tx sender n ts ms err ms' err' :
  Forall wf_miner ms → targetLoop load tx sender n ts ms err = Some (ms', err') →
  Forall wf_miner ms'.
Proof.
  revert ms err. induction ts as [|t ts IH]; intros ms err Hf Hl; cbn in Hl.
  { by injection Hl as <- <-. }
  destruct (load t) as [[po|] []]; [|by eapply IH..|done|by eapply IH].
  pose proof (filterAndAppend_wf ms po tx sender Hf) as Hf'.
  destruct (filterAndAppendMiner ms po tx sender) as [ms1 e1]. case_decide; simplify_eq; [done|].
  by eapply IH.
Qed.

Lemma filterNMiners_from_wf ps tx user n ms :
  filterNMiners_from ps tx user n = Ok ms → Forall wf_miner ms.
Proof.
  unfold filterNMiners_from. case_decide as Hc; intros [= <-].
  clear Hc. apply Forall_take.
  set (l := foldl _ _ _).
  assert (Forall wf_miner l) as Hl.
  { subst l. assert (Forall wf_miner []) as Hnil by constructor. revert Hnil.
    generalize (@nil MinerInfo). induction ps as [|p ps IH]; intros ms Hms; cbn; [done|].
    apply IH. by apply filterAndAppend_wf. }
  by rewrite (merge_sort_Permutation miner_le l).
Qed.

Lemma targetLoop_ext f g tx sender n ts ms err :
  (∀ k, f k = g k) → targetLoop f tx sender n ts ms err = targetLoop g tx sender n ts ms err.
Proof.
  intros Hfg. revert ms err. induction ts as [|t ts IH]; intros ms err; cbn; [done|].
  rewrite Hfg. destruct (g t) as [[po|] []]; [|done..]. 
  destruct (filterAndAppendMiner _ _ _ _). by case_decide.
Qed.

Lemma commitMap_overlay {K V} `{Countable K} (d r : gmap K (option V)) :
  no_nil r → commitMap d r = Some <$> overlay d r.
Proof.
  intros Hr. apply map_eq. intros k. rewrite lookup_commitMap, lookup_fmap, lookup_overlay.
  destruct (d !! k) as [[]|]; cbn; [done..|]. destruct (r !! k) as [[]|] eqn:E; cbn; [done| |done].
  by destruct (Hr k).
Qed.

Lemma foldl_delete_fmap {K V} `{Countable K} (ks : list K) (m : gmap K V) :
  foldl (λ m k, delete k m) (Some <$> m) ks = Some <$> foldl (λ m k, delete k m) m ks.
Proof.
  revert m. induction ks as [|k ks IH]; intros m; cbn; [done|].
  by rewrite <- IH, fmap_delete.
Qed.

Lemma filterNMiners_view s tx user n : wf_state s →
  filterNMiners s tx user n = L_filterNMiners (view s) tx user n.
Proof.
  intros Hwf. unfold filterNMiners, L_filterNMiners, allProviderMap.
  rewrite commitMap_overlay by apply wf_ro_nil_provider, Hwf.
  by rewrite foldl_delete_fmap.
Qed.

Lemma at_matchProviders s t : wf_state s → is_u64 (cd_AdvancePayment (tx_Header t)) →
  refines_at s anyv (matchProvidersWithUser t) (L_matchProvidersWithUser t).
Proof.
  intros Hwf Hadv. unfold matchProvidersWithUser, L_matchProvidersWithUser.
  destruct (PubKeyHash _) as [sender|e|]; [|eauto with refine..].
  do 4 (case_decide; [by apply at_throw|]). apply at_getS.
  rewrite (targetLoop_ext _ (L_loadProvider (view s)));
    [|intros k; by rewrite (load_provider _ _ Hwf)].
  destruct (targetLoop _ _ _ _ _ _ _) as [[ms err]|] eqn:Hl; [|eauto with refine].
  apply targetLoop_wf in Hl; [|constructor].
  case_decide; [case_decide|].
  - destruct (Wrap err); eauto with refine.
  - rewrite filterNMiners_view by done. apply at_liftR_bind; [done|]. intros ms' Hms'.
    apply at_createMatched; [done..|apply minDeposit_u64|].
    apply Forall_app_2; [done|]. by eapply filterNMiners_from_wf.
  - apply at_createMatched; [done..|apply minDeposit_u64|done].
Qed.

Lemma at_updatePermission s t : wf_state s →
  refines_at s anyv (updatePermission t) (L_updatePermission t).
Proof.
  intros Hwf. unfold updatePermission, L_updatePermission.
  destruct (PubKeyHash _) as [sender|e|]; [|eauto with refine..].
  apply at_getS'. apply at_loadDatabase; [done|]. intros p Hp Hwp.
  destruct (permissionScan _ _ _ _ _ _) as [[supers idx]|]; [|eauto with refine].
  destruct (_ && _ && _); [eauto with refine|]. apply at_setDatabase; [done|].
  destruct Hwp as [Hid Hus Hms]. split; [exact Hid|apply wf_setPermission, Hus|exact Hms].
Qed.

Lemma at_updateKeys s t : wf_state s → refines_at s anyv (updateKeys t) (L_updateKeys t).
Proof.
  intros Hwf. apply at_getS'. apply at_loadDatabase; [done|]. intros p Hp Hwp.
  destruct (findUser _ _) as [u|]; [destruct (negb _)|]; eauto with refine.
Qed.

Lemma at_updateBilling s t : wf_state s → refines_at s anyv (updateBilling t) (L_updateBilling t).
Proof.
  intros Hwf. apply at_getS'. apply at_loadDatabase; [done|]. intros p Hp Hwp.
  case_decide; [by apply at_throw|]. case_decide; [by apply at_ret|].
  cbv zeta. destruct (negb _); [by apply at_throw|].
  apply at_setDatabase; [done|]. by apply wf_billProfile.
Qed.

Lemma at_transferSQLChain s t : wf_state s →
  refines_at s anyv (transferSQLChainTokenBalance t) (L_transferSQLChainTokenBalance t).
Proof.
  intros Hwf. unfold transferSQLChainTokenBalance, L_transferSQLChainTokenBalance.
  destruct (hsv_Signee _) as [k|]; [|eauto with refine].
  apply (at_bind _ anyv); [by apply at_checkSender|]. intros _ s1 Hwf1 _.
  apply at_getS'. apply at_loadDatabase; [done|]. intros p Hp Hwp.
  case_decide; [eauto with refine|]. apply at_getL.
  rewrite (load_account _ _ Hwf1). cbn [view l_accounts].
  destruct (accounts s1 !! tr_Sender (tx_Header t)) as [a|] eqn:Ha; cbn [fst];
    [|by apply at_deref_bind].
  apply at_deref_bind; [done|]. intros ? [= <-].
  apply at_deref_bind; [done|]. intros b Hb.
  case_decide; [eauto with refine|].
  destruct (list_find _ _) as [[i u]|] eqn:Hu; [|eauto with refine].
  apply at_liftR_bind; [done|]. intros [u' ms'] Hc.
  apply list_find_Some in Hu as (Hi & _ & _).
  assert (wf_user u) as Hwu by (eapply Forall_lookup_1; [apply Hwp|done]).
  destruct (wf_creditUser _ _ _ _ _ _ Hwp Hwu Hc) as [Hu' Hms'].
  apply (at_bind _ anyv).
  { apply at_setDatabase; [done|]. destruct Hwp as [Hid Hus Hms].
    split; [exact Hid|apply Forall_insert; [exact Hus|exact Hu']|exact Hms']. }
  intros _ s2 Hwf2 _. apply at_setAccount; [done|].
  apply wf_withBalance; [exact (wf_lookup_account _ _ _ Hwf1 Ha)|apply u64_range].
Qed.

Lemma at_applyTransaction s t h : wf_state s → wf_tx t →
  refines_at s anyv (applyTransaction t h) (L_applyTransaction t h).
Proof.
  intros Hwf. induction t as [t|a m|t|t|t|t|t|t IH|]; intros Ht; cbn [applyTransaction L_applyTransaction].
  - apply (at_bind _ anyv); [by apply at_attempt, at_transferSQLChain|].
    intros [e|u] s1 Hwf1 _; [|eauto with refine].
    case_decide; [by apply at_transferAccountToken|eauto with refine].
  - by apply at_storeBaseAccount.
  - by apply at_updateProviderList.
  - by apply at_matchProviders.
  - by apply at_updatePermission.
  - by apply at_updateKeys.
  - by apply at_updateBilling.
  - by apply IH.
  - by apply at_throw.
Qed.

Lemma at_expectedNonce s t : wf_state s → refines_at s anyv (expectedNonce t) (L_expectedNonce t).
Proof.
  intros Hwf. unfold expectedNonce, L_expectedNonce, nextNonce.
  pose proof (accountPtr_spec s (GetAccountAddress t) Hwf) as Hp.
  unfold refines_at. go_unfold. cbn [view l_accounts].
  destruct (accountPtr s _) as [[o b]|].
  - destruct Hp as (a & -> & ->). by eexists _, _.
  - rewrite Hp. case_decide; by eexists _, _.
Qed.

Lemma at_apply s t h : wf_state s → wf_tx t → refines_at s anyv (MetaTx.apply t h) (L_apply t h).
Proof.
  intros Hwf Ht. apply (at_bind _ anyv); [by apply at_expectedNonce|]. intros n s1 Hwf1 _.
  case_decide; [eauto with refine|].
  apply (at_bind _ anyv); [by apply at_applyTransaction|]. intros _ s2 Hwf2 _.
  by apply at_increaseNonce.
Qed.
End handlers.

(** C1: the meta state implements the abstract ledger: from a well-formed state,
    [apply] returns the same result, the same error or the same panic as the
    ledger program, and its final state is well-formed and denotes the ledger's
    final state; overlay, copy-on-write and write-through are invisible. *)
Theorem apply_refines `{Env} s t height :
  wf_state s → wf_tx t →
  ∃ r s', MetaTx.apply t height s = (r, s') ∧ L_apply t height (view s) = (r, view s') ∧ wf_state s'.
Proof.
  intros Hwf Ht. destruct (at_apply s t height Hwf Ht) as (r & s' & ? & ? & ? & _). eauto.
Qed.
