(* ===== verification/Sample.v ===== *)
(** * A concrete environment and sample states

    An instance of [Env] for the concrete runs: keys are one byte, the hash
    keeps the first 32 bytes of its input.  The sample state has two accounts
    (Alice, who holds 10^9 of either token, and Bob), a provider and a database
    that Alice owns. *)
From S2P Require Import Prelude Hash Types MetaState MetaView MetaTx Ledger LedgerRefine.
From Stdlib Require Import String ZArith Lia.
From stdpp Require Import base list gmap strings.
Local Open Scope Z_scope.

Definition firstBytes (b : list Z) : Hash := take 32 ((u8 <$> b) ++ replicate 32 0).

Lemma firstBytes_valid b : valid_hash (firstBytes b).
Proof.
  unfold firstBytes. split.
  - rewrite length_take, length_app, length_fmap, length_replicate.
    unfold HashSize. lia.
  - apply Forall_take, Forall_app. split.
    + apply Forall_fmap, Forall_true. intros x. unfold compose, is_byte, u8.
      apply Z.mod_pos_bound. done.
    + by apply Forall_replicate.
Qed.

#[export] Instance sampleEnv : Env := {|
  PublicKey := Z;
  Signature := list Z;
  pub_Serialize := λ k, [k];
  sig_Verify := λ s h k, bool_decide (s = k :: h);
  THashH := firstBytes;
  THashH_valid := firstBytes_valid;
  MarshalHash_Header := λ h, Some [hd_Timestamp h];
  EncodeMsgPack_Block := λ b, Some (gb_DataHash b);
  float_overflow_u64 := λ _, 2 ^ 63;
  float_overflow_range := λ _, conj (ltac:(done) : 0 <= 2 ^ 63) (ltac:(done) : 2 ^ 63 < two64);
  conf_QPS := 10;
  conf_BillingBlockCount := 60;
  conf_MinProviderDeposit := 1000;
  conf_QPS_range := conj (ltac:(done) : 0 <= 10) (ltac:(done) : 10 < two32);
  conf_BillingBlockCount_range := conj (ltac:(done) : 0 <= 60) (ltac:(done) : 60 < two64);
  conf_MinProviderDeposit_range := conj (ltac:(done) : 0 <= 1000) (ltac:(done) : 1000 < two64);
|}.

(** The address of the account with key [k]. *)
Definition addr (k : Z) : AccountAddress := firstBytes [k].

Definition alice : AccountAddress := addr 1.
Definition bob : AccountAddress := addr 2.
Definition carol : AccountAddress := addr 3.
Definition dbHash : AccountAddress := addr 9.
Definition dbName : DatabaseID := DatabaseID_of dbHash.

Definition sampleAccount (a : AccountAddress) (x nonce : Z) : Account :=
  MkAccount a [x; x] float_zero nonce.
Definition sampleMeta (n : Z) : ResourceMeta :=
  MkResourceMeta [] n 0 0 float_zero EmptyString false float_zero 0.
Definition sampleMiner (k : Z) : MinerInfo :=
  MkMinerInfo (addr k) "node" EmptyString 7 3 [] 1000 UnknownStatus EmptyString.
Definition sampleUser (a : AccountAddress) (role : Z) : SQLChainUser :=
  MkSQLChainUser a (UserPermissionFromRole role) 500 0 600 Normal.
Definition sampleProfile : SQLChainProfile :=
  MkSQLChainProfile dbName dbHash sqlchainPeriod 1 0 Particle alice [sampleMiner 4]
    [sampleUser alice Admin; sampleUser bob Read] [] (sampleMeta 1).
Definition sampleProvider (k : Z) : ProviderProfile :=
  MkProviderProfile (addr k) 100 100 float_zero [] 1000 1 Particle "node5".

Definition sampleState : metaState :=
  MkState
    (MkIndex {[ bob := Some (sampleAccount bob 20 0) ]} ∅ ∅)
    (MkIndex {[ alice := Some (sampleAccount alice (10 ^ 9) 5); bob := Some (sampleAccount bob 10 0) ]}
       {[ dbName := Some sampleProfile ]} {[ addr 5 := Some (sampleProvider 5) ]}).

Lemma wf_sampleAccount k x n : is_u64 x → is_u32 n → wf_account k (sampleAccount k x n).
Proof. intros. split; cbn; [done|done|by do 2 (constructor; [done|])|done]. Qed.

Lemma wf_sampleProfile : wf_profile dbName sampleProfile.
Proof.
  split; [reflexivity| |].
  - constructor; [by split|]. constructor; [by split|constructor].
  - constructor; [by split|constructor].
Qed.

Lemma wf_sampleState : wf_state sampleState.
Proof.
  split; cbn [dirty readonly sampleState ix_accounts ix_databases ix_provider].
  - apply map_Forall_singleton. eexists. split; [done|]. by apply wf_sampleAccount.
  - apply map_Forall_insert_2; [|apply map_Forall_singleton];
      eexists; (split; [done|by apply wf_sampleAccount]).
  - apply map_Forall_empty.
  - apply map_Forall_singleton. intros ? [= <-]. apply wf_sampleProfile.
  - apply map_Forall_empty.
  - apply map_Forall_singleton. intros ? [= <-]. by split.
  - intros k. rewrite lookup_singleton_Some. by intros [].
  - intros k. rewrite lookup_singleton_Some. by intros [].
Qed.

(** A transaction header signed with key [k]. *)
Definition signedBy {A} (k : Z) (h : A) : Signed A :=
  MkSigned h (MkMixin 0 77) (MkHSV zeroHash (Some k) (Some [k])).

Definition sampleTransfer (nonce amount : Z) (to : AccountAddress) : Transaction :=
  TxTransfer (signedBy 1 (MkTransferHeader alice to nonce amount Particle)).

Lemma apply_refines_witness : ∃ s',
  MetaTx.apply (sampleTransfer 5 300 carol) 7 sampleState = (Ok tt, s') ∧
  L_apply (sampleTransfer 5 300 carol) 7 (view sampleState) = (Ok tt, view s').
Proof.
  destruct (apply_refines sampleState (sampleTransfer 5 300 carol) 7 wf_sampleState ltac:(done))
    as (r & s' & Hm & Hf & _).
  assert (r = Ok tt) as ->.
  { apply (f_equal fst) in Hm. cbn [fst] in Hm. rewrite <- Hm. vm_compute. reflexivity. }
  exists s'. exact (conj Hm Hf).
Defined.
