(* ===== verification/Supply.v ===== *)
(** * Tokens are conserved

    The tokens of a ledger are the balances of its accounts and, for [Particle],
    the deposits of the providers.  A transfer between accounts conserves them
    whatever it returns; no transaction but a base account creates any. *)
From S2P Require Import Prelude Hash Types MetaState MetaView MetaTx Ledger LedgerRefine Sample.
From Stdlib Require Import String ZArith Lia.
From stdpp Require Import base list gmap strings.
Local Open Scope Z_scope.

(** ** Sums over finite maps *)

Definition msum {K V} `{Countable K} (f : V → Z) (m : gmap K V) : Z :=
  map_fold (λ _ v acc, f v + acc) 0 m.

Section msum.
Context {K V : Type} `{Countable K} (f : V → Z).
Implicit Types m : gmap K V.

Lemma msum_insert_new m k v : m !! k = None → msum f (<[k := v]> m) = f v + msum f m.
Proof. intros Hk. unfold msum. rewrite map_fold_insert_L; [done| |done]. intros. lia. Qed.

Lemma msum_delete m k v : m !! k = Some v → msum f m = f v + msum f (delete k m).
Proof.
  intros Hk. rewrite <- (insert_delete_id m k v Hk) at 1.
  apply msum_insert_new, lookup_delete_eq.
Qed.

Lemma msum_insert m k v :
  msum f (<[k := v]> m) = msum f m + f v - default 0 (f <$> m !! k).
Proof.
  destruct (m !! k) as [v0|] eqn:Hk; cbn.
  - rewrite (msum_delete _ _ _ Hk), <- insert_delete_eq, msum_insert_new by apply lookup_delete_eq.
    lia.
  - rewrite msum_insert_new by done. lia.
Qed.

Lemma msum_delete_le m k : map_Forall (λ _ v, 0 <= f v) m → msum f (delete k m) <= msum f m.
Proof.
  intros Hm. destruct (m !! k) as [v|] eqn:Hk.
  - rewrite (msum_delete m k v Hk). specialize (Hm k v Hk). cbn in Hm. lia.
  - by rewrite delete_id.
Qed.
End msum.

(** ** Totals *)

Definition balance (t : TokenType) (a : Account) : Z := default 0 (balanceAt (ac_TokenBalance a) t).

Definition supply (t : TokenType) (l : ledger) : Z := msum (balance t) (l_accounts l).
Definition deposits (l : ledger) : Z := msum pp_Deposit (l_providers l).

(** All tokens of type [t]: in accounts, and locked up by providers. *)
Definition total (t : TokenType) (l : ledger) : Z :=
  supply t l + if decide (t = Particle) then deposits l else 0.

Lemma balance_withBalance_eq a t b0 b :
  balanceAt (ac_TokenBalance a) t = Some b0 → balance t (withBalance a t b) = b.
Proof.
  unfold balance, balanceAt, withBalance, setBalanceAt. cbn. case_decide; [|done].
  intros Hb%lookup_lt_Some. by rewrite list_lookup_insert_eq.
Qed.

Lemma balance_withBalance_ne a t t' b0 b :
  balanceAt (ac_TokenBalance a) t = Some b0 → t' ≠ t → balance t' (withBalance a t b) = balance t' a.
Proof.
  unfold balance, balanceAt, withBalance, setBalanceAt. cbn. case_decide; [|done].
  intros _ Hne. case_decide; [|done]. rewrite list_lookup_insert_ne; [done|]. lia.
Qed.

Lemma supply_withBalance t' t l k a b0 b :
  l_accounts l !! k = Some a → balanceAt (ac_TokenBalance a) t = Some b0 →
  supply t' (L_setAccount k (withBalance a t b) l) =
  supply t' l + if decide (t' = t) then b - b0 else 0.
Proof.
  intros Ha Hb. unfold supply. cbn. rewrite msum_insert, Ha. cbn.
  case_decide as Ht; [subst t'|].
  - rewrite (balance_withBalance_eq _ _ _ _ Hb). unfold balance at 2. rewrite Hb. cbn. lia.
  - rewrite (balance_withBalance_ne _ _ _ _ _ Hb Ht). lia.
Qed.

Lemma deposits_setAccount k a l : deposits (L_setAccount k a l) = deposits l.
Proof. done. Qed.
Lemma supply_delProvider t k l : supply t (L_delProvider k l) = supply t l.
Proof. done. Qed.
Lemma supply_setProvider t k p l : supply t (L_setProvider k p l) = supply t l.
Proof. done. Qed.

(** ** Well-formed ledgers *)

Record wf_ledger (l : ledger) : Prop := {
  wfl_accounts : map_Forall wf_account (l_accounts l);
  wfl_providers : map_Forall wf_provider (l_providers l);
}.

Lemma wf_view s : wf_state s → wf_ledger (view s).
Proof.
  intros Hwf. split; intros k v Hv.
  - by eapply wf_lookup_account.
  - by eapply wf_lookup_provider.
Qed.

Lemma wf_L_setAccount k a l : wf_ledger l → wf_account k a → wf_ledger (L_setAccount k a l).
Proof. intros [] ?. split; [|done]. by apply map_Forall_insert_2. Qed.

Lemma wf_L_delProvider k l : wf_ledger l → wf_ledger (L_delProvider k l).
Proof. intros []. split; [done|]. by apply map_Forall_delete. Qed.

Lemma wf_balance l k a t b :
  wf_ledger l → l_accounts l !! k = Some a → balanceAt (ac_TokenBalance a) t = Some b → is_u64 b.
Proof.
  intros [Hl _] Ha. destruct (Hl k a Ha) as [_ _ Hf _]. unfold balanceAt. case_decide; [|done].
  intros Hb. by eapply Forall_lookup_1.
Qed.

Lemma balance_nonneg k a t : wf_account k a → 0 <= balance t a.
Proof.
  intros [_ _ Hf _]. unfold balance, balanceAt. case_decide; [|done].
  destruct (ac_TokenBalance a !! Z.to_nat t) as [b|] eqn:Hb; cbn; [|done].
  eapply Forall_lookup_1 in Hf as []; done.
Qed.

Lemma safeAdd_Ok x y z : is_u64 x → is_u64 y → safeAdd x y = Ok z → z = x + y ∧ is_u64 z.
Proof.
  intros Hx Hy. unfold safeAdd. case_decide as Hd; [done|]. intros [= <-].
  rewrite (u64_add_overflow _ _ Hx Hy) in Hd. rewrite u64_id; unfold is_u64 in *; lia.
Qed.

Lemma safeSub_Ok x y z : is_u64 x → 0 <= y → safeSub x y = Ok z → z = x - y ∧ is_u64 z.
Proof.
  intros Hx Hy. unfold safeSub. case_decide; [done|]. intros [= <-].
  rewrite u64_id; unfold is_u64 in *; lia.
Qed.

(** ** Transfers *)

Lemma L_ensureAccount_wf k l : wf_ledger l → wf_ledger (L_ensureAccount k (newAccount k) l).
Proof.
  intros Hl. unfold L_ensureAccount. destruct (l_accounts l !! k); [done|].
  apply wf_L_setAccount; [done|]. apply wf_newAccount.
Qed.

Lemma balance_newAccount t k : balance t (newAccount k) = 0.
Proof.
  unfold balance, balanceAt. cbn. case_decide; [|done].
  by destruct (Z.to_nat t) as [|[|]].
Qed.

Lemma total_ensureAccount t k l : total t (L_ensureAccount k (newAccount k) l) = total t l.
Proof.
  unfold total, L_ensureAccount. destruct (l_accounts l !! k) eqn:Hk; [done|].
  rewrite deposits_setAccount. unfold supply. cbn [L_setAccount l_accounts].
  rewrite msum_insert_new by done. by rewrite balance_newAccount.
Qed.

(** Writing the two sides of a transfer. *)
Lemma total_move t' t l k1 k2 a1 a2 b1 b2 x :
  k1 ≠ k2 → l_accounts l !! k1 = Some a1 → l_accounts l !! k2 = Some a2 →
  balanceAt (ac_TokenBalance a1) t = Some b1 → balanceAt (ac_TokenBalance a2) t = Some b2 →
  total t' (L_setAccount k2 (withBalance a2 t (b2 + x)) (L_setAccount k1 (withBalance a1 t (b1 - x)) l))
  = total t' l.
Proof.
  intros Hne Ha1 Ha2 Hb1 Hb2. unfold total. rewrite !deposits_setAccount.
  erewrite supply_withBalance; [|by cbn; rewrite lookup_insert_ne|done].
  erewrite supply_withBalance; [|done..]. case_decide; lia.
Qed.

Lemma L_moveTokens_total t sender receiver amount ty l r l' :
  wf_ledger l → is_u64 amount → L_moveTokens sender receiver amount ty l = (r, l') →
  wf_ledger l' ∧ total t l' = total t l.
Proof.
  intros Hl Hx. unfold L_moveTokens, L_getAccount. case_decide as Hd; [by intros [= <- <-]|].
  go_unfold. set (l1 := L_ensureAccount receiver (newAccount receiver) l).
  assert (wf_ledger l1) as Hl1 by by apply L_ensureAccount_wf.
  assert (total t l1 = total t l) as <- by apply total_ensureAccount.
  destruct (l_accounts l1 !! sender) as [so|] eqn:Hs; [|by intros [= <- <-]].
  destruct (l_accounts l1 !! receiver) as [ro|] eqn:Hr; [|by intros [= <- <-]].
  destruct (balanceAt (ac_TokenBalance so) ty) as [sb|] eqn:Hsb; [|by intros [= <- <-]].
  destruct (balanceAt (ac_TokenBalance ro) ty) as [rb|] eqn:Hrb; [|by intros [= <- <-]].
  go_unfold. destruct (safeSub sb amount) as [sb'| |] eqn:Es; [|by intros [= <- <-]..].
  destruct (safeAdd rb amount) as [rb'| |] eqn:Er; [|by intros [= <- <-]..].
  intros [= <- <-].
  apply safeSub_Ok in Es as [-> ?]; [|exact (wf_balance _ _ _ _ _ Hl1 Hs Hsb)|apply Hx].
  apply safeAdd_Ok in Er as [-> ?]; [|exact (wf_balance _ _ _ _ _ Hl1 Hr Hrb)|done].
  split; [|apply total_move; naive_solver].
  apply wf_L_setAccount; [apply wf_L_setAccount; [done|]|]; apply wf_withBalance; [|done| |done];
    by apply (wfl_accounts _ Hl1).
Qed.

(** What a transfer between two accounts does when it succeeds. *)
Lemma L_moveTokens_Ok sender receiver amount ty l l' :
  wf_ledger l → is_u64 amount → sender ≠ receiver →
  amount ≠ 0 → L_moveTokens sender receiver amount ty l = (Ok tt, l') →
  ∃ so ro sb rb,
    l_accounts l !! sender = Some so ∧ balanceAt (ac_TokenBalance so) ty = Some sb ∧
    ro = default (newAccount receiver) (l_accounts l !! receiver) ∧
    balanceAt (ac_TokenBalance ro) ty = Some rb ∧
    amount <= sb ∧ rb + amount < two64 ∧
    l' = L_setAccount receiver (withBalance ro ty (rb + amount))
           (L_setAccount sender (withBalance so ty (sb - amount)) l).
Proof.
  intros Hl Hx Hne H0. unfold L_moveTokens, L_getAccount. destruct (decide _) as [[]|_]; [done..|].
  go_unfold. intros Hm. set (l1 := L_ensureAccount receiver (newAccount receiver) l) in Hm.
  assert (wf_ledger l1) as Hl1 by by apply L_ensureAccount_wf.
  assert (l_accounts l1 !! sender = l_accounts l !! sender) as Hs1.
  { subst l1. unfold L_ensureAccount. destruct (l_accounts l !! receiver); [done|].
    cbn. by rewrite lookup_insert_ne. }
  assert (l_accounts l1 !! receiver = Some (default (newAccount receiver) (l_accounts l !! receiver)))
    as Hr1.
  { subst l1. unfold L_ensureAccount. destruct (l_accounts l !! receiver) as [ro|] eqn:Hr; [done|].
    cbn. by rewrite lookup_insert_eq. }
  rewrite Hs1 in Hm. destruct (l_accounts l !! sender) as [so|] eqn:Hs; [|done].
  go_unfold in Hm. rewrite Hr1 in Hm. go_unfold in Hm.
  set (ro := default (newAccount receiver) (l_accounts l !! receiver)) in *.
  destruct (balanceAt (ac_TokenBalance so) ty) as [sb|] eqn:Hsb; [|done].
  destruct (balanceAt (ac_TokenBalance ro) ty) as [rb|] eqn:Hrb; [|done].
  go_unfold in Hm. destruct (safeSub sb amount) as [sb'| |] eqn:Es; [|done..].
  destruct (safeAdd rb amount) as [rb'| |] eqn:Er; [|done..].
  injection Hm as <-.
  apply safeSub_Ok in Es as [-> [? _]]; [|exact (wf_balance _ _ _ _ _ Hl Hs Hsb)|apply Hx].
  apply safeAdd_Ok in Er as [-> [_ ?]]; [|exact (wf_balance _ _ _ _ _ Hl1 Hr1 Hrb)|done].
  exists so, ro, sb, rb. split_and!; [done..|lia|done|].
  subst l1. unfold L_ensureAccount. destruct (l_accounts l !! receiver); [done|].
  unfold L_setAccount. cbn. f_equal.
  by rewrite (insert_insert_ne _ sender receiver), insert_insert_eq.
Qed.

(** ** No transaction creates tokens *)

(** From [l], the program [m] ends in a well-formed ledger with no more tokens of
    any type, whatever it returns. *)
Definition nomint_at {A} (l : ledger) (m : LM A) : Prop :=
  wf_ledger (m l).2 ∧ ∀ t, total t (m l).2 <= total t l.

Section nomint.
Context {A B : Type}.

Lemma nomint_pure l (m : LM A) : wf_ledger l → (m l).2 = l → nomint_at l m.
Proof. intros Hl Hm. unfold nomint_at. rewrite Hm. split; [done|]. intros. lia. Qed.

Lemma nomint_bind l (m : LM A) (k : A → LM B) :
  nomint_at l m → (∀ a l', m l = (Ok a, l') → wf_ledger l' → nomint_at l' (k a)) →
  nomint_at l (mbind k m).
Proof.
  intros [Hwf Hle] Hk. unfold nomint_at, mbind, gom_bind. unfold nomint_at in Hk.
  destruct (m l) as [[a|e|] l']; cbn in *; [|done..].
  destruct (Hk a l' eq_refl Hwf) as [Hwf' Hle']. split; [done|].
  intros t. etrans; [apply Hle'|apply Hle].
Qed.

Lemma nomint_read l (m : LM A) (k : A → LM B) a :
  m l = (Ok a, l) → nomint_at l (k a) → nomint_at l (mbind k m).
Proof. intros Hm Hk. unfold nomint_at, mbind, gom_bind. by rewrite Hm. Qed.

Lemma nomint_pure_bind l (m : LM A) (k : A → LM B) :
  wf_ledger l → (m l).2 = l → (∀ a, m l = (Ok a, l) → nomint_at l (k a)) →
  nomint_at l (mbind k m).
Proof.
  intros Hl Hm Hk. apply nomint_bind; [by apply nomint_pure|].
  intros a l' Ha _. rewrite Ha in Hm. cbn in Hm. subst l'. by apply Hk.
Qed.

Lemma nomint_attempt l (m : LM A) : nomint_at l m → nomint_at l (attempt m).
Proof. unfold nomint_at, attempt. by destruct (m l) as [[]]. Qed.
End nomint.

Lemma deref_pure {A} (o : option A) (l : ledger) : (deref (E:=error) o l).2 = l.
Proof. by destruct o. Qed.
Lemma getDatabase_pure e k l : (L_getDatabase e k l).2 = l.
Proof. unfold L_getDatabase. go_unfold. by destruct (l_databases l !! k). Qed.
Lemma getAccount_pure e k l : (L_getAccount e k l).2 = l.
Proof. unfold L_getAccount. go_unfold. by destruct (l_accounts l !! k). Qed.

(** Statements that do not write. *)
Ltac reads :=
  first [apply deref_pure | apply getDatabase_pure | apply getAccount_pure | reflexivity].

Lemma nomint_setDatabase k p l : wf_ledger l → nomint_at l (modifyS (L_setDatabase k p)).
Proof. intros []. split; [by split|]. intros t. done. Qed.

(** The two balance updates, as one of: no change and no success, or the write. *)
Lemma L_increase_cases k x t l r l' :
  wf_ledger l → is_u64 x → L_increase k x t l = (r, l') →
  (l' = l ∧ r ≠ Ok tt) ∨
  (r = Ok tt ∧ ∃ a b, l_accounts l !! k = Some a ∧ balanceAt (ac_TokenBalance a) t = Some b ∧
     is_u64 (b + x) ∧ l' = L_setAccount k (withBalance a t (b + x)) l).
Proof.
  intros Hl Hx. unfold L_increase, L_getAccount. go_unfold.
  destruct (l_accounts l !! k) as [a|] eqn:Ha; [|intros [= <- <-]; by left].
  go_unfold. destruct (balanceAt _ _) as [b|] eqn:Hb; [|intros [= <- <-]; by left].
  go_unfold. destruct (safeAdd b x) as [b'| |] eqn:Es; [|intros [= <- <-]; by left..].
  intros [= <- <-]. right. split; [done|].
  apply safeAdd_Ok in Es as [-> ?]; [|by eapply wf_balance|done]. eauto 10.
Qed.

Lemma L_decrease_cases k x t l r l' :
  wf_ledger l → is_u64 x → L_decrease k x t l = (r, l') →
  (l' = l ∧ r ≠ Ok tt) ∨
  (r = Ok tt ∧ ∃ a b, l_accounts l !! k = Some a ∧ balanceAt (ac_TokenBalance a) t = Some b ∧
     is_u64 (b - x) ∧ l' = L_setAccount k (withBalance a t (b - x)) l).
Proof.
  intros Hl Hx. unfold L_decrease, L_getAccount. go_unfold.
  destruct (l_accounts l !! k) as [a|] eqn:Ha; [|intros [= <- <-]; by left].
  go_unfold. destruct (balanceAt _ _) as [b|] eqn:Hb; [|intros [= <- <-]; by left].
  go_unfold. destruct (safeSub b x) as [b'| |] eqn:Es; [|intros [= <- <-]; by left..].
  intros [= <- <-]. right. split; [done|].
  apply safeSub_Ok in Es as [-> ?]; [|by eapply wf_balance|apply Hx]. eauto 10.
Qed.

Lemma wf_setBalance l k a t b :
  wf_ledger l → l_accounts l !! k = Some a → is_u64 b → wf_ledger (L_setAccount k (withBalance a t b) l).
Proof.
  intros Hl Ha Hb. apply wf_L_setAccount; [done|]. apply wf_withBalance; [|done].
  by apply (wfl_accounts _ Hl).
Qed.

Lemma total_withBalance t' t l k a b0 b :
  l_accounts l !! k = Some a → balanceAt (ac_TokenBalance a) t = Some b0 →
  total t' (L_setAccount k (withBalance a t b) l) = total t' l + if decide (t' = t) then b - b0 else 0.
Proof.
  intros Ha Hb. unfold total. rewrite deposits_setAccount, (supply_withBalance _ _ _ _ _ _ _ Ha Hb). lia.
Qed.

Lemma nomint_decrease k x t l : wf_ledger l → is_u64 x → nomint_at l (L_decrease k x t).
Proof.
  intros Hl Hx. destruct (L_decrease k x t l) as [r l'] eqn:Hd.
  destruct (L_decrease_cases _ _ _ _ _ _ Hl Hx Hd) as [[-> _]|(-> & a & b & Ha & Hb & Hr & ->)];
    unfold nomint_at; rewrite Hd; cbn [snd].
  { split; [done|]. intros; lia. }
  split; [by apply wf_setBalance|]. intros t'. rewrite (total_withBalance _ _ _ _ _ _ _ Ha Hb).
  destruct Hx. case_decide; lia.
Qed.

Lemma nomint_newAccount k l : wf_ledger l → nomint_at l (modifyS (L_setAccount k (newAccount k))).
Proof.
  intros Hl. split; cbn [modifyS snd]; [apply wf_L_setAccount; [done|apply wf_newAccount]|].
  intros t. unfold total. rewrite deposits_setAccount. unfold supply. cbn [L_setAccount l_accounts].
  rewrite msum_insert, balance_newAccount. destruct (l_accounts l !! k) as [a|] eqn:Ha; cbn; [|lia].
  pose proof (balance_nonneg k a t (wfl_accounts _ Hl _ _ Ha)). lia.
Qed.

Lemma total_delProvider t k l : wf_ledger l → total t (L_delProvider k l) <= total t l.
Proof.
  intros [_ Hp]. unfold total, supply, deposits. cbn. case_decide; [|lia].
  apply Zplus_le_compat_l, msum_delete_le. intros i p Hi. apply (Hp i p Hi).
Qed.

Lemma nomint_delProviders ms l : wf_ledger l →
  nomint_at l (modifyS (λ l, foldl (λ l (m : MinerInfo), L_delProvider (mi_Address m) l) l ms)).
Proof.
  unfold nomint_at, modifyS. cbn [snd]. revert l. induction ms as [|m ms IH]; intros l Hl; cbn.
  { split; [done|]. intros; lia. }
  destruct (IH _ (wf_L_delProvider (mi_Address m) l Hl)) as [Hw Hle]. split; [done|].
  intros t. etrans; [apply Hle|]. by apply total_delProvider.
Qed.

Section handlers.
Context `{Env}.

Lemma checkSender_pure k a l : (L_checkSender k a l).2 = l.
Proof. unfold L_checkSender. destruct (PubKeyHash k); [case_decide|..]; done. Qed.

(** The refund of a provider that is replaced. *)
Lemma refund_total sender po l r l' :
  wf_ledger l → l_providers l !! sender = Some po →
  (L_increase sender (pp_Deposit po) Particle;; modifyS (L_delProvider sender)) l = (r, l') →
  wf_ledger l' ∧ ∀ t, total t l' = total t l.
Proof.
  intros Hl Hpo. destruct (wfl_providers _ Hl _ _ Hpo) as [_ Hdep]. unfold mbind, gom_bind.
  destruct (L_increase sender (pp_Deposit po) Particle l) as [r1 l1] eqn:Hi.
  destruct (L_increase_cases _ _ _ _ _ _ Hl Hdep Hi) as [[-> Hr]|(-> & a & b & Ha & Hb & Hu & ->)].
  { destruct r1 as [[]|e|]; [done|..]; by intros [= <- <-]. }
  unfold modifyS. intros [= <- <-]. split; [by apply wf_L_delProvider, wf_setBalance|].
  intros t. unfold total. rewrite supply_delProvider.
  rewrite (supply_withBalance _ _ _ _ _ _ _ Ha Hb). unfold deposits. cbn.
  rewrite (msum_delete pp_Deposit _ _ _ Hpo). case_decide; lia.
Qed.

Lemma nomint_updateProviderList tx h l : wf_ledger l → nomint_at l (L_updateProviderList tx h).
Proof.
  intros Hl. unfold L_updateProviderList. destruct (PubKeyHash _) as [sender| |]; [|by apply nomint_pure..].
  apply nomint_bind.
  { case_decide; [|by apply nomint_pure]. apply (nomint_read _ _ _ l); [done|].
    destruct (l_providers l !! sender) as [po|] eqn:Hpo; [|by apply nomint_pure].
    destruct ((L_increase sender (pp_Deposit po) Particle;; modifyS (L_delProvider sender)) l)
      as [r l'] eqn:Hr.
    destruct (refund_total _ _ _ _ _ Hl Hpo Hr) as [Hw Ht]. unfold nomint_at. rewrite Hr. cbn.
    split; [done|]. intros t. rewrite Ht. lia. }
  intros _ l1 _ Hl1. unfold nomint_at, mbind, gom_bind.
  pose proof conf_MinProviderDeposit_range as Hc.
  destruct (L_decrease sender conf_MinProviderDeposit Particle l1) as [r l2] eqn:Hd.
  destruct (L_decrease_cases _ _ _ _ _ _ Hl1 Hc Hd) as [[-> Hr]|(-> & a & b & Ha & Hb & Hu & ->)].
  { destruct r as [[]|e|]; [done|..]; (split; [done|intros; cbn; lia]). }
  cbn [modifyS snd]. set (po := MkProviderProfile _ _ _ _ _ _ _ _ _).
  destruct (wf_setBalance _ _ _ Particle _ Hl1 Ha Hu) as [Hwa Hwp]. split.
  { split; [done|]. apply map_Forall_insert_2; [by split|done]. }
  intros t. unfold total. unfold deposits. cbn [L_setProvider L_setAccount l_providers].
  rewrite supply_setProvider, (supply_withBalance _ _ _ _ _ _ _ Ha Hb), msum_insert. subst po. cbn [pp_Deposit].
  case_decide; [|lia].
  destruct (l_providers l1 !! sender) as [p0|] eqn:Hp0; cbn; [|lia].
  destruct (wfl_providers _ Hl1 _ _ Hp0) as [_ [? _]]. lia.
Qed.

Lemma nomint_createMatched tx sender minAdv ms l :
  wf_ledger l → is_u64 minAdv → is_u64 (cd_AdvancePayment (tx_Header tx)) →
  nomint_at l (L_createMatched tx sender minAdv ms).
Proof.
  intros Hl Hm Ha. unfold L_createMatched.
  apply nomint_pure_bind; [done|done|]. intros dbAddr _.
  apply nomint_pure_bind; [done|done|]. intros all Hall.
  injection Hall as Hall. apply safeAdd_Ok in Hall as [_ Hall]; [|done..].
  apply nomint_bind; [by apply nomint_decrease|]. intros _ l1 _ Hl1.
  apply nomint_pure_bind; [done|done|]. intros gb _.
  destruct (EncodeMsgPack_Block gb); [|by apply nomint_pure].
  apply (nomint_read _ _ _ l1); [done|].
  destruct (l_databases l1 !! _); [by apply nomint_pure|].
  apply nomint_bind; [by apply nomint_newAccount|]. intros _ l2 _ Hl2.
  apply nomint_bind; [by apply nomint_setDatabase|]. intros _ l3 _ Hl3.
  by apply nomint_delProviders.
Qed.

Lemma nomint_matchProviders tx l :
  wf_ledger l → is_u64 (cd_AdvancePayment (tx_Header tx)) →
  nomint_at l (L_matchProvidersWithUser tx).
Proof.
  intros Hl Ha. unfold L_matchProvidersWithUser.
  destruct (PubKeyHash _) as [sender| |]; [|by apply nomint_pure..].
  do 4 (case_decide; [by apply nomint_pure|]).
  apply (nomint_read _ _ _ l); [done|].
  destruct (targetLoop _ _ _ _ _ _ _) as [[ms err]|]; [|by apply nomint_pure].
  case_decide; [case_decide|].
  - destruct (Wrap err); by apply nomint_pure.
  - apply nomint_pure_bind; [done|done|]. intros ms' _.
    apply nomint_createMatched; [done|apply minDeposit_u64|done].
  - apply nomint_createMatched; [done|apply minDeposit_u64|done].
Qed.

Lemma nomint_updatePermission tx l : wf_ledger l → nomint_at l (L_updatePermission tx).
Proof.
  intros Hl. unfold L_updatePermission.
  destruct (PubKeyHash _) as [sender| |]; [|by apply nomint_pure..].
  apply nomint_pure_bind; [done|reads|]. intros p _.
  destruct (permissionScan _ _ _ _ _ _) as [[]|]; [|by apply nomint_pure].
  destruct (_ && _ && _); [by apply nomint_pure|by apply nomint_setDatabase].
Qed.

Lemma nomint_updateKeys tx l : wf_ledger l → nomint_at l (L_updateKeys tx).
Proof.
  intros Hl. unfold L_updateKeys. apply nomint_pure_bind; [done|reads|]. intros p _.
  destruct (findUser _ _); [destruct (negb _)|]; by apply nomint_pure.
Qed.

Lemma nomint_updateBilling tx l : wf_ledger l → nomint_at l (L_updateBilling tx).
Proof.
  intros Hl. unfold L_updateBilling. apply nomint_pure_bind; [done|reads|]. intros p _.
  do 2 (case_decide; [by apply nomint_pure|]).
  destruct (negb _); [by apply nomint_pure|by apply nomint_setDatabase].
Qed.

Lemma nomint_transferSQLChain tx l :
  wf_ledger l → is_u64 (tr_Amount (tx_Header tx)) → nomint_at l (L_transferSQLChainTokenBalance tx).
Proof.
  intros Hl Hx. unfold L_transferSQLChainTokenBalance.
  destruct (hsv_Signee _) as [k|]; [|by apply nomint_pure].
  apply nomint_pure_bind; [done|apply checkSender_pure|]. intros _ _.
  apply nomint_pure_bind; [done|reads|]. intros p _.
  case_decide; [by apply nomint_pure|]. apply (nomint_read _ _ _ l); [done|].
  destruct (l_accounts l !! _) as [a|] eqn:Ha; [|by apply nomint_pure].
  apply (nomint_read _ _ _ a); [done|].
  destruct (balanceAt _ _) as [b|] eqn:Hb; [|by apply nomint_pure].
  apply (nomint_read _ _ _ b); [done|]. case_decide as Hlt; [by apply nomint_pure|].
  destruct (list_find _ _) as [[i u]|]; [|by apply nomint_pure].
  apply nomint_pure_bind; [done|done|]. intros [u' ms'] _.
  apply nomint_bind; [by apply nomint_setDatabase|]. intros [] l2 [= <-] Hl2.
  pose proof (wf_balance _ _ _ _ _ Hl Ha Hb) as Hbu.
  assert (is_u64 (b - tr_Amount (tx_Header tx))) as Hu.
  { destruct Hbu, Hx. split; [|]; lia. }
  rewrite (u64_id _ Hu). split; cbn [modifyS snd]; [by eapply wf_setBalance|].
  intros t. erewrite total_withBalance; [|done..].
  change (total t (L_setDatabase ?k ?p l)) with (total t l). destruct Hx. case_decide; lia.
Qed.
End handlers.

(** A base account, possibly wrapped. *)
Fixpoint isBaseAccount `{Env} (t : Transaction) : bool :=
  match t with
  | TxBaseAccount _ _ => true
  | TxWrapper t => isBaseAccount t
  | _ => false
  end.

Section apply.
Context `{Env}.

Lemma nomint_transferAccountToken tx l :
  wf_ledger l → is_u64 (tr_Amount (tx_Header tx)) → nomint_at l (L_transferAccountToken tx).
Proof.
  intros Hl Hx. unfold L_transferAccountToken.
  apply nomint_pure_bind; [done|apply checkSender_pure|]. intros _ _.
  unfold nomint_at. destruct (L_moveTokens _ _ _ _ l) as [r l'] eqn:Hm.
  split; [|intros t]; destruct (L_moveTokens_total Particle _ _ _ _ _ _ _ Hl Hx Hm) as [Hwf _];
    [done|]. cbn. destruct (L_moveTokens_total t _ _ _ _ _ _ _ Hl Hx Hm). lia.
Qed.

Lemma nomint_applyTransaction tx h l :
  wf_ledger l → wf_tx tx → isBaseAccount tx = false → nomint_at l (L_applyTransaction tx h).
Proof.
  intros Hl. induction tx as [t|a m|t|t|t|t|t|t IH|]; intros Ht Hb; cbn in *.
  - apply nomint_bind; [by apply nomint_attempt, nomint_transferSQLChain|].
    intros [e|u] l' _ Hl'; [|by apply nomint_pure].
    case_decide; [by apply nomint_transferAccountToken|by apply nomint_pure].
  - done.
  - by apply nomint_updateProviderList.
  - by apply nomint_matchProviders.
  - by apply nomint_updatePermission.
  - by apply nomint_updateKeys.
  - by apply nomint_updateBilling.
  - by apply IH.
  - by apply nomint_pure.
Qed.

Lemma nomint_increaseNonce k l : wf_ledger l → nomint_at l (L_increaseNonce k).
Proof.
  intros Hl. apply nomint_pure_bind; [done|reads|]. intros a Ha.
  unfold L_getAccount in Ha. go_unfold in Ha.
  destruct (l_accounts l !! k) as [a0|] eqn:Hk; [|done]. injection Ha as ->.
  destruct (wfl_accounts _ Hl _ _ Hk). split; cbn [modifyS snd].
  { apply wf_L_setAccount; [done|]. split; [done..|apply u32_range]. }
  intros t. unfold total. rewrite deposits_setAccount. unfold supply. cbn [L_setAccount l_accounts].
  rewrite msum_insert, Hk. cbn. unfold balance at 2. cbn. fold (balance t a). lia.
Qed.

Lemma nomint_apply t h l :
  wf_ledger l → wf_tx t → isBaseAccount t = false → nomint_at l (L_apply t h).
Proof.
  intros Hl Ht Hb. apply nomint_pure_bind; [done| |].
  { unfold L_expectedNonce. go_unfold. destruct (l_accounts l !! _); [done|]. by case_decide. }
  intros n _. case_decide; [by apply nomint_pure|].
  apply nomint_bind; [by apply nomint_applyTransaction|]. intros _ l' _ Hl'.
  by apply nomint_increaseNonce.
Qed.
End apply.

(** ** Properties *)

(** Checked arithmetic on [uint64]: [safeAdd] gives the exact sum and fails
    exactly when it does not fit in 64 bits; [safeSub] gives the exact difference
    and fails exactly when it would be negative. *)
Theorem safe_arith_spec x y : is_u64 x → is_u64 y →
  safeAdd x y = (if decide (x + y < two64) then Ok (x + y) else Err ErrBalanceOverflow) ∧
  safeSub x y = (if decide (y <= x) then Ok (x - y) else Err ErrInsufficientBalance).
Proof.
  intros Hx Hy. unfold safeAdd, safeSub. split.
  - pose proof (u64_add_overflow _ _ Hx Hy). repeat case_decide; [lia|done| |lia].
    f_equal. apply u64_id. unfold is_u64 in *. lia.
  - repeat case_decide; [lia|done| |lia]. f_equal. apply u64_id. unfold is_u64 in *. lia.
Qed.

Lemma safe_arith_spec_witness :
  safeAdd (two64 - 1) 1 = Err ErrBalanceOverflow ∧ safeSub 5 2 = Ok 3 ∧ safeAdd 1 2 = Ok 3.
Proof.
  split; [apply (safe_arith_spec (two64 - 1) 1); done|].
  split; [apply (safe_arith_spec 5 2); done|apply (safe_arith_spec 1 2); done].
Defined.

(** A transfer between accounts conserves every token: whatever
    [transferAccountToken] returns, success, error or panic, the tokens in the
    accounts and provider deposits of the final state add up to those of the
    initial one. *)
Theorem transferAccountToken_conserves `{Env} tx s t : 
  wf_state s → is_u64 (tr_Amount (tx_Header tx)) →
  total t (view (transferAccountToken tx s).2) = total t (view s).
Proof.
  intros Hwf Hx. destruct (at_transferAccountToken s tx Hwf) as (r & s' & Hm & Hf & _).
  rewrite Hm. cbn [snd]. unfold L_transferAccountToken in Hf. revert Hf. unfold mbind, gom_bind.
  pose proof (checkSender_pure (hsv_Signee (tx_HSV tx)) (tr_Sender (tx_Header tx)) (view s)) as Hp.
  destruct (L_checkSender _ _ (view s)) as [[]]; cbn [snd] in Hp; subst;
    [|intros Hf%(f_equal snd); cbn [snd] in Hf; by rewrite <- Hf..].
  intros Hf. by eapply L_moveTokens_total; [apply wf_view| |].
Qed.

Lemma transferAccountToken_conserves_witness :
  let tx := signedBy 1 (MkTransferHeader alice carol 5 300 Particle) in
  (transferAccountToken tx sampleState).1 = Ok tt ∧
  total Particle (view (transferAccountToken tx sampleState).2) = total Particle (view sampleState).
Proof.
  split; [vm_compute; reflexivity|].
  apply transferAccountToken_conserves; [apply wf_sampleState|done].
Defined.

(** A transfer that succeeds moves exactly [Amount]: the sender is the signer,
    it had at least the amount, the receiver (created empty if it was missing)
    does not overflow, and these two balances are all that changes. *)
Theorem transferAccountToken_moves `{Env} tx s s' :
  let h := tx_Header tx in
  wf_state s → is_u64 (tr_Amount h) → tr_Sender h ≠ tr_Receiver h → tr_Amount h ≠ 0 →
  transferAccountToken tx s = (Ok tt, s') →
  PubKeyHash (hsv_Signee (tx_HSV tx)) = Ok (tr_Sender h) ∧
  ∃ so ro sb rb,
    accounts s !! tr_Sender h = Some so ∧
    balanceAt (ac_TokenBalance so) (tr_TokenType h) = Some sb ∧
    ro = default (newAccount (tr_Receiver h)) (accounts s !! tr_Receiver h) ∧
    balanceAt (ac_TokenBalance ro) (tr_TokenType h) = Some rb ∧
    tr_Amount h <= sb ∧ rb + tr_Amount h < two64 ∧
    view s' = L_setAccount (tr_Receiver h) (withBalance ro (tr_TokenType h) (rb + tr_Amount h))
                (L_setAccount (tr_Sender h) (withBalance so (tr_TokenType h) (sb - tr_Amount h)) (view s)).
Proof.
  intros h Hwf Hx Hne H0 Hr. destruct (at_transferAccountToken s tx Hwf) as (r & s1 & Hm & Hf & _).
  rewrite Hr in Hm. injection Hm as <- <-. unfold L_transferAccountToken in Hf.
  apply bind_Ok in Hf as ([] & l1 & Hc & Hf). unfold L_checkSender in Hc.
  destruct (PubKeyHash _) as [real| |]; [|done..].
  destruct (decide (real = tr_Sender (tx_Header tx))) as [->|];
    [|by rewrite decide_True in Hc by done].
  rewrite decide_False in Hc by naive_solver. injection Hc as <-. split; [done|].
  by apply L_moveTokens_Ok in Hf; [|apply wf_view|..].
Qed.

Lemma transferAccountToken_moves_witness :
  let tx := signedBy 1 (MkTransferHeader alice carol 5 300 Particle) in
  ∃ s', transferAccountToken tx sampleState = (Ok tt, s') ∧
  PubKeyHash (hsv_Signee (tx_HSV tx)) = Ok alice.
Proof.
  intros tx. eexists. split; [vm_compute; reflexivity|].
  refine (proj1 (transferAccountToken_moves tx sampleState _ wf_sampleState _ _ _ _)).
  - done.
  - by apply (bool_decide_unpack _); vm_compute.
  - done.
  - vm_compute; reflexivity.
Defined.

(** C2: no transaction but a base account creates tokens: whatever [apply]
    returns, each token's total over accounts and provider deposits does not
    grow. *)
Theorem apply_no_mint `{Env} t height s ty :
  wf_state s → wf_tx t → isBaseAccount t = false →
  total ty (view (MetaTx.apply t height s).2) <= total ty (view s).
Proof.
  intros Hwf Ht Hb. destruct (at_apply s t height Hwf Ht) as (r & s' & Hm & Hf & _).
  rewrite Hm. cbn [snd]. destruct (nomint_apply t height (view s)) as [_ Hle]; [by apply wf_view|done..|].
  specialize (Hle ty). by rewrite Hf in Hle.
Qed.

Lemma apply_no_mint_witness :
  (MetaTx.apply (sampleTransfer 5 300 dbHash) 7 sampleState).1 = Ok tt ∧
  total Particle (view (MetaTx.apply (sampleTransfer 5 300 dbHash) 7 sampleState).2)
    <= total Particle (view sampleState).
Proof.
  split; [vm_compute; reflexivity|].
  apply apply_no_mint; [apply wf_sampleState|done|done].
Defined.
