(* ===== verification/Nonce.v ===== *)
(** * Nonces

    Each account's [NextNonce] orders its transactions.  [apply] accepts a
    transaction only with the account's next nonce and, on success, moves the
    nonce on by one ([uint32], with its wrap); so an accepted transaction cannot
    be accepted again, and a transaction refused for its nonce changes nothing. *)
From S2P Require Import Prelude Hash Types MetaState MetaView MetaTx Ledger LedgerRefine Sample Supply.
From Stdlib Require Import String ZArith Lia.
From stdpp Require Import base list gmap strings.
Local Open Scope Z_scope.

Definition nonceOf (l : ledger) (k : AccountAddress) : option Z :=
  ac_NextNonce <$> l_accounts l !! k.

(** No account but [x] loses or changes its nonce. *)
Definition nonces_kept (x : option AccountAddress) (l l' : ledger) : Prop :=
  ∀ k n, x ≠ Some k → nonceOf l k = Some n → nonceOf l' k = Some n.

#[export] Instance nonces_kept_preorder x : PreOrder (nonces_kept x).
Proof. split; [by intros l k|]. intros l1 l2 l3 H1 H2 k n Hk Hn. apply H2; [done|]. by apply H1. Qed.

Lemma nonceOf_setAccount l k j a :
  nonceOf (L_setAccount k a l) j = if decide (k = j) then Some (ac_NextNonce a) else nonceOf l j.
Proof.
  unfold nonceOf. cbn. case_decide; subst; [by rewrite lookup_insert_eq|by rewrite lookup_insert_ne].
Qed.

(** Writing an account back with its nonce. *)
Lemma kept_setAccount x l k a :
  (∀ a0, l_accounts l !! k = Some a0 → ac_NextNonce a = ac_NextNonce a0) →
  nonces_kept x l (L_setAccount k a l).
Proof.
  intros Ha j n _. rewrite nonceOf_setAccount. case_decide as Hk; [subst j|done].
  unfold nonceOf. destruct (l_accounts l !! k) as [a0|]; [|done]. cbn. by rewrite (Ha a0).
Qed.

Lemma kept_withBalance x l k a t b :
  l_accounts l !! k = Some a → nonces_kept x l (L_setAccount k (withBalance a t b) l).
Proof. intros Ha. apply kept_setAccount. intros a0. rewrite Ha. by intros [= <-]. Qed.

(** A statement without effect. *)
Ltac kpure := apply keeps_pure; [apply _|reads].

Section handlers.
Context `{Env} (x : option AccountAddress).
Abbreviation kept := (keeps (E:=error) (nonces_kept x)).

Lemma kept_increase l k amount t : kept l (L_increase k amount t).
Proof.
  unfold keeps, L_increase, L_getAccount. go_unfold.
  destruct (l_accounts l !! k) as [a|] eqn:Ha; [|done]. go_unfold.
  destruct (balanceAt _ _); [|done]. go_unfold. destruct (safeAdd _ _); [|done..].
  by apply kept_withBalance.
Qed.

Lemma kept_decrease l k amount t : kept l (L_decrease k amount t).
Proof.
  unfold keeps, L_decrease, L_getAccount. go_unfold.
  destruct (l_accounts l !! k) as [a|] eqn:Ha; [|done]. go_unfold.
  destruct (balanceAt _ _); [|done]. go_unfold. destruct (safeSub _ _); [|done..].
  by apply kept_withBalance.
Qed.

Lemma kept_setDatabase l k p : kept l (modifyS (L_setDatabase k p)).
Proof. by intros j n. Qed.

Lemma kept_moveTokens l sender receiver amount t : kept l (L_moveTokens sender receiver amount t).
Proof.
  unfold L_moveTokens. destruct (decide _) as [|Hd]; [kpure|].
  apply keeps_bind; [apply _| |].
  { unfold keeps, L_ensureAccount. cbn. destruct (l_accounts l !! receiver) eqn:Hr; [done|].
    apply kept_setAccount. by rewrite Hr. }
  intros _ l1 _. unfold keeps, L_getAccount. go_unfold.
  destruct (l_accounts l1 !! sender) as [so|] eqn:Hs; [|done]. go_unfold.
  destruct (l_accounts l1 !! receiver) as [ro|] eqn:Hr; [|done]. go_unfold.
  do 2 (destruct (balanceAt _ _); [|done]; go_unfold).
  destruct (safeSub _ _) as [sb| |]; [|done..]. destruct (safeAdd _ _); [|done..]. cbn [snd].
  etrans; [apply (kept_withBalance x _ _ _ t sb Hs)|]. apply kept_withBalance. cbn.
  rewrite lookup_insert_ne; [done|]. naive_solver.
Qed.

Lemma kept_updateProviderList tx h l : kept l (L_updateProviderList tx h).
Proof.
  unfold L_updateProviderList. destruct (PubKeyHash _) as [sender| |]; [|kpure..].
  apply keeps_bind; [apply _| |].
  { case_decide; [|kpure]. apply keeps_getS.
    destruct (l_providers l !! sender); [|kpure].
    apply keeps_bind; [apply _|apply kept_increase|]. by intros _ l1 _ j n. }
  intros _ l1 _. apply keeps_bind; [apply _|apply kept_decrease|]. by intros _ l2 _ j n.
Qed.

Lemma kept_except l k a : x = Some k → kept l (modifyS (L_setAccount k a)).
Proof.
  intros -> j n Hj. cbn [modifyS snd]. rewrite nonceOf_setAccount. case_decide; [|done]. by subst j.
Qed.

Lemma kept_delProviders l ms :
  kept l (modifyS (λ l, foldl (λ l (m : MinerInfo), L_delProvider (mi_Address m) l) l ms)).
Proof.
  intros k n _. unfold modifyS, nonceOf. cbn [snd].
  revert l. induction ms as [|m ms IH]; intros l; cbn; [done|]. apply (IH (L_delProvider _ l)).
Qed.

Lemma kept_createMatched tx sender minAdv ms l :
  let h := tx_Header tx in
  (∀ a, AccountAddress_of (FromAccountAndNonce (cd_Owner h) (u32 (cd_Nonce h))) = Ok a → x = Some a) →
  kept l (L_createMatched tx sender minAdv ms).
Proof.
  intros h Hx. unfold L_createMatched. fold h.
  apply keeps_pure_bind; [apply _|done|]. intros dbAddr Ha.
  apply keeps_pure_bind; [apply _|done|]. intros all _.
  apply keeps_bind; [apply _|apply kept_decrease|]. intros _ l1 _.
  apply keeps_pure_bind; [apply _|done|]. intros gb _.
  destruct (EncodeMsgPack_Block gb); [|kpure].
  apply keeps_getS. destruct (l_databases l1 !! _); [kpure|].
  assert (x = Some dbAddr) as Hdb by exact (Hx _ (liftHash_Ok _ _ (liftR_Ok _ _ _ _ Ha))).
  apply keeps_bind; [apply _|by apply kept_except|]. intros _ l2 _.
  apply keeps_bind; [apply _|apply kept_setDatabase|]. intros _ l3 _.
  apply kept_delProviders.
Qed.

Lemma kept_matchProviders tx l :
  let h := tx_Header tx in
  (∀ a, AccountAddress_of (FromAccountAndNonce (cd_Owner h) (u32 (cd_Nonce h))) = Ok a → x = Some a) →
  kept l (L_matchProvidersWithUser tx).
Proof.
  intros h Hx. unfold L_matchProvidersWithUser. destruct (PubKeyHash _) as [sender| |]; [|kpure..].
  do 4 (case_decide; [kpure|]). apply keeps_getS.
  destruct (targetLoop _ _ _ _ _ _ _) as [[ms err]|]; [|kpure].
  case_decide; [case_decide|].
  - destruct (Wrap err); kpure.
  - apply keeps_pure_bind; [apply _|done|]. intros ms' _. by apply kept_createMatched.
  - by apply kept_createMatched.
Qed.

Lemma kept_updatePermission tx l : kept l (L_updatePermission tx).
Proof.
  unfold L_updatePermission. destruct (PubKeyHash _) as [sender| |]; [|kpure..].
  apply keeps_pure_bind; [apply _|reads|]. intros p _.
  destruct (permissionScan _ _ _ _ _ _) as [[]|]; [|kpure].
  destruct (_ && _ && _); [kpure|apply kept_setDatabase].
Qed.

Lemma kept_updateKeys tx l : kept l (L_updateKeys tx).
Proof.
  apply keeps_pure_bind; [apply _|reads|]. intros p _.
  destruct (findUser _ _); [destruct (negb _)|]; kpure.
Qed.

Lemma kept_updateBilling tx l : kept l (L_updateBilling tx).
Proof.
  apply keeps_pure_bind; [apply _|reads|]. intros p _. do 2 (case_decide; [kpure|]).
  destruct (negb _); [kpure|apply kept_setDatabase].
Qed.

Lemma kept_transferSQLChain tx l : kept l (L_transferSQLChainTokenBalance tx).
Proof.
  unfold L_transferSQLChainTokenBalance. destruct (hsv_Signee _) as [k|]; [|kpure].
  apply keeps_pure_bind; [apply _|apply checkSender_pure|]. intros _ _.
  apply keeps_pure_bind; [apply _|reads|]. intros p _.
  case_decide; [kpure|]. apply keeps_getS.
  destruct (l_accounts l !! _) as [a|] eqn:Ha; [|kpure].
  apply keeps_pure_bind; [apply _|reads|]. intros ? [= <-].
  apply keeps_pure_bind; [apply _|reads|]. intros b _. case_decide; [kpure|].
  destruct (list_find _ _) as [[i u]|]; [|kpure].
  apply keeps_pure_bind; [apply _|reads|]. intros [u' ms'] _.
  apply keeps_bind; [apply _|apply kept_setDatabase|]. intros [] l2 [= <-].
  by apply kept_withBalance.
Qed.
End handlers.

(** The account a transaction creates for its database, which starts at nonce 0. *)
Fixpoint newDatabaseAddress `{Env} (t : Transaction) : option AccountAddress :=
  match t with
  | TxCreateDatabase t =>
      match AccountAddress_of (FromAccountAndNonce (cd_Owner (tx_Header t)) (u32 (cd_Nonce (tx_Header t)))) with
      | Ok a => Some a
      | _ => None
      end
  | TxWrapper t => newDatabaseAddress t
  | _ => None
  end.

(** The account object a (wrapped) base account carries. *)
Fixpoint baseAccount `{Env} (t : Transaction) : option Account :=
  match t with
  | TxBaseAccount a _ => Some a
  | TxWrapper t => baseAccount t
  | _ => None
  end.

Section apply.
Context `{Env}.

Lemma kept_applyTransaction t h l :
  baseAccount t = None → keeps (nonces_kept (newDatabaseAddress t)) l (L_applyTransaction t h).
Proof.
  induction t as [t|a m|t|t|t|t|t|t IH|]; intros Hb; cbn [L_applyTransaction].
  - apply keeps_bind; [apply _|apply keeps_attempt, kept_transferSQLChain|].
    intros [e|u] l' _; [|kpure]. case_decide; [|kpure].
    apply keeps_pure_bind; [apply _|apply checkSender_pure|]. intros _ _. apply kept_moveTokens.
  - done.
  - apply kept_updateProviderList.
  - apply kept_matchProviders. intros a Ha. cbn [newDatabaseAddress]. by rewrite Ha.
  - apply kept_updatePermission.
  - apply kept_updateKeys.
  - apply kept_updateBilling.
  - by apply IH.
  - kpure.
Qed.

(** Storing a base account leaves its owner at nonce 0 or at the nonce given. *)
Lemma baseAccount_nonce t h a l l' :
  baseAccount t = Some a → L_applyTransaction t h l = (Ok tt, l') →
  nonceOf l' (GetAccountAddress t) = Some 0 ∨ nonceOf l' (GetAccountAddress t) = Some (ac_NextNonce a).
Proof.
  induction t as [t|a0 m|t|t|t|t|t|t IH|]; intros Hb; try done; cbn [L_applyTransaction GetAccountAddress].
  - injection Hb as ->. unfold L_storeBaseAccount. go_unfold.
    destruct (l_accounts l !! ac_Address a) as [ao|]; cycle 1.
    { intros [= <-]. right. by rewrite nonceOf_setAccount, decide_True. }
    case_decide as Hn; [done|]. intros Hs.
    repeat (destruct (balanceAt _ _); [|done]; go_unfold in Hs).
    do 2 (destruct (safeAdd _ _); [|done..]). injection Hs as <-.
    left. rewrite nonceOf_setAccount, decide_True by done. cbn. f_equal. lia.
  - by apply IH.
Qed.

(** The shape of a successful [apply]. *)
Lemma L_apply_Ok t h l l' :
  L_apply t h l = (Ok tt, l') →
  ∃ l1 n, L_applyTransaction t h l = (Ok tt, l1) ∧
    (nonceOf l (GetAccountAddress t) = Some (GetAccountNonce t) ∨
     (nonceOf l (GetAccountAddress t) = None ∧ GetAccountNonce t = 0 ∧
      GetTransactionType t = TransactionTypeBaseAccount)) ∧
    nonceOf l1 (GetAccountAddress t) = Some n ∧
    nonceOf l' (GetAccountAddress t) = Some (u32 (n + 1)).
Proof.
  intros Ha. apply bind_Ok in Ha as (n & l0 & Hn & Ha).
  assert (l0 = l ∧ (nonceOf l (GetAccountAddress t) = Some n ∨
    (nonceOf l (GetAccountAddress t) = None ∧ n = 0 ∧ GetTransactionType t = TransactionTypeBaseAccount)))
    as [-> Hexp].
  { unfold L_expectedNonce in Hn. go_unfold in Hn. unfold nonceOf.
    destruct (l_accounts l !! GetAccountAddress t) as [a|]; go_unfold in Hn; [injection Hn as <- <-; auto|].
    destruct (decide (GetTransactionType t ≠ _)) as [|Ht]; [done|]. injection Hn as <- <-.
    split; [done|]. right. split_and!; [done|done|]. by apply dec_stable. }
  destruct (decide (n = GetAccountNonce t)) as [->|]; [|by rewrite decide_True in Ha by done].
  rewrite decide_False in Ha by auto. apply bind_Ok in Ha as ([] & l1 & Hl1 & Ha).
  unfold L_increaseNonce, L_getAccount in Ha. go_unfold in Ha.
  destruct (l_accounts l1 !! GetAccountAddress t) as [a|] eqn:Hk; [|done]. injection Ha as <-.
  exists l1, (ac_NextNonce a). split_and!; [done|naive_solver| |].
  - unfold nonceOf. by rewrite Hk.
  - by rewrite nonceOf_setAccount, decide_True.
Qed.

Lemma L_apply_badNonce t h l n :
  nonceOf l (GetAccountAddress t) = Some n → n ≠ GetAccountNonce t →
  L_apply t h l = (Err ErrInvalidAccountNonce, l).
Proof.
  unfold nonceOf, L_apply, L_expectedNonce. intros Hn Hne. go_unfold.
  destruct (l_accounts l !! GetAccountAddress t) as [a|]; [|done]. injection Hn as ->. by rewrite decide_True.
Qed.
End apply.

(** What a transaction must satisfy for its nonce to be single use: the account
    it creates is not the sender's own, and a base account does not come with
    the nonce that wraps to zero. *)
Definition single_use `{Env} (t : Transaction) : Prop :=
  match baseAccount t with
  | Some a => u32 (ac_NextNonce a + 1) ≠ 0
  | None => newDatabaseAddress t ≠ Some (GetAccountAddress t) ∧
            GetTransactionType t ≠ TransactionTypeBaseAccount
  end.

Section properties.
Context `{Env}.

Lemma baseAccount_zero t a : baseAccount t = Some a → GetAccountNonce t = 0.
Proof. induction t; cbn; auto; done. Qed.

(** The nonces around a successful transaction that is not a base account. *)
Lemma L_apply_nonces t h l l' :
  baseAccount t = None → single_use t → L_apply t h l = (Ok tt, l') →
  nonceOf l (GetAccountAddress t) = Some (GetAccountNonce t) ∧
  nonceOf l' (GetAccountAddress t) = Some (u32 (GetAccountNonce t + 1)).
Proof.
  intros Hb Hs Ha. unfold single_use in Hs. rewrite Hb in Hs. destruct Hs as [Hnew Hty].
  apply L_apply_Ok in Ha as (l1 & n & Ht & [Hn|(_ & _ & ?)] & Hn1 & Hn'); [|done].
  pose proof (kept_applyTransaction t h l Hb) as Hk. unfold keeps in Hk. rewrite Ht in Hk.
  specialize (Hk _ _ Hnew Hn). cbn [snd] in Hk. rewrite Hk in Hn1. by injection Hn1 as <-.
Qed.

Lemma single_use_next t h l l' :
  (∀ k n, nonceOf l k = Some n → is_u32 n) → single_use t → L_apply t h l = (Ok tt, l') →
  ∃ n, nonceOf l' (GetAccountAddress t) = Some n ∧ n ≠ GetAccountNonce t.
Proof.
  intros Hu Hs Ha. destruct (baseAccount t) as [a|] eqn:Hb.
  - unfold single_use in Hs. rewrite Hb in Hs.
    apply L_apply_Ok in Ha as (l1 & n & Ht & _ & Hn1 & Hn'). rewrite (baseAccount_zero _ _ Hb).
    eexists. split; [done|].
    destruct (baseAccount_nonce _ _ _ _ _ Hb Ht) as [H0|H0]; rewrite H0 in Hn1; by injection Hn1 as <-.
  - destruct (L_apply_nonces _ _ _ _ Hb Hs Ha) as [Hn Hn']. eexists. split; [done|].
    apply u32_succ_ne. by eapply Hu.
Qed.
End properties.

Lemma nonces_u32 s k n : wf_state s → nonceOf (view s) k = Some n → is_u32 n.
Proof.
  unfold nonceOf. cbn. intros Hwf. destruct (accounts s !! k) as [a|] eqn:Ha; [|done].
  intros [= <-]. by destruct (wf_lookup_account _ _ _ Hwf Ha).
Qed.

(** A transaction that [apply] accepts carried the sender's next nonce, and the
    sender's next nonce afterwards is one more, with the [uint32] wrap. *)
Theorem apply_advances_nonce `{Env} t height s s' :
  wf_state s → wf_tx t → baseAccount t = None → single_use t →
  MetaTx.apply t height s = (Ok tt, s') →
  (∃ a, accounts s !! GetAccountAddress t = Some a ∧ ac_NextNonce a = GetAccountNonce t) ∧
  (∃ a', accounts s' !! GetAccountAddress t = Some a' ∧ ac_NextNonce a' = u32 (GetAccountNonce t + 1)).
Proof.
  intros Hwf Ht Hb Hs Ha. destruct (at_apply s t height Hwf Ht) as (r & s1 & Hm & Hf & _).
  rewrite Ha in Hm. injection Hm as <- <-.
  destruct (L_apply_nonces _ _ _ _ Hb Hs Hf) as [Hn Hn']. unfold nonceOf in Hn, Hn'.
  apply fmap_Some in Hn as (a & ? & ?). apply fmap_Some in Hn' as (a' & ? & ?).
  split; [by exists a|by exists a'].
Qed.

Lemma apply_advances_nonce_witness : ∃ s',
  MetaTx.apply (sampleTransfer 5 300 carol) 7 sampleState = (Ok tt, s') ∧
  ∃ a', accounts s' !! alice = Some a' ∧ ac_NextNonce a' = 6.
Proof.
  eexists. split; [vm_compute; reflexivity|].
  refine (proj2 (apply_advances_nonce (sampleTransfer 5 300 carol) 7 sampleState _ wf_sampleState _ _ _ _)).
  - done.
  - done.
  - done.
  - vm_compute; reflexivity.
Defined.

(** C3: no replay: a transaction accepted once is refused with
    [ErrInvalidAccountNonce] when it is applied again, at any height, and the
    refused attempt leaves the accounts, databases and providers as they are.
    [single_use] leaves out three kinds of transactions: a base account whose given
    next nonce is the largest one, 2^32 - 1, which wraps to zero and really can be
    applied again ([base_account_replays]); the creation of a database whose address
    is the sender's own; and a transaction that carries the type of a base account
    without being one. *)
Theorem apply_no_replay `{Env} t height height' s s' :
  wf_state s → wf_tx t → single_use t → MetaTx.apply t height s = (Ok tt, s') →
  (MetaTx.apply t height' s').1 = Err ErrInvalidAccountNonce ∧
  view (MetaTx.apply t height' s').2 = view s'.
Proof.
  intros Hwf Ht Hs Ha. destruct (at_apply s t height Hwf Ht) as (r & s1 & Hm & Hf & Hwf' & _).
  rewrite Ha in Hm. injection Hm as <- <-.
  destruct (single_use_next t height (view s) (view s')) as (n & Hn & Hne); [|done..|].
  { intros k n. by apply nonces_u32. }
  destruct (at_apply s' t height' Hwf' Ht) as (r & s2 & Hm & Hf' & _).
  rewrite (L_apply_badNonce _ _ _ _ Hn Hne) in Hf'. rewrite Hm.
  apply pair_equal_spec in Hf' as [<- Hv]. cbn [fst snd]. by rewrite <- Hv.
Qed.

Lemma apply_no_replay_witness : ∃ s',
  MetaTx.apply (sampleTransfer 5 300 carol) 7 sampleState = (Ok tt, s') ∧
  (MetaTx.apply (sampleTransfer 5 300 carol) 8 s').1 = Err ErrInvalidAccountNonce.
Proof.
  eexists. split; [vm_compute; reflexivity|].
  refine (proj1 (apply_no_replay (sampleTransfer 5 300 carol) 7 8 sampleState _ wf_sampleState _ _ _)).
  - done.
  - done.
  - vm_compute; reflexivity.
Defined.

(** A base account with the largest nonce is accepted again and again, and adds its
    balances each time. *)
Definition wrappingAccount : Transaction :=
  TxBaseAccount (MkAccount (addr 9) (replicate (Z.to_nat SupportTokenNumber) 10) (ac_Rating (newAccount (addr 9))) (two32 - 1))
    (MkMixin TransactionTypeBaseAccount 0).
Lemma base_account_replays :
  let '(r1, s1) := MetaTx.apply wrappingAccount 7 sampleState in
  let '(r2, s2) := MetaTx.apply wrappingAccount 8 s1 in
  r1 = Ok tt ∧ r2 = Ok tt ∧
  ac_TokenBalance <$> accounts s1 !! addr 9 = Some (replicate (Z.to_nat SupportTokenNumber) 10) ∧
  ac_TokenBalance <$> accounts s2 !! addr 9 = Some (replicate (Z.to_nat SupportTokenNumber) 20).
Proof. vm_compute. auto. Qed.
