(* ===== verification/Permission.v ===== *)
(** * Permissions and keys of a database

    Who may change the users of a database, and what [updatePermission] and
    [updateKeys] do. *)
From S2P Require Import Prelude Hash Types MetaState MetaView MetaTx Ledger LedgerRefine Sample.
From Stdlib Require Import String ZArith Lia.
From stdpp Require Import base list gmap strings.
Local Open Scope Z_scope.

(** The super users of a database. *)
Definition isSuper (u : SQLChainUser) : Prop := HasSuperPermission (su_Permission u) = true.
Definition superUsers (us : list SQLChainUser) : nat :=
  length (filter isSuper us).

Lemma superUsers_app us vs : superUsers (us ++ vs) = (superUsers us + superUsers vs)%nat.
Proof. unfold superUsers. by rewrite filter_app, length_app. Qed.

Lemma superUsers_cons u us :
  superUsers (u :: us) = ((if HasSuperPermission (su_Permission u) then 1 else 0) + superUsers us)%nat.
Proof.
  unfold superUsers. rewrite filter_cons. unfold isSuper.
  destruct (HasSuperPermission (su_Permission u)); by case_decide.
Qed.

(** [permissionScan] succeeds when every entry of the sender is a super user; it
    returns the number of super users and the position of an entry of the target. *)
Lemma permissionScan_spec sender target i us n idx k j :
  permissionScan sender target i us n idx = Some (k, j) →
  k = (n + superUsers us)%nat ∧ Forall (λ u, su_Address u = sender → isSuper u) us ∧
  match j with
  | None => idx = None ∧ Forall (λ u, su_Address u ≠ target) us
  | Some x => idx = Some x ∨ ∃ u, (i <= x)%nat ∧ us !! (x - i)%nat = Some u ∧ su_Address u = target
  end.
Proof.
  revert i n idx. induction us as [|u us IH]; intros i n idx; cbn [permissionScan].
  { intros [= <- <-]. split; [unfold superUsers; cbn; lia|]. split; [done|]. destruct idx; auto. }
  destruct (bool_decide (sender = su_Address u) && negb (HasSuperPermission (su_Permission u))) eqn:Hc;
    [done|]. intros (Hk & Hf & Hj)%IH. rewrite superUsers_cons. split.
  { rewrite Hk. destruct (HasSuperPermission _); lia. }
  split.
  { constructor; [|done]. intros Ha. rewrite bool_decide_true in Hc by done. unfold isSuper.
    by destruct (HasSuperPermission (su_Permission u)). }
  destruct j as [x|].
  - destruct Hj as [Hj|(v & Hi & Hv & Ha)].
    + case_decide as Ht; [|by left]. injection Hj as <-. right. exists u.
      rewrite Nat.sub_diag. done.
    + right. exists v. split; [lia|]. split; [|done]. by replace (x - i)%nat with (S (x - S i)) by lia.
  - destruct Hj as [Hj Hf']. case_decide; [done|]. split; [done|]. constructor; [|done]. auto.
Qed.

Lemma superUsers_alter us i perm u :
  us !! i = Some u →
  (superUsers us <= S (superUsers (alter (λ u, set_Permission u perm) i us)))%nat ∧
  (HasSuperPermission perm = true ∨ ¬ isSuper u →
   superUsers us <= superUsers (alter (λ u, set_Permission u perm) i us))%nat ∧
  (HasSuperPermission perm = true → 1 <= superUsers (alter (λ u, set_Permission u perm) i us))%nat.
Proof.
  revert i. induction us as [|v us IH]; intros [|i] Hi; try done.
  - injection Hi as ->. change (alter ?f 0%nat (u :: us)) with (f u :: us).
    rewrite !superUsers_cons. cbn. unfold isSuper.
    destruct (HasSuperPermission (su_Permission u)), (HasSuperPermission perm);
      split_and!; try lia; naive_solver lia.
  - change (alter ?f (S i) (v :: us)) with (v :: alter f i us).
    rewrite !superUsers_cons. destruct (IH i Hi) as (H1 & H2 & H3). split_and!; [lia|..]; intros H.
    + specialize (H2 H). lia.
    + specialize (H3 H). lia.
Qed.

Lemma superUsers_pos u us : u ∈ us → isSuper u → (1 <= superUsers us)%nat.
Proof.
  intros Hu Hs. unfold superUsers.
  assert (u ∈ filter isSuper us) as Hf by (by apply list_elem_of_filter).
  destruct (filter isSuper us); [by apply not_elem_of_nil in Hf|cbn; lia].
Qed.

(** The sender's own entry survives a change of someone else's. *)
Lemma sender_survives (us : list SQLChainUser) (i : nat) perm u v target :
  us !! i = Some v → su_Address v = target → u ∈ us → su_Address u ≠ target →
  u ∈ alter (λ u, set_Permission u perm) i us.
Proof.
  intros Hi Hv Hu Hne. apply list_elem_of_lookup in Hu as [j Hj]. apply list_elem_of_lookup.
  exists j. rewrite list_lookup_alter_ne; [done|]. naive_solver.
Qed.

Lemma setPermission_super sender target us perm k idx u :
  permissionScan sender target 0 us 0 None = Some (k, idx) →
  u ∈ us → su_Address u = sender →
  ((k <= 1)%nat → target = sender → HasSuperPermission perm = true) →
  isSuper u ∧ (1 <= superUsers (setPermission us target perm idx))%nat.
Proof.
  intros (Hk & Hf & Hj)%permissionScan_spec Hu Ha Hok. cbn in Hk. subst k.
  rewrite Forall_forall in Hf. pose proof (Hf u Hu Ha) as Hs. split; [done|].
  unfold setPermission. destruct idx as [i|].
  - destruct Hj as [|(v & _ & Hv & Hvt)]; [done|]. rewrite Nat.sub_0_r in Hv.
    destruct (superUsers_alter us i perm v Hv) as (H1 & _ & H3).
    destruct (decide (target = sender)) as [->|Hne].
    + destruct (decide (superUsers us <= 1)%nat) as [Hle|]; [by apply H3, Hok|lia].
    + apply (superUsers_pos u); [|done]. eapply sender_survives; [done..|congruence].
  - rewrite superUsers_app. pose proof (superUsers_pos u us Hu Hs). lia.
Qed.

(** When a user of the database changes permissions and succeeds, that user was
    a super user, and the database still has a super user afterwards. *)
Theorem updatePermission_keeps_super `{Env} tx s s' sender p u :
  let h := tx_Header tx in
  wf_state s → PubKeyHash (hsv_Signee (tx_HSV tx)) = Ok sender →
  databases s !! DatabaseID_of (upd_TargetSQLChain h) = Some p →
  u ∈ sp_Users p → su_Address u = sender →
  updatePermission tx s = (Ok tt, s') →
  isSuper u ∧
  ∃ p', databases s' !! DatabaseID_of (upd_TargetSQLChain h) = Some p' ∧ (1 <= superUsers (sp_Users p'))%nat.
Proof.
  intros h Hwf Hpk Hp Hu Ha Hrun. unfold updatePermission in Hrun. rewrite Hpk in Hrun. fold h in Hrun.
  go_unfold in Hrun. rewrite (load_database _ _ Hwf), Hp in Hrun. go_unfold in Hrun.
  destruct (permissionScan sender (upd_TargetUser h) 0 (sp_Users p) 0 None) as [[k idx]|] eqn:Hs; [|done].
  destruct (bool_decide (k <= 1)%nat && bool_decide (upd_TargetUser h = sender) &&
            negb (HasSuperPermission (upd_Permission h))) eqn:Hc; [done|].
  injection Hrun as <-. rewrite databases_set_dirty, lookup_insert_eq.
  destruct (setPermission_super _ _ _ (upd_Permission h) _ _ _ Hs Hu Ha) as [H1 H2].
  { intros Hk Ht. rewrite !bool_decide_true in Hc by done. cbn in Hc.
    by destruct (HasSuperPermission (upd_Permission h)). }
  split; [done|]. eauto.
Qed.

Definition demote : Signed UpdatePermissionHeader :=
  signedBy 1 (MkUpdatePermissionHeader dbHash bob (UserPermissionFromRole Admin) 5).

Lemma updatePermission_keeps_super_witness : ∃ s',
  updatePermission demote sampleState = (Ok tt, s') ∧ isSuper (sampleUser alice Admin) ∧
  ∃ p', databases s' !! dbName = Some p' ∧ (1 <= superUsers (sp_Users p'))%nat.
Proof.
  eexists. split; [vm_compute; reflexivity|].
  refine (updatePermission_keeps_super demote sampleState _ alice sampleProfile (sampleUser alice Admin)
            wf_sampleState _ _ _ _ _).
  - vm_compute; reflexivity.
  - vm_compute; reflexivity.
  - left.
  - reflexivity.
  - vm_compute; reflexivity.
Defined.

(** The check says nothing about senders that are not users of the database:
    an outsider's change of another account's permission always goes through and
    sets the target's permission. *)
Theorem updatePermission_outsider `{Env} tx s sender p :
  let h := tx_Header tx in
  wf_state s → PubKeyHash (hsv_Signee (tx_HSV tx)) = Ok sender →
  databases s !! DatabaseID_of (upd_TargetSQLChain h) = Some p →
  Forall (λ u, su_Address u ≠ sender) (sp_Users p) → upd_TargetUser h ≠ sender →
  ∃ s' p' u, updatePermission tx s = (Ok tt, s') ∧
    databases s' !! DatabaseID_of (upd_TargetSQLChain h) = Some p' ∧
    u ∈ sp_Users p' ∧ su_Address u = upd_TargetUser h ∧ su_Permission u = upd_Permission h.
Proof.
  intros h Hwf Hpk Hp Hf Hne.
  assert (∀ us i n idx, Forall (λ u, su_Address u ≠ sender) us →
    ∃ k j, permissionScan sender (upd_TargetUser h) i us n idx = Some (k, j)) as Hscan.
  { clear. induction us as [|u us IH]; intros i n idx Hus; cbn; [eauto|].
    apply Forall_cons in Hus as [Hu Hus]. rewrite bool_decide_false by auto. cbn. by apply IH. }
  destruct (Hscan (sp_Users p) 0%nat 0%nat None Hf) as (k & j & Hs).
  exists (set_dirty_database (DatabaseID_of (upd_TargetSQLChain h))
    (Some (set_Users p (setPermission (sp_Users p) (upd_TargetUser h) (upd_Permission h) j))) s).
  pose proof (permissionScan_spec _ _ _ _ _ _ _ _ Hs) as (_ & _ & Hj).
  unfold updatePermission. rewrite Hpk. fold h. go_unfold. rewrite (load_database _ _ Hwf), Hp. go_unfold.
  rewrite Hs, (bool_decide_false (upd_TargetUser h = sender)) by done. rewrite andb_false_r. cbn [andb].
  rewrite databases_set_dirty, lookup_insert_eq.
  destruct j as [i|]; cbn [setPermission].
  - destruct Hj as [|(v & _ & Hv & Hvt)]; [done|]. rewrite Nat.sub_0_r in Hv.
    eexists _, (set_Permission v (upd_Permission h)). split_and!; [done..| |done|done]. cbn.
    apply list_elem_of_lookup. exists i. by rewrite list_lookup_alter_eq, Hv.
  - eexists _, (MkSQLChainUser (upd_TargetUser h) (upd_Permission h) 0 0 0 UnknownStatus).
    split_and!; [done..| |done|done]. cbn. apply elem_of_app. right. left.
Qed.

Definition takeover : Signed UpdatePermissionHeader :=
  signedBy 3 (MkUpdatePermissionHeader dbHash alice (UserPermissionFromRole Void) 0).

Lemma updatePermission_outsider_witness : ∃ s' p' u,
  updatePermission takeover sampleState = (Ok tt, s') ∧ databases s' !! dbName = Some p' ∧
  u ∈ sp_Users p' ∧ su_Address u = alice ∧ su_Permission u = UserPermissionFromRole Void.
Proof.
  refine (updatePermission_outsider takeover sampleState carol sampleProfile wf_sampleState _ _ _ _).
  - vm_compute; reflexivity.
  - vm_compute; reflexivity.
  - apply (bool_decide_unpack _). vm_compute. exact I.
  - by apply (bool_decide_unpack _); vm_compute.
Defined.

(** [updateKeys] has no effect: whatever it returns, the meta state is the one
    it started from. *)
Theorem updateKeys_no_effect `{Env} tx s : (updateKeys tx s).2 = s.
Proof.
  unfold updateKeys. go_unfold. destruct (loadSQLChainObject s _) as [[p|] []]; [|done..].
  go_unfold. destruct (findUser _ _); [destruct (negb _)|]; done.
Qed.
