(* ===== verification/Database.v ===== *)
(** * Creating a database

    [matchProvidersWithUser] selects miners and creates the database profile.
    The selection must not depend on the order in which Go iterates over the
    provider map, since every block producer computes it for itself. *)
From S2P Require Import Prelude Hash Types MetaState MetaView MetaTx Ledger LedgerRefine Sample Supply.
From Stdlib Require Import Ascii String ZArith Lia.
From stdpp Require Import base list gmap strings sorting.
Local Open Scope Z_scope.

(** ** The order on node ids *)

Lemma ascii_compare_trans a b c :
  Ascii.compare a b = Lt → Ascii.compare b c = Lt → Ascii.compare a c = Lt.
Proof. unfold Ascii.compare. rewrite !N.compare_lt_iff. lia. Qed.

Lemma string_compare_trans s1 s2 s3 :
  String.compare s1 s2 = Lt → String.compare s2 s3 = Lt → String.compare s1 s3 = Lt.
Proof.
  revert s2 s3. induction s1 as [|a s1 IH]; intros [|b s2] [|c s3]; cbn; try done.
  destruct (Ascii.compare a b) eqn:Hab; [|intros _|done].
  - apply Ascii.compare_eq_iff in Hab as ->. destruct (Ascii.compare b c); [|done..]. apply IH.
  - destruct (Ascii.compare b c) eqn:Hbc; [|intros _|done].
    + apply Ascii.compare_eq_iff in Hbc as <-. by rewrite Hab.
    + by rewrite (ascii_compare_trans _ _ _ Hab Hbc).
Qed.

#[export] Instance miner_le_trans : Transitive miner_le.
Proof.
  intros m1 m2 m3. unfold miner_le, String.leb.
  destruct (String.compare (mi_NodeID m1) (mi_NodeID m2)) eqn:H12; [|intros _|done].
  { by apply String.compare_eq_iff in H12 as ->. }
  destruct (String.compare (mi_NodeID m2) (mi_NodeID m3)) eqn:H23; [|intros _|done].
  - apply String.compare_eq_iff in H23 as <-. by rewrite H12.
  - by rewrite (string_compare_trans _ _ _ H12 H23).
Qed.

#[export] Instance miner_le_total : Total miner_le.
Proof. intros m1 m2. apply String.leb_total. Qed.

Lemma miner_le_antisym m1 m2 : miner_le m1 m2 → miner_le m2 m1 → mi_NodeID m1 = mi_NodeID m2.
Proof. apply String.leb_antisym. Qed.

(** ** Selection *)

Section selection.
Context `{Env}.
Implicit Types (tx : CreateDatabaseHeader) (user : AccountAddress).

(** A provider fits the request. *)
Definition fits tx user (po : ProviderProfile) : Prop :=
  isProviderUserMatch (pp_TargetUser po) user = true ∧ (isProviderReqMatch po tx).1 = true.

#[export] Instance fits_dec tx user po : Decision (fits tx user po).
Proof. unfold fits. apply _. Defined.

Definition minerOf (po : ProviderProfile) : MinerInfo :=
  MkMinerInfo (pp_Provider po) (pp_NodeID po) EmptyString 0 0 [] (pp_Deposit po) UnknownStatus
    EmptyString.

Lemma filterAndAppendMiner_spec ms po tx user :
  (filterAndAppendMiner ms po tx user).1 = ms ++ (if decide (fits tx user po) then [minerOf po] else []).
Proof.
  case_decide as Hf; unfold fits in Hf; unfold filterAndAppendMiner;
    destruct (isProviderUserMatch _ _), (isProviderReqMatch po tx) as [[] e]; cbn in *;
    rewrite ?app_nil_r; destruct_and?; try done. by destruct Hf.
Qed.

Lemma foldl_filterAndAppend ps tx user ms :
  foldl (λ ms po, (filterAndAppendMiner ms po tx user).1) ms ps
  = ms ++ (minerOf <$> filter (fits tx user) ps).
Proof.
  revert ms. induction ps as [|po ps IH]; intros ms; cbn [foldl]; [by rewrite app_nil_r|].
  rewrite IH, filterAndAppendMiner_spec, filter_cons, <- app_assoc. by case_decide.
Qed.

Lemma selection_sorted ps ps' tx user :
  ps ≡ₚ ps' → NoDup (pp_NodeID <$> ps) →
  merge_sort miner_le (minerOf <$> filter (fits tx user) ps)
  = merge_sort miner_le (minerOf <$> filter (fits tx user) ps').
Proof.
  intros Hp Hnd.
  apply (StronglySorted_unique_strong miner_le); [|apply (StronglySorted_merge_sort _)..|].
  2: { by rewrite !merge_sort_Permutation, Hp. }
  intros m1 m2. rewrite !merge_sort_Permutation, <- Hp. intros (p1 & -> & H1)%list_elem_of_fmap.
  intros (p2 & -> & H2)%list_elem_of_fmap Hle1 Hle2.
  pose proof (miner_le_antisym _ _ Hle1 Hle2) as Hid. cbn in Hid.
  apply list_elem_of_filter in H1 as [_ [i1 H1]%list_elem_of_lookup].
  apply list_elem_of_filter in H2 as [_ [i2 H2]%list_elem_of_lookup].
  assert (i1 = i2) as ->; [|by simplify_eq].
  apply (NoDup_lookup (pp_NodeID <$> ps) i1 i2 (pp_NodeID p1)); [done|..]; rewrite list_lookup_fmap.
  - by rewrite H1.
  - by rewrite H2, Hid.
Qed.

(** What [filterNMiners] returns: providers that fit, as many as asked for. *)
Lemma filterNMiners_from_Ok ps tx user n ms :
  filterNMiners_from ps tx user n = Ok ms →
  length ms = n ∧ Forall (λ m, ∃ po, po ∈ ps ∧ fits tx user po ∧ m = minerOf po) ms.
Proof.
  unfold filterNMiners_from. rewrite foldl_filterAndAppend. cbn [app]. case_decide as Hn; [done|].
  intros [= <-]. split; [rewrite length_take, merge_sort_Permutation; lia|].
  apply Forall_take. rewrite merge_sort_Permutation. apply Forall_fmap, Forall_forall.
  intros po [Hf Hpo]%list_elem_of_filter. cbn. eauto.
Qed.

(** The loop over the designated miners keeps to providers that fit, and does
    not collect more than asked for. *)
Lemma targetLoop_spec l tx user n ts ms err ms' err' :
  let ok m := ∃ k po, l_providers l !! k = Some po ∧ fits tx user po ∧ m = minerOf po in
  targetLoop (L_loadProvider l) tx user n ts ms err = Some (ms', err') →
  Forall ok ms → (length ms < n)%nat → Forall ok ms' ∧ (length ms' <= n)%nat.
Proof.
  intros ok. revert ms err. induction ts as [|t ts IH]; intros ms err; cbn [targetLoop].
  { intros [= <- <-] ??. split; [done|lia]. }
  unfold L_loadProvider at 1. destruct (l_providers l !! t) as [po|] eqn:Hpo; [|by apply IH].
  pose proof (filterAndAppendMiner_spec ms po tx user) as Hms.
  destruct (filterAndAppendMiner ms po tx user) as [ms1 e1]. cbn [fst] in Hms. subst ms1.
  assert (∃ ext, (if decide (fits tx user po) then [minerOf po] else []) = ext ∧
    Forall ok ext ∧ (length ext <= 1)%nat) as (ext & -> & Hext & Hlen).
  { eexists. split; [done|]. case_decide; [|by split; [|cbn; lia]].
    split; [|done]. constructor; [|constructor]. exists t, po. done. }
  intros Hl Hok Hn. assert (Forall ok (ms ++ ext)) as Hok1 by (by apply Forall_app).
  case_decide as Hd.
  - injection Hl as <- <-. split; [done|]. rewrite Hd. lia.
  - eapply IH; [done..|]. rewrite length_app in *. lia.
Qed.
End selection.

(** C32: miner selection is a function of the set of providers: for any two orders in
    which the iteration of the provider map may give them, with node ids pairwise
    distinct, [filterNMiners] returns the same miners in the same order, and what it
    returns is the first [n] by node id of the providers that fit the request, or the
    error that fewer than [n] fit. *)
Theorem filterNMiners_any_order `{Env} ps qs tx user n :
  ps ≡ₚ qs → NoDup (pp_NodeID <$> ps) →
  filterNMiners_from qs tx user n = filterNMiners_from ps tx user n ∧
  match filterNMiners_from ps tx user n with
  | Ok ms => length ms = n ∧ ∃ rest,
      ms ++ rest ≡ₚ minerOf <$> filter (fits tx user) ps ∧ StronglySorted miner_le (ms ++ rest)
  | Err e => e = ErrNoEnoughMiner ∧ (length (filter (fits tx user) ps) < n)%nat
  | Panic => False
  end.
Proof.
  intros Hp Hnd. unfold filterNMiners_from. rewrite !foldl_filterAndAppend. cbn [app].
  rewrite <- (selection_sorted ps qs tx user Hp Hnd), !length_fmap.
  assert (length (filter (fits tx user) qs) = length (filter (fits tx user) ps)) as -> by (by rewrite Hp).
  split; [done|]. case_decide as Hn; [done|].
  split; [rewrite length_take, merge_sort_Permutation, length_fmap; lia|].
  exists (drop n (merge_sort miner_le (minerOf <$> filter (fits tx user) ps))). rewrite take_drop.
  split; [apply merge_sort_Permutation|apply (StronglySorted_merge_sort _)].
Qed.

Definition sampleCreate (n : Z) : CreateDatabaseHeader :=
  MkCreateDatabaseHeader alice (sampleMeta n) 2 5000 Particle 5.
Definition namedProvider (k : Z) (node : string) : ProviderProfile :=
  MkProviderProfile (addr k) 100 100 float_zero [] 1000 1 Particle node.

Lemma filterNMiners_any_order_witness :
  let ps := [namedProvider 4 "b"; namedProvider 5 "a"] in
  filterNMiners_from (reverse ps) (sampleCreate 1) alice 1
  = filterNMiners_from ps (sampleCreate 1) alice 1 ∧
  filterNMiners_from ps (sampleCreate 1) alice 1 = Ok [minerOf (namedProvider 5 "a")].
Proof.
  intros ps. split; [|vm_compute; reflexivity].
  apply filterNMiners_any_order; [symmetry; apply reverse_Permutation|].
  by apply (bool_decide_unpack _); vm_compute.
Defined.

(** Two providers that registered the same node id: the iteration order decides
    which of them is selected. *)
Lemma filterNMiners_same_node_id :
  filterNMiners_from [namedProvider 4 "a"; namedProvider 5 "a"] (sampleCreate 1) alice 1
  ≠ filterNMiners_from [namedProvider 5 "a"; namedProvider 4 "a"] (sampleCreate 1) alice 1.
Proof. vm_compute. discriminate. Qed.

(** ** Creation *)

Section creation.
Context `{Env}.
#[local] Opaque FromAccountAndNonce AccountAddress_of.
Implicit Types tx : Signed CreateDatabaseHeader.

Definition databaseOf tx : DatabaseID :=
  FromAccountAndNonce (cd_Owner (tx_Header tx)) (u32 (cd_Nonce (tx_Header tx))).

(** The profile a creation installs. *)
Definition createdProfile tx (dbAddr : AccountAddress) (minDep : Z) (ms : list MinerInfo)
    (enc : list Z) : SQLChainProfile :=
  let h := tx_Header tx in
  MkSQLChainProfile (databaseOf tx) dbAddr sqlchainPeriod (cd_GasPrice h) 0 Particle (cd_Owner h) ms
    [MkSQLChainUser (cd_Owner h) (UserPermissionFromRole Admin) (cd_AdvancePayment h) 0 minDep Normal]
    enc (cd_ResourceMeta h).

(** The ledger after a creation paid from [a]'s balance [b]. *)
Definition createdLedger tx (l : ledger) (dbAddr : AccountAddress) (minDep : Z) (ms : list MinerInfo)
    (enc : list Z) (a : Account) (b : Z) : ledger :=
  let h := tx_Header tx in
  MkLedger
    (<[dbAddr := newAccount dbAddr]>
       (<[cd_Owner h := withBalance a (cd_TokenType h) (b - (minDep + cd_AdvancePayment h))]>
          (l_accounts l)))
    (<[databaseOf tx := createdProfile tx dbAddr minDep ms enc]> (l_databases l))
    (foldl (λ m k, delete k m) (l_providers l) (mi_Address <$> ms)).

Lemma foldl_delProvider (ms : list MinerInfo) l :
  foldl (λ l m, L_delProvider (mi_Address m) l) l ms
  = MkLedger (l_accounts l) (l_databases l)
      (foldl (λ m k, delete k m) (l_providers l) (mi_Address <$> ms)).
Proof.
  revert l. induction ms as [|m ms IH]; intros l; cbn; [by destruct l|]. by rewrite IH.
Qed.

Lemma L_createMatched_Ok tx minDep ms l l' :
  wf_ledger l → is_u64 minDep → is_u64 (cd_AdvancePayment (tx_Header tx)) →
  L_createMatched tx (cd_Owner (tx_Header tx)) minDep ms l = (Ok tt, l') →
  ∃ dbAddr enc a b,
    l_accounts l !! cd_Owner (tx_Header tx) = Some a ∧
    balanceAt (ac_TokenBalance a) (cd_TokenType (tx_Header tx)) = Some b ∧
    minDep + cd_AdvancePayment (tx_Header tx) <= b ∧
    l_databases l !! databaseOf tx = None ∧ AccountAddress_of (databaseOf tx) = Ok dbAddr ∧
    l' = createdLedger tx l dbAddr minDep ms enc a b.
Proof.
  intros Hl Hm Ha. unfold L_createMatched. cbv zeta.
  unfold databaseOf, createdLedger, createdProfile, databaseOf. intros Hrun.
  apply bind_liftR_Ok in Hrun as (dbAddr & Hdb & Hrun).
  apply bind_liftR_Ok in Hrun as (all & Hall & Hrun).
  apply safeAdd_Ok in Hall as [-> Hall]; [|done..].
  apply bind_Ok in Hrun as ([] & l1 & Hd & Hrun).
  destruct (L_decrease_cases _ _ _ _ _ _ Hl Hall Hd) as [[_ ?]|(_ & a & b & Hk & Hb & Hu & ->)]; [done|].
  apply bind_liftR_Ok in Hrun as (gb & Hgb & Hrun).
  destruct (EncodeMsgPack_Block gb) as [enc|]; [|done]. go_unfold in Hrun. cbn [L_setAccount l_databases] in Hrun.
  destruct (l_databases l !! FromAccountAndNonce _ _) eqn:Hnone; [done|].
  apply pair_equal_spec in Hrun as [_ <-]. exists dbAddr, enc, a, b.
  split_and!; [done|done|destruct Hu; lia|done| |].
  { by apply liftHash_Ok. }
  by rewrite foldl_delProvider.
Qed.
End creation.

Section matching.
Context `{Env}.
#[local] Opaque FromAccountAndNonce AccountAddress_of.

(** A miner taken from the provider list of [l]. *)
Definition available (l : ledger) (tx : CreateDatabaseHeader) (user : AccountAddress) (m : MinerInfo)
    : Prop :=
  ∃ k po, l_providers l !! k = Some po ∧ fits tx user po ∧ m = minerOf po.

Lemma elem_of_remaining (m : gmap AccountAddress ProviderProfile) ks po :
  po ∈ omap snd (map_to_list (Some <$> foldl (λ m k, delete k m) m ks)) →
  ∃ k, m !! k = Some po.
Proof.
  intros ([k o] & Hko & Ho)%list_elem_of_omap. apply elem_of_map_to_list in Hko. cbn in Ho. subst o.
  rewrite lookup_fmap, fmap_Some in Hko. destruct Hko as (p & Hp & [= <-]). exists k.
  revert m Hp. induction ks as [|j ks IH]; intros m Hp; cbn in Hp; [done|].
  apply IH in Hp. by apply lookup_delete_Some in Hp as [_ ?].
Qed.

Lemma L_filterNMiners_Ok l tx user n ms :
  L_filterNMiners l tx user n = Ok ms → length ms = n ∧ Forall (available l tx user) ms.
Proof.
  intros [Hlen Hms]%filterNMiners_from_Ok. split; [done|]. eapply Forall_impl; [exact Hms|].
  intros m (po & Hpo & Hf & ->). apply elem_of_remaining in Hpo as [k Hk]. by exists k, po.
Qed.

(** The effect of a creation: exactly [Node] available miners, a payment the
    owner can make, and a database that did not exist. *)
Definition created (tx : Signed CreateDatabaseHeader) (l l' : ledger) : Prop :=
  let h := tx_Header tx in
  let minDep := minDeposit (cd_GasPrice h) (rm_Node (cd_ResourceMeta h)) in
  ∃ ms dbAddr enc a b,
    length ms = Z.to_nat (rm_Node (cd_ResourceMeta h)) ∧ Forall (available l h (cd_Owner h)) ms ∧
    l_accounts l !! cd_Owner h = Some a ∧ balanceAt (ac_TokenBalance a) (cd_TokenType h) = Some b ∧
    minDep + cd_AdvancePayment h <= b ∧ l_databases l !! databaseOf tx = None ∧
    AccountAddress_of (databaseOf tx) = Ok dbAddr ∧
    l' = createdLedger tx l dbAddr minDep ms enc a b.

Lemma createMatched_created (tx : Signed CreateDatabaseHeader) l l' ms :
  let h := tx_Header tx in
  wf_ledger l → is_u64 (cd_AdvancePayment h) →
  length ms = Z.to_nat (rm_Node (cd_ResourceMeta h)) → Forall (available l h (cd_Owner h)) ms →
  L_createMatched tx (cd_Owner h) (minDeposit (cd_GasPrice h) (rm_Node (cd_ResourceMeta h))) ms l
    = (Ok tt, l') → created tx l l'.
Proof.
  intros h Hl Ha Hlen Hms Hc. apply L_createMatched_Ok in Hc as (dbAddr & enc & a & b & Hc);
    [|done|apply minDeposit_u64|done]. destruct Hc as (? & ? & ? & ? & ? & ->).
  exists ms, dbAddr, enc, a, b. split_and!; done.
Qed.

Lemma L_matchProviders_Ok (tx : Signed CreateDatabaseHeader) l l' :
  let h := tx_Header tx in
  let minDep := minDeposit (cd_GasPrice h) (rm_Node (cd_ResourceMeta h)) in
  wf_ledger l → is_u64 (cd_AdvancePayment h) → L_matchProvidersWithUser tx l = (Ok tt, l') →
  PubKeyHash (hsv_Signee (tx_HSV tx)) = Ok (cd_Owner h) ∧ minDep <= cd_AdvancePayment h ∧
  (l' = l ∨
   created tx l l').
Proof.
  intros h minDep Hl Ha. unfold L_matchProvidersWithUser. fold h.
  destruct (PubKeyHash _) as [sender| |]; [|done..].
  destruct (decide (sender = cd_Owner h)) as [->|]; [|by rewrite decide_True by done].
  rewrite decide_False by auto. do 2 (case_decide; [done|]). cbv zeta. fold minDep.
  case_decide as Hmin; [done|]. intros Hrun. split; [done|]. split; [lia|].
  unfold mbind, gom_bind, getS in Hrun.
  destruct (targetLoop _ _ _ _ _ _ _) as [[ms err]|] eqn:Ht; [|done].
  apply targetLoop_spec in Ht as [Hms Hlen]; [|constructor|cbn; lia].
  case_decide; [case_decide|].
  - left. destruct (Wrap err); [done|]. by injection Hrun.
  - destruct (L_filterNMiners _ _ _ _) as [ms'| |] eqn:Hf; [|done..].
    apply L_filterNMiners_Ok in Hf as [Hlen' Hms']. right.
    apply (createMatched_created tx l l' (ms ++ ms')); [done|done| |by apply Forall_app|done].
    rewrite length_app, Hlen'. fold h. lia.
  - right. apply (createMatched_created tx l l' ms); [done|done|fold h; lia|done|done].
Qed.
End matching.

(** A database creation that succeeds either changed nothing (the code path on
    which the error it reports is nil) or did all of this: the owner signed and
    had the minimal deposit and the advance payment, exactly [Node] providers
    that fit were taken off the provider list, the deposit and the payment were
    taken from the owner, and the database, which did not exist, got a profile
    with these miners and the owner as its administrator. *)
Theorem createDatabase_spec `{Env} tx s s' :
  let h := tx_Header tx in
  let minDep := minDeposit (cd_GasPrice h) (rm_Node (cd_ResourceMeta h)) in
  wf_state s → is_u64 (cd_AdvancePayment h) → matchProvidersWithUser tx s = (Ok tt, s') →
  PubKeyHash (hsv_Signee (tx_HSV tx)) = Ok (cd_Owner h) ∧ minDep <= cd_AdvancePayment h ∧
  (view s' = view s ∨
   created tx (view s) (view s')).
Proof.
  intros h minDep Hwf Ha Hrun. destruct (at_matchProviders s tx Hwf Ha) as (r & s1 & Hm & Hf & _).
  rewrite Hrun in Hm. injection Hm as <- <-. exact (L_matchProviders_Ok tx _ _ (wf_view _ Hwf) Ha Hf).
Qed.

Lemma createDatabase_spec_witness : ∃ s',
  matchProvidersWithUser (signedBy 1 (sampleCreate 1)) sampleState = (Ok tt, s') ∧
  minDeposit 2 1 <= 5000.
Proof.
  eexists. split; [vm_compute; reflexivity|].
  refine (proj1 (proj2 (createDatabase_spec (signedBy 1 (sampleCreate 1)) sampleState _ wf_sampleState _ _))).
  - done.
  - vm_compute; reflexivity.
Defined.

(** The nil-error path: two designated miners, the first of them unknown and the
    second one fitting, for a database of two nodes. *)
Definition silentCreate : Signed CreateDatabaseHeader :=
  signedBy 1 (MkCreateDatabaseHeader alice
    (MkResourceMeta [addr 8; addr 5] 2 0 0 float_zero EmptyString false float_zero 0)
    2 5000 Particle 5).

Lemma createDatabase_silent : matchProvidersWithUser silentCreate sampleState = (Ok tt, sampleState).
Proof. vm_compute. reflexivity. Qed.
