(* ===== verification/Billing.v ===== *)
(** * Billing

    [updateBilling] turns the query costs a miner reports into payments from the
    users' advance payments to the miners' pending income. *)
From S2P Require Import Prelude Hash Types MetaState MetaView MetaTx Ledger LedgerRefine Sample.
From Stdlib Require Import String ZArith Lia.
From stdpp Require Import base list gmap strings.
Local Open Scope Z_scope.

Fixpoint zsum (l : list Z) : Z := match l with [] => 0 | x :: l => x + zsum l end.

Definition advances (us : list SQLChainUser) : Z := zsum (su_AdvancePayment <$> us).
Definition incomes (ms : list MinerInfo) : Z :=
  zsum ((λ m, mi_PendingIncome m + mi_ReceivedIncome m) <$> ms).
(** The tokens a database holds for its users' queries: paid in advance, or due
    to its miners. *)
Definition funds (p : SQLChainProfile) : Z := advances (sp_Users p) + incomes (sp_Miners p).

Definition miners_nonneg (ms : list MinerInfo) : Prop :=
  Forall (λ m, 0 <= mi_PendingIncome m ∧ 0 <= mi_ReceivedIncome m) ms.

Lemma incomes_nonneg ms : miners_nonneg ms → 0 <= incomes ms.
Proof. unfold incomes. induction 1; cbn in *; lia. Qed.

Lemma advances_nonneg us : Forall wf_user us → 0 <= advances us.
Proof. unfold advances. induction 1 as [|u us [[] _ _] _ IH]; cbn in *; lia. Qed.

Section billing.
Context (um : gmap AccountAddress (gmap AccountAddress Z)).

(** What the report credits to the miners [ms] for the queries of [user]. *)
Definition credited (user : AccountAddress) (ms : list MinerInfo) : Z :=
  zsum ((λ m, incomeOf um user (mi_Address m)) <$> ms).

Lemma credited_nonneg user ms : (∀ m, 0 <= incomeOf um user m) → 0 <= credited user ms.
Proof.
  intros Hnn. unfold credited. induction ms as [|m ms IH]; cbn; [lia|].
  specialize (Hnn (mi_Address m)). lia.
Qed.

Lemma payMiners_incomes gas user ms :
  0 <= gas → (∀ m, 0 <= incomeOf um user m) → miners_nonneg ms →
  incomes ms + credited user ms * gas < two64 →
  incomes (payMiners um gas user ms) = incomes ms + credited user ms * gas ∧
  miners_nonneg (payMiners um gas user ms).
Proof.
  intros Hg Hnn. unfold incomes, credited, payMiners. induction 1 as [|m ms [Hp Hr] Hms IH]; cbn.
  { split; [lia|constructor]. }
  pose proof (incomes_nonneg ms Hms) as Hi. unfold incomes in Hi.
  pose proof (credited_nonneg user ms Hnn) as Hc. unfold credited in Hc.
  specialize (Hnn (mi_Address m)). intros Hlt.
  assert (u64 (incomeOf um user (mi_Address m) * gas) = incomeOf um user (mi_Address m) * gas) as ->.
  { apply u64_id. unfold is_u64. nia. }
  rewrite u64_id by (unfold is_u64; nia).
  destruct IH as [-> Hnn']; [nia|]. split; [lia|]. constructor; [|done]. cbn.
  split; [apply u64_range|done].
Qed.

Lemma credited_payMiners gas user user' ms :
  credited user (payMiners um gas user' ms) = credited user ms.
Proof. unfold credited, payMiners. rewrite <- list_fmap_compose. done. Qed.

(** The cost the report gives for a user, whether he can pay it, and what is credited
    for all users. *)
Definition costOf (cm : gmap AccountAddress Z) (u : SQLChainUser) : Z := default 0 (cm !! su_Address u).
Definition solvent (cm : gmap AccountAddress Z) (gas : Z) (u : SQLChainUser) : Prop :=
  0 <= costOf cm u ∧ costOf cm u * gas <= su_AdvancePayment u.
Definition creditedAll (us : list SQLChainUser) (ms : list MinerInfo) : Z := zsum ((λ u, credited (su_Address u) ms) <$> us).

Lemma creditedAll_nonneg us ms : (∀ u m, 0 <= incomeOf um u m) → 0 <= creditedAll us ms.
Proof.
  intros Hnn. unfold creditedAll. induction us as [|u us IH]; cbn; [lia|].
  pose proof (credited_nonneg (su_Address u) ms (Hnn _)). lia.
Qed.
Lemma creditedAll_payMiners gas user us ms : creditedAll us (payMiners um gas user ms) = creditedAll us ms.
Proof. unfold creditedAll. f_equal. apply list_fmap_ext. intros ? u _. apply credited_payMiners. Qed.

Lemma billUsers_pays `{Env} cm gas us ms :
  0 <= gas → (∀ u m, 0 <= incomeOf um u m) → Forall wf_user us → miners_nonneg ms →
  Forall (solvent cm gas) us → incomes ms + creditedAll us ms * gas < two64 →
  let '(us', ms') := billUsers cm um gas us ms in
  incomes ms' = incomes ms + creditedAll us ms * gas ∧
  Forall2 (λ u u', su_Address u' = su_Address u ∧ su_Arrears u' = su_Arrears u ∧
             su_Deposit u' = su_Deposit u ∧ su_Status u' = su_Status u ∧
             su_AdvancePayment u' = su_AdvancePayment u - costOf cm u * gas) us us'.
Proof.
  intros Hg Hnn. revert ms. induction us as [|u us IH]; intros ms Hus Hms Hsol Hlt; cbn [billUsers].
  { unfold creditedAll. cbn. split; [lia|constructor]. }
  apply Forall_cons in Hus as [[Hadv _ _] Hus]. apply Forall_cons in Hsol as [[Hcost Hpay] Hsol].
  pose proof (credited_nonneg (su_Address u) ms (Hnn _)) as Hc. pose proof (creditedAll_nonneg us ms Hnn) as Hca.
  assert (creditedAll (u :: us) ms = credited (su_Address u) ms + creditedAll us ms) as Hall by done. rewrite Hall in *.
  unfold billUser. fold (costOf cm u). destruct Hadv as [Ha0 Ha1].
  rewrite (u64_id (costOf cm u * gas)) by (unfold is_u64; nia). rewrite decide_True by lia.
  rewrite u64_id by (unfold is_u64; nia).
  destruct (payMiners_incomes gas (su_Address u) ms Hg (Hnn _) Hms) as [Hi Hms']; [nia|].
  specialize (IH (payMiners um gas (su_Address u) ms) Hus Hms' Hsol). rewrite creditedAll_payMiners in IH.
  destruct (billUsers cm um gas us (payMiners um gas (su_Address u) ms)) as [us' ms'].
  destruct IH as [Hsum Hf]; [lia|]. split; [lia|]. by constructor.
Qed.

(** What the users lose. *)
Lemma advances_paid cm gas us us' :
  Forall2 (λ u u', su_AdvancePayment u' = su_AdvancePayment u - costOf cm u * gas) us us' →
  advances us' = advances us - zsum (costOf cm <$> us) * gas.
Proof. unfold advances. induction 1 as [|u u' us us' Hu _ IH]; cbn; [lia|]. rewrite Hu. lia. Qed.
End billing.

Lemma settleMiner_incomes ms :
  miners_nonneg ms → incomes ms < two64 →
  incomes (settleMiner <$> ms) = incomes ms ∧ miners_nonneg (settleMiner <$> ms).
Proof.
  unfold incomes. induction 1 as [|m ms [Hp Hr] Hms IH]; cbn; [split; [lia|constructor]|].
  pose proof (incomes_nonneg ms Hms) as Hi. unfold incomes in Hi. intros Hlt.
  rewrite u64_id by (unfold is_u64; lia). destruct IH as [-> Hnn]; [lia|].
  split; [lia|]. constructor; [|done]. cbn. split; [done|apply u64_range].
Qed.

Lemma addIncome_nonneg (incs : list MinerIncome) (m : gmap AccountAddress Z) :
  map_Forall (λ _ x, 0 <= x) m → map_Forall (λ _ x, 0 <= x) (foldl addIncome m incs).
Proof.
  revert m. induction incs as [|i incs IH]; intros m Hm; cbn; [done|].
  apply IH, map_Forall_insert_2; [|done]. apply u64_range.
Qed.

Lemma userMap_nonneg (users : list UserCost) u m : 0 <= incomeOf (userMap users) u m.
Proof.
  assert (∀ um0 : gmap AccountAddress (gmap AccountAddress Z),
    map_Forall (λ _, map_Forall (λ _ x, 0 <= x)) um0 →
    map_Forall (λ _, map_Forall (λ _ x, 0 <= x))
      (foldl (λ m u, <[uc_User u := foldl addIncome (default ∅ (m !! uc_User u)) (uc_Miners u)]> m) um0 users))
    as Hall.
  { induction users as [|v users IH]; intros um0 Hum; cbn; [done|].
    apply IH, map_Forall_insert_2; [|done]. apply addIncome_nonneg.
    destruct (um0 !! uc_User v) eqn:Hv; cbn; [by eapply Hum|apply map_Forall_empty]. }
  specialize (Hall ∅ (map_Forall_empty _)). fold (userMap users) in Hall.
  unfold incomeOf. destruct (userMap users !! u) as [mm|] eqn:Hu; cbn; [|lia].
  destruct (mm !! m) as [x|] eqn:Hm; cbn; [|lia]. by eapply (Hall u mm Hu).
Qed.

(** ** The transaction *)

Section transaction.
Context `{Env}.

(** A successful billing of a database with a gas price. *)
Lemma updateBilling_Ok tx s s' p :
  let h := tx_Header tx in
  let id := DatabaseID_of (ub_Receiver h) in
  wf_state s → databases s !! id = Some p → sp_GasPrice p ≠ 0 → updateBilling tx s = (Ok tt, s') →
  (ub_Version h > 0 → ub_From h < ub_To h ∧ sp_LastUpdatedHeight p = ub_From h) ∧
  Exists (λ m, mi_Address m = signeeAddress (tx_HSV tx)) (sp_Miners p) ∧
  s' = set_dirty_database id (Some (billProfile h p)) s.
Proof.
  intros h id Hwf Hp Hg. unfold updateBilling. fold h. cbv zeta. fold id. go_unfold.
  rewrite (load_database _ _ Hwf), Hp. go_unfold.
  case_decide as Hr; [done|]. case_decide; [done|]. unfold negb.
  case_bool_decide as Hm; [|done]. intros [= <-]. split; [lia|]. done.
Qed.

Lemma billProfile_height h p : sp_LastUpdatedHeight (billProfile h p) = ub_To h.
Proof. unfold billProfile. by destruct (billUsers _ _ _ _ _). Qed.

Lemma billProfile_gas h p : sp_GasPrice (billProfile h p) = sp_GasPrice p.
Proof. unfold billProfile. by destruct (billUsers _ _ _ _ _). Qed.
End transaction.

(** Billing periods are consecutive and billed once: a versioned billing that
    succeeds was sent by a miner of the database, starts where the last one ended
    and moves the database's billed height forward to its end; sent again, it is
    refused with [ErrInvalidRange] and changes nothing. *)
Theorem updateBilling_once `{Env} tx s s' p :
  let h := tx_Header tx in
  let id := DatabaseID_of (ub_Receiver h) in
  wf_state s → databases s !! id = Some p → sp_GasPrice p ≠ 0 → ub_Version h > 0 →
  updateBilling tx s = (Ok tt, s') →
  Exists (λ m, mi_Address m = signeeAddress (tx_HSV tx)) (sp_Miners p) ∧
  sp_LastUpdatedHeight p = ub_From h ∧
  (∃ p', databases s' !! id = Some p' ∧ sp_LastUpdatedHeight p' = ub_To h ∧
         sp_LastUpdatedHeight p < sp_LastUpdatedHeight p') ∧
  updateBilling tx s' = (Err (ErrWrap ErrInvalidRange), s').
Proof.
  intros h id Hwf Hp Hg Hv Hrun.
  destruct (updateBilling_Ok _ _ _ _ Hwf Hp Hg Hrun) as (Hr & Hm & ->). destruct (Hr Hv) as [Hlt Hlast].
  assert (wf_state (set_dirty_database id (Some (billProfile h p)) s)) as Hwf'.
  { apply wf_set_dirty_database; [done|]. by apply wf_billProfile, (wf_lookup_database s). }
  split; [done|]. split; [done|].
  assert (databases (set_dirty_database id (Some (billProfile h p)) s) !! id = Some (billProfile h p)) as Hp'
    by (by rewrite databases_set_dirty, lookup_insert_eq).
  split. { exists (billProfile h p). rewrite billProfile_height. fold h in Hlast, Hlt. split_and!; [done|done|lia]. }
  unfold updateBilling. fold h. cbv zeta. fold id. go_unfold.
  rewrite (load_database _ _ Hwf'), Hp'. go_unfold. rewrite billProfile_height.
  rewrite decide_True; [done|]. fold h in Hlt. lia.
Qed.

Definition sampleBilling : Signed UpdateBillingHeader :=
  signedBy 4 (MkUpdateBillingHeader dbHash 0 [MkUserCost alice 30 [MkMinerIncome (addr 4) 30]] 0 10 1).

Lemma updateBilling_once_witness : ∃ s',
  updateBilling sampleBilling sampleState = (Ok tt, s') ∧
  updateBilling sampleBilling s' = (Err (ErrWrap ErrInvalidRange), s').
Proof.
  eexists. split; [vm_compute; reflexivity|].
  refine (proj2 (proj2 (proj2 (updateBilling_once sampleBilling sampleState _ sampleProfile
    wf_sampleState _ _ _ _)))).
  - vm_compute; reflexivity.
  - done.
  - done.
  - vm_compute; reflexivity.
Defined.

(** C31: what a bill moves, to the token.  Let every user be able to pay (cost times gas
    price is at most the advance payment) and the miners' incomes stay below 2^64 with
    what the bill credits.  Then the bill takes from each user exactly the cost it
    reports for him times the gas price and leaves arrears, deposit and status, the
    miners' pending and received incomes grow by exactly what it credits to miners of
    the database, with no wrap-around, and so the funds of the database change by the
    difference of the two; they are conserved exactly when the bill's credits add up to
    its costs, which is not checked. *)
Theorem updateBilling_conserves `{Env} tx s s' p :
  let h := tx_Header tx in
  let id := DatabaseID_of (ub_Receiver h) in
  let charged := zsum (costOf (costMap (ub_Users h)) <$> sp_Users p) in
  let credit := creditedAll (userMap (ub_Users h)) (sp_Users p) (sp_Miners p) in
  wf_state s → databases s !! id = Some p → 0 < sp_GasPrice p →
  incomes (sp_Miners p) + credit * sp_GasPrice p < two64 →
  Forall (solvent (costMap (ub_Users h)) (sp_GasPrice p)) (sp_Users p) →
  updateBilling tx s = (Ok tt, s') →
  ∃ p', databases s' !! id = Some p' ∧
    Forall2 (λ u u', su_Address u' = su_Address u ∧ su_Arrears u' = su_Arrears u ∧
       su_Deposit u' = su_Deposit u ∧ su_Status u' = su_Status u ∧
       su_AdvancePayment u' = su_AdvancePayment u - costOf (costMap (ub_Users h)) u * sp_GasPrice p)
      (sp_Users p) (sp_Users p') ∧
    incomes (sp_Miners p') = incomes (sp_Miners p) + credit * sp_GasPrice p ∧
    funds p' = funds p + (credit - charged) * sp_GasPrice p ∧
    (funds p' = funds p ↔ credit = charged).
Proof.
  intros h id charged credit Hwf Hp Hg Hlt Hsol Hrun.
  destruct (updateBilling_Ok _ _ _ _ Hwf Hp ltac:(lia) Hrun) as (_ & _ & ->).
  destruct (wf_lookup_database _ _ _ Hwf Hp) as [_ Hus Hms].
  assert (miners_nonneg (sp_Miners p)) as Hnn.
  { eapply Forall_impl; [exact Hms|]. intros m [[] [] _]. done. }
  assert (0 <= credit) as Hcr0 by (apply creditedAll_nonneg, userMap_nonneg).
  destruct (settleMiner_incomes _ Hnn) as [Hset Hnn']; [nia|].
  assert (creditedAll (userMap (ub_Users h)) (sp_Users p) (settleMiner <$> sp_Miners p) = credit) as Hcr.
  { unfold credit, creditedAll. f_equal. apply list_fmap_ext. intros ? u _. unfold credited. by rewrite <- list_fmap_compose. }
  pose proof (billUsers_pays (userMap (ub_Users h)) (costMap (ub_Users h)) (sp_GasPrice p) (sp_Users p)
    (settleMiner <$> sp_Miners p) ltac:(lia) (userMap_nonneg _) Hus Hnn' Hsol) as Hbill. rewrite Hcr, Hset in Hbill.
  exists (billProfile h p). rewrite databases_set_dirty. split; [by rewrite lookup_insert_eq|].
  unfold billProfile, funds. destruct (billUsers _ _ _ _ _) as [us' ms']. cbn. destruct (Hbill Hlt) as [Hsum Hf].
  fold (advances us') (incomes ms').
  assert (advances us' = advances (sp_Users p) - charged * sp_GasPrice p) as Hadv.
  { apply advances_paid. eapply Forall2_impl; [exact Hf|]. by intros u u' (_ & _ & _ & _ & ?). }
  rewrite Hadv. fold (incomes (sp_Miners p)). split_and!; [done|done|lia|split; nia].
Qed.

Lemma updateBilling_conserves_witness : ∃ s' p',
  updateBilling sampleBilling sampleState = (Ok tt, s') ∧
  databases s' !! dbName = Some p' ∧ funds p' = funds sampleProfile.
Proof.
  eexists.
  refine (match updateBilling_conserves sampleBilling sampleState _ sampleProfile wf_sampleState _ _ _ _ _
          with ex_intro _ p' (conj Hp (conj _ (conj _ (conj _ Hf)))) => ex_intro _ p' (conj _ (conj Hp (proj2 Hf _))) end).
  - vm_compute; reflexivity.
  - done.
  - vm_compute; reflexivity.
  - constructor; [|constructor; [|constructor]]; split; vm_compute; congruence.
  - vm_compute; reflexivity.
  - vm_compute; reflexivity.
  - vm_compute; reflexivity.
Defined.

(** A miner's bill that credits more than it charges: the database owes tokens that
    nobody has paid. *)
Definition mintingBilling : Signed UpdateBillingHeader :=
  signedBy 4 (MkUpdateBillingHeader dbHash 0 [MkUserCost alice 1 [MkMinerIncome (addr 4) 500]] 0 10 1).
Lemma unbalanced_bill_accepted :
  match updateBilling mintingBilling sampleState with
  | (Ok tt, s') => match databases s' !! dbName with Some p' => bool_decide (funds sampleProfile < funds p') | None => false end
  | _ => false
  end = true.
Proof. vm_compute. reflexivity. Qed.
