(* ===== verification/Safety.v ===== *)
(** * Panics and partial effects

    When [apply] cannot panic, and which transactions that fail leave no trace. *)
From S2P Require Import Prelude Hash Types MetaState MetaView MetaTx Ledger LedgerRefine Sample Supply Nonce.
From Stdlib Require Import String ZArith Lia.
From stdpp Require Import base list gmap strings.
Local Open Scope Z_scope.

Definition np_at {A} (l : ledger) (m : LM A) : Prop := (m l).1 ≠ Panic.

Section np.
Context {A B : Type}.

Lemma np_bind l (m : LM A) (k : A → LM B) :
  np_at l m → (∀ a l', m l = (Ok a, l') → np_at l' (k a)) → np_at l (mbind k m).
Proof.
  unfold np_at, mbind, gom_bind. intros Hm Hk. destruct (m l) as [[a|e|] l']; cbn in *; [|done..].
  by apply Hk.
Qed.

Lemma np_pure_bind l (m : LM A) (k : A → LM B) :
  np_at l m → (m l).2 = l → (∀ a, m l = (Ok a, l) → np_at l (k a)) → np_at l (mbind k m).
Proof.
  intros Hm Hp Hk. apply np_bind; [done|]. intros a l' Ha. rewrite Ha in Hp. cbn in Hp. subst.
  by apply Hk.
Qed.

Lemma np_attempt l (m : LM A) : np_at l m → np_at l (attempt m).
Proof. unfold np_at, attempt. by destruct (m l) as [[]]. Qed.
End np.

Lemma safeAdd_np x y : safeAdd x y ≠ Panic.
Proof. unfold safeAdd. by case_decide. Qed.
Lemma safeSub_np x y : safeSub x y ≠ Panic.
Proof. unfold safeSub. by case_decide. Qed.

(** A token type the balance array has a slot for. *)
Definition listed (t : TokenType) : Prop := 0 <= t < SupportTokenNumber.

Lemma listed_Wave : listed Wave.
Proof. by split. Qed.
Lemma listed_Particle : listed Particle.
Proof. by split. Qed.
#[local] Hint Resolve listed_Wave listed_Particle : core.

Lemma wf_balanceAt l k a t :
  wf_ledger l → l_accounts l !! k = Some a → listed t → ∃ b, balanceAt (ac_TokenBalance a) t = Some b.
Proof.
  intros [Hl _] Ha Ht. destruct (Hl _ _ Ha) as [_ Hlen _ _]. unfold listed, SupportTokenNumber in Ht.
  unfold balanceAt. rewrite decide_True by lia. apply lookup_lt_is_Some. lia.
Qed.

Lemma np_getAccount e k l : np_at l (L_getAccount e k).
Proof. unfold np_at, L_getAccount. go_unfold. by destruct (l_accounts l !! k). Qed.
Lemma np_getDatabase e k l : np_at l (L_getDatabase e k).
Proof. unfold np_at, L_getDatabase. go_unfold. by destruct (l_databases l !! k). Qed.

Lemma getAccount_Ok e k l a : L_getAccount e k l = (Ok a, l) → l_accounts l !! k = Some a.
Proof. unfold L_getAccount. go_unfold. destruct (l_accounts l !! k); [|done]. by intros [= ->]. Qed.

(** Reading a listed balance of an existing account. *)
Lemma np_balance {B} l k a t (K : Z → LM B) :
  wf_ledger l → l_accounts l !! k = Some a → listed t → (∀ b, np_at l (K b)) →
  np_at l (b ← deref (balanceAt (ac_TokenBalance a) t); K b).
Proof. intros Hl Ha Ht HK. destruct (wf_balanceAt _ _ _ _ Hl Ha Ht) as [b ->]. apply HK. Qed.

Lemma np_increase k x t l : wf_ledger l → listed t → np_at l (L_increase k x t).
Proof.
  intros Hl Ht. apply np_pure_bind; [apply np_getAccount|reads|]. intros a Ha%getAccount_Ok.
  apply (np_balance _ _ _ _ _ Hl Ha Ht). intros b. unfold np_at. go_unfold.
  pose proof (safeAdd_np b x). by destruct (safeAdd b x).
Qed.

Lemma np_decrease k x t l : wf_ledger l → listed t → np_at l (L_decrease k x t).
Proof.
  intros Hl Ht. apply np_pure_bind; [apply np_getAccount|reads|]. intros a Ha%getAccount_Ok.
  apply (np_balance _ _ _ _ _ Hl Ha Ht). intros b. unfold np_at. go_unfold.
  pose proof (safeSub_np b x). by destruct (safeSub b x).
Qed.

Lemma np_moveTokens sender receiver amount t l :
  wf_ledger l → listed t → np_at l (L_moveTokens sender receiver amount t).
Proof.
  intros Hl Ht. unfold L_moveTokens. destruct (decide _); [done|].
  apply np_bind; [done|]. intros [] l1 [= <-].
  pose proof (L_ensureAccount_wf receiver l Hl) as Hl1'.
  apply np_pure_bind; [apply np_getAccount|reads|]. intros so Hso%getAccount_Ok.
  apply np_pure_bind; [apply np_getAccount|reads|]. intros ro Hro%getAccount_Ok.
  apply (np_balance _ _ _ _ _ Hl1' Hso Ht). intros sb. apply (np_balance _ _ _ _ _ Hl1' Hro Ht). intros rb.
  unfold np_at. go_unfold. pose proof (safeSub_np sb amount). destruct (safeSub sb amount); [|done..].
  pose proof (safeAdd_np rb amount). by destruct (safeAdd rb amount).
Qed.

Section handlers.
Context `{Env}.

Lemma np_checkSender k a l : np_at l (L_checkSender k a).
Proof. unfold np_at, L_checkSender. destruct k; cbn; [|done]. by case_decide. Qed.

Lemma np_storeBaseAccount k v l :
  wf_ledger l → wf_account (ac_Address v) v → np_at l (L_storeBaseAccount k v).
Proof.
  intros Hl Hv. unfold L_storeBaseAccount. apply np_pure_bind; [done|done|]. intros ? [= <-].
  destruct (l_accounts l !! k) as [ao|] eqn:Hk; [|done]. case_decide; [done|].
  do 2 (apply (np_balance _ _ _ _ _ Hl Hk); [auto|intros ?]).
  assert (wf_ledger (L_setAccount (ac_Address v) v l)) as Hlv by by apply wf_L_setAccount.
  assert (l_accounts (L_setAccount (ac_Address v) v l) !! ac_Address v = Some v) as Hkv
    by apply lookup_insert_eq.
  destruct (wf_balanceAt _ _ _ Wave Hlv Hkv) as [bw ->]; [auto|].
  destruct (wf_balanceAt _ _ _ Particle Hlv Hkv) as [bp ->]; [auto|].
  unfold np_at. do 2 go_unfold. pose proof safeAdd_np as Hs.
  destruct (safeAdd b bw) eqn:E1; [|done|by destruct (Hs b bw)].
  destruct (safeAdd b0 bp) eqn:E2; [done|done|by destruct (Hs b0 bp)].
Qed.

Lemma np_updateProviderList tx h l : wf_ledger l → np_at l (L_updateProviderList tx h).
Proof.
  intros Hl. unfold L_updateProviderList.
  destruct (hsv_Signee (tx_HSV tx)) as [pk|]; cbn [PubKeyHash]; [|done].
  set (sender := THashH (pub_Serialize pk)).
  set (refund := if decide (h >= _) then _ else _ : LM unit).
  assert (np_at l refund ∧ nomint_at l refund) as [Hnp Hnm].
  { subst refund. case_decide; [|split; [done|by apply nomint_pure]].
    unfold np_at, nomint_at. unfold mbind at 1 3 5. unfold gom_bind at 1 3 5. cbn [getS].
    destruct (l_providers l !! sender) as [po|] eqn:Hpo; [|split; [done|by apply nomint_pure]].
    split.
    - apply np_bind; [apply np_increase; auto|]. done.
    - destruct ((L_increase sender (pp_Deposit po) Particle;; modifyS (L_delProvider sender)) l)
        as [r l'] eqn:Hr.
      destruct (refund_total _ _ _ _ _ Hl Hpo Hr) as [Hw Ht]. split; [done|]. intros t. rewrite Ht. cbn. lia. }
  apply np_bind; [done|]. intros [] l1 Hl1. destruct Hnm as [Hw _]. rewrite Hl1 in Hw.
  apply np_bind; [apply np_decrease; auto|]. done.
Qed.

Lemma np_createMatched tx sender minAdv ms l :
  wf_ledger l → listed (cd_TokenType (tx_Header tx)) → np_at l (L_createMatched tx sender minAdv ms).
Proof.
  intros Hl Ht. unfold L_createMatched.
  apply np_pure_bind; [|done|intros dbAddr _].
  { unfold np_at, liftR, liftHash, AccountAddress_of, NewHashFromStr, Decode. cbn [fst].
    case_decide; [done|]. by destruct (hexDecode _). }
  apply np_pure_bind; [apply safeAdd_np|done|]. intros all _.
  apply np_bind; [apply np_decrease; auto|]. intros _ l1 _.
  apply np_pure_bind; [|done|].
  { unfold np_at, liftR, generateGenesisBlock. by destruct (MarshalHash_Header _). }
  intros gb _. destruct (EncodeMsgPack_Block gb); [|done]. unfold np_at. go_unfold.
  by destruct (l_databases l1 !! _).
Qed.

Lemma targetLoop_np l tx sender n ts ms err :
  targetLoop (L_loadProvider l) tx sender n ts ms err ≠ None.
Proof.
  revert ms err. induction ts as [|t ts IH]; intros ms err; cbn; [done|].
  unfold L_loadProvider at 1. destruct (l_providers l !! t) as [po|]; [|apply IH].
  destruct (filterAndAppendMiner ms po tx sender) as [ms1 e1]. case_decide; [done|apply IH].
Qed.

Lemma np_matchProviders tx l :
  wf_ledger l → listed (cd_TokenType (tx_Header tx)) → np_at l (L_matchProvidersWithUser tx).
Proof.
  intros Hl Ht. unfold L_matchProvidersWithUser.
  destruct (hsv_Signee (tx_HSV tx)) as [pk|]; cbn [PubKeyHash]; [|done].
  do 4 (case_decide; [done|]). apply np_pure_bind; [done|done|]. intros ? [= <-].
  destruct (targetLoop _ _ _ _ _ _ _) as [[ms err]|] eqn:Hloop; [|by apply targetLoop_np in Hloop].
  case_decide; [case_decide|].
  - by destruct (Wrap err).
  - apply np_pure_bind; [|done|]; [|intros ms' _; by apply np_createMatched].
    unfold np_at, liftR, L_filterNMiners, filterNMiners_from. cbn [fst]. by case_decide.
  - by apply np_createMatched.
Qed.

Lemma np_updatePermission tx l : np_at l (L_updatePermission tx).
Proof.
  unfold L_updatePermission. destruct (hsv_Signee (tx_HSV tx)) as [pk|]; cbn [PubKeyHash]; [|done].
  apply np_pure_bind; [apply np_getDatabase|reads|]. intros p _.
  destruct (permissionScan _ _ _ _ _ _) as [[]|]; [|done]. by destruct (_ && _ && _).
Qed.

Lemma np_updateKeys tx l : np_at l (L_updateKeys tx).
Proof.
  apply np_pure_bind; [apply np_getDatabase|reads|]. intros p _.
  destruct (findUser _ _); [by destruct (negb _)|done].
Qed.

Lemma np_updateBilling tx l : np_at l (L_updateBilling tx).
Proof.
  apply np_pure_bind; [apply np_getDatabase|reads|]. intros p _.
  do 2 (case_decide; [done|]). by destruct (negb _).
Qed.

Lemma creditUser_np p amount u : creditUser p amount u ≠ Panic.
Proof.
  unfold creditUser, topUp. repeat case_decide; cbn; try done;
    repeat case_decide; cbn; try done; pose proof safeAdd_np as Hs;
    (match goal with |- context [safeAdd ?x ?y] => specialize (Hs x y); by destruct (safeAdd x y) end).
Qed.

Lemma np_transferSQLChain tx l a :
  wf_ledger l → listed (tr_TokenType (tx_Header tx)) →
  l_accounts l !! tr_Sender (tx_Header tx) = Some a → np_at l (L_transferSQLChainTokenBalance tx).
Proof.
  intros Hl Ht Ha. unfold L_transferSQLChainTokenBalance. destruct (hsv_Signee (tx_HSV tx)) as [pk|]; [|done].
  apply np_pure_bind; [apply np_checkSender|apply checkSender_pure|]. intros _ _.
  apply np_pure_bind; [apply np_getDatabase|reads|]. intros p _. case_decide; [done|].
  apply np_pure_bind; [done|done|]. intros ? [= <-]. rewrite Ha.
  apply np_pure_bind; [done|done|]. intros ? [= <-].
  apply (np_balance _ _ _ _ _ Hl Ha Ht). intros b. case_decide; [done|].
  destruct (list_find _ _) as [[i u]|]; [|done].
  apply np_pure_bind; [apply creditUser_np|done|]. by intros [u' ms'] _.
Qed.
End handlers.

(** The token types a transaction names have a slot in the balance array. *)
Fixpoint tokens_listed `{Env} (t : Transaction) : Prop :=
  match t with
  | TxTransfer t => listed (tr_TokenType (tx_Header t))
  | TxCreateDatabase t => listed (cd_TokenType (tx_Header t))
  | TxWrapper t => tokens_listed t
  | _ => True
  end.

Section apply.
Context `{Env}.

Lemma np_applyTransaction t h l :
  wf_ledger l → wf_tx t → tokens_listed t →
  (baseAccount t = None → is_Some (l_accounts l !! GetAccountAddress t)) →
  np_at l (L_applyTransaction t h).
Proof.
  intros Hl. induction t as [t|a m|t|t|t|t|t|t IH|]; intros Hwf Ht Hacc; cbn [L_applyTransaction].
  - destruct (Hacc eq_refl) as [a Ha]. apply np_bind; [by apply np_attempt; eapply np_transferSQLChain|].
    intros [e|u] l' Hl'; [|done]. case_decide; [|done].
    pose proof (nomint_attempt _ _ (nomint_transferSQLChain t l Hl Hwf)) as [Hw _]. rewrite Hl' in Hw.
    apply np_pure_bind; [apply np_checkSender|apply checkSender_pure|]. intros _ _.
    by apply np_moveTokens.
  - by apply np_storeBaseAccount.
  - by apply np_updateProviderList.
  - by apply np_matchProviders.
  - apply np_updatePermission.
  - apply np_updateKeys.
  - apply np_updateBilling.
  - by apply IH.
  - done.
Qed.

Lemma expectedNonce_cases t l :
  (∃ e, L_expectedNonce t l = (Err e, l)) ∨
  (∃ n, L_expectedNonce t l = (Ok n, l) ∧
     (is_Some (l_accounts l !! GetAccountAddress t) ∨ GetTransactionType t = TransactionTypeBaseAccount)).
Proof.
  unfold L_expectedNonce. go_unfold.
  destruct (l_accounts l !! GetAccountAddress t) as [a|]; go_unfold; [right; eauto|].
  destruct (decide (GetTransactionType t ≠ _)) as [|Ht]; [left; eauto|].
  right. exists 0. split; [done|]. right. by apply dec_stable.
Qed.

Lemma np_apply t h l :
  wf_ledger l → wf_tx t → tokens_listed t →
  (baseAccount t = None → GetTransactionType t ≠ TransactionTypeBaseAccount) → np_at l (L_apply t h).
Proof.
  intros Hl Hwf Ht Hty. unfold L_apply, np_at, mbind at 1, gom_bind at 1.
  destruct (expectedNonce_cases t l) as [[e ->]|(n & -> & Hn)]; [done|].
  case_decide; [done|]. apply np_bind.
  - apply np_applyTransaction; [done..|]. intros Hb. destruct Hn as [|]; [done|]. by destruct (Hty Hb).
  - intros _ l' _. apply np_pure_bind; [apply np_getAccount|reads|]. done.
Qed.
End apply.

(** C30: [apply] does not panic: from a well-formed state, a transaction whose token
    types have a balance slot and whose type tag does not claim to be a base
    account when it is not one returns normally or with an error. *)
Theorem apply_no_panic `{Env} t height s :
  wf_state s → wf_tx t → tokens_listed t →
  (baseAccount t = None → GetTransactionType t ≠ TransactionTypeBaseAccount) →
  (MetaTx.apply t height s).1 ≠ Panic.
Proof.
  intros Hwf Ht Hl Hty. destruct (at_apply s t height Hwf Ht) as (r & s' & Hm & Hf & _).
  rewrite Hm. pose proof (np_apply t height (view s) (wf_view _ Hwf) Ht Hl Hty) as Hnp.
  unfold np_at in Hnp. by rewrite Hf in Hnp.
Qed.

Lemma apply_no_panic_witness :
  (MetaTx.apply (sampleTransfer 5 300 carol) 7 sampleState).1 ≠ Panic.
Proof. by apply apply_no_panic; [apply wf_sampleState|..]. Defined.

(** The two excluded cases do panic: an unlisted token type, and a transfer from
    an account that does not exist to a database, tagged as a base account. *)
Lemma apply_unlisted_token_panics :
  (MetaTx.apply (TxTransfer (signedBy 1 (MkTransferHeader alice bob 5 1 2))) 7 sampleState).1 = Panic.
Proof. vm_compute. reflexivity. Qed.

Lemma apply_mistyped_transfer_panics :
  (MetaTx.apply (TxTransfer (MkSigned (MkTransferHeader carol dbHash 0 1 Particle)
     (MkMixin TransactionTypeBaseAccount 0) (MkHSV zeroHash (Some 3) None))) 7 sampleState).1 = Panic.
Proof. vm_compute. reflexivity. Qed.

(** ** Failures without effect *)

(** Transactions whose handler writes only after its last check. *)
Fixpoint checks_first `{Env} (t : Transaction) : bool :=
  match t with
  | TxBaseAccount _ _ | TxUpdatePermission _ | TxIssueKeys _ | TxUpdateBilling _ => true
  | TxWrapper t => checks_first t
  | _ => false
  end.

Section atomic.
Context `{Env}.

(** A handler that fails leaves the ledger alone, and one that succeeds does not
    remove accounts. *)
Definition all_or_nothing (l : ledger) (m : LM unit) : Prop :=
  ((m l).1 ≠ Ok tt → (m l).2 = l) ∧
  (∀ k, is_Some (l_accounts l !! k) → is_Some (l_accounts (m l).2 !! k)).

Lemma aon_pure l (m : LM unit) : (m l).2 = l → all_or_nothing l m.
Proof. unfold all_or_nothing. by intros ->. Qed.

Lemma aon_pure_bind {A} l (m : LM A) (k : A → LM unit) :
  (m l).2 = l → (∀ a, all_or_nothing l (k a)) → all_or_nothing l (mbind k m).
Proof.
  unfold all_or_nothing, mbind, gom_bind. intros Hp Hk.
  destruct (m l) as [[a|e|] l']; cbn in Hp; subst l'; [apply Hk|done..].
Qed.

Lemma aon_database l k p : all_or_nothing l (modifyS (L_setDatabase k p)).
Proof. done. Qed.

Lemma aon_setAccount l k a : all_or_nothing l (modifyS (L_setAccount k a)).
Proof. split; [done|]. intros j Hj. cbn. rewrite lookup_insert_is_Some. destruct (decide (k = j)); auto. Qed.

Lemma aon_applyTransaction t h l : checks_first t = true → all_or_nothing l (L_applyTransaction t h).
Proof.
  induction t as [t|a m|t|t|t|t|t|t IH|]; intros Hc; try done; cbn [L_applyTransaction].
  - unfold L_storeBaseAccount. apply aon_pure_bind; [done|]. intros l0.
    destruct (l_accounts l0 !! _); [|apply aon_setAccount]. case_decide; [by apply aon_pure|].
    do 4 (apply aon_pure_bind; [reads|intros ?]). do 2 (apply aon_pure_bind; [done|intros ?]).
    apply aon_setAccount.
  - unfold L_updatePermission. destruct (PubKeyHash _); [|by apply aon_pure..].
    apply aon_pure_bind; [reads|intros p]. destruct (permissionScan _ _ _ _ _ _) as [[]|]; [|by apply aon_pure].
    destruct (_ && _ && _); [by apply aon_pure|done].
  - apply aon_pure_bind; [reads|intros p].
    destruct (findUser _ _); [destruct (negb _)|]; by apply aon_pure.
  - apply aon_pure_bind; [reads|intros p]. do 2 (case_decide; [by apply aon_pure|]).
    destruct (negb _); [by apply aon_pure|done].
  - by apply IH.
Qed.

(** A stored base account exists. *)
Lemma baseAccount_exists t h a l l' :
  baseAccount t = Some a → L_applyTransaction t h l = (Ok tt, l') →
  is_Some (l_accounts l' !! GetAccountAddress t).
Proof.
  intros Hb Ht. destruct (baseAccount_nonce _ _ _ _ _ Hb Ht) as [Hn|Hn];
    apply fmap_Some in Hn as (a' & Ha & _); eauto.
Qed.

Lemma L_apply_atomic t h l :
  checks_first t = true → (baseAccount t = None → GetTransactionType t ≠ TransactionTypeBaseAccount) →
  (L_apply t h l).1 ≠ Ok tt → (L_apply t h l).2 = l.
Proof.
  intros Hc Hty. unfold L_apply. unfold mbind at 1 3. unfold gom_bind at 1 3.
  destruct (expectedNonce_cases t l) as [[e ->]|(n & -> & Hn)]; [done|].
  case_decide; [done|]. destruct (aon_applyTransaction t h l Hc) as [Hfail Hkeep].
  unfold mbind, gom_bind. destruct (L_applyTransaction t h l) as [[[]|e|] l'] eqn:Ht;
    [|intros _; by apply Hfail..]. intros Hinc. exfalso. apply Hinc.
  assert (is_Some (l_accounts l' !! GetAccountAddress t)) as [a Ha].
  { destruct (baseAccount t) eqn:Hb; [by eapply baseAccount_exists|].
    apply (Hkeep (GetAccountAddress t)). destruct Hn; [done|]. by destruct (Hty eq_refl). }
  unfold L_increaseNonce, L_getAccount. go_unfold. by rewrite Ha.
Qed.
End atomic.

(** A base account, permission, key or billing transaction that [apply] refuses
    has no effect: accounts, databases and providers are as before. *)
Theorem apply_error_atomic `{Env} t height s :
  wf_state s → wf_tx t → checks_first t = true →
  (baseAccount t = None → GetTransactionType t ≠ TransactionTypeBaseAccount) →
  (MetaTx.apply t height s).1 ≠ Ok tt → view (MetaTx.apply t height s).2 = view s.
Proof.
  intros Hwf Ht Hc Hty. destruct (at_apply s t height Hwf Ht) as (r & s' & Hm & Hf & _).
  rewrite Hm. cbn [fst snd]. intros Hr.
  pose proof (L_apply_atomic t height (view s) Hc Hty) as Ha. rewrite Hf in Ha. by apply Ha.
Qed.

Lemma apply_error_atomic_witness :
  let t := TxUpdateBilling (signedBy 1 (MkUpdateBillingHeader dbHash 5 [] 0 10 1)) in
  (MetaTx.apply t 7 sampleState).1 = Err ErrInvalidSender ∧
  view (MetaTx.apply t 7 sampleState).2 = view sampleState.
Proof.
  intros t. split; [vm_compute; reflexivity|].
  apply apply_error_atomic; [apply wf_sampleState|done..|]. vm_compute. discriminate.
Defined.

(** The other kinds can fail and leave a trace: a transfer that the sender cannot
    pay creates the receiver; a provider that cannot pay the new deposit is
    refunded and taken off the list. *)
Lemma failed_transfer_creates_account :
  let s' := (MetaTx.apply (sampleTransfer 5 (10 ^ 10) carol) 7 sampleState).2 in
  (MetaTx.apply (sampleTransfer 5 (10 ^ 10) carol) 7 sampleState).1 = Err ErrInsufficientBalance ∧
  accounts sampleState !! carol = None ∧ accounts s' !! carol = Some (newAccount carol).
Proof. split_and!; vm_compute; reflexivity. Qed.
