(* ===== verification/Storage.v ===== *)
(** * blockproducer: persistent storage

    Models [src/blockproducer/storage.go] and [metaState.compileChanges]: the
    tables of the block producer's SQLite file, one storage procedure per change,
    [store] with its rollback and callback, and the loaders.  A table with a
    UNIQUE key is a finite map from that key, [INSERT OR REPLACE] its insertion;
    "blocks" is kept in [rowid] order because [loadBlocks] reads it in that order.
    A statement can fail for reasons outside the program: a transaction carries
    the number of statements the engine will still accept ([tx_budget], [None] for
    no failure), so that a failure at every point is covered. *)
From S2P Require Import Prelude Hash Types Block MetaState MetaView MetaTx.
From Stdlib Require Import String ZArith Lia.
From stdpp Require Import base list gmap strings.
Local Open Scope Z_scope.

(** ** Tables *)

(** A row of "blocks". *)
Record blockRow := MkBlockRow {
  row_height : Z;
  row_hash : string;
  row_parent : string;
  row_encoded : list Z;
}.

(** A row of "indexed_blocks" without its key, and of "indexed_transactions". *)
Record indexedBlock := MkIndexedBlock {
  ib_hash : string; ib_timestamp : Z; ib_version : Z; ib_producer : string;
  ib_merkle_root : string; ib_parent : string; ib_tx_count : Z;
}.
Record indexedTx := MkIndexedTx {
  it_hash : string; it_block_hash : string; it_timestamp : Z; it_tx_type : Z;
  it_address : string; it_raw : string;
}.

Record tables := MkTables {
  t_blocks : list blockRow;
  t_txPool : gmap string (Z * list Z);
  t_irreversible : gmap Z string;
  t_accounts : gmap string (list Z);
  t_shardChain : gmap (string * string) (list Z);
  t_provider : gmap string (list Z);
  t_indexed_blocks : gmap Z indexedBlock;
  t_indexed_transactions : gmap (Z * Z) indexedTx;
  t_indexed_shardChains : gset (string * string * string);
}.

Definition emptyTables : tables := MkTables [] ∅ ∅ ∅ ∅ ∅ ∅ ∅ ∅.

(** The statements of the file, as updates of the tables. *)
Inductive stmt :=
| InsertBlock (r : blockRow)
| InsertTx (ttype : Z) (hash : string) (enc : list Z)
| InsertIrreversible (id : Z) (hash : string)
| DeleteTx (hash : string)
| InsertAccount (address : string) (enc : list Z)
| DeleteAccount (address : string)
| InsertShardChain (address id : string) (enc : list Z)
| DeleteShardChain (id : string)
| InsertProvider (address : string) (enc : list Z)
| DeleteProvider (address : string)
| InsertIndexedBlock (height : Z) (r : indexedBlock)
| InsertIndexedTx (height index : Z) (r : indexedTx)
| InsertIndexedShardChain (account address id : string)
| DeleteIndexedShardChain (account address : string)
| DeleteIndexedShardChainById (id : string).

Definition execStmt (q : stmt) (t : tables) : tables :=
  let '(MkTables bl tp irr ac sc pr ib it sx) := t in
  match q with
  | InsertBlock r => MkTables (filter (λ x, row_hash x ≠ row_hash r) bl ++ [r]) tp irr ac sc pr ib it sx
  | InsertTx ty h enc => MkTables bl (<[h := (ty, enc)]> tp) irr ac sc pr ib it sx
  | InsertIrreversible id h => MkTables bl tp (<[id := h]> irr) ac sc pr ib it sx
  | DeleteTx h => MkTables bl (delete h tp) irr ac sc pr ib it sx
  | InsertAccount a enc => MkTables bl tp irr (<[a := enc]> ac) sc pr ib it sx
  | DeleteAccount a => MkTables bl tp irr (delete a ac) sc pr ib it sx
  | InsertShardChain a id enc => MkTables bl tp irr ac (<[(a, id) := enc]> sc) pr ib it sx
  | DeleteShardChain id => MkTables bl tp irr ac (filter (λ kv, kv.1.2 ≠ id) sc) pr ib it sx
  | InsertProvider a enc => MkTables bl tp irr ac sc (<[a := enc]> pr) ib it sx
  | DeleteProvider a => MkTables bl tp irr ac sc (delete a pr) ib it sx
  | InsertIndexedBlock h r => MkTables bl tp irr ac sc pr (<[h := r]> ib) it sx
  | InsertIndexedTx h i r => MkTables bl tp irr ac sc pr ib (<[(h, i) := r]> it) sx
  | InsertIndexedShardChain a ad id => MkTables bl tp irr ac sc pr ib it (sx ∪ {[ (a, ad, id) ]})
  | DeleteIndexedShardChain a ad =>
      MkTables bl tp irr ac sc pr ib it (filter (λ r, ¬ (r.1.1 = a ∧ r.1.2 = ad)) sx)
  | DeleteIndexedShardChainById id => MkTables bl tp irr ac sc pr ib it (filter (λ r, r.2 ≠ id) sx)
  end.

(** ** Transactions on the database *)

Record sqlTx := MkSqlTx { tx_tables : tables; tx_budget : option nat }.

Definition exec (q : stmt) : GoM sqlTx error unit := λ t,
  match tx_budget t with
  | None => (Ok tt, MkSqlTx (execStmt q (tx_tables t)) None)
  | Some O => (Err (ErrNew "sql"), t)
  | Some (S n) => (Ok tt, MkSqlTx (execStmt q (tx_tables t)) (Some n))
  end.

(** [type storageProcedure func(tx *sql.Tx) error] *)
Abbreviation storageProcedure := (GoM sqlTx error unit).

Definition errPass (e : error) : storageProcedure := throw e.

Definition runAll (sps : list storageProcedure) : storageProcedure :=
  foldr (λ sp rest, sp;; rest) (mret tt) sps.

(** [store]: the procedures run in one transaction; if all succeed the callback
    runs and the transaction commits, else everything is rolled back and the
    callback does not run.  [begun] is whether [Begin] succeeded; the state [S]
    is the memory the callback changes.  A failing commit ends the process. *)
Definition store {S} (begun : bool) (budget : option nat) (sps : list storageProcedure) (cb : S → S)
    (db : tables) (s : S) : GoResult error unit * tables * S :=
  if negb begun then (Err (ErrNew "begin"), db, s)
  else
    match runAll sps (MkSqlTx db budget) with
    | (Ok _, t) => (Ok tt, tx_tables t, cb s)
    | (Err e, _) => (Err e, db, s)
    | (Panic, _) => (Panic, db, s)
    end.

Section procedures.
Context `{BlockEnv} `{!MsgPack Account} `{!MsgPack SQLChainProfile} `{!MsgPack ProviderProfile}
  `{!MsgPack BPBlock} `{!MsgPack Transaction}.

(** [json.Marshal(t)], its error dropped, and [t.GetTimestamp().UnixNano()]. *)
Context (json_Marshal : Transaction → string) (GetTimestamp : Transaction → Z).

Definition encodeErr : error := ErrNew "encode".

Definition addBlock (height : Z) (b : BPBlock) : storageProcedure :=
  match EncodeMsgPack b with
  | None => errPass encodeErr
  | Some enc =>
      exec (InsertBlock (MkBlockRow height (Hash_String (BlockHash b)) (Hash_String (ParentHash b)) enc))
  end.

Definition addTx (t : Transaction) : storageProcedure :=
  match EncodeMsgPack t with
  | None => errPass encodeErr
  | Some enc => exec (InsertTx (u32 (GetTransactionType t)) (Hash_String (Tx_Hash t)) enc)
  end.

Fixpoint indexTxs (height : Z) (b : BPBlock) (i : Z) (txs : list Transaction) : storageProcedure :=
  match txs with
  | [] => mret tt
  | t :: txs =>
      exec (InsertIndexedTx height i
        (MkIndexedTx (Hash_String (Tx_Hash t)) (Hash_String (BlockHash b)) (GetTimestamp t)
           (GetTransactionType t) (Hash_String (GetAccountAddress t)) (json_Marshal t)));;
      indexTxs height b (i + 1) txs
  end.

Definition buildBlockIndex (height : Z) (b : BPBlock) : storageProcedure :=
  let h := bs_BPHeader (bl_SignedHeader b) in
  exec (InsertIndexedBlock height
    (MkIndexedBlock (Hash_String (BlockHash b)) (Timestamp b) (bh_Version h) (Hash_String (Producer b))
       (Hash_String (bh_MerkleRoot h)) (Hash_String (ParentHash b))
       (Z.of_nat (length (bl_Transactions b)))));;
  indexTxs height b 0 (bl_Transactions b).

Definition updateIrreversible (h : Hash) : storageProcedure := exec (InsertIrreversible 0 (Hash_String h)).

Definition deleteTxs (txs : list Transaction) : storageProcedure :=
  runAll ((λ t, exec (DeleteTx (Hash_String (Tx_Hash t)))) <$> txs).

Definition updateAccount (a : Account) : storageProcedure :=
  match EncodeMsgPack a with
  | None => errPass encodeErr
  | Some enc => exec (InsertAccount (Hash_String (ac_Address a)) enc)
  end.

Definition deleteAccount (a : AccountAddress) : storageProcedure := exec (DeleteAccount (Hash_String a)).

(** The loop over the users of a profile; a nil permission is dereferenced. *)
Fixpoint indexUsers (p : SQLChainProfile) (us : list SQLChainUser) : storageProcedure :=
  match us with
  | [] => mret tt
  | u :: us =>
      match su_Permission u with
      | None => panic
      | Some perm =>
          (if decide (up_Role perm = Void) then
             exec (DeleteIndexedShardChain (Hash_String (su_Address u)) (Hash_String (sp_Address p)))
           else
             exec (InsertIndexedShardChain (Hash_String (su_Address u)) (Hash_String (sp_Address p))
                     (sp_ID p)));;
          indexUsers p us
      end
  end.

Definition updateShardChain (p : SQLChainProfile) : storageProcedure :=
  match EncodeMsgPack p with
  | None => errPass encodeErr
  | Some enc =>
      exec (InsertShardChain (Hash_String (sp_Address p)) (sp_ID p) enc);;
      indexUsers p (sp_Users p)
  end.

Definition deleteShardChain (id : DatabaseID) : storageProcedure :=
  exec (DeleteShardChain id);; exec (DeleteIndexedShardChainById id).

Definition updateProvider (p : ProviderProfile) : storageProcedure :=
  match EncodeMsgPack p with
  | None => errPass encodeErr
  | Some enc => exec (InsertProvider (Hash_String (pp_Provider p)) enc)
  end.

Definition deleteProvider (a : AccountAddress) : storageProcedure := exec (DeleteProvider (Hash_String a)).

(** [compileChanges], with the dirty maps in the order their iteration gives. *)
Definition compileFrom (las : list (AccountAddress * option Account))
    (lds : list (DatabaseID * option SQLChainProfile))
    (lps : list (AccountAddress * option ProviderProfile)) : list storageProcedure :=
  ((λ kv, match kv.2 with Some v => updateAccount v | None => deleteAccount kv.1 end) <$> las) ++
  ((λ kv, match kv.2 with Some v => updateShardChain v | None => deleteShardChain kv.1 end) <$> lds) ++
  ((λ kv, match kv.2 with Some v => updateProvider v | None => deleteProvider kv.1 end) <$> lps).

Definition compileChanges (s : metaState) (dst : list storageProcedure) : list storageProcedure :=
  dst ++ compileFrom (map_to_list (ix_accounts (dirty s))) (map_to_list (ix_databases (dirty s)))
           (map_to_list (ix_provider (dirty s))).

(** ** Loaders *)

Definition liftDecode {A} (r : GoResult HashError A) : GoResult error A :=
  match r with Ok a => Ok a | Err _ => Err ErrInvalidHash | Panic => Panic end.
Definition liftUnpack {A} (r : option A) : GoResult error A :=
  match r with Some a => Ok a | None => Err (ErrNew "decode") end.

(** A failed [Scan] of a missing row. *)
Definition loadIrreHash (db : tables) : GoResult error Hash :=
  match t_irreversible db !! 0 with
  | None => Err (ErrNew "sql: no rows in result set")
  | Some hex => liftDecode (Decode hex)
  end.

Fixpoint loadTxRows (rows : list (string * (Z * list Z))) (pool : gmap Hash Transaction)
    : GoResult error (gmap Hash Transaction) :=
  match rows with
  | [] => Ok pool
  | (hex, (_, enc)) :: rows =>
      result_bind (liftDecode (Decode hex)) (λ th,
        result_bind (liftUnpack (DecodeMsgPack enc)) (λ dec, loadTxRows rows (<[th := dec]> pool)))
  end.
Definition loadTxPool (db : tables) : GoResult error (gmap Hash Transaction) :=
  loadTxRows (map_to_list (t_txPool db)) ∅.

Definition loadBlock (db : tables) (h : Hash) : GoResult error BPBlock :=
  match list_find (λ r, row_hash r = Hash_String h) (t_blocks db) with
  | None => Err (ErrNew "sql: no rows in result set")
  | Some (_, r) => liftUnpack (DecodeMsgPack (row_encoded r))
  end.

(** The two address-keyed tables are read alike. *)
Fixpoint loadRows {A} `{!MsgPack A} (rows : list (string * list Z)) (m : gmap AccountAddress (option A))
    : GoResult error (gmap AccountAddress (option A)) :=
  match rows with
  | [] => Ok m
  | (hex, enc) :: rows =>
      result_bind (liftDecode (Decode hex)) (λ addr,
        result_bind (liftUnpack (DecodeMsgPack enc)) (λ dec, loadRows rows (<[addr := Some dec]> m)))
  end.

Definition loadAndCacheAccounts (db : tables) : GoResult error (gmap AccountAddress (option Account)) :=
  loadRows (map_to_list (t_accounts db)) ∅.
Definition loadAndCacheProviders (db : tables)
    : GoResult error (gmap AccountAddress (option ProviderProfile)) :=
  loadRows (map_to_list (t_provider db)) ∅.

Fixpoint loadProfileRows (rows : list (string * string * list Z)) (m : gmap DatabaseID (option SQLChainProfile))
    : GoResult error (gmap DatabaseID (option SQLChainProfile)) :=
  match rows with
  | [] => Ok m
  | (_, id, enc) :: rows =>
      result_bind (liftUnpack (DecodeMsgPack enc)) (λ dec, loadProfileRows rows (<[id := Some dec]> m))
  end.
Definition loadAndCacheShardChainProfiles (db : tables)
    : GoResult error (gmap DatabaseID (option SQLChainProfile)) :=
  loadProfileRows (map_to_list (t_shardChain db)) ∅.

Definition loadImmutableState (db : tables) : GoResult error metaState :=
  result_bind (loadAndCacheAccounts db) (λ a,
    result_bind (loadAndCacheShardChainProfiles db) (λ d,
      result_bind (loadAndCacheProviders db) (λ p, Ok (MkState newMetaIndex (MkIndex a d p))))).

(** The loop of [loadBlocks]: every node so far by hash, and the heads. *)
Fixpoint loadBlockRows (rows : list blockRow) (index heads : gmap Hash blockNode)
    : GoResult error (gmap Hash blockNode * gmap Hash blockNode) :=
  match rows with
  | [] => Ok (index, heads)
  | r :: rows =>
      result_bind (liftDecode (Decode (row_hash r))) (λ bh,
      result_bind (liftDecode (Decode (row_parent r))) (λ ph,
      result_bind (liftUnpack (DecodeMsgPack (row_encoded r))) (λ dec,
        if decide (row_height r = 0) then
          if decide (size index ≠ 0)%nat then Err ErrMultipleGenesis
          else
            let bn := newNonCacheBlockNode 0 dec None in
            loadBlockRows rows (<[bh := bn]> index) (<[bh := bn]> heads)
        else
          match index !! ph with
          | None => Err (ErrWrap ErrParentNotFound)
          | Some pn =>
              let bn := newNonCacheBlockNode (row_height r) dec (Some pn) in
              loadBlockRows rows (<[bh := bn]> index) (<[bh := bn]> (delete ph heads))
          end)))
  end.

Definition loadBlocks (db : tables) (irreHash : Hash) : GoResult error (blockNode * list blockNode) :=
  result_bind (loadBlockRows (t_blocks db) ∅ ∅) (λ '(index, heads),
    match index !! irreHash with
    | None => Err (ErrWrap ErrParentNotFound)
    | Some irre => Ok (irre, (map_to_list heads).*2)
    end).

Definition loadDatabase (db : tables)
    : GoResult error (blockNode * list blockNode * metaState * gmap Hash Transaction) :=
  result_bind (loadIrreHash db) (λ irreHash,
    result_bind (loadBlocks db irreHash) (λ '(irre, heads),
      result_bind (loadImmutableState db) (λ immutable,
        result_bind (loadTxPool db) (λ txPool, Ok (irre, heads, immutable, txPool))))).
End procedures.
