(* ===== verification/StorageProps.v ===== *)
(** * Storage refines the meta state

    [stored db ix]: the meta tables of [db] hold exactly the index [ix].  Loading
    such a database gives [ix] back, and storing the compiled changes of a meta
    state together with its commit keeps disk and memory in step, whatever the
    iteration order of the dirty maps and wherever a statement fails. *)
From S2P Require Import Prelude Hash Types Block MetaState MetaView MetaTx Storage.
From Stdlib Require Import String ZArith Lia.
From stdpp Require Import base list gmap strings.
Local Open Scope Z_scope.
#[local] Opaque Hash_String Decode.

(** ** Tables keyed by an address *)

Section address_tables.
Context {A : Type} `{!MsgPack A}.
Implicit Types (t : gmap string (list Z)) (m : gmap AccountAddress (option A)).

Record stored_in t m : Prop := {
  stored_entry k o : m !! k = Some o →
    ∃ a enc, o = Some a ∧ valid_hash k ∧ EncodeMsgPack a = Some enc ∧ t !! Hash_String k = Some enc;
  stored_row hex enc : t !! hex = Some enc →
    ∃ k a, hex = Hash_String k ∧ valid_hash k ∧ m !! k = Some (Some a) ∧ EncodeMsgPack a = Some enc;
}.

Lemma stored_empty : stored_in ∅ ∅.
Proof. by split. Qed.

Lemma stored_insert t m k a enc :
  stored_in t m → valid_hash k → EncodeMsgPack a = Some enc →
  stored_in (<[Hash_String k := enc]> t) (<[k := Some a]> m).
Proof.
  intros [He Hr] Hk Henc. split.
  - intros j o. destruct (decide (k = j)) as [<-|Hne].
    + rewrite !lookup_insert_eq. intros [= <-]. eauto 10.
    + rewrite lookup_insert_ne by done. intros (b & e & -> & Hj & Hb & Ht)%He.
      exists b, e. split_and!; [done..|]. rewrite lookup_insert_ne; [done|].
      intros ?%Hash_String_inj; done.
  - intros hex e. destruct (decide (hex = Hash_String k)) as [->|Hne].
    + rewrite lookup_insert_eq. intros [= <-]. exists k, a. by rewrite lookup_insert_eq.
    + rewrite lookup_insert_ne by done. intros (j & b & -> & Hj & Hb & Hbe)%Hr.
      exists j, b. rewrite lookup_insert_ne; [done|]. congruence.
Qed.

Lemma stored_delete t m k :
  stored_in t m → valid_hash k → stored_in (delete (Hash_String k) t) (delete k m).
Proof.
  intros [He Hr] Hk. split.
  - intros j o. rewrite lookup_delete_Some. intros [Hne (b & e & -> & Hj & Hb & Ht)%He].
    exists b, e. split_and!; [done..|]. rewrite lookup_delete_ne; [done|].
    intros ?%Hash_String_inj; done.
  - intros hex e. rewrite lookup_delete_Some. intros [Hne (j & b & -> & Hj & Hb & Hbe)%Hr].
    exists j, b. rewrite lookup_delete_ne; [done|]. congruence.
Qed.

(** Reading the rows, in any order, installs the values of [m]. *)
Lemma loadRows_lookup rows m acc :
  (∀ hex enc, (hex, enc) ∈ rows →
     ∃ k a, hex = Hash_String k ∧ valid_hash k ∧ m !! k = Some (Some a) ∧ EncodeMsgPack a = Some enc) →
  ∃ m', loadRows rows acc = Ok m' ∧
    ∀ j, m' !! j = if decide (valid_hash j ∧ Hash_String j ∈ rows.*1) then m !! j else acc !! j.
Proof.
  revert acc. induction rows as [|[hex enc] rows IH]; intros acc Hrows; cbn [loadRows].
  { exists acc. split; [done|]. intros j. rewrite decide_False; [done|]. intros [_ Hin].
    by apply elem_of_nil in Hin. }
  destruct (Hrows hex enc) as (k & a & -> & Hk & Hm & Henc); [left|].
  rewrite Decode_Hash_String by done. cbn [liftDecode result_bind].
  rewrite (Decode_Encode _ _ Henc). cbn [liftUnpack result_bind].
  destruct (IH (<[k := Some a]> acc)) as (m' & -> & Hm').
  { intros h e Hin. apply Hrows. by right. }
  exists m'. split; [done|]. intros j. rewrite Hm'. cbn [fmap list_fmap fst].
  destruct (decide (k = j)) as [<-|Hne].
  - rewrite (decide_True (P := valid_hash k ∧ Hash_String k ∈ Hash_String k :: _))
      by (split; [done|left]). case_decide; [done|]. by rewrite lookup_insert_eq.
  - rewrite lookup_insert_ne by done. apply decide_ext. split; intros [Hj Hin]; (split; [done|]).
    + by right.
    + apply elem_of_cons in Hin as [Heq|Hin]; [|done].
      apply Hash_String_inj in Heq; [congruence|done..].
Qed.

Lemma loadRows_stored t m rows :
  stored_in t m → rows ≡ₚ map_to_list t → loadRows rows ∅ = Ok m.
Proof.
  intros [He Hr] Hp. destruct (loadRows_lookup rows m ∅) as (m' & -> & Hm').
  { intros hex enc Hin. apply Hr. rewrite Hp in Hin. by apply elem_of_map_to_list in Hin. }
  f_equal. apply map_eq. intros j. rewrite Hm', lookup_empty. case_decide as Hd; [done|].
  symmetry. apply eq_None_not_Some. intros [o Ho]. apply Hd.
  destruct (He j o Ho) as (a & enc & _ & Hj & _ & Ht). split; [done|].
  apply list_elem_of_fmap. exists (Hash_String j, enc). split; [done|].
  rewrite Hp. by apply elem_of_map_to_list.
Qed.
End address_tables.

(** ** The profile table *)

Section profile_table.
Context `{!MsgPack SQLChainProfile}.
Implicit Types (t : gmap (string * string) (list Z)) (m : gmap DatabaseID (option SQLChainProfile)).

(** A profile sits at the address its database identifier spells. *)
Definition at_home (id : DatabaseID) (p : SQLChainProfile) : Prop :=
  sp_ID p = id ∧ AccountAddress_of id = Ok (sp_Address p).

Record stored_profiles t m : Prop := {
  profile_entry id o : m !! id = Some o →
    ∃ p enc, o = Some p ∧ at_home id p ∧ EncodeMsgPack p = Some enc ∧
             t !! (Hash_String (sp_Address p), id) = Some enc;
  profile_row a id enc : t !! (a, id) = Some enc →
    ∃ p, m !! id = Some (Some p) ∧ a = Hash_String (sp_Address p) ∧ EncodeMsgPack p = Some enc;
}.

Lemma stored_profiles_empty : stored_profiles ∅ ∅.
Proof. by split. Qed.

Lemma stored_profiles_insert t m id p enc :
  stored_profiles t m → at_home id p → EncodeMsgPack p = Some enc →
  stored_profiles (<[(Hash_String (sp_Address p), id) := enc]> t) (<[id := Some p]> m).
Proof.
  intros [He Hr] Hp Henc. split.
  - intros j o. destruct (decide (id = j)) as [<-|Hne].
    + rewrite lookup_insert_eq. intros [= <-]. exists p, enc. by rewrite lookup_insert_eq.
    + rewrite lookup_insert_ne by done. intros (q & e & -> & Hq & Hqe & Ht)%He.
      exists q, e. rewrite lookup_insert_ne by congruence. done.
  - intros a j e. destruct (decide (j = id)) as [->|Hne].
    + rewrite lookup_insert_eq. destruct (decide (a = Hash_String (sp_Address p))) as [->|Ha].
      { rewrite lookup_insert_eq. intros [= <-]. by exists p. }
      rewrite lookup_insert_ne by congruence. intros (q & Hm & -> & _)%Hr.
      destruct (He _ _ Hm) as (q' & _ & [= <-] & [_ Hq] & _). destruct Hp as [_ Hp].
      rewrite Hq in Hp. congruence.
    + rewrite !lookup_insert_ne by congruence. apply Hr.
Qed.

Lemma stored_profiles_delete t m id :
  stored_profiles t m → stored_profiles (filter (λ kv, kv.1.2 ≠ id) t) (delete id m).
Proof.
  intros [He Hr]. split.
  - intros j o. rewrite lookup_delete_Some. intros [Hne (q & e & -> & Hq & Hqe & Ht)%He].
    exists q, e. split_and!; [done..|]. by apply map_lookup_filter_Some.
  - intros a j e. rewrite map_lookup_filter_Some. cbn. intros [(q & Hm & Ha & Hq)%Hr Hne].
    exists q. by rewrite lookup_delete_ne.
Qed.

Lemma loadProfileRows_lookup rows m acc :
  (∀ a id enc, (a, id, enc) ∈ rows → ∃ p, m !! id = Some (Some p) ∧ EncodeMsgPack p = Some enc) →
  ∃ m', loadProfileRows rows acc = Ok m' ∧
    ∀ j, m' !! j = if decide (j ∈ rows.*1.*2) then m !! j else acc !! j.
Proof.
  revert acc. induction rows as [|[[a id] enc] rows IH]; intros acc Hrows; cbn [loadProfileRows].
  { exists acc. split; [done|]. intros j. rewrite decide_False; [done|]. apply not_elem_of_nil. }
  destruct (Hrows a id enc) as (p & Hm & Henc); [left|].
  rewrite (Decode_Encode _ _ Henc). cbn [liftUnpack result_bind].
  destruct (IH (<[id := Some p]> acc)) as (m' & -> & Hm').
  { intros h i e Hin. apply (Hrows h). by right. }
  exists m'. split; [done|]. intros j. rewrite Hm'. cbn [fmap list_fmap fst snd].
  destruct (decide (id = j)) as [<-|Hne].
  - rewrite (decide_True (P := id ∈ id :: _)) by left. case_decide; [done|]. by rewrite lookup_insert_eq.
  - rewrite lookup_insert_ne by done. apply decide_ext. rewrite elem_of_cons.
    split; [by right|]. by intros [->|].
Qed.

Lemma loadProfileRows_stored t m rows :
  stored_profiles t m → rows ≡ₚ map_to_list t → loadProfileRows rows ∅ = Ok m.
Proof.
  intros [He Hr] Hp. destruct (loadProfileRows_lookup rows m ∅) as (m' & -> & Hm').
  { intros a id enc Hin. rewrite Hp in Hin. apply elem_of_map_to_list in Hin.
    destruct (Hr _ _ _ Hin) as (p & ? & _ & ?). eauto. }
  f_equal. apply map_eq. intros j. rewrite Hm', lookup_empty.
  destruct (decide _) as [Hd|Hd]; [reflexivity|].
  symmetry. apply eq_None_not_Some. intros [o Ho]. apply Hd.
  destruct (He j o Ho) as (p & enc & _ & _ & _ & Ht).
  apply list_elem_of_fmap. exists (Hash_String (sp_Address p), j). split; [reflexivity|].
  apply list_elem_of_fmap. exists (Hash_String (sp_Address p), j, enc). split; [reflexivity|].
  rewrite Hp. by apply elem_of_map_to_list.
Qed.
End profile_table.

(** ** Running procedures *)

Section procedures.
Context `{BlockEnv} `{!MsgPack Account} `{!MsgPack SQLChainProfile} `{!MsgPack ProviderProfile}
  `{!MsgPack BPBlock} `{!MsgPack Transaction}.

(** The meta tables of [db] hold the index [ix]. *)
Record stored (db : tables) (ix : metaIndex) : Prop := {
  st_accounts : stored_in (t_accounts db) (ix_accounts ix);
  st_databases : stored_profiles (t_shardChain db) (ix_databases ix);
  st_provider : stored_in (t_provider db) (ix_provider ix);
}.

Lemma exec_Ok q t r : exec q t = (Ok tt, r) → tx_tables r = execStmt q (tx_tables t).
Proof. unfold exec. destruct (tx_budget t) as [[|n]|]; [done|..]; by intros [= <-]. Qed.

(** A procedure that, when it succeeds, turns a database storing [ix] into one
    storing [f ix]. *)
Definition stores (f : metaIndex → metaIndex) (sp : storageProcedure) : Prop :=
  ∀ t t' ix, stored (tx_tables t) ix → sp t = (Ok tt, t') → stored (tx_tables t') (f ix).

Lemma stores_exec f q :
  (∀ t ix, stored t ix → stored (execStmt q t) (f ix)) → stores f (exec q).
Proof. intros Hq t t' ix Hst Hrun. apply exec_Ok in Hrun as ->. by apply Hq. Qed.

Lemma stores_bind f g (sp sq : storageProcedure) :
  stores f sp → stores g sq → stores (λ ix, g (f ix)) (sp;; sq).
Proof. intros Hp Hq t t' ix Hst Hrun. apply bind_Ok in Hrun as ([] & t1 & H1 & H2). eauto. Qed.

Lemma stores_runAll (fs : list (metaIndex → metaIndex)) sps :
  Forall2 stores fs sps → stores (λ ix, foldl (λ ix f, f ix) ix fs) (runAll sps).
Proof.
  induction 1 as [|f sp fs sps Hf _ IH]; cbn.
  - intros t t' ix Hst [= <-]. done.
  - exact (stores_bind f (λ ix, foldl (λ ix f, f ix) ix fs) sp (runAll sps) Hf IH).
Qed.

Lemma runAll_app sps sqs t :
  runAll (sps ++ sqs) t = (runAll sps;; runAll sqs) t.
Proof.
  revert t. induction sps as [|sp sps IH]; intros t; cbn; [done|].
  rewrite bind_assoc. unfold mbind, gom_bind. destruct (sp t) as [[]]; [apply IH|done..].
Qed.

(** The statements that do not touch the meta tables. *)
Definition other_tables (q : stmt) : Prop :=
  ∀ t, t_accounts (execStmt q t) = t_accounts t ∧ t_shardChain (execStmt q t) = t_shardChain t ∧
       t_provider (execStmt q t) = t_provider t.

Lemma stores_other q : other_tables q → stores id (exec q).
Proof.
  intros Hq. apply stores_exec. intros t ix [Ha Hd Hp]. destruct (Hq t) as (Ea & Ed & Ep).
  split; by rewrite ?Ea, ?Ed, ?Ep.
Qed.

Lemma stores_errPass f e : stores f (errPass e).
Proof. by intros t t' ix. Qed.

Lemma stores_updateAccount k a : wf_account k a → valid_hash k →
  stores (λ ix, MkIndex (<[k := Some a]> (ix_accounts ix)) (ix_databases ix) (ix_provider ix))
    (updateAccount a).
Proof.
  intros [Hk _ _ _] Hv. unfold updateAccount. destruct (EncodeMsgPack a) as [enc|] eqn:He;
    [|apply stores_errPass]. apply stores_exec. intros [] ix [Ha Hd Hp]. rewrite Hk.
  split; [by apply stored_insert|done..].
Qed.

Lemma stores_deleteAccount k : valid_hash k →
  stores (λ ix, MkIndex (delete k (ix_accounts ix)) (ix_databases ix) (ix_provider ix)) (deleteAccount k).
Proof.
  intros Hv. apply stores_exec. intros [] ix [Ha Hd Hp]. split; [by apply stored_delete|done..].
Qed.

Lemma stores_updateProvider k p : wf_provider k p → valid_hash k →
  stores (λ ix, MkIndex (ix_accounts ix) (ix_databases ix) (<[k := Some p]> (ix_provider ix)))
    (updateProvider p).
Proof.
  intros [Hk _] Hv. unfold updateProvider. destruct (EncodeMsgPack p) as [enc|] eqn:He;
    [|apply stores_errPass]. apply stores_exec. intros [] ix [Ha Hd Hp]. rewrite Hk.
  split; [done..|by apply stored_insert].
Qed.

Lemma stores_deleteProvider k : valid_hash k →
  stores (λ ix, MkIndex (ix_accounts ix) (ix_databases ix) (delete k (ix_provider ix))) (deleteProvider k).
Proof.
  intros Hv. apply stores_exec. intros [] ix [Ha Hd Hp]. split; [done..|by apply stored_delete].
Qed.

Lemma stores_indexUsers p us : stores id (indexUsers p us).
Proof.
  induction us as [|u us IH]; cbn; [by intros t t' ix Hst [= <-]|].
  destruct (su_Permission u); [|by intros t t' ix]. apply (stores_bind id id); [|done].
  case_decide; apply stores_other; by intros [].
Qed.

Lemma stores_updateShardChain id p : at_home id p →
  stores (λ ix, MkIndex (ix_accounts ix) (<[id := Some p]> (ix_databases ix)) (ix_provider ix))
    (updateShardChain p).
Proof.
  intros Hp. unfold updateShardChain. destruct (EncodeMsgPack p) as [enc|] eqn:He;
    [|apply stores_errPass].
  apply (stores_bind _ (λ ix, ix)); [|apply stores_indexUsers].
  apply stores_exec. intros [] ix [Ha Hd Hpr]. pose proof Hp as [-> _].
  split; [done|by apply stored_profiles_insert|done].
Qed.

Lemma stores_deleteShardChain id :
  stores (λ ix, MkIndex (ix_accounts ix) (delete id (ix_databases ix)) (ix_provider ix))
    (deleteShardChain id).
Proof.
  apply (stores_bind _ (λ ix, ix)).
  - apply stores_exec. intros [] ix [Ha Hd Hp]. split; [done|by apply stored_profiles_delete|done].
  - apply stores_other. by intros [].
Qed.

(** ** Compiled changes *)

Lemma stores_accounts las :
  Forall (λ kv, valid_hash kv.1 ∧ ∀ a, kv.2 = Some a → wf_account kv.1 a) las →
  stores (λ ix, MkIndex (foldl commitStep (ix_accounts ix) las) (ix_databases ix) (ix_provider ix))
    (runAll ((λ kv, match kv.2 with Some v => updateAccount v | None => deleteAccount kv.1 end) <$> las)).
Proof.
  induction 1 as [|[k [a|]] las [Hv Ha] _ IH]; cbn.
  - intros t t' [] Hst [= <-]. done.
  - eapply (stores_bind _ _ _ _ (stores_updateAccount k a (Ha a eq_refl) Hv) IH).
  - eapply (stores_bind _ _ _ _ (stores_deleteAccount k Hv) IH).
Qed.

Lemma stores_databases lds :
  Forall (λ kv, ∀ p, kv.2 = Some p → at_home kv.1 p) lds →
  stores (λ ix, MkIndex (ix_accounts ix) (foldl commitStep (ix_databases ix) lds) (ix_provider ix))
    (runAll ((λ kv, match kv.2 with Some v => updateShardChain v | None => deleteShardChain kv.1 end) <$> lds)).
Proof.
  induction 1 as [|[k [p|]] lds Hp _ IH]; cbn.
  - intros t t' [] Hst [= <-]. done.
  - eapply (stores_bind _ _ _ _ (stores_updateShardChain k p (Hp p eq_refl)) IH).
  - eapply (stores_bind _ _ _ _ (stores_deleteShardChain k) IH).
Qed.

Lemma stores_providers lps :
  Forall (λ kv, valid_hash kv.1 ∧ ∀ p, kv.2 = Some p → wf_provider kv.1 p) lps →
  stores (λ ix, MkIndex (ix_accounts ix) (ix_databases ix) (foldl commitStep (ix_provider ix) lps))
    (runAll ((λ kv, match kv.2 with Some v => updateProvider v | None => deleteProvider kv.1 end) <$> lps)).
Proof.
  induction 1 as [|[k [p|]] lps [Hv Hp] _ IH]; cbn.
  - intros t t' [] Hst [= <-]. done.
  - eapply (stores_bind _ _ _ _ (stores_updateProvider k p (Hp p eq_refl) Hv) IH).
  - eapply (stores_bind _ _ _ _ (stores_deleteProvider k Hv) IH).
Qed.

(** The dirty entries of a state that can be stored: addresses are hashes, and
    profiles sit at their home address. *)
Record storable (s : metaState) : Prop := {
  sto_accounts k o : ix_accounts (dirty s) !! k = Some o → valid_hash k;
  sto_databases id p : ix_databases (dirty s) !! id = Some (Some p) → at_home id p;
  sto_provider k o : ix_provider (dirty s) !! k = Some o → valid_hash k;
}.

(** An order in which Go may iterate over the dirty maps. *)
Definition iteration_of {K V} `{Countable K} (l : list (K * V)) (m : gmap K V) : Prop :=
  l ≡ₚ map_to_list m.

Lemma iteration_Forall {K V} `{Countable K} (P : K → V → Prop) l (m : gmap K V) :
  iteration_of l m → (∀ k v, m !! k = Some v → P k v) → Forall (λ kv, P kv.1 kv.2) l.
Proof.
  intros Hp HP. unfold iteration_of in Hp. rewrite Hp. apply Forall_forall.
  intros [k v] Hin. apply HP. by apply elem_of_map_to_list.
Qed.

Lemma foldl_commitMap {K V} `{Countable K} (d r : gmap K (option V)) l :
  iteration_of l d → foldl commitStep r l = commitMap d r.
Proof.
  intros Hp. apply map_eq. intros k. by rewrite (commit_any_order d), lookup_commitMap.
Qed.

Lemma stores_changes s las lds lps :
  wf_state s → storable s → iteration_of las (ix_accounts (dirty s)) →
  iteration_of lds (ix_databases (dirty s)) → iteration_of lps (ix_provider (dirty s)) →
  ∀ t t', stored (tx_tables t) (readonly s) → runAll (compileFrom las lds lps) t = (Ok tt, t') →
  stored (tx_tables t') (readonly (commit s)).
Proof.
  intros Hwf Hsto Hla Hld Hlp t t' Hst Hrun. unfold compileFrom in Hrun.
  rewrite runAll_app in Hrun. apply bind_Ok in Hrun as ([] & t1 & H1 & Hrun).
  rewrite runAll_app in Hrun. apply bind_Ok in Hrun as ([] & t2 & H2 & H3).
  assert (Forall (λ kv, valid_hash kv.1 ∧ ∀ a, kv.2 = Some a → wf_account kv.1 a) las) as Fa.
  { apply (iteration_Forall (λ k o, valid_hash k ∧ ∀ a, o = Some a → wf_account k a) _ _ Hla).
    intros k o Ho. split; [by eapply sto_accounts|].
    intros a ->. by destruct (wf_dirty_accounts _ Hwf _ _ Ho) as (a' & [= <-] & ?). }
  assert (Forall (λ kv, ∀ p, kv.2 = Some p → at_home kv.1 p) lds) as Fd.
  { apply (iteration_Forall (λ k o, ∀ p, o = Some p → at_home k p) _ _ Hld).
    intros k o Ho p ->. by eapply sto_databases. }
  assert (Forall (λ kv, valid_hash kv.1 ∧ ∀ p, kv.2 = Some p → wf_provider kv.1 p) lps) as Fp.
  { apply (iteration_Forall (λ k o, valid_hash k ∧ ∀ p, o = Some p → wf_provider k p) _ _ Hlp).
    intros k o Ho. split; [by eapply sto_provider|].
    intros p ->. by apply (wf_dirty_provider _ Hwf _ _ Ho). }
  pose proof (stores_providers lps Fp _ _ _
    (stores_databases lds Fd _ _ _ (stores_accounts las Fa _ _ _ Hst H1) H2) H3) as Hfin.
  cbn in Hfin. by rewrite (foldl_commitMap _ _ _ Hla), (foldl_commitMap _ _ _ Hld),
    (foldl_commitMap _ _ _ Hlp) in Hfin.
Qed.

Lemma loadImmutableState_stored db ix : stored db ix → loadImmutableState db = Ok (MkState newMetaIndex ix).
Proof.
  intros [Ha Hd Hp].
  unfold loadImmutableState, loadAndCacheAccounts, loadAndCacheShardChainProfiles, loadAndCacheProviders.
  rewrite (loadRows_stored _ _ _ Ha), (loadProfileRows_stored _ _ _ Hd), (loadRows_stored _ _ _ Hp) by done.
  by destruct ix.
Qed.
End procedures.

Section neutral.
Context `{BlockEnv} `{!MsgPack Account} `{!MsgPack SQLChainProfile} `{!MsgPack ProviderProfile}
  `{!MsgPack BPBlock} `{!MsgPack Transaction}.

(** The block, pool and index procedures leave the meta tables alone. *)
Lemma neutral_addBlock h b : stores (λ ix, ix) (addBlock h b).
Proof. unfold addBlock. destruct (EncodeMsgPack b); [apply stores_other; by intros []|apply stores_errPass]. Qed.
Lemma neutral_addTx t : stores (λ ix, ix) (addTx t).
Proof. unfold addTx. destruct (EncodeMsgPack t); [apply stores_other; by intros []|apply stores_errPass]. Qed.
Lemma neutral_updateIrreversible h : stores (λ ix, ix) (updateIrreversible h).
Proof. apply stores_other. by intros []. Qed.
Lemma neutral_deleteTxs txs : stores (λ ix, ix) (deleteTxs txs).
Proof.
  unfold deleteTxs. induction txs as [|t txs IH]; cbn; [by intros ? ? ? ? [= <-]|].
  apply (stores_bind (λ ix, ix) (λ ix, ix)); [|done]. apply stores_other. by intros [].
Qed.
Lemma neutral_buildBlockIndex json ts h b : stores (λ ix, ix) (buildBlockIndex json ts h b).
Proof.
  apply (stores_bind (λ ix, ix) (λ ix, ix)); [apply stores_other; by intros []|].
  generalize 0. induction (bl_Transactions b) as [|t txs IH]; intros i; cbn;
    [by intros ? ? ? ? [= <-]|].
  apply (stores_bind (λ ix, ix) (λ ix, ix)); [|apply IH]. apply stores_other. by intros [].
Qed.

Lemma neutral_runAll sps : Forall (stores (λ ix, ix)) sps → stores (λ ix, ix) (runAll sps).
Proof.
  induction 1 as [|sp sps Hsp _ IH]; cbn; [by intros ? ? ? ? [= <-]|].
  by apply (stores_bind (λ ix, ix) (λ ix, ix)).
Qed.

(** When no statement fails. *)
Definition succeeds (sp : storageProcedure) : Prop :=
  ∀ t, tx_budget t = None → ∃ t', sp t = (Ok tt, t') ∧ tx_budget t' = None.

Lemma succeeds_exec q : succeeds (exec q).
Proof. intros [t b] [= ->]. by eexists. Qed.

Lemma succeeds_bind (sp sq : storageProcedure) : succeeds sp → succeeds sq → succeeds (sp;; sq).
Proof.
  intros Hp Hq t Ht. destruct (Hp t Ht) as (t1 & H1 & Hb1). destruct (Hq t1 Hb1) as (t2 & H2 & Hb2).
  exists t2. split; [|done]. apply bind_Ok. eauto.
Qed.

Lemma succeeds_runAll sps : Forall succeeds sps → succeeds (runAll sps).
Proof.
  induction 1 as [|sp sps Hsp _ IH]; cbn; [intros t Ht; by exists t|]. by apply succeeds_bind.
Qed.

(** Every dirty value can be encoded, and every user entry has a permission
    object. *)
Record encodable (s : metaState) : Prop := {
  enc_accounts k a : ix_accounts (dirty s) !! k = Some (Some a) → is_Some (EncodeMsgPack a);
  enc_databases k p : ix_databases (dirty s) !! k = Some (Some p) →
    is_Some (EncodeMsgPack p) ∧ Forall (λ u, su_Permission u ≠ None) (sp_Users p);
  enc_provider k p : ix_provider (dirty s) !! k = Some (Some p) → is_Some (EncodeMsgPack p);
}.

Lemma succeeds_indexUsers p us :
  Forall (λ u, su_Permission u ≠ None) us → succeeds (indexUsers p us).
Proof.
  induction 1 as [|u us Hu _ IH]; cbn; [intros t Ht; by exists t|].
  destruct (su_Permission u); [|done]. apply succeeds_bind; [|done].
  case_decide; apply succeeds_exec.
Qed.

Lemma changes_succeed s las lds lps :
  encodable s → iteration_of las (ix_accounts (dirty s)) →
  iteration_of lds (ix_databases (dirty s)) → iteration_of lps (ix_provider (dirty s)) →
  Forall succeeds (compileFrom las lds lps).
Proof.
  intros [Ha Hd Hp] Hla Hld Hlp. unfold compileFrom. rewrite !Forall_app, !Forall_fmap. split_and!.
  - apply (iteration_Forall (λ k o, succeeds (match o with Some v => updateAccount v | None => deleteAccount k end))
      _ _ Hla). intros k [a|] Ho; [|apply succeeds_exec].
    unfold updateAccount. destruct (Ha k a Ho) as [enc ->]. apply succeeds_exec.
  - apply (iteration_Forall (λ k o, succeeds (match o with Some v => updateShardChain v
      | None => deleteShardChain k end)) _ _ Hld).
    intros k [p|] Ho; [|by apply succeeds_bind; apply succeeds_exec].
    unfold updateShardChain. destruct (Hd k p Ho) as [[enc ->] Hu].
    apply succeeds_bind; [apply succeeds_exec|by apply succeeds_indexUsers].
  - apply (iteration_Forall (λ k o, succeeds (match o with Some v => updateProvider v | None => deleteProvider k end))
      _ _ Hlp). intros k [p|] Ho; [|apply succeeds_exec].
    unfold updateProvider. destruct (Hp k p Ho) as [enc ->]. apply succeeds_exec.
Qed.
End neutral.

(** C28: disk and memory stay in step.  Storing the compiled changes of a state
    with its commit, among procedures that leave the meta tables alone, in any
    iteration order of the dirty maps: if it succeeds, the database holds exactly
    the committed state, so loading it gives that state back; if it fails at any
    statement, neither the database nor the state has changed. *)
Theorem store_commit_atomic `{BlockEnv} `{!MsgPack Account} `{!MsgPack SQLChainProfile}
    `{!MsgPack ProviderProfile} `{!MsgPack BPBlock} `{!MsgPack Transaction}
    s db pre post las lds lps begun budget r db' s' :
  wf_state s → storable s → stored db (readonly s) →
  Forall (stores (λ ix, ix)) pre → Forall (stores (λ ix, ix)) post →
  iteration_of las (ix_accounts (dirty s)) → iteration_of lds (ix_databases (dirty s)) →
  iteration_of lps (ix_provider (dirty s)) →
  store begun budget (pre ++ compileFrom las lds lps ++ post) commit db s = (r, db', s') →
  (r = Ok tt → s' = commit s ∧ stored db' (readonly s') ∧ loadImmutableState db' = Ok s') ∧
  (r ≠ Ok tt → db' = db ∧ s' = s).
Proof.
  intros Hwf Hsto Hst Hpre Hpost Hla Hld Hlp. unfold store. destruct (negb begun).
  { by intros [= <- <- <-]. }
  destruct (runAll _ _) as [[[]|e|] t] eqn:Hrun; intros [= <- <- <-]; [|done..]. split; [intros _|done].
  rewrite runAll_app in Hrun. apply bind_Ok in Hrun as ([] & t1 & H1 & Hrun).
  rewrite runAll_app in Hrun. apply bind_Ok in Hrun as ([] & t2 & H2 & H3).
  apply (neutral_runAll _ Hpre (MkSqlTx db budget) _ _ Hst) in H1.
  pose proof (stores_changes s las lds lps Hwf Hsto Hla Hld Hlp _ _ H1 H2) as H2'.
  apply (neutral_runAll _ Hpost _ _ _ H2') in H3. split; [done|]. split; [done|].
  by rewrite (loadImmutableState_stored _ _ H3).
Qed.

(** Storing succeeds when the engine accepts the statements, every changed
    object can be encoded and every user entry has a permission object. *)
Theorem store_succeeds `{BlockEnv} `{!MsgPack Account} `{!MsgPack SQLChainProfile}
    `{!MsgPack ProviderProfile} `{!MsgPack BPBlock} `{!MsgPack Transaction} s db :
  encodable s →
  ∃ db', store true None (compileChanges s []) commit db s = (Ok tt, db', commit s).
Proof.
  intros He. unfold store, compileChanges. cbn [negb app].
  destruct (succeeds_runAll _ (changes_succeed s _ _ _ He (reflexivity _) (reflexivity _) (reflexivity _))
    (MkSqlTx db None) eq_refl) as (t & -> & _). eauto.
Qed.
