(* ===== verification/Branch.v ===== *)
(** * blockproducer: branches

    Models [src/blockproducer/branch.go]: a branch is a head node, the meta state
    previewed up to that head and the transactions packed and not yet packed.
    [makeArena] shares the read-only index with its origin, and [storeBaseAccount]
    writes through to it; so the operations that work on an arena return, next to
    their result, the origin as they leave it ([shareReadonly]). *)
From S2P Require Import Prelude Hash Types Block MetaState MetaTx.
From Stdlib Require Import String ZArith Lia.
From stdpp Require Import base list gmap strings sorting.
Local Open Scope Z_scope.

Abbreviation pool := (gmap Hash Transaction).

Section branch_type.
Context `{Env}.

Record branch := MkBranch {
  br_head : blockNode;
  br_preview : metaState;
  br_packed : pool;
  br_unpacked : pool;
}.
End branch_type.

Section branch.
Context `{BlockEnv}.
Implicit Types (b : branch) (tx v : Transaction).

Abbreviation BM := (GoM branch error).

Definition set_preview b (s : metaState) : branch := MkBranch (br_head b) s (br_packed b) (br_unpacked b).
Definition set_head b (n : blockNode) : branch := MkBranch n (br_preview b) (br_packed b) (br_unpacked b).
Definition set_packed b (p : pool) : branch := MkBranch (br_head b) (br_preview b) p (br_unpacked b).
Definition set_unpacked b (u : pool) : branch := MkBranch (br_head b) (br_preview b) (br_packed b) u.

(** A meta state operation on the branch's preview. *)
Definition onPreview {A} (m : GoM metaState error A) : BM A := λ b,
  let '(r, s) := m (br_preview b) in (r, set_preview b s).

(** One transaction of a block: it leaves the unpacked pool or is verified, must
    not be packed already, and is applied to the preview. *)
Definition absorbTx (height : Z) v : BM unit :=
  let k := Tx_Hash v in
  b ← getS;
  (if decide (is_Some (br_unpacked b !! k))
   then modifyS (λ b, set_unpacked b (delete k (br_unpacked b)))
   else match Tx_Verify v with Some e => throw e | None => mret tt end);;
  b ← getS;
  if decide (is_Some (br_packed b !! k)) then throw ErrExistedTx
  else
    modifyS (λ b, set_packed b (<[k := v]> (br_packed b)));;
    onPreview (MetaTx.apply v height).

Fixpoint absorbTxs (height : Z) (txs : list Transaction) : BM unit :=
  match txs with
  | [] => mret tt
  | v :: txs => absorbTx height v;; absorbTxs height txs
  end.

(** One block node of [newBranch]; the node's block is dereferenced. *)
Definition absorbNode (n : option blockNode) : BM unit :=
  n ← deref n;
  if decide (bn_txCount n > MaxTransactionsPerBlock) then throw ErrTooManyTransactionsInBlock
  else
    block ← deref (load n);
    absorbTxs (bn_height n) (bl_Transactions block).

Fixpoint absorbNodes (ns : list (option blockNode)) : BM unit :=
  match ns with
  | [] => mret tt
  | n :: ns => absorbNode n;; absorbNodes ns
  end.

Definition newBranch (baseNode headNode : blockNode) (baseState : metaState) (basePool : pool)
    : GoResult error branch :=
  match fetchNodeList headNode (u32 (bn_count baseNode + 1)) with
  | None => Panic
  | Some list =>
      match absorbNodes list (MkBranch headNode (makeCopy baseState) ∅ basePool) with
      | (Ok _, inst) => Ok (set_preview inst (commit (br_preview inst)))
      | (Err e, _) => Err e
      | (Panic, _) => Panic
      end
  end.

Definition makeArena b : branch :=
  MkBranch (br_head b) (MkState newMetaIndex (readonly (br_preview b))) (br_packed b) (br_unpacked b).

(** The origin after work on an arena: it still refers to the shared index. *)
Definition shareReadonly b (arena : branch) : branch :=
  set_preview b (MkState (dirty (br_preview b)) (readonly (br_preview arena))).

Definition addTx b tx : branch :=
  let k := Tx_Hash tx in
  match br_packed b !! k with
  | Some _ => b
  | None =>
      match br_unpacked b !! k with
      | Some _ => b
      | None => set_unpacked b (<[k := tx]> (br_unpacked b))
      end
  end.

Definition applyBlock b (n : blockNode) : GoResult error branch * branch :=
  match load n with
  | None => (Panic, b)
  | Some block =>
      if negb (Hash_IsEqual (Some (bn_hash (br_head b))) (Some (ParentHash block)))
      then (Err ErrParentNotMatch, b)
      else if decide (bn_txCount n > MaxTransactionsPerBlock)
      then (Err ErrTooManyTransactionsInBlock, b)
      else
        match absorbTxs (bn_height n) (bl_Transactions block) (makeArena b) with
        | (Ok _, cpy) => (Ok (set_head cpy n), shareReadonly b cpy)
        | (Err e, cpy) => (Err e, shareReadonly b cpy)
        | (Panic, cpy) => (Panic, shareReadonly b cpy)
        end
  end.

(** [bytes.Compare] *)
Fixpoint bytes_Compare (x y : list Z) : comparison :=
  match x, y with
  | [], [] => Eq
  | [], _ :: _ => Lt
  | _ :: _, [] => Gt
  | a :: x, b :: y => match Z.compare a b with Eq => bytes_Compare x y | c => c end
  end.

(** The [less] of [sortUnpackedTxs]. *)
Definition tx_less (x y : Transaction) : bool :=
  match bytes_Compare (GetAccountAddress x) (GetAccountAddress y) with
  | Lt => true
  | Gt => false
  | Eq => bool_decide (GetAccountNonce x < GetAccountNonce y)
  end.
Definition tx_le (x y : Transaction) : Prop := tx_less y x = false.

#[export] Instance tx_le_dec x y : Decision (tx_le x y).
Proof. unfold tx_le. apply _. Defined.

Definition sortUnpackedTxs b : list Transaction := merge_sort tx_le (map_to_list (br_unpacked b)).*2.

(** The packing loop of [produceBlock]: a transaction that does not apply is
    skipped, and what it wrote stays. *)
Fixpoint packLoop (h : Z) (packCount : nat) (txs out : list Transaction) : BM (list Transaction) :=
  match txs with
  | [] => mret out
  | v :: txs =>
      let k := Tx_Hash v in
      r ← attempt (onPreview (MetaTx.apply v h));
      match r with
      | inl _ => packLoop h packCount txs out
      | inr _ =>
          modifyS (λ b, set_packed (set_unpacked b (delete k (br_unpacked b))) (<[k := v]> (br_packed b)));;
          let out := out ++ [v] in
          if decide (length out = packCount) then mret out else packLoop h packCount txs out
      end
  end.

(** [produceBlock], for the unpacked transactions in the order given. *)
Definition produceBlock_from (txs : list Transaction) b (h ts : Z) (addr : AccountAddress)
    (signer : PrivateKey) : GoResult error (branch * BPBlock) * branch :=
  let packCount := Nat.min (Z.to_nat MaxTransactionsPerBlock) (length txs) in
  match packLoop h packCount txs [] (makeArena b) with
  | (Panic, cpy) => (Panic, shareReadonly b cpy)
  | (Err e, cpy) => (Err e, shareReadonly b cpy)
  | (Ok out, cpy) =>
      let block := MkBPBlock
        (MkBPSignedHeader (MkBPHeader 0x01000000 addr zeroHash (bn_hash (br_head cpy)) ts)
           (MkHSV zeroHash None None)) out in
      (match PackAndSignBlock block signer with
       | Err e => Err (ErrWrap e)
       | Panic => Panic
       | Ok block => Ok (set_head cpy (newBlockNode h block (Some (br_head cpy))), block)
       end, shareReadonly b cpy)
  end.

Definition produceBlock b : Z → Z → AccountAddress → PrivateKey → GoResult error (branch * BPBlock) * branch :=
  produceBlock_from (sortUnpackedTxs b) b.

Definition clearPackedTxs b (txs : list Transaction) : branch :=
  set_packed b (foldl (λ p v, delete (Tx_Hash v) p) (br_packed b) txs).
Definition clearUnpackedTxs b (txs : list Transaction) : branch :=
  set_unpacked b (foldl (λ p v, delete (Tx_Hash v) p) (br_unpacked b) txs).

(** [pi.TransactionState] *)
Inductive TransactionState :=
| TransactionStatePending | TransactionStatePacked | TransactionStateConfirmed
| TransactionStateExpired | TransactionStateNotFound.

Definition queryTxState b (h : Hash) : option TransactionState :=
  if decide (is_Some (br_unpacked b !! h)) then Some TransactionStatePending
  else if decide (is_Some (br_packed b !! h)) then Some TransactionStatePacked
  else None.
End branch.
