(* ===== verification/BranchProps.v ===== *)
(** * Properties of branches

    The pools of a branch are keyed by transaction hash and disjoint; a block that
    was produced on a branch is accepted on it, with the same result, unless a
    skipped transaction left something behind. *)
From S2P Require Import Prelude Hash Types Block MetaState MetaView MetaTx Ledger LedgerRefine Sample Branch.
From Stdlib Require Import String ZArith Lia.
From stdpp Require Import base list gmap strings sorting.
Local Open Scope Z_scope.

Section invariant.
Context `{BlockEnv}.
Implicit Types (b : branch) (v : Transaction).

(** Every pooled transaction sits at its own hash, and none is both packed and
    unpacked. *)
Record wf_pools b : Prop := {
  wf_packed_key k v : br_packed b !! k = Some v → Tx_Hash v = k;
  wf_unpacked_key k v : br_unpacked b !! k = Some v → Tx_Hash v = k;
  wf_disjoint : br_packed b ##ₘ br_unpacked b;
}.

Lemma wf_pools_preview b s : wf_pools b → wf_pools (set_preview b s).
Proof. by intros []. Qed.
Lemma wf_pools_head b n : wf_pools b → wf_pools (set_head b n).
Proof. by intros []. Qed.
Lemma wf_pools_arena b : wf_pools b → wf_pools (makeArena b).
Proof. by intros []. Qed.

Lemma wf_pools_delete b k : wf_pools b → wf_pools (set_unpacked b (delete k (br_unpacked b))).
Proof.
  intros [Hp Hu Hd]. split; cbn; [done| |].
  - intros j v. rewrite lookup_delete_Some. intros [_ ?]. by apply Hu.
  - by apply map_disjoint_delete_r.
Qed.

Lemma wf_pools_pack b v :
  wf_pools b → br_unpacked b !! Tx_Hash v = None →
  wf_pools (set_packed b (<[Tx_Hash v := v]> (br_packed b))).
Proof.
  intros [Hp Hu Hd] Hn. split; cbn; [|done|].
  - intros j w. rewrite lookup_insert_Some. intros [[<- <-]|[_ ?]]; [done|by apply Hp].
  - by apply map_disjoint_insert_l.
Qed.

Lemma wf_pools_addTx b v : wf_pools b → wf_pools (addTx b v).
Proof.
  intros [Hp Hu Hd]. unfold addTx. destruct (br_packed b !! Tx_Hash v) eqn:Ep; [done|].
  destruct (br_unpacked b !! Tx_Hash v) eqn:Eu; [done|]. split; cbn; [done| |].
  - intros j w. rewrite lookup_insert_Some. intros [[<- <-]|[_ ?]]; [done|by apply Hu].
  - by apply map_disjoint_insert_r.
Qed.

Lemma wf_pools_onPreview {A} (m : GoM metaState error A) : preserves wf_pools (onPreview m).
Proof.
  intros b r b' Hb. unfold onPreview. destruct (m (br_preview b)) as [r1 s]. intros [= <- <-].
  by apply wf_pools_preview.
Qed.

Lemma wf_pools_absorbTx h v : preserves wf_pools (absorbTx h v).
Proof.
  intros b r b' Hb. unfold absorbTx. go_unfold.
  destruct (decide (is_Some (br_unpacked b !! Tx_Hash v))) as [Hu|Hu].
  - set (b1 := set_unpacked b _). assert (wf_pools b1) as Hb1 by by apply wf_pools_delete.
    case_decide; [by intros [= <- <-]|]. apply wf_pools_onPreview. apply wf_pools_pack; [done|].
    apply lookup_delete_eq.
  - destruct (Tx_Verify v); [by intros [= <- <-]|]. cbn beta iota.
    case_decide; [by intros [= <- <-]|]. apply wf_pools_onPreview. apply wf_pools_pack; [done|].
    by apply eq_None_not_Some.
Qed.

Lemma wf_pools_absorbTxs h txs : preserves wf_pools (absorbTxs h txs).
Proof.
  induction txs as [|v txs IH]; cbn; [apply preserves_ret|].
  apply preserves_bind; [apply wf_pools_absorbTx|done].
Qed.

Lemma wf_pools_absorbNodes ns : preserves wf_pools (absorbNodes ns).
Proof.
  induction ns as [|n ns IH]; cbn; [apply preserves_ret|].
  apply preserves_bind; [|done]. apply preserves_bind; [apply preserves_deref|]. intros n'.
  case_decide; [apply preserves_throw|]. apply preserves_bind; [apply preserves_deref|].
  intros bl. apply wf_pools_absorbTxs.
Qed.

Lemma wf_pools_packLoop h n txs out : preserves wf_pools (packLoop h n txs out).
Proof.
  revert out. induction txs as [|v txs IH]; intros out; cbn; [apply preserves_ret|].
  apply preserves_bind; [apply preserves_attempt, wf_pools_onPreview|].
  intros [e|[]]; [apply IH|]. apply preserves_bind.
  - apply preserves_modifyS. intros b Hb.
    change (wf_pools (set_packed (set_unpacked b (delete (Tx_Hash v) (br_unpacked b)))
      (<[Tx_Hash v := v]> (br_packed (set_unpacked b (delete (Tx_Hash v) (br_unpacked b))))))).
    apply wf_pools_pack; [by apply wf_pools_delete|]. apply lookup_delete_eq.
  - intros _. case_decide; [apply preserves_ret|apply IH].
Qed.

Lemma foldl_delete_subseteq (txs : list Transaction) (p : pool) :
  foldl (λ p v, delete (Tx_Hash v) p) p txs ⊆ p.
Proof.
  revert p. induction txs as [|v txs IH]; intros p; cbn; [done|].
  etrans; [apply IH|apply delete_subseteq].
Qed.

Lemma wf_pools_clear b txs :
  wf_pools b → wf_pools (clearPackedTxs b txs) ∧ wf_pools (clearUnpackedTxs b txs).
Proof.
  intros [Hp Hu Hd]. pose proof (foldl_delete_subseteq txs) as Hsub. split; (split; cbn).
  - intros k v Hk. apply Hp. by eapply lookup_weaken.
  - done.
  - by eapply map_disjoint_weaken_l.
  - done.
  - intros k v Hk. apply Hu. by eapply lookup_weaken.
  - by eapply map_disjoint_weaken_r.
Qed.
End invariant.

(** Every operation keeps a branch's pools consistent: keyed by hash and
    disjoint, so no transaction is packed and pending at once.  This covers a new
    branch, added transactions, an applied block, a produced block, and the
    removal of transactions. *)
Theorem branch_pools_consistent `{BlockEnv} b n v h ts addr signer txs base head state p :
  wf_pools b → (∀ k v, p !! k = Some v → Tx_Hash v = k) →
  wf_pools (addTx b v) ∧
  (∀ b', (applyBlock b n).1 = Ok b' → wf_pools b') ∧ wf_pools (applyBlock b n).2 ∧
  (∀ b' bl, (produceBlock_from txs b h ts addr signer).1 = Ok (b', bl) → wf_pools b') ∧
  wf_pools (produceBlock_from txs b h ts addr signer).2 ∧
  wf_pools (clearPackedTxs b txs) ∧ wf_pools (clearUnpackedTxs b txs) ∧
  (∀ b', newBranch base head state p = Ok b' → wf_pools b').
Proof.
  intros Hb Hp. pose proof (wf_pools_arena b Hb) as Ha. unfold applyBlock, produceBlock_from. split_and!.
  - by apply wf_pools_addTx.
  - intros b'. destruct (load n) as [bl|]; [|done]. destruct (negb _); [done|]. case_decide; [done|].
    destruct (absorbTxs _ _ _) as [[]] eqn:Hr; cbn; [|done..]. intros [= <-].
    apply wf_pools_head. by eapply wf_pools_absorbTxs.
  - destruct (load n) as [bl|]; [|done]. destruct (negb _); [done|]. case_decide; [done|].
    destruct (absorbTxs _ _ _) as [[]]; by apply wf_pools_preview.
  - intros b' bl. destruct (packLoop _ _ _ _ _) as [[out| |] cpy] eqn:Hr; cbn; [|done..].
    destruct (PackAndSignBlock _ _); cbn; [|done..]. intros [= <- <-].
    apply wf_pools_head. by eapply wf_pools_packLoop.
  - destruct (packLoop _ _ _ _ _) as [[out| |] cpy]; by apply wf_pools_preview.
  - by apply wf_pools_clear.
  - by apply wf_pools_clear.
  - intros b'. unfold newBranch. destruct (fetchNodeList _ _) as [l|]; [|done].
    destruct (absorbNodes _ _) as [[]] eqn:Hr; [|done..]. intros [= <-]. apply wf_pools_preview.
    eapply wf_pools_absorbNodes; [|done]. split; cbn; [done|done|apply map_disjoint_empty_l].
Qed.

(** ** Producing and applying agree *)

Section replay.
Context `{BlockEnv}.
Implicit Types (b : branch) (v : Transaction).

(** [apply] depends on the ledger a state denotes only. *)
Lemma apply_view t h s1 s2 :
  wf_state s1 → wf_state s2 → view s1 = view s2 → wf_tx t →
  (MetaTx.apply t h s1).1 = (MetaTx.apply t h s2).1 ∧
  view (MetaTx.apply t h s1).2 = view (MetaTx.apply t h s2).2 ∧
  wf_state (MetaTx.apply t h s1).2 ∧ wf_state (MetaTx.apply t h s2).2.
Proof.
  intros Hw1 Hw2 Hv Ht.
  destruct (at_apply s1 t h Hw1 Ht) as (r1 & s1' & Hm1 & Hf1 & Hw1' & _).
  destruct (at_apply s2 t h Hw2 Ht) as (r2 & s2' & Hm2 & Hf2 & Hw2' & _).
  rewrite Hm1, Hm2. rewrite Hv, Hf2 in Hf1. apply pair_equal_spec in Hf1 as [-> Hs]. done.
Qed.

(** Two branches that differ at most in how their previews are represented. *)
Record same_branch b1 b2 : Prop := {
  sb_packed : br_packed b1 = br_packed b2;
  sb_unpacked : br_unpacked b1 = br_unpacked b2;
  sb_view : view (br_preview b1) = view (br_preview b2);
  sb_wf1 : wf_state (br_preview b1);
  sb_wf2 : wf_state (br_preview b2);
}.

(** Each candidate applies, or leaves the ledger as it was. *)
Fixpoint traceless (h : Z) (txs : list Transaction) (s : metaState) : Prop :=
  match txs with
  | [] => True
  | v :: txs =>
      ((MetaTx.apply v h s).1 = Ok tt ∨ view (MetaTx.apply v h s).2 = view s) ∧
      traceless h txs (MetaTx.apply v h s).2
  end.

Lemma onPreview_run {A} (m : GoM metaState error A) b :
  onPreview m b = ((m (br_preview b)).1, set_preview b (m (br_preview b)).2).
Proof. unfold onPreview. by destruct (m (br_preview b)). Qed.

(** A pending transaction that applies is absorbed. *)
Lemma absorbTx_pending h v b s :
  br_unpacked b !! Tx_Hash v = Some v → br_packed b !! Tx_Hash v = None →
  MetaTx.apply v h (br_preview b) = (Ok tt, s) →
  absorbTx h v b = (Ok tt, MkBranch (br_head b) s (<[Tx_Hash v := v]> (br_packed b))
                             (delete (Tx_Hash v) (br_unpacked b))).
Proof.
  intros Hu Hp Ha. unfold absorbTx. go_unfold. rewrite decide_True by (by rewrite Hu).
  cbn [br_packed set_unpacked]. rewrite decide_False by (rewrite Hp; by intros []).
  rewrite onPreview_run. cbn [set_packed set_unpacked br_preview]. by rewrite Ha.
Qed.

Lemma packLoop_replay h n txs out bP bA outR bP' :
  same_branch bP bA → wf_pools bP → NoDup (Tx_Hash <$> txs) → Forall wf_tx txs →
  Forall (λ v, br_unpacked bP !! Tx_Hash v = Some v) txs →
  traceless h txs (br_preview bP) → (length out < n ∨ txs = [])%nat →
  packLoop h n txs out bP = (Ok outR, bP') →
  ∃ ext bA', outR = out ++ ext ∧ absorbTxs h ext bA = (Ok tt, bA') ∧ same_branch bP' bA' ∧
    br_head bP' = br_head bP ∧ br_head bA' = br_head bA ∧ (length outR <= n ∨ txs = [])%nat.
Proof.
  revert out bP bA. induction txs as [|v txs IH]; intros out bP bA Hs Hw Hnd Htx Hpend Htl Hlen Hrun;
    cbn [packLoop] in Hrun.
  { injection Hrun as <- <-. exists [], bA. rewrite app_nil_r. split_and!; auto. }
  rewrite fmap_cons in Hnd. apply NoDup_cons in Hnd as [Hni Hnd]. apply Forall_cons in Htx as [Hv Htx].
  apply Forall_cons in Hpend as [Hpv Hpend]. destruct Htl as [Htv Htl].
  destruct Hlen as [Hlen|]; [|done]. destruct Hs as [Ep Eu Ev Hw1 Hw2].
  destruct (apply_view v h _ _ Hw1 Hw2 Ev Hv) as (Er & Ev' & Hw1' & Hw2').
  unfold mbind, gom_bind, attempt in Hrun. rewrite onPreview_run in Hrun.
  destruct (MetaTx.apply v h (br_preview bP)) as [r sP] eqn:HaP.
  destruct (MetaTx.apply v h (br_preview bA)) as [r' sA] eqn:HaA. cbn [fst snd] in *. subst r'.
  destruct r as [[]|e|]; [..|done].
  - unfold modifyS in Hrun. set (bP1 := set_packed _ _) in Hrun.
    assert (br_packed bP !! Tx_Hash v = None) as Hnp.
    { destruct Hw as [_ _ Hd]. rewrite map_disjoint_spec in Hd.
      destruct (br_packed bP !! Tx_Hash v) eqn:E; [|done]. by destruct (Hd _ _ _ E Hpv). }
    set (bA1 := MkBranch (br_head bA) sA (<[Tx_Hash v := v]> (br_packed bA))
                  (delete (Tx_Hash v) (br_unpacked bA))).
    assert (absorbTx h v bA = (Ok tt, bA1)) as Hab.
    { apply absorbTx_pending; [by rewrite <- Eu|by rewrite <- Ep|done]. }
    assert (same_branch bP1 bA1) as Hs1 by (subst bP1 bA1; split; cbn; congruence).
    assert (wf_pools bP1) as Hwp1.
    { subst bP1. change (wf_pools (set_packed (set_unpacked (set_preview bP sP)
        (delete (Tx_Hash v) (br_unpacked (set_preview bP sP)))) (<[Tx_Hash v := v]> (br_packed
        (set_unpacked (set_preview bP sP) (delete (Tx_Hash v) (br_unpacked bP))))))).
      apply wf_pools_pack; [by apply (wf_pools_delete (set_preview bP sP)), wf_pools_preview|]. apply lookup_delete_eq. }
    destruct (decide (length (out ++ [v]) = n)) as [Hn|Hn].
    + injection Hrun as <- <-. exists [v], bA1. cbn [absorbTxs]. unfold mbind, gom_bind. rewrite Hab.
      split_and!; try done. left. lia.
    + rewrite length_app in Hn. cbn in Hn.
      destruct (IH (out ++ [v]) bP1 bA1) as (ext & bA' & -> & Hext & Hs' & HhP & HhA & Hl); try done.
      * apply Forall_forall. intros w Hin. rewrite Forall_forall in Hpend. cbn.
        rewrite lookup_delete_ne; [by apply Hpend|]. intros He. apply Hni. rewrite He.
        by apply list_elem_of_fmap_2.
      * left. rewrite length_app. cbn. lia.
      * exists (v :: ext), bA'. cbn [absorbTxs]. unfold mbind, gom_bind. rewrite Hab, <- app_assoc.
        split_and!; try done. left. destruct Hl as [Hl|Hl]; [rewrite !length_app in *; cbn in *; lia|].
        subst txs. cbn in Hrun. injection Hrun as Heq _.
        rewrite app_assoc, <- Heq, length_app. cbn. lia.
  - destruct Htv as [|Htv]; [done|].
    destruct (IH out (set_preview bP sP) bA) as (ext & bA' & -> & Hext & Hs' & HhP & HhA & Hl); try done.
    + split; cbn; congruence.
    + by apply wf_pools_preview.
    + by left.
    + exists ext, bA'. split_and!; try done. left. destruct Hl as [|Hl]; [lia|].
      subst txs. cbn in Hrun. injection Hrun as Heq _. rewrite <- Heq. lia.
Qed.
End replay.

Section agreement.
Context `{BlockEnv}.

(** Packing and signing fills in the merkle root, hash and signature only. *)
Lemma PackAndSignBlock_fields b signer b' :
  PackAndSignBlock b signer = Ok b' →
  bl_Transactions b' = bl_Transactions b ∧ ParentHash b' = ParentHash b.
Proof.
  unfold PackAndSignBlock, setMerkleRoot. destruct (merkleRoot b); [|done..]. cbn [result_bind].
  destruct (HSV_Sign _ _ _); [|done..]. cbn [result_bind]. by intros [= <-].
Qed.

Lemma pool_candidates b txs :
  wf_pools b → txs ≡ₚ (map_to_list (br_unpacked b)).*2 →
  NoDup (Tx_Hash <$> txs) ∧ Forall (λ v, br_unpacked b !! Tx_Hash v = Some v) txs.
Proof.
  intros [_ Hu _] Hp.
  assert (Tx_Hash <$> (map_to_list (br_unpacked b)).*2 = (map_to_list (br_unpacked b)).*1) as Hkeys.
  { rewrite <- list_fmap_compose. apply list_fmap_ext. intros i [k v] Hi. cbn. apply Hu.
    apply elem_of_map_to_list. by eapply list_elem_of_lookup_2. }
  split.
  - rewrite Hp, Hkeys. apply NoDup_fst_map_to_list.
  - rewrite Hp. apply Forall_forall. intros v ([k v'] & -> & Hin)%list_elem_of_fmap.
    apply elem_of_map_to_list in Hin. cbn. by rewrite (Hu _ _ Hin).
Qed.
End agreement.

(** C29: a block produced on a branch is accepted by [applyBlock] on that branch,
    without verifying any signature, and leads to the same head, the same pools
    and the same ledger as the producer's own branch, for every order of the
    candidates, provided each candidate that was skipped left the ledger as it
    was. *)
Theorem produceBlock_applyBlock `{BlockEnv} b txs h ts addr signer b' block :
  wf_pools b → wf_state (br_preview b) → txs ≡ₚ (map_to_list (br_unpacked b)).*2 →
  Forall wf_tx txs → traceless h txs (clean (br_preview b)) →
  (produceBlock_from txs b h ts addr signer).1 = Ok (b', block) →
  ∃ b'', (applyBlock b (br_head b')).1 = Ok b'' ∧ br_head b'' = br_head b' ∧
    br_packed b'' = br_packed b' ∧ br_unpacked b'' = br_unpacked b' ∧
    view (br_preview b'') = view (br_preview b').
Proof.
  intros Hw Hs Hp Htx Htl. destruct (pool_candidates b txs Hw Hp) as [Hnd Hpend].
  unfold produceBlock_from. set (n := Nat.min _ _).
  destruct (packLoop h n txs [] (makeArena b)) as [[out| |] cpy] eqn:Hpack; cbn [fst]; [|done..].
  destruct (PackAndSignBlock _ _) as [bl| |] eqn:Hsign; cbn [fst]; [|done..]. intros [= <- <-].
  apply PackAndSignBlock_fields in Hsign as [Hbt Hbp]. cbn in Hbt, Hbp.
  assert (wf_state (br_preview (makeArena b))) as Hwa by apply (wf_clean _ Hs).
  destruct (packLoop_replay h n txs [] (makeArena b) (makeArena b) out cpy)
    as (ext & bA & -> & Hext & [Ep Eu Ev _ _] & HhP & HhA & Hl); try done.
  { by apply wf_pools_arena. }
  { destruct txs as [|v txs]; [by right|left]. subst n. unfold MaxTransactionsPerBlock. cbn [length]. lia. }
  assert ((length ext <= Z.to_nat MaxTransactionsPerBlock)%nat) as Hmax.
  { destruct Hl as [Hl| ->]; [cbn in Hl; subst n; lia|]. cbn in Hpack. injection Hpack as <- _. cbn. lia. }
  unfold applyBlock. cbn [br_head set_head newBlockNode load bn_block bn_txCount bn_height].
  rewrite Hbp. unfold Hash_IsEqual. rewrite bool_decide_true by (by rewrite HhP). cbn [negb].
  rewrite decide_False by (rewrite Hbt; cbn [app]; unfold MaxTransactionsPerBlock in *; lia). rewrite Hbt. cbn [app]. rewrite Hext. cbn [fst].
  eexists. split; [done|]. cbn. split_and!; [done|by rewrite Ep|by rewrite Eu|by rewrite Ev].
Qed.
