(* ===== verification/ChainSample.v ===== *)
(** * Concrete blocks, branches and databases

    Instances of the block environment and of the encoder, sample chains and
    branches, and runs of the theorems about blocks, storage and branches on
    them; also the run on which a producer and its peers disagree. *)
From S2P Require Import Prelude Hash Types Block MetaState MetaView MetaTx Ledger LedgerRefine Sample.
From S2P Require Import Storage StorageProps Branch BranchProps.
From Stdlib Require Import String ZArith Lia.
From Corelib Require Import SpecFloat.
From stdpp Require Import base list gmap strings.
Local Open Scope Z_scope.

Lemma sampleSign_Verify (k : Z) (h sig : list Z) :
  Some (k :: h) = Some sig → bool_decide (sig = k :: h) = true.
Proof. intros [= <-]. by apply bool_decide_eq_true. Qed.

#[export] Instance sampleBlockEnv : BlockEnv := {|
  MarshalHash_BPHeader := λ h, Some (bh_Timestamp h / 1000 :: bh_MerkleRoot h ++ bh_ParentHash h);
  MarshalHash_Transaction := λ t, Some (GetAccountAddress t);
  PrivateKey := Z;
  key_PubKey := λ k, k;
  key_Sign := λ k h, Some (k :: h);
  key_Sign_Verify := sampleSign_Verify;
|}.

Definition sampleKey : PrivateKey := 1.

(** ** Blocks *)

Definition sampleBlock (parent : Hash) (txs : list Transaction) (id : Z) : BPBlock :=
  MkBPBlock (MkBPSignedHeader (MkBPHeader 1 alice zeroHash parent 0) (MkHSV (addr id) None None)) txs.

Lemma PackAndSignBlock_Verify_witness : ∃ b',
  PackAndSignBlock (sampleBlock zeroHash [sampleTransfer 5 300 carol] 0) sampleKey = Ok b' ∧
  Block_Verify b' = Ok tt.
Proof.
  eexists. split; [vm_compute; reflexivity|].
  apply (PackAndSignBlock_Verify (sampleBlock zeroHash [sampleTransfer 5 300 carol] 0) sampleKey).
  vm_compute. reflexivity.
Defined.

(** ** Nodes *)

Definition node0 : blockNode := newBlockNode 0 (sampleBlock zeroHash [] 10) None.
Definition node1 : blockNode := newBlockNode 2 (sampleBlock (addr 10) [] 11) (Some node0).
Definition node2 : blockNode := newBlockNode 3 (sampleBlock (addr 11) [] 12) (Some node1).

Lemma wf_node0 : wf_node node0.
Proof. by apply wf_genesis. Qed.
Lemma wf_node1 : wf_node node1.
Proof. apply (wf_newBlockNode _ _ _ wf_node0). done. Qed.
Lemma wf_node2 : wf_node node2.
Proof. apply (wf_newBlockNode _ _ _ wf_node1). done. Qed.

Lemma fetchNodeList_spec_witness : ∃ bl,
  fetchNodeList node2 1 = Some (Some <$> bl) ∧ Z.of_nat (length bl) = 2.
Proof.
  destruct (fetchNodeList_spec node2 1 wf_node2) as (bl & Hbl & Hlen & _); [done|]. by exists bl.
Defined.

Lemma hasAncestor_spec_witness : hasAncestor node2 node1 = true ↔
  ∃ a, ancestry node2 a ∧ bn_count a = bn_count node1 ∧ bn_hash a = bn_hash node1.
Proof. apply (hasAncestor_spec node2 node1 wf_node2). done. Defined.

Lemma lastIrreversible_advances_witness : ∃ i i',
  lastIrreversible node1 1 = Some i ∧ lastIrreversible node2 1 = Some i' ∧ bn_count i' = 1.
Proof.
  destruct (lastIrreversible_advances node2 node1 1 wf_node2 eq_refl) as (i & i' & Hi & Hi' & _ & Hc & _);
    [done|]. by exists i, i'.
Defined.

(** ** Storage *)

(** A codec for accounts without a rating, one for blocks without transactions,
    and encoders that refuse. *)
Definition encodeAccount (a : Account) : option (list Z) :=
  match ac_Rating a with
  | S754_zero false => Some (ac_NextNonce a :: Z.of_nat (length (ac_Address a)) ::
                             ac_Address a ++ ac_TokenBalance a)
  | _ => None
  end.
Definition decodeAccount (enc : list Z) : option Account :=
  match enc with
  | n :: l :: r => Some (MkAccount (take (Z.to_nat l) r) (drop (Z.to_nat l) r) (S754_zero false) n)
  | _ => None
  end.
Lemma decode_encodeAccount a enc : encodeAccount a = Some enc → decodeAccount enc = Some a.
Proof.
  destruct a as [ad bal [[]| | |] n]; try done. intros [= <-]. cbn. rewrite Nat2Z.id.
  by rewrite take_app_length, drop_app_length.
Qed.
#[export] Instance sampleMsgPackAccount : MsgPack Account :=
  {| EncodeMsgPack := encodeAccount; DecodeMsgPack := decodeAccount; Decode_Encode := decode_encodeAccount |}.

Lemma refused {A} (a : A) (enc : list Z) : None = Some enc → None = Some a.
Proof. done. Qed.
Definition noCodec (A : Type) : MsgPack A :=
  {| EncodeMsgPack := λ _, None; DecodeMsgPack := λ _, None; Decode_Encode := refused |}.
#[export] Instance sampleMsgPackProfile : MsgPack SQLChainProfile := noCodec _.
#[export] Instance sampleMsgPackProvider : MsgPack ProviderProfile := noCodec _.

Definition encList (l : list Z) : list Z := Z.of_nat (length l) :: l.
Definition decList (r : list Z) : list Z * list Z :=
  match r with
  | n :: r => (take (Z.to_nat n) r, drop (Z.to_nat n) r)
  | [] => ([], [])
  end.
Lemma decList_encList l r : decList (encList l ++ r) = (l, r).
Proof. cbn. by rewrite Nat2Z.id, take_app_length, drop_app_length. Qed.

Definition encodeBlock (b : BPBlock) : option (list Z) :=
  let '(MkBPBlock (MkBPSignedHeader (MkBPHeader v p m ph ts) (MkHSV dh signee sig)) txs) := b in
  match txs with
  | [] =>
      Some (v :: ts :: encList p ++ encList m ++ encList ph ++ encList dh ++
        encList (match signee with Some k => [k] | None => [] end) ++
        match sig with Some s => [1] ++ s | None => [] end)
  | _ => None
  end.
Definition decodeBlock (enc : list Z) : option BPBlock :=
  match enc with
  | v :: ts :: r =>
      let '(p, r) := decList r in
      let '(m, r) := decList r in
      let '(ph, r) := decList r in
      let '(dh, r) := decList r in
      let '(k, r) := decList r in
      Some (MkBPBlock (MkBPSignedHeader (MkBPHeader v p m ph ts)
        (MkHSV dh (match k with k :: _ => Some k | [] => None end)
           (match r with _ :: s => Some s | [] => None end))) [])
  | _ => None
  end.
Lemma decode_encodeBlock b enc : encodeBlock b = Some enc → decodeBlock enc = Some b.
Proof.
  destruct b as [[[v p m ph ts] [dh signee sig]] [|]]; [|done]. cbn [encodeBlock]. intros Henc.
  apply (inj Some) in Henc. rewrite <- Henc. cbn [decodeBlock].
  repeat (rewrite decList_encList; cbv beta iota). by destruct signee, sig.
Qed.
#[export] Instance sampleMsgPackBlock : MsgPack BPBlock :=
  {| EncodeMsgPack := encodeBlock; DecodeMsgPack := decodeBlock; Decode_Encode := decode_encodeBlock |}.
#[export] Instance sampleMsgPackTransaction : MsgPack Transaction := noCodec _.

Definition freshState : metaState :=
  MkState (MkIndex {[ bob := Some (sampleAccount bob 20 0) ]} ∅ ∅) newMetaIndex.

Lemma wf_freshState : wf_state freshState.
Proof.
  split; cbn [dirty readonly freshState ix_accounts ix_databases ix_provider newMetaIndex];
    try apply map_Forall_empty; try by intros k.
  apply map_Forall_singleton. eexists. split; [done|]. by apply wf_sampleAccount.
Qed.

Lemma storable_freshState : storable freshState.
Proof.
  split; cbn [dirty freshState ix_accounts ix_databases ix_provider].
  - intros k o. rewrite lookup_singleton_Some. intros [<- _]. apply firstBytes_valid.
  - done.
  - done.
Qed.

Lemma stored_emptyTables : stored emptyTables newMetaIndex.
Proof. split; [apply stored_empty|apply stored_profiles_empty|apply stored_empty]. Qed.

Lemma store_commit_atomic_witness : ∃ db',
  store true None (compileChanges freshState []) commit emptyTables freshState = (Ok tt, db', commit freshState) ∧
  loadImmutableState db' = Ok (commit freshState).
Proof.
  eexists. split; [vm_compute; reflexivity|].
  refine (proj2 (proj2 (proj1 (store_commit_atomic freshState emptyTables [] []
    (map_to_list (ix_accounts (dirty freshState))) [] [] true None (Ok tt) _ (commit freshState)
    wf_freshState storable_freshState stored_emptyTables _ _ _ _ _ _) eq_refl))).
  - constructor.
  - constructor.
  - apply Permutation_refl.
  - apply Permutation_refl.
  - apply Permutation_refl.
  - vm_compute. reflexivity.
Defined.

Lemma store_succeeds_witness : ∃ db',
  store true None (compileChanges freshState []) commit emptyTables freshState = (Ok tt, db', commit freshState).
Proof.
  apply store_succeeds. split; cbn [dirty freshState ix_accounts ix_databases ix_provider].
  - intros k a. rewrite lookup_singleton_Some. intros [_ [= <-]]. by eexists.
  - done.
  - done.
Defined.

(** ** Branches *)

(** A transaction with hash [addr id], signed with key [k]. *)
Definition hashedBy {A} (id k : Z) (h : A) : Signed A :=
  MkSigned h (MkMixin 0 77) (MkHSV (addr id) (Some k) (Some [k])).

Definition payBob : Transaction := TxTransfer (hashedBy 21 1 (MkTransferHeader alice bob 5 300 Particle)).
Definition overdraft : Transaction :=
  TxTransfer (hashedBy 22 1 (MkTransferHeader alice carol 5 (10 ^ 10) Particle)).
Definition carolJoins : Transaction :=
  TxUpdatePermission (hashedBy 23 3
    (MkUpdatePermissionHeader dbHash bob (UserPermissionFromRole Admin) 0)).

Definition branchWith (txs : list Transaction) : branch :=
  MkBranch node2 (commit sampleState) ∅ (list_to_map ((λ t, (Tx_Hash t, t)) <$> txs)).

Lemma wf_branch1 : wf_pools (branchWith [payBob]).
Proof.
  split; cbn [branchWith br_packed br_unpacked].
  - done.
  - intros k v Hk. apply elem_of_list_to_map_2 in Hk. apply list_elem_of_fmap in Hk as (t & [= -> ->] & _). done.
  - apply map_disjoint_empty_l.
Qed.

Lemma branch_pools_consistent_witness : wf_pools (addTx (branchWith [payBob]) overdraft) ∧
  (∀ b', (applyBlock (branchWith [payBob]) node2).1 = Ok b' → wf_pools b').
Proof.
  destruct (branch_pools_consistent (branchWith [payBob]) node2 overdraft 4 0 alice sampleKey
    [payBob] node1 node2 (commit sampleState) ∅ wf_branch1) as (H1 & H2 & _); [done|].
  split; [exact H1|exact H2].
Defined.

Lemma branch1_candidates : (map_to_list (br_unpacked (branchWith [payBob]))).*2 = [payBob].
Proof. vm_compute. reflexivity. Qed.

Definition isOk {E A} (r : GoResult E A) : bool := match r with Ok _ => true | _ => false end.
Lemma isOk_Ok {E A} (r : GoResult E A) : isOk r = true → ∃ a, r = Ok a.
Proof. destruct r; [eauto|done..]. Qed.

Lemma produceBlock_applyBlock_witness : ∃ b' block b'',
  (produceBlock_from [payBob] (branchWith [payBob]) 4 0 alice sampleKey).1 = Ok (b', block) ∧
  (applyBlock (branchWith [payBob]) (br_head b')).1 = Ok b'' ∧
  view (br_preview b'') = view (br_preview b').
Proof.
  destruct (isOk_Ok (produceBlock_from [payBob] (branchWith [payBob]) 4 0 alice sampleKey).1)
    as [[b' block] Hp]; [vm_compute; reflexivity|].
  destruct (produceBlock_applyBlock (branchWith [payBob]) [payBob] 4 0 alice sampleKey b' block wf_branch1
    (wf_commit _ wf_sampleState)) as (b'' & Happ & _ & _ & _ & Hv).
  - rewrite branch1_candidates. apply Permutation_refl.
  - constructor; [|constructor]. by split.
  - split; [left; vm_compute; reflexivity|exact I].
  - exact Hp.
  - exists b', block, b''. exact (conj Hp (conj Happ Hv)).
Defined.

(** Without that proviso they can disagree: Alice's overdraft is skipped but
    creates Carol's account, so Carol's own transaction applies for the producer;
    a peer, who only sees Carol's transaction, refuses the block. *)
Lemma producer_peer_disagree :
  match (produceBlock (branchWith [overdraft; carolJoins]) 4 0 alice sampleKey).1 with
  | Ok (b', _) =>
      match (applyBlock (branchWith [overdraft; carolJoins]) (br_head b')).1 with
      | Err e => bool_decide (e = ErrAccountNotFound)
      | _ => false
      end
  | _ => false
  end = true.
Proof. vm_compute. reflexivity. Qed.
