(* ===== verification/Chain.v ===== *)
(** * blockproducer: the chain

    Models [src/blockproducer/chain.go], [bpinfo.go] and the readers of
    [chain_io.go]: a node's branches, its immutable state, its transaction pool and
    its database, and the operations that change them: a received transaction
    ([storeTx]), a received block ([applyBlock]: grow a branch, switch to it, or
    fork), a produced block, start-up ([NewChain]) and the production schedule.

    The chain's mutex makes each operation atomic, so an operation is one state
    transition.  [headBranch] is the branch at [headIndex]: the code sets the two
    together, and between switches only other slots are replaced.  Every operation
    that writes takes the behaviour of the SQL engine ([engine]) as an argument.
    [log.Fatal] ends the process and is a [Panic].  The block cache, whose only
    effect is to drop blocks of irreversible nodes, is left out. *)
From S2P Require Import Prelude Hash Types Block MetaState MetaTx Storage Branch.
From Stdlib Require Import String ZArith Lia.
From Corelib Require Import SpecFloat.
From stdpp Require Import base list gmap strings.
Local Open Scope Z_scope.

(** ** Block producers *)

Record blockProducerInfo := MkBPInfo {
  bp_rank : Z;
  bp_total : Z;
  bp_role : string;
  bp_nodeID : NodeID;
}.

(** [proto.Peers] without its version, term and signature. *)
Record Peers := MkPeers { peers_Leader : NodeID; peers_Servers : list NodeID }.

(** [Peers.Find] *)
Definition Find (p : Peers) (key : NodeID) : option nat :=
  fst <$> list_find (λ s, key = s) (peers_Servers p).

Definition bpInfoOf (peers : Peers) (i : nat) (v : NodeID) : blockProducerInfo :=
  MkBPInfo (u32 (Z.of_nat i)) (u32 (Z.of_nat (length (peers_Servers peers))))
    (if decide (v = peers_Leader peers) then "L" else "F") v.

Definition buildBlockProducerInfos (localNodeID : NodeID) (peers : Peers) (isAPINode : bool)
    : GoResult error (blockProducerInfo * list blockProducerInfo) :=
  let bpInfos := imap (bpInfoOf peers) (peers_Servers peers) in
  if isAPINode then
    Ok (MkBPInfo 0 (u32 (Z.of_nat (length (peers_Servers peers)))) "A" localNodeID, bpInfos)
  else
    match Find peers localNodeID with
    | None => Err ErrLocalNodeNotFound
    | Some index =>
        match bpInfos !! index with
        | None => Panic
        | Some localBPInfo => Ok (localBPInfo, bpInfos)
        end
    end.

(** ** Confirmations *)

Definition float_add : float64 → float64 → float64 := SFadd prec64 emax64.

(** [uint32(math.Ceil(f))] for a finite [f]; what a platform makes of the others
    is a wrapped zero here. *)
Definition ceil_u32 (f : float64) : Z :=
  match f with
  | S754_finite s m e => u32 (- Z.shiftl (if s then Zpos m else Zneg m) e)
  | _ => 0
  end.

Definition DefaultConfirmThreshold : float64 := float_div (float_of_u64 2) (float_of_u64 3).

(** The confirmations a block needs among [l] block producers. *)
Definition needConfirms (l : Z) (configured : float64) : Z :=
  let threshold :=
    match SFcompare configured float_zero with
    | Some Lt | Some Eq => DefaultConfirmThreshold
    | _ => configured
    end in
  let n := ceil_u32 (float_add (float_mul (float_of_u64 l) threshold) (float_of_u64 1)) in
  if decide (n > l) then l else n.

(** ** The chain *)

(** [type RunMode int] *)
Definition BPMode : Z := 0.
Definition APINodeMode : Z := 1.

(** What the SQL engine does during one [store]: whether a transaction begins,
    and after how many statements it fails, if it does. *)
Record engine := MkEngine { eng_begun : bool; eng_budget : option nat }.

Section chain_type.
Context `{Env}.

Record Chain := MkChain {
  c_storage : tables;
  c_address : AccountAddress;
  c_mode : Z;
  c_genesisTime : Z;
  c_period : Z;
  c_tick : Z;
  c_bpInfos : list blockProducerInfo;
  c_localBPInfo : blockProducerInfo;
  c_localNodeID : NodeID;
  c_confirms : Z;
  c_nextHeight : Z;
  c_offset : Z;
  c_lastIrre : blockNode;
  c_immutable : metaState;
  c_headIndex : nat;
  c_branches : list branch;
  c_txPool : pool;
}.

(** The fields of [types.AddTxReq] the chain reads. *)
Record AddTxReq := MkAddTxReq { req_TTL : Z; req_Tx : option Transaction }.

(** [Config] *)
Record Config := MkConfig {
  cfg_Mode : Z;
  cfg_Genesis : option BPBlock;
  cfg_Peers : Peers;
  cfg_NodeID : NodeID;
  cfg_ConfirmThreshold : float64;
  cfg_Period : Z;
  cfg_Tick : Z;
}.
End chain_type.

Section chain.
Context `{BlockEnv} `{!MsgPack Account} `{!MsgPack SQLChainProfile} `{!MsgPack ProviderProfile}
  `{!MsgPack BPBlock} `{!MsgPack Transaction}.
Context (json_Marshal : Transaction → string) (GetTimestamp : Transaction → Z).
Implicit Types (c : Chain) (b : branch) (n : blockNode) (bl : BPBlock).

Abbreviation CM := (GoM Chain error).

(** Field updates. *)
Definition set_storage c (db : tables) : Chain :=
  let 'MkChain _ a m gt p t bps i id cf nh o li im hi bs tp := c in
  MkChain db a m gt p t bps i id cf nh o li im hi bs tp.
Definition set_nextHeight c (nh : Z) : Chain :=
  let 'MkChain db a m gt p t bps i id cf _ o li im hi bs tp := c in
  MkChain db a m gt p t bps i id cf nh o li im hi bs tp.
Definition set_lastIrre c (li : blockNode) : Chain :=
  let 'MkChain db a m gt p t bps i id cf nh o _ im hi bs tp := c in
  MkChain db a m gt p t bps i id cf nh o li im hi bs tp.
Definition set_immutable c (im : metaState) : Chain :=
  let 'MkChain db a m gt p t bps i id cf nh o li _ hi bs tp := c in
  MkChain db a m gt p t bps i id cf nh o li im hi bs tp.
Definition set_branches c (bs : list branch) : Chain :=
  let 'MkChain db a m gt p t bps i id cf nh o li im hi _ tp := c in
  MkChain db a m gt p t bps i id cf nh o li im hi bs tp.
Definition set_headIndex c (hi : nat) : Chain :=
  let 'MkChain db a m gt p t bps i id cf nh o li im _ bs tp := c in
  MkChain db a m gt p t bps i id cf nh o li im hi bs tp.
Definition set_txPool c (tp : pool) : Chain :=
  let 'MkChain db a m gt p t bps i id cf nh o li im hi bs _ := c in
  MkChain db a m gt p t bps i id cf nh o li im hi bs tp.

Definition headBranch c : option branch := c_branches c !! c_headIndex c.
Definition head c : option blockNode := br_head <$> headBranch c.

(** [store] on the chain's database, with a callback on the chain. *)
Definition storeChain (e : engine) (sps : list storageProcedure) (cb : Chain → Chain) : CM unit := λ c,
  let '(r, db, c') := store (eng_begun e) (eng_budget e) sps cb (c_storage c) c in
  (r, set_storage c' db).

Definition onImmutable {A} (m : GoM metaState error A) : CM A := λ c,
  let '(r, s) := m (c_immutable c) in (r, set_immutable c s).

(** ** Time *)

(** [heightOfTime]; a zero period is a division by zero. *)
Definition heightOfTime (t : Z) : CM Z :=
  c ← getS;
  if decide (c_period c = 0) then panic
  else mret (u32 (Z.quot (time_Sub t (c_genesisTime c)) (c_period c))).

(** [nextTick] at a reading of the wall clock. *)
Definition nextTick c (clock : Z) : Z * Z :=
  let t := clock + c_offset c in
  let d := time_Sub (c_genesisTime c + c_nextHeight c * c_period c) t in
  (t, if decide (d > c_tick c) then c_tick c else d).

(** [isMyTurn]; no block producers are a division by zero. *)
Definition isMyTurn c : option bool :=
  if decide (bp_total (c_localBPInfo c) = 0) then None
  else Some (bool_decide (c_nextHeight c mod bp_total (c_localBPInfo c) = bp_rank (c_localBPInfo c))).

Definition increaseNextHeight c : Chain := set_nextHeight c (u32 (c_nextHeight c + 1)).

Definition getRemoteBPInfos c : list blockProducerInfo :=
  filter (λ info, bp_nodeID info ≠ bp_nodeID (c_localBPInfo c)) (c_bpInfos c).

(** ** Transactions *)

Definition storeTx (e : engine) (tx : Transaction) : CM unit :=
  let k := Tx_Hash tx in
  c ← getS;
  if decide (is_Some (c_txPool c !! k)) then throw ErrExistedTx
  else
    storeChain e [Storage.addTx tx] (λ c,
      set_branches (set_txPool c (<[k := tx]> (c_txPool c))) ((λ v, Branch.addTx v tx) <$> c_branches c)).

(** [processAddTxReq]: the result is the TTL of the broadcast to the other block
    producers, if there is one; every refusal is only logged. *)
Definition processAddTxReq (e : engine) (addTxReq : option AddTxReq) : CM (option Z) :=
  match addTxReq with
  | None => mret None
  | Some req =>
      match req_Tx req with
      | None => mret None
      | Some tx =>
          c ← getS;
          if decide (is_Some (c_txPool c !! Tx_Hash tx)) then mret None
          else
            match Tx_Verify tx with
            | Some _ => mret None
            | None =>
                r ← attempt (onImmutable (nextNonce (GetAccountAddress tx)));
                match r with
                | inl _ => mret None
                | inr base =>
                    let nonce := GetAccountNonce tx in
                    if decide (nonce < base ∨ nonce >= u32 (base + MaxPendingTxsPerAccount)) then mret None
                    else
                      let ttl := if decide (req_TTL req > MaxTxBroadcastTTL) then MaxTxBroadcastTTL
                                 else req_TTL req in
                      attempt (storeTx e tx);;
                      mret (if decide (ttl > 0) then Some (ttl - 1) else None)
                end
            end
      end
  end.

(** ** Switching branches *)

(** [b.load().Transactions]: a nil node or a nil block is dereferenced. *)
Definition nodeTxs (o : option blockNode) : option (list Transaction) :=
  bl_Transactions <$> (o ≫= load).

(** The transactions of one new irreversible block, on the immutable state. *)
Fixpoint applyIrreTxs (height : Z) (txs : list Transaction) (txPool : pool) : CM pool :=
  match txs with
  | [] => mret txPool
  | tx :: txs =>
      r ← attempt (onImmutable (MetaTx.apply tx height));
      match r with
      | inl _ => panic
      | inr _ => applyIrreTxs height txs (delete (Tx_Hash tx) txPool)
      end
  end.

(** The new irreversible blocks; also the transactions of each of them. *)
Fixpoint applyIrres (newIrres : list (option blockNode)) (txPool : pool)
    : CM (pool * list (list Transaction)) :=
  match newIrres with
  | [] => mret (txPool, [])
  | o :: newIrres =>
      n ← deref o;
      txs ← deref (nodeTxs o);
      txPool ← applyIrreTxs (bn_height n) txs txPool;
      '(txPool, rest) ← applyIrres newIrres txPool;
      mret (txPool, txs :: rest)
  end.

(** The pool without the transactions whose account is gone or has moved past
    their nonce, and those transactions. *)
Fixpoint expireLoop (kvs : list (Hash * Transaction)) (txPool : pool) (expiredTxs : list Transaction)
    : CM (pool * list Transaction) :=
  match kvs with
  | [] => mret (txPool, expiredTxs)
  | (k, v) :: kvs =>
      r ← attempt (onImmutable (nextNonce (GetAccountAddress v)));
      if (match r with inl _ => true | inr base => bool_decide (GetAccountNonce v < base) end)
      then expireLoop kvs (delete k txPool) (expiredTxs ++ [v])
      else expireLoop kvs txPool expiredTxs
  end.

(** The pruning loop of the callback: the new branches and the new head index. *)
Fixpoint pruneLoop (lastIrre : blockNode) (originBrIdx : nat) (newBranch : branch) (i : nat)
    (bs brs : list branch) (idx : nat) : list branch * nat :=
  match bs with
  | [] => (brs, idx)
  | b :: bs =>
      if decide (i = originBrIdx) then
        pruneLoop lastIrre originBrIdx newBranch (S i) bs
          (brs ++ [set_preview newBranch (commit (br_preview newBranch))]) (length brs)
      else if hasAncestor (br_head b) lastIrre then
        pruneLoop lastIrre originBrIdx newBranch (S i) bs (brs ++ [b]) idx
      else pruneLoop lastIrre originBrIdx newBranch (S i) bs brs idx
  end.

(** The callback [up]. *)
Definition switchTo (lastIrre : blockNode) (originBrIdx : nat) (newBranch : branch)
    (irreTxs : list (list Transaction)) (expiredTxs : list Transaction) (resultTxPool : pool) c : Chain :=
  let '(brs, idx) := pruneLoop lastIrre originBrIdx newBranch 0 (c_branches c) [] 0 in
  let brs := (λ b, clearUnpackedTxs (foldl clearPackedTxs b irreTxs) expiredTxs) <$> brs in
  set_txPool (set_branches (set_headIndex
    (set_immutable (set_lastIrre c lastIrre) (commit (c_immutable c))) idx) brs) resultTxPool.

Definition replaceAndSwitchToBranch (e : engine) (newBlock : BPBlock) (originBrIdx : nat)
    (newBranch : branch) : CM unit :=
  height ← heightOfTime (Timestamp newBlock);
  c ← getS;
  lastIrre ← deref (lastIrreversible (br_head newBranch) (c_confirms c));
  newIrres ← deref (fetchNodeList lastIrre (u32 (bn_count (c_lastIrre c) + 1)));
  '(pool, irreTxs) ← applyIrres newIrres (c_txPool c);
  '(resultTxPool, expiredTxs) ← expireLoop (map_to_list pool) pool [];
  c ← getS;
  let sps :=
    compileChanges (c_immutable c) [] ++
    [addBlock height newBlock; buildBlockIndex json_Marshal GetTimestamp height newBlock] ++
    (deleteTxs <$> irreTxs) ++
    (match expiredTxs with [] => [] | _ => [deleteTxs expiredTxs] end) ++
    [updateIrreversible (bn_hash lastIrre)] in
  r ← attempt (storeChain e sps (switchTo lastIrre originBrIdx newBranch irreTxs expiredTxs resultTxPool));
  match r with
  | inl err => modifyS (λ c, set_immutable c (clean (c_immutable c)));; throw err
  | inr _ => mret tt
  end.

(** ** Blocks *)

(** A branch whose head is the block's parent: it grows, and the chain switches
    to it if it becomes longer than the head branch. *)
Definition growBranch (e : engine) bl (height : Z) (i : nat) (v : branch) : CM unit :=
  let head := newBlockNode height bl (Some (br_head v)) in
  let '(r, v') := Branch.applyBlock v head in
  modifyS (λ c, set_branches c (<[i := v']> (c_branches c)));;
  match r with
  | Err e => throw (ErrWrap e)
  | Panic => panic
  | Ok br =>
      c ← getS;
      hb ← deref (headBranch c);
      if decide (bn_count (br_head br) <= bn_count (br_head hb)) then
        storeChain e [addBlock height bl] (λ c,
          set_branches c (<[i := set_preview br (commit (br_preview br))]> (c_branches c)))
      else replaceAndSwitchToBranch e bl i br
  end.

(** A block whose parent is further back on a branch: a new branch. *)
Definition forkBranch (e : engine) bl (height : Z) (parent : blockNode) : CM unit :=
  c ← getS;
  match newBranch (c_lastIrre c) (newBlockNode height bl (Some parent)) (c_immutable c) (c_txPool c) with
  | Err e => throw (ErrWrap e)
  | Panic => panic
  | Ok br => storeChain e [addBlock height bl] (λ c, set_branches c (c_branches c ++ [br]))
  end.

(** The first branch on which the parent is found, not before the irreversible
    block. *)
Fixpoint findParent (h : Hash) (minCount : Z) (bs : list branch) : option blockNode :=
  match bs with
  | [] => None
  | v :: bs =>
      match hasAncestorWithMinCount (br_head v) h minCount with
      | Some n => Some n
      | None => findParent h minCount bs
      end
  end.

(** [ancestor(height)] has the block's hash. *)
Definition knownBlock bl (height : Z) (v : branch) : bool :=
  match ancestor (br_head v) height with
  | Some n => Hash_IsEqual (Some (bn_hash n)) (Some (BlockHash bl))
  | None => false
  end.

Definition applyBlock (e : engine) bl : CM unit :=
  height ← heightOfTime (Timestamp bl);
  c ← getS;
  match list_find (λ v, Hash_IsEqual (Some (bn_hash (br_head v))) (Some (ParentHash bl)) = true)
          (c_branches c) with
  | Some (i, v) => growBranch e bl height i v
  | None =>
      if existsb (knownBlock bl height) (c_branches c) then mret tt
      else
        match findParent (ParentHash bl) (bn_count (c_lastIrre c)) (c_branches c) with
        | Some parent => forkBranch e bl height parent
        | None => throw ErrParentNotFound
        end
  end.

Definition pushBlock (e : engine) bl : CM unit :=
  match Block_Verify bl with
  | Err e => throw (ErrWrap e)
  | Panic => panic
  | Ok _ =>
      r ← attempt (applyBlock e bl);
      match r with inl e => throw (ErrWrap e) | inr _ => mret tt end
  end.

Definition produceAndStoreBlock (e : engine) (now : Z) (priv : PrivateKey) : CM BPBlock :=
  height ← heightOfTime now;
  c ← getS;
  hb ← deref (headBranch c);
  let '(r, hb') := Branch.produceBlock hb height now (c_address c) priv in
  modifyS (λ c, set_branches c (<[c_headIndex c := hb']> (c_branches c)));;
  match r with
  | Err e => throw (ErrWrap e)
  | Panic => panic
  | Ok (br, bl) =>
      r ← attempt (replaceAndSwitchToBranch e bl (c_headIndex c) br);
      match r with inl e => throw (ErrWrap e) | inr _ => mret bl end
  end.

(** [produceBlock]: the block that is broadcast.  [priv] is the local key, if the
    key store has one. *)
Definition produceBlock (e : engine) (priv : option PrivateKey) (now : Z) : CM BPBlock :=
  match priv with
  | None => throw (ErrNew "private key")
  | Some priv => produceAndStoreBlock e now priv
  end.

(** [advanceNextHeight]: a block is produced if it is this node's turn and little
    of the period has passed; the next height is increased in any case. *)
Definition advanceNextHeight (e : engine) (priv : option PrivateKey) (now d : Z) : CM (option BPBlock) :=
  let elapsed := - d in
  c ← getS;
  out ← (if decide (c_mode c = APINodeMode) then mret None
         else
           turn ← deref (isMyTurn c);
           if negb turn then mret None
           else if decide (elapsed + c_tick c > c_period c) then mret None
           else
             r ← attempt (produceBlock e priv now);
             mret (match r with inl _ => None | inr bl => Some bl end));
  modifyS increaseNextHeight;;
  mret out.

(** [syncCurrentHead], where [unreachable] peers did not answer; an unknown mode
    ends the process. *)
Definition syncCurrentHead c (requiredReachable unreachable : Z) : option bool :=
  match head c with
  | None => None
  | Some h =>
      if decide (bn_height h >= u32 (c_nextHeight c - 1)) then Some true
      else if decide (c_mode c = BPMode) then
        Some (bool_decide (u32 (unreachable + requiredReachable) <= bp_total (c_localBPInfo c)))
      else if decide (c_mode c = APINodeMode) then
        Some (bool_decide (unreachable < bp_total (c_localBPInfo c)))
      else None
  end.

(** ** Start-up *)

(** Reload the blocks of a head's nodes from count [from] on. *)
Fixpoint refill (db : tables) (from : Z) n : GoResult error blockNode :=
  if decide (bn_count n < from) then Ok n
  else
    result_bind
      match bn_parent n with
      | None => Ok None
      | Some p => result_bind (refill db from p) (λ p, Ok (Some p))
      end (λ p,
    result_bind
      match load n with
      | Some block => Ok block
      | None => match loadBlock db (bn_hash n) with Err e => Err (ErrWrap e) | r => r end
      end (λ block,
    Ok (MkBlockNode p (bn_count n) (bn_height n) (bn_hash n) (bn_txCount n) (Some block)))).

Fixpoint rebuildBranches (db : tables) (lastIrre : blockNode) (immutable : metaState) (txPool : pool)
    (heads : list blockNode) : GoResult error (list branch) :=
  match heads with
  | [] => Ok []
  | v :: heads =>
      if hasAncestor v lastIrre then
        result_bind (refill db (u32 (bn_count lastIrre + 1)) v) (λ v,
        result_bind
          match newBranch lastIrre v immutable txPool with Err e => Err (ErrWrap e) | r => r end (λ br,
        result_bind (rebuildBranches db lastIrre immutable txPool heads) (λ brs, Ok (br :: brs))))
      else rebuildBranches db lastIrre immutable txPool heads
  end.

(** The first of the longest branches. *)
Fixpoint selectHead (i : nat) (bs : list branch) (best : option (nat * branch)) : option (nat * branch) :=
  match bs with
  | [] => best
  | v :: bs =>
      selectHead (S i) bs
        match best with
        | None => Some (i, v)
        | Some (_, hb) =>
            if decide (bn_count (br_head v) > bn_count (br_head hb)) then Some (i, v) else best
        end
  end.

Fixpoint applyGenesis (txs : list Transaction) : GoM metaState error unit :=
  match txs with
  | [] => mret tt
  | v :: txs => MetaTx.apply v 0;; applyGenesis txs
  end.

(** A new data file receives the state after the genesis block. *)
Definition initStorage (e : engine) (genesis : BPBlock) (db : tables) : GoResult error tables :=
  match applyGenesis (bl_Transactions genesis) newMetaState with
  | (Err e, _) => Err (ErrWrap e)
  | (Panic, _) => Panic
  | (Ok _, init) =>
      let sps := compileChanges init [] ++ [addBlock 0 genesis; updateIrreversible (BlockHash genesis)] in
      match store (eng_begun e) (eng_budget e) sps id db tt with
      | (Ok _, db, _) => Ok db
      | (Err e, _, _) => Err (ErrWrap e)
      | (Panic, _, _) => Panic
      end
  end.

(** [NewChain], on an opened storage [db] that [existed] before, with the address
    of the local public key ([None] when the key store fails). *)
Definition NewChain (e : engine) (cfg : Config) (existed : bool) (db : tables)
    (localAddress : GoResult error AccountAddress) : GoResult error Chain :=
  match cfg_Genesis cfg with
  | None => Err ErrNilGenesis
  | Some genesis =>
      result_bind (match Block_VerifyHash genesis with Err e => Err (ErrWrap e) | r => r end) (λ _,
      result_bind (if existed then Ok db else initStorage e genesis db) (λ db,
      result_bind (match loadDatabase db with Err e => Err (ErrWrap e) | r => r end)
        (λ '(lastIrre, heads, immutable, txPool),
      if negb (match ancestorByCount lastIrre 0 with
               | Some g => Hash_IsEqual (Some (bn_hash g)) (Some (BlockHash genesis))
               | None => false
               end)
      then Err ErrGenesisHashNotMatch
      else
        result_bind (rebuildBranches db lastIrre immutable txPool heads) (λ branches,
        match selectHead 0 branches None with
        | None => Err ErrNoAvailableBranch
        | Some (headIndex, hb) =>
            result_bind localAddress (λ addr,
            result_bind (buildBlockProducerInfos (cfg_NodeID cfg) (cfg_Peers cfg)
              (bool_decide (cfg_Mode cfg = APINodeMode))) (λ '(localBPInfo, bpInfos),
            Ok (MkChain db addr (cfg_Mode cfg) (Timestamp genesis) (cfg_Period cfg) (cfg_Tick cfg)
                  bpInfos localBPInfo (cfg_NodeID cfg)
                  (needConfirms (u32 (Z.of_nat (length (peers_Servers (cfg_Peers cfg)))))
                     (cfg_ConfirmThreshold cfg))
                  (u32 (bn_height (br_head hb) + 1)) 0 lastIrre immutable headIndex branches txPool)))
        end))))
  end.

(** ** Reading the chain *)

Definition fetchBlock c (node : option blockNode) : GoResult error (option (BPBlock * Z * Z)) :=
  match node with
  | None => Ok None
  | Some node =>
      match load node with
      | Some block => Ok (Some (block, bn_count node, bn_height node))
      | None =>
          result_bind (loadBlock (c_storage c) (bn_hash node)) (λ block,
            Ok (Some (block, bn_count node, bn_height node)))
      end
  end.
Definition fetchLastIrreversibleBlock c := fetchBlock c (Some (c_lastIrre c)).
Definition fetchBlockByHeight c (h : Z) := fetchBlock c (head c ≫= λ n, ancestor n h).
Definition fetchBlockByCount c (count : Z) := fetchBlock c (head c ≫= λ n, ancestorByCount n count).

(** [queryTxState]: the head branch first, then the index of stored blocks. *)
Definition Chain_queryTxState c (h : Hash) : option TransactionState :=
  hb ← headBranch c;
  match queryTxState hb h with
  | Some state => Some state
  | None =>
      Some (if existsb (λ kv, bool_decide (it_hash (kv.2) = Hash_String h))
                 (map_to_list (t_indexed_transactions (c_storage c)))
            then TransactionStateConfirmed else TransactionStateNotFound)
  end.

(** [queryAccountSQLChainProfiles]: the databases of the index, as the immutable
    state knows them. *)
Definition queryAccountSQLChainProfiles c (account : AccountAddress) : list SQLChainProfile :=
  omap (λ id, (loadSQLChainObject (c_immutable c) id).1)
    (omap (λ row, if decide (row.1.1 = Hash_String account) then Some row.2 else None)
       (elements (t_indexed_shardChains (c_storage c)))).
End chain.
