(* ===== verification/ForkChoice.v ===== *)
(** * Fork choice: what the chain promises about branches

    The abstract view of a block producer's chain: the heads of its branches, the
    index of the head branch, the last irreversible block.  A step grows a branch
    that stays no longer than the head, opens a fork above the irreversible block,
    or switches to a branch that became longer than the head, which moves the
    irreversible block and prunes the branches that do not contain it.  The
    theorems are finality and the longest-branch rule; [ChainProps] shows that the
    operations of [Chain] are such steps. *)
From S2P Require Import Prelude Hash Types Block.
From Stdlib Require Import ZArith Lia.
From stdpp Require Import base list gmap strings.
Local Open Scope Z_scope.

Section fork_choice.
Context `{BlockEnv}.
Implicit Types (n p x : blockNode).

Record forkView := MkForkView {
  fv_heads : list blockNode;
  fv_head : nat;
  fv_irre : blockNode;
  fv_confirms : Z;
}.

(** [n] is a new child of [p], within the width of the counter. *)
Definition grows n p : Prop :=
  bn_parent n = Some p ∧ bn_count n = bn_count p + 1 ∧ bn_count n < two32.

Definition holds irre n : Prop := hasAncestor n irre = true.
#[export] Instance holds_dec irre n : Decision (holds irre n).
Proof. unfold holds. apply _. Defined.

(** The heads after a switch of branch [i] to head [n]. *)
Definition prunedHeads irre (i : nat) n (heads : list blockNode) : list blockNode :=
  filter (holds irre) (take i heads) ++ n :: filter (holds irre) (drop (S i) heads).
Definition prunedIndex irre (i : nat) (heads : list blockNode) : nat :=
  length (filter (holds irre) (take i heads)).

Inductive fv_step : forkView → forkView → Prop :=
| fv_same v : fv_step v v
| fv_grow heads hd irre cf i p n hb :
    heads !! i = Some p → grows n p → heads !! hd = Some hb → bn_count n <= bn_count hb →
    fv_step (MkForkView heads hd irre cf) (MkForkView (<[i := n]> heads) hd irre cf)
| fv_fork heads hd irre cf n p h :
    h ∈ heads → ancestry h p → bn_count irre <= bn_count p < bn_count h → grows n p →
    fv_step (MkForkView heads hd irre cf) (MkForkView (heads ++ [n]) hd irre cf)
| fv_switch heads hd irre cf i p n hb irre' :
    heads !! i = Some p → grows n p → heads !! hd = Some hb → bn_count hb < bn_count n →
    lastIrreversible n cf = Some irre' →
    fv_step (MkForkView heads hd irre cf)
      (MkForkView (prunedHeads irre' i n heads) (prunedIndex irre' i heads) irre' cf).

(** The head branch is a longest branch; the irreversible block is on every branch
    and at least [confirms] blocks behind the head. *)
Record wf_fv (v : forkView) : Prop := {
  fv_longest : ∃ hb, fv_heads v !! fv_head v = Some hb ∧
    (∀ h, h ∈ fv_heads v → bn_count h <= bn_count hb) ∧
    bn_count (fv_irre v) <= Z.max 0 (bn_count hb - fv_confirms v);
  fv_nodes h : h ∈ fv_heads v → wf_node h ∧ holds (fv_irre v) h;
  fv_irre_wf : wf_node (fv_irre v);
  fv_confirms_pos : 0 <= fv_confirms v;
}.

Lemma grows_wf n p : wf_node p → grows n p → wf_node n.
Proof. intros Hp (? & ? & ?). by eapply wf_child. Qed.

Lemma elem_of_prunedHeads irre i n heads h :
  h ∈ prunedHeads irre i n heads → h = n ∨ (h ∈ heads ∧ holds irre h).
Proof.
  unfold prunedHeads. rewrite elem_of_app, elem_of_cons, !list_elem_of_filter.
  intros [[? Hin]|[->|[? Hin]]]; [right| by left|right]; split; try done.
  - rewrite <- (take_drop i heads). apply elem_of_app. by left.
  - rewrite <- (take_drop (S i) heads). apply elem_of_app. by right.
Qed.

Lemma lookup_prunedIndex irre i n heads :
  prunedHeads irre i n heads !! prunedIndex irre i heads = Some n.
Proof. unfold prunedHeads, prunedIndex. by rewrite list_lookup_middle. Qed.

(** What a switch does to the irreversible block. *)
Lemma switch_irre heads hd irre cf i p n hb irre' :
  wf_fv (MkForkView heads hd irre cf) → heads !! i = Some p → grows n p →
  heads !! hd = Some hb → bn_count hb < bn_count n → lastIrreversible n cf = Some irre' →
  wf_node n ∧ ancestry n irre' ∧ bn_count irre' = Z.max 0 (bn_count n - cf) ∧
  bn_count irre <= bn_count irre'.
Proof.
  intros [Hl Hn Hi Hc] Hp Hg Hhb Hlt Hirre. cbn in *.
  assert (wf_node n) as Hwn by (apply (grows_wf n p); [apply Hn; by eapply list_elem_of_lookup_2|done]).
  destruct (lastIrreversible_some n cf Hwn Hc) as (a & Ha & Hanc & Hca). simplify_eq.
  destruct Hl as (hb' & Hhb' & _ & Hle). simplify_eq. split_and!; [done..|lia].
Qed.

Lemma fv_step_wf v v' : wf_fv v → fv_step v v' → wf_fv v'.
Proof.
  intros Hwf Hs. destruct Hs as [v|heads hd irre cf i p n hb Hp Hg Hhb Hle
    |heads hd irre cf n p h Hh Ha Hc Hg|heads hd irre cf i p n hb irre' Hp Hg Hhb Hlt Hirre]; [done|..].
  - pose proof Hwf as [(hb' & Hhb' & Hmax & Hb) Hn Hi Hc]. cbn in *. simplify_eq.
    destruct (Hn p) as [Hwp Hpi]; [by eapply list_elem_of_lookup_2|]. destruct Hg as (Hpar & Hcn & Hw).
    assert (wf_node n) as Hwn by (by eapply wf_child).
    assert (i ≠ hd) as Hne by (intros ->; simplify_eq; lia).
    split; cbn; [|intros h [->|Hh]%elem_of_insert_inv|done..].
    + exists hb. rewrite list_lookup_insert_ne by done. split_and!; [done| |done].
      intros h [->|Hh]%elem_of_insert_inv; auto.
    + split; [done|]. eapply hasAncestor_child; [done..|apply (wf_count _ Hi)|done].
    + auto.
  - pose proof Hwf as [(hb & Hhb & Hmax & Hb) Hn Hi Hcf]. cbn in *.
    destruct (Hn h Hh) as [Hwh Hhi]. pose proof (wf_ancestry _ _ Hwh Ha) as Hwp.
    pose proof (grows_wf _ _ Hwp Hg) as Hwn. destruct Hg as (Hpar & Hcn & Hw).
    split; cbn; [|intros h' [Hh'| ->%list_elem_of_singleton]%elem_of_app|done..].
    + exists hb. rewrite lookup_app_l by (by eapply lookup_lt_Some). split_and!; [done| |done].
      intros h' [Hh'| ->%list_elem_of_singleton]%elem_of_app; [auto|].
      specialize (Hmax h Hh). lia.
    + auto.
    + split; [done|]. eapply hasAncestor_child; [done..|apply (wf_count _ Hi)|].
      apply (hasAncestor_back h); [done..| |done]. pose proof (wf_count _ Hi) as []. lia.
  - destruct (switch_irre _ _ _ _ _ _ _ _ _ Hwf Hp Hg Hhb Hlt Hirre) as (Hwn & Hanc & Hc' & Hge).
    pose proof Hwf as [(hb' & Hhb' & Hmax & Hb) Hn Hi Hcf]. cbn in *. simplify_eq.
    assert (wf_node irre') as Hwi by (exact (wf_ancestry _ _ Hwn Hanc)).
    split; cbn; [|intros h [->|[Hh ?]]%elem_of_prunedHeads|done..].
    + exists n. rewrite lookup_prunedIndex. split_and!; [done| |lia].
      intros h [->|[Hh _]]%elem_of_prunedHeads; [done|]. specialize (Hmax h Hh). lia.
    + split; [done|]. apply hasAncestor_iff; [done|apply (wf_count _ Hwi)|by eexists].
    + split; [by apply Hn|done].
Qed.

(** [x] is final in [v]: on the irreversible chain and on every branch. *)
Definition anchored x (v : forkView) : Prop :=
  0 <= bn_count x <= bn_count (fv_irre v) ∧ holds x (fv_irre v) ∧ ∀ h, h ∈ fv_heads v → holds x h.

Lemma fv_step_anchored v v' x : wf_fv v → fv_step v v' → anchored x v → anchored x v'.
Proof.
  intros Hwf Hs (Hx & Hxi & Hxh). destruct Hs as [v|heads hd irre cf i p n hb Hp Hg Hhb Hle
    |heads hd irre cf n p h Hh Ha Hc Hg|heads hd irre cf i p n hb irre' Hp Hg Hhb Hlt Hirre]; [done|..];
    cbn in *.
  - split; [done|]. split; [done|]. cbn. intros h [->|Hh]%elem_of_insert_inv; [|auto].
    assert (p ∈ heads) as Hin by (by eapply list_elem_of_lookup_2).
    destruct (fv_nodes _ Hwf p Hin) as [Hwp _].
    apply (hasAncestor_child _ p); [exact (grows_wf _ _ Hwp Hg)|by destruct Hg|lia|by apply Hxh].
  - split; [done|]. split; [done|]. cbn. intros h' [Hh'| ->%list_elem_of_singleton]%elem_of_app; [auto|].
    destruct (fv_nodes _ Hwf h Hh) as [Hwh _]. pose proof (wf_ancestry _ _ Hwh Ha) as Hwp.
    apply (hasAncestor_child _ p); [exact (grows_wf _ _ Hwp Hg)|by destruct Hg|lia|].
    apply (hasAncestor_back h); [done..|lia|by apply Hxh].
  - destruct (switch_irre _ _ _ _ _ _ _ _ _ Hwf Hp Hg Hhb Hlt Hirre) as (Hwn & Hanc & Hc' & Hge).
    assert (holds x n) as Hn.
    { apply (hasAncestor_child _ p); [done|by destruct Hg|lia|]. apply Hxh. by eapply list_elem_of_lookup_2. }
    split_and!; cbn; [lia|lia| |].
    + apply (hasAncestor_back n); [done..|lia|done].
    + intros h [->|[Hh _]]%elem_of_prunedHeads; auto.
Qed.

Lemma fv_steps_anchored v v' x :
  rtc fv_step v v' → wf_fv v → anchored x v → wf_fv v' ∧ anchored x v'.
Proof.
  induction 1 as [v|v v1 v' Hs _ IH]; [done|]. intros Hwf Hx.
  apply IH; [by eapply fv_step_wf|by eapply fv_step_anchored].
Qed.

Lemma irre_anchored v : wf_fv v → anchored (fv_irre v) v.
Proof.
  intros Hwf. split_and!; [apply (wf_count _ (fv_irre_wf _ Hwf))|lia|apply hasAncestor_refl|].
  intros h Hh. by apply (fv_nodes _ Hwf).
Qed.
End fork_choice.
