(* ===== verification/ChainProps.v ===== *)
(** * The chain implements the fork choice

    The operations of [Chain], seen through their branch heads, head index and
    irreversible block, are steps of [ForkChoice], whatever they return and
    however the SQL engine behaves; finality and the longest-branch rule follow.
    Further theorems: what a failed block leaves behind, which transactions enter
    the pool, and whose turn it is to produce a block. *)
From S2P Require Import Prelude Hash Types Block MetaState MetaTx Storage StorageProps Branch Chain ForkChoice.
From Stdlib Require Import String ZArith Lia.
From stdpp Require Import base list gmap strings.
Local Open Scope Z_scope.

(** ** Heads of branches *)

Section heads.
Context `{BlockEnv}.
Implicit Types (b : branch) (n : blockNode).

Definition hasHead n b : Prop := br_head b = n.

Lemma onPreview_head {A} n (m : GoM metaState error A) : preserves (hasHead n) (onPreview m).
Proof. intros b r b' Hb. unfold onPreview. destruct (m (br_preview b)). by intros [= <- <-]. Qed.
#[local] Hint Resolve onPreview_head : gomach.

Lemma absorbTxs_head n h txs : preserves (hasHead n) (absorbTxs h txs).
Proof.
  induction txs as [|v txs IH]; cbn; [auto with gomach|]. apply preserves_bind; [|done].
  unfold absorbTx. repeat preserve_step; by apply preserves_modifyS.
Qed.

Lemma absorbNodes_head n ns : preserves (hasHead n) (absorbNodes ns).
Proof.
  induction ns as [|o ns IH]; cbn; [auto with gomach|]. apply preserves_bind; [|done].
  unfold absorbNode. repeat preserve_step. apply absorbTxs_head.
Qed.

Lemma packLoop_head n h k txs out : preserves (hasHead n) (packLoop h k txs out).
Proof.
  revert out. induction txs as [|v txs IH]; intros out; cbn; [auto with gomach|].
  apply preserves_bind; [auto with gomach|]. intros [e|[]]; [done|].
  apply preserves_bind; [by apply preserves_modifyS|]. intros _. case_decide; [auto with gomach|done].
Qed.

Lemma applyBlock_head b n r b' :
  Branch.applyBlock b n = (r, b') → br_head b' = br_head b ∧ ∀ br, r = Ok br → br_head br = n.
Proof.
  unfold Branch.applyBlock. destruct (load n); [|by intros [= <- <-]].
  destruct (negb _); [by intros [= <- <-]|]. case_decide; [by intros [= <- <-]|].
  destruct (absorbTxs _ _ _) as [[[]|e|] cpy]; intros [= <- <-]; split; try done. by intros br [= <-].
Qed.

Lemma produceBlock_head b h ts addr signer r b' :
  Branch.produceBlock b h ts addr signer = (r, b') →
  br_head b' = br_head b ∧ ∀ br bl, r = Ok (br, bl) → br_head br = newBlockNode h bl (Some (br_head b)).
Proof.
  unfold Branch.produceBlock, produceBlock_from.
  destruct (packLoop _ _ _ _ _) as [res cpy] eqn:Hp. intros Heq.
  destruct res as [out|e|]; apply pair_equal_spec in Heq as [<- <-]; [|split; [reflexivity|discriminate]..].
  apply (packLoop_head (br_head b)) in Hp; [|done]. split; [done|]. intros br bl.
  destruct (PackAndSignBlock _ _); [|done..]. intros [= <- <-]. cbn. by rewrite Hp.
Qed.

Lemma newBranch_head base hd st p br : newBranch base hd st p = Ok br → br_head br = hd.
Proof.
  unfold newBranch. destruct (fetchNodeList _ _); [|done].
  destruct (absorbNodes _ _) as [[[]|e|] inst] eqn:Ha; [|done..]. intros [= <-].
  by apply (absorbNodes_head hd) in Ha.
Qed.

Lemma foldl_clear_head b l : br_head (foldl clearPackedTxs b l) = br_head b.
Proof. revert b. induction l as [|txs l IH]; intros b; [done|]. cbn. by rewrite IH. Qed.
End heads.

(** ** Simulation *)

Section simulation.
Context `{BlockEnv} `{!MsgPack Account} `{!MsgPack SQLChainProfile} `{!MsgPack ProviderProfile}
  `{!MsgPack BPBlock} `{!MsgPack Transaction}.
Context (json_Marshal : Transaction → string) (GetTimestamp : Transaction → Z).
Implicit Types (c : Chain) (b br : branch) (n p : blockNode) (bl : BPBlock).

Definition fview c : forkView :=
  MkForkView (br_head <$> c_branches c) (c_headIndex c) (c_lastIrre c) (c_confirms c).

(** Every branch can grow without overflowing its block counter. *)
Definition room c : Prop := ∀ b, b ∈ c_branches c → bn_count (br_head b) + 1 < two32.

Lemma grows_newBlockNode h bl p :
  wf_node p → bn_count p + 1 < two32 → grows (newBlockNode h bl (Some p)) p.
Proof.
  intros Hp Hlt. pose proof (wf_count p Hp) as [Hc _]. split; [done|]. cbn.
  rewrite u32_id by (unfold is_u32; lia). lia.
Qed.

(** [storeChain] runs its callback or leaves the chain as it was. *)
Lemma storeChain_cases e sps cb c r c' : storeChain e sps cb c = (r, c') →
  (r ≠ Ok tt ∧ c' = c) ∨ (r = Ok tt ∧ ∃ db, c' = set_storage (cb c) db).
Proof.
  assert (set_storage c (c_storage c) = c) as Hc by (by destruct c).
  unfold storeChain, store. destruct (negb _); [intros [= <- <-]; left; by split|].
  destruct (runAll _ _) as [[[]|err|] t]; intros [= <- <-].
  - right. split; [done|]. by eexists.
  - left. by split.
  - left. by split.
Qed.

Lemma fview_set_storage c db : fview (set_storage c db) = fview c.
Proof. by destruct c. Qed.
Lemma fview_set_immutable c s : fview (set_immutable c s) = fview c.
Proof. by destruct c. Qed.

(** Only the immutable state changes. *)
Definition immutableOnly c0 c : Prop := ∃ s, c = set_immutable c0 s.

Lemma immutableOnly_refl c : immutableOnly c c.
Proof. exists (c_immutable c). by destruct c. Qed.

Lemma onImmutable_only {A} c0 (m : GoM metaState error A) : preserves (immutableOnly c0) (onImmutable m).
Proof.
  intros c r c' [s ->]. unfold onImmutable. destruct (m _) as [r' s']. intros [= <- <-].
  exists s'. by destruct c0.
Qed.
#[local] Hint Resolve onImmutable_only : gomach.

Lemma heightOfTime_only c0 t : preserves (immutableOnly c0) (heightOfTime t).
Proof. unfold heightOfTime. repeat preserve_step. Qed.

Lemma heightOfTime_same t c r c' : heightOfTime t c = (r, c') → c' = c.
Proof. unfold heightOfTime. go_unfold. case_decide; by intros [= <- <-]. Qed.

Lemma applyIrreTxs_only c0 h txs txPool : preserves (immutableOnly c0) (applyIrreTxs h txs txPool).
Proof.
  revert txPool. induction txs as [|tx txs IH]; intros txPool; cbn; [auto with gomach|].
  repeat preserve_step.
Qed.

Lemma applyIrres_only c0 ns txPool : preserves (immutableOnly c0) (applyIrres ns txPool).
Proof.
  revert txPool. induction ns as [|o ns IH]; intros txPool; cbn; [auto with gomach|].
  do 2 (apply preserves_bind; [auto with gomach|intros ?]).
  apply preserves_bind; [apply applyIrreTxs_only|intros ?].
  apply preserves_bind; [apply IH|intros [? ?]]. auto with gomach.
Qed.

Lemma expireLoop_only c0 kvs txPool expired : preserves (immutableOnly c0) (expireLoop kvs txPool expired).
Proof.
  revert txPool expired. induction kvs as [|[k v] kvs IH]; intros txPool expired; cbn; [auto with gomach|].
  apply preserves_bind; [auto with gomach|]. intros o. case_match; apply IH.
Qed.

(** The pruning loop, from an index before and after the replaced branch. *)
Lemma pruneLoop_after irre o nb i bs brs idx : (o < i)%nat →
  pruneLoop irre o nb i bs brs idx = (brs ++ filter (λ b, holds irre (br_head b)) bs, idx).
Proof.
  revert i brs. induction bs as [|b bs IH]; intros i brs Hi; cbn [pruneLoop]; [by rewrite app_nil_r|].
  rewrite decide_False by lia. rewrite filter_cons.
  destruct (hasAncestor (br_head b) irre) eqn:Hb; rewrite IH by lia.
  - rewrite decide_True by exact Hb. by rewrite <- app_assoc.
  - by rewrite decide_False by (unfold holds; congruence).
Qed.

Lemma pruneLoop_spec irre o nb i bs brs idx : (i <= o)%nat → (o - i < length bs)%nat →
  pruneLoop irre o nb i bs brs idx =
  (brs ++ filter (λ b, holds irre (br_head b)) (take (o - i) bs) ++
     set_preview nb (commit (br_preview nb)) :: filter (λ b, holds irre (br_head b)) (drop (S (o - i)) bs),
   length (brs ++ filter (λ b, holds irre (br_head b)) (take (o - i) bs))).
Proof.
  revert i brs idx. induction bs as [|b bs IH]; intros i brs idx Hi Hl; cbn [pruneLoop length] in *; [lia|].
  case_decide as Hd.
  - subst i. rewrite Nat.sub_diag. cbn [take drop]. rewrite pruneLoop_after by lia.
    rewrite drop_0. change (filter _ []) with (@nil branch). by rewrite app_nil_r, <- app_assoc.
  - replace (o - i)%nat with (S (o - S i))%nat by lia. cbn [take drop]. rewrite filter_cons.
    destruct (hasAncestor (br_head b) irre) eqn:Hb; rewrite IH by lia.
    + rewrite decide_True by exact Hb. by rewrite <- !app_assoc.
    + by rewrite decide_False by (unfold holds; congruence).
Qed.

Lemma heads_filter irre (bs : list branch) :
  br_head <$> filter (λ b, holds irre (br_head b)) bs = filter (holds irre) (br_head <$> bs).
Proof.
  induction bs as [|b bs IH]; [done|]. rewrite fmap_cons, !filter_cons.
  destruct (decide (holds irre (br_head b))); rewrite ?fmap_cons, IH; done.
Qed.

Lemma fview_switchTo irre i br irreTxs expired txPool c p :
  (br_head <$> c_branches c) !! i = Some p →
  fview (switchTo irre i br irreTxs expired txPool c) =
  MkForkView (prunedHeads irre i (br_head br) (br_head <$> c_branches c))
    (prunedIndex irre i (br_head <$> c_branches c)) irre (c_confirms c).
Proof.
  intros Hi. apply lookup_lt_Some in Hi. rewrite length_fmap in Hi. unfold switchTo.
  rewrite pruneLoop_spec by lia. rewrite Nat.sub_0_r. cbn [app].
  unfold fview, prunedHeads, prunedIndex. destruct c; cbn in *. f_equal.
  - rewrite <- list_fmap_compose, <- fmap_take, <- fmap_drop, <- !heads_filter, fmap_app, fmap_cons.
    assert (∀ b, (br_head ∘ (λ b, clearUnpackedTxs (foldl clearPackedTxs b irreTxs) expired)) b = br_head b)
      as Hh by (intros b; cbn; apply foldl_clear_head).
    rewrite (Hh (set_preview br _)). f_equal; [|f_equal]; apply list_fmap_ext; intros; apply Hh.
  - by rewrite <- fmap_take, <- heads_filter, length_fmap.
Qed.

(** The switch, given a new head on top of branch [i] that is longer than the
    head branch. *)
Lemma sim_replace e bl i br c r c' p hb :
  replaceAndSwitchToBranch json_Marshal GetTimestamp e bl i br c = (r, c') →
  (br_head <$> c_branches c) !! i = Some p → grows (br_head br) p → headBranch c = Some hb →
  bn_count (br_head hb) < bn_count (br_head br) → fv_step (fview c) (fview c').
Proof.
  intros Hrun Hi Hg Hhb Hlt. unfold replaceAndSwitchToBranch in Hrun.
  apply bind_inv in Hrun as [(height & c1 & Ht & Hrun)|(r0 & Ht & _)];
    apply heightOfTime_same in Ht as ->; [|apply fv_same].
  apply bind_inv in Hrun as [(c1 & c2 & [= <- <-] & Hrun)|(r0 & [= <- <-] & _)]; [|apply fv_same].
  apply bind_inv in Hrun as [(irre & c1 & Hirre & Hrun)|(r0 & Hirre & _)];
    apply deref_inv in Hirre as [-> Hirre]; [|apply fv_same]. specialize (Hirre irre eq_refl).
  apply bind_inv in Hrun as [(irres & c1 & Hns & Hrun)|(r0 & Hns & _)];
    apply deref_inv in Hns as [-> Hns]; [|apply fv_same].
  apply bind_inv in Hrun as [([txPool irreTxs] & c1 & Ha & Hrun)|(r0 & Ha & _)];
    apply (applyIrres_only c) in Ha as [s ->]; try apply immutableOnly_refl;
    [|rewrite fview_set_immutable; apply fv_same].
  apply bind_inv in Hrun as [([result expired] & c1 & Hx & Hrun)|(r0 & Hx & _)];
    apply (expireLoop_only c) in Hx as [s1 ->]; try (by exists s);
    [|rewrite fview_set_immutable; apply fv_same].
  apply bind_inv in Hrun as [(c1 & c2 & [= <- <-] & Hrun)|(r0 & [= <- <-] & _)];
    [|rewrite fview_set_immutable; apply fv_same].
  apply bind_inv in Hrun as [(o & c1 & Hst & Hrun)|(r0 & Hst & Hne0 & _)];
    apply attempt_inv in Hst as (r1 & Hst & Hr1);
    apply storeChain_cases in Hst as [[Hne ->]|[-> [db ->]]].
  - destruct o as [err|[]]; [|by destruct r1 as [[]| |]]. injection Hrun as <- <-.
    rewrite !fview_set_immutable. apply fv_same.
  - injection Hr1 as ->. injection Hrun as <- <-. rewrite fview_set_storage.
    erewrite fview_switchTo by (by destruct c). replace (c_confirms (set_immutable c s1)) with (c_confirms c)
      by (by destruct c). replace (c_branches (set_immutable c s1)) with (c_branches c) by (by destruct c).
    apply (fv_switch _ _ _ _ i p (br_head br) (br_head hb) irre); [done..| |done|done].
    unfold headBranch in Hhb. by rewrite list_lookup_fmap, Hhb.
  - rewrite fview_set_immutable. apply fv_same.
  - by destruct (Hne0 (inr tt)).
Qed.

Lemma fview_set_branch c i v v' :
  c_branches c !! i = Some v → br_head v' = br_head v → fview (set_branches c (<[i := v']> (c_branches c))) = fview c.
Proof.
  intros Hi Hv. destruct c; unfold fview; cbn in *. f_equal. rewrite list_fmap_insert, Hv.
  apply list_insert_id. by rewrite list_lookup_fmap, Hi.
Qed.

Lemma headBranch_heads c hb : headBranch c = Some hb → fv_heads (fview c) !! fv_head (fview c) = Some (br_head hb).
Proof. unfold headBranch, fview. cbn. intros Hh. by rewrite list_lookup_fmap, Hh. Qed.

Lemma sim_grow e bl height i v c r c' :
  wf_fv (fview c) → room c → c_branches c !! i = Some v →
  growBranch json_Marshal GetTimestamp e bl height i v c = (r, c') → fv_step (fview c) (fview c').
Proof.
  intros Hwf Hroom Hi. assert (v ∈ c_branches c) as Hin by (by eapply list_elem_of_lookup_2).
  assert (wf_node (br_head v)) as Hwv by (apply (fv_nodes _ Hwf), list_elem_of_fmap; eauto).
  pose proof (grows_newBlockNode height bl _ Hwv (Hroom v Hin)) as Hg.
  unfold growBranch. destruct (Branch.applyBlock v _) as [rb v'] eqn:Hb.
  apply applyBlock_head in Hb as [Hv' Hbr]. go_unfold.
  set (c1 := set_branches c _). assert (fview c1 = fview c) as Hc1 by (by eapply fview_set_branch).
  destruct rb as [br|err|]; [|intros [= <- <-]; rewrite Hc1; apply fv_same..].
  specialize (Hbr br eq_refl). destruct (headBranch c1) as [hb|] eqn:Hhb;
    [|intros [= <- <-]; rewrite Hc1; apply fv_same].
  assert (fv_heads (fview c1) !! i = Some (br_head v)) as Hi1.
  { rewrite Hc1. cbn. by rewrite list_lookup_fmap, Hi. }
  go_unfold. rewrite <- Hc1. case_decide as Hle.
  - intros Hst. apply storeChain_cases in Hst as [[_ ->]|[_ [db ->]]]; [apply fv_same|].
    rewrite fview_set_storage. replace (fview (set_branches c1 _)) with
      (MkForkView (<[i := br_head br]> (fv_heads (fview c1))) (c_headIndex c1) (c_lastIrre c1) (c_confirms c1))
      by (destruct c1; unfold fview; cbn; by rewrite list_fmap_insert).
    apply (fv_grow _ _ _ _ i (br_head v) _ (br_head hb)); [done|by rewrite Hbr|by apply headBranch_heads|done].
  - intros Hrun. apply (sim_replace e bl i br c1 r c' (br_head v) hb Hrun); [done|by rewrite Hbr|done|lia].
Qed.

(** The parent of a fork: an ancestor of a head, not before [minCount]. *)
Lemma minCountLoop_spec h minCount n p : wf_node n → minCountLoop h minCount n = Some p →
  ancestry n p ∧ minCount <= bn_count p ∧ Hash_IsEqual (Some (bn_hash p)) (Some h) = true.
Proof.
  induction 1 as [n Hp Hc|n q Hp Hwf IH Hc _]; destruct n as [par cn hn hh tc bk]; cbn in Hp; subst par;
    cbn [minCountLoop bn_count bn_hash bn_parent]; (case_decide; [|done]);
    destruct (Hash_IsEqual (Some hh) (Some h)) eqn:Hh; try done.
  - intros [= <-]. split; [apply rtc_refl|]. by split; [cbn; lia|].
  - intros [= <-]. split; [apply rtc_refl|]. by split; [cbn; lia|].
  - intros (Ha & ? & ?)%IH. split; [|done]. by eapply rtc_l.
Qed.

Lemma findParent_spec h minCount bs p : (∀ b, b ∈ bs → wf_node (br_head b)) →
  findParent h minCount bs = Some p →
  ∃ b, b ∈ bs ∧ ancestry (br_head b) p ∧ minCount <= bn_count p ∧
       Hash_IsEqual (Some (bn_hash p)) (Some h) = true.
Proof.
  induction bs as [|v bs IH]; intros Hwf; cbn [findParent]; [done|].
  destruct (hasAncestorWithMinCount _ _ _) as [n|] eqn:Hn.
  - intros [= <-]. exists v. split; [by left|]. apply minCountLoop_spec; [apply Hwf; by left|done].
  - intros Hf. destruct IH as (b & Hb & ?); [intros b Hb; apply Hwf; by right|done|].
    exists b. split; [by right|done].
Qed.

Lemma sim_fork e bl height p c r c' :
  wf_fv (fview c) → room c →
  list_find (λ v, Hash_IsEqual (Some (bn_hash (br_head v))) (Some (ParentHash bl)) = true) (c_branches c) = None →
  findParent (ParentHash bl) (bn_count (c_lastIrre c)) (c_branches c) = Some p →
  forkBranch e bl height p c = (r, c') → fv_step (fview c) (fview c').
Proof.
  intros Hwf Hroom Hnone Hp. apply findParent_spec in Hp as (b & Hb & Ha & Hge & Hh).
  2:{ intros b Hb. apply (fv_nodes _ Hwf), list_elem_of_fmap. eauto. }
  assert (br_head b ∈ fv_heads (fview c)) as Hbh by (apply list_elem_of_fmap; eauto).
  destruct (fv_nodes _ Hwf _ Hbh) as [Hwb _].
  assert (bn_count p < bn_count (br_head b)) as Hlt.
  { pose proof (ancestry_count _ _ Hwb Ha). destruct (decide (bn_count p = bn_count (br_head b))) as [He|]; [|lia].
    rewrite (ancestry_unique _ _ _ Hwb Ha (rtc_refl _ _) He) in Hh.
    apply list_find_None in Hnone. rewrite Forall_forall in Hnone. by destruct (Hnone b Hb). }
  pose proof (grows_newBlockNode height bl p (wf_ancestry _ _ Hwb Ha)) as Hg.
  specialize (Hroom b Hb). unfold forkBranch. go_unfold.
  destruct (newBranch _ _ _ _) as [br|err|] eqn:Hn; [|intros [= <- <-]; apply fv_same..].
  apply newBranch_head in Hn. intros Hst.
  apply storeChain_cases in Hst as [[_ ->]|[_ [db ->]]]; [apply fv_same|]. rewrite fview_set_storage.
  replace (fview (set_branches c _)) with
    (MkForkView (fv_heads (fview c) ++ [br_head br]) (c_headIndex c) (c_lastIrre c) (c_confirms c))
    by (destruct c; unfold fview; cbn; by rewrite fmap_app).
  apply (fv_fork _ _ _ _ _ p (br_head b)); [done..|]. rewrite Hn. apply Hg. lia.
Qed.

Lemma sim_applyBlock e bl c r c' :
  wf_fv (fview c) → room c → applyBlock json_Marshal GetTimestamp e bl c = (r, c') →
  fv_step (fview c) (fview c').
Proof.
  intros Hwf Hroom Hrun. unfold applyBlock in Hrun.
  apply bind_inv in Hrun as [(height & c1 & Ht & Hrun)|(r0 & Ht & _)];
    apply heightOfTime_same in Ht as ->; [|apply fv_same].
  apply bind_inv in Hrun as [(c1 & c2 & [= <- <-] & Hrun)|(r0 & [= <- <-] & _)]; [|apply fv_same].
  destruct (list_find _ _) as [[i v]|] eqn:Hf.
  - apply list_find_Some in Hf as (Hi & _). by eapply sim_grow.
  - destruct (existsb _ _); [injection Hrun as <- <-; apply fv_same|].
    destruct (findParent _ _ _) as [p|] eqn:Hp; [by eapply sim_fork|].
    injection Hrun as <- <-. apply fv_same.
Qed.

Lemma sim_produce e now priv c r c' :
  wf_fv (fview c) → room c → produceAndStoreBlock json_Marshal GetTimestamp e now priv c = (r, c') →
  fv_step (fview c) (fview c').
Proof.
  intros Hwf Hroom Hrun. unfold produceAndStoreBlock in Hrun.
  apply bind_inv in Hrun as [(height & c1 & Ht & Hrun)|(r0 & Ht & _)];
    apply heightOfTime_same in Ht as ->; [|apply fv_same].
  apply bind_inv in Hrun as [(c1 & c2 & [= <- <-] & Hrun)|(r0 & [= <- <-] & _)]; [|apply fv_same].
  apply bind_inv in Hrun as [(hb & c1 & Hhb & Hrun)|(r0 & Hhb & _)];
    apply deref_inv in Hhb as [-> Hhb]; [|apply fv_same]. specialize (Hhb hb eq_refl).
  destruct (Branch.produceBlock hb _ _ _ _) as [rb hb'] eqn:Hb.
  apply produceBlock_head in Hb as [Hh' Hbr]. unfold headBranch in Hhb.
  assert (hb ∈ c_branches c) as Hin by (by eapply list_elem_of_lookup_2).
  assert (wf_node (br_head hb)) as Hwh by (apply (fv_nodes _ Hwf), list_elem_of_fmap; eauto).
  apply bind_inv in Hrun as [([] & c1 & [= <-] & Hrun)|(r0 & [= <- <-] & _)];
    [|erewrite fview_set_branch by done; apply fv_same].
  set (c1 := set_branches c _) in *. assert (fview c1 = fview c) as Hc1 by (by eapply fview_set_branch).
  destruct rb as [[br bl]|err|]; [|injection Hrun as <- <-; rewrite Hc1; apply fv_same..].
  specialize (Hbr br bl eq_refl). rewrite <- Hc1.
  assert (∃ r1, replaceAndSwitchToBranch json_Marshal GetTimestamp e bl (c_headIndex c) br c1 = (r1, c')) as [r1 Hr1].
  { apply bind_inv in Hrun as [([?|[]] & c2 & Hs & Hrun)|(r0 & Hs & _)];
      apply attempt_inv in Hs as (r1 & Hs & _); exists r1; rewrite Hs; by try injection Hrun as <- <-. }
  apply (sim_replace e bl _ br c1 r1 c' (br_head hb) hb' Hr1).
  - change (fv_heads (fview c1) !! c_headIndex c = Some (br_head hb)). rewrite Hc1. cbn.
    by rewrite list_lookup_fmap, Hhb.
  - rewrite Hbr. apply grows_newBlockNode; [done|by apply Hroom].
  - unfold headBranch, c1. destruct c; cbn in *. apply list_lookup_insert_eq. by eapply lookup_lt_Some.
  - rewrite Hh', Hbr. destruct (grows_newBlockNode height bl _ Hwh (Hroom hb Hin)) as (_ & -> & _). lia.
Qed.

Lemma same_storeTx e tx c : fview (storeTx e tx c).2 = fview c.
Proof.
  unfold storeTx. go_unfold. case_decide; [done|]. destruct (storeChain _ _ _ c) as [r c'] eqn:Hst.
  apply storeChain_cases in Hst as [[_ ->]|[_ [db ->]]]; [done|]. cbn [snd]. rewrite fview_set_storage.
  destruct c; unfold fview; cbn. f_equal. rewrite <- list_fmap_compose. apply list_fmap_ext.
  intros i b _. unfold compose, addTx. by repeat case_match.
Qed.
End simulation.

(** ** Steps of a running chain *)

Section steps.
Context `{BlockEnv} `{!MsgPack Account} `{!MsgPack SQLChainProfile} `{!MsgPack ProviderProfile}
  `{!MsgPack BPBlock} `{!MsgPack Transaction}.
Context (json_Marshal : Transaction → string) (GetTimestamp : Transaction → Z).
Implicit Types (c : Chain) (b br : branch) (n p : blockNode) (bl : BPBlock).

(** The handlers of a running node: a transaction request, a block from a peer, a
    tick of the main cycle.  Each may return, fail or panic, with any behaviour of
    the SQL engine. *)
Inductive chain_step c : Chain → Prop :=
| step_tx e req : chain_step c (processAddTxReq e req c).2
| step_block e bl : chain_step c (pushBlock json_Marshal GetTimestamp e bl c).2
| step_tick e priv now d : chain_step c (advanceNextHeight json_Marshal GetTimestamp e priv now d c).2.

(** Steps taken while every branch has room to grow. *)
Definition chain_run : Chain → Chain → Prop := rtc (λ c c', room c ∧ chain_step c c').

Definition sameView c c' : Prop := fview c' = fview c.
#[local] Instance sameView_preorder : PreOrder sameView.
Proof. split; [done|]. unfold sameView. intros x y z. congruence. Qed.

Lemma same_onImmutable {A} c (m : GoM metaState error A) : keeps sameView c (onImmutable m).
Proof. unfold keeps, onImmutable. destruct (m _). apply fview_set_immutable. Qed.

Lemma same_processAddTxReq e req c : keeps sameView c (processAddTxReq e req).
Proof.
  unfold processAddTxReq. destruct req as [req|]; [|done]. destruct (req_Tx req) as [tx|]; [|done].
  apply keeps_getS. case_decide; [done|]. destruct (Tx_Verify tx); [done|].
  apply keeps_bind; [apply _|apply keeps_attempt, same_onImmutable|]. intros [err|base] c1 _; [done|].
  case_decide; [done|]. apply keeps_bind; [apply _|apply keeps_attempt; apply same_storeTx|done].
Qed.

Lemma fview_increaseNextHeight c : fview (increaseNextHeight c) = fview c.
Proof. by destruct c. Qed.
#[local] Opaque increaseNextHeight.

Lemma sim_step c c' : wf_fv (fview c) → room c → chain_step c c' → fv_step (fview c) (fview c').
Proof.
  intros Hwf Hroom [e req|e bl|e priv now d].
  - rewrite (same_processAddTxReq e req c). apply fv_same.
  - unfold pushBlock. destruct (Block_Verify bl); [|apply fv_same..]. go_unfold.
    destruct (applyBlock _ _ e bl c) as [r c1] eqn:Hr. apply sim_applyBlock in Hr; [|done..].
    by destruct r as [[]|err|].
  - unfold advanceNextHeight. go_unfold.
    case_decide; [cbn beta iota zeta delta [snd]; rewrite fview_increaseNextHeight; apply fv_same|].
    destruct (isMyTurn c) as [turn|]; [|apply fv_same]. go_unfold.
    destruct (negb turn); [cbn beta iota zeta delta [snd]; rewrite fview_increaseNextHeight; apply fv_same|].
    case_decide; [cbn beta iota zeta delta [snd]; rewrite fview_increaseNextHeight; apply fv_same|].
    unfold produceBlock. destruct priv as [priv|]; [|go_unfold; cbn beta iota zeta delta [snd]; rewrite fview_increaseNextHeight; apply fv_same].
    destruct (produceAndStoreBlock _ _ e now priv c) as [r c1] eqn:Hr. apply sim_produce in Hr; [|done..].
    destruct r; cbn beta iota zeta delta [snd]; by rewrite ?fview_increaseNextHeight.
Qed.

Lemma sim_run c c' : chain_run c c' → wf_fv (fview c) → rtc fv_step (fview c) (fview c').
Proof.
  induction 1 as [c|c c1 c' [Hroom Hs] _ IH]; [done|]. intros Hwf.
  pose proof (sim_step _ _ Hwf Hroom Hs) as Hfv. eapply rtc_l; [done|]. apply IH. by eapply fv_step_wf.
Qed.
End steps.

(** C5: every handler of a running chain is a step of the fork choice: a received
    transaction or block and a tick of the main cycle, whatever they return and
    wherever the SQL engine fails, either leave the branches alone, grow one that
    stays no longer than the head, open a fork above the irreversible block, or
    switch to a longer branch and prune; and the invariant is kept. *)
Theorem chain_refines `{BlockEnv} `{!MsgPack Account} `{!MsgPack SQLChainProfile}
    `{!MsgPack ProviderProfile} `{!MsgPack BPBlock} `{!MsgPack Transaction} json ts c c' :
  wf_fv (fview c) → room c → chain_step json ts c c' →
  fv_step (fview c) (fview c') ∧ wf_fv (fview c').
Proof.
  intros Hwf Hroom Hs. pose proof (sim_step json ts c c' Hwf Hroom Hs) as Hfv.
  split; [done|]. by eapply fv_step_wf.
Qed.

(** C4: finality: whatever a node does from a well-formed chain on, a block that is
    irreversible stays an ancestor of the irreversible block and of the head of
    every branch. *)
Theorem chain_finality `{BlockEnv} `{!MsgPack Account} `{!MsgPack SQLChainProfile}
    `{!MsgPack ProviderProfile} `{!MsgPack BPBlock} `{!MsgPack Transaction} json ts c c' :
  wf_fv (fview c) → chain_run json ts c c' →
  bn_count (c_lastIrre c) <= bn_count (c_lastIrre c') ∧
  hasAncestor (c_lastIrre c') (c_lastIrre c) = true ∧
  ∀ b, b ∈ c_branches c' → hasAncestor (br_head b) (c_lastIrre c) = true.
Proof.
  intros Hwf Hrun. apply (sim_run json ts) in Hrun; [|done].
  destruct (fv_steps_anchored _ _ _ Hrun Hwf (irre_anchored _ Hwf)) as (_ & [_ Hc] & Hi & Hh).
  split_and!; [done..|]. intros b Hb. apply Hh, list_elem_of_fmap. eauto.
Qed.

(** The head branch is a longest branch, and the irreversible block is at least
    [confirms] blocks behind its head, after any run from a well-formed chain. *)
Theorem chain_longest `{BlockEnv} `{!MsgPack Account} `{!MsgPack SQLChainProfile}
    `{!MsgPack ProviderProfile} `{!MsgPack BPBlock} `{!MsgPack Transaction} json ts c c' :
  wf_fv (fview c) → chain_run json ts c c' →
  ∃ hb, headBranch c' = Some hb ∧
    (∀ b, b ∈ c_branches c' → bn_count (br_head b) <= bn_count (br_head hb)) ∧
    bn_count (c_lastIrre c') <= Z.max 0 (bn_count (br_head hb) - c_confirms c').
Proof.
  intros Hwf Hrun. apply (sim_run json ts) in Hrun; [|done].
  destruct (fv_steps_anchored _ _ _ Hrun Hwf (irre_anchored _ Hwf)) as ([(hb & Hhb & Hmax & Hi) _ _ _] & _).
  cbn in Hhb. rewrite list_lookup_fmap in Hhb. apply fmap_Some in Hhb as (b & Hb & ->).
  exists b. split_and!; [done| |done]. intros b' Hb'. apply Hmax, list_elem_of_fmap. eauto.
Qed.

(** ** Failed blocks *)

Section failures.
Context `{BlockEnv} `{!MsgPack Account} `{!MsgPack SQLChainProfile} `{!MsgPack ProviderProfile}
  `{!MsgPack BPBlock} `{!MsgPack Transaction}.
Context (json_Marshal : Transaction → string) (GetTimestamp : Transaction → Z).
Implicit Types (c : Chain) (b br : branch) (n p : blockNode) (bl : BPBlock).

(** The same head and the same pools; the preview may differ in its shared index. *)
Definition samePools b b' : Prop :=
  br_head b' = br_head b ∧ br_packed b' = br_packed b ∧ br_unpacked b' = br_unpacked b.

(** What a failed block must not touch. *)
Record untouched c c' : Prop := {
  un_storage : c_storage c' = c_storage c;
  un_lastIrre : c_lastIrre c' = c_lastIrre c;
  un_headIndex : c_headIndex c' = c_headIndex c;
  un_txPool : c_txPool c' = c_txPool c;
  un_nextHeight : c_nextHeight c' = c_nextHeight c;
  un_branches : Forall2 samePools (c_branches c) (c_branches c');
}.

#[export] Instance samePools_refl : Reflexive samePools.
Proof. done. Qed.

Lemma untouched_refl c : untouched c c.
Proof. split; done. Qed.

Lemma untouched_immutable c0 c s : untouched c0 c → untouched c0 (set_immutable c s).
Proof. intros []. by destruct c. Qed.

Lemma applyBlock_pools b n r b' : Branch.applyBlock b n = (r, b') → samePools b b'.
Proof.
  unfold Branch.applyBlock. destruct (load n); [|by intros [= <- <-]].
  destruct (negb _); [by intros [= <- <-]|]. case_decide; [by intros [= <- <-]|].
  by destruct (absorbTxs _ _ _) as [[[]|e|] cpy]; intros [= <- <-].
Qed.

Lemma untouched_branch c i v v' : c_branches c !! i = Some v → samePools v v' →
  untouched c (set_branches c (<[i := v']> (c_branches c))).
Proof.
  intros Hi Hv. destruct c; split; try done. cbn in *.
  apply Forall2_same_length_lookup. split; [by rewrite length_insert|]. intros j b b' Hb.
  destruct (decide (i = j)) as [<-|Hne].
  - rewrite list_lookup_insert_eq by (by eapply lookup_lt_Some). congruence.
  - rewrite list_lookup_insert_ne by done. intros. by simplify_eq.
Qed.

Lemma replace_error e bl i br c0 c r c' :
  untouched c0 c → replaceAndSwitchToBranch json_Marshal GetTimestamp e bl i br c = (r, c') →
  r ≠ Ok tt → untouched c0 c'.
Proof.
  intros Hu Hrun Hr. unfold replaceAndSwitchToBranch in Hrun.
  apply bind_inv in Hrun as [(height & c1 & Ht & Hrun)|(r0 & Ht & _)];
    apply heightOfTime_same in Ht as ->; [|done].
  apply bind_inv in Hrun as [(c1 & c2 & [= <- <-] & Hrun)|(r0 & [= <- <-] & _)]; [|done].
  do 2 (apply bind_inv in Hrun as [(? & c1 & Hd & Hrun)|(r0 & Hd & _)];
    apply deref_inv in Hd as [-> _]; [|done]).
  apply bind_inv in Hrun as [([txPool irreTxs] & c1 & Ha & Hrun)|(r0 & Ha & _)];
    apply (applyIrres_only c) in Ha as [s ->]; try apply immutableOnly_refl; [|by apply untouched_immutable].
  apply bind_inv in Hrun as [([result expired] & c1 & Hx & Hrun)|(r0 & Hx & _)];
    apply (expireLoop_only c) in Hx as [s1 ->]; try (by exists s); [|by apply untouched_immutable].
  apply bind_inv in Hrun as [(c1 & c2 & [= <- <-] & Hrun)|(r0 & [= <- <-] & _)];
    [|by apply untouched_immutable].
  apply bind_inv in Hrun as [(o & c1 & Hst & Hrun)|(r0 & Hst & Hne0 & _)];
    apply attempt_inv in Hst as (r1 & Hst & Hr1);
    apply storeChain_cases in Hst as [[Hne ->]|[-> [db ->]]].
  - destruct o as [err|[]]; [|by destruct r1 as [[]| |]]. injection Hrun as <- <-.
    by do 2 apply untouched_immutable.
  - injection Hr1 as ->. by injection Hrun as <- <-.
  - by apply untouched_immutable.
  - by destruct (Hne0 (inr tt)).
Qed.

Lemma storeChain_error e sps cb c0 c r c' :
  untouched c0 c → storeChain e sps cb c = (r, c') → r ≠ Ok tt → untouched c0 c'.
Proof. intros Hu Hst Hr. by apply storeChain_cases in Hst as [[_ ->]|[-> _]]. Qed.

Lemma applyBlock_untouched e bl c r c' :
  applyBlock json_Marshal GetTimestamp e bl c = (r, c') → r ≠ Ok tt → untouched c c'.
Proof.
  intros Hrun Hr. pose proof (untouched_refl c) as Hrefl. unfold applyBlock in Hrun.
  apply bind_inv in Hrun as [(height & c1 & Ht & Hrun)|(r0 & Ht & _)];
    apply heightOfTime_same in Ht as ->; [|done].
  apply bind_inv in Hrun as [(c1 & c2 & [= <- <-] & Hrun)|(r0 & [= <- <-] & _)]; [|done].
  destruct (list_find _ _) as [[i v]|] eqn:Hf.
  - apply list_find_Some in Hf as (Hi & _). revert Hrun. unfold growBranch.
    destruct (Branch.applyBlock v _) as [rb v'] eqn:Hb. apply applyBlock_pools in Hb. go_unfold.
    pose proof (untouched_branch c i v v' Hi Hb) as Hu. set (c1 := set_branches c _) in *.
    destruct rb as [br|err|]; [|by intros [= <- <-]..].
    destruct (headBranch c1) as [hb|]; [|by intros [= <- <-]]. go_unfold. case_decide; intros Hrun.
    + by eapply storeChain_error.
    + by eapply replace_error.
  - destruct (existsb _ _); [by injection Hrun as <- <-|].
    destruct (findParent _ _ _) as [p|]; [|by injection Hrun as <- <-].
    unfold forkBranch in Hrun. go_unfold in Hrun.
    destruct (newBranch _ _ _ _) as [br|err|]; [|by injection Hrun as <- <-..].
    by eapply storeChain_error.
Qed.
End failures.

(** C34: a block that is refused, or whose storing fails at any statement, leaves
    the database, the irreversible block, the head, the transaction pool and the
    heads and pools of all branches as they were. *)
Theorem applyBlock_error_atomic `{BlockEnv} `{!MsgPack Account} `{!MsgPack SQLChainProfile}
    `{!MsgPack ProviderProfile} `{!MsgPack BPBlock} `{!MsgPack Transaction} json ts e bl c r c' :
  applyBlock json ts e bl c = (r, c') → r ≠ Ok tt → untouched c c'.
Proof. apply applyBlock_untouched. Qed.

(** ** Admission to the pool *)

Section admission.
Context `{BlockEnv} `{!MsgPack Account} `{!MsgPack SQLChainProfile} `{!MsgPack ProviderProfile}
  `{!MsgPack BPBlock} `{!MsgPack Transaction}.
Implicit Types (c : Chain) (tx : Transaction).

(** A new, verified transaction whose nonce is in the window above the immutable
    nonce of its account. *)
Definition admissible c tx : Prop :=
  c_txPool c !! Tx_Hash tx = None ∧ Tx_Verify tx = None ∧
  ∃ base, (nextNonce (GetAccountAddress tx) (c_immutable c)).1 = Ok base ∧
    base <= GetAccountNonce tx < u32 (base + MaxPendingTxsPerAccount).

(** The chain with [tx] pooled. *)
Definition pooled c tx (db : tables) : Chain :=
  set_storage (set_branches (set_txPool c (<[Tx_Hash tx := tx]> (c_txPool c)))
    ((λ v, Branch.addTx v tx) <$> c_branches c)) db.

Lemma nextNonce_pure addr s : (nextNonce addr s).2 = s.
Proof. unfold nextNonce. go_unfold. by destruct (accountPtr s addr) as [[[]]|]. Qed.

Lemma onImmutable_nextNonce addr c :
  onImmutable (nextNonce addr) c = ((nextNonce addr (c_immutable c)).1, c).
Proof.
  unfold onImmutable. pose proof (nextNonce_pure addr (c_immutable c)) as Hp.
  destruct (nextNonce _ _) as [r s]. cbn in *. subst. by destruct c.
Qed.

Lemma storeTx_ok tx c : c_txPool c !! Tx_Hash tx = None → is_Some (EncodeMsgPack tx) →
  ∃ db, storeTx (MkEngine true None) tx c = (Ok tt, pooled c tx db).
Proof.
  intros Hn [enc Henc]. unfold storeTx. go_unfold. rewrite decide_False by (rewrite Hn; by intros []).
  unfold storeChain, store. cbn [eng_begun eng_budget negb runAll foldr]. unfold Storage.addTx. rewrite Henc.
  eexists. reflexivity.
Qed.

Lemma storeTx_cases e tx c r c' : storeTx e tx c = (r, c') → c' = c ∨ ∃ db, c' = pooled c tx db.
Proof.
  unfold storeTx. go_unfold. case_decide; [intros [= <- <-]; by left|].
  intros [[_ ->]|[_ [db ->]]]%storeChain_cases; [by left|]. right. by exists db.
Qed.
(** An admissible transaction that can be stored is pooled. *)
Lemma admissible_pooled ttl tx c : admissible c tx → is_Some (EncodeMsgPack tx) →
  ∃ db, processAddTxReq (MkEngine true None) (Some (MkAddTxReq ttl (Some tx))) c =
    (Ok (if decide (ttl > 0) then Some (Z.min ttl MaxTxBroadcastTTL - 1) else None), pooled c tx db).
Proof.
  intros (Hp & Hv & base & Hn & Hw) Henc. destruct (storeTx_ok tx c Hp Henc) as [db Hst].
  exists db. unfold processAddTxReq. cbn [req_Tx req_TTL]. go_unfold.
  rewrite decide_False by (rewrite Hp; by intros []). rewrite Hv, onImmutable_nextNonce, Hn.
  cbn beta iota. rewrite decide_False by lia. rewrite Hst. f_equal. f_equal. unfold MaxTxBroadcastTTL.
  repeat case_decide; try lia; do 2 f_equal; lia.
Qed.
End admission.

(** The transaction pool admits exactly the admissible transactions.  A request
    changes the chain only by pooling a new, verified transaction with a nonce in
    the window, on every branch at once; and an admissible transaction that can be
    stored is pooled, then passed on with a smaller TTL. *)
Theorem processAddTxReq_admits `{BlockEnv} `{!MsgPack Account} `{!MsgPack SQLChainProfile}
    `{!MsgPack ProviderProfile} `{!MsgPack BPBlock} `{!MsgPack Transaction} c :
  (∀ e req c', (processAddTxReq e req c).2 = c' →
     c' = c ∨ ∃ ttl tx db, req = Some (MkAddTxReq ttl (Some tx)) ∧ admissible c tx ∧ c' = pooled c tx db) ∧
  (∀ ttl tx, admissible c tx → is_Some (EncodeMsgPack tx) →
     ∃ db, processAddTxReq (MkEngine true None) (Some (MkAddTxReq ttl (Some tx))) c =
       (Ok (if decide (ttl > 0) then Some (Z.min ttl MaxTxBroadcastTTL - 1) else None), pooled c tx db)).
Proof.
  split.
  - intros e [[ttl [tx|]]|] c'; [|by left..]. unfold processAddTxReq. cbn [req_Tx req_TTL]. go_unfold.
    case_decide as Hp; [by left|]. destruct (Tx_Verify tx) eqn:Hv; [by left|].
    rewrite onImmutable_nextNonce. destruct (nextNonce _ _).1 as [base|err|] eqn:Hn; [|by left..].
    cbn beta iota. case_decide as Hw; [by left|]. destruct (storeTx e tx c) as [r c1] eqn:Hst.
    apply storeTx_cases in Hst. intros Hc'. assert (c' = c1) as -> by (by destruct r).
    destruct Hst as [->|[db ->]]; [by left|]. right. exists ttl, tx, db. split_and!; [done| |done].
    split; [by apply eq_None_not_Some|]. split; [done|]. exists base. split; [done|]. lia.
  - intros ttl tx. apply admissible_pooled.
Qed.

(** ** The production schedule *)

(** [c] was set up for node [id] of [peers]. *)
Definition configured `{Env} (peers : Peers) (id : NodeID) (c : Chain) : Prop :=
  ∃ infos, buildBlockProducerInfos id peers false = Ok (c_localBPInfo c, infos).

Lemma configured_rank `{Env} peers id c : configured peers id c →
  Z.of_nat (length (peers_Servers peers)) < two32 →
  ∃ i, peers_Servers peers !! i = Some id ∧ bp_rank (c_localBPInfo c) = Z.of_nat i ∧
       bp_total (c_localBPInfo c) = Z.of_nat (length (peers_Servers peers)).
Proof.
  intros [infos Hb] Hl. unfold buildBlockProducerInfos, Find in Hb.
  destruct (list_find _ _) as [[i s]|] eqn:Hf; [|done]. cbn in Hb.
  apply list_find_Some in Hf as (Hi & <- & _). rewrite list_lookup_imap, Hi in Hb. cbn in Hb.
  injection Hb as Hb _. rewrite <- Hb. exists i. split; [done|]. cbn.
  pose proof (lookup_lt_Some _ _ _ Hi). rewrite !u32_id by (unfold is_u32; lia). done.
Qed.

(** Exactly one block producer per height: at every height some server of the
    peer list has its turn, and two nodes set up from the same list that both have
    their turn at the same height are the same server. *)
Theorem turn_unique `{Env} peers :
  peers_Servers peers ≠ [] → NoDup (peers_Servers peers) → Z.of_nat (length (peers_Servers peers)) < two32 →
  (∀ h, 0 <= h → ∃ id, id ∈ peers_Servers peers ∧
     ∀ c, configured peers id c → c_nextHeight c = h → isMyTurn c = Some true) ∧
  (∀ id id' c c', configured peers id c → configured peers id' c' → c_nextHeight c = c_nextHeight c' →
     isMyTurn c = Some true → isMyTurn c' = Some true → id = id').
Proof.
  intros Hne Hnd Hl. set (l := peers_Servers peers) in *.
  assert (0 < Z.of_nat (length l)) as Hpos by (destruct l; [done|cbn; lia]). split.
  - intros h Hh. pose proof (Z.mod_pos_bound h _ Hpos) as Hm.
    destruct (lookup_lt_is_Some_2 l (Z.to_nat (h mod Z.of_nat (length l)))) as [id Hid]; [lia|].
    exists id. split; [by eapply list_elem_of_lookup_2|]. intros c Hc <-.
    destruct (configured_rank _ _ _ Hc Hl) as (i & Hi & Hr & Ht). unfold isMyTurn. rewrite Ht, Hr. fold l.
    rewrite decide_False by lia. f_equal. apply bool_decide_eq_true_2.
    pose proof (NoDup_lookup _ _ _ _ Hnd Hi Hid) as ->. lia.
  - intros id id' c c' Hc Hc' Hh. unfold isMyTurn.
    destruct (configured_rank _ _ _ Hc Hl) as (i & Hi & -> & ->).
    destruct (configured_rank _ _ _ Hc' Hl) as (i' & Hi' & -> & ->).
    fold l. rewrite !decide_False by lia. intros [= H1%bool_decide_eq_true] [= H2%bool_decide_eq_true].
    rewrite Hh in H1. assert (i = i') as -> by lia. congruence.
Qed.

(** ** Start-up *)

Section start.
Context `{BlockEnv} `{!MsgPack Account} `{!MsgPack SQLChainProfile} `{!MsgPack ProviderProfile}
  `{!MsgPack BPBlock} `{!MsgPack Transaction}.

Lemma needConfirms_range l t : 0 <= l → 0 <= needConfirms l t <= l.
Proof.
  intros Hl. unfold needConfirms. cbv zeta. set (n := ceil_u32 _).
  assert (0 <= n) as Hn by (unfold n, ceil_u32; case_match; try lia; apply u32_range).
  case_decide; lia.
Qed.

(** The rows of "blocks" and the irreversible hash. *)
Definition blocksAre (rows : list blockRow) (irre : gmap Z string) (t : sqlTx) : Prop :=
  t_blocks (tx_tables t) = rows ∧ t_irreversible (tx_tables t) = irre.

Lemma blocksAre_exec rows irre q :
  (∀ db, t_blocks (execStmt q db) = t_blocks db ∧ t_irreversible (execStmt q db) = t_irreversible db) →
  preserves (blocksAre rows irre) (exec q).
Proof.
  intros Hq t r t' [Hb Hi]. unfold exec, blocksAre.
  destruct (tx_budget t) as [[|k]|]; intros [= <- <-]; [done|..]; cbn; by destruct (Hq (tx_tables t)) as [-> ->].
Qed.

Lemma blocksAre_compile rows irre las lds lps :
  preserves (blocksAre rows irre) (runAll (compileFrom las lds lps)).
Proof.
  assert (∀ sps, Forall (preserves (blocksAre rows irre)) sps → preserves (blocksAre rows irre) (runAll sps)) as Hall.
  { induction 1 as [|sp sps Hsp _ IH]; cbn; [apply preserves_ret|]. by apply preserves_bind. }
  assert (∀ p us, preserves (blocksAre rows irre) (indexUsers p us)) as Hix.
  { intros p. induction us as [|u us IH]; cbn; [apply preserves_ret|].
    destruct (su_Permission u); [|apply preserves_panic]. apply preserves_bind; [|done].
    case_decide; apply blocksAre_exec; by intros []. }
  apply Hall. unfold compileFrom. rewrite !Forall_app, !Forall_fmap. split_and!; apply Forall_true.
  - intros [k [a|]]; cbn; [unfold updateAccount; case_match; [|apply preserves_throw]|];
      apply blocksAre_exec; by intros [].
  - intros [k [p|]]; cbn.
    + unfold updateShardChain. case_match; [|apply preserves_throw].
      apply preserves_bind; [apply blocksAre_exec; by intros []|done].
    + apply preserves_bind; [|intros _]; apply blocksAre_exec; by intros [].
  - intros [k [p|]]; cbn; [unfold updateProvider; case_match; [|apply preserves_throw]|];
      apply blocksAre_exec; by intros [].
Qed.

(** The first row of "blocks", and the new irreversible hash. *)
Lemma blocksAre_addBlock irre h bl t t' : blocksAre [] irre t → addBlock h bl t = (Ok tt, t') →
  ∃ enc, EncodeMsgPack bl = Some enc ∧
    blocksAre [MkBlockRow h (Hash_String (BlockHash bl)) (Hash_String (ParentHash bl)) enc] irre t'.
Proof.
  intros [Hb Hi]. unfold addBlock. destruct (EncodeMsgPack bl) as [enc|]; [|done]. intros Hx.
  apply exec_Ok in Hx. exists enc. split; [done|]. unfold blocksAre. rewrite Hx.
  destruct (tx_tables t). cbn in Hb, Hi. subst. split; reflexivity.
Qed.

Lemma blocksAre_updateIrreversible rows irre h t t' :
  blocksAre rows irre t → updateIrreversible h t = (Ok tt, t') → blocksAre rows (<[0 := Hash_String h]> irre) t'.
Proof.
  intros [Hb Hi] Hx. unfold updateIrreversible in Hx. apply exec_Ok in Hx. unfold blocksAre. rewrite Hx.
  destruct (tx_tables t). cbn in Hb, Hi. subst. split; reflexivity.
Qed.

#[local] Opaque Hash_String addBlock updateIrreversible.

(** A fresh data file holds the genesis block alone. *)
Lemma initStorage_blocks e genesis db :
  initStorage e genesis emptyTables = Ok db →
  ∃ enc, EncodeMsgPack genesis = Some enc ∧
    t_blocks db = [MkBlockRow 0 (Hash_String (BlockHash genesis)) (Hash_String (ParentHash genesis)) enc] ∧
    t_irreversible db = <[0 := Hash_String (BlockHash genesis)]> ∅.
Proof.
  unfold initStorage. destruct (applyGenesis _ _) as [[[]|err|] init]; [|done..].
  unfold store. destruct (negb _); [done|]. unfold compileChanges. cbn [app].
  destruct (runAll _ _) as [[[]|err|] t] eqn:Hrun; [|done..]. intros Hdb.
  assert (tx_tables t = db) as <- by congruence. clear Hdb.
  rewrite runAll_app in Hrun. apply bind_Ok in Hrun as ([] & t1 & H1 & H2).
  apply (blocksAre_compile [] ∅) in H1; [|split; reflexivity].
  cbn [runAll foldr] in H2. apply bind_Ok in H2 as ([] & t2 & H2 & H3).
  apply bind_Ok in H3 as ([] & t3 & H3 & H4). assert (t3 = t) as -> by (unfold mret, gom_ret in H4; congruence).
  destruct (blocksAre_addBlock _ _ _ _ _ H1 H2) as (enc & Henc & Hb2).
  destruct (blocksAre_updateIrreversible _ _ _ _ _ Hb2 H3) as [Hb3 Hi3]. exists enc.
  split; [exact Henc|]. split; [exact Hb3|exact Hi3].
Qed.

Lemma loadBlocks_genesis db genesis enc h irre heads :
  EncodeMsgPack genesis = Some enc → loadIrreHash db = Ok h →
  t_blocks db = [MkBlockRow 0 (Hash_String (BlockHash genesis)) (Hash_String (ParentHash genesis)) enc] →
  t_irreversible db = <[0 := Hash_String (BlockHash genesis)]> ∅ →
  loadBlocks db h = Ok (irre, heads) →
  irre = newNonCacheBlockNode 0 genesis None ∧ heads = [irre].
Proof.
  intros Henc Hh Hrows Hirre. unfold loadIrreHash in Hh. rewrite Hirre, lookup_insert_eq in Hh. unfold loadBlocks.
  rewrite Hrows. cbn [loadBlockRows row_hash row_parent row_encoded row_height]. rewrite Hh. cbn [result_bind].
  destruct (liftDecode (Decode (Hash_String (ParentHash genesis)))); [|done..]. cbn [result_bind].
  rewrite (Decode_Encode _ _ Henc). cbn [liftUnpack result_bind]. rewrite decide_True by done.
  rewrite decide_False by (rewrite map_size_empty; lia). cbn [result_bind]. rewrite lookup_insert_eq.
  rewrite insert_empty, map_to_list_singleton. intros [= <- <-]. split; reflexivity.
Qed.

Lemma loadDatabase_genesis db genesis enc irre heads immutable txPool :
  EncodeMsgPack genesis = Some enc →
  t_blocks db = [MkBlockRow 0 (Hash_String (BlockHash genesis)) (Hash_String (ParentHash genesis)) enc] →
  t_irreversible db = <[0 := Hash_String (BlockHash genesis)]> ∅ →
  loadDatabase db = Ok (irre, heads, immutable, txPool) →
  irre = newNonCacheBlockNode 0 genesis None ∧ heads = [irre].
Proof.
  intros Henc Hrows Hirre. unfold loadDatabase. destruct (loadIrreHash db) as [h| |] eqn:Hh; [|done..].
  cbn [result_bind]. destruct (loadBlocks db h) as [[irre' heads']| |] eqn:Hb; [|done..]. cbn [result_bind].
  destruct (loadImmutableState db); [|done..]. destruct (loadTxPool db); [|done..]. cbn [result_bind].
  intros Heq. assert (irre' = irre ∧ heads' = heads) as [<- <-] by (split; congruence).
  exact (loadBlocks_genesis db genesis enc h irre' heads' Henc Hh Hrows Hirre Hb).
Qed.

(** With the irreversible block as its only head, the chain has one branch. *)
Lemma rebuild_genesis db irre immutable txPool bs :
  bn_count irre = 0 → rebuildBranches db irre immutable txPool [irre] = Ok bs →
  ∃ br, bs = [br] ∧ br_head br = irre.
Proof.
  intros Hc. cbn [rebuildBranches]. rewrite hasAncestor_refl. rewrite Hc.
  assert (refill db (u32 (0 + 1)) irre = Ok irre) as ->.
  { destruct irre. cbn in *. subst. reflexivity. }
  cbn [result_bind]. destruct (newBranch irre irre immutable txPool) as [br| |] eqn:Hbr; [|done..].
  cbn [result_bind]. intros [= <-]. exists br. split; [done|]. by apply newBranch_head in Hbr.
Qed.
End start.

Lemma NewChain_genesis `{BlockEnv} `{!MsgPack Account} `{!MsgPack SQLChainProfile}
    `{!MsgPack ProviderProfile} `{!MsgPack BPBlock} `{!MsgPack Transaction} e cfg genesis addr c :
  cfg_Genesis cfg = Some genesis → Z.of_nat (length (peers_Servers (cfg_Peers cfg))) < two32 →
  NewChain e cfg false emptyTables addr = Ok c →
  wf_fv (fview c) ∧ bn_hash (c_lastIrre c) = BlockHash genesis ∧ bn_count (c_lastIrre c) = 0 ∧
  bn_parent (c_lastIrre c) = None ∧ br_head <$> c_branches c = [c_lastIrre c] ∧ Chain.head c = Some (c_lastIrre c) ∧
  c_nextHeight c = u32 (bn_height (c_lastIrre c) + 1) ∧
  0 <= c_confirms c <= Z.of_nat (length (peers_Servers (cfg_Peers cfg))).
Proof.
  intros Hg Hl Hnew. unfold NewChain in Hnew. rewrite Hg in Hnew.
  destruct (Block_VerifyHash genesis); [|done..]. cbn [result_bind] in Hnew.
  destruct (initStorage e genesis emptyTables) as [db|err|] eqn:Hinit; [|done..]. cbn [result_bind] in Hnew.
  apply initStorage_blocks in Hinit as (enc & Henc & Hrows & Hirre).
  destruct (loadDatabase db) as [[[[irre heads] immutable] txPool]| |] eqn:Hload; [|done..].
  cbn [result_bind] in Hnew. destruct (negb _); [done|].
  destruct (loadDatabase_genesis _ _ _ _ _ _ _ Henc Hrows Hirre Hload) as [Hi ->].
  assert (bn_count irre = 0 ∧ bn_parent irre = None ∧ bn_hash irre = BlockHash genesis) as (Hc & Hp & Hh)
    by (by rewrite Hi).
  destruct (rebuildBranches _ _ _ _ _) as [bs| |] eqn:Hre; [|done..]. cbn [result_bind] in Hnew.
  destruct (rebuild_genesis _ _ _ _ _ Hc Hre) as (br & -> & Hbr). cbn [selectHead] in Hnew.
  destruct addr as [addr| |]; [|done..]. cbn [result_bind] in Hnew.
  destruct (buildBlockProducerInfos _ _ _) as [[info infos]| |]; [|done..]. cbn [result_bind] in Hnew.
  injection Hnew as <-. unfold Chain.head, headBranch.
  cbn [c_lastIrre c_confirms c_branches c_headIndex c_nextHeight fmap list_fmap lookup list_lookup option_fmap option_map]. rewrite Hbr.
  split; [|split; [exact Hh|split; [exact Hc|split; [exact Hp|split; [done|split; [done|split; [done|]]]]]]].
  - split; cbn [fview c_branches c_headIndex c_lastIrre c_confirms fv_heads fv_head fv_irre fv_confirms].
    + exists irre. cbn [fmap list_fmap lookup list_lookup]. rewrite Hbr. split; [reflexivity|]. split; [|lia].
      intros h ->%list_elem_of_singleton. lia.
    + intros h. cbn [fmap list_fmap]. rewrite Hbr. intros ->%list_elem_of_singleton.
      split; [by apply wf_genesis|apply hasAncestor_refl].
    + by apply wf_genesis.
    + apply needConfirms_range. apply u32_range.
  - rewrite u32_id by (unfold is_u32; lia). apply needConfirms_range. lia.
Qed.

(** C35: a chain started on a fresh data file is well-formed: the genesis block of the
    configuration, which has no parent, is its irreversible block, the head of its only
    branch and the head it works on, the next height is the one after it, and it needs
    at most as many confirmations as there are block producers, of which there are less
    than 2^32. *)
Theorem NewChain_fresh `{BlockEnv} `{!MsgPack Account} `{!MsgPack SQLChainProfile}
    `{!MsgPack ProviderProfile} `{!MsgPack BPBlock} `{!MsgPack Transaction} e cfg genesis addr c :
  cfg_Genesis cfg = Some genesis → Z.of_nat (length (peers_Servers (cfg_Peers cfg))) < two32 →
  NewChain e cfg false emptyTables addr = Ok c →
  wf_fv (fview c) ∧ bn_hash (c_lastIrre c) = BlockHash genesis ∧ bn_count (c_lastIrre c) = 0 ∧
  bn_parent (c_lastIrre c) = None ∧ br_head <$> c_branches c = [c_lastIrre c] ∧ Chain.head c = Some (c_lastIrre c) ∧
  c_nextHeight c = u32 (bn_height (c_lastIrre c) + 1) ∧
  0 <= c_confirms c <= Z.of_nat (length (peers_Servers (cfg_Peers cfg))).
Proof. apply NewChain_genesis. Qed.
