(* ===== verification/ChainRun.v ===== *)
(** * A concrete chain

    A chain of two block producers started on an empty data file, blocks of three
    periods, a fork, failing storage and a transaction; the theorems of
    [ChainProps] applied to them; and the run in which the irreversible block moves
    back after the list of block producers has grown. *)
From S2P Require Import Prelude Hash Types Block MetaState MetaView MetaTx Ledger LedgerRefine Sample.
From S2P Require Import Storage StorageProps Branch BranchProps ChainSample Chain ForkChoice ChainProps.
From Stdlib Require Import String ZArith Lia.
From Corelib Require Import SpecFloat.
From stdpp Require Import base list gmap strings.
Local Open Scope Z_scope.

Definition noJSON (t : Transaction) : string := "".
Definition noTime (t : Transaction) : Z := 0.
Definition works : engine := MkEngine true None.

(** An empty block of time [ts], packed and signed. *)
Definition blockAt (ts : Z) (parent : Hash) : BPBlock :=
  let b := MkBPBlock (MkBPSignedHeader (MkBPHeader 1 alice zeroHash parent ts) (MkHSV zeroHash None None)) [] in
  match PackAndSignBlock b sampleKey with Ok b => b | _ => b end.

Definition genesis : BPBlock := blockAt 0 zeroHash.
Definition block1 : BPBlock := blockAt 1000 (BlockHash genesis).
Definition block2 : BPBlock := blockAt 2000 (BlockHash block1).
Definition block3 : BPBlock := blockAt 3000 (BlockHash block2).
Definition block4 : BPBlock := blockAt 4000 (BlockHash block3).
Definition fork2 : BPBlock := blockAt 5000 (BlockHash block1).

Definition configOf (servers : list NodeID) : Config :=
  MkConfig BPMode (Some genesis) (MkPeers "a" servers) "a" float_zero 1000 100.

Definition start (servers : list NodeID) (existed : bool) (db : tables) : GoResult error Chain :=
  NewChain works (configOf servers) existed db (Ok alice).

Definition emptyChain : Chain :=
  MkChain emptyTables alice 0 0 0 0 [] (MkBPInfo 0 0 "" "") "" 0 0 0 node0 newMetaState 0 [] ∅.
Definition orEmpty (r : GoResult error Chain) : Chain := match r with Ok c => c | _ => emptyChain end.

Definition push (bl : BPBlock) (c : Chain) : Chain := (pushBlock noJSON noTime works bl c).2.

Definition chain0 : Chain := orEmpty (start ["a"; "b"]%string false emptyTables).
Definition chain1 : Chain := push block1 chain0.
Definition chain3 : Chain := push block3 (push block2 chain1).

Lemma chain0_started : start ["a"; "b"]%string false emptyTables = Ok chain0.
Proof. vm_compute. reflexivity. Qed.

Lemma NewChain_fresh_witness :
  wf_fv (fview chain0) ∧ bn_count (c_lastIrre chain0) = 0 ∧ br_head <$> c_branches chain0 = [c_lastIrre chain0].
Proof.
  destruct (NewChain_fresh works (configOf ["a"; "b"]%string) genesis (Ok alice) chain0 eq_refl)
    as (Hwf & _ & Hc & _ & Hb & _); [vm_compute; reflexivity|exact chain0_started|]. split; [exact Hwf|]. split; [exact Hc|exact Hb].
Defined.

Lemma wf_chain0 : wf_fv (fview chain0).
Proof.
  destruct (NewChain_genesis works (configOf ["a"; "b"]%string) genesis (Ok alice) chain0 eq_refl) as [Hwf _];
    [vm_compute; reflexivity|exact chain0_started|exact Hwf].
Qed.

Lemma room_decided c :
  forallb (λ b, bool_decide (bn_count (br_head b) + 1 < two32)) (c_branches c) = true → room c.
Proof.
  intros Hf b Hb. apply (bool_decide_unpack _), Is_true_true. rewrite forallb_forall in Hf.
  apply Hf. by apply list_elem_of_In.
Qed.

Lemma chain_refines_witness :
  fv_step (fview chain0) (fview chain1) ∧ wf_fv (fview chain1) ∧ length (fv_heads (fview chain1)) = 1%nat.
Proof.
  destruct (chain_refines noJSON noTime chain0 chain1 wf_chain0) as [Hs Hwf].
  - apply room_decided. vm_compute. reflexivity.
  - apply (step_block noJSON noTime chain0 works block1).
  - split; [exact Hs|]. split; [exact Hwf|]. vm_compute. reflexivity.
Defined.

Lemma run_chain3 : chain_run noJSON noTime chain0 chain3.
Proof.
  apply (rtc_l _ _ chain1); [split; [apply room_decided; vm_compute; reflexivity|apply step_block]|].
  apply (rtc_l _ _ (push block2 chain1)); [split; [apply room_decided; vm_compute; reflexivity|apply step_block]|].
  apply rtc_once. split; [apply room_decided; vm_compute; reflexivity|apply step_block].
Qed.

(** Three blocks on, with two confirmations, the first block is irreversible. *)
Lemma chain_finality_witness :
  bn_count (c_lastIrre chain3) = 1 ∧ hasAncestor (c_lastIrre chain3) (c_lastIrre chain0) = true.
Proof.
  split; [vm_compute; reflexivity|].
  exact (proj1 (proj2 (chain_finality noJSON noTime chain0 chain3 wf_chain0 run_chain3))).
Defined.

Lemma chain_longest_witness : ∃ hb, headBranch chain3 = Some hb ∧ bn_count (c_lastIrre chain3) <=
  Z.max 0 (bn_count (br_head hb) - c_confirms chain3).
Proof.
  destruct (chain_longest noJSON noTime chain0 chain3 wf_chain0 run_chain3) as (hb & Hhb & _ & Hi).
  exists hb. split; [exact Hhb|exact Hi].
Defined.

(** The third statement of a switch fails: the block is refused and nothing but
    the immutable state's overlay was touched. *)
Definition brokenDisk : engine := MkEngine true (Some 2%nat).

Lemma applyBlock_error_atomic_witness :
  (applyBlock noJSON noTime brokenDisk block1 chain0).1 ≠ Ok tt ∧
  untouched chain0 (applyBlock noJSON noTime brokenDisk block1 chain0).2.
Proof.
  assert ((applyBlock noJSON noTime brokenDisk block1 chain0).1 = Err (ErrNew "sql")) as Hr by (vm_compute; reflexivity).
  split; [rewrite Hr; discriminate|].
  apply (applyBlock_error_atomic noJSON noTime brokenDisk block1 chain0
    (applyBlock noJSON noTime brokenDisk block1 chain0).1).
  - apply surjective_pairing.
  - rewrite Hr. discriminate.
Defined.

Lemma turn_unique_witness : ∃ id, id ∈ ["a"; "b"]%string ∧
  ∀ c, configured (MkPeers "a" ["a"; "b"]%string) id c → c_nextHeight c = 7 → isMyTurn c = Some true.
Proof.
  refine (proj1 (turn_unique (MkPeers "a" ["a"; "b"]%string) _ _ _) 7 _).
  - discriminate.
  - apply (bool_decide_unpack _). vm_compute. exact I.
  - vm_compute. reflexivity.
  - lia.
Defined.

(** A fork below the head opens a second branch. *)
Lemma fork_opens_branch : length (c_branches (push fork2 (push block2 chain1))) = 2%nat.
Proof. vm_compute. reflexivity. Qed.

(** Restarted with a longer list of block producers, the node needs more
    confirmations, and the next block moves the irreversible block back: the blocks
    between would be applied to the immutable state a second time. *)
Definition restarted : Chain := orEmpty (start ["a"; "b"; "c"; "d"]%string true (c_storage chain3)).

Lemma irreversible_moves_back :
  bn_count (c_lastIrre restarted) = 1 ∧ bn_count (c_lastIrre (push block4 restarted)) = 0.
Proof. vm_compute. split; reflexivity. Qed.
