(* ===== verification/Bytes.v ===== *)
(** * Bytes

    Big-endian numbers as [encoding/binary] writes them, and the bytewise order of
    keys, which on big-endian numbers is the order of the numbers. *)
From S2P Require Import Prelude.
From Stdlib Require Import ZArith Lia Sorting.Sorted.
From stdpp Require Import base list gmap.
Local Open Scope Z_scope.

(** ** Big-endian numbers *)

(** [binary.BigEndian.PutUint64] on [k] bytes. *)
Fixpoint putBE (k : nat) (i : Z) : list Z :=
  match k with
  | O => []
  | S k => (i / 2 ^ (8 * Z.of_nat k)) mod 256 :: putBE k i
  end.
(** [binary.BigEndian.Uint64] *)
Definition getBE (b : list Z) : Z := foldl (λ acc x, acc * 256 + x) 0 b.

Lemma length_putBE k i : length (putBE k i) = k.
Proof. induction k as [|k IH]; cbn; [done|]. by rewrite IH. Qed.

Lemma getBE_acc b acc : foldl (λ acc x, acc * 256 + x) acc b = acc * 256 ^ Z.of_nat (length b) + getBE b.
Proof.
  unfold getBE. revert acc. induction b as [|x b IH]; intros acc; cbn [foldl length]; [cbn; lia|].
  rewrite IH, (IH (0 * 256 + x)). rewrite Nat2Z.inj_succ, Z.pow_succ_r by lia. lia.
Qed.

Lemma getBE_putBE k i : getBE (putBE k i) = i mod 256 ^ Z.of_nat k.
Proof.
  induction k as [|k IH]; [cbn; by rewrite Z.mod_1_r|].
  cbn [putBE]. unfold getBE. cbn [foldl]. rewrite getBE_acc, IH, length_putBE, Nat2Z.inj_succ.
  rewrite Z.pow_succ_r by lia. replace (2 ^ (8 * Z.of_nat k)) with (256 ^ Z.of_nat k)
    by (rewrite Z.pow_mul_r by lia; done).
  assert (0 < 256 ^ Z.of_nat k) by (apply Z.pow_pos_nonneg; lia).
  rewrite (Z.mul_comm 256), Z.rem_mul_r by lia. lia.
Qed.

Lemma putBE_inj k i j : 0 <= i < 256 ^ Z.of_nat k → 0 <= j < 256 ^ Z.of_nat k → putBE k i = putBE k j → i = j.
Proof.
  intros Hi Hj Hb. apply (f_equal getBE) in Hb. rewrite !getBE_putBE in Hb. by rewrite !Z.mod_small in Hb.
Qed.

(** The bytewise order of keys. *)
Fixpoint bytes_lt (x y : list Z) : Prop :=
  match x, y with
  | _, [] => False
  | [], _ :: _ => True
  | a :: x, b :: y => a < b ∨ (a = b ∧ bytes_lt x y)
  end.

(** On big-endian numbers it is the order of the numbers. *)
Lemma bytes_lt_putBE k i j : bytes_lt (putBE k i) (putBE k j) → i mod 256 ^ Z.of_nat k < j mod 256 ^ Z.of_nat k.
Proof.
  induction k as [|k IH]; cbn [putBE bytes_lt]; [done|].
  rewrite Nat2Z.inj_succ, Z.pow_succ_r by lia.
  replace (2 ^ (8 * Z.of_nat k)) with (256 ^ Z.of_nat k) by (rewrite Z.pow_mul_r by lia; done).
  set (q := 256 ^ Z.of_nat k) in *. assert (0 < q) by (apply Z.pow_pos_nonneg; lia).
  rewrite !(Z.mul_comm 256), !Z.rem_mul_r by lia.
  pose proof (Z.mod_pos_bound i q). pose proof (Z.mod_pos_bound j q). intros [?|[-> ?%IH]]; nia.
Qed.

Lemma bytes_lt_asym x y : bytes_lt x y → bytes_lt y x → False.
Proof. revert y. induction x as [|a x IH]; intros [|b y]; cbn; [done..|]. intros [?|[-> ?]] [?|[? ?]]; [lia..|eauto]. Qed.

Lemma bytes_lt_app p x y : bytes_lt (p ++ x) (p ++ y) ↔ bytes_lt x y.
Proof. induction p as [|a p IH]; cbn; [done|]. rewrite IH. split; [intros [?|[_ ?]]; [lia|done]|by right]. Qed.

(** A smaller number is a smaller key, whatever follows. *)
Lemma putBE_lt k i j x y : i mod 256 ^ Z.of_nat k < j mod 256 ^ Z.of_nat k → bytes_lt (putBE k i ++ x) (putBE k j ++ y).
Proof.
  induction k as [|k IH]; cbn [putBE app bytes_lt]; [cbn; rewrite !Z.mod_1_r; lia|].
  rewrite Nat2Z.inj_succ, Z.pow_succ_r by lia.
  replace (2 ^ (8 * Z.of_nat k)) with (256 ^ Z.of_nat k) by (rewrite Z.pow_mul_r by lia; done).
  set (q := 256 ^ Z.of_nat k) in *. assert (0 < q) by (apply Z.pow_pos_nonneg; lia).
  rewrite !(Z.mul_comm 256), !Z.rem_mul_r by lia. fold q.
  pose proof (Z.mod_pos_bound i q). pose proof (Z.mod_pos_bound j q). intros Hlt.
  destruct (Z.lt_total ((i / q) mod 256) ((j / q) mod 256)) as [?|[Heq|?]]; [by left| |nia].
  right. split; [done|]. apply IH. rewrite Heq in Hlt. lia.
Qed.

(** Strictly sorted entries with the same elements are the same. *)
Lemma sorted_entries_eq (l l' : list (list Z * list Z)) : StronglySorted bytes_lt l.*1 → StronglySorted bytes_lt l'.*1 →
  (∀ kv, kv ∈ l ↔ kv ∈ l') → l = l'.
Proof.
  revert l'. induction l as [|kv l IH]; intros [|kv' l'] Hs Hs' Hin.
  - done.
  - exfalso. apply (not_elem_of_nil kv'), Hin. by left.
  - exfalso. apply (not_elem_of_nil kv), Hin. by left.
  - cbn in Hs, Hs'. apply StronglySorted_inv in Hs as [Hs Hf], Hs' as [Hs' Hf'].
    rewrite Forall_forall in Hf, Hf'.
    assert (∀ x, x ∈ l → bytes_lt kv.1 x.1) as Hl by (intros x Hx; by apply Hf, list_elem_of_fmap_2).
    assert (∀ x, x ∈ l' → bytes_lt kv'.1 x.1) as Hl' by (intros x Hx; by apply Hf', list_elem_of_fmap_2).
    assert (kv = kv') as <-.
    { assert (kv ∈ kv' :: l') as [->|Hk]%elem_of_cons by (apply Hin; by left); [done|].
      assert (kv' ∈ kv :: l) as [->|Hk']%elem_of_cons by (apply Hin; by left); [done|].
      destruct (bytes_lt_asym kv.1 kv'.1); auto. }
    f_equal. apply IH; [done..|]. intros x. split; intros Hx.
    + assert (x ∈ kv :: l') as [->|?]%elem_of_cons by (apply Hin; by right); [|done].
      destruct (bytes_lt_asym kv.1 kv.1); auto.
    + assert (x ∈ kv :: l) as [->|?]%elem_of_cons by (apply Hin; by right); [|done].
      destruct (bytes_lt_asym kv.1 kv.1); auto.
Qed.

(** ** A decision procedure for the order *)

Fixpoint bytes_leb (x y : list Z) : bool :=
  match x, y with
  | [], _ => true
  | _ :: _, [] => false
  | a :: x, b :: y => (a <? b) || ((a =? b) && bytes_leb x y)
  end.
Lemma bytes_leb_trans x y z : bytes_leb x y = true → bytes_leb y z = true → bytes_leb x z = true.
Proof.
  revert y z. induction x as [|a x IH]; intros [|b y] [|c z]; cbn; try done.
  rewrite !orb_true_iff, !andb_true_iff, !Z.ltb_lt, !Z.eqb_eq.
  intros [?|[-> ?]] [?|[-> ?]]; [left; lia|by left|by left|right; split; [done|by eapply IH]].
Qed.
Lemma bytes_leb_total x y : bytes_leb x y = true ∨ bytes_leb y x = true.
Proof.
  revert y. induction x as [|a x IH]; intros [|b y]; cbn; [by left..|by right|].
  rewrite !orb_true_iff, !andb_true_iff, !Z.ltb_lt, !Z.eqb_eq.
  destruct (Z.lt_total a b) as [?|[->|?]]; [by left; left| |by right; left]. destruct (IH y); [left|right]; by right.
Qed.
Lemma bytes_leb_lt x y : bytes_leb x y = true → x ≠ y → bytes_lt x y.
Proof.
  revert y. induction x as [|a x IH]; intros [|b y]; cbn; try done.
  rewrite orb_true_iff, andb_true_iff, Z.ltb_lt, Z.eqb_eq. intros [?|[-> ?]] Hne; [by left|].
  right. split; [done|]. apply IH; [done|]. congruence.
Qed.
Lemma bytes_leb_refl x : bytes_leb x x = true.
Proof. induction x as [|a x IH]; cbn; [done|]. by rewrite Z.eqb_refl, IH, orb_true_r. Qed.
Lemma bytes_lt_leb x y : bytes_lt x y → bytes_leb x y = true.
Proof.
  revert y. induction x as [|a x IH]; intros [|b y]; cbn; try done.
  rewrite orb_true_iff, andb_true_iff, Z.ltb_lt, Z.eqb_eq. intros [?|[-> ?]]; [by left|]. right. auto.
Qed.
Lemma bytes_leb_antisym x y : bytes_leb x y = true → bytes_leb y x = true → x = y.
Proof.
  intros Hxy Hyx. destruct (decide (x = y)) as [?|Hne]; [done|]. exfalso.
  apply (bytes_lt_asym x y); apply bytes_leb_lt; auto.
Qed.
Lemma bytes_lt_leb_trans x y z : bytes_lt x y → bytes_leb y z = true → bytes_lt x z.
Proof.
  intros Hxy Hyz. apply bytes_leb_lt; [eapply bytes_leb_trans; [by apply bytes_lt_leb|done]|].
  intros ->. apply (bytes_lt_asym z y); [done|]. apply bytes_leb_lt; [done|]. intros ->. by apply (bytes_lt_asym z z).
Qed.
Lemma bytes_nlt_leb x y : ¬ bytes_lt x y → bytes_leb y x = true.
Proof.
  intros Hn. destruct (bytes_leb_total x y) as [Hl|]; [|done]. destruct (decide (x = y)) as [->|Hne]; [apply bytes_leb_refl|].
  destruct Hn. by apply bytes_leb_lt.
Qed.
