(* ===== verification/LevelDB.v ===== *)
(** * LevelDB

    The ordered key-value store under the logs of Kayak and under the SQL chain, as
    a parameter: point reads and writes that may fail, and a snapshot of the entries
    under a prefix in key order. *)
From S2P Require Import Prelude Bytes.
From Stdlib Require Import ZArith Lia Sorting.Sorted.
From stdpp Require Import base list gmap sorting.
Local Open Scope Z_scope.

(** [leveldb.DB]: point reads and writes that may fail, and a snapshot of the
    entries under a key prefix in key order.  [None] is [leveldb.ErrNotFound]. *)
Class LevelDB (E D : Type) := {
  ldb_Get : D → list Z → GoResult E (option (list Z));
  ldb_Put : list Z → list Z → D → option E * D;
  ldb_prefix : D → list Z → list (list Z * list Z);
  ldb_map : D → gmap (list Z) (list Z);
  ldb_Get_spec : ∀ d k o, ldb_Get d k = Ok o → ldb_map d !! k = o;
  ldb_Put_spec : ∀ d k v r d', ldb_Put k v d = (r, d') →
    ldb_map d' = match r with None => <[k := v]> (ldb_map d) | Some _ => ldb_map d end;
  ldb_prefix_spec : ∀ d pre k v, (k, v) ∈ ldb_prefix d pre ↔ ldb_map d !! k = Some v ∧ pre `prefix_of` k;
  ldb_prefix_sorted : ∀ d pre, StronglySorted bytes_lt (ldb_prefix d pre).*1;
}.

(** * An ordered store as a finite map

    An instance of [LevelDB] for the concrete runs: a finite map whose entries under
    a prefix are sorted by key. *)

Definition keyLe (x y : list Z * list Z) : Prop := bytes_leb x.1 y.1 = true.
#[export] Instance keyLe_dec : RelDecision keyLe.
Proof. intros x y. unfold keyLe. apply _. Defined.

#[export] Instance keyLe_trans : Transitive keyLe.
Proof. intros x y z. apply bytes_leb_trans. Qed.
#[export] Instance keyLe_total : Total keyLe.
Proof. intros x y. apply bytes_leb_total. Qed.

(** The entries under a prefix, in key order. *)
Definition entriesUnder (d : gmap (list Z) (list Z)) (pre : list Z) : list (list Z * list Z) :=
  merge_sort keyLe (filter (λ kv, pre `prefix_of` kv.1) (map_to_list d)).

Lemma strictly_sorted (l : list (list Z * list Z)) : NoDup l.*1 → StronglySorted keyLe l → StronglySorted bytes_lt l.*1.
Proof.
  induction l as [|x l IH]; cbn; intros Hnd Hs; [constructor|].
  apply NoDup_cons in Hnd as [Hx Hnd]. inversion Hs as [|? ? Hs' Hf]; subst. constructor; [by apply IH|].
  rewrite Forall_forall in Hf. apply Forall_forall. intros k (y & -> & Hy)%list_elem_of_fmap. apply bytes_leb_lt; [by apply Hf|].
  intros Heq. apply Hx. rewrite Heq. by apply list_elem_of_fmap_2.
Qed.

Lemma entriesUnder_sorted d pre : StronglySorted bytes_lt (entriesUnder d pre).*1.
Proof.
  apply strictly_sorted; [|apply (StronglySorted_merge_sort keyLe)].
  unfold entriesUnder. rewrite merge_sort_Permutation.
  eapply sublist_NoDup; [apply (NoDup_fst_map_to_list d)|]. apply fmap_sublist, sublist_filter.
Qed.

Lemma entriesUnder_spec d pre k v : (k, v) ∈ entriesUnder d pre ↔ d !! k = Some v ∧ pre `prefix_of` k.
Proof.
  unfold entriesUnder. rewrite merge_sort_Permutation, list_elem_of_filter, elem_of_map_to_list. cbn. tauto.
Qed.

Lemma put_spec {E : Type} (d : gmap (list Z) (list Z)) k v r d' : (None : option E, <[k := v]> d) = (r, d') →
  d' = match r with None => <[k := v]> d | Some _ => d end.
Proof. by intros [= <- <-]. Qed.
Lemma get_spec {E : Type} (d : gmap (list Z) (list Z)) k o : (Ok (d !! k) : GoResult E _) = Ok o → d !! k = o.
Proof. by intros [= <-]. Qed.

#[export] Instance sampleLevelDB (E : Type) : LevelDB E (gmap (list Z) (list Z)) := {|
  ldb_Get := λ d k, Ok (d !! k);
  ldb_Put := λ k v d, (None, <[k := v]> d);
  ldb_prefix := entriesUnder;
  ldb_map := λ d, d;
  ldb_Get_spec := get_spec;
  ldb_Put_spec := put_spec;
  ldb_prefix_spec := entriesUnder_spec;
  ldb_prefix_sorted := entriesUnder_sorted;
|}.

Lemma sample_reads {E : Type} (d : gmap (list Z) (list Z)) k : ∃ o, ldb_Get (E := E) d k = Ok o.
Proof. by eexists. Qed.
