(* ===== verification/KayakWal.v ===== *)
(** * kayak: logs and write-ahead logs

    Models [src/kayak/types/log.go], [src/kayak/utils.go] and the two write-ahead
    logs of [src/kayak/wal]: [MemWal] and [LevelDBWal].  The runtime uses a log
    through the interface [kt.Wal]; here that is the class [Wal], whose laws are
    what the runtime relies on, and both implementations are instances.  LevelDB
    itself is a parameter, the class [LevelDB]. *)
From S2P Require Import Prelude Types Bytes LevelDB.
From Stdlib Require Import String ZArith Lia Sorting.Sorted.
From stdpp Require Import base list gmap strings.
Local Open Scope Z_scope.

(** ** Errors *)

(** The errors of [kayak/types] and [kayak/wal], [io.EOF], and others. *)
Inductive kerror :=
| ErrNotLeader | ErrNotFollower | ErrPrepareTimeout | ErrPrepareFailed | ErrInvalidLog
| ErrNotInPeer | ErrInvalidConfig | ErrStopped
| ErrWalClosed | ErrWalInvalidLog | ErrAlreadyExists | ErrNotExists
| EOF
| KWrap (e : kerror)
| KNew (msg : string).

#[export] Instance kerror_eq_dec : EqDecision kerror.
Proof. solve_decision. Defined.

(** ** Logs *)

(** [LogType], a [uint16] *)
Definition LogPrepare : Z := 0.
Definition LogRollback : Z := 1.
Definition LogCommit : Z := 2.

Record LogHeader := MkLogHeader {
  lg_Index : Z;
  lg_Version : Z;
  lg_Type : Z;
  lg_Producer : NodeID;
  lg_DataLength : Z;
}.
Record Log := MkLog { lg_Header : LogHeader; lg_Data : list Z }.
Definition Log_Index (l : Log) : Z := lg_Index (lg_Header l).
Definition Log_Type (l : Log) : Z := lg_Type (lg_Header l).

#[export] Instance LogHeader_eq_dec : EqDecision LogHeader.
Proof. solve_decision. Defined.
#[export] Instance Log_eq_dec : EqDecision Log.
Proof. solve_decision. Defined.

(** [l.DataLength = n] *)
Definition set_DataLength (n : Z) (l : Log) : Log :=
  let h := lg_Header l in
  MkLog (MkLogHeader (lg_Index h) (lg_Version h) (lg_Type h) (lg_Producer h) n) (lg_Data l).

(** The same log up to its recorded length. *)
Definition sameLog (l l' : Log) : Prop := set_DataLength 0 l = set_DataLength 0 l'.

Lemma sameLog_fields l l' : sameLog l l' →
  Log_Index l = Log_Index l' ∧ Log_Type l = Log_Type l' ∧ lg_Data l = lg_Data l'.
Proof. destruct l as [[] ?], l' as [[] ?]. by intros [= -> -> -> -> ->]. Qed.

Lemma sameLog_set n l : sameLog l (set_DataLength n l).
Proof. by destruct l as [[] ?]. Qed.

(** ** Numbers in logs *)

Definition uint64ToBytes (i : Z) : list Z := putBE 8 i.

(** [bytesToUint64]: the first eight bytes. *)
Definition bytesToUint64 (b : list Z) : GoResult kerror Z :=
  if decide (length b < 8)%nat then Err ErrInvalidLog else Ok (getBE (take 8 b)).

Lemma length_uint64ToBytes i : length (uint64ToBytes i) = 8%nat.
Proof. apply length_putBE. Qed.

Lemma bytesToUint64_app i rest : is_u64 i → bytesToUint64 (uint64ToBytes i ++ rest) = Ok i.
Proof.
  intros Hi. unfold bytesToUint64, uint64ToBytes. rewrite length_app, length_putBE, decide_False by lia.
  rewrite take_app_length' by (by rewrite length_putBE). rewrite getBE_putBE. f_equal. by apply Z.mod_small.
Qed.

Lemma drop_uint64ToBytes i rest : drop 8 (uint64ToBytes i ++ rest) = rest.
Proof. apply drop_app_length'. unfold uint64ToBytes. by rewrite length_putBE. Qed.

Lemma uint64ToBytes_inj i j : is_u64 i → is_u64 j → uint64ToBytes i = uint64ToBytes j → i = j.
Proof.
  intros Hi Hj Hb. apply (f_equal (λ b, bytesToUint64 (b ++ []))) in Hb.
  rewrite !bytesToUint64_app in Hb by done. congruence.
Qed.

(** ** The interface *)

(** [kt.Wal].  A write may change the log it is given ([LevelDBWal] records the
    length), so it returns it.  [wal_lookup] is the content; [wal_unread] what
    [Read] has still to deliver; a log is [wal_fresh] when it was just opened. *)
Class Wal (W : Type) := {
  wal_Write : Log → GoM W kerror Log;
  wal_Read : GoM W kerror Log;
  wal_Get : W → Z → GoResult kerror Log;
  wal_lookup : W → Z → option Log;
  wal_unread : W → list Log;
  wal_ok : W → Prop;
  wal_fresh : W → Prop;

  (** A write stores a log under a fresh index, or changes nothing. *)
  wal_Write_spec : ∀ w l r w', wal_ok w → is_u64 (Log_Index l) → wal_Write l w = (r, w') → wal_ok w' ∧
    match r with
    | Ok l' => sameLog l l' ∧ wal_lookup w (Log_Index l) = None ∧
               ∀ i, is_u64 i → wal_lookup w' i = if decide (i = Log_Index l) then Some l' else wal_lookup w i
    | _ => ∀ i, is_u64 i → wal_lookup w' i = wal_lookup w i
    end;
  wal_Get_spec : ∀ w i l, wal_ok w → is_u64 i → wal_Get w i = Ok l → wal_lookup w i = Some l;
  wal_keys : ∀ w i l, wal_ok w → is_u64 i → wal_lookup w i = Some l → Log_Index l = i;
  (** Reading does not change the content and delivers the unread logs in turn. *)
  wal_Read_spec : ∀ w r w', wal_ok w → wal_Read w = (r, w') →
    wal_ok w' ∧ (∀ i, is_u64 i → wal_lookup w' i = wal_lookup w i) ∧
    match r with
    | Ok l => wal_unread w = l :: wal_unread w'
    | Err EOF => wal_unread w = []
    | _ => True
    end;
  (** A log just opened delivers its whole content by increasing index. *)
  wal_fresh_spec : ∀ w, wal_ok w → wal_fresh w →
    StronglySorted Z.lt (Log_Index <$> wal_unread w) ∧
    ∀ l, l ∈ wal_unread w ↔ is_u64 (Log_Index l) ∧ wal_lookup w (Log_Index l) = Some l;
}.

(** ** The memory log *)

Module MemWal.
Record MemWal := MkMemWal {
  logs : list Log;
  revIndex : gmap Z nat;
  offset : nat;
  closed : bool;
}.

Definition NewMemWal : MemWal := MkMemWal [] ∅ 0 false.

(** [Write]: the slice grows by one and its tail from [offset] on moves up. *)
Definition Write (l : Log) : GoM MemWal kerror Log := λ p,
  if closed p then (Err ErrWalClosed, p)
  else
    match revIndex p !! Log_Index l with
    | Some _ => (Err ErrAlreadyExists, p)
    | None =>
        let off := offset p in
        (Ok l, MkMemWal (take off (logs p) ++ l :: drop off (logs p)) (<[Log_Index l := off]> (revIndex p))
                 (S off) (closed p))
    end.

Definition Read : GoM MemWal kerror Log := λ p,
  if closed p then (Err ErrWalClosed, p) else (Err EOF, p).

Definition Get (p : MemWal) (index : Z) : GoResult kerror Log :=
  if closed p then Err ErrWalClosed
  else
    match revIndex p !! index with
    | None => Err ErrNotExists
    | Some i => match logs p !! i with Some l => Ok l | None => Panic end
    end.

Definition Close (p : MemWal) : MemWal := MkMemWal (logs p) (revIndex p) (offset p) true.

(** The slice and the index agree. *)
Record ok (p : MemWal) : Prop := {
  ok_offset : offset p = length (logs p);
  ok_index i k : revIndex p !! i = Some k ↔ ∃ l, logs p !! k = Some l ∧ Log_Index l = i;
  ok_u64 k l : logs p !! k = Some l → is_u64 (Log_Index l);
}.

Definition content (p : MemWal) (i : Z) : option Log := revIndex p !! i ≫= λ k, logs p !! k.

Lemma Write_ok l p : ok p → is_u64 (Log_Index l) → revIndex p !! Log_Index l = None →
  ok (MkMemWal (logs p ++ [l]) (<[Log_Index l := length (logs p)]> (revIndex p)) (S (length (logs p))) false).
Proof.
  intros [Ho Hi Hu] Hl Hn. split; cbn.
  - rewrite length_app. cbn. lia.
  - intros i k. destruct (decide (Log_Index l = i)) as [<-|Hne].
    + rewrite lookup_insert_eq. split.
      * intros [= <-]. exists l. by rewrite list_lookup_middle.
      * intros (l' & Hk & Hl'). apply lookup_app_Some in Hk as [Hk|[Hge Hk]].
        { assert (revIndex p !! Log_Index l = Some k) by (apply Hi; eauto). congruence. }
        apply list_lookup_singleton_Some in Hk as [? ->]. f_equal. lia.
    + rewrite lookup_insert_ne by done. rewrite Hi. split.
      * intros (l' & Hk & Hl'). exists l'. split; [by apply lookup_app_l_Some|done].
      * intros (l' & Hk & Hl'). apply lookup_app_Some in Hk as [Hk|[Hge Hk]]; [eauto|].
        apply list_lookup_singleton_Some in Hk as [? ->]. congruence.
  - intros k l' Hk. apply lookup_app_Some in Hk as [Hk|[Hge Hk]]; [by eapply Hu|].
    by apply list_lookup_singleton_Some in Hk as [_ ->].
Qed.

Lemma Write_content l p i : ok p → revIndex p !! Log_Index l = None →
  content (MkMemWal (logs p ++ [l]) (<[Log_Index l := length (logs p)]> (revIndex p)) (S (length (logs p))) false) i =
  if decide (i = Log_Index l) then Some l else content p i.
Proof.
  intros [Ho Hi Hu] Hn. unfold content. cbn. case_decide as Hd.
  - subst i. rewrite lookup_insert_eq. cbn. by rewrite list_lookup_middle.
  - rewrite lookup_insert_ne by done. destruct (revIndex p !! i) as [k|] eqn:Hk; [|done]. cbn.
    apply Hi in Hk as (l' & Hk & _). rewrite lookup_app_l; [done|]. by eapply lookup_lt_Some.
Qed.

#[global, refine] Instance memWal : Wal MemWal := {|
  wal_Write := Write; wal_Read := Read; wal_Get := Get; wal_lookup := content; wal_unread := λ _, [];
  wal_ok := ok; wal_fresh := λ p, p = NewMemWal;
|}.
Proof.
  - intros p l r p' Hok Hl. unfold Write. destruct (closed p) eqn:Hc; [by intros [= <- <-]|].
    destruct (revIndex p !! Log_Index l) as [k|] eqn:Hk; [by intros [= <- <-]|]. intros [= <- <-].
    rewrite (ok_offset _ Hok), take_ge, drop_ge by lia.
    split; [by apply Write_ok|]. split; [done|]. split; [unfold content; by rewrite Hk|].
    intros i _. by apply Write_content.
  - intros p i l Hok _. unfold Get, content. destruct (closed p); [done|].
    destruct (revIndex p !! i) as [k|] eqn:Hk; [|done]. cbn. destruct (logs p !! k); congruence.
  - intros p i l Hok _ Hl. unfold content in Hl. destruct (revIndex p !! i) as [k|] eqn:Hk; [|done]. cbn in Hl.
    apply (ok_index _ Hok) in Hk as (l' & Hl' & <-). congruence.
  - intros p r p' Hok. unfold Read. destruct (closed p); by intros [= <- <-].
  - intros p Hok ->. split; [constructor|]. intros l. split; [by intros ?%not_elem_of_nil|]. by intros [_ ?].
Defined.
End MemWal.

Lemma NewMemWal_ok : MemWal.ok MemWal.NewMemWal.
Proof. split; cbn; [done| |done]. intros i k. rewrite lookup_empty. split; [done|]. by intros (? & ? & _). Qed.

(** ** The LevelDB log *)

Module LevelDBWal.
Section leveldb_wal.
Context `{LevelDB kerror D} `{!MsgPack LogHeader} `{!MsgPack (list Z)}.

(** [it] holds the header values the iterator has still to deliver. *)
Record LevelDBWal := MkLevelDBWal {
  db : D;
  it : option (list (list Z));
  closed : bool;
  read : bool;
}.

Definition logHeaderKeyPrefix : list Z := [76; 72].
Definition logDataKeyPrefix : list Z := [76; 68].
Definition headerKey (i : Z) : list Z := logHeaderKeyPrefix ++ uint64ToBytes i.
Definition dataKey (i : Z) : list Z := logDataKeyPrefix ++ uint64ToBytes i.

Definition NewLevelDBWal (d : D) : LevelDBWal := MkLevelDBWal d None false false.

Definition liftPut (m : D → option kerror * D) : GoM LevelDBWal kerror unit := λ p,
  let '(r, d) := m (db p) in
  (match r with None => Ok tt | Some e => Err (KWrap e) end, MkLevelDBWal d (it p) (closed p) (read p)).

Definition encoded {A} `{!MsgPack A} (a : A) : GoM LevelDBWal kerror (list Z) :=
  match EncodeMsgPack a with Some enc => mret enc | None => throw (KWrap (KNew "encode")) end.

(** [Write]: the data first, then the header with the data's length. *)
Definition Write (l : Log) : GoM LevelDBWal kerror Log :=
  p ← getS;
  if closed p then throw ErrWalClosed
  else
    modifyS (λ p, MkLevelDBWal (db p) (it p) (closed p) true);;
    match ldb_Get (db p) (headerKey (Log_Index l)) with
    | Err e => throw (KWrap e)
    | Panic => panic
    | Ok (Some _) => throw ErrAlreadyExists
    | Ok None =>
        enc ← encoded (lg_Data l);
        liftPut (ldb_Put (dataKey (Log_Index l)) enc);;
        let l := set_DataLength (Z.of_nat (length enc)) l in
        henc ← encoded (lg_Header l);
        liftPut (ldb_Put (headerKey (Log_Index l)) henc);;
        mret l
    end.

(** [load]: a header value, then the data under the header's index. *)
Definition load (d : D) (logHeader : list Z) : GoResult kerror Log :=
  match DecodeMsgPack logHeader with
  | None => Err (KWrap (KNew "decode"))
  | Some h =>
      match ldb_Get d (dataKey (lg_Index h)) with
      | Err e => Err (KWrap e)
      | Panic => Panic
      | Ok None => Err (KWrap (KNew "leveldb: not found"))
      | Ok (Some encData) =>
          match DecodeMsgPack encData with
          | None => Err (KWrap (KNew "decode"))
          | Some data => Ok (MkLog h data)
          end
      end
  end.

Definition Read : GoM LevelDBWal kerror Log := λ p,
  if closed p then (Err ErrWalClosed, p)
  else if read p then (Err EOF, p)
  else
    let vs := match it p with Some vs => vs | None => (ldb_prefix (db p) logHeaderKeyPrefix).*2 end in
    match vs with
    | v :: vs => (load (db p) v, MkLevelDBWal (db p) (Some vs) (closed p) (read p))
    | [] => (Err EOF, MkLevelDBWal (db p) None (closed p) true)
    end.

Definition Get (p : LevelDBWal) (i : Z) : GoResult kerror Log :=
  if closed p then Err ErrWalClosed
  else
    match ldb_Get (db p) (headerKey i) with
    | Err e => Err (KWrap e)
    | Panic => Panic
    | Ok None => Err ErrNotExists
    | Ok (Some headerData) => load (db p) headerData
    end.

Definition Close (p : LevelDBWal) : LevelDBWal := MkLevelDBWal (db p) None true (read p).

(** ** The content of the store *)

(** [load] on the map the store denotes. *)
Definition loaded (m : gmap (list Z) (list Z)) (v : list Z) : option Log :=
  h ← (DecodeMsgPack v : option LogHeader);
  d ← m !! dataKey (lg_Index h);
  data ← (DecodeMsgPack d : option (list Z));
  Some (MkLog h data).

Definition content (p : LevelDBWal) (i : Z) : option Log :=
  ldb_map (db p) !! headerKey i ≫= loaded (ldb_map (db p)).

(** Every header is at its index and has its data. *)
Definition okMap (m : gmap (list Z) (list Z)) : Prop :=
  ∀ k v, m !! k = Some v → logHeaderKeyPrefix `prefix_of` k →
    ∃ l, loaded m v = Some l ∧ is_u64 (Log_Index l) ∧ k = headerKey (Log_Index l).

Record ok (p : LevelDBWal) : Prop := {
  ok_map : okMap (ldb_map (db p));
  ok_it vs v : it p = Some vs → v ∈ vs → ∃ k, ldb_map (db p) !! k = Some v ∧ logHeaderKeyPrefix `prefix_of` k;
}.

Definition unread (p : LevelDBWal) : list Log :=
  if read p then []
  else omap (loaded (ldb_map (db p)))
         (match it p with Some vs => vs | None => (ldb_prefix (db p) logHeaderKeyPrefix).*2 end).

Lemma headerKey_inj i j : is_u64 i → is_u64 j → headerKey i = headerKey j → i = j.
Proof. intros Hi Hj Hk. apply app_inv_head in Hk. by apply uint64ToBytes_inj. Qed.
Lemma dataKey_inj i j : is_u64 i → is_u64 j → dataKey i = dataKey j → i = j.
Proof. intros Hi Hj Hk. apply app_inv_head in Hk. by apply uint64ToBytes_inj. Qed.
Lemma headerKey_prefix i : logHeaderKeyPrefix `prefix_of` headerKey i.
Proof. by exists (uint64ToBytes i). Qed.
Lemma dataKey_not_header k i : logHeaderKeyPrefix `prefix_of` k → k ≠ dataKey i.
Proof. intros [r ->]. done. Qed.
Lemma headerKey_lt i j : is_u64 i → is_u64 j → bytes_lt (headerKey i) (headerKey j) → i < j.
Proof.
  intros Hi Hj Hlt. cbn -[uint64ToBytes] in Hlt. destruct Hlt as [?|[_ [?|[_ Hlt]]]]; [lia..|].
  apply bytes_lt_putBE in Hlt. change (256 ^ Z.of_nat 8) with two64 in Hlt. by rewrite !Z.mod_small in Hlt.
Qed.

Lemma load_loaded d v l : load d v = Ok l → loaded (ldb_map d) v = Some l.
Proof.
  unfold load, loaded. destruct (DecodeMsgPack v) as [h|]; [|done]. cbn.
  destruct (ldb_Get d _) as [[e|]| |] eqn:Hg; [|done..]. rewrite (ldb_Get_spec _ _ _ Hg). cbn.
  destruct (DecodeMsgPack e); [|done]. by intros [= <-].
Qed.

(** Data under a new index disturbs no log; a header disturbs no data. *)
Lemma loaded_putData m i enc v l : loaded m v = Some l → is_u64 (Log_Index l) → is_u64 i → Log_Index l ≠ i →
  loaded (<[dataKey i := enc]> m) v = Some l.
Proof.
  unfold loaded. destruct (DecodeMsgPack v) as [h|]; [|done]. cbn. intros Hl Hu Hi Hne.
  rewrite lookup_insert_ne; [done|]. intros Hk%dataKey_inj; [|done|].
  all: destruct (m !! _); [|done]; cbn in Hl; destruct (DecodeMsgPack _); [|done]; injection Hl as <-; done.
Qed.
Lemma loaded_putHeader m i enc v : loaded (<[headerKey i := enc]> m) v = loaded m v.
Proof.
  unfold loaded. destruct (DecodeMsgPack v) as [h|]; [|done]. cbn.
  rewrite lookup_insert_ne; [done|]. apply dataKey_not_header, headerKey_prefix.
Qed.

Lemma okMap_putData m i enc : okMap m → is_u64 i → m !! headerKey i = None → okMap (<[dataKey i := enc]> m).
Proof.
  intros Hok Hi Hn k v Hk Hp. rewrite lookup_insert_ne in Hk by (intros <-; by eapply dataKey_not_header).
  destruct (Hok k v Hk Hp) as (l & Hl & Hu & ->). exists l. split; [|done].
  apply loaded_putData; [done..|]. intros <-. congruence.
Qed.

Lemma okMap_putHeader m l henc : okMap m → is_u64 (Log_Index l) → loaded m henc = Some l →
  okMap (<[headerKey (Log_Index l) := henc]> m).
Proof.
  intros Hok Hu Hl k v. destruct (decide (headerKey (Log_Index l) = k)) as [<-|Hne].
  - rewrite lookup_insert_eq. intros [= <-] _. exists l. by rewrite loaded_putHeader.
  - rewrite lookup_insert_ne by done. rewrite loaded_putHeader. apply Hok.
Qed.

Lemma content_putData p i enc d' j : okMap (ldb_map (db p)) → is_u64 i → is_u64 j →
  ldb_map (db p) !! headerKey i = None → ldb_map d' = <[dataKey i := enc]> (ldb_map (db p)) →
  ldb_map d' !! headerKey j ≫= loaded (ldb_map d') = content p j.
Proof.
  intros Hok Hi Hj Hn ->. unfold content.
  rewrite lookup_insert_ne by (intros Heq; by apply (dataKey_not_header _ i (headerKey_prefix j))).
  destruct (ldb_map (db p) !! headerKey j) as [v|] eqn:Hv; [|done]. cbn.
  destruct (Hok _ v Hv (headerKey_prefix j)) as (l & Hl & Hu & Hk). rewrite Hl.
  apply loaded_putData; [done..|]. intros <-. congruence.
Qed.

#[local] Opaque headerKey dataKey.

Lemma ok_grow p d' m r : ok p → ldb_map d' = m → okMap m →
  (∀ k v, ldb_map (db p) !! k = Some v → logHeaderKeyPrefix `prefix_of` k → m !! k = Some v) →
  ok (MkLevelDBWal d' (it p) (closed p) r).
Proof.
  intros [Hm Hit] <- Hok' Hsub. split; cbn; [done|]. intros vs v Hvs Hv.
  destruct (Hit vs v Hvs Hv) as (k & Hk & Hpre). eauto.
Qed.

Lemma Write_spec p l r p' : ok p → is_u64 (Log_Index l) → Write l p = (r, p') → ok p' ∧
  match r with
  | Ok l' => sameLog l l' ∧ content p (Log_Index l) = None ∧
             ∀ i, is_u64 i → content p' i = if decide (i = Log_Index l) then Some l' else content p i
  | _ => ∀ i, is_u64 i → content p' i = content p i
  end.
Proof.
  intros Hok Hl. pose proof Hok as [Hm Hit]. unfold Write. go_unfold.
  destruct (closed p) eqn:Hc; [by intros [= <- <-]|].
  assert (ok (MkLevelDBWal (db p) (it p) (closed p) true)) as Hok1 by (by eapply ok_grow).
  rewrite Hc in Hok1. go_unfold. rewrite Hc.
  destruct (ldb_Get (db p) _) as [[v|]| |] eqn:Hg; [by intros [= <- <-]| |by intros [= <- <-]..].
  apply ldb_Get_spec in Hg. assert (content p (Log_Index l) = None) as Hn by (unfold content; by rewrite Hg).
  unfold encoded. destruct (EncodeMsgPack (lg_Data l)) as [enc|] eqn:Henc; [|by intros [= <- <-]].
  go_unfold. unfold liftPut. cbn [db it closed read].
  destruct (ldb_Put _ enc _) as [[e|] d1] eqn:Hp1; apply ldb_Put_spec in Hp1.
  { intros [= <- <-]. split; [|intros i _; unfold content; cbn; by rewrite Hp1].
    rewrite <- Hc. by eapply ok_grow. }
  set (l' := set_DataLength _ l). assert (Log_Index l' = Log_Index l) as Hi' by done.
  assert (okMap (ldb_map d1)) as Hok1m by (rewrite Hp1; by apply okMap_putData).
  assert (∀ k v, ldb_map (db p) !! k = Some v → logHeaderKeyPrefix `prefix_of` k → ldb_map d1 !! k = Some v) as Hsub1.
  { intros k v Hk Hpre. rewrite Hp1, lookup_insert_ne; [done|]. intros <-. by eapply dataKey_not_header. }
  assert (∀ i, is_u64 i → ldb_map d1 !! headerKey i ≫= loaded (ldb_map d1) = content p i) as Hcont1.
  { intros i Hi. by apply (content_putData p (Log_Index l) enc). }
  destruct (EncodeMsgPack (lg_Header l')) as [henc|] eqn:Hhenc; go_unfold.
  2:{ intros [= <- <-]. split; [rewrite <- Hc; by apply (ok_grow p d1 (ldb_map d1))|exact Hcont1]. }
  cbn [db it closed read]. destruct (ldb_Put _ henc d1) as [[e|] d2] eqn:Hp2; apply ldb_Put_spec in Hp2; intros [= <- <-].
  { split; [|intros i Hi; unfold content; cbn; rewrite Hp2; by apply Hcont1].
    rewrite <- Hc. by apply (ok_grow p d2 (ldb_map d1)). }
  assert (loaded (ldb_map d1) henc = Some l') as Hload.
  { unfold loaded. rewrite (Decode_Encode _ _ Hhenc). cbn. rewrite Hp1, lookup_insert_eq. cbn.
    rewrite (Decode_Encode _ _ Henc). by destruct l as [[] ?]. }
  rewrite Hi' in Hp2. split; [rewrite <- Hc; apply (ok_grow p d2 (ldb_map d2)); [done..| |]|].
  - rewrite Hp2, <- Hi'. by apply okMap_putHeader.
  - intros k v Hk Hpre. rewrite Hp2, lookup_insert_ne; [by apply Hsub1|]. intros <-. congruence.
  - split; [apply sameLog_set|]. split; [done|]. intros i Hi. unfold content at 1. cbn. rewrite Hp2.
    case_decide as Hd; [subst i; rewrite lookup_insert_eq; cbn; by rewrite loaded_putHeader|].
    rewrite lookup_insert_ne by (intros Hk; by apply headerKey_inj in Hk).
    rewrite <- Hcont1 by done. destruct (ldb_map d1 !! headerKey i); [|done]. cbn. apply loaded_putHeader.
Qed.

Lemma Get_spec p i l : Get p i = Ok l → content p i = Some l.
Proof.
  unfold Get, content. destruct (closed p); [done|].
  destruct (ldb_Get _ _) as [[v|]| |] eqn:Hg; [|done..]. rewrite (ldb_Get_spec _ _ _ Hg). apply load_loaded.
Qed.

Lemma content_key p i l : ok p → is_u64 i → content p i = Some l → Log_Index l = i.
Proof.
  intros [Hm _] Hi. unfold content. destruct (ldb_map _ !! _) as [v|] eqn:Hv; [|done]. cbn. intros Hl.
  destruct (Hm _ v Hv (headerKey_prefix i)) as (l' & Hl' & Hu & Hk). rewrite Hl in Hl'. injection Hl' as <-.
  symmetry. by apply headerKey_inj.
Qed.

Lemma Read_spec p r p' : ok p → Read p = (r, p') → ok p' ∧ (∀ i, is_u64 i → content p' i = content p i) ∧
  match r with Ok l => unread p = l :: unread p' | Err EOF => unread p = [] | _ => True end.
Proof.
  intros [Hm Hit]. unfold Read. destruct (closed p); [by intros [= <- <-]|].
  destruct (read p) eqn:Hr; [intros [= <- <-]; split_and!; [done..|]; unfold unread; by rewrite Hr|].
  unfold unread. rewrite Hr. set (vs := match it p with Some vs => vs | None => _ end).
  assert (∀ v, v ∈ vs → ∃ k, ldb_map (db p) !! k = Some v ∧ logHeaderKeyPrefix `prefix_of` k) as Hvs.
  { intros v Hv. unfold vs in Hv. destruct (it p) as [vs'|] eqn:Hvs; [by eapply Hit|].
    apply list_elem_of_fmap in Hv as ([k v'] & -> & Hin). apply ldb_prefix_spec in Hin. by exists k. }
  destruct vs as [|v vs'] eqn:Hvs'; intros [= <- <-]; (split; [split; cbn; [done|]|]).
  - done.
  - done.
  - intros vs0 v0 [= <-] Hv0. apply Hvs. by right.
  - split; [done|]. destruct (load (db p) v) as [l|e|] eqn:Hl; [| |done].
    + cbn. by rewrite (load_loaded _ _ _ Hl).
    + unfold load in Hl. repeat case_match; simplify_eq; done.
Qed.

Lemma sorted_indices m (kvs : list (list Z * list Z)) :
  (∀ k v, (k, v) ∈ kvs → ∃ l, loaded m v = Some l ∧ is_u64 (Log_Index l) ∧ k = headerKey (Log_Index l)) →
  StronglySorted bytes_lt kvs.*1 → StronglySorted Z.lt (Log_Index <$> omap (loaded m) kvs.*2).
Proof.
  induction kvs as [|[k v] kvs IH]; intros Hkv Hs; cbn; [constructor|].
  destruct (Hkv k v) as (l & Hl & Hu & ->); [by left|]. rewrite Hl. cbn. inversion Hs as [|? ? Hs' Hf]; subst.
  constructor; [apply IH; [intros k' v' ?; apply Hkv; by right|done]|].
  apply Forall_fmap, Forall_forall. intros l' Hl'. apply list_elem_of_omap in Hl' as (v' & Hv' & Hl').
  apply list_elem_of_fmap in Hv' as ([k' v''] & -> & Hin). cbn in Hl'.
  destruct (Hkv k' v'') as (l'' & Hl'' & Hu'' & ->); [by right|]. rewrite Hl' in Hl''. injection Hl'' as <-. cbn.
  apply headerKey_lt; [done..|]. rewrite Forall_forall in Hf. apply Hf, list_elem_of_fmap.
  by exists (headerKey (Log_Index l'), v'').
Qed.

Lemma fresh_spec p : ok p → p = NewLevelDBWal (db p) →
  StronglySorted Z.lt (Log_Index <$> unread p) ∧
  ∀ l, l ∈ unread p ↔ is_u64 (Log_Index l) ∧ content p (Log_Index l) = Some l.
Proof.
  intros [Hm _] ->. cbn [db unread read it NewLevelDBWal] in *. split.
  - apply sorted_indices; [|apply ldb_prefix_sorted]. intros k v [Hk Hpre]%ldb_prefix_spec. by apply Hm.
  - intros l. unfold unread, content. cbn. rewrite list_elem_of_omap. split.
    + intros (v & ([k v'] & -> & [Hk Hpre]%ldb_prefix_spec)%list_elem_of_fmap & Hl). cbn in *.
      destruct (Hm k v' Hk Hpre) as (l' & Hl' & Hu & ->). simplify_eq. split; [done|]. by rewrite Hk.
    + intros [Hu Hc]. destruct (ldb_map (db p) !! headerKey (Log_Index l)) as [v|] eqn:Hv; [|done].
      exists v. split; [|done]. apply list_elem_of_fmap. exists (headerKey (Log_Index l), v). split; [done|].
      apply ldb_prefix_spec. split; [done|apply headerKey_prefix].
Qed.

#[global] Instance levelDBWal : Wal LevelDBWal := {|
  wal_Write := Write; wal_Read := Read; wal_Get := Get; wal_lookup := content; wal_unread := unread;
  wal_ok := ok; wal_fresh := λ p, p = NewLevelDBWal (db p);
  wal_Write_spec := λ w l r w', Write_spec w l r w';
  wal_Get_spec := λ w i l _ _, Get_spec w i l;
  wal_keys := content_key;
  wal_Read_spec := Read_spec;
  wal_fresh_spec := fresh_spec;
|}.
End leveldb_wal.
End LevelDBWal.
