(* ===== verification/Kayak.v ===== *)
(** * kayak: the replication runtime

    Models [src/kayak]: [runtime.go], [commit.go], [processes.go], [log.go],
    [tracker.go], [rpc.go], [callbacks.go] and the wait of [waiter.go].  A leader
    writes every request as a prepare log, then, depending on the answers of the
    followers, a commit or a rollback log that names the prepare log; a commit log
    also names the previous commit.  Followers write the logs they receive and
    commit a request when its predecessor is the last one they committed.

    A runtime is generic in its log ([Wal]) and in the service it replicates
    ([Handler]).  The code runs the phases of a request in different goroutines; a
    phase that runs under one lock or in the commit cycle is one operation here, and
    [KayakProps] interleaves them freely.  A wait for a missing log is an operation
    that fails without effect until the log is there: before the wait nothing has
    been changed.  A failing write of the leader's log ends the process. *)
From S2P Require Import Prelude Types KayakWal.
From Stdlib Require Import String ZArith Lia.
From Corelib Require Import SpecFloat.
From stdpp Require Import base list gmap strings.
Local Open Scope Z_scope.

(** ** The replicated service *)

(** [kt.Handler] over a state [St]: a check does not change the state, a commit
    does and has a result; decoding inverts encoding. *)
Class Handler (St Req Resp : Type) := {
  EncodePayload : Req → option (list Z);
  DecodePayload : list Z → option Req;
  Check : Req → St → option kerror * St;
  Commit : Req → bool → St → GoResult kerror Resp * St;
  Decode_EncodePayload : ∀ r enc, EncodePayload r = Some enc → DecodePayload enc = Some r;
}.

Inductive ServerRole := Leader | Follower.
#[export] Instance ServerRole_eq_dec : EqDecision ServerRole.
Proof. solve_decision. Defined.

(** ** Trackers *)

(** [rpcTracker]: the nodes asked, the answers so far, and whether [doneCh] is
    closed. *)
Record rpcTracker := MkTracker {
  tk_nodes : list NodeID;
  tk_minCount : Z;
  tk_errors : gmap NodeID (option kerror);
  tk_complete : Z;
  tk_done : bool;
}.

Definition newTracker (followers : list NodeID) (minCount : Z) : rpcTracker :=
  let minCount := if decide (minCount > Z.of_nat (length followers)) then Z.of_nat (length followers)
                  else minCount in
  let minCount := if decide (minCount < 0) then 0 else minCount in
  MkTracker followers minCount ∅ 0 false.

Definition tracker_send (t : rpcTracker) : rpcTracker :=
  if decide (tk_minCount t = 0)
  then MkTracker (tk_nodes t) (tk_minCount t) (tk_errors t) (tk_complete t) true else t.

(** The answer of one node arrives. *)
Definition callSingle (t : rpcTracker) (node : NodeID) (err : option kerror) : rpcTracker :=
  let complete := tk_complete t + 1 in
  MkTracker (tk_nodes t) (tk_minCount t) (<[node := err]> (tk_errors t)) complete
    (tk_done t || bool_decide (complete >= tk_minCount t)).

(** [get], when its wait ends: the answers, whether they are enough, whether they
    are all. *)
Definition tracker_get (t : rpcTracker) : gmap NodeID (option kerror) * bool * bool :=
  let n := Z.of_nat (size (tk_errors t)) in
  (tk_errors t, tk_done t || bool_decide (n >= tk_minCount t),
   bool_decide (n = Z.of_nat (length (tk_nodes t)))).

Definition errorSummary (errs : gmap NodeID (option kerror)) : option kerror :=
  if decide (size (filter (λ kv, kv.2 ≠ None) errs) = 0)%nat then None
  else Some (KWrap ErrPrepareFailed).

(** What the leader makes of a finished or timed out prepare. *)
Definition prepareOutcome (t : rpcTracker) : option kerror :=
  let '(errs, done, _) := tracker_get t in
  if negb done then Some ErrPrepareTimeout else errorSummary errs.

(** ** The runtime *)

Record Runtime (W St : Type) := MkRuntime {
  rt_nextIndex : Z;
  rt_lastCommit : Z;
  rt_pendingPrepares : gset Z;
  rt_nodeID : NodeID;
  rt_wal : W;
  rt_sh : St;
  rt_role : ServerRole;
  rt_followers : list NodeID;
  rt_minPreparedFollowers : Z;
  rt_minCommitFollowers : Z;
  rt_started : Z;
}.
Arguments MkRuntime {W St}.
Arguments rt_nextIndex {W St}.
Arguments rt_lastCommit {W St}.
Arguments rt_pendingPrepares {W St}.
Arguments rt_nodeID {W St}.
Arguments rt_wal {W St}.
Arguments rt_sh {W St}.
Arguments rt_role {W St}.
Arguments rt_followers {W St}.
Arguments rt_minPreparedFollowers {W St}.
Arguments rt_minCommitFollowers {W St}.
Arguments rt_started {W St}.

(** [commitReq] of a follower. *)
Record commitReq (Req : Type) := MkCommitReq {
  cr_data : Req;
  cr_index : Z;
  cr_lastCommit : Z;
  cr_log : Log;
}.
Arguments MkCommitReq {Req}.
Arguments cr_data {Req}.
Arguments cr_index {Req}.
Arguments cr_lastCommit {Req}.
Arguments cr_log {Req}.

(** How far a request gets before its context ends. *)
Inductive commitWait := NotEnqueued | NoResult | GotResult.

Section runtime.
Context {W : Type} `{!Wal W} {St Req Resp : Type} `{!Handler St Req Resp}.
Implicit Types (r : Runtime W St) (l : Log) (i : Z).

Abbreviation KM := (GoM (Runtime W St) kerror).

Definition set_nextIndex r i : Runtime W St :=
  let 'MkRuntime _ lc pp id w s ro fo mp mc st := r in MkRuntime i lc pp id w s ro fo mp mc st.
Definition set_lastCommit r i : Runtime W St :=
  let 'MkRuntime ni _ pp id w s ro fo mp mc st := r in MkRuntime ni i pp id w s ro fo mp mc st.
Definition set_pending r (pp : gset Z) : Runtime W St :=
  let 'MkRuntime ni lc _ id w s ro fo mp mc st := r in MkRuntime ni lc pp id w s ro fo mp mc st.
Definition set_wal r (w : W) : Runtime W St :=
  let 'MkRuntime ni lc pp id _ s ro fo mp mc st := r in MkRuntime ni lc pp id w s ro fo mp mc st.
Definition set_sh r (s : St) : Runtime W St :=
  let 'MkRuntime ni lc pp id w _ ro fo mp mc st := r in MkRuntime ni lc pp id w s ro fo mp mc st.
Definition set_started r (st : Z) : Runtime W St :=
  let 'MkRuntime ni lc pp id w s ro fo mp mc _ := r in MkRuntime ni lc pp id w s ro fo mp mc st.

(** ** Logs *)

Definition onWal {A} (m : GoM W kerror A) : KM A := λ r,
  let '(res, w) := m (rt_wal r) in (res, set_wal r w).

(** [newLog]: allocate the next index and write. *)
Definition newLog (logType : Z) (data : list Z) : KM Log :=
  r ← getS;
  let i := rt_nextIndex r in
  modifyS (λ r, set_nextIndex r (u64 (i + 1)));;
  res ← attempt (onWal (wal_Write (MkLog (MkLogHeader i 0 logType (rt_nodeID r) 0) data)));
  match res with inl _ => panic | inr l => mret l end.

(** [errors.Wrap] on the error of a call. *)
Definition wrapping {A} (m : KM A) : KM A :=
  res ← attempt m;
  match res with inl e => throw (KWrap e) | inr a => mret a end.

Definition writeWAL l : KM unit := wrapping (onWal (wal_Write l));; mret tt.

Definition updateNextIndex l : KM unit :=
  modifyS (λ r, if decide (rt_nextIndex r < u64 (Log_Index l + 1)) then set_nextIndex r (u64 (Log_Index l + 1))
                else r).

(** [waitForLog], once the log is there; until then it waits. *)
Definition waitForLog i : KM Log :=
  r ← getS;
  match wal_Get (rt_wal r) i with
  | Ok l => mret l
  | Err _ => throw (KNew "waiting for log")
  | Panic => panic
  end.

(** [checkIfPrepareFinished], [markPendingPrepare], [markPrepareFinished] *)
Definition checkIfPrepareFinished i : KM bool :=
  r ← getS; mret (bool_decide (i ∉ rt_pendingPrepares r)).
Definition markPendingPrepare i : KM unit := modifyS (λ r, set_pending r ({[i]} ∪ rt_pendingPrepares r)).
Definition markPrepareFinished i : KM unit := modifyS (λ r, set_pending r (rt_pendingPrepares r ∖ {[i]})).

(** [getPrepareLog]: the prepare log a commit or rollback names, and the last
    commit a commit names (0 when it names none). *)
Definition getPrepareLog l : KM (Z * Log) :=
  match bytesToUint64 (lg_Data l) with
  | Err e => throw (KWrap e)
  | Panic => panic
  | Ok prepareIndex =>
      pl ← wrapping (waitForLog prepareIndex);
      if decide (16 <= length (lg_Data l))%nat then
        let lastCommitIndex := match bytesToUint64 (drop 8 (lg_Data l)) with Ok i => i | _ => 0 end in
        wrapping (waitForLog lastCommitIndex);; mret (lastCommitIndex, pl)
      else mret (0, pl)
  end.

(** ** Leader *)

(** The callbacks of the service, with their wrapped errors. *)
Definition doCheck (req : Req) : KM unit :=
  r ← getS;
  let '(e, s) := Check req (rt_sh r) in
  modifyS (λ r, set_sh r s);; match e with Some e => throw (KWrap e) | None => mret tt end.
Definition doEncodePayload (req : Req) : KM (list Z) :=
  match EncodePayload req with Some enc => mret enc | None => throw (KWrap (KNew "encode")) end.
Definition doDecodePayload (data : list Z) : KM Req :=
  match DecodePayload data with Some req => mret req | None => throw (KWrap (KNew "decode")) end.
Definition doCommit (req : Req) (isLeader : bool) : KM (GoResult kerror Resp) :=
  r ← getS;
  let '(res, s) := Commit req isLeader (rt_sh r) in
  modifyS (λ r, set_sh r s);; match res with Panic => panic | _ => mret res end.

(** [doLeaderPrepare] up to the calls of the followers. *)
Definition leaderPrepare (req : Req) : KM Log :=
  wrapping (doCheck req);;
  encBuf ← wrapping (doEncodePayload req);
  prepareLog ← newLog LogPrepare encBuf;
  markPendingPrepare (Log_Index prepareLog);;
  mret prepareLog.

(** [leaderDoCommit]: the commit log names the prepare log and the last commit;
    the service commits; the commit becomes the last. *)
Definition leaderDoCommit (data : Req) (index : Z) : KM (GoResult kerror Resp * Z) :=
  r ← getS;
  l ← newLog LogCommit (uint64ToBytes index ++ uint64ToBytes (rt_lastCommit r));
  res ← doCommit data true;
  modifyS (λ r, set_lastCommit r (Log_Index l));;
  mret (res, Log_Index l).

Definition doLeaderRollback (prepareLog : Log) : KM Log :=
  newLog LogRollback (uint64ToBytes (Log_Index prepareLog)).

(** [Apply] as one goroutine runs it, given the followers' answers to the prepare
    log and what [ctx] leaves time for: nothing, the commit request to reach the
    commit cycle, or its result to come back.  The error of the service's own commit is
    the error of [Apply]. *)
Definition Apply (req : Req) (answers : list (NodeID * option kerror)) (wait : commitWait) : KM (Resp * Z) :=
  r ← getS;
  if decide (rt_started r ≠ 1) then throw ErrStopped
  else if decide (rt_role r ≠ Leader) then throw ErrNotLeader
  else
    prepareLog ← leaderPrepare req;
    let t := foldl (λ t a, callSingle t a.1 a.2)
               (tracker_send (newTracker (rt_followers r) (rt_minPreparedFollowers r))) answers in
    match prepareOutcome t with
    | Some err =>
        doLeaderRollback prepareLog;;
        markPrepareFinished (Log_Index prepareLog);;
        throw err
    | None =>
        match wait with
        | NotEnqueued =>
            markPrepareFinished (Log_Index prepareLog);; throw (KWrap (KNew "enqueue commit timeout"))
        | NoResult =>
            leaderDoCommit req (Log_Index prepareLog);;
            markPrepareFinished (Log_Index prepareLog);; throw (KWrap (KNew "get commit result timeout"))
        | GotResult =>
            res ← leaderDoCommit req (Log_Index prepareLog);
            markPrepareFinished (Log_Index prepareLog);;
            result ← liftR res.1;
            mret (result, res.2)
        end
    end.

Definition Fetch r i : GoResult kerror Log :=
  if decide (rt_started r ≠ 1) then Err ErrStopped
  else if decide (rt_role r ≠ Leader) then Err ErrNotLeader
  else wal_Get (rt_wal r) i.

(** ** Follower *)

Definition followerPrepare l (checkPrepare : bool) : KM unit :=
  req ← doDecodePayload (lg_Data l);
  (if checkPrepare then doCheck req else mret tt);;
  writeWAL l;;
  markPendingPrepare (Log_Index l).

Definition followerRollback l : KM unit :=
  named ← wrapping (getPrepareLog l);
  finished ← checkIfPrepareFinished (Log_Index named.2);
  if (finished : bool) then throw (KWrap ErrInvalidLog)
  else writeWAL l;; markPrepareFinished (Log_Index named.2).

(** [followerCommit] up to the commit cycle: the request it hands over. *)
Definition followerCommitBegin l : KM (commitReq Req) :=
  named ← wrapping (getPrepareLog l);
  finished ← checkIfPrepareFinished (Log_Index named.2);
  if (finished : bool) then throw (KWrap ErrInvalidLog)
  else
    r ← getS;
    if decide (named.1 < rt_lastCommit r) then throw (KWrap ErrInvalidLog)
    else
      req ← wrapping (doDecodePayload (lg_Data named.2));
      mret (MkCommitReq req (Log_Index named.2) named.1 l).

(** [followerDoCommit]: [None] when the request has to wait for its predecessor,
    else the error of the service. *)
Definition followerDoCommit (req : commitReq Req) : KM (option (option kerror)) :=
  r ← getS;
  if decide (cr_lastCommit req ≠ rt_lastCommit r) then mret None
  else
    writeWAL (cr_log req);;
    res ← doCommit (cr_data req) false;
    modifyS (λ r, set_lastCommit r (Log_Index (cr_log req)));;
    mret (Some (match res with Err e => Some e | _ => None end)).

(** The end of [followerCommit] and of [followerApply]. *)
Definition followerCommitEnd (req : commitReq Req) : KM unit :=
  markPrepareFinished (cr_index req);; updateNextIndex (cr_log req).

(** [followerApply]: prepare and rollback logs are applied at once, a commit log
    yields a request for the commit cycle. *)
Definition followerApply (o : option Log) (checkPrepare : bool) : KM (option (commitReq Req)) :=
  match o with
  | None => throw (KWrap ErrInvalidLog)
  | Some l =>
      r ← getS;
      if decide (rt_started r ≠ 1) then throw ErrStopped
      else if decide (rt_role r = Leader) then throw ErrNotFollower
      else if decide (Log_Type l = LogPrepare) then
        followerPrepare l checkPrepare;; updateNextIndex l;; mret None
      else if decide (Log_Type l = LogRollback) then
        followerRollback l;; updateNextIndex l;; mret None
      else if decide (Log_Type l = LogCommit) then
        req ← followerCommitBegin l; mret (Some req)
      else updateNextIndex l;; mret None
  end.

(** ** Start-up *)

(** One log of [readLogs].  A commit whose named predecessor is not the last
    commit ends the reading with a nil error. *)
Definition readLog l : KM bool :=
  if decide (Log_Type l = LogPrepare) then
    markPendingPrepare (Log_Index l);; updateNextIndex l;; mret true
  else if decide (Log_Type l = LogCommit) then
    named ← wrapping (getPrepareLog l);
    r ← getS;
    if decide (named.1 ≠ rt_lastCommit r) then mret false
    else if decide (Log_Index named.2 ∉ rt_pendingPrepares r) then throw (KWrap ErrInvalidLog)
    else
      modifyS (λ r, set_lastCommit r (Log_Index l));;
      markPrepareFinished (Log_Index named.2);; updateNextIndex l;; mret true
  else if decide (Log_Type l = LogRollback) then
    named ← wrapping (getPrepareLog l);
    r ← getS;
    if decide (Log_Index named.2 ∉ rt_pendingPrepares r) then throw (KWrap ErrInvalidLog)
    else markPrepareFinished (Log_Index named.2);; updateNextIndex l;; mret true
  else throw (KWrap ErrInvalidLog).

(** [readLogs] reads at most [fuel] logs; one more than the log holds is enough. *)
Fixpoint readLogs (fuel : nat) : KM unit :=
  match fuel with
  | O => throw (KNew "out of fuel")
  | S fuel =>
      res ← attempt (onWal wal_Read);
      match res with
      | inl EOF => mret tt
      | inl e => throw (KWrap e)
      | inr l =>
          go ← readLog l;
          if (go : bool) then readLogs fuel else mret tt
      end
  end.

(** [int(math.Max(math.Ceil(threshold * n), 1) - 1)] for a finite threshold. *)
Definition minFollowers (threshold : float64) (n : nat) : Z :=
  match float_mul threshold (float_of_u64 (Z.of_nat n)) with
  | S754_finite s m e => Z.max (- Z.shiftl (if s then Zpos m else Zneg m) e) 1 - 1
  | _ => 0
  end.

(** [kt.RuntimeConfig] as far as it is used, with the result of [peers.Verify]. *)
Record RuntimeConfig := MkRuntimeConfig {
  kc_PrepareThreshold : float64;
  kc_CommitThreshold : float64;
  kc_Leader : NodeID;
  kc_Servers : list NodeID;
  kc_Verify : option kerror;
  kc_NodeID : NodeID;
}.

Definition NewRuntime (fuel : nat) (cfg : RuntimeConfig) (w : W) (s : St)
    : GoResult kerror unit * Runtime W St :=
  let followers := filter (λ v, v ≠ kc_Leader cfg) (kc_Servers cfg) in
  let role := if decide (kc_NodeID cfg = kc_Leader cfg) then Leader else Follower in
  let n := length (kc_Servers cfg) in
  let rt := MkRuntime 0 0 ∅ (kc_NodeID cfg) w s role followers
    (minFollowers (kc_PrepareThreshold cfg) n) (minFollowers (kc_CommitThreshold cfg) n) 0 in
  match kc_Verify cfg with
  | Some e => (Err (KWrap e), rt)
  | None =>
      if decide (kc_NodeID cfg ∉ kc_Servers cfg) then (Err (KWrap ErrNotInPeer), rt)
      else readLogs fuel rt
  end.

Definition Start r : Runtime W St := if decide (rt_started r = 0) then set_started r 1 else r.
Definition Shutdown r : Runtime W St := if decide (rt_started r = 1) then set_started r 2 else r.
End runtime.
