(* ===== verification/KayakInv.v ===== *)
(** * kayak: what the runtime's operations do to a log

    The effect of each operation of [Kayak] on the runtime's fields and on the
    content of its write-ahead log, and the invariant of a log, [WalInv]: its
    commit logs are the first commits of a history, each naming its prepare log
    and its predecessor, and no prepare log is resolved twice. *)
From S2P Require Import Prelude Types KayakWal Kayak.
From Stdlib Require Import String ZArith Lia.
From stdpp Require Import base list gmap strings.
Local Open Scope Z_scope.

(** ** Histories *)

(** A commit of the leader: the index of its commit log, the prepare log it names,
    and the request. *)
Record entry (Req : Type) := MkEntry { en_commit : Z; en_prepare : Z; en_req : Req }.
Arguments MkEntry {Req}.
Arguments en_commit {Req}.
Arguments en_prepare {Req}.
Arguments en_req {Req}.

(** The commit before the [n]th, 0 for none. *)
Definition prevCommit {Req} (H : list (entry Req)) (n : nat) : Z :=
  match n with O => 0 | S k => default 0 (en_commit <$> H !! k) end.

(** Commits have growing, positive indices. *)
Definition growing {Req} (H : list (entry Req)) : Prop :=
  ∀ n e, H !! n = Some e → prevCommit H n < en_commit e ∧ is_u64 (en_commit e) ∧ is_u64 (en_prepare e).

Section histories.
Context {Req : Type}.
Implicit Types (H : list (entry Req)) (e : entry Req).

Lemma prevCommit_app H H' n : (n <= length H)%nat → prevCommit (H ++ H') n = prevCommit H n.
Proof. destruct n; [done|]. intros Hn. cbn. by rewrite lookup_app_l. Qed.

Lemma prevCommit_snoc H e : prevCommit (H ++ [e]) (S (length H)) = en_commit e.
Proof. cbn. by rewrite list_lookup_middle. Qed.

Lemma prevCommit_S H n e : H !! n = Some e → prevCommit H (S n) = en_commit e.
Proof. intros Hn. cbn. by rewrite Hn. Qed.

Lemma growing_lt H m n : growing H → (m < n)%nat → (n <= length H)%nat → prevCommit H m < prevCommit H n.
Proof.
  intros Hg Hm. induction Hm as [|n Hm IH]; intros Hn.
  - destruct (lookup_lt_is_Some_2 H m Hn) as [e He]. rewrite (prevCommit_S _ _ _ He). by apply Hg.
  - destruct (lookup_lt_is_Some_2 H n Hn) as [e He]. rewrite (prevCommit_S _ _ _ He).
    pose proof (Hg _ _ He). lia.
Qed.

Lemma prevCommit_inj H m n : growing H → (m <= length H)%nat → (n <= length H)%nat →
  prevCommit H m = prevCommit H n → m = n.
Proof.
  intros Hg Hm Hn Heq. destruct (Nat.lt_total m n) as [Hl|[->|Hl]]; [|done|].
  all: pose proof (growing_lt H _ _ Hg Hl); lia.
Qed.

Lemma en_commit_inj H m n e e' : growing H → H !! m = Some e → H !! n = Some e' →
  en_commit e = en_commit e' → m = n.
Proof.
  intros Hg Hm Hn Heq. assert (S m = S n); [|lia].
  apply (prevCommit_inj H); [done|by eapply lookup_lt_Some|by eapply lookup_lt_Some|].
  by rewrite (prevCommit_S _ _ _ Hm), (prevCommit_S _ _ _ Hn).
Qed.

Lemma prevCommit_u64 H n : growing H → is_u64 (prevCommit H n).
Proof.
  intros Hg. destruct n as [|n]; cbn; [done|]. destruct (H !! n) as [e|] eqn:He; cbn; [|done].
  by apply (Hg _ _ He).
Qed.

Lemma prevCommit_nonneg H n : growing H → 0 <= prevCommit H n.
Proof. intros Hg. by apply prevCommit_u64. Qed.

Lemma growing_snoc H e : growing H → prevCommit H (length H) < en_commit e → is_u64 (en_commit e) →
  is_u64 (en_prepare e) → growing (H ++ [e]).
Proof.
  intros Hg Hlt Hc Hp n e' [Hn|[Hn [Hz <-]%list_lookup_singleton_Some]]%lookup_app_Some.
  - rewrite prevCommit_app by (apply lookup_lt_Some in Hn; lia). by apply Hg.
  - replace n with (length H) by lia. by rewrite prevCommit_app by lia.
Qed.
End histories.

(** ** Effects of the operations *)

(** Storing a log under a free index. *)
Definition wal_put `{Wal W} (w : W) (l : Log) (w' : W) : Prop :=
  wal_lookup w (Log_Index l) = None ∧
  ∀ i, is_u64 i → wal_lookup w' i = if decide (i = Log_Index l) then Some l else wal_lookup w i.

(** The same content. *)
Definition wal_same `{Wal W} (w w' : W) : Prop := ∀ i, is_u64 i → wal_lookup w' i = wal_lookup w i.

Section effects.
Context {W : Type} `{!Wal W} {St Req Resp : Type} `{!Handler St Req Resp}.
Implicit Types (r : Runtime W St) (l : Log) (i : Z).

Lemma wal_put_mono w l w' i l0 : wal_put w l w' → is_u64 i → wal_lookup w i = Some l0 → wal_lookup w' i = Some l0.
Proof. intros [Hn Hp] Hi Hl. rewrite Hp by done. case_decide; [subst; congruence|done]. Qed.

Lemma wal_put_new w l w' : wal_put w l w' → is_u64 (Log_Index l) → wal_lookup w' (Log_Index l) = Some l.
Proof. intros [_ Hp] Hl. rewrite Hp by done. by rewrite decide_True. Qed.

Lemma wal_put_inv w l w' i l0 : wal_put w l w' → is_u64 i → wal_lookup w' i = Some l0 →
  (i = Log_Index l ∧ l0 = l) ∨ wal_lookup w i = Some l0.
Proof. intros [_ Hp] Hi. rewrite Hp by done. case_decide; [intros [= ->]; by left|by right]. Qed.

Lemma wrapping_inv {A} (m : GoM (Runtime W St) kerror A) r res r' : wrapping m r = (res, r') →
  ∃ res0, m r = (res0, r') ∧ ∀ a, res = Ok a → res0 = Ok a.
Proof.
  unfold wrapping. intros [(x & r1 & Ha & Hf)|(r0 & Ha & Hn & Hb)]%bind_inv.
  - apply attempt_inv in Ha as (res0 & Hm & Hr). exists res0.
    destruct res0 as [a|e|]; [injection Hr as ->; by injection Hf as <- <-
      |injection Hr as ->; by injection Hf as <- <-|done].
  - apply attempt_inv in Ha as (res0 & Hm & Hr). exists res0. split; [done|]. intros a ->. by destruct (Hb a).
Qed.

Lemma set_wal_wal r w : rt_wal (set_wal r w) = w.
Proof. by destruct r. Qed.

Lemma newLog_inv ty data r l r' : wal_ok (rt_wal r) → is_u64 (rt_nextIndex r) →
  newLog ty data r = (Ok l, r') →
  ∃ w', r' = set_wal (set_nextIndex r (u64 (rt_nextIndex r + 1))) w' ∧ wal_ok w' ∧
    Log_Index l = rt_nextIndex r ∧ Log_Type l = ty ∧ lg_Data l = data ∧ wal_put (rt_wal r) l w'.
Proof.
  intros Hok Hn. unfold newLog, onWal. go_unfold. destruct r as [ni lc pp id w s ro fo mp mc st]; cbn in *.
  set (l0 := MkLog _ data). destruct (wal_Write l0 w) as [res w'] eqn:Hw.
  apply wal_Write_spec in Hw as [Hok' Hw]; [|done..]. destruct res as [l'| |]; [|done..].
  intros [= <- <-]. destruct Hw as ((Hi & Ht & Hd)%sameLog_fields & Hfree & Hput). exists w'.
  split_and!; [done|done|by rewrite <- Hi|by rewrite <- Ht|by rewrite <- Hd|].
  unfold wal_put. by rewrite <- Hi.
Qed.

(** [newLog], while the indices last. *)
Lemma newLog_effect ty data r l r' : wal_ok (rt_wal r) → is_u64 (rt_nextIndex r) → rt_nextIndex r + 1 < two64 →
  newLog ty data r = (Ok l, r') →
  wal_ok (rt_wal r') ∧ wal_put (rt_wal r) l (rt_wal r') ∧ Log_Index l = rt_nextIndex r ∧ Log_Type l = ty ∧
  lg_Data l = data ∧ rt_nextIndex r' = rt_nextIndex r + 1 ∧ rt_lastCommit r' = rt_lastCommit r ∧
  rt_sh r' = rt_sh r ∧ rt_pendingPrepares r' = rt_pendingPrepares r.
Proof.
  intros Hok Hn Hroom Hnew. apply newLog_inv in Hnew as (w' & -> & Hok' & Hi & Ht & Hd & Hput); [|done..].
  destruct r; cbn in *. split_and!; try done. apply u64_id. unfold is_u64 in *. lia.
Qed.

(** A follower's write stores the log, up to its recorded length, or nothing. *)
Lemma writeWAL_inv l r res r' : wal_ok (rt_wal r) → is_u64 (Log_Index l) → writeWAL l r = (res, r') →
  ∃ w', r' = set_wal r w' ∧ wal_ok w' ∧
    match res with
    | Ok _ => ∃ l', sameLog l l' ∧ wal_put (rt_wal r) l' w'
    | _ => wal_same (rt_wal r) w'
    end.
Proof.
  intros Hok Hl. unfold writeWAL, wrapping, onWal. go_unfold.
  destruct (wal_Write l (rt_wal r)) as [res0 w'] eqn:Hw.
  apply wal_Write_spec in Hw as [Hok' Hw]; [|done..].
  destruct res0 as [l'|e|]; intros [= <- <-]; exists w'; (split; [done|]); (split; [done|]); [|done..].
  destruct Hw as (Hs & Hfree & Hput). exists l'. split; [done|].
  apply sameLog_fields in Hs as (Hi & _ & _). rewrite Hi in *. done.
Qed.

Lemma waitForLog_inv i r res r' : wal_ok (rt_wal r) → is_u64 i → waitForLog i r = (res, r') →
  r' = r ∧ ∀ l, res = Ok l → wal_lookup (rt_wal r) i = Some l.
Proof.
  intros Hok Hi. unfold waitForLog. go_unfold. destruct (wal_Get (rt_wal r) i) as [l| |] eqn:Hg; intros [= <- <-].
  all: split; [done|]; intros l' Heq; try done. injection Heq as <-. by apply wal_Get_spec.
Qed.

(** What [getPrepareLog] finds in the data of a resolving log. *)
Lemma getPrepareLog_inv l p rest r res r' : wal_ok (rt_wal r) → is_u64 p →
  lg_Data l = uint64ToBytes p ++ rest → (rest = [] ∨ ∃ c, is_u64 c ∧ rest = uint64ToBytes c) →
  getPrepareLog l r = (res, r') →
  r' = r ∧ ∀ named, res = Ok named →
    wal_lookup (rt_wal r) p = Some named.2 ∧
    (rest = [] → named.1 = 0) ∧
    ∀ c, is_u64 c → rest = uint64ToBytes c → named.1 = c ∧ ∃ l0, wal_lookup (rt_wal r) c = Some l0.
Proof.
  intros Hok Hp Hd Hrest. unfold getPrepareLog. rewrite Hd, bytesToUint64_app by done.
  intros [(pl & r1 & Hw & Hf)|(r0 & Hw & Hn & Hb)]%bind_inv.
  2:{ apply wrapping_inv in Hw as (res0 & Hw & _). apply waitForLog_inv in Hw as [-> _]; [|done..].
      split; [done|]. intros named ->. by destruct (Hb named). }
  apply wrapping_inv in Hw as (res0 & Hw & Hr). apply waitForLog_inv in Hw as [-> Hw]; [|done..].
  specialize (Hw pl (Hr pl eq_refl)). rewrite drop_uint64ToBytes in Hf.
  destruct Hrest as [->|(c & Hc & ->)].
  - rewrite decide_False in Hf
      by (rewrite length_app; rewrite length_uint64ToBytes; cbn; lia).
    injection Hf as <- <-. split; [done|]. intros named [= <-]. split_and!; [done..|].
    intros c Hc Heq. apply (f_equal length) in Heq. by rewrite length_uint64ToBytes in Heq.
  - rewrite decide_True in Hf
      by (rewrite length_app; rewrite !length_uint64ToBytes; lia).
    rewrite <- (app_nil_r (uint64ToBytes c)), bytesToUint64_app in Hf by done.
    apply bind_inv in Hf as [(l0 & r2 & Hw2 & Hf)|(r0 & Hw2 & Hn & Hb)].
    + apply wrapping_inv in Hw2 as (res2 & Hw2 & Hr2). apply waitForLog_inv in Hw2 as [-> Hw2]; [|done..].
      specialize (Hw2 l0 (Hr2 l0 eq_refl)). injection Hf as <- <-. split; [done|]. intros named [= <-].
      split_and!; [done| |].
      * intros Heq. apply (f_equal length) in Heq. by rewrite length_uint64ToBytes in Heq.
      * intros c' Hc' Heq. apply uint64ToBytes_inj in Heq; [|done..]. subst c'. cbn. eauto.
    + apply wrapping_inv in Hw2 as (res2 & Hw2 & _). apply waitForLog_inv in Hw2 as [-> _]; [|done..].
      split; [done|]. intros named ->. by destruct (Hb named).
Qed.
End effects.

(** ** The invariant of a log *)

(** [l] commits or rolls back the prepare log [p]. *)
Definition resolves (l : Log) (p : Z) : Prop :=
  Log_Type l ≠ LogPrepare ∧ is_u64 p ∧ ∃ rest, lg_Data l = uint64ToBytes p ++ rest.

Lemma resolves_fun l p p' : resolves l p → resolves l p' → p = p'.
Proof.
  intros (_ & Hp & rest & Hd) (_ & Hp' & rest' & Hd').
  assert (Ok p = (Ok p' : GoResult kerror Z)) as [= ->]; [|done].
  by rewrite <- (bytesToUint64_app p rest), <- (bytesToUint64_app p' rest'), <- Hd, <- Hd'.
Qed.

Lemma resolves_same l l' p : sameLog l l' → resolves l' p → resolves l p.
Proof. intros (_ & Ht & Hd)%sameLog_fields. unfold resolves. by rewrite Ht, Hd. Qed.

Section walinv.
Context {W : Type} `{!Wal W} {Req : Type}.
Implicit Types (H : list (entry Req)) (w : W) (l : Log) (i : Z) (n : nat).

(** A log of the three kinds; one that resolves a prepare log comes after it, and
    its predecessor is there. *)
Inductive logShape H n w i l : Prop :=
| shape_prepare : Log_Type l = LogPrepare → logShape H n w i l
| shape_rollback p pl :
    Log_Type l = LogRollback → lg_Data l = uint64ToBytes p → is_u64 p → p < i →
    wal_lookup w p = Some pl → Log_Type pl = LogPrepare → logShape H n w i l
| shape_commit m e pl l0 :
    Log_Type l = LogCommit → (m < n)%nat → H !! m = Some e → en_commit e = i →
    lg_Data l = uint64ToBytes (en_prepare e) ++ uint64ToBytes (prevCommit H m) → en_prepare e < i →
    wal_lookup w (en_prepare e) = Some pl → Log_Type pl = LogPrepare →
    wal_lookup w (prevCommit H m) = Some l0 → logShape H n w i l.

Record WalInv H n w : Prop := {
  wi_ok : wal_ok w;
  wi_shape i l : is_u64 i → wal_lookup w i = Some l → logShape H n w i l;
  wi_complete m e : (m < n)%nat → H !! m = Some e →
    ∃ l, wal_lookup w (en_commit e) = Some l ∧ Log_Type l = LogCommit;
  wi_unique i j l l' p : is_u64 i → is_u64 j → wal_lookup w i = Some l → wal_lookup w j = Some l' →
    resolves l p → resolves l' p → i = j;
}.

Lemma logShape_mono H H' n n' w w' i l : growing H → (n <= length H)%nat → (n <= n')%nat →
  (∀ j l0, is_u64 j → wal_lookup w j = Some l0 → wal_lookup w' j = Some l0) →
  logShape H n w i l → logShape (H ++ H') n' w' i l.
Proof.
  intros Hg Hlen Hn Hsub [Ht|p pl Ht Hd Hp Hlt Hl Htl|m e pl l0 Ht Hm He Hi Hd Hlt Hl Htl H0].
  - by apply shape_prepare.
  - eapply shape_rollback; eauto.
  - pose proof (Hg _ _ He) as (_ & _ & Hup). pose proof (prevCommit_u64 H m Hg) as Hu.
    eapply (shape_commit _ _ _ _ _ m e pl l0); [done|lia|by apply lookup_app_l_Some|done| |done|by apply Hsub|done|].
    all: rewrite prevCommit_app by lia; eauto.
Qed.

Lemma WalInv_extend H H' n w : growing H → (n <= length H)%nat → WalInv H n w → WalInv (H ++ H') n w.
Proof.
  intros Hg Hn [Hok Hsh Hc Hu]. split; [done| | |done].
  - intros i l Hi Hl. by eapply logShape_mono; eauto.
  - intros m e Hm He. rewrite lookup_app_l in He by lia. eauto.
Qed.

Lemma WalInv_same H n w w' : growing H → (n <= length H)%nat → wal_ok w' → wal_same w w' →
  WalInv H n w → WalInv H n w'.
Proof.
  intros Hg Hn Hok' Hs [Hok Hsh Hc Hu]. split; [done| | |].
  - intros i l Hi Hl. rewrite Hs in Hl by done. rewrite <- (app_nil_r H).
    eapply (logShape_mono H [] n n w); [done..| |by apply Hsh]. intros j l0 Hj ?. by rewrite Hs.
  - intros m e Hm He. destruct (Hg _ _ He) as (_ & ? & _). rewrite Hs by done. eauto.
  - intros i j l l' p Hi Hj. rewrite !Hs by done. by apply Hu.
Qed.

(** Storing one more log. *)
Lemma WalInv_put H n n' w l w' : growing H → (n <= length H)%nat → (n <= n')%nat → is_u64 (Log_Index l) →
  WalInv H n w → wal_ok w' → wal_put w l w' → logShape H n' w' (Log_Index l) l →
  (∀ p j l0, resolves l p → is_u64 j → wal_lookup w j = Some l0 → resolves l0 p → False) →
  (∀ m e, (n <= m < n')%nat → H !! m = Some e → en_commit e = Log_Index l ∧ Log_Type l = LogCommit) →
  WalInv H n' w'.
Proof.
  intros Hg Hn Hn' Hl [Hok Hsh Hc Hu] Hok' Hput Hnew Hfresh Hlast. split; [done| | |].
  - intros i l0 Hi Hl0. destruct (wal_put_inv _ _ _ _ _ Hput Hi Hl0) as [[-> ->]|Hold]; [done|].
    rewrite <- (app_nil_r H). apply (logShape_mono H [] n n' w); [done..| |by apply Hsh].
    intros j l1 Hj. by apply (wal_put_mono w l).
  - intros m e Hm He. destruct (decide (m < n)%nat) as [Hlt|Hge].
    + destruct (Hc m e Hlt He) as (l0 & Hl0 & Ht). exists l0. split; [|done].
      apply (wal_put_mono w l); [done| |done]. by apply (Hg _ _ He).
    + destruct (Hlast m e) as [-> Ht]; [lia|done|]. exists l. split; [by apply (wal_put_new w)|done].
  - intros i j l1 l2 p Hi Hj H1 H2 R1 R2.
    destruct (wal_put_inv _ _ _ _ _ Hput Hi H1) as [[-> ->]|O1], (wal_put_inv _ _ _ _ _ Hput Hj H2) as [[-> ->]|O2].
    + done.
    + by destruct (Hfresh p j l2).
    + by destruct (Hfresh p i l1).
    + by eapply (Hu i j l1 l2 p).
Qed.

Lemma WalInv_put_prepare H n w l w' : growing H → (n <= length H)%nat → is_u64 (Log_Index l) →
  Log_Type l = LogPrepare → WalInv H n w → wal_ok w' → wal_put w l w' → WalInv H n w'.
Proof.
  intros Hg Hn Hl Ht Hinv Hok' Hput. apply (WalInv_put H n n w l); try done.
  - by apply shape_prepare.
  - by intros p j l0 [? _].
  - lia.
Qed.

Lemma WalInv_put_rollback H n w l w' p pl : growing H → (n <= length H)%nat → is_u64 (Log_Index l) →
  Log_Type l = LogRollback → lg_Data l = uint64ToBytes p → is_u64 p → p < Log_Index l →
  wal_lookup w p = Some pl → Log_Type pl = LogPrepare →
  (∀ j l0, is_u64 j → wal_lookup w j = Some l0 → resolves l0 p → False) →
  WalInv H n w → wal_ok w' → wal_put w l w' → WalInv H n w'.
Proof.
  intros Hg Hn Hl Ht Hd Hp Hlt Hpl Htp Hfree Hinv Hok' Hput. apply (WalInv_put H n n w l); try done.
  - eapply shape_rollback; eauto using wal_put_mono.
  - intros q j l0 Hq. assert (resolves l p) as Hr.
    { split; [by rewrite Ht|]. split; [done|]. exists []. by rewrite app_nil_r. }
    rewrite (resolves_fun _ _ _ Hq Hr). apply Hfree.
  - lia.
Qed.

Lemma WalInv_put_commit H n w l w' e pl l0 : growing H → H !! n = Some e → Log_Index l = en_commit e →
  Log_Type l = LogCommit → lg_Data l = uint64ToBytes (en_prepare e) ++ uint64ToBytes (prevCommit H n) →
  en_prepare e < en_commit e → wal_lookup w (en_prepare e) = Some pl → Log_Type pl = LogPrepare →
  wal_lookup w (prevCommit H n) = Some l0 →
  (∀ j l1, is_u64 j → wal_lookup w j = Some l1 → resolves l1 (en_prepare e) → False) →
  WalInv H n w → wal_ok w' → wal_put w l w' → WalInv H (S n) w'.
Proof.
  intros Hg He Hi Ht Hd Hlt Hpl Htp H0 Hfree Hinv Hok' Hput. destruct (Hg _ _ He) as (_ & Hu & Hup).
  apply (WalInv_put H n (S n) w l); try done.
  - by apply Nat.lt_le_incl, (lookup_lt_Some _ _ _ He).
  - lia.
  - by rewrite Hi.
  - eapply (shape_commit _ _ _ _ _ n e pl l0); eauto using wal_put_mono, prevCommit_u64; [by rewrite Hi].
  - intros q j l1 Hq. assert (resolves l (en_prepare e)) as Hr.
    { split; [by rewrite Ht|]. split; [done|]. by eexists. }
    rewrite (resolves_fun _ _ _ Hq Hr). apply Hfree.
  - intros m e' Hm He'. assert (m = n) as -> by lia. rewrite He in He'. injection He' as <-. done.
Qed.

(** The commit logs are those of the history. *)
Lemma WalInv_commit H n w i l : WalInv H n w → is_u64 i → wal_lookup w i = Some l → Log_Type l = LogCommit →
  ∃ m e, (m < n)%nat ∧ H !! m = Some e ∧ en_commit e = i ∧ en_prepare e < i ∧
    lg_Data l = uint64ToBytes (en_prepare e) ++ uint64ToBytes (prevCommit H m).
Proof.
  intros Hinv Hi Hl Ht. destruct (wi_shape _ _ _ Hinv i l Hi Hl) as [Ht'|? ? Ht'|m e]; [by rewrite Ht in Ht'..|].
  exists m, e. done.
Qed.
End walinv.
