(* ===== verification/KayakProps.v ===== *)
(** * kayak: replicas agree

    A leader and its followers as one transition system whose steps are the
    operations of [Kayak], in any order and with any delivery of the leader's logs:
    late, repeated, reordered, lost, or failing half way.  The abstract
    specification [Replication] is one list of committed requests and, for each
    follower, how many of them it has executed. *)
From S2P Require Import Prelude Types KayakWal Kayak KayakInv.
From Stdlib Require Import String ZArith Lia.
From stdpp Require Import base list gmap strings relations.
Local Open Scope Z_scope.
#[local] Opaque uint64ToBytes.

(** ** The specification *)

Module Replication.
Record state (Req : Type) := MkState { log : list Req; position : gmap NodeID nat }.
Arguments MkState {Req}.
Arguments log {Req}.
Arguments position {Req}.

Inductive step {Req} : state Req → state Req → Prop :=
| append a req : step a (MkState (log a ++ [req]) (position a))
| advance a f n : position a !! f = Some n → (n < length (log a))%nat →
    step a (MkState (log a) (<[f := S n]> (position a))).

(** A committed request keeps its place and no follower goes back. *)
Lemma steps_grow {Req} (a a' : state Req) : rtc step a a' →
  log a `prefix_of` log a' ∧
  ∀ f n, position a !! f = Some n → ∃ n', position a' !! f = Some n' ∧ (n <= n')%nat.
Proof.
  induction 1 as [a|a a1 a' Hs _ [Hlog Hpos]]; [split; [done|eauto]|].
  destruct Hs as [a req|a f n Hn Hlt]; cbn in *.
  - split; [by eapply prefix_app_l|done].
  - split; [done|]. intros g k Hk. destruct (decide (f = g)) as [<-|Hne].
    + destruct (Hpos f (S n)) as (n' & Hn' & Hle); [by rewrite lookup_insert_eq|].
      exists n'. split; [done|]. assert (k = n) as -> by congruence. lia.
    + apply Hpos. by rewrite lookup_insert_ne.
Qed.
End Replication.

(** ** The system *)

(** A follower: its runtime, the requests on their way to its commit cycle, and
    the committed ones whose [followerCommit] has still to return. *)
Record fnode (W St Req : Type) := MkFnode {
  fn_rt : Runtime W St;
  fn_queue : list (commitReq Req);
  fn_done : list (commitReq Req);
}.
Arguments MkFnode {W St Req}.
Arguments fn_rt {W St Req}.
Arguments fn_queue {W St Req}.
Arguments fn_done {W St Req}.

(** The leader, its prepared requests that are neither committed nor rolled back,
    and the followers. *)
Record system (W St Req : Type) := MkSystem {
  sy_leader : Runtime W St;
  sy_flight : list (Log * Req);
  sy_followers : gmap NodeID (fnode W St Req);
}.
Arguments MkSystem {W St Req}.
Arguments sy_leader {W St Req}.
Arguments sy_flight {W St Req}.
Arguments sy_followers {W St Req}.

(** The states after the requests of a list were committed in order; checks, of these
    and of other requests, may come at any time. *)
Inductive executes `{Handler St Req Resp} (isLeader : bool) (s0 : St) : list Req → St → Prop :=
| executes_nil : executes isLeader s0 [] s0
| executes_check req reqs s : executes isLeader s0 reqs s → executes isLeader s0 reqs (Check req s).2
| executes_commit req reqs s : executes isLeader s0 reqs s → (Commit req isLeader s).1 ≠ Panic →
    executes isLeader s0 (reqs ++ [req]) (Commit req isLeader s).2.

Section system.
Context {W : Type} `{!Wal W} {St Req Resp : Type} `{!Handler St Req Resp}.

(** The leader's index counter has not run out. *)
Definition room (r : Runtime W St) : Prop := rt_nextIndex r + 1 < two64.

Inductive step : system W St Req → system W St Req → Prop :=
| step_prepare r fl fs req l r' : room r → leaderPrepare req r = (Ok l, r') →
    step (MkSystem r fl fs) (MkSystem r' ((l, req) :: fl) fs)
| step_prepare_fails r fl fs req e r' : leaderPrepare req r = (Err e, r') →
    step (MkSystem r fl fs) (MkSystem r' fl fs)
| step_commit r fl fs k l req res r' : room r → fl !! k = Some (l, req) →
    leaderDoCommit req (Log_Index l) r = (Ok res, r') →
    step (MkSystem r fl fs) (MkSystem r' (delete k fl) fs)
| step_rollback r fl fs k l req l' r' : room r → fl !! k = Some (l, req) →
    doLeaderRollback l r = (Ok l', r') →
    step (MkSystem r fl fs) (MkSystem r' (delete k fl) fs)
| step_give_up r fl fs k : step (MkSystem r fl fs) (MkSystem r (delete k fl) fs)
| step_finish r fl fs i r' : markPrepareFinished i r = (Ok tt, r') →
    step (MkSystem r fl fs) (MkSystem r' fl fs)
| step_deliver r fl fs f fn i l checkPrepare res r' : is_u64 i → wal_lookup (rt_wal r) i = Some l →
    fs !! f = Some fn → followerApply (Some l) checkPrepare (fn_rt fn) = (res, r') →
    step (MkSystem r fl fs)
      (MkSystem r fl (<[f := MkFnode r' (match res with Ok (Some req) => req :: fn_queue fn | _ => fn_queue fn end)
                               (fn_done fn)]> fs))
| step_cycle r fl fs f fn k req res r' : fs !! f = Some fn → fn_queue fn !! k = Some req →
    followerDoCommit req (fn_rt fn) = (res, r') → res ≠ Panic →
    step (MkSystem r fl fs)
      (MkSystem r fl (<[f :=
         match res with
         | Ok None => MkFnode r' (fn_queue fn) (fn_done fn)
         | Ok (Some _) => MkFnode r' (delete k (fn_queue fn)) (req :: fn_done fn)
         | _ => MkFnode r' (delete k (fn_queue fn)) (fn_done fn)
         end]> fs))
| step_end r fl fs f fn k req r' : fs !! f = Some fn → fn_done fn !! k = Some req →
    followerCommitEnd req (fn_rt fn) = (Ok tt, r') →
    step (MkSystem r fl fs) (MkSystem r fl (<[f := MkFnode r' (fn_queue fn) (delete k (fn_done fn))]> fs)).

(** Everyone starts with an empty log: the leader with the state [s0] of the service,
    follower [f] with [t0 f]. *)
Definition emptyLog (w : W) : Prop := wal_ok w ∧ ∀ i, is_u64 i → wal_lookup w i = None.
Definition initialRuntime (s0 : St) (r : Runtime W St) : Prop :=
  emptyLog (rt_wal r) ∧ rt_nextIndex r = 0 ∧ rt_lastCommit r = 0 ∧ rt_sh r = s0.
Definition initial (s0 : St) (t0 : NodeID → St) (s : system W St Req) : Prop :=
  initialRuntime s0 (sy_leader s) ∧ sy_flight s = [] ∧
  map_Forall (λ f fn, initialRuntime (t0 f) (fn_rt fn) ∧ fn_queue fn = [] ∧ fn_done fn = []) (sy_followers s).

(** ** Invariants *)

Implicit Types (H : list (entry Req)) (r : Runtime W St) (w : W) (l : Log) (n : nat).

Record LeaderInv (s0 : St) H r : Prop := {
  li_growing : growing H;
  li_wal : WalInv H (length H) (rt_wal r);
  li_next : is_u64 (rt_nextIndex r);
  li_dense i : is_u64 i → is_Some (wal_lookup (rt_wal r) i) ↔ i < rt_nextIndex r;
  li_last : rt_lastCommit r = prevCommit H (length H);
  li_payload m e : H !! m = Some e →
    ∃ pl, wal_lookup (rt_wal r) (en_prepare e) = Some pl ∧ DecodePayload (lg_Data pl) = Some (en_req e);
  li_state : executes true s0 (en_req <$> H) (rt_sh r);
}.

(** A request in flight has its prepare log and nothing that resolves it. *)
Definition inFlight w (p : Log * Req) : Prop :=
  is_u64 (Log_Index p.1) ∧ wal_lookup w (Log_Index p.1) = Some p.1 ∧ Log_Type p.1 = LogPrepare ∧
  DecodePayload (lg_Data p.1) = Some p.2 ∧
  ∀ j l, is_u64 j → wal_lookup w j = Some l → resolves l (Log_Index p.1) → False.
Definition FlightInv w (fl : list (Log * Req)) : Prop :=
  NoDup (Log_Index <$> fl.*1) ∧ Forall (inFlight w) fl.

(** A request for the commit cycle is one commit of the history, and the logs it
    names are there. *)
Definition queued H lw fw (q : commitReq Req) : Prop :=
  ∃ m e l' pl l0, H !! m = Some e ∧ cr_lastCommit q = prevCommit H m ∧ cr_data q = en_req e ∧
    cr_index q = en_prepare e ∧ Log_Index (cr_log q) = en_commit e ∧
    wal_lookup lw (en_commit e) = Some l' ∧ sameLog l' (cr_log q) ∧ Log_Type l' = LogCommit ∧
    wal_lookup fw (en_prepare e) = Some pl ∧ Log_Type pl = LogPrepare ∧
    wal_lookup fw (prevCommit H m) = Some l0.

Record FollowerInv (s0 : St) H lw n (fn : fnode W St Req) : Prop := {
  fi_len : (n <= length H)%nat;
  fi_wal : WalInv H n (rt_wal (fn_rt fn));
  fi_sub i l : is_u64 i → wal_lookup (rt_wal (fn_rt fn)) i = Some l →
    ∃ l', wal_lookup lw i = Some l' ∧ sameLog l' l;
  fi_last : rt_lastCommit (fn_rt fn) = prevCommit H n;
  fi_state : executes false s0 (take n (en_req <$> H)) (rt_sh (fn_rt fn));
  fi_queue : Forall (queued H lw (rt_wal (fn_rt fn))) (fn_queue fn);
}.

(** The system implements the abstract state [a]. *)
Definition implements (s0 : St) (t0 : NodeID → St) (s : system W St Req) (a : Replication.state Req) : Prop :=
  ∃ H, Replication.log a = en_req <$> H ∧ LeaderInv s0 H (sy_leader s) ∧
    FlightInv (rt_wal (sy_leader s)) (sy_flight s) ∧
    ∀ f, match sy_followers s !! f, Replication.position a !! f with
         | Some fn, Some n => FollowerInv (t0 f) H (rt_wal (sy_leader s)) n fn
         | None, None => True
         | _, _ => False
         end.

Definition walSub w w' : Prop := ∀ i l, is_u64 i → wal_lookup w i = Some l → wal_lookup w' i = Some l.

(** ** The leader *)

Lemma LeaderInv_pending s0 H r pp : LeaderInv s0 H r → LeaderInv s0 H (set_pending r pp).
Proof. destruct r. intros []. by split. Qed.
Lemma set_pending_wal r pp : rt_wal (set_pending r pp) = rt_wal r.
Proof. by destruct r. Qed.

(** A new log of the leader. *)
Definition logged r l r' : Prop :=
  wal_ok (rt_wal r') ∧ wal_put (rt_wal r) l (rt_wal r') ∧ Log_Index l = rt_nextIndex r ∧
  rt_nextIndex r' = rt_nextIndex r + 1 ∧ rt_lastCommit r' = rt_lastCommit r ∧ rt_sh r' = rt_sh r.

Lemma newLog_logged s0 H r ty data l r' : LeaderInv s0 H r → room r → newLog ty data r = (Ok l, r') →
  logged r l r' ∧ is_u64 (Log_Index l) ∧ Log_Type l = ty ∧ lg_Data l = data.
Proof.
  intros [Hg Hw Hn _ _ _ _] Hroom Hnew.
  apply newLog_effect in Hnew as (Hok & Hput & Hi & Ht & Hd & Hn' & Hlc & Hsh & _); [|by eapply wi_ok|done..].
  rewrite Hi. done.
Qed.

Lemma logged_sub r l r' : logged r l r' → walSub (rt_wal r) (rt_wal r').
Proof. intros (_ & Hput & _) i l0 Hi. by eapply wal_put_mono. Qed.

Lemma logged_dense s0 H r l r' : LeaderInv s0 H r → logged r l r' →
  ∀ i, is_u64 i → is_Some (wal_lookup (rt_wal r') i) ↔ i < rt_nextIndex r'.
Proof.
  intros Hinv (_ & [_ Hp] & Hi & -> & _) i Hu. rewrite Hp by done.
  case_decide as Hd'; [|rewrite (li_dense _ _ _ Hinv) by done; lia]. split; [lia|done].
Qed.

(** The leader's invariant after a log that is not a commit. *)
Lemma LeaderInv_logged s0 H r l r' : LeaderInv s0 H r → room r → logged r l r' →
  WalInv H (length H) (rt_wal r') → LeaderInv s0 H r'.
Proof.
  intros Hinv Hroom Hlg Hw'. pose proof (logged_dense _ _ _ _ _ Hinv Hlg) as Hd.
  pose proof (logged_sub _ _ _ Hlg) as Hsub.
  destruct Hinv as [Hg Hw Hn _ Hlast Hpay Hst], Hlg as (_ & _ & _ & Hn' & Hlc & Hsh).
  unfold room in Hroom. unfold is_u64 in Hn. split; [done..| |done| | |].
  - unfold is_u64. lia.
  - congruence.
  - intros m e He. destruct (Hpay m e He) as (pl & Hpl & Hdec). exists pl. split; [|done].
    apply Hsub; [|done]. by apply (Hg _ _ He).
  - by rewrite Hsh.
Qed.

(** A resolved prepare log is in the log. *)
Lemma resolved_present H n w j l p : growing H → WalInv H n w → is_u64 j → wal_lookup w j = Some l →
  resolves l p → is_Some (wal_lookup w p) ∧ p < j.
Proof.
  intros Hg Hw Hj Hl Hres.
  destruct (wi_shape _ _ _ Hw j l Hj Hl) as [Ht|q pl Ht Hd Hq Hlt Hpl _|m e pl l3 Ht Hm He Hej Hd Hlt Hpl _ _].
  - by destruct Hres as [? _].
  - assert (resolves l q) as Hr by (split; [by rewrite Ht|]; split; [done|]; exists []; by rewrite app_nil_r).
    rewrite (resolves_fun _ _ _ Hres Hr). eauto.
  - destruct (Hg _ _ He) as (_ & _ & Hup).
    assert (resolves l (en_prepare e)) as Hr by (split; [by rewrite Ht|]; split; [done|]; by eexists).
    rewrite (resolves_fun _ _ _ Hres Hr). eauto.
Qed.

Lemma FlightInv_put w l w' fl : FlightInv w fl → wal_put w l w' →
  (∀ p, p ∈ fl → ¬ resolves l (Log_Index p.1)) → FlightInv w' fl.
Proof.
  intros [Hnd Hfl] Hput Hnr. split; [done|]. rewrite Forall_forall in *. intros p Hp.
  destruct (Hfl p Hp) as (Hu & Hl & Ht & Hd & Hr). split_and!; [done|by eapply wal_put_mono|done..|].
  intros j l0 Hj Hl0 Hres. destruct (wal_put_inv _ _ _ _ _ Hput Hj Hl0) as [[-> ->]|Hold]; [by eapply Hnr|eauto].
Qed.

Lemma FlightInv_prepare H n w l w' fl req : growing H → WalInv H n w → FlightInv w fl → wal_put w l w' →
  is_u64 (Log_Index l) → Log_Type l = LogPrepare → DecodePayload (lg_Data l) = Some req →
  FlightInv w' ((l, req) :: fl).
Proof.
  intros Hg Hw Hfl Hput Hu Ht Hd. pose proof Hput as [Hfree _]. split; cbn; constructor.
  - rewrite list_elem_of_fmap. intros (l2 & Heq & (p & -> & Hin)%list_elem_of_fmap). destruct Hfl as [_ Hfl].
    rewrite Forall_forall in Hfl. destruct (Hfl p Hin) as (_ & Hl2 & _). rewrite Heq in Hfree. congruence.
  - apply Hfl.
  - split_and!; [done|by eapply wal_put_new|done..|]. cbn. intros j l0 Hj Hl0 Hres.
    destruct (wal_put_inv _ _ _ _ _ Hput Hj Hl0) as [[-> ->]|Hold]; [by destruct Hres|].
    destruct (resolved_present _ _ _ _ _ _ Hg Hw Hj Hold Hres) as [[? ?] _]. congruence.
  - apply (FlightInv_put _ _ _ _ Hfl Hput). by intros p Hp [? _].
Qed.

(** A request leaves the flight, resolved by [l]. *)
Lemma FlightInv_resolve w l w' fl k lp req : FlightInv w fl → wal_put w l w' → fl !! k = Some (lp, req) →
  resolves l (Log_Index lp) → FlightInv w' (delete k fl).
Proof.
  intros [Hnd Hfl] Hput Hk Hres.
  assert (fl = take k fl ++ (lp, req) :: drop (S k) fl) as Hsplit by (symmetry; by apply take_drop_middle).
  assert (FlightInv w (delete k fl)) as Hdel.
  { rewrite delete_take_drop. rewrite Hsplit, !fmap_app in Hnd. rewrite Hsplit, Forall_app, Forall_cons in Hfl.
    destruct Hfl as (? & _ & ?). split; [|by apply Forall_app]. rewrite !fmap_app.
    apply NoDup_app in Hnd as (? & Hx & Hnd). cbn in Hnd. apply NoDup_cons in Hnd as [_ ?].
    apply NoDup_app. split_and!; [done| |done]. intros x Hx1 Hx2. apply (Hx x Hx1). by right. }
  apply (FlightInv_put _ _ _ _ Hdel Hput). intros p Hp Hr. pose proof (resolves_fun _ _ _ Hres Hr) as Heq.
  rewrite delete_take_drop in Hp. rewrite Hsplit, !fmap_app in Hnd. cbn in Hnd.
  apply NoDup_app in Hnd as (_ & Hx & [Hy _]%NoDup_cons). apply elem_of_app in Hp as [Hp|Hp].
  - apply (Hx (Log_Index lp)); [|by left]. rewrite Heq. by apply list_elem_of_fmap_2, list_elem_of_fmap_2.
  - apply Hy. rewrite Heq. by apply list_elem_of_fmap_2, list_elem_of_fmap_2.
Qed.

(** The check of a request. *)
Definition checked (req : Req) r : Runtime W St := set_sh r (Check req (rt_sh r)).2.
Lemma doCheck_inv req r res r' : doCheck req r = (res, r') → r' = checked req r.
Proof. unfold doCheck, checked. go_unfold. by destruct (Check req (rt_sh r)) as [[] ?]; intros [= _ <-]. Qed.
Lemma LeaderInv_checked s0 H req r : LeaderInv s0 H r → LeaderInv s0 H (checked req r).
Proof. unfold checked. destruct r. intros []. split; try done. by apply executes_check. Qed.
Lemma checked_wal req r : rt_wal (checked req r) = rt_wal r.
Proof. by destruct r. Qed.

Lemma leaderPrepare_inv req r l r' : leaderPrepare req r = (Ok l, r') →
  ∃ enc r1 pp, EncodePayload req = Some enc ∧ newLog LogPrepare enc (checked req r) = (Ok l, r1) ∧ r' = set_pending r1 pp.
Proof.
  unfold leaderPrepare. intros [(u & r1 & H1 & H2)|(? & _ & _ & Hb)]%bind_inv; [|by destruct (Hb l)].
  apply wrapping_inv in H1 as (res & H1 & Hr). specialize (Hr u eq_refl). subst res.
  apply doCheck_inv in H1 as ->.
  apply bind_inv in H2 as [(enc & r1 & H2 & H3)|(? & _ & _ & Hb)]; [|by destruct (Hb l)].
  apply wrapping_inv in H2 as (res & H2 & Hr). specialize (Hr enc eq_refl). subst res.
  assert (r1 = checked req r ∧ EncodePayload req = Some enc) as [-> Henc].
  { unfold doEncodePayload in H2. destruct (EncodePayload req); go_unfold in H2; by simplify_eq. }
  apply bind_inv in H3 as [(l1 & r1 & H3 & H4)|(? & _ & _ & Hb)]; [|by destruct (Hb l)].
  go_unfold in H4. unfold markPendingPrepare in H4. injection H4 as <- <-. eauto 6.
Qed.

Lemma leader_prepare s0 H r fl req l r' : LeaderInv s0 H r → FlightInv (rt_wal r) fl → room r →
  leaderPrepare req r = (Ok l, r') →
  LeaderInv s0 H r' ∧ FlightInv (rt_wal r') ((l, req) :: fl) ∧ walSub (rt_wal r) (rt_wal r').
Proof.
  intros Hinv%(LeaderInv_checked _ _ req) Hfl Hroom (enc & r1 & pp & Henc & Hnew & ->)%leaderPrepare_inv.
  rewrite <- (checked_wal req r) in Hfl |- *. assert (room (checked req r)) as Hroom' by (by destruct r).
  generalize dependent (checked req r). clear r Hroom. intros r Hinv Hfl Hnew Hroom.
  apply (newLog_logged s0 H) in Hnew as (Hlg & Hu & Ht & Hd); [|done..]. rewrite set_pending_wal.
  pose proof Hlg as (Hok & Hput & _). pose proof Hinv as [Hg Hw _ _ _ _ _].
  assert (WalInv H (length H) (rt_wal r1)) as Hw1 by (by eapply (WalInv_put_prepare _ _ (rt_wal r) l)).
  split; [|split; [|by eapply logged_sub]].
  { apply LeaderInv_pending. by eapply (LeaderInv_logged s0 H r). }
  apply (FlightInv_prepare H (length H) (rt_wal r)); try done. rewrite Hd. by apply Decode_EncodePayload.
Qed.

Lemma leader_rollback s0 H r fl k lp req l r' : LeaderInv s0 H r → FlightInv (rt_wal r) fl → room r →
  fl !! k = Some (lp, req) → doLeaderRollback lp r = (Ok l, r') →
  LeaderInv s0 H r' ∧ FlightInv (rt_wal r') (delete k fl) ∧ walSub (rt_wal r) (rt_wal r').
Proof.
  intros Hinv Hfl Hroom Hk Hnew.
  apply (newLog_logged s0 H) in Hnew as (Hlg & Hu & Ht & Hd); [|done..].
  pose proof Hlg as (Hok & Hput & Hi & _). pose proof Hinv as [Hg Hw _ Hdense _ _ _].
  pose proof Hfl as [_ Hall]. rewrite Forall_forall in Hall.
  destruct (Hall (lp, req)) as (Hup & Hlp & Htp & _ & Hfree); [by eapply list_elem_of_lookup_2|]. cbn in *.
  assert (Log_Index lp < Log_Index l) by (rewrite Hi; apply Hdense; eauto).
  assert (WalInv H (length H) (rt_wal r')) as Hw1.
  { by eapply (WalInv_put_rollback _ _ (rt_wal r) l _ (Log_Index lp) lp). }
  split; [by eapply LeaderInv_logged|split; [|by eapply logged_sub]].
  eapply (FlightInv_resolve (rt_wal r) l); try done. split; [by rewrite Ht|]. split; [done|].
  exists []. by rewrite app_nil_r.
Qed.

(** The last commit is in the log; before the first, log 0 is. *)
Lemma leader_prev s0 H r p : LeaderInv s0 H r → is_u64 p → is_Some (wal_lookup (rt_wal r) p) →
  prevCommit H (length H) < rt_nextIndex r ∧ is_Some (wal_lookup (rt_wal r) (prevCommit H (length H))).
Proof.
  intros [Hg Hw _ Hdense _ _ _] Hup Hp. apply Hdense in Hp; [|done].
  destruct (length H) as [|n] eqn:Hlen.
  - cbn. split; [unfold is_u64 in Hup; lia|]. apply Hdense; [done|]. unfold is_u64 in Hup. lia.
  - destruct (lookup_lt_is_Some_2 H n) as [e' He']; [lia|]. rewrite (prevCommit_S _ _ _ He').
    destruct (wi_complete _ _ _ Hw n e') as (l' & Hl' & _); [lia|done|].
    split; [apply Hdense|]; eauto; apply (Hg _ _ He').
Qed.

Lemma leaderDoCommit_inv req i r res r' : leaderDoCommit req i r = (Ok res, r') →
  ∃ l r1, newLog LogCommit (uint64ToBytes i ++ uint64ToBytes (rt_lastCommit r)) r = (Ok l, r1) ∧
    (Commit req true (rt_sh r1)).1 ≠ Panic ∧ r' = set_lastCommit (set_sh r1 (Commit req true (rt_sh r1)).2) (Log_Index l).
Proof.
  unfold leaderDoCommit. intros [(? & ? & [= <- <-] & H1)|(? & _ & _ & Hb)]%bind_inv; [|by destruct (Hb res)].
  apply bind_inv in H1 as [(l & r1 & H1 & H2)|(? & _ & _ & Hb)]; [|by destruct (Hb res)].
  exists l, r1. split; [done|]. unfold doCommit in H2. go_unfold in H2.
  destruct (Commit req true (rt_sh r1)) as [[x|x|] s]; try done; by injection H2.
Qed.

Lemma leader_commit s0 H r fl k lp req res r' : LeaderInv s0 H r → FlightInv (rt_wal r) fl → room r →
  fl !! k = Some (lp, req) → leaderDoCommit req (Log_Index lp) r = (Ok res, r') →
  ∃ e, en_req e = req ∧ LeaderInv s0 (H ++ [e]) r' ∧ FlightInv (rt_wal r') (delete k fl) ∧
    walSub (rt_wal r) (rt_wal r').
Proof.
  intros Hinv Hfl Hroom Hk (l & r1 & Hnew & Hnp & ->)%leaderDoCommit_inv.
  apply (newLog_logged s0 H) in Hnew as (Hlg & Hu & Ht & Hd); [|done..].
  pose proof (logged_dense _ _ _ _ _ Hinv Hlg) as Hdense'. pose proof (logged_sub _ _ _ Hlg) as Hsub.
  pose proof Hlg as (Hok & Hput & Hi & Hn & _ & Hsh). pose proof Hinv as [Hg Hw Hnu Hdense Hlast Hpay Hst].
  pose proof Hfl as [_ Hall]. rewrite Forall_forall in Hall.
  destruct (Hall (lp, req)) as (Hup & Hlp & Htp & Hdec & Hfree); [by eapply list_elem_of_lookup_2|]. cbn in *.
  assert (Log_Index lp < Log_Index l) as Hlt by (rewrite Hi; apply Hdense; eauto).
  set (e := MkEntry (Log_Index l) (Log_Index lp) req).
  destruct (leader_prev s0 H r (Log_Index lp)) as [Hpl [l0 Hl0]]; [done..|eauto|].
  assert (growing (H ++ [e])) as Hg' by (apply growing_snoc; cbn; [done|lia|done..]).
  assert (WalInv (H ++ [e]) (S (length H)) (rt_wal r1)) as Hw'.
  { eapply (WalInv_put_commit _ _ (rt_wal r) l _ e lp l0); try done.
    - by rewrite list_lookup_middle.
    - rewrite prevCommit_app by lia. by rewrite Hd, Hlast.
    - by rewrite prevCommit_app by lia.
    - by apply WalInv_extend. }
  exists e. split_and!; [done| | |].
  - split; [done|..].
    + rewrite length_app. cbn. rewrite Nat.add_1_r. by destruct r1.
    + replace (rt_nextIndex _) with (rt_nextIndex r1) by (by destruct r1). rewrite Hn.
      unfold room in Hroom. unfold is_u64 in *. lia.
    + by destruct r1.
    + rewrite length_app. cbn [length]. rewrite Nat.add_1_r, prevCommit_snoc. by destruct r1.
    + replace (rt_wal _) with (rt_wal r1) by (by destruct r1).
      intros m e' [He|[_ [_ <-]%list_lookup_singleton_Some]]%lookup_app_Some.
      * destruct (Hpay m e' He) as (pl & ? & ?). exists pl. split; [|done]. apply Hsub; [|done]. by apply (Hg _ _ He).
      * exists lp. split; [by apply Hsub|done].
    + rewrite fmap_app. rewrite <- Hsh in Hst. apply (executes_commit _ _ req) in Hst; [|done]. by destruct r1.
  - replace (rt_wal _) with (rt_wal r1) by (by destruct r1).
    eapply (FlightInv_resolve (rt_wal r) l); try done. split; [by rewrite Ht|]. split; [done|]. by exists (uint64ToBytes (rt_lastCommit r)).
  - by destruct r1.
Qed.

(** ** A follower *)

Definition sameCore r r' : Prop :=
  rt_wal r' = rt_wal r ∧ rt_lastCommit r' = rt_lastCommit r ∧ rt_sh r' = rt_sh r.

Lemma sameCore_pending r pp : sameCore r (set_pending r pp).
Proof. by destruct r. Qed.
Lemma sameCore_updateNextIndex l r res r' : updateNextIndex l r = (res, r') → sameCore r r'.
Proof. unfold updateNextIndex. go_unfold. intros [= _ <-]. case_decide; by destruct r. Qed.
Lemma sameCore_trans r1 r2 r3 : sameCore r1 r2 → sameCore r2 r3 → sameCore r1 r3.
Proof. intros (? & ? & ?) (? & ? & ?). unfold sameCore. split_and!; congruence. Qed.

Lemma queued_mono H H' lw lw' fw fw' q : growing H → walSub lw lw' → walSub fw fw' →
  queued H lw fw q → queued (H ++ H') lw' fw' q.
Proof.
  intros Hg Hl Hf (m & e & l' & pl & l0 & He & Hlc & Hd & Hi & Hc & Hl' & Hs & Ht & Hpl & Htp & H0).
  destruct (Hg _ _ He) as (_ & ? & ?). pose proof (prevCommit_u64 H m Hg).
  exists m, e, l', pl, l0. rewrite prevCommit_app by (apply lookup_lt_Some in He; lia).
  unfold walSub in *. split_and!; eauto. by apply lookup_app_l_Some.
Qed.

Lemma FollowerInv_mono s0 H H' lw lw' n fn : growing H → walSub lw lw' →
  FollowerInv s0 H lw n fn → FollowerInv s0 (H ++ H') lw' n fn.
Proof.
  intros Hg Hsub [Hn Hw Hs Hlc Hst Hq]. split.
  - rewrite length_app. lia.
  - by apply WalInv_extend.
  - intros i l Hi Hl. destruct (Hs i l Hi Hl) as (l' & Hl' & ?). eauto.
  - by rewrite prevCommit_app.
  - rewrite fmap_app, take_app_le; [done|]. by rewrite length_fmap.
  - eapply Forall_impl; [exact Hq|]. intros q Hx. eapply queued_mono; [done..| |done]. by intros ? ?.
Qed.

Lemma FollowerInv_core s0 H lw n r r' q d d' : sameCore r r' →
  FollowerInv s0 H lw n (MkFnode r q d) → FollowerInv s0 H lw n (MkFnode r' q d').
Proof. intros (Hw & Hl & Hs) []. split; cbn in *; rewrite ?Hw, ?Hl, ?Hs; done. Qed.

Lemma FollowerInv_checked s0 H lw n req r q d :
  FollowerInv s0 H lw n (MkFnode r q d) → FollowerInv s0 H lw n (MkFnode (checked req r) q d).
Proof. unfold checked. destruct r. intros []. split; try done. by apply executes_check. Qed.

(** A write of a follower, under the invariant of its log after it. *)
Lemma FollowerInv_write s0 H lw n i l r q d res r' : growing H → is_u64 i → wal_lookup lw i = Some l →
  Log_Index l = i → FollowerInv s0 H lw n (MkFnode r q d) → writeWAL l r = (res, r') →
  (∀ l' w', sameLog l l' → wal_put (rt_wal r) l' w' → wal_ok w' → WalInv H n w') →
  FollowerInv s0 H lw n (MkFnode r' q d).
Proof.
  intros Hg Hi Hl Hil Hinv Hwr Hnew. pose proof Hinv as [Hn Hw Hs Hlc Hst Hq]. cbn in *.
  apply writeWAL_inv in Hwr as (w' & -> & Hok & Hres); [|by eapply wi_ok|by rewrite Hil].
  assert (WalInv H n w' ∧ walSub (rt_wal r) w' ∧
    ∀ j l0, is_u64 j → wal_lookup w' j = Some l0 → ∃ l', wal_lookup lw j = Some l' ∧ sameLog l' l0) as (Hw' & Hsub & Hs').
  { destruct res as [[]|e|].
    - destruct Hres as (l' & Hsame & Hput). split_and!; [by eapply Hnew|intros ? ? ? ?; by eapply wal_put_mono|].
      pose proof (sameLog_fields _ _ Hsame) as (Hi' & _ & _).
      intros j l0 Hj Hl0. destruct (wal_put_inv _ _ _ _ _ Hput Hj Hl0) as [[-> ->]|Hold]; [|eauto].
      exists l. split; [|done]. by rewrite <- Hi', Hil.
    - split_and!; [by eapply WalInv_same|intros j l0 Hj; by rewrite Hres|]. intros j l0 Hj. rewrite Hres by done. eauto.
    - split_and!; [by eapply WalInv_same|intros j l0 Hj; by rewrite Hres|]. intros j l0 Hj. rewrite Hres by done. eauto. }
  destruct r; cbn in *. split; cbn; try done.
  eapply Forall_impl; [exact Hq|]. intros x Hx. rewrite <- (app_nil_r H). eapply queued_mono; [done| |done..]. by intros ? ?.
Qed.

Lemma bind_same {A B} (m : GoM (Runtime W St) kerror A) (k : A → GoM (Runtime W St) kerror B) r res r' :
  (∀ res1 r1, m r = (res1, r1) → r1 = r) → mbind k m r = (res, r') →
  (∃ a, m r = (Ok a, r) ∧ k a r = (res, r')) ∨ r' = r ∧ ∀ b, res ≠ Ok b.
Proof.
  intros Hm [(a & r1 & Ha & Hk)|(r0 & Hr0 & Hn & Hb)]%bind_inv.
  - left. exists a. by rewrite <- (Hm _ _ Ha) at 2 3.
  - right. split; [by eapply Hm|done].
Qed.

Lemma wrapping_same {A} (m : GoM (Runtime W St) kerror A) r :
  (∀ res1 r1, m r = (res1, r1) → r1 = r) → ∀ res1 r1, wrapping m r = (res1, r1) → r1 = r.
Proof. intros Hm res1 r1 (res0 & H0 & _)%wrapping_inv. by eapply Hm. Qed.

Lemma doDecodePayload_same data r res r' : doDecodePayload data r = (res, r') → r' = r.
Proof. unfold doDecodePayload. destruct (DecodePayload data); by intros [= _ <-]. Qed.

(** After its checks, [followerPrepare] is a write. *)
Lemma followerPrepare_inv l chk r res r' : followerPrepare l chk r = (res, r') →
  ∃ r0, (r0 = r ∨ ∃ req, r0 = checked req r) ∧ (r' = r0 ∨ ∃ res1 r1, writeWAL l r0 = (res1, r1) ∧ sameCore r1 r').
Proof.
  unfold followerPrepare. intros [(req & _ & H1)|[-> _]]%bind_same; [|exists r; by eauto|apply doDecodePayload_same].
  assert (∀ res1 r1, (if chk then doCheck req else mret tt) r = (res1, r1) → r1 = r ∨ ∃ req, r1 = checked req r) as Hchk.
  { intros res1 r1. destruct chk; [intros ->%doCheck_inv; eauto|]. intros [= _ <-]. by left. }
  apply bind_inv in H1 as [(u & r0 & Hc & H2)|(? & Hc & _)]; [|exists r'; eauto].
  exists r0. split; [by eapply Hchk|]. clear r Hchk Hc. rename r0 into r.
  right. destruct (writeWAL l r) as [res1 r1] eqn:Hw. exists res1, r1. split; [done|].
  apply bind_inv in H2 as [(u' & r2 & Hw' & H3)|(r0 & Hw' & _)].
  - rewrite Hw in Hw'. injection Hw' as -> <-. unfold markPendingPrepare in H3. go_unfold in H3.
    injection H3 as _ <-. apply sameCore_pending.
  - rewrite Hw in Hw'. by injection Hw' as -> <-.
Qed.

Lemma followerRollback_inv l p r res r' : wal_ok (rt_wal r) → is_u64 p → lg_Data l = uint64ToBytes p →
  followerRollback l r = (res, r') →
  r' = r ∨ ∃ pl res1 r1, wal_lookup (rt_wal r) p = Some pl ∧ writeWAL l r = (res1, r1) ∧ sameCore r1 r'.
Proof.
  intros Hok Hp Hd. unfold followerRollback.
  assert (∀ res1 r1, getPrepareLog l r = (res1, r1) → r1 = r ∧ ∀ named, res1 = Ok named →
    wal_lookup (rt_wal r) p = Some named.2) as Hget.
  { intros res1 r1 Hg. apply (getPrepareLog_inv l p []) in Hg as [-> Hg]; [|done|done|by rewrite app_nil_r|by left].
    split; [done|]. intros named Hn. by destruct (Hg named Hn). }
  intros [(named & Hn & H1)|[-> _]]%bind_same; [|by left|].
  2:{ apply wrapping_same. intros res1 r1 H0. by apply (Hget res1). }
  apply wrapping_inv in Hn as (res0 & Hn & Hr). apply Hget in Hn as [_ Hn]. specialize (Hn named (Hr named eq_refl)).
  unfold checkIfPrepareFinished in H1. go_unfold in H1. case_bool_decide; [injection H1 as _ <-; by left|].
  right. destruct (writeWAL l r) as [res1 r1] eqn:Hw. exists named.2, res1, r1. split_and!; [done..|].
  destruct res1; injection H1 as _ <-; try done. apply sameCore_pending.
Qed.

Lemma followerCommitBegin_inv l p c r res r' : wal_ok (rt_wal r) → is_u64 p → is_u64 c →
  lg_Data l = uint64ToBytes p ++ uint64ToBytes c → followerCommitBegin l r = (res, r') →
  r' = r ∧ ∀ q, res = Ok q → ∃ pl l0, wal_lookup (rt_wal r) p = Some pl ∧ wal_lookup (rt_wal r) c = Some l0 ∧
    cr_index q = p ∧ cr_lastCommit q = c ∧ cr_log q = l ∧ DecodePayload (lg_Data pl) = Some (cr_data q).
Proof.
  intros Hok Hp Hc Hd. unfold followerCommitBegin.
  assert (∀ res1 r1, getPrepareLog l r = (res1, r1) → r1 = r ∧ ∀ named, res1 = Ok named →
    wal_lookup (rt_wal r) p = Some named.2 ∧ named.1 = c ∧ ∃ l0, wal_lookup (rt_wal r) c = Some l0) as Hget.
  { intros res1 r1 Hg. apply (getPrepareLog_inv l p (uint64ToBytes c)) in Hg as [-> Hg]; [|done|done|done|eauto].
    split; [done|]. intros named Hn. destruct (Hg named Hn) as (? & _ & Hx). split; [done|]. by apply Hx. }
  intros [(named & Hn & H1)|[-> Hb]]%bind_same.
  3:{ apply wrapping_same. intros res1 r1 H0. by apply (Hget res1). }
  2:{ split; [done|]. intros q ->. by destruct (Hb q). }
  apply wrapping_inv in Hn as (res0 & Hn & Hr). apply Hget in Hn as [_ Hn].
  destruct (Hn named (Hr named eq_refl)) as (Hpl & <- & l0 & Hl0).
  unfold checkIfPrepareFinished in H1. go_unfold in H1. case_bool_decide; [by injection H1 as <- <-|].
  case_decide; [by injection H1 as <- <-|]. unfold wrapping, doDecodePayload in H1. go_unfold in H1.
  destruct (DecodePayload (lg_Data named.2)) as [req|] eqn:Hdec; injection H1 as <- <-; split; try done.
  intros q [= <-]. exists named.2, l0. cbn. split_and!; try done. by eapply wal_keys.
Qed.

(** The commit cycle: wait, fail to write, or commit. *)
Lemma followerDoCommit_inv q r res r' : followerDoCommit q r = (res, r') →
  match res with
  | Ok None => r' = r
  | Ok (Some _) => cr_lastCommit q = rt_lastCommit r ∧ ∃ r1, writeWAL (cr_log q) r = (Ok tt, r1) ∧
      (Commit (cr_data q) false (rt_sh r1)).1 ≠ Panic ∧
      r' = set_lastCommit (set_sh r1 (Commit (cr_data q) false (rt_sh r1)).2) (Log_Index (cr_log q))
  | Err _ => ∃ res1, writeWAL (cr_log q) r = (res1, r') ∧ res1 ≠ Ok tt
  | Panic => True
  end.
Proof.
  unfold followerDoCommit. go_unfold. case_decide as Hlc; [by intros [= <- <-]|].
  destruct (writeWAL (cr_log q) r) as [[[]|e|] r1] eqn:Hw; [|intros [= <- <-]; by try eexists..].
  unfold doCommit. go_unfold. destruct (Commit (cr_data q) false (rt_sh r1)) as [[x|x|] s] eqn:Hc; intros [= <- <-]; [..|done];
  (split; [lia|]; exists r1; by rewrite Hc).
Qed.

(** Within the leader's log, a follower's log has no second resolution. *)
Lemma follower_fresh s0 H lw n fn l l' p : growing H → WalInv H (length H) lw → FollowerInv s0 H lw n fn →
  is_u64 (Log_Index l) → wal_lookup lw (Log_Index l) = Some l → resolves l p → sameLog l l' →
  wal_lookup (rt_wal (fn_rt fn)) (Log_Index l') = None →
  ∀ j l0, is_u64 j → wal_lookup (rt_wal (fn_rt fn)) j = Some l0 → resolves l0 p → False.
Proof.
  intros Hg Hlw Hinv Hu Hl Hres (Hi & _ & _)%sameLog_fields Hfree j l0 Hj Hl0 Hres0.
  destruct (fi_sub _ _ _ _ _ Hinv j l0 Hj Hl0) as (l1 & Hl1 & Hs).
  assert (Log_Index l = j) as <-.
  { eapply (wi_unique _ _ _ Hlw _ _ l l1); try done. by eapply resolves_same. }
  rewrite <- Hi in Hfree. congruence.
Qed.

Lemma follower_deliver_prepare s0 H lw n i l r q d res r' : growing H → is_u64 i → wal_lookup lw i = Some l →
  Log_Index l = i → Log_Type l = LogPrepare → FollowerInv s0 H lw n (MkFnode r q d) →
  writeWAL l r = (res, r') → FollowerInv s0 H lw n (MkFnode r' q d).
Proof.
  intros Hg Hi Hl Hil Ht Hinv Hw. apply (FollowerInv_write s0 H lw n i l r q d res r'); try done.
  intros l' w' (Hi' & Ht' & _)%sameLog_fields Hput Hok. pose proof Hinv as [Hn Hwi _ _ _ _].
  eapply (WalInv_put_prepare _ _ (rt_wal r) l'); try done; congruence.
Qed.

Lemma follower_deliver_rollback s0 H lw n i l p pl r q d res r' : growing H → WalInv H (length H) lw →
  is_u64 i → wal_lookup lw i = Some l → Log_Index l = i → Log_Type l = LogRollback →
  lg_Data l = uint64ToBytes p → is_u64 p → p < i → Log_Type pl = LogPrepare →
  wal_lookup (rt_wal r) p = Some pl → FollowerInv s0 H lw n (MkFnode r q d) →
  writeWAL l r = (res, r') → FollowerInv s0 H lw n (MkFnode r' q d).
Proof.
  intros Hg Hlw Hi Hl Hil Ht Hd Hp Hlt Htp Hpl Hinv Hw. apply (FollowerInv_write s0 H lw n i l r q d res r'); try done.
  intros l' w' Hs Hput Hok. pose proof (sameLog_fields _ _ Hs) as (Hi' & Ht' & Hd').
  pose proof Hinv as [Hn Hwi _ _ _ _]. subst i. cbn in *.
  eapply (WalInv_put_rollback _ _ (rt_wal r) l' _ p pl); rewrite <- ?Hi'; try done; try congruence.
  apply (follower_fresh s0 H lw n (MkFnode r q d) l l' p); try done; [|apply Hput].
  split; [by rewrite Ht|]. split; [done|]. exists []. by rewrite app_nil_r.
Qed.

(** Types agree along [fi_sub]. *)
Lemma follower_type s0 H lw n fn i l l' : FollowerInv s0 H lw n fn → is_u64 i →
  wal_lookup (rt_wal (fn_rt fn)) i = Some l → wal_lookup lw i = Some l' → Log_Type l = Log_Type l' ∧ lg_Data l = lg_Data l'.
Proof.
  intros Hinv Hi Hl Hl'. destruct (fi_sub _ _ _ _ _ Hinv i l Hi Hl) as (l1 & Hl1 & (_ & Ht & Hd)%sameLog_fields).
  rewrite Hl' in Hl1. injection Hl1 as <-. done.
Qed.

Lemma queued_commit s0 H lw n r qs d i l q : growing H → WalInv H (length H) lw →
  (∀ m e, H !! m = Some e → ∃ pl, wal_lookup lw (en_prepare e) = Some pl ∧ DecodePayload (lg_Data pl) = Some (en_req e)) →
  FollowerInv s0 H lw n (MkFnode r qs d) → is_u64 i → wal_lookup lw i = Some l → Log_Type l = LogCommit →
  followerCommitBegin l r = (Ok q, r) → queued H lw (rt_wal r) q.
Proof.
  intros Hg Hlw Hpay Hinv Hi Hl Ht Hb.
  destruct (wi_shape _ _ _ Hlw i l Hi Hl) as [Ht'|? ? Ht'|m e pl0 l1 _ Hm He <- Hd Hlt Hpl0 Htp _];
    [by rewrite Ht in Ht'..|].
  destruct (Hg _ _ He) as (_ & Hu & Hup). pose proof (prevCommit_u64 H m Hg) as Hpu.
  destruct (followerCommitBegin_inv l _ _ r (Ok q) r (wi_ok _ _ _ (fi_wal _ _ _ _ _ Hinv)) Hup Hpu Hd Hb) as [_ Hq].
  destruct (Hq q eq_refl) as (pl & l0 & Hpl & Hl0 & Hidx & Hlc & Hlog & Hdec).
  destruct (follower_type _ _ _ _ _ _ _ _ Hinv Hup Hpl Hpl0) as [Htpl Hdpl].
  destruct (Hpay m e He) as (pl1 & Hpl1 & Hdec1). rewrite Hpl0 in Hpl1. injection Hpl1 as <-.
  exists m, e, l, pl, l0. split_and!; try done; [congruence|by rewrite Hlog; eapply wal_keys; [apply Hlw|..]
    |by rewrite Hlog|congruence].
Qed.

(** An operation, then the end of [followerApply]. *)
Lemma follower_tail s0 H lw n (m : GoM (Runtime W St) kerror unit) l r qs d res r' :
  (∀ res1 r1, m r = (res1, r1) → FollowerInv s0 H lw n (MkFnode r1 qs d)) →
  (m;; updateNextIndex l;; mret (None : option (commitReq Req))) r = (res, r') →
  FollowerInv s0 H lw n (MkFnode r' (match res with Ok (Some req) => req :: qs | _ => qs end) d).
Proof.
  intros Hm [([] & r1 & Hr1 & H2)|(r0 & Hr0 & _ & Hb)]%bind_inv; cbn beta in *.
  - apply Hm in Hr1. apply bind_inv in H2 as [([] & r2 & Hu & [= <- <-])|(r0 & Hu & _ & Hb)].
    + eapply FollowerInv_core; [by eapply sameCore_updateNextIndex|done].
    + unfold updateNextIndex in Hu. go_unfold in Hu. injection Hu as <- <-.
      destruct res as [o| |]; [by destruct (Hb o)|..]; (eapply FollowerInv_core; [|exact Hr1]);
      by eapply (sameCore_updateNextIndex l).
  - apply Hm in Hr0. destruct res as [o| |]; [by destruct (Hb o)|done..].
Qed.

Lemma follower_deliver s0 H lw n i l chk r qs d res r' : growing H → WalInv H (length H) lw →
  (∀ m e, H !! m = Some e → ∃ pl, wal_lookup lw (en_prepare e) = Some pl ∧ DecodePayload (lg_Data pl) = Some (en_req e)) →
  FollowerInv s0 H lw n (MkFnode r qs d) → is_u64 i → wal_lookup lw i = Some l →
  followerApply (Some l) chk r = (res, r') →
  FollowerInv s0 H lw n (MkFnode r' (match res with Ok (Some req) => req :: qs | _ => qs end) d).
Proof.
  intros Hg Hlw Hpay Hinv Hi Hl. assert (Log_Index l = i) as Hil by (eapply wal_keys; [apply Hlw|done..]).
  unfold followerApply. intros [(r0 & [= <-] & H1)|[-> Hb]]%bind_same; [| |by intros ? ? [= _ <-]].
  2:{ destruct res as [o| |]; [by destruct (Hb o)|done..]. }
  case_decide; [by injection H1 as <- <-|]. case_decide; [by injection H1 as <- <-|].
  case_decide as Ht; [|case_decide as Ht2; [|case_decide as Ht3]].
  - eapply follower_tail; [|exact H1]. intros res1 r1 (rc & Hrc & Hr1)%followerPrepare_inv.
    assert (FollowerInv s0 H lw n (MkFnode rc qs d)) as Hinv' by (destruct Hrc as [->|[req ->]]; [done|by apply FollowerInv_checked]).
    destruct Hr1 as [->|(res2 & r2 & Hw & Hcore)]; [done|].
    eapply FollowerInv_core; [exact Hcore|]. by eapply follower_deliver_prepare.
  - eapply follower_tail; [|exact H1]. intros res1 r1 Hr.
    destruct (wi_shape _ _ _ Hlw i l Hi Hl) as [Ht'|p pl0 _ Hd Hp Hlt Hpl0 Htp0|? ? ? ? Ht']; [done| |by rewrite Ht2 in Ht'].
    pose proof (wi_ok _ _ _ (fi_wal _ _ _ _ _ Hinv)) as Hok.
    destruct (followerRollback_inv l p r res1 r1 Hok Hp Hd Hr) as [->|(pl & res2 & r2 & Hpl & Hw & Hcore)]; [done|].
    eapply FollowerInv_core; [exact Hcore|].
    destruct (follower_type _ _ _ _ _ _ _ _ Hinv Hp Hpl Hpl0) as [Htpl _].
    eapply (follower_deliver_rollback s0 H lw n i l p pl); try done; congruence.
  - destruct (WalInv_commit _ _ _ _ _ Hlw Hi Hl Ht3) as (m & e & Hm & He & _ & _ & Hd).
    destruct (Hg _ _ He) as (_ & _ & Hup). pose proof (prevCommit_u64 H m Hg) as Hpu.
    apply bind_same in H1 as [(q & Hq & [= <- <-])|[-> Hb]].
    3:{ intros res1 r1 Hb. eapply followerCommitBegin_inv in Hb as [-> _]; [done|apply Hinv|exact Hup|exact Hpu|done]. }
    2:{ destruct res as [o| |]; [by destruct (Hb o)|done..]. }
    pose proof (queued_commit _ _ _ _ _ _ _ _ _ _ Hg Hlw Hpay Hinv Hi Hl Ht3 Hq) as Hnew.
    destruct Hinv. split; cbn in *; try done. by constructor.
  - unfold updateNextIndex in H1. go_unfold in H1. injection H1 as <- <-.
    eapply FollowerInv_core; [|exact Hinv]. by eapply (sameCore_updateNextIndex l).
Qed.

Lemma FollowerInv_same s0 H lw n r qs d w' : growing H → wal_ok w' → wal_same (rt_wal r) w' →
  FollowerInv s0 H lw n (MkFnode r qs d) → FollowerInv s0 H lw n (MkFnode (set_wal r w') qs d).
Proof.
  intros Hg Hok Hsame [Hn Hw Hs Hlc Hst Hq]. destruct r; cbn in *. split; cbn in *; try done.
  - by eapply WalInv_same.
  - intros i l Hi. rewrite Hsame by done. eauto.
  - eapply Forall_impl; [exact Hq|]. intros x Hx. rewrite <- (app_nil_r H).
    eapply queued_mono; [done| | |done]; [by intros ? ?|]. intros i l Hi. by rewrite Hsame.
Qed.

Lemma FollowerInv_dequeue s0 H lw n r qs d k d' : FollowerInv s0 H lw n (MkFnode r qs d) →
  FollowerInv s0 H lw n (MkFnode r (delete k qs) d').
Proof. intros []. split; cbn in *; try done. by apply Forall_delete. Qed.

(** A commit of a follower is the next of the history. *)
Lemma follower_commits s0 H lw n r qs d q r1 : growing H → WalInv H (length H) lw →
  FollowerInv s0 H lw n (MkFnode r qs d) → queued H lw (rt_wal r) q → cr_lastCommit q = rt_lastCommit r →
  writeWAL (cr_log q) r = (Ok tt, r1) → (Commit (cr_data q) false (rt_sh r1)).1 ≠ Panic →
  (n < length H)%nat ∧ FollowerInv s0 H lw (S n)
    (MkFnode (set_lastCommit (set_sh r1 (Commit (cr_data q) false (rt_sh r1)).2) (Log_Index (cr_log q))) qs d).
Proof.
  intros Hg Hlw [Hn Hw Hsub Hlast Hst Hq] (m & e & l & pl & l0 & He & Hlc & Hd & _ & Hidx & Hl & Hs & Ht & Hpl & Htp & Hl0)
    Hnext Hwr Hnp. cbn in *.
  assert (m = n) as ->.
  { apply (prevCommit_inj H); [done|by apply lookup_lt_Some in He; lia|done|congruence]. }
  destruct (Hg _ _ He) as (_ & Hu & Hup). pose proof (lookup_lt_Some _ _ _ He) as Hlen.
  apply writeWAL_inv in Hwr as (w' & -> & Hok & l2 & Hs2 & Hput); [|by eapply wi_ok|by rewrite Hidx].
  pose proof (sameLog_fields _ _ Hs) as (Hi1 & Ht1 & Hd1). pose proof (sameLog_fields _ _ Hs2) as (Hi2 & Ht2 & Hd2).
  destruct (WalInv_commit _ _ _ _ _ Hlw Hu Hl Ht) as (m & e' & _ & He' & Heq & Hlt & Hdl).
  assert (m = n) as -> by (by eapply en_commit_inj). rewrite He in He'. injection He' as <-.
  assert (WalInv H (S n) w') as Hw'.
  { eapply (WalInv_put_commit H n (rt_wal r) l2 w' e pl l0); try done; try congruence.
    apply (follower_fresh s0 H lw n (MkFnode r qs d) l l2 (en_prepare e)); try done.
    - by rewrite Hi1, Hidx.
    - by rewrite Hi1, Hidx.
    - split; [by rewrite Ht|]. split; [done|]. by eexists.
    - unfold sameLog in *. congruence.
    - apply Hput. }
  split; [done|]. destruct r; cbn in *. split; cbn; [done|done| | | |].
  - intros j l3 Hj Hl3. destruct (wal_put_inv _ _ _ _ _ Hput Hj Hl3) as [[-> ->]|Hold]; [|eauto].
    exists l. split; [by rewrite <- Hi2, Hidx|]. unfold sameLog in *. congruence.
  - rewrite Hidx. symmetry. by apply prevCommit_S.
  - rewrite (take_S_r _ _ (en_req e)) by (by rewrite list_lookup_fmap, He).
    rewrite Hd in Hnp |- *. by apply executes_commit.
  - eapply Forall_impl; [exact Hq|]. intros x Hx. rewrite <- (app_nil_r H).
    eapply queued_mono; [done| | |done]; [by intros ? ?|]. intros j l3 Hj. by eapply wal_put_mono.
Qed.

Lemma follower_cycle s0 H lw n r qs d k q res r' : growing H → WalInv H (length H) lw →
  FollowerInv s0 H lw n (MkFnode r qs d) → qs !! k = Some q → followerDoCommit q r = (res, r') → res ≠ Panic →
  match res with
  | Ok None => FollowerInv s0 H lw n (MkFnode r' qs d)
  | Ok (Some _) => (n < length H)%nat ∧ FollowerInv s0 H lw (S n) (MkFnode r' (delete k qs) (q :: d))
  | _ => FollowerInv s0 H lw n (MkFnode r' (delete k qs) d)
  end.
Proof.
  intros Hg Hlw Hinv Hk Hc Hres0. apply followerDoCommit_inv in Hc. pose proof (fi_queue _ _ _ _ _ Hinv) as Hq.
  rewrite Forall_lookup in Hq. specialize (Hq k q Hk).
  assert (is_u64 (Log_Index (cr_log q))) as Hu.
  { destruct Hq as (m & e & ? & ? & ? & He & _ & _ & _ & -> & _). by apply (Hg _ _ He). }
  assert (wal_ok (rt_wal r)) as Hok by apply Hinv.
  destruct res as [[err|]|e|].
  - destruct Hc as (Hlc & r1 & Hw & Hnp & ->).
    destruct (follower_commits s0 H lw n r qs d q r1) as [? ?]; [done..|]. split; [done|].
    by eapply FollowerInv_dequeue.
  - by subst.
  - destruct Hc as (res1 & Hw & Hne). apply writeWAL_inv in Hw as (w' & -> & Hok' & Hres); [|done..].
    eapply FollowerInv_dequeue, FollowerInv_same; [done..| |exact Hinv]. by destruct res1 as [[]| |].
  - done.
Qed.

(** ** The simulation *)

Lemma implements_initial s0 t0 s : initial s0 t0 s →
  implements s0 t0 s (Replication.MkState [] ((λ _, 0%nat) <$> sy_followers s)).
Proof.
  destruct s as [r fl fs]. intros (([Hok Hempty] & Hn & Hlc & Hs) & Hfl & Hfs). cbn in *. subst fl.
  assert (∀ w, emptyLog w → WalInv ([] : list (entry Req)) 0 w) as Hwal.
  { intros w [Hokw He]. split; [done| |lia|].
    - intros i l Hi. by rewrite He.
    - intros i j l l' p Hi Hj. by rewrite He. }
  exists []. split_and!; [done| |split; [constructor|constructor]|]; cbn.
  - split; cbn; try done; [by apply Hwal|by rewrite Hn| |rewrite Hs; constructor].
    intros i Hi. rewrite Hempty, Hn by done. split; [by intros []|]. unfold is_u64 in Hi. lia.
  - intros f. rewrite lookup_fmap. destruct (fs !! f) as [fn|] eqn:Hf; [|done]. cbn.
    destruct (Hfs f fn Hf) as ((Hew & Hn' & Hlc' & Hs') & Hq & _). split; try done.
    + by apply Hwal.
    + intros i l Hi. destruct Hew as [_ Hew]. by rewrite Hew.
    + rewrite Hs'. constructor.
    + by rewrite Hq.
Qed.

(** The leader moves, the followers stay. *)
Lemma implements_leader s0 t0 H H' r r' fl' fs pos log' : growing H →
  walSub (rt_wal r) (rt_wal r') → LeaderInv s0 (H ++ H') r' → FlightInv (rt_wal r') fl' →
  log' = en_req <$> (H ++ H') →
  (∀ f, match fs !! f, pos !! f with
        | Some fn, Some n => FollowerInv (t0 f) H (rt_wal r) n fn | None, None => True | _, _ => False end) →
  implements s0 t0 (MkSystem r' fl' fs) (Replication.MkState log' pos).
Proof.
  intros Hg Hsub Hl Hfl -> Hfs. exists (H ++ H'). split_and!; [done..|].
  intros f. specialize (Hfs f). cbn. destruct (fs !! f), (pos !! f); try done. by eapply FollowerInv_mono.
Qed.

(** One follower moves. *)
Lemma implements_follower s0 t0 H r fl fs pos f fn n : LeaderInv s0 H r → FlightInv (rt_wal r) fl →
  (∀ f, match fs !! f, pos !! f with
        | Some fn, Some n => FollowerInv (t0 f) H (rt_wal r) n fn | None, None => True | _, _ => False end) →
  FollowerInv (t0 f) H (rt_wal r) n fn →
  implements s0 t0 (MkSystem r fl (<[f := fn]> fs)) (Replication.MkState (en_req <$> H) (<[f := n]> pos)).
Proof.
  intros Hl Hfl Hfs Hfn. exists H. split_and!; [done..|]. intros g. cbn. specialize (Hfs g).
  destruct (decide (f = g)) as [<-|Hne]; [by rewrite !lookup_insert_eq|by rewrite !lookup_insert_ne].
Qed.

Lemma FlightInv_delete w fl k : FlightInv w fl → FlightInv w (delete k fl).
Proof.
  intros [Hnd Hfl]. split; [|by apply Forall_delete].
  eapply sublist_NoDup; [exact Hnd|]. apply fmap_sublist, fmap_sublist, sublist_delete.
Qed.

Lemma leaderPrepare_fails req r e r' : leaderPrepare req r = (Err e, r') → r' = checked req r.
Proof.
  unfold leaderPrepare, wrapping, doCheck, checked, doEncodePayload, newLog, onWal. go_unfold.
  destruct (Check _ _) as [[] ?]; [by intros [= _ <-]|]. go_unfold. destruct (EncodePayload req); go_unfold; [|by intros [= _ <-]].
  destruct (wal_Write _ _) as [[| |] ?]; done.
Qed.

Lemma step_simulates s0 t0 s s' a : implements s0 t0 s a → step s s' →
  ∃ a', rtc Replication.step a a' ∧ implements s0 t0 s' a'.
Proof.
  destruct a as [log pos]. intros (H & Hlog & Hl & Hfl & Hfs) Hstep. cbn in Hlog. subst log.
  pose proof Hl as [Hg Hw _ _ _ Hpay _].
  assert (∀ f fn, sy_followers s !! f = Some fn → ∃ n, pos !! f = Some n ∧
    FollowerInv (t0 f) H (rt_wal (sy_leader s)) n fn) as Hat.
  { intros f fn Hf. specialize (Hfs f). rewrite Hf in Hfs. cbn in Hfs. destruct (pos !! f); [eauto|done]. }
  destruct Hstep as [r fl fs req l r' Hroom Hp|r fl fs req e r' Hp|r fl fs k l req res r' Hroom Hk Hc
    |r fl fs k l req l' r' Hroom Hk Hc|r fl fs k|r fl fs i r' Hm
    |r fl fs f [rt q d] i l chk res r' Hi Hli Hf Ha|r fl fs f [rt q d] k req res r' Hf Hk Hc Hnp
    |r fl fs f [rt q d] k req r' Hf Hk He]; cbn in *.
  - destruct (leader_prepare _ _ _ _ _ _ _ Hl Hfl Hroom Hp) as (Hl' & Hfl' & Hsub).
    eexists. split; [reflexivity|]. eapply (implements_leader s0 t0 H []); rewrite ?app_nil_r; done.
  - apply leaderPrepare_fails in Hp as ->. eexists. split; [reflexivity|]. exists H. cbn. rewrite checked_wal.
    split_and!; [done|by apply LeaderInv_checked|done..].
  - destruct (leader_commit _ _ _ _ _ _ _ _ _ Hl Hfl Hroom Hk Hc) as (e & He & Hl' & Hfl' & Hsub).
    eexists. split; [apply rtc_once, (Replication.append _ req)|]. cbn.
    eapply (implements_leader s0 t0 H [e]); try done. by rewrite fmap_app, <- He.
  - destruct (leader_rollback _ _ _ _ _ _ _ _ _ Hl Hfl Hroom Hk Hc) as (Hl' & Hfl' & Hsub).
    eexists. split; [reflexivity|]. eapply (implements_leader s0 t0 H []); rewrite ?app_nil_r; done.
  - eexists. split; [reflexivity|]. exists H. split_and!; [done..|by apply FlightInv_delete|done].
  - unfold markPrepareFinished in Hm. go_unfold in Hm. injection Hm as <-. eexists. split; [reflexivity|].
    exists H. cbn. rewrite set_pending_wal. split_and!; [done|by apply LeaderInv_pending|done..].
  - destruct (Hat f _ Hf) as (n & Hn & Hinv).
    pose proof (follower_deliver _ _ _ _ _ _ _ _ _ _ _ _ Hg Hw Hpay Hinv Hi Hli Ha) as Hinv'.
    eexists. split; [reflexivity|]. rewrite <- (insert_id pos f n Hn). by apply implements_follower.
  - destruct (Hat f _ Hf) as (n & Hn & Hinv).
    pose proof (follower_cycle _ _ _ _ _ _ _ _ _ _ _ Hg Hw Hinv Hk Hc Hnp) as Hinv'.
    destruct res as [[err|]|err|].
    + destruct Hinv' as [Hlen Hinv']. eexists.
      split; [apply rtc_once, (Replication.advance _ f n); cbn; [done|by rewrite length_fmap]|].
      by apply implements_follower.
    + eexists. split; [reflexivity|]. rewrite <- (insert_id pos f n Hn). by apply implements_follower.
    + eexists. split; [reflexivity|]. rewrite <- (insert_id pos f n Hn). by apply implements_follower.
    + eexists. split; [reflexivity|]. rewrite <- (insert_id pos f n Hn). by apply implements_follower.
  - destruct (Hat f _ Hf) as (n & Hn & Hinv). eexists. split; [reflexivity|].
    rewrite <- (insert_id pos f n Hn). apply implements_follower; [done..|].
    eapply FollowerInv_core; [|exact Hinv]. unfold followerCommitEnd, markPrepareFinished, updateNextIndex in He.
    go_unfold in He. injection He as <-. eapply sameCore_trans; [apply sameCore_pending|].
    by eapply (sameCore_updateNextIndex (cr_log req)).
Qed.

Lemma steps_simulate s0 t0 s s' a : implements s0 t0 s a → rtc step s s' →
  ∃ a', rtc Replication.step a a' ∧ implements s0 t0 s' a'.
Proof.
  intros Ha Hs. revert a Ha. induction Hs as [s|s s1 s' Hs _ IH]; intros a Ha; [by exists a|].
  destruct (step_simulates _ _ _ _ _ Ha Hs) as (a1 & Ha1 & Himp). destruct (IH a1 Himp) as (a' & Ha' & Himp').
  exists a'. split; [by etrans|done].
Qed.

(** ** Theorems *)

(** C6: Kayak implements one replicated log.  Whatever the order and number of
    deliveries, failing writes, rollbacks and abandoned requests, every run of a
    leader and its followers from empty logs is a run of the specification: the
    leader's state is an execution of the committed requests, and each follower's
    state is an execution of the first [n] of them, in the same order. *)
Theorem replication_refines s0 t0 s s' : initial s0 t0 s → rtc step s s' →
  ∃ a, rtc Replication.step (Replication.MkState [] ((λ _, 0%nat) <$> sy_followers s)) a ∧
    executes true s0 (Replication.log a) (rt_sh (sy_leader s')) ∧
    dom (sy_followers s') = dom (Replication.position a) ∧
    ∀ f fn n, sy_followers s' !! f = Some fn → Replication.position a !! f = Some n →
      (n <= length (Replication.log a))%nat ∧ executes false (t0 f) (take n (Replication.log a)) (rt_sh (fn_rt fn)).
Proof.
  intros Hinit Hsteps. destruct (steps_simulate _ _ _ _ _ (implements_initial _ _ _ Hinit) Hsteps) as (a & Ha & H & Hlog & Hl & _ & Hfs).
  exists a. rewrite Hlog. split_and!; [done|apply Hl| |].
  - apply set_eq. intros f. rewrite !elem_of_dom. specialize (Hfs f).
    destruct (sy_followers s' !! f), (Replication.position a !! f); try done; by rewrite !is_Some_alt.
  - intros f fn n Hf Hn. specialize (Hfs f). rewrite Hf, Hn in Hfs. rewrite length_fmap. split; apply Hfs.
Qed.

(** A request once committed is never lost, replaced or reordered, on any
    replica.  Between two points of a run the leader's list of committed requests
    only grows at its end; what a follower had executed at the first point is a
    prefix of what it has executed at the second; and every log a follower holds is
    the leader's log of that index, up to its recorded length. *)
Theorem replicas_agree s0 t0 s s1 s2 f fn1 fn2 : initial s0 t0 s → rtc step s s1 → rtc step s1 s2 →
  sy_followers s1 !! f = Some fn1 → sy_followers s2 !! f = Some fn2 →
  ∃ reqs1 reqs2 n1 n2, reqs1 `prefix_of` reqs2 ∧ (n1 <= n2)%nat ∧
    (n1 <= length reqs1)%nat ∧ (n2 <= length reqs2)%nat ∧
    executes true s0 reqs1 (rt_sh (sy_leader s1)) ∧ executes true s0 reqs2 (rt_sh (sy_leader s2)) ∧
    executes false (t0 f) (take n1 reqs1) (rt_sh (fn_rt fn1)) ∧ executes false (t0 f) (take n2 reqs2) (rt_sh (fn_rt fn2)) ∧
    ∀ i l, is_u64 i → wal_lookup (rt_wal (fn_rt fn2)) i = Some l →
      ∃ l', wal_lookup (rt_wal (sy_leader s2)) i = Some l' ∧ sameLog l' l.
Proof.
  intros Hinit Hs1 Hs2 Hf1 Hf2.
  destruct (steps_simulate _ _ _ _ _ (implements_initial _ _ _ Hinit) Hs1) as (a1 & _ & Himp1).
  destruct (steps_simulate _ _ _ _ _ Himp1 Hs2) as (a2 & [Hlog Hpos]%Replication.steps_grow & (H2 & Hl2 & Hli2 & _ & Hfs2)).
  destruct Himp1 as (H1 & Hl1 & Hli1 & _ & Hfs1). specialize (Hfs1 f). specialize (Hfs2 f).
  rewrite Hf1 in Hfs1. rewrite Hf2 in Hfs2. destruct (Replication.position a1 !! f) as [n1|] eqn:Hn1; [|done].
  destruct (Replication.position a2 !! f) as [n2|] eqn:Hn2; [|done].
  destruct (Hpos f n1 Hn1) as (n2' & Hn2' & Hle). rewrite Hn2 in Hn2'. injection Hn2' as <-.
  exists (en_req <$> H1), (en_req <$> H2), n1, n2. rewrite !length_fmap.
  split_and!; [by rewrite <- Hl1, <- Hl2|done|apply Hfs1|apply Hfs2|apply Hli1|apply Hli2|apply Hfs1|apply Hfs2|apply Hfs2].
Qed.
End system.
