(* ===== verification/KayakRestart.v ===== *)
(** * kayak: restarting from a log

    [readLogs] rebuilds the indices of a runtime from its write-ahead log.  A log
    that satisfies [WalInv] is read to its end: the last commit, the next index
    and the pending prepares are those of its content.  With the invariants of
    [KayakProps] this holds of the log of the leader and of every follower. *)
From S2P Require Import Prelude Types Bytes LevelDB KayakWal Kayak KayakInv KayakProps.
From Stdlib Require Import String ZArith Lia Sorting.Sorted.
From stdpp Require Import base list gmap strings relations.
Local Open Scope Z_scope.
#[local] Opaque uint64ToBytes LevelDBWal.dataKey LevelDBWal.headerKey.

(** A log whose reads do not fail. *)
Class HealthyWal (W : Type) `{Wal W} := {
  wal_healthy : W → Prop;
  healthy_Get : ∀ w i l, wal_ok w → wal_healthy w → is_u64 i → wal_lookup w i = Some l → wal_Get w i = Ok l;
  healthy_Read : ∀ w, wal_ok w → wal_healthy w → wal_healthy (wal_Read w).2 ∧
    match wal_unread w with [] => (wal_Read w).1 = Err EOF | l :: _ => (wal_Read w).1 = Ok l end;
}.

#[export, refine] Instance healthy_memWal : HealthyWal MemWal.MemWal :=
  {| wal_healthy := λ p, MemWal.closed p = false |}.
Proof.
  - intros p i l Hok Hc _. cbn. unfold MemWal.content, MemWal.Get. rewrite Hc.
    destruct (MemWal.revIndex p !! i) as [k|]; [|done]. cbn. by intros ->.
  - intros p Hok Hc. cbn. unfold MemWal.Read. by rewrite Hc.
Defined.

Section leveldb.
Context `{LevelDB kerror D} `{!MsgPack LogHeader} `{!MsgPack (list Z)}.
(** The store answers every read. *)
Hypothesis reads : ∀ (d : D) k, ∃ o, ldb_Get d k = Ok o.

Lemma loaded_load (d : D) v l : LevelDBWal.loaded (ldb_map d) v = Some l → LevelDBWal.load d v = Ok l.
Proof.
  unfold LevelDBWal.load, LevelDBWal.loaded. destruct (DecodeMsgPack v) as [h|]; [|done]. cbn.
  destruct (reads d (LevelDBWal.dataKey (lg_Index h))) as [o Ho]. rewrite Ho, (ldb_Get_spec _ _ _ Ho).
  destruct o as [enc|]; [|done]. cbn. destruct (DecodeMsgPack enc); [|done]. by intros [= <-].
Qed.

#[refine] Instance healthy_levelDBWal : HealthyWal (LevelDBWal.LevelDBWal (D := D)) :=
  {| wal_healthy := λ p, LevelDBWal.closed p = false |}.
Proof.
  - intros p i l Hok Hc _. cbn. unfold LevelDBWal.content, LevelDBWal.Get. rewrite Hc.
    destruct (reads (LevelDBWal.db p) (LevelDBWal.headerKey i)) as [o Ho]. rewrite Ho, (ldb_Get_spec _ _ _ Ho).
    destruct o as [v|]; [|done]. cbn. apply loaded_load.
  - intros p [Hm Hit] Hc. cbn. unfold LevelDBWal.Read, LevelDBWal.unread. rewrite Hc.
    destruct (LevelDBWal.read p) eqn:Hr; [done|].
    set (vs := match LevelDBWal.it p with Some vs => vs | None => _ end).
    assert (∀ v, v ∈ vs → ∃ k, ldb_map (LevelDBWal.db p) !! k = Some v ∧ LevelDBWal.logHeaderKeyPrefix `prefix_of` k) as Hvs.
    { intros v Hv. unfold vs in Hv. destruct (LevelDBWal.it p) as [vs'|] eqn:Hvs; [by eapply Hit|].
      apply list_elem_of_fmap in Hv as ([k v'] & -> & Hin). apply ldb_prefix_spec in Hin. by exists k. }
    destruct vs as [|v vs']; cbn; [done|]. split; [done|].
    destruct (Hvs v) as (k & Hk & Hpre); [by left|]. destruct (Hm k v Hk Hpre) as (l & Hl & _).
    rewrite Hl. by apply loaded_load.
Defined.
End leveldb.

Section restart.
Context {W : Type} `{!Wal W} `{!HealthyWal W} {St Req Resp : Type} `{!Handler St Req Resp}.
Implicit Types (H : list (entry Req)) (r : Runtime W St) (w : W) (l : Log) (n : nat).

(** ** The indices of a log *)

(** What [readLogs] has rebuilt once it has read the logs of [w] below [b]. *)
Record readUpTo H n w (b : Z) r : Prop := {
  ru_ok : wal_ok (rt_wal r);
  ru_healthy : wal_healthy (rt_wal r);
  ru_same : wal_same w (rt_wal r);
  ru_next i l : is_u64 i → wal_lookup w i = Some l → i < b → i < rt_nextIndex r;
  ru_next_tight : rt_nextIndex r = 0 ∨
    is_u64 (rt_nextIndex r - 1) ∧ is_Some (wal_lookup w (rt_nextIndex r - 1)) ∧ rt_nextIndex r <= b;
  ru_last : ∃ m, (m <= n)%nat ∧ rt_lastCommit r = prevCommit H m ∧
    ∀ k e, (k < n)%nat → H !! k = Some e → en_commit e < b ↔ (k < m)%nat;
  ru_pending i : i ∈ rt_pendingPrepares r ↔ is_u64 i ∧ i < b ∧
    (∃ l, wal_lookup w i = Some l ∧ Log_Type l = LogPrepare) ∧
    ∀ j l, is_u64 j → wal_lookup w j = Some l → j < b → resolves l i → False;
}.

Lemma readUpTo_skip H n w b i r : growing H → WalInv H n w → readUpTo H n w b r → b <= i →
  (∀ j l, is_u64 j → wal_lookup w j = Some l → b <= j → i <= j) → readUpTo H n w i r.
Proof.
  intros Hg Hw [Hok Hh Hs Hn Hnt Hl Hp] Hbi Hgap. split; [done..| | | |].
  - intros j l Hj Hlk Hlt. apply (Hn j l); [done..|]. destruct (Z.lt_ge_cases j b); [done|].
    pose proof (Hgap j l Hj Hlk). lia.
  - destruct Hnt as [?|(? & ? & ?)]; [by left|]. right. split_and!; [done..|lia].
  - destruct Hl as (m & Hm & Hlc & Hk). exists m. split_and!; [done..|]. intros k e Hkn He.
    rewrite <- (Hk k e Hkn He). destruct (wi_complete _ _ _ Hw k e Hkn He) as (l & Hlk & _).
    destruct (Hg _ _ He) as (_ & Hu & _). split; [|lia]. intros Hlt.
    destruct (Z.lt_ge_cases (en_commit e) b); [done|]. pose proof (Hgap _ l Hu Hlk). lia.
  - intros j. rewrite Hp. split; intros (Hu & Hlt & Hx & Hr).
    + split_and!; [done|lia|done|]. intros k l Hku Hlk Hki. destruct (Z.lt_ge_cases k b); [by eapply Hr|].
      pose proof (Hgap k l Hku Hlk). lia.
    + split_and!; [done| |done|].
      * destruct Hx as (l & Hlk & _). destruct (Z.lt_ge_cases j b); [done|]. pose proof (Hgap j l Hu Hlk). lia.
      * intros k l Hku Hlk Hkb. eapply Hr; [done..|lia].
Qed.

(** The lookups of [getPrepareLog] on a readable log. *)
Lemma getPrepareLog_rollback l p pl r : wal_ok (rt_wal r) → wal_healthy (rt_wal r) → is_u64 p →
  lg_Data l = uint64ToBytes p → wal_lookup (rt_wal r) p = Some pl → getPrepareLog l r = (Ok (0, pl), r).
Proof.
  intros Hok Hh Hp Hd Hpl. unfold getPrepareLog. rewrite Hd, <- (app_nil_r (uint64ToBytes p)), bytesToUint64_app by done.
  unfold wrapping, waitForLog. go_unfold. rewrite (healthy_Get _ _ _ Hok Hh Hp Hpl). go_unfold.
  rewrite decide_False; [done|]. rewrite length_app, length_uint64ToBytes. cbn. lia.
Qed.

Lemma getPrepareLog_commit l p c pl l0 r : wal_ok (rt_wal r) → wal_healthy (rt_wal r) → is_u64 p → is_u64 c →
  lg_Data l = uint64ToBytes p ++ uint64ToBytes c → wal_lookup (rt_wal r) p = Some pl →
  wal_lookup (rt_wal r) c = Some l0 → getPrepareLog l r = (Ok (c, pl), r).
Proof.
  intros Hok Hh Hp Hc Hd Hpl Hl0. unfold getPrepareLog. rewrite Hd, bytesToUint64_app by done.
  unfold wrapping, waitForLog. go_unfold. rewrite (healthy_Get _ _ _ Hok Hh Hp Hpl). go_unfold.
  rewrite decide_True by (rewrite length_app, !length_uint64ToBytes; lia).
  rewrite drop_uint64ToBytes, <- (app_nil_r (uint64ToBytes c)), bytesToUint64_app by done.
  by rewrite (healthy_Get _ _ _ Hok Hh Hc Hl0).
Qed.

(** ** Reading one log *)

Definition pendingAt w (b i : Z) : Prop := is_u64 i ∧ i < b ∧
  (∃ l, wal_lookup w i = Some l ∧ Log_Type l = LogPrepare) ∧
  ∀ j l, is_u64 j → wal_lookup w j = Some l → j < b → resolves l i → False.

(** Below [i + 1]: what is below [i], and the log at [i] itself. *)
Lemma pendingAt_succ w i l j : is_u64 i → wal_lookup w i = Some l → j ≠ i →
  pendingAt w (i + 1) j ↔ pendingAt w i j ∧ ¬ resolves l j.
Proof.
  intros Hi Hl Hne. split.
  - intros (Hu & Hlt & Hx & Hr). split; [split_and!; [done|lia|done|]|].
    + intros k l' Hk Hl' Hki. eapply Hr; [done..|lia].
    + intros Hres. by eapply (Hr i l Hi Hl); [lia|].
  - intros [(Hu & Hlt & Hx & Hr) Hnr]. split_and!; [done|lia|done|]. intros k l' Hk Hl' Hki Hres.
    destruct (decide (k = i)) as [->|Hki']; [by rewrite Hl in Hl'; injection Hl' as <-|].
    eapply (Hr k l'); [done..|lia|done].
Qed.

Lemma pendingAt_prepare H n w i l : growing H → WalInv H n w → is_u64 i → wal_lookup w i = Some l →
  Log_Type l = LogPrepare → pendingAt w (i + 1) i.
Proof.
  intros Hg Hw Hi Hl Ht. split_and!; [done|lia|by exists l|]. intros j l' Hj Hl' Hlt Hres.
  destruct (resolved_present _ _ _ _ _ _ Hg Hw Hj Hl' Hres) as [_ Hij]. lia.
Qed.

(** The prepare log a log at [i] resolves is pending when [i] is read. *)
Lemma pendingAt_resolved H n w i l p pl : growing H → WalInv H n w → is_u64 i → wal_lookup w i = Some l →
  resolves l p → p < i → wal_lookup w p = Some pl → Log_Type pl = LogPrepare → pendingAt w i p.
Proof.
  intros Hg Hw Hi Hl Hres Hlt Hpl Htp. split_and!; [by destruct Hres as (_ & ? & _)|done|by exists pl|].
  intros j l' Hj Hl' Hji Hres'. pose proof (wi_unique _ _ _ Hw i j l l' p Hi Hj Hl Hl' Hres Hres'). lia.
Qed.

Lemma en_commit_lt H k m e e' : growing H → H !! k = Some e → H !! m = Some e' →
  en_commit e < en_commit e' ↔ (k < m)%nat.
Proof.
  intros Hg Hk Hm. rewrite <- (prevCommit_S _ _ _ Hk), <- (prevCommit_S _ _ _ Hm).
  apply lookup_lt_Some in Hk, Hm. split; intros Hlt.
  - destruct (Nat.lt_total k m) as [?|[->|Hgt]]; [done|lia|].
    pose proof (growing_lt H (S m) (S k) Hg). lia.
  - apply growing_lt; [done|lia..].
Qed.

(** The runtime after reading the log at [i]. *)
Lemma readUpTo_next H n w i r r' m : readUpTo H n w i r → is_u64 i → i + 1 < two64 →
  is_Some (wal_lookup w i) → rt_wal r' = rt_wal r → rt_nextIndex r' = i + 1 →
  (m <= n)%nat → rt_lastCommit r' = prevCommit H m →
  (∀ k e, (k < n)%nat → H !! k = Some e → en_commit e < i + 1 ↔ (k < m)%nat) →
  (∀ j, j ∈ rt_pendingPrepares r' ↔ pendingAt w (i + 1) j) → readUpTo H n w (i + 1) r'.
Proof.
  intros [Hok Hh Hs _ _ _ _] Hi Hroom Hsome Hw Hn Hm Hlc Hk Hp. rewrite <- Hw in Hok, Hh, Hs.
  split; [done..| | |eauto|done].
  - intros j l Hj Hl Hlt. by rewrite Hn.
  - right. rewrite Hn. replace (i + 1 - 1) with i by lia. split_and!; [done..|lia].
Qed.

Lemma updateNextIndex_eq l r i : rt_nextIndex r <= i → is_u64 i → i + 1 < two64 → Log_Index l = i →
  updateNextIndex l r = (Ok tt, set_nextIndex r (i + 1)).
Proof.
  intros Hn Hi Hroom Hl. unfold updateNextIndex. go_unfold. rewrite Hl, u64_id by (unfold is_u64 in *; lia).
  by rewrite decide_True by lia.
Qed.

Lemma readUpTo_bound H n w i r : readUpTo H n w i r → is_u64 i → rt_nextIndex r <= i.
Proof. intros Hr Hi. destruct (ru_next_tight _ _ _ _ _ Hr) as [->|(_ & _ & ?)]; unfold is_u64 in *; lia. Qed.

(** The last commit is not moved by other logs. *)
Lemma last_other H n w i l m : growing H → WalInv H n w → wal_lookup w i = Some l → Log_Type l ≠ LogCommit →
  (∀ k e, (k < n)%nat → H !! k = Some e → en_commit e < i ↔ (k < m)%nat) →
  ∀ k e, (k < n)%nat → H !! k = Some e → en_commit e < i + 1 ↔ (k < m)%nat.
Proof.
  intros Hg Hw Hl Ht Hk k e Hkn He. rewrite <- (Hk k e Hkn He). split; [|lia]. intros Hlt.
  destruct (wi_complete _ _ _ Hw k e Hkn He) as (l' & Hl' & Ht').
  destruct (decide (en_commit e = i)) as [Heq|]; [|lia]. rewrite Heq in Hl'. congruence.
Qed.

Lemma last_commit H n i m m' e : growing H → H !! m = Some e → en_commit e = i → (m < n)%nat → (m' <= n)%nat →
  (n <= length H)%nat →
  (∀ k e, (k < n)%nat → H !! k = Some e → en_commit e < i ↔ (k < m')%nat) →
  m' = m ∧ ∀ k e, (k < n)%nat → H !! k = Some e → en_commit e < i + 1 ↔ (k < S m)%nat.
Proof.
  intros Hg He Hi Hm Hm' Hn Hk. split.
  - pose proof (Hk m e Hm He) as Hkm. destruct (Nat.lt_total m' m) as [Hlt|[?|Hgt]]; [|done|lia].
    destruct (lookup_lt_is_Some_2 H m') as [e' He']; [lia|].
    pose proof (Hk m' e' ltac:(lia) He') as Hk'. apply (en_commit_lt H m' m e' e Hg He' He) in Hlt. lia.
  - intros k e' Hkn He'. pose proof (en_commit_lt H k m e' e Hg He' He) as Hlt.
    destruct (decide (k = m)) as [->|Hne]; [rewrite He in He'; injection He' as <-; lia|].
    assert (en_commit e' ≠ i).
    { intros Heq. apply Hne. by eapply en_commit_inj; [..|rewrite Heq]. }
    lia.
Qed.

(** The three kinds of logs. *)
Lemma readLog_prepare H n w i l r : growing H → WalInv H n w → i + 1 < two64 → is_u64 i →
  readUpTo H n w i r → wal_lookup w i = Some l → Log_Index l = i → Log_Type l = LogPrepare →
  ∃ r', readLog l r = (Ok true, r') ∧ readUpTo H n w (i + 1) r' ∧ rt_wal r' = rt_wal r ∧ rt_sh r' = rt_sh r.
Proof.
  intros Hg Hw Hroom Hi Hr Hl Hli Ht. pose proof (readUpTo_bound _ _ _ _ _ Hr Hi) as Hb.
  pose proof Hr as [_ _ _ _ _ (m & Hm & Hlc & Hk) Hp].
  set (r1 := set_pending r ({[i]} ∪ rt_pendingPrepares r)).
  exists (set_nextIndex r1 (i + 1)). split.
  { unfold readLog. rewrite decide_True by done. unfold markPendingPrepare. rewrite Hli. go_unfold.
    fold r1. rewrite (updateNextIndex_eq l r1 i); [done| |done..]. by destruct r. }
  split; [|by destruct r]. apply (readUpTo_next H n w i r _ m); try done; [by destruct r..| |].
  - eapply last_other; try done. by rewrite Ht.
  - intros j. replace (rt_pendingPrepares _) with ({[i]} ∪ rt_pendingPrepares r) by (by destruct r).
    rewrite elem_of_union, elem_of_singleton, Hp. destruct (decide (j = i)) as [->|Hne].
    + split; [|by left]. intros _. by eapply pendingAt_prepare.
    + rewrite (pendingAt_succ w i l) by done. split; [|by intros [? _]; right].
      intros [?|?]; [done|]. split; [done|]. by intros [? _].
Qed.

Lemma pending_resolve H n w i l p pl r : readUpTo H n w i r → is_u64 i → wal_lookup w i = Some l →
  resolves l p → wal_lookup w p = Some pl → Log_Type pl = LogPrepare →
  ∀ j, j ∈ rt_pendingPrepares r ∖ {[p]} ↔ pendingAt w (i + 1) j.
Proof.
  intros [_ _ _ _ _ _ Hp] Hi Hl Hres Hpl Htp j. rewrite elem_of_difference, elem_of_singleton, Hp.
  destruct (decide (j = i)) as [->|Hne].
  - split; [intros [(_ & Hlt & _) _]; lia|]. intros (_ & _ & (l' & Hl' & Ht') & _).
    destruct Hres as [Hnt _]. congruence.
  - rewrite (pendingAt_succ w i l) by done. split; intros [? Hnr]; (split; [done|]).
    + intros Hres'. by apply Hnr, (resolves_fun l).
    + intros ->. done.
Qed.

Lemma readLog_rollback H n w i l p pl r : growing H → WalInv H n w → i + 1 < two64 → is_u64 i →
  readUpTo H n w i r → wal_lookup w i = Some l → Log_Index l = i → Log_Type l = LogRollback →
  lg_Data l = uint64ToBytes p → is_u64 p → p < i → wal_lookup w p = Some pl → Log_Type pl = LogPrepare →
  ∃ r', readLog l r = (Ok true, r') ∧ readUpTo H n w (i + 1) r' ∧ rt_wal r' = rt_wal r ∧ rt_sh r' = rt_sh r.
Proof.
  intros Hg Hw Hroom Hi Hr Hl Hli Ht Hd Hpu Hlt Hpl Htp. pose proof (readUpTo_bound _ _ _ _ _ Hr Hi) as Hb.
  pose proof Hr as [Hok Hh Hs _ _ (m & Hm & Hlc & Hk) Hp].
  assert (resolves l p) as Hres by (split; [by rewrite Ht|]; split; [done|]; exists []; by rewrite app_nil_r).
  assert (Log_Index pl = p) as Hpi by (eapply wal_keys; [apply Hw|done..]).
  assert (p ∈ rt_pendingPrepares r) as Hin by (apply Hp; by eapply pendingAt_resolved).
  set (r1 := set_pending r (rt_pendingPrepares r ∖ {[p]})).
  exists (set_nextIndex r1 (i + 1)). split.
  { unfold readLog. rewrite !Ht. rewrite decide_False, decide_False, decide_True by done. unfold wrapping. go_unfold.
    rewrite (getPrepareLog_rollback l p pl r); [|done..|by rewrite Hs]. cbn [snd]. go_unfold. rewrite Hpi.
    rewrite decide_False by (by intros ?). unfold markPrepareFinished. go_unfold.
    fold r1. rewrite (updateNextIndex_eq l r1 i); [done| |done..]. by destruct r. }
  split; [|by destruct r]. apply (readUpTo_next H n w i r _ m); try done; [by destruct r..| |].
  - eapply last_other; try done. by rewrite Ht.
  - intros j. replace (rt_pendingPrepares _) with (rt_pendingPrepares r ∖ {[p]}) by (by destruct r).
    by eapply pending_resolve.
Qed.

Lemma readLog_commit H n w i l m e pl l0 r : growing H → (n <= length H)%nat → WalInv H n w → i + 1 < two64 →
  is_u64 i → readUpTo H n w i r → wal_lookup w i = Some l → Log_Index l = i → Log_Type l = LogCommit →
  (m < n)%nat → H !! m = Some e → en_commit e = i →
  lg_Data l = uint64ToBytes (en_prepare e) ++ uint64ToBytes (prevCommit H m) → en_prepare e < i →
  wal_lookup w (en_prepare e) = Some pl → Log_Type pl = LogPrepare → wal_lookup w (prevCommit H m) = Some l0 →
  ∃ r', readLog l r = (Ok true, r') ∧ readUpTo H n w (i + 1) r' ∧ rt_wal r' = rt_wal r ∧ rt_sh r' = rt_sh r.
Proof.
  intros Hg Hn Hw Hroom Hi Hr Hl Hli Ht Hm He Hei Hd Hlt Hpl Htp Hl0.
  pose proof (readUpTo_bound _ _ _ _ _ Hr Hi) as Hb.
  pose proof Hr as [Hok Hh Hs _ _ (m' & Hm' & Hlc & Hk) Hp].
  destruct (last_commit H n i m m' e) as [-> Hk']; [done..|].
  destruct (Hg _ _ He) as (_ & _ & Hup). pose proof (prevCommit_u64 H m Hg) as Hpu.
  assert (resolves l (en_prepare e)) as Hres by (split; [by rewrite Ht|]; split; [done|]; by eexists).
  assert (Log_Index pl = en_prepare e) as Hpi by (eapply wal_keys; [apply Hw|done..]).
  assert (en_prepare e ∈ rt_pendingPrepares r) as Hin by (apply Hp; by eapply pendingAt_resolved).
  set (r1 := set_pending (set_lastCommit r i) (rt_pendingPrepares r ∖ {[en_prepare e]})).
  exists (set_nextIndex r1 (i + 1)). split.
  { unfold readLog. rewrite !Ht. rewrite decide_False, decide_True by done. unfold wrapping. go_unfold.
    rewrite (getPrepareLog_commit l (en_prepare e) (prevCommit H m) pl l0 r); [|done..|by rewrite Hs|by rewrite Hs].
    cbn [fst snd]. go_unfold. rewrite Hpi, Hli.
    rewrite decide_False by (by intros ?). rewrite decide_False by (by intros ?).
    unfold markPrepareFinished. go_unfold.
    replace (rt_pendingPrepares (set_lastCommit r i)) with (rt_pendingPrepares r) by (by destruct r).
    fold r1. rewrite (updateNextIndex_eq l r1 i); [done| |done..]. by destruct r. }
  split; [|by destruct r]. apply (readUpTo_next H n w i r _ (S m)); try done; [by destruct r..| |].
  - rewrite (prevCommit_S _ _ _ He), Hei. by destruct r.
  - intros j. replace (rt_pendingPrepares _) with (rt_pendingPrepares r ∖ {[en_prepare e]}) by (by destruct r).
    by eapply pending_resolve.
Qed.

Lemma readLog_ok H n w i l r : growing H → (n <= length H)%nat → WalInv H n w → i + 1 < two64 → is_u64 i →
  readUpTo H n w i r → wal_lookup w i = Some l →
  ∃ r', readLog l r = (Ok true, r') ∧ readUpTo H n w (i + 1) r' ∧ rt_wal r' = rt_wal r ∧ rt_sh r' = rt_sh r.
Proof.
  intros Hg Hn Hw Hroom Hi Hr Hl. pose proof (wal_keys _ _ _ (wi_ok _ _ _ Hw) Hi Hl) as Hli.
  destruct (wi_shape _ _ _ Hw i l Hi Hl) as [Ht|p pl Ht Hd Hpu Hlt Hpl Htp|m e pl l0 Ht Hm He Hei Hd Hlt Hpl Htp Hl0].
  - by eapply readLog_prepare.
  - by eapply (readLog_rollback H n w i l p pl).
  - by eapply (readLog_commit H n w i l m e pl l0).
Qed.

(** ** Reading a log to its end *)

Lemma readUpTo_wal H n w b r w1 : readUpTo H n w b r → wal_ok w1 → wal_healthy w1 → wal_same w w1 →
  readUpTo H n w b (set_wal r w1).
Proof. intros [] Hok Hh Hs. destruct r. by split. Qed.

(** The logs [readLogs] has still to read are those of [w] from [b] on. *)
Definition remaining w (b : Z) (ls : list Log) : Prop :=
  StronglySorted Z.lt (Log_Index <$> ls) ∧
  (∀ l, l ∈ ls → b <= Log_Index l ∧ is_u64 (Log_Index l) ∧ wal_lookup w (Log_Index l) = Some l) ∧
  ∀ j l, is_u64 j → wal_lookup w j = Some l → b <= j → l ∈ ls.

Lemma remaining_cons w b l ls : wal_ok w → remaining w b (l :: ls) →
  remaining w (Log_Index l + 1) ls ∧
  ∀ j l', is_u64 j → wal_lookup w j = Some l' → b <= j → Log_Index l <= j.
Proof.
  intros Hok (Hs & Hin & Hall). cbn in Hs. inversion Hs as [|? ? Hs' Hf]; subst. rewrite Forall_forall in Hf.
  assert (∀ l', l' ∈ ls → Log_Index l < Log_Index l') as Hlt.
  { intros l' Hl'. by apply Hf, list_elem_of_fmap_2. }
  split; [split_and!; [done| |]|].
  - intros l' Hl'. destruct (Hin l') as (? & ? & ?); [by right|]. pose proof (Hlt l' Hl'). split_and!; [lia|done..].
  - intros j l' Hj Hl' Hge. assert (l' ∈ l :: ls) as Hl.
    { apply (Hall j); [done..|]. destruct (Hin l) as (? & _); [by left|lia]. }
    apply elem_of_cons in Hl as [->|?]; [|done]. pose proof (wal_keys _ _ _ Hok Hj Hl'). lia.
  - intros j l' Hj Hl' Hge. pose proof (wal_keys _ _ _ Hok Hj Hl') as Hk.
    apply (Hall j) in Hl'; [|done..]. apply elem_of_cons in Hl' as [->|Hl']; [lia|]. pose proof (Hlt l' Hl'). lia.
Qed.

Lemma readLogs_ok H n w ls b r fuel : growing H → (n <= length H)%nat → WalInv H n w →
  (∀ i l, is_u64 i → wal_lookup w i = Some l → i + 1 < two64) →
  readUpTo H n w b r → wal_unread (rt_wal r) = ls → remaining w b ls → (length ls < fuel)%nat →
  ∃ r' b', readLogs fuel r = (Ok tt, r') ∧ readUpTo H n w b' r' ∧ rt_sh r' = rt_sh r ∧
    ∀ j l, is_u64 j → wal_lookup w j = Some l → j < b'.
Proof.
  intros Hg Hn Hw Hroom. revert b r fuel. induction ls as [|l ls IH]; intros b r fuel Hr Hun Hrem Hfuel.
  all: destruct fuel as [|fuel]; [cbn in Hfuel; lia|]; cbn [readLogs].
  all: pose proof (healthy_Read _ (ru_ok _ _ _ _ _ Hr) (ru_healthy _ _ _ _ _ Hr)) as [Hh1 Hres]; rewrite Hun in Hres.
  all: destruct (wal_Read (rt_wal r)) as [res w1] eqn:Hread; cbn in Hres, Hh1; subst res.
  all: destruct (wal_Read_spec _ _ _ (ru_ok _ _ _ _ _ Hr) Hread) as (Hok1 & Hs1 & Hun1).
  all: assert (readUpTo H n w b (set_wal r w1)) as Hr1
    by (apply readUpTo_wal; [done..|intros i Hi; by rewrite Hs1, (ru_same _ _ _ _ _ Hr)]).
  - exists (set_wal r w1), b. unfold onWal. go_unfold. rewrite Hread. split_and!; [done..|by destruct r|].
    intros j l Hj Hl. destruct (Z.lt_ge_cases j b); [done|]. destruct Hrem as (_ & _ & Hall).
    by apply (Hall j l Hj) in Hl as ?%not_elem_of_nil.
  - destruct (remaining_cons w b l ls (wi_ok _ _ _ Hw) Hrem) as [Hrem' Hgap].
    destruct Hrem as (_ & Hin & _). destruct (Hin l) as (Hbl & Hu & Hl); [by left|].
    destruct (readLog_ok H n w (Log_Index l) l (set_wal r w1)) as (r2 & H2 & Hr2 & Hw2 & Hsh2); [done..|by eapply Hroom|done| |done|].
    { by eapply readUpTo_skip. }
    rewrite set_wal_wal in Hw2. rewrite Hun in Hun1. injection Hun1 as Hun1.
    destruct (IH (Log_Index l + 1) r2 fuel) as (r' & b' & Hrd & Hr' & Hsh & Hend);
      [done|by rewrite Hw2|done|cbn in Hfuel; lia|].
    exists r', b'. split_and!; [|done|rewrite Hsh, Hsh2; by destruct r|done].
    unfold onWal. go_unfold. rewrite Hread. go_unfold. by rewrite H2.
Qed.

(** What a runtime rebuilt from the log [w] knows. *)
Definition rebuilt w r : Prop :=
  wal_same w (rt_wal r) ∧
  (∀ i l, is_u64 i → wal_lookup w i = Some l → i < rt_nextIndex r) ∧
  (rt_nextIndex r = 0 ∨ is_u64 (rt_nextIndex r - 1) ∧ is_Some (wal_lookup w (rt_nextIndex r - 1))) ∧
  ∀ i, i ∈ rt_pendingPrepares r ↔ is_u64 i ∧
    (∃ l, wal_lookup w i = Some l ∧ Log_Type l = LogPrepare) ∧
    ∀ j l, is_u64 j → wal_lookup w j = Some l → resolves l i → False.

Lemma NewRuntime_ok H n w w1 cfg s : growing H → (n <= length H)%nat → WalInv H n w →
  (∀ i l, is_u64 i → wal_lookup w i = Some l → i + 1 < two64) →
  wal_ok w1 → wal_fresh w1 → wal_healthy w1 → wal_same w w1 →
  kc_Verify cfg = None → kc_NodeID cfg ∈ kc_Servers cfg →
  ∃ r', NewRuntime (S (length (wal_unread w1))) cfg w1 s = (Ok tt, r') ∧ rebuilt w r' ∧
    rt_lastCommit r' = prevCommit H n ∧ rt_sh r' = s.
Proof.
  intros Hg Hn Hw Hroom Hok Hf Hh Hs Hv Hin. unfold NewRuntime. rewrite Hv, decide_False by (by intros ?).
  set (r0 := MkRuntime 0 0 ∅ _ _ _ _ _ _ _ _). destruct (wal_fresh_spec w1 Hok Hf) as [Hsort Hun].
  destruct (readLogs_ok H n w (wal_unread w1) 0 r0 (S (length (wal_unread w1))))
    as (r' & b' & Hrd & [Hok' _ Hs' Hnx Hnt (m & Hm & Hlc & Hk) Hp] & Hsh & Hend); [done..| |done| |lia|].
  - split; cbn; try done.
    + by left.
    + exists 0%nat. split_and!; [lia|done|]. intros k e _ He. destruct (Hg _ _ He) as (_ & Hu & _).
      unfold is_u64 in Hu. lia.
    + intros i. rewrite elem_of_empty. split; [done|]. intros (Hu & Hlt & _). unfold is_u64 in Hu. lia.
  - split_and!; [done| |].
    + intros l (Hu & Hl)%Hun. rewrite Hs in Hl by done. unfold is_u64 in Hu. split_and!; [lia|unfold is_u64;lia|done].
    + intros j l Hj Hl _. rewrite <- Hs in Hl by done. apply Hun. rewrite (wal_keys w1 j l) by done. done.
  - exists r'. split; [done|]. split; [|split; [|by rewrite Hsh]].
    + split_and!; [done|intros i l Hi Hl; eapply Hnx; [done..|by eapply Hend]| |].
      * destruct Hnt as [?|(? & ? & _)]; [by left|by right].
      * intros i. rewrite Hp. split; [intros (Hu & _ & Hx & Hr)|intros (Hu & Hx & Hr)].
        { split_and!; [done..|]. intros j l Hj Hl. eapply Hr; [done..|by eapply Hend]. }
        { split_and!; [done| |done|]; [destruct Hx as (l & Hl & _); by eapply Hend|]. intros j l Hj Hl _. by eapply Hr. }
    + rewrite Hlc. f_equal. destruct (Nat.lt_ge_cases m n) as [Hlt|]; [|lia].
      destruct (lookup_lt_is_Some_2 H m) as [e He]; [lia|]. destruct (wi_complete _ _ _ Hw m e Hlt He) as (l & Hl & _).
      destruct (Hg _ _ He) as (_ & Hu & _). pose proof (Hend _ l Hu Hl) as Hb. apply (Hk m e Hlt He) in Hb. lia.
Qed.

Lemma leader_room s0 H r : LeaderInv s0 H r → ∀ i l, is_u64 i → wal_lookup (rt_wal r) i = Some l → i + 1 < two64.
Proof.
  intros Hinv i l Hi Hl. pose proof (li_next _ _ _ Hinv) as Hn. unfold is_u64 in Hn.
  assert (i < rt_nextIndex r) by (apply (li_dense _ _ _ Hinv); eauto). lia.
Qed.

(** ** Theorems *)

(** C7: A leader that stops at any point of any run and is started again on its
    log takes up where it stopped.  [NewRuntime] reads the whole log, one step per
    log, without error, and the rebuilt runtime has the last commit and the next
    index the leader had; its pending prepares are exactly the prepare logs that
    no commit or rollback log names. *)
Theorem leader_restart s0 t0 (s s' : system W St Req) w cfg st : initial s0 t0 s → rtc step s s' →
  wal_ok w → wal_fresh w → wal_healthy w → wal_same (rt_wal (sy_leader s')) w →
  kc_Verify cfg = None → kc_NodeID cfg ∈ kc_Servers cfg →
  ∃ r, NewRuntime (S (length (wal_unread w))) cfg w st = (Ok tt, r) ∧
    rt_lastCommit r = rt_lastCommit (sy_leader s') ∧ rt_nextIndex r = rt_nextIndex (sy_leader s') ∧
    rebuilt (rt_wal (sy_leader s')) r ∧ rt_sh r = st.
Proof.
  intros Hinit Hs Hok Hf Hh Hsame Hv Hin.
  destruct (steps_simulate _ _ _ _ _ (implements_initial _ _ _ Hinit) Hs) as (a & _ & H & _ & Hl & _ & _).
  destruct (NewRuntime_ok H (length H) (rt_wal (sy_leader s')) w cfg st) as (r & Hr & Hreb & Hlc & Hst);
    [apply Hl|done|apply Hl|by eapply leader_room|done..|].
  exists r. split_and!; [done|by rewrite Hlc, (li_last _ _ _ Hl)| |done..].
  destruct Hreb as (_ & Hnx & Hnt & _). pose proof (li_next _ _ _ Hl) as Hu. pose proof (li_dense _ _ _ Hl) as Hd.
  assert (rt_nextIndex r <= rt_nextIndex (sy_leader s')).
  { destruct Hnt as [->|[Hu' Hsome]]; [apply Hu|]. apply Hd in Hsome; [lia|done]. }
  destruct (Z.lt_ge_cases (rt_nextIndex r) (rt_nextIndex (sy_leader s'))) as [Hlt|]; [|lia].
  assert (0 <= rt_nextIndex r) by (destruct Hnt as [->|[[? ?] _]]; lia).
  assert (is_u64 (rt_nextIndex r)) as Hur by (unfold is_u64 in *; lia).
  apply Hd in Hlt as [l Hlk]; [|done]. specialize (Hnx _ l Hur Hlk). lia.
Qed.

(** C8: A follower restarted on its log resumes after the last request it
    committed: reading the log succeeds, and the rebuilt runtime has the last
    commit the follower had, so that the commit it accepts next is the next one of
    the leader's sequence. *)
Theorem follower_restart s0 t0 (s s' : system W St Req) f fn w cfg st : initial s0 t0 s → rtc step s s' →
  sy_followers s' !! f = Some fn →
  wal_ok w → wal_fresh w → wal_healthy w → wal_same (rt_wal (fn_rt fn)) w →
  kc_Verify cfg = None → kc_NodeID cfg ∈ kc_Servers cfg →
  ∃ r, NewRuntime (S (length (wal_unread w))) cfg w st = (Ok tt, r) ∧
    rt_lastCommit r = rt_lastCommit (fn_rt fn) ∧ rebuilt (rt_wal (fn_rt fn)) r ∧ rt_sh r = st.
Proof.
  intros Hinit Hs Hf Hok Hfr Hh Hsame Hv Hin.
  destruct (steps_simulate _ _ _ _ _ (implements_initial _ _ _ Hinit) Hs) as (a & _ & H & _ & Hl & _ & Hfs).
  specialize (Hfs f). rewrite Hf in Hfs. destruct (Replication.position a !! f) as [n|]; [|done].
  destruct (NewRuntime_ok H n (rt_wal (fn_rt fn)) w cfg st) as (r & Hr & Hreb & Hlc & Hst);
    [apply Hl|apply Hfs|apply Hfs| |done..|].
  - intros i l Hi Hlk. destruct (fi_sub _ _ _ _ _ Hfs i l Hi Hlk) as (l' & Hl' & _). by eapply leader_room.
  - exists r. split_and!; [done|by rewrite Hlc, (fi_last _ _ _ _ _ Hfs)|done..].
Qed.
End restart.
