(* ===== verification/KayakApply.v ===== *)
(** * kayak: the requests of a leader

    When the answers of the followers suffice for a commit ([tracker.go],
    [rpc.go]), and what [Apply] of [runtime.go] leaves behind on each of its
    outcomes. *)
From S2P Require Import Prelude Types KayakWal Kayak KayakInv KayakProps.
From Stdlib Require Import String ZArith Lia.
From stdpp Require Import base list gmap strings.
Local Open Scope Z_scope.
#[local] Opaque uint64ToBytes.

(** ** Trackers *)

(** The tracker after the given answers. *)
Definition tracked (followers : list NodeID) (minCount : Z) (answers : list (NodeID * option kerror)) : rpcTracker :=
  foldl (λ t a, callSingle t a.1 a.2) (tracker_send (newTracker followers minCount)) answers.

(** The answers a tracker waits for. *)
Definition quorum (followers : list NodeID) (minCount : Z) : Z :=
  Z.max 0 (Z.min minCount (Z.of_nat (length followers))).

Lemma tracked_fields followers minCount answers :
  let t := tracked followers minCount answers in
  tk_nodes t = followers ∧ tk_minCount t = quorum followers minCount ∧
  tk_errors t = list_to_map (reverse answers) ∧ tk_complete t = Z.of_nat (length answers) ∧
  tk_done t = bool_decide (quorum followers minCount <= Z.of_nat (length answers)).
Proof.
  assert (tk_minCount (newTracker followers minCount) = quorum followers minCount) as Hq.
  { unfold newTracker, quorum. cbn. repeat case_decide; lia. }
  induction answers as [|a answers IH] using rev_ind; cbn zeta.
  - unfold tracked, tracker_send. cbn -[newTracker]. case_decide as H0; cbn; (split; [done|]).
    + split_and!; [done..|]. rewrite Hq in H0. by rewrite H0.
    + split_and!; [done..|]. symmetry. apply bool_decide_eq_false. unfold quorum in *. cbn in *. lia.
  - cbn zeta in IH. destruct IH as (Hn & Hm & He & Hc & Hd). unfold tracked in *. rewrite foldl_app. cbn.
    split_and!; [done..| | |].
    + rewrite He, reverse_snoc. by destruct a.
    + rewrite Hc, length_app. cbn. lia.
    + rewrite Hd, Hc, Hm, length_app. cbn. repeat case_bool_decide; cbn; lia || done.
Qed.

Lemma NoDup_answers (answers : list (NodeID * option kerror)) : NoDup answers.*1 → NoDup (reverse answers).*1.
Proof. intros Hnd. by rewrite fmap_reverse, reverse_Permutation. Qed.

Lemma size_answers (answers : list (NodeID * option kerror)) : NoDup answers.*1 →
  size (list_to_map (reverse answers) : gmap NodeID (option kerror)) = length answers.
Proof. intros Hnd. by rewrite map_size_list_to_map, length_reverse by (by apply NoDup_answers). Qed.

Lemma errorSummary_None (answers : list (NodeID * option kerror)) : NoDup answers.*1 →
  errorSummary (list_to_map (reverse answers)) = None ↔ Forall (λ a, a.2 = None) answers.
Proof.
  intros Hnd. unfold errorSummary. rewrite Forall_forall. case_decide as Hs.
  - split; [|done]. intros _ [f o] Hin. cbn. apply map_size_empty_inv in Hs. destruct o as [e|]; [|done]. exfalso.
    eapply (map_filter_empty_not_lookup _ _ f (Some e) Hs); [done|].
    apply elem_of_list_to_map_1; [by apply NoDup_answers|by apply elem_of_reverse].
  - split; [done|]. intros Hall. destruct Hs. apply map_size_empty_iff, map_empty. intros f.
    apply map_lookup_filter_None. right. intros o Hl Hne. apply Hne.
    apply elem_of_list_to_map_2 in Hl. rewrite elem_of_reverse in Hl. by apply (Hall (f, o)).
Qed.

(** The leader commits exactly when enough followers have answered and none
    of the answers is an error; with too few answers it reports a timeout, with
    enough of which one is an error it reports that the prepare failed.  Enough
    is the configured number, cut down to the number of followers. *)
Theorem prepareOutcome_spec followers minCount answers : NoDup answers.*1 →
  prepareOutcome (tracked followers minCount answers) =
    if decide (Z.of_nat (length answers) < quorum followers minCount) then Some ErrPrepareTimeout
    else if decide (Forall (λ a, a.2 = None) answers) then None else Some (KWrap ErrPrepareFailed).
Proof.
  intros Hnd. destruct (tracked_fields followers minCount answers) as (_ & Hm & He & _ & Hd).
  unfold prepareOutcome, tracker_get. rewrite Hm, He, Hd, size_answers by done.
  repeat case_bool_decide; cbn; try lia; [|by rewrite decide_True by lia].
  rewrite (decide_False (P := _ < _)) by lia.
  case_decide as Hf; [by apply errorSummary_None|].
  rewrite <- errorSummary_None in Hf by done. unfold errorSummary in *. by case_decide.
Qed.

(** Two of three followers suffice, even when one of them has failed to answer. *)
Lemma prepareOutcome_spec_witness :
  prepareOutcome (tracked ["a"; "b"; "c"]%string 2 [("c"%string, None); ("a"%string, None)]) = None.
Proof.
  rewrite (prepareOutcome_spec ["a"; "b"; "c"]%string 2 [("c"%string, None); ("a"%string, None)]).
  - vm_compute. reflexivity.
  - apply (bool_decide_unpack _). vm_compute. exact I.
Defined.

(** ** Apply *)

Section apply.
Context {W : Type} `{!Wal W} {St Req Resp : Type} `{!Handler St Req Resp}.
Implicit Types (r : Runtime W St) (l : Log).

(** The request was committed: the service executed it, the log holds its prepare
    log and a commit log that names it and the commit before it. *)
Definition committedBy (req : Req) r r' (out : GoResult kerror Resp) : Prop :=
  Commit req true (Check req (rt_sh r)).2 = (out, rt_sh r') ∧
  rt_lastCommit r' = rt_nextIndex r + 1 ∧ rt_nextIndex r' = rt_nextIndex r + 2 ∧
  (∃ pl, wal_lookup (rt_wal r') (rt_nextIndex r) = Some pl ∧ Log_Type pl = LogPrepare ∧
     DecodePayload (lg_Data pl) = Some req) ∧
  ∃ cl, wal_lookup (rt_wal r') (rt_nextIndex r + 1) = Some cl ∧ Log_Type cl = LogCommit ∧
    lg_Data cl = uint64ToBytes (rt_nextIndex r) ++ uint64ToBytes (rt_lastCommit r).

(** The request was at most checked, and no commit was logged. *)
Definition untouched (req : Req) r r' : Prop :=
  (rt_sh r' = rt_sh r ∨ rt_sh r' = (Check req (rt_sh r)).2) ∧ rt_lastCommit r' = rt_lastCommit r ∧
  ∀ i l, is_u64 i → wal_lookup (rt_wal r') i = Some l → Log_Type l = LogCommit → wal_lookup (rt_wal r) i = Some l.

Lemma leaderPrepare_effect req r l r' : wal_ok (rt_wal r) → is_u64 (rt_nextIndex r) → rt_nextIndex r + 1 < two64 →
  leaderPrepare req r = (Ok l, r') →
  wal_ok (rt_wal r') ∧ wal_put (rt_wal r) l (rt_wal r') ∧ Log_Index l = rt_nextIndex r ∧ Log_Type l = LogPrepare ∧
  DecodePayload (lg_Data l) = Some req ∧ rt_nextIndex r' = rt_nextIndex r + 1 ∧
  rt_lastCommit r' = rt_lastCommit r ∧ rt_sh r' = (Check req (rt_sh r)).2.
Proof.
  intros Hok Hn Hroom (enc & r1 & pp & Henc & Hnew & ->)%leaderPrepare_inv. unfold checked in Hnew.
  apply newLog_effect in Hnew as (Hok1 & Hput & Hi & Ht & Hd & Hn1 & Hlc & Hsh & _); [|by destruct r..].
  destruct r, r1; cbn in *. split_and!; try done. rewrite Hd. by apply Decode_EncodePayload.
Qed.

Lemma leaderDoCommit_no_error req i r e r' : leaderDoCommit req i r = (Err e, r') → False.
Proof.
  unfold leaderDoCommit, newLog, onWal, doCommit. go_unfold. destruct (wal_Write _ _) as [[| |] ?]; try done.
  by destruct (Commit _ _ _) as [[| |] ?].
Qed.

(** The commit phase of [Apply]. *)
Lemma leaderDoCommit_effect req r l r1 out r2 : wal_ok (rt_wal r) → is_u64 (rt_nextIndex r) →
  rt_nextIndex r + 2 < two64 → leaderPrepare req r = (Ok l, r1) →
  leaderDoCommit req (Log_Index l) r1 = (Ok out, r2) →
  committedBy req r r2 out.1 ∧ out.2 = rt_nextIndex r + 1.
Proof.
  intros Hok Hn Hroom Hp Hc. unfold is_u64 in Hn.
  apply leaderPrepare_effect in Hp as (Hok1 & Hput & Hi & Ht & Hd & Hn1 & Hlc & Hsh); [|done|done|lia].
  pose proof Hc as Hc'. apply leaderDoCommit_inv in Hc as (cl & r3 & Hnew & Hnp & ->).
  unfold leaderDoCommit, doCommit in Hc'. go_unfold in Hc'. rewrite Hnew in Hc'.
  apply newLog_effect in Hnew as (Hok3 & Hput3 & Hi3 & Ht3 & Hd3 & Hn3 & Hlc3 & Hsh3 & _);
    [|done|rewrite Hn1; unfold is_u64; lia|lia].
  rewrite Hsh3, Hsh in *. 
  destruct (Commit req true (Check req (rt_sh r)).2) as [x s] eqn:Hcm.
  assert (x = out.1 ∧ out.2 = Log_Index cl) as [-> Hout2] by (destruct x; [injection Hc' as <-; done..|done]). clear Hc'.
  assert (is_u64 (rt_nextIndex r) ∧ is_u64 (rt_nextIndex r + 1)) as [Hu Hu1] by (unfold is_u64; lia).
  rewrite Hn1 in Hi3. cbn [fst snd]. split; [|congruence]. destruct r3; cbn in *. split; [done|].
  split_and!; [done|cbn; lia|exists l|exists cl]; cbn.
  - split_and!; [|done..]. eapply wal_put_mono; [exact Hput3|done|]. rewrite <- Hi in *. by eapply wal_put_new.
  - rewrite <- Hi3, <- Hlc, <- Hi in *. split_and!; [|done..]. by eapply wal_put_new.
Qed.

Lemma untouched_put req r l r' : wal_put (rt_wal r) l (rt_wal r') → Log_Type l ≠ LogCommit →
  rt_lastCommit r' = rt_lastCommit r → rt_sh r' = rt_sh r ∨ rt_sh r' = (Check req (rt_sh r)).2 → untouched req r r'.
Proof.
  intros Hput Ht Hlc Hsh. split_and!; [done..|]. intros i l' Hi Hl' Ht'.
  by destruct (wal_put_inv _ _ _ _ _ Hput Hi Hl') as [[-> ->]|?].
Qed.

Lemma untouched_put_after req r1 r2 l r3 : untouched req r1 r2 → wal_put (rt_wal r2) l (rt_wal r3) → Log_Type l ≠ LogCommit →
  rt_lastCommit r3 = rt_lastCommit r2 → rt_sh r3 = rt_sh r2 → untouched req r1 r3.
Proof.
  intros (H1 & H2 & H3) Hput Ht Hlc Hsh. rewrite <- Hsh in H1. split_and!; [done|congruence|]. intros i l' Hi Hl' Ht'.
  destruct (wal_put_inv _ _ _ _ _ Hput Hi Hl') as [[-> ->]|?]; [done|eauto].
Qed.

Lemma untouched_pending req r r' pp : untouched req r r' → untouched req r (set_pending r' pp).
Proof. destruct r'. by intros (? & ? & ?). Qed.
Lemma committedBy_pending req r r' out pp : committedBy req r r' out → committedBy req r (set_pending r' pp) out.
Proof. destruct r'. by intros (? & ? & ? & ? & ?). Qed.

(** C9: [Apply] commits a request or leaves no trace of it in what is replicated, and
    its error says which, but for two cases that are named.  When it returns a result,
    the request was checked and executed once, after every earlier commit, and the log
    holds its prepare and commit logs at the next two indices.  When it returns an error,
    then either the service has at most checked the request (which may record it, as
    the sequence number of a connection is), the last commit is as before and no commit
    was logged, and a runtime that is stopped or not the leader is not changed at all; or
    the request was committed as above and the error is that of the service's own
    commit; or the context ended after the commit was handed to the commit cycle, where
    the request is executed all the same. *)
Theorem Apply_atomic req answers wait r res r' : wal_ok (rt_wal r) → is_u64 (rt_nextIndex r) →
  rt_nextIndex r + 2 < two64 → Apply req answers wait r = (res, r') →
  match res with
  | Ok (out, i) => rt_started r = 1 ∧ rt_role r = Leader ∧ i = rt_nextIndex r + 1 ∧ wait = GotResult ∧
      prepareOutcome (tracked (rt_followers r) (rt_minPreparedFollowers r) answers) = None ∧
      committedBy req r r' (Ok out)
  | Err e => untouched req r r' ∧ ((rt_started r ≠ 1 ∨ rt_role r ≠ Leader) → r' = r) ∨
      wait = GotResult ∧ committedBy req r r' (Err e) ∨
      wait = NoResult ∧ ∃ out, committedBy req r r' out
  | Panic => True
  end.
Proof.
  intros Hok Hn Hroom. unfold is_u64 in Hn. unfold Apply. go_unfold.
  assert (untouched req r r) as Hself by (split; [by left|done]).
  case_decide as Hst; [intros [= <- <-]; left; done|]. case_decide as Hro; [intros [= <- <-]; left; done|].
  assert (∀ r1, (rt_started r ≠ 1 ∨ rt_role r ≠ Leader) → r1 = r) as Hlive by (intros r1 [?|?]; done).
  fold (tracked (rt_followers r) (rt_minPreparedFollowers r) answers).
  destruct (leaderPrepare req r) as [[l|e|] r1] eqn:Hp; [| |by intros [= <- <-]].
  2:{ intros [= <- <-]. apply leaderPrepare_fails in Hp as ->. left. split; [|exact (Hlive _)].
      unfold checked. destruct r. split; [by right|done]. }
  pose proof Hp as (Hok1 & Hput & Hi & Ht & _ & Hn1 & Hlc & Hsh)%leaderPrepare_effect; [|done|done|lia].
  assert (untouched req r r1) as Hun by (eapply untouched_put; [done|by rewrite Ht|done|by right]).
  destruct (prepareOutcome _) as [e|] eqn:Ho.
  - destruct (doLeaderRollback l r1) as [[rl|e'|] r2] eqn:Hrb.
    + unfold doLeaderRollback in Hrb.
      apply newLog_effect in Hrb as (_ & Hput2 & _ & Ht2 & _ & _ & Hlc2 & Hsh2 & _);
        [|done|rewrite Hn1; unfold is_u64; lia|lia].
      intros [= <- <-]. left. split; [|exact (Hlive _)]. apply untouched_pending. 
      eapply untouched_put_after; try done. by rewrite Ht2.
    + exfalso. unfold doLeaderRollback, newLog, onWal in Hrb. go_unfold in Hrb.
      by destruct (wal_Write _ _) as [[| |] ?].
    + by intros [= <- <-].
  - destruct wait.
    + intros [= <- <-]. left. split; [by apply untouched_pending|exact (Hlive _)].
    + destruct (leaderDoCommit req (Log_Index l) r1) as [[out|e|] r2] eqn:Hc; [| |by intros [= <- <-]].
      * intros [= <- <-]. right. right. split; [done|]. exists out.1.
        apply committedBy_pending. by destruct (leaderDoCommit_effect req r l r1 out r2).
      * exfalso. by apply leaderDoCommit_no_error in Hc.
    + destruct (leaderDoCommit req (Log_Index l) r1) as [[[out i]|e|] r2] eqn:Hc; [| |by intros [= <- <-]].
      * destruct (leaderDoCommit_effect req r l r1 (out, i) r2) as [Hcm Hidx]; [done..|].
        cbn [fst snd] in *. destruct out as [out|e|]; intros [= <- <-]; [| |done].
        -- split_and!; [lia|by destruct (rt_role r)|done..|by apply committedBy_pending].
        -- right. left. split; [done|]. by apply committedBy_pending.
      * exfalso. by apply leaderDoCommit_no_error in Hc.
Qed.
End apply.
