(* ===== verification/KayakSample.v ===== *)
(** * A concrete kayak cluster

    A codec for log headers, a service that keeps a list of numbers, and a run of a leader with one follower in which
    logs arrive late and out of order; the theorems about kayak on that run. *)
From S2P Require Import Prelude Types Bytes LevelDB KayakWal Kayak KayakInv KayakProps KayakRestart KayakApply.
From Stdlib Require Import String ZArith Lia Sorting.Sorted.
From Corelib Require Import SpecFloat.
From stdpp Require Import base list gmap strings sorting relations.
Local Open Scope Z_scope.

(** ** Codecs *)

Definition encodeHeader (h : LogHeader) : option (list Z) :=
  if decide (lg_Producer h = "leader"%string)
  then Some [lg_Index h; lg_Version h; lg_Type h; lg_DataLength h] else None.
Definition decodeHeader (b : list Z) : option LogHeader :=
  match b with [i; v; t; n] => Some (MkLogHeader i v t "leader" n) | _ => None end.
Lemma decode_encodeHeader h enc : encodeHeader h = Some enc → decodeHeader enc = Some h.
Proof. unfold encodeHeader. case_decide as Hp; [|done]. intros [= <-]. destruct h. cbn in *. by rewrite Hp. Qed.
#[export] Instance sampleMsgPackHeader : MsgPack LogHeader :=
  {| EncodeMsgPack := encodeHeader; DecodeMsgPack := decodeHeader; Decode_Encode := decode_encodeHeader |}.

Lemma decode_encodeBytes (b enc : list Z) : Some b = Some enc → Some enc = Some b.
Proof. congruence. Qed.
#[export] Instance sampleMsgPackBytes : MsgPack (list Z) :=
  {| EncodeMsgPack := Some; DecodeMsgPack := Some; Decode_Encode := decode_encodeBytes |}.

(** ** A service *)

Lemma sample_decode (r : Z) (enc : list Z) : Some [r] = Some enc → match enc with [r] => Some r | _ => None end = Some r.
Proof. by intros [= <-]. Qed.
(** Requests are numbers, negative ones are refused, and the state lists them. *)
#[export] Instance sampleHandler : Handler (list Z) Z nat := {|
  EncodePayload := λ r, Some [r];
  DecodePayload := λ b, match b with [r] => Some r | _ => None end;
  Check := λ r s, (if decide (r < 0) then Some (KNew "negative") else None, s);
  Commit := λ r _ s, (Ok (length s), s ++ [r]);
  Decode_EncodePayload := sample_decode;
|}.

(** ** A run *)

Abbreviation sampleWal := (LevelDBWal.LevelDBWal (D := gmap (list Z) (list Z))).
Definition emptyWal : sampleWal := LevelDBWal.NewLevelDBWal (∅ : gmap (list Z) (list Z)).
Definition sampleRuntime (id : NodeID) (role : ServerRole) : Runtime sampleWal (list Z) :=
  MkRuntime 0 0 ∅ id emptyWal [] role ["f"%string] 1 1 1.

Definition sampleSystem : system sampleWal (list Z) Z :=
  MkSystem (sampleRuntime "leader" Leader) [] {["f"%string := MkFnode (sampleRuntime "f" Follower) [] []]}.

Lemma emptyWal_empty : emptyLog emptyWal.
Proof.
  split; [split|]; cbn.
  - intros k v. by rewrite lookup_empty.
  - done.
  - intros i _. unfold LevelDBWal.content. cbn. by rewrite lookup_empty.
Qed.

Lemma sample_initial : initial [] (λ _, []) sampleSystem.
Proof.
  split; [split; [apply emptyWal_empty|done]|]. split; [done|]. intros f fn. cbn.
  rewrite lookup_singleton_Some. intros [<- <-]. split; [split; [apply emptyWal_empty|done]|done].
Qed.

Definition after {S E A} (m : GoM S E A) (s : S) : S := (m s).2.
Lemma ran {S E A} (m : GoM S E A) s res : (m s).1 = res → m s = (res, after m s).
Proof. unfold after. destruct (m s). cbn. by intros ->. Qed.

Definition sampleLog (i ty : Z) (data : list Z) : Log :=
  MkLog (MkLogHeader i 0 ty "leader" (Z.of_nat (length data))) data.
Definition log0 := sampleLog 0 LogPrepare [7].
Definition log1 := sampleLog 1 LogPrepare [8].
Definition log2 := sampleLog 2 LogCommit (uint64ToBytes 1 ++ uint64ToBytes 0).
Definition log3 := sampleLog 3 LogCommit (uint64ToBytes 0 ++ uint64ToBytes 2).
Definition log4 := sampleLog 4 LogPrepare [9].
Definition log5 := sampleLog 5 LogRollback (uint64ToBytes 4).
Definition cycle2 : commitReq Z := MkCommitReq 8 1 0 log2.
Definition cycle3 : commitReq Z := MkCommitReq 7 0 2 log3.

(** The leader prepares 7 and 8, commits 8 and then 7, prepares 9 and rolls it
    back. *)
Definition leaderA := after (leaderPrepare 7) (sampleRuntime "leader" Leader).
Definition leaderB := after (leaderPrepare 8) leaderA.
Definition leaderC := after (leaderDoCommit 8 1) leaderB.
Definition leaderD := after (leaderDoCommit 7 0) leaderC.
Definition leaderE := after (leaderPrepare 9) leaderD.
Definition leaderF := after (doLeaderRollback log4) leaderE.

(** The follower gets the second commit too early, and the prepares in the wrong
    order. *)
Definition followerA := after (followerApply (Some log3) true) (sampleRuntime "f" Follower).
Definition followerB := after (followerApply (Some log1) true) followerA.
Definition followerC := after (followerApply (Some log0) true) followerB.
Definition followerD := after (followerApply (Some log2) true) followerC.
Definition followerE := after (followerDoCommit cycle2) followerD.

Abbreviation fs0 := {["f"%string := MkFnode (sampleRuntime "f" Follower) [] []]}.
Definition followersAt (r : Runtime sampleWal (list Z)) (q d : list (commitReq Z))
    (fs : gmap NodeID (fnode sampleWal (list Z) Z)) := <["f"%string := MkFnode r q d]> fs.
Definition fsA := followersAt followerA [] [] fs0.
Definition fsB := followersAt followerB [] [] fsA.
Definition fsC := followersAt followerC [] [] fsB.
Definition fsD := followersAt followerD [cycle2] [] fsC.
Definition fsE := followersAt followerE [] [cycle2] fsD.
Definition systemF : system sampleWal (list Z) Z := MkSystem leaderF [] fs0.
Definition systemE : system sampleWal (list Z) Z := MkSystem leaderF [] fsE.

(** A step to the state [r], which is defined as the one the operation leaves. *)
Ltac evaluates r := unfold r; apply ran; vm_compute; reflexivity.

Lemma sample_leader_run : rtc step sampleSystem systemF.
Proof.
  eapply rtc_l; [eapply (step_prepare _ _ _ 7 log0 leaderA); [vm_compute; reflexivity|evaluates leaderA]|].
  eapply rtc_l; [eapply (step_prepare _ _ _ 8 log1 leaderB); [vm_compute; reflexivity|evaluates leaderB]|].
  eapply rtc_l; [eapply (step_commit _ _ _ 0 log1 8 _ leaderC); [vm_compute; reflexivity|reflexivity|evaluates leaderC]|].
  eapply rtc_l; [eapply (step_commit _ _ _ 0 log0 7 _ leaderD); [vm_compute; reflexivity|reflexivity|evaluates leaderD]|].
  eapply rtc_l; [eapply (step_prepare _ _ _ 9 log4 leaderE); [vm_compute; reflexivity|evaluates leaderE]|].
  eapply rtc_l; [eapply (step_rollback _ _ _ 0 log4 9 log5 leaderF); [vm_compute; reflexivity|reflexivity|evaluates leaderF]|].
  reflexivity.
Qed.

Lemma sample_follower_run : rtc step systemF systemE.
Proof.
  eapply rtc_l; [eapply (step_deliver _ _ _ "f" _ 3 log3 true _ followerA); [done|vm_compute; reflexivity|apply lookup_singleton_eq|evaluates followerA]|].
  eapply rtc_l; [eapply (step_deliver _ _ _ "f" _ 1 log1 true _ followerB); [done|vm_compute; reflexivity|apply lookup_insert_eq|evaluates followerB]|].
  eapply rtc_l; [eapply (step_deliver _ _ _ "f" _ 0 log0 true _ followerC); [done|vm_compute; reflexivity|apply lookup_insert_eq|evaluates followerC]|].
  eapply rtc_l; [eapply (step_deliver _ _ _ "f" _ 2 log2 true _ followerD); [done|vm_compute; reflexivity|apply lookup_insert_eq|evaluates followerD]|].
  eapply rtc_l; [eapply (step_cycle _ _ _ "f" _ 0 cycle2 _ followerE); [apply lookup_insert_eq|reflexivity|evaluates followerE|discriminate]|].
  reflexivity.
Qed.

(** ** The theorems on the run *)

Lemma sample_run : rtc step sampleSystem systemE.
Proof. by etrans; [apply sample_leader_run|apply sample_follower_run]. Qed.

Lemma replication_refines_witness : ∃ a : Replication.state Z,
  rtc Replication.step (Replication.MkState [] ((λ _, 0%nat) <$> sy_followers sampleSystem)) a ∧
  executes true [] (Replication.log a) (rt_sh (sy_leader systemE)).
Proof.
  destruct (replication_refines [] (λ _, []) sampleSystem systemE sample_initial sample_run) as (a & Ha & Hs & _). exists a. split; [exact Ha|exact Hs].
Defined.

(** The leader has executed 8 and 7, the follower only 8. *)
Lemma replicas_agree_witness : ∃ reqs n,
  rt_sh (sy_leader systemE) = [8; 7] ∧ executes true [] reqs (rt_sh (sy_leader systemE)) ∧
  rt_sh followerE = [8] ∧ executes false [] (take n reqs) (rt_sh followerE).
Proof.
  destruct (replicas_agree [] (λ _, []) sampleSystem systemF systemE "f"
    (MkFnode (sampleRuntime "f" Follower) [] []) (MkFnode followerE [] [cycle2])
    sample_initial sample_leader_run sample_follower_run)
    as (reqs1 & reqs & n1 & n & _ & _ & _ & _ & _ & Hl & _ & Hf & _).
  - apply lookup_singleton_eq.
  - apply lookup_insert_eq.
  - cbn [fn_rt] in Hf. exists reqs, n.
    split; [vm_compute; reflexivity|]. split; [exact Hl|]. split; [vm_compute; reflexivity|exact Hf].
Defined.

(** Opening the store of a log again. *)
Definition reopen (w : sampleWal) : sampleWal := LevelDBWal.NewLevelDBWal (LevelDBWal.db w).
Lemma reopen_ok w : wal_ok w → wal_ok (reopen w).
Proof. intros [Hm _]. by split. Qed.

#[local] Existing Instance healthy_levelDBWal.
#[local] Instance sampleHealthy : HealthyWal sampleWal := healthy_levelDBWal sample_reads.

Definition sampleConfig (id : NodeID) : RuntimeConfig :=
  MkRuntimeConfig (float_of_u64 1) (float_of_u64 1) "leader" ["leader"; "f"]%string None id.

Lemma leader_restart_witness : ∃ r,
  NewRuntime 7 (sampleConfig "leader") (reopen (rt_wal leaderF)) ([] : list Z) = (Ok tt, r) ∧
  rt_lastCommit r = 3 ∧ rt_nextIndex r = 6.
Proof.
  destruct (leader_restart [] (λ _, []) sampleSystem systemE (reopen (rt_wal leaderF)) (sampleConfig "leader") []
    sample_initial sample_run) as (r & Hr & Hlc & Hn & _).
  - apply reopen_ok. destruct (steps_simulate _ _ _ _ _ (implements_initial _ _ _ sample_initial) sample_run)
      as (a & _ & H & _ & Hl & _). apply Hl.
  - reflexivity.
  - reflexivity.
  - intros i _. reflexivity.
  - reflexivity.
  - apply (bool_decide_unpack _). vm_compute. exact I.
  - exists r. split; [exact Hr|]. rewrite Hlc, Hn. vm_compute. split; reflexivity.
Defined.

Lemma follower_restart_witness : ∃ r,
  NewRuntime 4 (sampleConfig "f") (reopen (rt_wal followerE)) ([] : list Z) = (Ok tt, r) ∧ rt_lastCommit r = 2.
Proof.
  destruct (follower_restart [] (λ _, []) sampleSystem systemE "f" (MkFnode followerE [] [cycle2])
    (reopen (rt_wal followerE)) (sampleConfig "f") [] sample_initial sample_run) as (r & Hr & Hlc & _).
  - apply lookup_insert_eq.
  - apply reopen_ok. destruct (steps_simulate _ _ _ _ _ (implements_initial _ _ _ sample_initial) sample_run)
      as (a & _ & H & _ & _ & _ & Hfs).
    specialize (Hfs "f"%string). unfold systemE, fsE, followersAt in Hfs. cbn [sy_followers] in Hfs.
    rewrite lookup_insert_eq in Hfs. destruct (Replication.position a !! "f"%string); [|destruct Hfs].
    apply Hfs.
  - reflexivity.
  - reflexivity.
  - intros i _. reflexivity.
  - reflexivity.
  - apply (bool_decide_unpack _). vm_compute. exact I.
  - exists r. split; [exact Hr|]. rewrite Hlc. vm_compute. reflexivity.
Defined.

Lemma Apply_atomic_witness :
  let r := sampleRuntime "leader" Leader in
  committedBy 7 r (after (Apply 7 [("f"%string, None)] GotResult) r) (Ok 0%nat).
Proof.
  intros r. pose proof (Apply_atomic 7 [("f"%string, None)] GotResult r (Ok (0%nat, 1))
    (after (Apply 7 [("f"%string, None)] GotResult) r)) as Hap.
  destruct Hap as (_ & _ & _ & _ & _ & Hc); [apply emptyWal_empty|done|done| |exact Hc].
  apply ran. vm_compute. reflexivity.
Defined.

(** ** A log that is not read to its end *)

(** A store with a prepare log, its commit, a second prepare log, a commit that
    names 0 instead of 1 as the commit before it, and a third prepare log. *)
Definition brokenLogs : list Log :=
  [sampleLog 0 LogPrepare [7]; sampleLog 1 LogCommit (uint64ToBytes 0 ++ uint64ToBytes 0);
   sampleLog 2 LogPrepare [8]; sampleLog 3 LogCommit (uint64ToBytes 2 ++ uint64ToBytes 0);
   sampleLog 4 LogPrepare [9]].
Definition brokenWal : sampleWal := reopen (foldl (λ w l, after (LevelDBWal.Write l) w) emptyWal brokenLogs).

(** [readLogs] reports no error on the mismatch, because it wraps a nil error: the
    runtime starts, with a next index that is taken. *)
Lemma readLogs_mismatch_silent :
  let '(res, r) := NewRuntime 6 (sampleConfig "leader") brokenWal ([] : list Z) in
  res = Ok tt ∧ rt_lastCommit r = 1 ∧ rt_nextIndex r = 3 ∧ is_Some (wal_lookup (rt_wal r) (rt_nextIndex r)).
Proof. vm_compute. split_and!; try reflexivity. by eexists. Qed.
