(* ===== verification/SqlTypes.v ===== *)
(** * Requests, responses, acknowledgements and blocks of a database

    Models [src/types/request_type.go], [response_type.go], [ack_type.go],
    [block.go] and the hash helpers of [util.go]: the queries a database serves and
    the blocks of its own chain.  The generated [MarshalHash] codes are parameters
    (class [SqlEnv]), and so is the type of SQL values. *)
From S2P Require Import Prelude Hash Merkle Types Block.
From Stdlib Require Import String ZArith Lia.
From stdpp Require Import base list gmap strings.
Local Open Scope Z_scope.

(** ** Errors *)

(** The errors of [sqlchain], [xenomint] and [types]; [SVerifier] wraps the errors
    of the hash-sign verifier. *)
Inductive serror :=
| ErrParentNotFound | ErrInvalidBlock | ErrMultipleAckOfSeqNo | ErrUnknownMuxRequest | ErrQueryExpired
| ErrUnknownProducer | ErrInvalidProducer | ErrQueryNotFound | ErrResponseSeqNotMatch | ErrInitiating
| ErrMissingParent | ErrInvalidRequest | ErrQueryConflict | ErrStatefulQueryParts | ErrInvalidTableName
| ErrMerkleRootVerification | ErrInvalidGenesis | ErrHashValueNotMatch
| SVerifier (e : error)
| SWrap (e : serror)
| SNew (msg : string).

#[export] Instance serror_eq_dec : EqDecision serror.
Proof. solve_decision. Defined.

(** [if err = f(); err != nil { return }] on an error value. *)
Definition check {E} (e : option E) : GoResult E unit := match e with Some e => Err e | None => Ok tt end.

(** ** Requests *)

Definition ReadQuery : Z := 0.
Definition WriteQuery : Z := 1.

Record RequestHeader := MkRequestHeader {
  rh_QueryType : Z;
  rh_NodeID : NodeID;
  rh_DatabaseID : string;
  rh_ConnectionID : Z;
  rh_SeqNo : Z;
  rh_Timestamp : Z;
  rh_BatchCount : Z;
  rh_QueriesHash : Hash;
}.

Record QueryKey := MkQueryKey { qk_NodeID : NodeID; qk_ConnectionID : Z; qk_SeqNo : Z }.
#[export] Instance QueryKey_eq_dec : EqDecision QueryKey.
Proof. solve_decision. Defined.
#[export] Instance QueryKey_countable : Countable QueryKey.
Proof.
  refine (inj_countable' (λ k, (qk_NodeID k, qk_ConnectionID k, qk_SeqNo k)) (λ t, MkQueryKey t.1.1 t.1.2 t.2) _).
  by intros [].
Defined.

Definition GetQueryKey (h : RequestHeader) : QueryKey :=
  MkQueryKey (rh_NodeID h) (rh_ConnectionID h) (rh_SeqNo h).

(** ** Responses and acknowledgements *)

Record ResponseHeader := MkResponseHeader {
  rs_Request : RequestHeader;
  rs_RequestHash : Hash;
  rs_NodeID : NodeID;
  rs_Timestamp : Z;
  rs_RowCount : Z;
  rs_LogOffset : Z;
  rs_LastInsertID : Z;
  rs_AffectedRows : Z;
  rs_PayloadHash : Hash;
  rs_ResponseAccount : AccountAddress;
}.
Record SignedResponseHeader := MkSignedResponseHeader { sr_Header : ResponseHeader; sr_ResponseHash : Hash }.

Record AckHeader := MkAckHeader {
  ak_Response : ResponseHeader;
  ak_ResponseHash : Hash;
  ak_NodeID : NodeID;
  ak_Timestamp : Z;
}.
Definition Ack_GetQueryKey (h : AckHeader) : QueryKey := GetQueryKey (rs_Request (ak_Response h)).
Definition Ack_GetRequestTimestamp (h : AckHeader) : Z := rh_Timestamp (rs_Request (ak_Response h)).
Definition Ack_GetResponseTimestamp (h : AckHeader) : Z := rs_Timestamp (ak_Response h).

Section sql_types.
Context `{Env}.

Record SignedAckHeader := MkSignedAckHeader { sa_Header : AckHeader; sa_HSV : HSV }.
Definition Ack_Hash (a : SignedAckHeader) : Hash := hsv_DataHash (sa_HSV a).

(** [types.SignedHeader] *)
Record SignedHeader := MkSignedHeader { sh_Header : Header; sh_HSV : HSV }.
End sql_types.

(** Code outside the repository: SQL values and the generated [MarshalHash]. *)
Class SqlEnv `{BlockEnv} := {
  SqlValue : Type;
  MarshalHash_RequestHeader : RequestHeader → option (list Z);
  MarshalHash_RequestPayload : list (string * list (string * SqlValue)) → option (list Z);
  MarshalHash_ResponseHeader : ResponseHeader → option (list Z);
  MarshalHash_ResponsePayload : list string * list string * list (list SqlValue) → option (list Z);
  MarshalHash_AckHeader : AckHeader → option (list Z);
}.

Section sql_blocks.
Context `{SqlEnv}.

Record Query := MkQuery { qu_Pattern : string; qu_Args : list (string * SqlValue) }.

(** [types.Request]: the signed header and the payload. *)
Record Request := MkRequest { rq_Header : RequestHeader; rq_HSV : HSV; rq_Queries : list Query }.
Definition Request_Hash (r : Request) : Hash := hsv_DataHash (rq_HSV r).

Record ResponsePayload := MkResponsePayload {
  pl_Columns : list string;
  pl_DeclTypes : list string;
  pl_Rows : list (list SqlValue);
}.
Record Response := MkResponse { re_Header : SignedResponseHeader; re_Payload : ResponsePayload }.

(** *** Hashes *)

(** [buildHash] and [verifyHash] on the bytes [MarshalHash] produced. *)
Definition buildHash (enc : option (list Z)) : GoResult serror Hash :=
  match enc with None => Err (SNew "marshal") | Some enc => Ok (THashH enc) end.
Definition verifyHash (enc : option (list Z)) (h : Hash) : GoResult serror unit :=
  result_bind (buildHash enc) (λ newHash,
    if Hash_IsEqual (Some newHash) (Some h) then Ok tt else Err ErrHashValueNotMatch).

Definition wrapS {A} (r : GoResult serror A) : GoResult serror A :=
  match r with Err e => Err (SWrap e) | r => r end.
Definition ofHSV {A} (r : GoResult error A) : GoResult serror A :=
  match r with Ok a => Ok a | Err e => Err (SVerifier e) | Panic => Panic end.

Definition payloadBytes (qs : list Query) : option (list Z) :=
  MarshalHash_RequestPayload ((λ q, (qu_Pattern q, qu_Args q)) <$> qs).
Definition rowsBytes (p : ResponsePayload) : option (list Z) :=
  MarshalHash_ResponsePayload (pl_Columns p, pl_DeclTypes p, pl_Rows p).

Definition Request_Verify (r : Request) : GoResult serror unit :=
  result_bind (verifyHash (payloadBytes (rq_Queries r)) (rh_QueriesHash (rq_Header r))) (λ _,
    ofHSV (asResult (HSV_Verify (MarshalHash_RequestHeader (rq_Header r)) (rq_HSV r)))).

Definition set_BatchCount (n : Z) (qh : Hash) (h : RequestHeader) : RequestHeader :=
  MkRequestHeader (rh_QueryType h) (rh_NodeID h) (rh_DatabaseID h) (rh_ConnectionID h) (rh_SeqNo h)
    (rh_Timestamp h) n qh.

Definition Request_Sign (r : Request) (signer : PrivateKey) : GoResult serror Request :=
  result_bind (buildHash (payloadBytes (rq_Queries r))) (λ qh,
    let h := set_BatchCount (Z.of_nat (length (rq_Queries r))) qh (rq_Header r) in
    result_bind (ofHSV (HSV_Sign (MarshalHash_RequestHeader h) signer (rq_HSV r))) (λ i,
      Ok (MkRequest h i (rq_Queries r)))).

Definition set_RowCount (n : Z) (ph : Hash) (h : ResponseHeader) : ResponseHeader :=
  MkResponseHeader (rs_Request h) (rs_RequestHash h) (rs_NodeID h) (rs_Timestamp h) n (rs_LogOffset h)
    (rs_LastInsertID h) (rs_AffectedRows h) ph (rs_ResponseAccount h).

Definition SignedResponseHeader_BuildHash (h : ResponseHeader) : GoResult serror SignedResponseHeader :=
  result_bind (wrapS (buildHash (MarshalHash_ResponseHeader h))) (λ rh, Ok (MkSignedResponseHeader h rh)).
Definition SignedResponseHeader_VerifyHash (sh : SignedResponseHeader) : GoResult serror unit :=
  wrapS (verifyHash (MarshalHash_ResponseHeader (sr_Header sh)) (sr_ResponseHash sh)).

Definition Response_BuildHash (r : Response) : GoResult serror Response :=
  result_bind (wrapS (buildHash (rowsBytes (re_Payload r)))) (λ ph,
    let h := set_RowCount (Z.of_nat (length (pl_Rows (re_Payload r)))) ph (sr_Header (re_Header r)) in
    result_bind (SignedResponseHeader_BuildHash h) (λ sh, Ok (MkResponse sh (re_Payload r)))).
Definition Response_VerifyHash (r : Response) : GoResult serror unit :=
  result_bind (wrapS (verifyHash (rowsBytes (re_Payload r)) (rs_PayloadHash (sr_Header (re_Header r))))) (λ _,
    SignedResponseHeader_VerifyHash (re_Header r)).

Definition Ack_Verify (a : SignedAckHeader) : GoResult serror unit :=
  ofHSV (asResult (HSV_Verify (MarshalHash_AckHeader (sa_Header a)) (sa_HSV a))).

(** ** Blocks *)

Record QueryAsTx := MkQueryAsTx { qt_Request : Request; qt_Response : SignedResponseHeader }.

Record Block := MkBlock {
  sb_SignedHeader : SignedHeader;
  sb_FailedReqs : list Request;
  sb_QueryTxs : list QueryAsTx;
  sb_Acks : list SignedAckHeader;
}.
Implicit Types b : Block.

Definition Block_Header b : Header := sh_Header (sb_SignedHeader b).
Definition Block_Timestamp b : Z := hd_Timestamp (Block_Header b).
Definition Block_Producer b : NodeID := hd_Producer (Block_Header b).
Definition Block_ParentHash b : Hash := hd_ParentHash (Block_Header b).
Definition Block_BlockHash b : Hash := hsv_DataHash (sh_HSV (sb_SignedHeader b)).
Definition Block_GenesisHash b : Hash := hd_GenesisHash (Block_Header b).

(** [CalcNextID]: one past the largest log offset of the writes. *)
Definition nextIDStep (acc : Z * bool) (v : QueryAsTx) : Z * bool :=
  if decide (rh_QueryType (rq_Header (qt_Request v)) = WriteQuery) then
    let nid := u64 (rs_LogOffset (sr_Header (qt_Response v)) + Z.of_nat (length (rq_Queries (qt_Request v)))) in
    (if decide (nid > acc.1) then nid else acc.1, true)
  else acc.
Definition CalcNextID b : Z * bool := foldl nextIDStep (0, false) (sb_QueryTxs b).

(** The leaves of the merkle tree: failed requests, responses, acknowledgements. *)
Definition blockLeaves b : list Hash :=
  (Request_Hash <$> sb_FailedReqs b) ++ ((λ v, sr_ResponseHash (qt_Response v)) <$> sb_QueryTxs b) ++
  (Ack_Hash <$> sb_Acks b).
Definition computeMerkleRoot b : GoResult serror Hash :=
  match GetRoot (NewMerkle THashH (Some <$> blockLeaves b)) with Some r => Ok r | None => Panic end.

Definition set_MerkleRoot (h : Header) (r : Hash) : Header :=
  MkHeader (hd_Version h) (hd_Producer h) (hd_GenesisHash h) (hd_ParentHash h) r (hd_Timestamp h).
Definition with_header b (h : Header) (i : HSV) : Block :=
  MkBlock (MkSignedHeader h i) (sb_FailedReqs b) (sb_QueryTxs b) (sb_Acks b).

Definition Block_PackAndSignBlock b (signer : PrivateKey) : GoResult serror Block :=
  result_bind (computeMerkleRoot b) (λ r,
    let h := set_MerkleRoot (Block_Header b) r in
    result_bind (ofHSV (HSV_Sign (MarshalHash_Header h) signer (sh_HSV (sb_SignedHeader b)))) (λ i,
      Ok (with_header b h i))).

Definition Block_PackAsGenesis b : GoResult serror Block :=
  result_bind (ofHSV (HSV_SetHash (MarshalHash_Header (Block_Header b)) (sh_HSV (sb_SignedHeader b)))) (λ i,
    Ok (with_header b (Block_Header b) i)).

Definition SqlBlock_Verify b : GoResult serror unit :=
  result_bind (computeMerkleRoot b) (λ r,
    if Hash_IsEqual (Some r) (Some (hd_MerkleRoot (Block_Header b))) then
      ofHSV (asResult (HSV_Verify (MarshalHash_Header (Block_Header b)) (sh_HSV (sb_SignedHeader b))))
    else Err ErrMerkleRootVerification).

(** [NodeID.IsEmpty]; an id that is no hash is a nil raw id, and is dereferenced. *)
Definition NodeID_IsEmpty (id : NodeID) : GoResult serror bool :=
  if decide (id = ""%string) then Ok true
  else match NewHashFromStr id with Ok h => Ok (Hash_IsEqual (Some h) (Some zeroHash)) | _ => Panic end.

Definition Block_VerifyAsGenesis b : GoResult serror unit :=
  result_bind (NodeID_IsEmpty (Block_Producer b)) (λ empty,
    if negb empty then Err (SWrap ErrInvalidGenesis)
    else if negb (Hash_IsEqual (Some (Block_GenesisHash b)) (Some zeroHash)) then Err (SWrap ErrInvalidGenesis)
    else if negb (Hash_IsEqual (Some (Block_ParentHash b)) (Some zeroHash)) then Err (SWrap ErrInvalidGenesis)
    else if negb (Hash_IsEqual (Some (hd_MerkleRoot (Block_Header b))) (Some zeroHash)) then Err (SWrap ErrInvalidGenesis)
    else ofHSV (asResult (VerifyHash (MarshalHash_Header (Block_Header b)) (sh_HSV (sb_SignedHeader b))))).
End sql_blocks.

(** ** What is signed verifies *)

Section roundtrips.
Context `{SqlEnv}.

Lemma HSV_Sign_Verify enc signer i i' : HSV_Sign enc signer i = Ok i' → HSV_Verify enc i' = None.
Proof.
  unfold HSV_Sign, HSV_SetHash, HSV_SignHash. destruct enc as [enc|]; [|done]. cbn [result_bind hsv_DataHash].
  destruct (key_Sign signer (THashH enc)) as [sig|] eqn:Hs; [|done]. intros [= <-].
  unfold HSV_Verify, VerifyHash, VerifySignature. cbn. rewrite bool_decide_true by done.
  by rewrite (key_Sign_Verify _ _ _ Hs).
Qed.

Lemma verify_buildHash enc h : buildHash enc = Ok h → verifyHash enc h = Ok tt.
Proof. unfold verifyHash. intros ->. cbn. by rewrite bool_decide_true. Qed.

Lemma Request_Sign_Verify r signer r' : Request_Sign r signer = Ok r' → Request_Verify r' = Ok tt.
Proof.
  unfold Request_Sign. destruct (buildHash _) as [qh| |] eqn:Hb; [|done..]. cbn [result_bind].
  destruct (HSV_Sign _ _ _) as [i| |] eqn:Hs; [|done..]. intros [= <-].
  unfold Request_Verify. cbn. rewrite (verify_buildHash _ _ Hb). cbn. by rewrite (HSV_Sign_Verify _ _ _ _ Hs).
Qed.

Lemma Response_BuildHash_VerifyHash r r' : Response_BuildHash r = Ok r' → Response_VerifyHash r' = Ok tt.
Proof.
  unfold Response_BuildHash, SignedResponseHeader_BuildHash.
  destruct (buildHash (rowsBytes _)) as [ph| |] eqn:Hb; [|done..]. cbn [result_bind wrapS].
  destruct (buildHash (MarshalHash_ResponseHeader _)) as [rh| |] eqn:Hh; [|done..]. intros [= <-].
  unfold Response_VerifyHash, SignedResponseHeader_VerifyHash. cbn.
  by rewrite (verify_buildHash _ _ Hb), (verify_buildHash _ _ Hh).
Qed.

Lemma computeMerkleRoot_with_header b h i : computeMerkleRoot (with_header b h i) = computeMerkleRoot b.
Proof.
  assert (blockLeaves (with_header b h i) = blockLeaves b) as Hl by reflexivity.
  unfold computeMerkleRoot. by rewrite Hl.
Qed.

Lemma PackAsGenesis_Verify b b' : Block_PackAsGenesis b = Ok b' → NodeID_IsEmpty (Block_Producer b) = Ok true →
  Block_GenesisHash b = zeroHash → Block_ParentHash b = zeroHash → hd_MerkleRoot (Block_Header b) = zeroHash →
  Block_VerifyAsGenesis b' = Ok tt.
Proof.
  unfold Block_PackAsGenesis, HSV_SetHash. destruct (MarshalHash_Header _) as [enc|] eqn:Henc; [|done].
  intros [= <-] Hp Hg Hpa Hm. unfold Block_VerifyAsGenesis, Block_Producer, Block_GenesisHash, Block_ParentHash in *.
  cbn -[Hash_IsEqual zeroHash]. rewrite Hp. cbn -[Hash_IsEqual zeroHash]. rewrite Hg, Hpa, Hm.
  assert (Hash_IsEqual (Some zeroHash) (Some zeroHash) = true) as -> by (by apply bool_decide_eq_true). cbn.
  rewrite Henc. cbn. by rewrite bool_decide_true.
Qed.
End roundtrips.

Lemma PackAndSign_Verify `{SqlEnv} b signer b' : Block_PackAndSignBlock b signer = Ok b' → SqlBlock_Verify b' = Ok tt.
Proof.
  unfold Block_PackAndSignBlock. destruct (computeMerkleRoot b) as [r| |] eqn:Hr; [|done..]. cbn [result_bind].
  destruct (HSV_Sign _ _ _) as [i| |] eqn:Hs; [|done..]. intros [= <-]. unfold SqlBlock_Verify.
  rewrite computeMerkleRoot_with_header, Hr. cbn [result_bind].
  cbn -[HSV_Verify]. rewrite bool_decide_true by done. by rewrite (HSV_Sign_Verify _ _ _ _ Hs).
Qed.

(** A block of a database's chain that was packed and signed passes its own
    verification, whatever failed requests, queries and acknowledgements it holds. *)
Theorem SqlBlock_sign_verify `{SqlEnv} b signer b' :
  Block_PackAndSignBlock b signer = Ok b' → SqlBlock_Verify b' = Ok tt.
Proof. apply PackAndSign_Verify. Qed.
