(* ===== verification/Sanitizer.v ===== *)
(** * The query sanitizer

    Models [convertQueryAndBuildArgs] of [src/xenomint/query_sanitizer.go]: it
    refuses the queries whose result depends on more than the database (time, random
    numbers) and translates the SHOW statements.  The SQL parser is a parameter
    (class [SqlParser]); of its syntax trees only what the sanitizer looks at is
    kept.  Text is ASCII text. *)
From S2P Require Import Prelude Hash Types Block SqlTypes.
From Stdlib Require Import String Ascii ZArith Lia.
From stdpp Require Import base list gmap strings.
Local Open Scope Z_scope.
Local Open Scope string_scope.
#[local] Set Warnings "-register-all".

(** ** Text *)

Fixpoint ToLower (s : string) : string :=
  match s with EmptyString => EmptyString | String c s => String (lower_ascii c) (ToLower s) end.
Definition HasPrefix (s pre : string) : bool := String.prefix pre s.
Fixpoint Contains (s sub : string) : bool :=
  HasPrefix s sub || match s with EmptyString => false | String _ s => Contains s sub end.
Fixpoint Join (parts : list string) (sep : string) : string :=
  match parts with
  | [] => ""
  | [p] => p
  | p :: parts => p ++ sep ++ Join parts sep
  end.
(** A quotation mark and a line break. *)
Definition dq : string := String (ascii_of_nat 34) "".
Definition nl : string := String (ascii_of_nat 10) "".

(** ** Syntax trees *)

(** The kinds of [sqlparser] nodes the sanitizer tells apart. *)
Inductive valType := StrVal | ValArg | OtherVal.
Inductive nodeKind :=
| SQLVal (type : valType) (val : string)
| TimeExpr
| FuncExpr (lowered : string)
| OtherNode.
Inductive SQLNode := Node (kind : nodeKind) (children : list SQLNode).

Inductive Statement :=
| Show (type : string) (showCreate : bool) (onTable : string)
| DDL (newName table : string) (defaults : list SQLNode)
| OtherStatement.

(** [ParseMultiple]: the parts of a query, each with its statement and tree. *)
Class SqlParser := { ParseMultiple : string → option (list (string * Statement * SQLNode)) }.

(** [sqlparser.Walk]: visit a node; on [true] go on with its children. *)
Fixpoint walk (visit : nodeKind → GoResult serror bool) (n : SQLNode) : GoResult serror unit :=
  let 'Node k cs := n in
  result_bind (visit k) (λ kontinue,
    if kontinue then
      (fix walkList cs := match cs with
        | [] => Ok tt
        | c :: cs => result_bind (walk visit c) (λ _, walkList cs)
        end) cs
    else Ok tt).
Fixpoint Walk (visit : nodeKind → GoResult serror bool) (ns : list SQLNode) : GoResult serror unit :=
  match ns with [] => Ok tt | n :: ns => result_bind (walk visit n) (λ _, Walk visit ns) end.

(** ** The sanitizer *)

(** [sanitizeFunctionMap]: functions refused at all, and functions with the
    arguments that are to be refused. *)
Definition statelessFunctions : list string :=
  ["load_extension"; "unlikely"; "likelihood"; "likely"; "affinity"; "typeof"; "random"; "randomblob"; "unknown"].
Definition timeFunctions : list string := ["date"; "time"; "datetime"; "julianday"; "strftime"].
Definition timeArguments : list string := ["now"; "localtime"].

Definition sanitizeErr : serror := SWrap ErrStatefulQueryParts.

(** The inner visitor, which looks at string values. *)
Definition visitArg (sanitizeArgs : list string) (k : nodeKind) : GoResult serror bool :=
  match k with
  | SQLVal StrVal v => if decide (ToLower v ∈ sanitizeArgs) then Err sanitizeErr else Ok false
  | _ => Ok true
  end.

(** The visitor.  The arguments of a time function are to be walked, but no node is
    handed to that walk. *)
Definition visitNode (k : nodeKind) : GoResult serror bool :=
  match k with
  | SQLVal ValArg v => if EqualFold "CURRENT_TIMESTAMP" v then Err sanitizeErr else Ok true
  | SQLVal _ _ => Ok true
  | TimeExpr => Err sanitizeErr
  | FuncExpr name =>
      if HasPrefix name "sqlite" then Err sanitizeErr
      else if decide (name ∈ statelessFunctions) then Err sanitizeErr
      else if decide (name ∈ timeFunctions) then
        result_bind (Walk (visitArg timeArguments) []) (λ _, Ok false)
      else Ok true
  | OtherNode => Ok true
  end.

(** The SQL a SHOW statement stands for; [query] is what an earlier part left. *)
Definition showQuery (type : string) (showCreate : bool) (onTable query : string) : string :=
  if decide (type = "table") then
    if showCreate then
      "SELECT sql" ++ nl ++ "FROM sqlite_master" ++ nl ++ "WHERE type = " ++ dq ++ "table" ++ dq ++ " AND tbl_name = " ++
      dq ++ onTable ++ dq ++ nl ++ "	AND tbl_name NOT LIKE " ++ dq ++ "sqlite%" ++ dq
    else "PRAGMA table_info(" ++ onTable ++ ")"
  else if decide (type = "index") then
    "SELECT name" ++ nl ++ "FROM sqlite_master" ++ nl ++ "WHERE type = " ++ dq ++ "index" ++ dq ++ " AND tbl_name = " ++
    dq ++ onTable ++ dq ++ nl ++ "	AND name NOT LIKE " ++ dq ++ "sqlite%" ++ dq
  else if decide (type = "tables") then
    "SELECT name FROM sqlite_master WHERE type = " ++ dq ++ "table" ++ dq ++ " AND name NOT LIKE " ++ dq ++ "sqlite%" ++ dq
  else query.

(** One part: whether it is DDL, its text, and the [query] variable after it. *)
Definition sanitizePart (part : string * Statement * SQLNode) (query : string) : GoResult serror (bool * string * string) :=
  let '(text, stmt, n) := part in
  let finish ddl text query walkNodes :=
    match Walk visitNode walkNodes with
    | Ok _ => Ok (ddl, text, query)
    | Err e => Err (SWrap e)
    | Panic => Panic
    end in
  match stmt with
  | Show type showCreate onTable =>
      let query := showQuery type showCreate onTable query in finish false query query [n]
  | DDL newName table defaults =>
      if HasPrefix (ToLower newName) "sqlite" then Err (SWrap ErrInvalidTableName)
      else if HasPrefix (ToLower table) "sqlite" then Err (SWrap ErrInvalidTableName)
      else finish true text query (n :: defaults)
  | OtherStatement => finish false text query [n]
  end.

Fixpoint sanitizeParts (parts : list (string * Statement * SQLNode)) (query : string)
    : GoResult serror (bool * list string) :=
  match parts with
  | [] => Ok (false, [])
  | part :: parts =>
      result_bind (sanitizePart part query) (λ '(ddl, text, query),
        result_bind (sanitizeParts parts query) (λ '(ddls, texts), Ok (ddl || ddls, text :: texts)))
  end.

(** Text that mentions transaction control is passed on as it is, without its
    arguments. *)
Definition mentionsTx (pattern : string) : bool :=
  let lower := ToLower pattern in
  Contains lower "begin" || Contains lower "rollback" || Contains lower "commit".

Definition convertQueryAndBuildArgs `{SqlParser} {V} (pattern : string) (args : list (string * V))
    : GoResult serror (bool * string * list (string * V)) :=
  if mentionsTx pattern then Ok (false, pattern, [])
  else
    match ParseMultiple pattern with
    | None => Err (SWrap (SNew "parse"))
    | Some parts => result_bind (sanitizeParts parts "") (λ '(ddl, texts), Ok (ddl, Join texts "; ", args))
    end.

(** ** What a query may contain *)

(** A text that starts with [sqlite], in any case. *)
Definition sqliteName (s : string) : Prop := ∃ suffix, ToLower s = "sqlite" ++ suffix.

(** Nodes whose value depends on more than the database: time expressions, the literal
    CURRENT_TIMESTAMP, and calls of functions of sqlite or of a stateful function. *)
Inductive stateful : nodeKind → Prop :=
| stateful_time : stateful TimeExpr
| stateful_timestamp v : ToLower v = "current_timestamp" → stateful (SQLVal ValArg v)
| stateful_sqlite suffix : stateful (FuncExpr ("sqlite" ++ suffix))
| stateful_call f :
    f ∈ ["load_extension"; "unlikely"; "likelihood"; "likely"; "affinity"; "typeof"; "random"; "randomblob"; "unknown"] →
    stateful (FuncExpr f).

Definition timeCall (k : nodeKind) : Prop :=
  ∃ f, k = FuncExpr f ∧ f ∈ ["date"; "time"; "datetime"; "julianday"; "strftime"].

(** The nodes of a tree that are not below a call of a time function. *)
Inductive visible : SQLNode → nodeKind → Prop :=
| visible_root k cs : visible (Node k cs) k
| visible_below k cs c k' : ¬ timeCall k → c ∈ cs → visible c k' → visible (Node k cs) k'.

Definition statelessTree (n : SQLNode) : Prop := ∀ k, visible n k → ¬ stateful k.

(** A statement that may run: its tree and the defaults of its columns are stateless,
    and it does not create or alter a table of sqlite. *)
Definition allowed (part : string * Statement * SQLNode) : Prop :=
  let '(_, stmt, n) := part in
  statelessTree n ∧
  match stmt with
  | DDL newName table defaults => ¬ sqliteName newName ∧ ¬ sqliteName table ∧ Forall statelessTree defaults
  | _ => True
  end.

(** What a statement is sent as: a SHOW statement as the query it stands for, any other
    as it is written. *)
Definition sentAs (part : string * Statement * SQLNode) (sent : string) : Prop :=
  let '(text, stmt, _) := part in
  match stmt with
  | Show type showCreate onTable =>
      type ∈ ["table"; "index"; "tables"] → sent = showQuery type showCreate onTable ""
  | _ => sent = text
  end.

Definition isDDL (part : string * Statement * SQLNode) : Prop := ∃ nn tb ds, part.1.2 = DDL nn tb ds.

(** The text has a word of transaction control somewhere, in any case. *)
Definition txControl (pattern : string) : Prop :=
  ∃ word before after, word ∈ ["begin"; "rollback"; "commit"] ∧ ToLower pattern = before ++ word ++ after.

(** *** Text *)

Lemma HasPrefix_spec s pre : HasPrefix s pre = true ↔ ∃ suffix, s = pre ++ suffix.
Proof.
  unfold HasPrefix. revert s. induction pre as [|c pre IH]; intros s; [destruct s; (split; [by eexists|by intros _])|].
  destruct s as [|d s]; cbn [String.prefix String.append]; [split; [done|by intros []]|].
  destruct (Ascii.ascii_dec c d) as [<-|Hne]; [|split; [done|by intros [? [= ]]]].
  rewrite IH. split; intros [suf Hs]; exists suf; [by rewrite Hs|by injection Hs].
Qed.

Lemma Contains_spec s sub : Contains s sub = true ↔ ∃ before after, s = before ++ sub ++ after.
Proof.
  induction s as [|c s IH]; cbn [Contains]; rewrite orb_true_iff, HasPrefix_spec.
  - split; [intros [[suf ->]|]; [by exists "", suf|done]|]. intros ([|] & after & Hs); [left; by exists after|done].
  - rewrite IH. split.
    + intros [[suf ->]|(b & a & ->)]; [by exists "", suf|by exists (String c b), a].
    + intros ([|d b] & a & Hs); [left; by exists a|]. right. exists b, a. by injection Hs.
Qed.

Lemma EqualFold_spec a b : EqualFold a b = true ↔ ToLower a = ToLower b.
Proof.
  revert b. induction a as [|x a IH]; intros [|y b]; cbn; try done.
  rewrite andb_true_iff, bool_decide_eq_true, IH. split; [by intros [-> ->]|by intros [= -> ->]].
Qed.

Lemma mentionsTx_spec pattern : mentionsTx pattern = true ↔ txControl pattern.
Proof.
  unfold mentionsTx, txControl. rewrite !orb_true_iff, !Contains_spec. split.
  - intros [[(b & a & Hs)|(b & a & Hs)]|(b & a & Hs)]; do 3 eexists; (split; [|exact Hs]); set_solver.
  - intros (w & b & a & Hw & Hs). set_unfold. destruct Hw as [->|[->|[->|[]]]]; eauto 10.
Qed.

Lemma sqliteName_spec s : HasPrefix (ToLower s) "sqlite" = true ↔ sqliteName s.
Proof. apply HasPrefix_spec. Qed.

(** *** Trees *)

Section tree_induction.
Variable P : SQLNode → Prop.
Hypothesis HP : ∀ k cs, Forall P cs → P (Node k cs).
Fixpoint SQLNode_tree_ind (n : SQLNode) : P n :=
  let 'Node k cs := n in
  HP k cs ((fix go cs : Forall P cs := match cs with
    | [] => Forall_nil_2 P
    | c :: cs => Forall_cons_2 P c cs (SQLNode_tree_ind c) (go cs)
    end) cs).
End tree_induction.

(** The visitor refuses exactly the stateful nodes, and goes on below all others but
    the calls of time functions. *)
Lemma visitNode_spec k :
  match visitNode k with
  | Ok go => ¬ stateful k ∧ (go = true ↔ ¬ timeCall k)
  | Err _ => stateful k
  | Panic => False
  end.
Proof.
  destruct k as [ty v| |f|]; cbn [visitNode].
  - destruct ty; cbn [visitNode]; try (split; [by inversion 1|split; [by intros _ (? & [=] & ?)|done]]).
    destruct (EqualFold _ _) eqn:He; [constructor; by apply EqualFold_spec in He|].
    split; [|split; [by intros _ (? & [=] & ?)|done]]. inversion 1 as [|? Hv| |]; subst.
    assert (EqualFold "CURRENT_TIMESTAMP" v = true) by (by apply EqualFold_spec). congruence.
  - constructor.
  - destruct (HasPrefix f "sqlite") eqn:Hp; [apply HasPrefix_spec in Hp as [suf ->]; constructor|].
    assert (∀ suf, f ≠ "sqlite" ++ suf) as Hns.
    { intros suf ->. assert (HasPrefix ("sqlite" ++ suf) "sqlite" = true) by (apply HasPrefix_spec; eauto). congruence. }
    case_decide as Hs; [by constructor|].
    assert (¬ stateful (FuncExpr f)) as Hn by (inversion 1; subst; [by eapply Hns|done]).
    case_decide as Ht; cbn; (split; [done|]); split.
    + done.
    + intros Hno. destruct Hno. by exists f.
    + by intros _ (? & [= <-] & ?).
    + done.
  - split; [by inversion 1|split; [by intros _ (? & [=] & ?)|done]].
Qed.

Lemma statelessTree_node k cs : ¬ timeCall k → statelessTree (Node k cs) ↔ ¬ stateful k ∧ Forall statelessTree cs.
Proof.
  intros Ht. rewrite Forall_forall. split.
  - intros Hs. split; [apply Hs; constructor|]. intros c Hc k' Hk'. apply Hs. by eapply visible_below.
  - intros [Hk Hcs] k'. inversion 1; subst; [done|by eapply Hcs].
Qed.

(** A check that passes exactly when [P]. *)
Definition passes (r : GoResult serror unit) (P : Prop) : Prop :=
  match r with Ok _ => P | Err _ => ¬ P | Panic => False end.

Lemma passes_list {A} (check : A → GoResult serror unit) (P : A → Prop) (run : list A → GoResult serror unit) l :
  run [] = Ok tt → (∀ x l, run (x :: l) = result_bind (check x) (λ _, run l)) →
  Forall (λ x, passes (check x) (P x)) l → passes (run l) (Forall P l).
Proof.
  intros Hnil Hcons. induction 1 as [|x l Hx _ IH]; [by rewrite Hnil; cbn|].
  rewrite Hcons. unfold passes in *. destruct (check x); cbn in *; [|by rewrite Forall_cons; intros []|done].
  destruct (run l); cbn in *; [by constructor|by rewrite Forall_cons; intros []|done].
Qed.

Lemma walk_spec n : passes (walk visitNode n) (statelessTree n).
Proof.
  induction n as [k cs IH] using SQLNode_tree_ind. cbn [walk]. pose proof (visitNode_spec k) as Hk.
  destruct (visitNode k) as [[]|e|]; cbn [result_bind]; [| | |done].
  - destruct Hk as [Hk Ht]. assert (¬ timeCall k) as Hnt by (by apply Ht).
    eapply (passes_list (walk visitNode) _ (fix walkList cs := match cs with
        | [] => Ok tt
        | c :: cs => result_bind (walk visitNode c) (λ _, walkList cs)
        end)) in IH; [|done..].
    unfold passes in *. destruct (_ cs); [|rewrite statelessTree_node by done; by intros []|done].
    by rewrite statelessTree_node.
  - destruct Hk as [Hk Ht]. intros k'. inversion 1 as [|? ? ? ? Hnt]; subst; [done|].
    apply Ht in Hnt. done.
  - intros Hs. eapply Hs; [constructor|done].
Qed.

Lemma Walk_spec ns : passes (Walk visitNode ns) (Forall statelessTree ns).
Proof. eapply (passes_list (walk visitNode)); [done..|]. apply Forall_forall. intros n _. apply walk_spec. Qed.

Lemma Walk_one n : passes (Walk visitNode [n]) (statelessTree n).
Proof. pose proof (walk_spec n) as Hn. cbn [Walk]. by destruct (walk visitNode n). Qed.

(** *** Statements *)

Lemma showQuery_query ty sc ot query :
  ty ∈ ["table"; "index"; "tables"] → showQuery ty sc ot query = showQuery ty sc ot "".
Proof. unfold showQuery. intros Hty. repeat case_decide; try done. set_solver. Qed.

Lemma sanitizePart_spec part query :
  match sanitizePart part query with
  | Ok (ddl, sent, _) => allowed part ∧ (ddl = true ↔ isDDL part) ∧ sentAs part sent
  | Err _ => ¬ allowed part
  | Panic => False
  end.
Proof.
  destruct part as [[text stmt] n]. unfold isDDL. destruct stmt as [ty sc ot|nn tb ds|]; cbn [sanitizePart allowed sentAs fst snd].
  - pose proof (Walk_one n) as Hw.
    destruct (Walk visitNode [n]); [|by intros []|done].
    split_and!; [done..|split; [done|by intros (? & ? & ? & ?)]|apply showQuery_query].
  - destruct (HasPrefix (ToLower nn) "sqlite") eqn:Hnn; [apply sqliteName_spec in Hnn; by intros (_ & ? & _)|].
    destruct (HasPrefix (ToLower tb) "sqlite") eqn:Htb; [apply sqliteName_spec in Htb; by intros (_ & _ & ? & _)|].
    pose proof (Walk_spec (n :: ds)) as Hw.
    destruct (Walk visitNode (n :: ds)); cbn in Hw; rewrite ?Forall_cons in Hw;
      [|by intros (? & _ & _ & ?); apply Hw|done].
    destruct Hw. rewrite <- !sqliteName_spec, Hnn, Htb. split_and!; [done..|split; [by eauto|done]|done].
  - pose proof (Walk_one n) as Hw.
    destruct (Walk visitNode [n]); [|by intros []|done].
    split_and!; [done..|split; [done|by intros (? & ? & ? & ?)]|done].
Qed.

Lemma sanitizeParts_spec parts query :
  match sanitizeParts parts query with
  | Ok (ddl, sent) => Forall allowed parts ∧ (ddl = true ↔ Exists isDDL parts) ∧ Forall2 sentAs parts sent
  | Err _ => ¬ Forall allowed parts
  | Panic => False
  end.
Proof.
  revert query. induction parts as [|part parts IH]; intros query; cbn [sanitizeParts].
  { split_and!; [constructor|by rewrite Exists_nil|constructor]. }
  pose proof (sanitizePart_spec part query) as Hp.
  destruct (sanitizePart part query) as [[[ddl sent] query']| |]; cbn; [|by intros []%Forall_cons|done].
  destruct Hp as (Ha & Hd & Hs). specialize (IH query').
  destruct (sanitizeParts parts query') as [[ddls sents]| |]; cbn; [|by intros []%Forall_cons|done].
  destruct IH as (Has & Hds & Hss). rewrite orb_true_iff, Exists_cons, Hd, Hds.
  split_and!; [by constructor|done|by constructor].
Qed.

(** C36: The sanitizer passes exactly the queries it should by its rules.  A text with a
    word of transaction control in it is passed on as it is, unchecked and without its
    arguments.  Any other is passed on exactly when it parses and none of its statements
    has a time expression, CURRENT_TIMESTAMP, a call of a function of sqlite or of one of
    the nine stateful functions, in its tree or its column defaults and outside the
    arguments of the five time functions, nor names a table of sqlite in DDL; then it is
    sent with its SHOW statements translated, its other statements and its arguments as
    they are, and reported as DDL when it has a DDL statement.  Everything else is an
    error, and nothing panics. *)
Theorem sanitizer_spec `{SqlParser} {V} pattern (args : list (string * V)) :
  match convertQueryAndBuildArgs pattern args with
  | Ok (ddl, text, args') =>
      txControl pattern ∧ (ddl, text, args') = (false, pattern, []) ∨
      ¬ txControl pattern ∧ ∃ parts sent, ParseMultiple pattern = Some parts ∧ Forall allowed parts ∧
        (ddl = true ↔ Exists isDDL parts) ∧ Forall2 sentAs parts sent ∧ text = Join sent "; " ∧ args' = args
  | Err _ =>
      ¬ txControl pattern ∧ ∀ parts, ParseMultiple pattern = Some parts → ¬ Forall allowed parts
  | Panic => False
  end.
Proof.
  unfold convertQueryAndBuildArgs. pose proof (mentionsTx_spec pattern) as Hm.
  destruct (mentionsTx pattern); [left; split; [by apply Hm|done]|].
  assert (¬ txControl pattern) as Hno by (by intros ?%Hm). clear Hm.
  destruct (ParseMultiple pattern) as [parts|]; [|done].
  pose proof (sanitizeParts_spec parts "") as Hs.
  destruct (sanitizeParts parts "") as [[ddl sent]|e|]; cbn; [|by split; [|intros ? [= <-]]|done].
  destruct Hs as (? & ? & ?). right. split; [done|]. exists parts, sent. done.
Qed.

(** A parser that knows three queries. *)
Definition sampleParser : SqlParser := {|
  ParseMultiple := λ q,
    if decide (q = "SHOW TABLES") then Some [(q, Show "tables" false "", Node OtherNode [])]
    else if decide (q = "SELECT random()") then
      Some [(q, OtherStatement, Node OtherNode [Node (FuncExpr "random") []])]
    else if decide (q = "SELECT a") then Some [(q, OtherStatement, Node OtherNode [])]
    else None
|}.

Lemma sanitizer_spec_witness :
  (∃ parts : list (string * Statement * SQLNode), @ParseMultiple sampleParser "SHOW TABLES" = Some parts ∧ Forall allowed parts) ∧
  (∀ parts, @ParseMultiple sampleParser "SELECT random()" = Some parts → ¬ Forall allowed parts).
Proof.
  split.
  - pose proof (@sanitizer_spec sampleParser Z "SHOW TABLES" []) as Hs.
    destruct Hs as [[_ [=]]|[_ (parts & sent & Hp & Ha & _)]]. by exists parts.
  - exact (proj2 (@sanitizer_spec sampleParser Z "SELECT random()" [])).
Defined.

(** ** What should not pass *)

(** [date('now')], and a random number inside of it, are accepted: the walk over
    the arguments gets no nodes. *)
Lemma sanitizer_time_arguments :
  walk visitNode (Node (FuncExpr "date") [Node (SQLVal StrVal "now") []]) = Ok tt ∧
  walk visitNode (Node (FuncExpr "date") [Node (FuncExpr "random") []]) = Ok tt ∧
  walk visitNode (Node (FuncExpr "random") []) = Err sanitizeErr.
Proof. vm_compute. done. Qed.

(** A query that has one of the words anywhere, as in a column named begin_time, is
    not checked and loses its arguments. *)
Lemma sanitizer_bypass `{SqlParser} {V} (args : list (string * V)) :
  convertQueryAndBuildArgs "UPDATE t SET begin_time = random() WHERE id = :id" args =
  Ok (false, "UPDATE t SET begin_time = random() WHERE id = :id", []).
Proof. reflexivity. Qed.
