(* ===== verification/Xenomint.v ===== *)
(** * xenomint: the state of a database

    Models [src/xenomint/pool.go] and [state.go]: the pool of executed and failed
    queries that wait for a block, and the state that runs read and write requests
    on the SQL store, replays blocks of other nodes and hands the pooled queries to
    the block producer.  The store is a parameter (class [SqlStore]).  A query
    tracker is shared between the pool and the caller that later sets its response,
    so trackers live in a heap and the pool holds their addresses.  A mutex that is
    locked twice never returns; like a fatal error it is [Panic]. *)
From S2P Require Import Prelude Hash Types Block SqlTypes Sanitizer.
From Stdlib Require Import String ZArith Lia.
From stdpp Require Import base list gmap strings.
Local Open Scope Z_scope.

(** ** The store *)

(** Arguments of a statement: those of the query, or the number the savepoint
    statements are given. *)
Inductive sqlArg (V : Type) := NamedArg (name : string) (v : V) | SeqArg (n : Z).
Arguments NamedArg {V}.
Arguments SeqArg {V}.

(** Who runs a read: the open write transaction, or a reader. *)
Inductive querier := HandlerQuerier | DirtyReader | Reader.

(** [xi.Storage] with its connections, as one state [C]. *)
Class SqlStore (V C : Type) := {
  db_Exec : string → list (sqlArg V) → C → GoResult serror (Z * Z) * C;
  db_Query : querier → string → list (sqlArg V) → C → GoResult serror (list string * list string * list (list V));
  db_Begin : C → option serror * C;
  db_Commit : C → option serror * C;
  db_Rollback : C → option serror * C;
  db_ReaderBegin : C → option serror;
  db_Close : C → option serror * C;
}.

Definition SAVEPOINT : string := "SAVEPOINT " ++ dq ++ "?" ++ dq.
Definition ROLLBACK_TO : string := "ROLLBACK TO " ++ dq ++ "?" ++ dq.
Definition RELEASE_SAVEPOINT : string := "RELEASE SAVEPOINT " ++ dq ++ "?" ++ dq.

Section xenomint.
Context `{SqlEnv} `{!SqlParser} {C : Type} `{!SqlStore SqlValue C}.

(** ** The pool *)

Record QueryTracker := MkQueryTracker { tr_Req : Request; tr_Resp : option Response }.

(** [queries] and [reads] hold addresses of trackers, [index] positions in
    [queries]. *)
Record pool := MkPool {
  po_failed : gmap Hash Request;
  po_reads : gmap Hash nat;
  po_queries : list nat;
  po_index : gmap Z Z;
  po_failedRequestCount : Z;
  po_trackerCount : Z;
}.
Implicit Types (p : pool).

Definition newPool : pool := MkPool ∅ ∅ [] ∅ 0 0.

Definition enqueue (sp : Z) (q : nat) p : pool :=
  let pos := Z.of_nat (length (po_queries p)) in
  let queries := po_queries p ++ [q] in
  MkPool (po_failed p) (po_reads p) queries (<[sp := pos]> (po_index p)) (po_failedRequestCount p)
    (i32 (Z.of_nat (length queries))).

Definition enqueueRead (h : Hash) (q : nat) p : pool :=
  MkPool (po_failed p) (<[h := q]> (po_reads p)) (po_queries p) (po_index p) (po_failedRequestCount p)
    (po_trackerCount p).

Definition set_failed (f : gmap Hash Request) p : pool :=
  MkPool f (po_reads p) (po_queries p) (po_index p) (i32 (Z.of_nat (size f))) (po_trackerCount p).
Definition setFailed (req : Request) p : pool := set_failed (<[Request_Hash req := req]> (po_failed p)) p.
Definition removeFailed (req : Request) p : pool := set_failed (delete (Request_Hash req) (po_failed p)) p.

(** The order of a Go map is not specified; [map_to_list] is one. *)
Definition failedList p : list Request := (map_to_list (po_failed p)).*2.

(** [match], with the heap of trackers. *)
Definition pool_match (heap : list QueryTracker) (sp : Z) (req : Request) p : GoResult serror bool :=
  match po_index p !! sp with
  | None => Ok false
  | Some pos =>
      match po_queries p !! Z.to_nat pos ≫= (heap !!.) with
      | None => Panic
      | Some t => Ok (bool_decide (Request_Hash (tr_Req t) = Request_Hash req))
      end
  end.

Definition matchLast (sp : Z) p : bool :=
  match po_index p !! sp with
  | None => false
  | Some pos => bool_decide (pos = Z.of_nat (length (po_queries p)) - 1)
  end.

(** [truncate]: drop the queries up to [sp] and move the later positions. *)
Definition truncate (sp : Z) p : GoResult serror pool :=
  match po_index p !! sp with
  | None => Ok p
  | Some pos =>
      let ni := (λ v, v - (pos + 1)) <$> filter (λ kv, kv.1 > sp) (po_index p) in
      if decide (0 <= pos + 1 <= Z.of_nat (length (po_queries p))) then
        let queries := drop (Z.to_nat (pos + 1)) (po_queries p) in
        Ok (MkPool (po_failed p) (po_reads p) queries ni (po_failedRequestCount p) (i32 (Z.of_nat (length queries))))
      else Panic
  end.

(** ** The state *)

Record State := MkState {
  xs_readUncommitted : bool;
  xs_conn : C;
  xs_pool : pool;
  xs_closed : bool;
  xs_nodeID : NodeID;
  xs_maxTx : Z;
  xs_lastCommitPoint : Z;
  xs_current : Z;
  xs_hasSchemaChange : bool;
  xs_heap : list QueryTracker;
}.
Implicit Types (s : State).
Abbreviation XM := (GoM State serror).

Definition set_conn s (c : C) : State :=
  MkState (xs_readUncommitted s) c (xs_pool s) (xs_closed s) (xs_nodeID s) (xs_maxTx s) (xs_lastCommitPoint s)
    (xs_current s) (xs_hasSchemaChange s) (xs_heap s).
Definition set_pool s (p : pool) : State :=
  MkState (xs_readUncommitted s) (xs_conn s) p (xs_closed s) (xs_nodeID s) (xs_maxTx s) (xs_lastCommitPoint s)
    (xs_current s) (xs_hasSchemaChange s) (xs_heap s).
Definition set_closed s : State :=
  MkState (xs_readUncommitted s) (xs_conn s) (xs_pool s) true (xs_nodeID s) (xs_maxTx s) (xs_lastCommitPoint s)
    (xs_current s) (xs_hasSchemaChange s) (xs_heap s).
Definition set_commitPoint s (n : Z) : State :=
  MkState (xs_readUncommitted s) (xs_conn s) (xs_pool s) (xs_closed s) (xs_nodeID s) (xs_maxTx s) n
    (xs_current s) (xs_hasSchemaChange s) (xs_heap s).
Definition SetSeq (n : Z) s : State :=
  MkState (xs_readUncommitted s) (xs_conn s) (xs_pool s) (xs_closed s) (xs_nodeID s) (xs_maxTx s) (xs_lastCommitPoint s)
    n (xs_hasSchemaChange s) (xs_heap s).
Definition set_schemaChange s (b : bool) : State :=
  MkState (xs_readUncommitted s) (xs_conn s) (xs_pool s) (xs_closed s) (xs_nodeID s) (xs_maxTx s) (xs_lastCommitPoint s)
    (xs_current s) b (xs_heap s).
Definition set_heap s (h : list QueryTracker) : State :=
  MkState (xs_readUncommitted s) (xs_conn s) (xs_pool s) (xs_closed s) (xs_nodeID s) (xs_maxTx s) (xs_lastCommitPoint s)
    (xs_current s) (xs_hasSchemaChange s) h.

Definition onPool (f : pool → pool) : XM unit := modifyS (λ s, set_pool s (f (xs_pool s))).
Definition onConn {A} (f : C → A * C) : XM A := λ s, let '(a, c) := f (xs_conn s) in (Ok a, set_conn s c).
Definition incSeq : XM unit := modifyS (λ s, SetSeq (u64 (xs_current s + 1)) s).

(** A new tracker, by its address. *)
Definition newTracker (req : Request) (resp : option Response) : XM nat :=
  s ← getS;
  modifyS (λ s, set_heap s (xs_heap s ++ [MkQueryTracker req resp]));; mret (length (xs_heap s)).

Definition UpdateResp (q : nat) (resp : Response) : XM unit :=
  modifyS (λ s, set_heap s (alter (λ t, MkQueryTracker (tr_Req t) (Some resp)) q (xs_heap s))).
Definition Ready s (q : nat) : bool :=
  match xs_heap s !! q with Some (MkQueryTracker _ (Some _)) => true | _ => false end.

(** *** Transactions *)

(** A failing begin, commit or rollback of the write transaction is fatal. *)
Definition fatal (f : C → option serror * C) : XM unit :=
  e ← onConn f; match e with Some _ => panic | None => mret tt end.

Definition openHandler : XM unit := s ← getS; if xs_readUncommitted s then fatal db_Begin else mret tt.
Definition commitHandler : XM unit :=
  s ← getS;
  (if xs_readUncommitted s then fatal db_Commit else mret tt);;
  modifyS (λ s, set_commitPoint (set_schemaChange s false) (xs_current s)).
Definition rollbackHandler : XM unit :=
  s ← getS;
  (if xs_readUncommitted s then fatal db_Rollback else mret tt);;
  modifyS (λ s, set_schemaChange s false).
Definition flushHandler : XM unit := commitHandler;; openHandler.

Definition NewState (readUncommitted : bool) (nodeID : NodeID) (c : C) : GoResult serror unit * State :=
  openHandler (MkState readUncommitted c newPool false nodeID 100 0 0 false []).

Definition Close (commit : bool) : XM unit :=
  s ← getS;
  if xs_closed s then mret tt
  else
    (if commit then commitHandler else rollbackHandler);;
    e ← onConn db_Close;
    match e with Some e => throw e | None => modifyS set_closed end.

(** *** Reads *)

Definition named (args : list (string * SqlValue)) : list (sqlArg SqlValue) := (λ a, NamedArg a.1 a.2) <$> args.

Definition readSingle (qer : querier) (q : Query) : XM (list string * list string * list (list SqlValue)) :=
  match convertQueryAndBuildArgs (qu_Pattern q) (qu_Args q) with
  | Err e => throw e
  | Panic => panic
  | Ok (_, pattern, args) => s ← getS; liftR (db_Query qer pattern (named args) (xs_conn s))
  end.

(** The reads of a request; the last one is the answer. *)
Fixpoint readLoop (qer : querier) (qs : list Query) (last : list string * list string * list (list SqlValue))
    : XM (list string * list string * list (list SqlValue)) :=
  match qs with
  | [] => mret last
  | q :: qs => r ← readSingle qer q; readLoop qer qs r
  end.

Definition response (s : State) (now : Z) (req : Request) (rowCount logOffset affected lastInsertID : Z)
    (payload : ResponsePayload) : Response :=
  MkResponse (MkSignedResponseHeader
    (MkResponseHeader (rq_Header req) (Request_Hash req) (xs_nodeID s) now rowCount logOffset lastInsertID affected
       zeroHash zeroHash) zeroHash) payload.

Definition reader s : querier := if xs_readUncommitted s then DirtyReader else Reader.

(** [readWithContext]: a read outside of a transaction. *)
Definition readWithContext (now : Z) (req : Request) : XM (nat * Response) :=
  s ← getS;
  res ← attempt (readLoop (reader s) (rq_Queries req) ([], [], []));
  match res with
  | inl e => onPool (setFailed req);; throw (SWrap e)
  | inr (cnames, ctypes, data) =>
      ref ← newTracker req None;
      onPool (enqueueRead (Request_Hash req) ref);;
      s ← getS;
      mret (ref, response s now req (Z.of_nat (length data)) (xs_current s) 0 0 (MkResponsePayload cnames ctypes data))
  end.

(** [readTx]: when the write transaction changed the schema the read takes the
    state's lock, and takes it again to pool the request. *)
Definition readTx (now : Z) (req : Request) : XM (nat * Response) :=
  s ← getS;
  let id := xs_current s in
  let locked := xs_readUncommitted s && xs_hasSchemaChange s in
  let qer := if locked then HandlerQuerier else reader s in
  match (if locked then None else db_ReaderBegin (xs_conn s)) with
  | Some e => throw (SWrap e)
  | None =>
      res ← attempt (readLoop qer (rq_Queries req) ([], [], []));
      if locked then panic
      else
        match res with
        | inl e => onPool (setFailed req);; throw (SWrap e)
        | inr (cnames, ctypes, data) =>
            ref ← newTracker req None;
            onPool (enqueueRead (Request_Hash req) ref);;
            s ← getS;
            mret (ref, response s now req (Z.of_nat (length data)) id 0 0 (MkResponsePayload cnames ctypes data))
        end
  end.

(** *** Writes *)

Definition exec (query : string) (args : list (sqlArg SqlValue)) : XM (Z * Z) := λ s,
  let '(r, c) := db_Exec query args (xs_conn s) in (r, set_conn s c).

Definition writeSingle (q : Query) : XM (Z * Z) :=
  match convertQueryAndBuildArgs (qu_Pattern q) (qu_Args q) with
  | Err e => throw e
  | Panic => panic
  | Ok (containsDDL, pattern, args) =>
      res ← exec pattern (named args);
      (if (containsDDL : bool) then modifyS (λ s, set_schemaChange s true) else mret tt);;
      incSeq;; mret res
  end.

(** The statements of a request; the total of affected rows and the last id. *)
Fixpoint writeLoop (qs : list Query) (total last : Z) : XM (Z * Z) :=
  match qs with
  | [] => mret (total, last)
  | q :: qs => r ← writeSingle q; writeLoop qs (i64 (total + r.1)) r.2
  end.

(** [defer]: [cleanup] runs when [m] returns, whatever it returns; not after a
    fatal error. *)
Definition deferring {A} (cleanup : XM unit) (m : XM A) : XM A := λ s,
  match m s with
  | (Panic, s) => (Panic, s)
  | (r, s) => (r, (cleanup s).2)
  end.
Definition ignoring {A} (m : XM A) : XM unit := _ ← attempt m; mret tt.
Definition wrappingX {A} (m : XM A) : XM A :=
  res ← attempt m; match res with inl e => throw (SWrap e) | inr a => mret a end.

(** Commit when the transaction is large or the schema changed. *)
Definition flushIfNeeded : XM unit :=
  s ← getS;
  if decide (u64 (xs_current s - xs_lastCommitPoint s) > xs_maxTx s ∨ xs_hasSchemaChange s = true)
  then flushHandler else mret tt.

Definition releaseStep (savepoint : bool) (lastSeq : Z) : XM unit :=
  if savepoint then wrappingX (exec RELEASE_SAVEPOINT [SeqArg lastSeq]);; mret tt else mret tt.

(** The statements, the release of the savepoint, the flush and the pooling. *)
Definition writeBody (req : Request) (isLeader : bool) (lastSeq : Z) (query : nat) : XM (Z * Z) :=
  s ← getS;
  let savepoint := bool_decide (1 < length (rq_Queries req))%nat && xs_readUncommitted s in
  res ← attempt (writeLoop (rq_Queries req) 0 0);
  match res with
  | inl e => onPool (setFailed req);; throw (SWrap e)
  | inr res =>
      releaseStep savepoint lastSeq;;
      flushIfNeeded;;
      (if isLeader then onPool (enqueue lastSeq query) else mret tt);;
      mret res
  end.

(** The part of a write under the lock. *)
Definition writeLocked (req : Request) (isLeader : bool) (query : nat) : XM (Z * Z) :=
  s ← getS;
  let lastSeq := xs_current s in
  let body := writeBody req isLeader lastSeq query in
  if bool_decide (1 < length (rq_Queries req))%nat && xs_readUncommitted s then
    wrappingX (exec SAVEPOINT [SeqArg lastSeq]);;
    deferring (ignoring (exec ROLLBACK_TO [SeqArg lastSeq])) body
  else if xs_readUncommitted s then body
  else deferring (ignoring (exec "ROLLBACK" [])) body.

Definition write (now : Z) (req : Request) (isLeader : bool) : XM (nat * Response) :=
  query ← newTracker req None;
  s ← getS;
  res ← writeLocked req isLeader query;
  s' ← getS;
  mret (query, response s' now req 0 (xs_current s) res.1 res.2 (MkResponsePayload [] [] [])).

(** *** Replay *)

Definition replay (req : Request) (resp : Response) : XM unit :=
  s ← getS;
  let lastSeq := xs_current s in
  query ← newTracker req (Some resp);
  if decide (rs_LogOffset (sr_Header (re_Header resp)) ≠ lastSeq) then throw (SWrap ErrQueryConflict)
  else
    wrappingX (writeLoop (rq_Queries req) 0 0);;
    flushIfNeeded;;
    onPool (enqueue lastSeq query).

(** The queries of a block; [lastsp] is the sequence number before the last one
    that is not a read. *)
Fixpoint replayLoop (txs : list QueryAsTx) (lastsp : Z) : XM Z :=
  match txs with
  | [] => mret lastsp
  | q :: txs =>
      let req := qt_Request q in
      if decide (rh_QueryType (rq_Header req) = ReadQuery) then replayLoop txs lastsp
      else
        query ← newTracker req (Some (MkResponse (qt_Response q) (MkResponsePayload [] [] [])));
        s ← getS;
        let lastsp := xs_current s in
        let off := rs_LogOffset (sr_Header (qt_Response q)) in
        if decide (off > lastsp) then throw ErrMissingParent
        else if decide (off < lastsp) then replayLoop txs lastsp
        else
          (if decide (rh_QueryType (rq_Header req) ≠ WriteQuery ∧ rq_Queries req ≠ [])
           then throw (SWrap ErrInvalidRequest)
           else wrappingX (writeLoop (rq_Queries req) 0 0);; mret tt);;
          onPool (enqueue lastsp query);;
          replayLoop txs lastsp
  end.

Definition ReplayBlock (b : Block) : XM unit :=
  lastsp ← replayLoop (sb_QueryTxs b) 0;
  flushHandler;;
  onPool (λ p, foldl (λ p r, removeFailed r p) p (sb_FailedReqs b));;
  s ← getS;
  p ← liftR (truncate lastsp (xs_pool s));
  onPool (λ _, p).

(** ** Blocks and requests *)

(** [commit] and [CommitEx]: flush, hand out the pool, start a new one. *)
Definition commitX : XM unit := flushHandler;; onPool (λ _, newPool).
Definition CommitEx : XM (list Request * list nat) :=
  flushHandler;;
  s ← getS;
  let p := xs_pool s in
  onPool (λ _, newPool);;
  mret (failedList p, po_queries p ++ (map_to_list (po_reads p)).*2).

Definition QueryWithContext (now : Z) (req : Request) (isLeader : bool) : XM (nat * Response) :=
  if decide (rh_QueryType (rq_Header req) = ReadQuery) then readTx now req
  else if decide (rh_QueryType (rq_Header req) = WriteQuery) then write now req isLeader
  else throw ErrInvalidRequest.

Definition ReplayWithContext (req : Request) (resp : Response) : XM unit :=
  if decide (rh_QueryType (rq_Header req) = ReadQuery) then mret tt
  else if decide (rh_QueryType (rq_Header req) = WriteQuery) then replay req resp
  else throw ErrInvalidRequest.

(** [Chain.Query] and [Chain.Stop] of [chain.go]: answer as the leader, hash the
    response and hand it to the tracker. *)
Definition Chain_Query (now : Z) (req : Request) : XM Response :=
  '(ref, resp) ← QueryWithContext now req true;
  resp ← liftR (Response_BuildHash resp);
  UpdateResp ref resp;; mret resp.
Definition Chain_Stop : XM unit := Close true.
End xenomint.
