(* ===== verification/XenoProps.v ===== *)
(** * xenomint: replicas execute the same queries

    The documented behaviour of the SQL store that the state relies on (class
    [SqlLaws]: statements are functions of the content, savepoints restore it), and
    the theorems: a replica that replays a block ends with the content and the
    sequence number of the node that executed the queries, from any point of that
    execution; a failing request is undone; the pool stays consistent. *)
From S2P Require Import Prelude Hash Types Block SqlTypes Sanitizer Xenomint.
From Stdlib Require Import String ZArith Lia.
From stdpp Require Import base list gmap strings.
Local Open Scope Z_scope.

(** ** The store *)

(** [content] is what the write connection sees, [saves] the contents at its open
    savepoints, innermost first, [inTx] whether it has an open transaction.  A
    [plain] statement is no transaction control. *)
Class SqlLaws (V C D : Type) `{SqlStore V C} := {
  content : C → D;
  saves : C → list D;
  inTx : C → bool;
  plain : string → bool;
  run : string → list (sqlArg V) → D → GoResult serror (Z * Z) * D;
  plain_Exec : ∀ q args c r c', plain q = true → db_Exec q args c = (r, c') →
    run q args (content c) = (r, content c') ∧ saves c' = saves c ∧ inTx c' = inTx c;
  savepoint_Exec : ∀ args c r c', db_Exec SAVEPOINT args c = (r, c') → content c' = content c ∧
    match r with Ok _ => saves c' = content c :: saves c | _ => saves c' = saves c end;
  rollback_to_Exec : ∀ args c r c', db_Exec ROLLBACK_TO args c = (r, c') →
    saves c' = saves c ∧ content c' = match saves c with d :: _ => d | [] => content c end;
  release_Exec : ∀ args c r c', db_Exec RELEASE_SAVEPOINT args c = (r, c') → content c' = content c ∧
    match r with Ok _ => saves c' = tail (saves c) | _ => saves c' = saves c end;
  rollback_Exec : ∀ c r c', inTx c = false → db_Exec "ROLLBACK" [] c = (r, c') →
    content c' = content c ∧ saves c' = saves c ∧ inTx c' = false;
  begin_content : ∀ c e c', db_Begin c = (e, c') → content c' = content c ∧ saves c' = [];
  commit_content : ∀ c c', db_Commit c = (None, c') → content c' = content c ∧ saves c' = [];
}.

Section props.
Context `{SqlEnv} `{!SqlParser} {C D : Type} `{!SqlStore SqlValue C} `{!SqlLaws SqlValue C D}.
Implicit Types (s : State (C := C)) (q : Query) (req : Request).

Definition db s : D := content (xs_conn s).

(** No savepoint is open, and the writer of the other isolation levels has no
    transaction. *)
Definition settled s : Prop :=
  saves (xs_conn s) = [] ∧ (xs_readUncommitted s = false → inTx (xs_conn s) = false).

(** ** Executing queries on a content *)

Definition runQuery q (d : D) : option D :=
  match convertQueryAndBuildArgs (qu_Pattern q) (qu_Args q) with
  | Ok (_, pattern, args) =>
      if plain pattern then match run pattern (named args) d with (Ok _, d') => Some d' | _ => None end else None
  | _ => None
  end.
Fixpoint runQueries (qs : list Query) (d : D) : option D :=
  match qs with [] => Some d | q :: qs => runQuery q d ≫= runQueries qs end.

(** No statement of a request is transaction control. *)
Definition plainQuery q : Prop :=
  ∀ ddl pattern args, convertQueryAndBuildArgs (qu_Pattern q) (qu_Args q) = Ok (ddl, pattern, args) → plain pattern = true.
Definition plainRequest req : Prop := Forall plainQuery (rq_Queries req).

(** What a statement leaves alone. *)
Definition sameFrame s s' : Prop :=
  xs_readUncommitted s' = xs_readUncommitted s ∧ xs_pool s' = xs_pool s ∧ xs_heap s' = xs_heap s ∧
  xs_nodeID s' = xs_nodeID s ∧ xs_lastCommitPoint s' = xs_lastCommitPoint s ∧ xs_maxTx s' = xs_maxTx s ∧
  saves (xs_conn s') = saves (xs_conn s) ∧ inTx (xs_conn s') = inTx (xs_conn s).

Lemma sameFrame_refl s : sameFrame s s.
Proof. done. Qed.
Lemma sameFrame_trans s1 s2 s3 : sameFrame s1 s2 → sameFrame s2 s3 → sameFrame s1 s3.
Proof. intros (? & ? & ? & ? & ? & ? & ? & ?) (? & ? & ? & ? & ? & ? & ? & ?). split_and!; congruence. Qed.

Lemma writeSingle_inv q s r s' : plainQuery q → writeSingle q s = (r, s') → sameFrame s s' ∧
  match r with
  | Ok _ => runQuery q (db s) = Some (db s') ∧ xs_current s' = u64 (xs_current s + 1)
  | _ => runQuery q (db s) = None ∧ xs_current s' = xs_current s
  end.
Proof.
  intros Hp. unfold writeSingle, runQuery.
  destruct (convertQueryAndBuildArgs _ _) as [[[ddl pattern] args]|e|] eqn:Hc; [|by intros [= <- <-]..].
  specialize (Hp ddl pattern args Hc). rewrite Hp. unfold exec. go_unfold.
  destruct (db_Exec pattern (named args) (xs_conn s)) as [r0 c] eqn:He.
  destruct (plain_Exec _ _ _ _ _ Hp He) as (Hrun & Hsv & Htx). unfold db. rewrite Hrun.
  destruct r0 as [x|e|]; [|by intros [= <- <-]..].
  destruct ddl; intros [= <- <-]; by split.
Qed.

Lemma writeLoop_inv qs t l s r s' : Forall plainQuery qs → 0 <= xs_current s →
  xs_current s + Z.of_nat (length qs) < two64 → writeLoop qs t l s = (r, s') → sameFrame s s' ∧
  match r with
  | Ok _ => runQueries qs (db s) = Some (db s') ∧ xs_current s' = xs_current s + Z.of_nat (length qs)
  | _ => runQueries qs (db s) = None ∧ xs_current s <= xs_current s' <= xs_current s + Z.of_nat (length qs)
  end.
Proof.
  intros Hp. revert t l s. induction Hp as [|q qs Hq _ IH]; intros t l s Hz0 Hroom; cbn [writeLoop runQueries length] in *.
  - intros [= <- <-]. split_and!; [done..|lia].
  - intros [(x & s1 & Hz1 & Hz2)|(r0 & Hz1 & Hn & Hb)]%bind_inv; apply writeSingle_inv in Hz1 as [Hf Hz1]; [|done| |done].
    + destruct Hz1 as [Hrun Hcur]. rewrite u64_id in Hcur by (unfold is_u64; lia). rewrite Hrun. cbn.
      apply IH in Hz2 as [Hf2 Hz2]; [|lia..]. split; [by eapply sameFrame_trans|].
      destruct r; (destruct Hz2 as [Hz2 Hc2]; split; [done|lia]).
    + split; [done|]. assert (runQuery q (db s) = None ∧ xs_current s' = xs_current s) as [-> ->].
      { destruct r0 as [a| |]; [by destruct (Hn a)|done..]. }
      destruct r as [b| |]; [by destruct (Hb b)|..]; cbn; (split; [done|lia]).
Qed.

(** ** Transactions *)

(** Everything but the commit point and the schema flag. *)
Definition sameView s s' : Prop :=
  db s' = db s ∧ xs_current s' = xs_current s ∧ xs_pool s' = xs_pool s ∧ xs_heap s' = xs_heap s ∧
  xs_readUncommitted s' = xs_readUncommitted s ∧ xs_nodeID s' = xs_nodeID s.

Lemma flushHandler_inv s s' : settled s → flushHandler s = (Ok tt, s') → settled s' ∧ sameView s s'.
Proof.
  intros [Hs Ht]. unfold flushHandler, commitHandler, openHandler, fatal, onConn. go_unfold.
  destruct (xs_readUncommitted s) eqn:Hru; go_unfold.
  - destruct (db_Commit (xs_conn s)) as [[e|] c1] eqn:Hc; [done|]. go_unfold.
    cbn [xs_readUncommitted set_conn set_commitPoint set_schemaChange xs_conn]. rewrite Hru.
    cbn [xs_conn set_conn set_commitPoint set_schemaChange]. destruct (db_Begin c1) as [[e|] c2] eqn:Hb; [done|]. go_unfold. intros [= <-].
    apply commit_content in Hc as [Hc1 _]. apply begin_content in Hb as [Hb1 Hb2].
    split; [split; [done|cbn; by rewrite Hru]|]. split_and!; try done. unfold db. cbn. congruence.
  - cbn [xs_readUncommitted set_commitPoint set_schemaChange]. rewrite Hru. intros [= <-].
    split; [split; [done|intros _; by apply Ht]|done].
Qed.

(** Commits and begins that do not fail. *)
Definition reliable : Prop := ∀ c : C, (db_Commit c).1 = None ∧ (db_Begin c).1 = None.

Lemma flushHandler_ok s : reliable → ∃ s', flushHandler s = (Ok tt, s').
Proof.
  intros Hrel. unfold flushHandler, commitHandler, openHandler, fatal, onConn. go_unfold.
  destruct (xs_readUncommitted s) eqn:Hru; go_unfold.
  - destruct (Hrel (xs_conn s)) as [Hc _]. destruct (db_Commit (xs_conn s)) as [e1 c1]. cbn in Hc. subst e1. go_unfold.
    cbn [xs_readUncommitted set_conn set_commitPoint set_schemaChange xs_conn]. rewrite Hru.
    cbn [xs_conn set_conn set_commitPoint set_schemaChange]. destruct (Hrel c1) as [_ Hb]. destruct (db_Begin c1) as [e2 c2]. cbn in Hb. subst e2. by eexists.
  - cbn [xs_readUncommitted set_commitPoint set_schemaChange]. rewrite Hru. by eexists.
Qed.

Lemma flushIfNeeded_inv s s' : settled s → flushIfNeeded s = (Ok tt, s') → settled s' ∧ sameView s s'.
Proof.
  intros Hs. unfold flushIfNeeded. go_unfold. case_decide; [by apply flushHandler_inv|]. by intros [= <-].
Qed.

(** ** Writes *)

Definition savepointed s req : bool := bool_decide (1 < length (rq_Queries req))%nat && xs_readUncommitted s.

Lemma wrappingX_inv {A} (m : GoM (State (C := C)) serror A) s r s' : wrappingX m s = (r, s') →
  ∃ r0, m s = (r0, s') ∧ match r with Ok a => r0 = Ok a | Err _ => ∃ e, r0 = Err e | Panic => r0 = Panic end.
Proof.
  unfold wrappingX. go_unfold. destruct (m s) as [[a|e|] s1]; intros [= <- <-]; eauto.
Qed.

Lemma releaseStep_inv (sp : bool) lastSeq s r s' : length (saves (xs_conn s)) = (if sp then 1 else 0)%nat →
  (xs_readUncommitted s = false → sp = false ∧ inTx (xs_conn s) = false) → releaseStep sp lastSeq s = (r, s') →
  match r with
  | Ok _ => settled s' ∧ sameView s s'
  | Err _ => sp = true ∧ saves (xs_conn s') = saves (xs_conn s) ∧ xs_readUncommitted s' = xs_readUncommitted s
  | Panic => True
  end.
Proof.
  intros Hsv Htx. unfold releaseStep. destruct sp.
  - unfold wrappingX, exec. go_unfold. destruct (db_Exec RELEASE_SAVEPOINT [SeqArg lastSeq] (xs_conn s)) as [r0 c] eqn:Hd.
    apply release_Exec in Hd as [Hco Hsa]. destruct r0 as [x|e|]; intros [= <- <-]; [|done..].
    destruct (saves (xs_conn s)) as [|d []]; [done| |done]. split; [|done]. split; [done|].
    cbn. intros Hru. by destruct (Htx Hru).
  - intros [= <- <-]. split; [|done]. split; [by destruct (saves (xs_conn s))|]. intros Hru. by apply Htx.
Qed.

Lemma flushIfNeeded_no_error s e s' : flushIfNeeded s = (Err e, s') → False.
Proof.
  unfold flushIfNeeded, flushHandler, commitHandler, openHandler, fatal, onConn. go_unfold. case_decide; [|done].
  destruct (xs_readUncommitted s) eqn:Hru; go_unfold.
  - destruct (db_Commit _) as [[e1|] c1]; [done|]. go_unfold. cbn [xs_readUncommitted set_conn set_commitPoint set_schemaChange].
    rewrite Hru. by destruct (db_Begin _) as [[e2|] c2].
  - cbn [xs_readUncommitted set_commitPoint set_schemaChange]. by rewrite Hru.
Qed.

(** The body of a write, up to the deferred statement. *)
Lemma writeBody_inv req isLeader lastSeq query s r s' : plainRequest req → 0 <= xs_current s →
  xs_current s + Z.of_nat (length (rq_Queries req)) < two64 →
  length (saves (xs_conn s)) = (if savepointed s req then 1 else 0)%nat →
  (xs_readUncommitted s = false → inTx (xs_conn s) = false) →
  writeBody req isLeader lastSeq query s = (r, s') →
  match r with
  | Ok _ => settled s' ∧ runQueries (rq_Queries req) (db s) = Some (db s') ∧
      xs_current s' = xs_current s + Z.of_nat (length (rq_Queries req)) ∧
      xs_pool s' = (if isLeader then enqueue lastSeq query (xs_pool s) else xs_pool s) ∧ xs_heap s' = xs_heap s ∧
      xs_readUncommitted s' = xs_readUncommitted s
  | Err _ => saves (xs_conn s') = saves (xs_conn s) ∧ xs_readUncommitted s' = xs_readUncommitted s
  | Panic => True
  end.
Proof.
  intros Hp Hc0 Hroom Hsv Htx. unfold writeBody. go_unfold. fold (savepointed s req).
  destruct (writeLoop (rq_Queries req) 0 0 s) as [r1 s1] eqn:Hl. apply writeLoop_inv in Hl as [Hf Hl]; [|done..].
  destruct Hf as (Hru & Hpo & Hhe & _ & _ & _ & Hsa & Hin).
  destruct r1 as [tl|e|]; [|by intros [= <- <-]..]. destruct Hl as [Hrun Hcur].
  destruct (releaseStep (savepointed s req) lastSeq s1) as [r2 s2] eqn:Hrel. apply releaseStep_inv in Hrel.
  2:{ by rewrite Hsa. }
  2:{ rewrite Hru, Hin. intros Hf. unfold savepointed. rewrite Hf, andb_false_r. auto. }
  destruct r2 as [[]|e|]; [|intros [= <- <-]; destruct Hrel as (_ & -> & ->); by rewrite Hsa, Hru|by intros [= <- <-]].
  destruct Hrel as [Hs2 (Hdb2 & Hcu2 & Hpo2 & Hhe2 & Hru2 & _)].
  destruct (flushIfNeeded s2) as [[[]|e|] s3] eqn:Hfl; [|by apply flushIfNeeded_no_error in Hfl|by intros [= <- <-]].
  apply flushIfNeeded_inv in Hfl as [Hs3 (Hdb3 & Hcu3 & Hpo3 & Hhe3 & Hru3 & _)]; [|done].
  assert (runQueries (rq_Queries req) (db s) = Some (db s3)) as Hrun3 by congruence.
  destruct isLeader; intros [= <- <-]; (split_and!; [by destruct Hs3|exact Hrun3|cbn; lia|..]); cbn; congruence.
Qed.

(** A request with its savepoint: the deferred ROLLBACK TO finds no savepoint after
    a success, and undoes the statements after a failure. *)
Lemma savepointed_write_inv req isLeader query s r s' : saves (xs_conn s) = [] → plainRequest req → 0 <= xs_current s →
  xs_current s + Z.of_nat (length (rq_Queries req)) < two64 → savepointed s req = true →
  (wrappingX (exec SAVEPOINT [SeqArg (xs_current s)]);;
   deferring (ignoring (exec ROLLBACK_TO [SeqArg (xs_current s)])) (writeBody req isLeader (xs_current s) query)) s = (r, s') →
  match r with
  | Ok _ => settled s' ∧ runQueries (rq_Queries req) (db s) = Some (db s') ∧
      xs_current s' = xs_current s + Z.of_nat (length (rq_Queries req)) ∧
      xs_pool s' = (if isLeader then enqueue (xs_current s) query (xs_pool s) else xs_pool s) ∧ xs_heap s' = xs_heap s ∧
      xs_readUncommitted s' = xs_readUncommitted s
  | Err _ => db s' = db s
  | Panic => True
  end.
Proof.
  intros Hsv Hp Hc0 Hroom Hsp. unfold wrappingX, exec. go_unfold.
  assert (xs_readUncommitted s = true) as Hru.
  { unfold savepointed in Hsp. destruct (xs_readUncommitted s); [done|]. by rewrite andb_false_r in Hsp. }
  destruct (db_Exec SAVEPOINT [SeqArg (xs_current s)] (xs_conn s)) as [r0 c] eqn:Hd.
  apply savepoint_Exec in Hd as [Hco Hsa]. destruct r0 as [x|e|]; [|intros [= <- <-]; done..]. go_unfold. unfold deferring.
  set (s2 := set_conn s c).
  destruct (writeBody req isLeader (xs_current s) query s2) as [r1 s3] eqn:Hb.
  apply writeBody_inv in Hb; [|done..| |].
  2:{ change (savepointed s2 req) with (savepointed s req). rewrite Hsp. cbn. rewrite Hsa. cbn. by rewrite Hsv. }
  2:{ cbn. by rewrite Hru. }
  destruct r1 as [x1|e|]; [| |by intros [= <- <-]]; unfold ignoring, exec; go_unfold;
    destruct (db_Exec ROLLBACK_TO [SeqArg (xs_current s)] (xs_conn s3)) as [r4 c4] eqn:Hd4;
    apply rollback_to_Exec in Hd4 as [Hsa4 Hco4].
  - destruct Hb as ([Hsv3 Htx3] & Hrun & Hcur & Hpo & Hhe & Hru3). rewrite Hsv3 in *.
    assert (db s2 = db s) as Hdb2 by done. rewrite Hdb2 in Hrun.
    destruct r4; go_unfold; intros [= <- <-].
    all: (split; [split; [done|cbn; rewrite Hru3; cbn; by rewrite Hru]|]); unfold db; cbn; rewrite ?Hco4; split_and!; done.
  - destruct Hb as [Hsv3 _]. rewrite Hsv3 in Hco4. cbn in Hco4. rewrite Hsa in Hco4.
    destruct r4; go_unfold; intros [= <- <-]; exact Hco4.
Qed.

(** A request without savepoint; outside a transaction the deferred ROLLBACK has
    nothing to undo. *)
Lemma bare_write_inv req isLeader query s r s' : settled s → plainRequest req → 0 <= xs_current s →
  xs_current s + Z.of_nat (length (rq_Queries req)) < two64 → savepointed s req = false →
  (if xs_readUncommitted s then writeBody req isLeader (xs_current s) query
   else deferring (ignoring (exec "ROLLBACK" [])) (writeBody req isLeader (xs_current s) query)) s = (r, s') →
  match r with
  | Ok _ => settled s' ∧ runQueries (rq_Queries req) (db s) = Some (db s') ∧
      xs_current s' = xs_current s + Z.of_nat (length (rq_Queries req)) ∧
      xs_pool s' = (if isLeader then enqueue (xs_current s) query (xs_pool s) else xs_pool s) ∧ xs_heap s' = xs_heap s ∧
      xs_readUncommitted s' = xs_readUncommitted s
  | _ => True
  end.
Proof.
  intros [Hsv Htx] Hp Hc0 Hroom Hsp.
  destruct (writeBody req isLeader (xs_current s) query s) as [r1 s3] eqn:Hb.
  pose proof Hb as Hb'. apply writeBody_inv in Hb'; [|done..| |done]; [|by rewrite Hsp, Hsv].
  destruct (xs_readUncommitted s) eqn:Hru.
  - rewrite Hb. intros [= -> ->]. by destruct r.
  - unfold deferring. rewrite Hb. destruct r1 as [x1|e|]; [| |by intros [= <- <-]].
    + destruct Hb' as ([Hsv3 Htx3] & Hrun & Hcur & Hpo & Hhe & Hru3).
      unfold ignoring, exec. go_unfold. destruct (db_Exec "ROLLBACK" [] (xs_conn s3)) as [r4 c4] eqn:Hd4.
      apply rollback_Exec in Hd4 as (Hco4 & Hsa4 & Htx4); [|by apply Htx3; rewrite Hru3].
      destruct r4; go_unfold; intros [= <- <-].
      all: (split; [split; [cbn; by rewrite Hsa4|done]|]); unfold db; cbn; rewrite ?Hco4; split_and!; done.
    + by intros [= <- _].
Qed.

(** A write: on success the statements ran on the content and the response carries
    the sequence number before them. *)
Lemma write_inv now req isLeader s r s' : settled s → plainRequest req → 0 <= xs_current s →
  xs_current s + Z.of_nat (length (rq_Queries req)) < two64 → write now req isLeader s = (r, s') →
  match r with
  | Ok (ref, resp) => settled s' ∧ runQueries (rq_Queries req) (db s) = Some (db s') ∧
      xs_current s' = xs_current s + Z.of_nat (length (rq_Queries req)) ∧
      rs_LogOffset (sr_Header (re_Header resp)) = xs_current s ∧
      ref = length (xs_heap s) ∧ xs_heap s' = xs_heap s ++ [MkQueryTracker req None] ∧
      xs_pool s' = (if isLeader then enqueue (xs_current s) ref (xs_pool s) else xs_pool s) ∧
      xs_readUncommitted s' = xs_readUncommitted s
  | Err _ => savepointed s req = true → db s' = db s
  | Panic => True
  end.
Proof.
  intros Hset Hp Hc0 Hroom. unfold write, newTracker. go_unfold.
  set (s1 := set_heap s (xs_heap s ++ [MkQueryTracker req None])).
  destruct (writeLocked req isLeader (length (xs_heap s)) s1) as [r1 s2] eqn:Hw. unfold writeLocked in Hw.
  intros Hres. apply bind_inv in Hw as [(? & ? & [= <- <-] & Hw)|(? & [= <- <-] & Hn & _)]; [|by destruct (Hn s1)].
  fold (savepointed s1 req) in Hw. change (savepointed s1 req) with (savepointed s req) in Hw.
  destruct (savepointed s req) eqn:Hsp.
  - apply savepointed_write_inv in Hw; [|apply Hset|done..].
    destruct r1 as [x|e|]; injection Hres as <- <-; [|done..].
    destruct Hw as (? & ? & ? & ? & ? & ?). split_and!; done.
  - apply bare_write_inv in Hw; [|done..].
    destruct r1 as [x|e|]; injection Hres as <- <-; [|done..].
    destruct Hw as (? & ? & ? & ? & ? & ?). split_and!; done.
Qed.

(** ** The pool *)

(** Every indexed sequence number is below the current one and has the position of
    a pooled query; later numbers have later positions. *)
Record PoolInv (cur : Z) (p : pool) : Prop := {
  pi_bound k v : po_index p !! k = Some v → k <= cur ∧ 0 <= v < Z.of_nat (length (po_queries p));
  pi_mono k k' v v' : po_index p !! k = Some v → po_index p !! k' = Some v' → k < k' → v < v';
}.

Lemma newPool_inv cur : PoolInv cur newPool.
Proof. split; intros *; cbn; by rewrite ?lookup_empty. Qed.

Lemma PoolInv_mono cur cur' p : cur <= cur' → PoolInv cur p → PoolInv cur' p.
Proof. intros Hle [Hb Hm]. split; [|done]. intros k v Hk. destruct (Hb k v Hk). split; [lia|done]. Qed.

Lemma enqueue_inv cur (t : nat) p : PoolInv cur p → PoolInv cur (enqueue cur t p).
Proof.
  intros [Hb Hm]. split; cbn.
  - intros k v. rewrite length_app. cbn. destruct (decide (cur = k)) as [<-|Hne].
    + rewrite lookup_insert_eq. intros [= <-]. lia.
    + rewrite lookup_insert_ne by done. intros Hk. destruct (Hb k v Hk). lia.
  - intros k k' v v'. destruct (decide (cur = k)) as [<-|Hne], (decide (cur = k')) as [<-|Hne']; intros Hk Hk' Hlt.
    + lia.
    + rewrite lookup_insert_ne in Hk' by done. destruct (Hb k' v' Hk'). lia.
    + rewrite lookup_insert_ne in Hk by done. rewrite lookup_insert_eq in Hk'. injection Hk' as <-. destruct (Hb k v Hk). lia.
    + rewrite lookup_insert_ne in Hk, Hk' by done. by eapply Hm.
Qed.

Lemma set_failed_inv cur f p : PoolInv cur p → PoolInv cur (set_failed f p).
Proof. by intros []. Qed.
Lemma removeFailed_inv cur rs p : PoolInv cur p → PoolInv cur (foldl (λ p r, removeFailed r p) p rs).
Proof. revert p. induction rs as [|r rs IH]; intros p Hp; [done|]. apply IH. by apply set_failed_inv. Qed.

(** [truncate] does not slice out of range, and keeps the later queries findable. *)
Lemma truncate_inv cur sp p : PoolInv cur p → ∃ p', truncate sp p = Ok p' ∧ PoolInv cur p'.
Proof.
  intros [Hb Hm]. unfold truncate. destruct (po_index p !! sp) as [pos|] eqn:Hsp; [|by exists p].
  destruct (Hb sp pos Hsp) as [_ Hpos]. rewrite decide_True by lia. eexists. split; [done|].
  assert (∀ k v, ((λ v, v - (pos + 1)) <$> filter (λ kv, kv.1 > sp) (po_index p)) !! k = Some v →
    ∃ v0, po_index p !! k = Some v0 ∧ k > sp ∧ v = v0 - (pos + 1)) as Hin.
  { intros k v. rewrite lookup_fmap. intros (v0 & Hk & ->)%fmap_Some. apply map_lookup_filter_Some in Hk as [Hk Hgt].
    by exists v0. }
  split; cbn.
  - intros k v (v0 & Hk & Hgt & ->)%Hin. destruct (Hb k v0 Hk) as [? ?]. pose proof (Hm sp k pos v0 Hsp Hk).
    rewrite length_drop. lia.
  - intros k k' v v' (v0 & Hk & _ & ->)%Hin (v1 & Hk' & _ & ->)%Hin Hlt. pose proof (Hm k k' v0 v1 Hk Hk' Hlt). lia.
Qed.

(** ** Executions *)

(** A list of queries as a node executed them, from a content and a sequence number. *)
Inductive executes : D → Z → list QueryAsTx → D → Z → Prop :=
| executes_nil d n : executes d n [] d n
| executes_read d n tx txs d' n' : rh_QueryType (rq_Header (qt_Request tx)) = ReadQuery →
    executes d n txs d' n' → executes d n (tx :: txs) d' n'
| executes_write d n tx d1 txs d' n' : rh_QueryType (rq_Header (qt_Request tx)) = WriteQuery →
    rs_LogOffset (sr_Header (qt_Response tx)) = n → rq_Queries (qt_Request tx) ≠ [] →
    runQueries (rq_Queries (qt_Request tx)) d = Some d1 →
    n + Z.of_nat (length (rq_Queries (qt_Request tx))) < two64 →
    executes d1 (n + Z.of_nat (length (rq_Queries (qt_Request tx)))) txs d' n' → executes d n (tx :: txs) d' n'.

Lemma executes_le d n txs d' n' : executes d n txs d' n' → n <= n'.
Proof. induction 1; lia. Qed.

Lemma executes_app d n txs1 d1 n1 txs2 d' n' : executes d n txs1 d1 n1 → executes d1 n1 txs2 d' n' →
  executes d n (txs1 ++ txs2) d' n'.
Proof. intros Hx1 Hx2. induction Hx1; cbn; eauto using executes. Qed.

Lemma runQueries_plain qs d d' : runQueries qs d = Some d' → Forall plainQuery qs.
Proof.
  revert d. induction qs as [|q qs IH]; intros d; cbn; [constructor|].
  destruct (runQuery q d) as [d1|] eqn:Hq; [|done]. cbn. intros Hr. constructor; [|by eapply IH].
  intros ddl pattern args Hc. unfold runQuery in Hq. rewrite Hc in Hq. by destruct (plain pattern).
Qed.

(** Queries before the replica's sequence number are skipped. *)
Lemma replayLoop_skip d n txs d1 n1 rest lastsp s : executes d n txs d1 n1 → n1 <= xs_current s →
  ∃ lastsp' heap, replayLoop (txs ++ rest) lastsp s = replayLoop rest lastsp' (set_heap s heap).
Proof.
  intros Hx. revert lastsp s. induction Hx as [d n|d n tx txs d' n' Hty _ IH|d n tx d1 txs d' n' Hty Hoff Hne Hrun Hroom Hx IH];
    intros lastsp s Hcur; cbn [app replayLoop].
  - exists lastsp, (xs_heap s). by destruct s.
  - rewrite decide_True by done. by apply IH.
  - rewrite decide_False by (by rewrite Hty). pose proof (executes_le _ _ _ _ _ Hx) as Hle.
    assert (0 < length (rq_Queries (qt_Request tx)))%nat by (destruct (rq_Queries _); [done|cbn; lia]).
    unfold newTracker. go_unfold. cbn [xs_current set_heap]. rewrite decide_False by lia. rewrite decide_True by lia.
    set (h := xs_heap s ++ _).
    destruct (IH (xs_current s) (set_heap s h)) as (l' & heap & ->); [done|]. exists l', heap. by destruct s.
Qed.

(** The others run. *)
Lemma replayLoop_run d n txs d' n' lastsp s : executes d n txs d' n' → settled s → PoolInv n (xs_pool s) →
  0 <= n → db s = d → xs_current s = n →
  ∃ lastsp' s', replayLoop txs lastsp s = (Ok lastsp', s') ∧ settled s' ∧ PoolInv n' (xs_pool s') ∧
    db s' = d' ∧ xs_current s' = n' ∧ xs_readUncommitted s' = xs_readUncommitted s.
Proof.
  intros Hx. revert lastsp s. induction Hx as [d n|d n tx txs d' n' Hty _ IH|d n tx d1 txs d' n' Hty Hoff Hne Hrun Hroom Hx IH];
    intros lastsp s Hset Hpool Hn Hdb Hcur; cbn [replayLoop].
  - exists lastsp, s. done.
  - rewrite decide_True by done. by apply IH.
  - rewrite decide_False by (by rewrite Hty). unfold newTracker. go_unfold. cbn [xs_current set_heap].
    rewrite decide_False by lia. rewrite decide_False by lia. rewrite decide_False by (by intros [? _]).
    set (s1 := set_heap s _). unfold wrappingX. go_unfold.
    destruct (writeLoop (rq_Queries (qt_Request tx)) 0 0 s1) as [r s2] eqn:Hw.
    apply writeLoop_inv in Hw as [(Hru & Hpo & Hhe & _ & _ & _ & Hsa & Hin) Hres];
      [|by eapply runQueries_plain|cbn; lia|cbn; lia].
    change (db s1) with (db s) in Hres. change (xs_current s1) with (xs_current s) in Hres.
    destruct r as [x|e|]; [|destruct Hres; congruence..]. destruct Hres as [Hrun2 Hcur2]. go_unfold. unfold onPool. go_unfold.
    set (s3 := set_pool s2 _).
    destruct (IH (xs_current s) s3) as (l' & s' & Hloop & Hs' & Hp' & Hdb' & Hcur' & Hru'); [..|exists l', s'].
    + destruct Hset as [? ?]. split; cbn; [by rewrite Hsa|rewrite Hru, Hin; done].
    + cbn. rewrite Hpo. apply (PoolInv_mono n); [lia|]. rewrite Hcur. by apply enqueue_inv.
    + lia.
    + change (db s3) with (db s2). congruence.
    + change (xs_current s3) with (xs_current s2). lia.
    + split_and!; try done. rewrite Hru'. cbn. by rewrite Hru.
Qed.

(** ** The leader *)

Lemma readLoop_state qer qs last s r s' : readLoop qer qs last s = (r, s') → s' = s.
Proof.
  revert last s. induction qs as [|q qs IH]; intros last s; cbn [readLoop]; [by intros [= _ <-]|].
  unfold readSingle. go_unfold. destruct (convertQueryAndBuildArgs _ _) as [[[ddl pattern] args]|e|]; [|by intros [= _ <-]..].
  destruct (db_Query _ _ _ _); [apply IH|by intros [= _ <-]..].
Qed.

(** A read changes neither the content nor the sequence number. *)
Lemma readTx_inv now req s r s' : readTx now req s = (Ok r, s') → settled s →
  settled s' ∧ db s' = db s ∧ xs_current s' = xs_current s ∧ xs_readUncommitted s' = xs_readUncommitted s.
Proof.
  intros Hr Hset. unfold readTx in Hr. go_unfold in Hr.
  destruct (if _ && _ then None else _) as [e|]; [done|].
  destruct (readLoop _ _ _ s) as [r1 s1] eqn:Hl. pose proof (readLoop_state _ _ _ _ _ _ Hl) as ->.
  destruct r1 as [[[cn ct] data]|e|]; [|by destruct (_ && _) in Hr|done].
  destruct (_ && _) in Hr; [done|]. unfold newTracker, onPool in Hr. go_unfold in Hr. by injection Hr as _ <-.
Qed.

Lemma CommitEx_inv s r s' : CommitEx s = (Ok r, s') → settled s →
  settled s' ∧ db s' = db s ∧ xs_current s' = xs_current s ∧ xs_readUncommitted s' = xs_readUncommitted s.
Proof.
  intros Hr Hset. unfold CommitEx in Hr. apply bind_Ok in Hr as ([] & s1 & Hf & Hr).
  apply flushHandler_inv in Hf as [Hs1 (Hdb & Hcu & _ & _ & Hru & _)]; [|done].
  unfold onPool in Hr. go_unfold in Hr. by injection Hr as _ <-.
Qed.

(** ** Failed requests *)

(** A failed request leaves the trackers and the pooled queries, but for a tracker of
    its own. *)
Definition sameQueries s s' : Prop :=
  xs_heap s' = xs_heap s ∧ po_queries (xs_pool s') = po_queries (xs_pool s) ∧ po_reads (xs_pool s') = po_reads (xs_pool s).

Lemma sameQueries_exec s0 query args : preserves (sameQueries s0) (exec query args).
Proof. intros s r s' Hs. unfold exec. destruct (db_Exec _ _ _) as [r0 c]. by intros [= _ <-]. Qed.
Lemma sameQueries_modify s0 f : (∀ s, xs_heap (f s) = xs_heap s ∧ xs_pool (f s) = xs_pool s) →
  preserves (sameQueries s0) (modifyS f : GoM (State (C := C)) serror unit).
Proof. intros Hf. apply preserves_modifyS. intros s Hs. unfold sameQueries. by destruct (Hf s) as [-> ->]. Qed.
Lemma sameQueries_wrapping {A} s0 (m : GoM (State (C := C)) serror A) : preserves (sameQueries s0) m → preserves (sameQueries s0) (wrappingX m).
Proof. intros Hm. unfold wrappingX. apply preserves_bind; [by apply preserves_attempt|]. intros []; auto with gomach. Qed.
Lemma sameQueries_ignoring {A} s0 (m : GoM (State (C := C)) serror A) : preserves (sameQueries s0) m → preserves (sameQueries s0) (ignoring m).
Proof. intros Hm. unfold ignoring. apply preserves_bind; [by apply preserves_attempt|]. intros ?. apply preserves_ret. Qed.

Lemma sameQueries_writeLoop s0 qs t l : preserves (sameQueries s0) (writeLoop qs t l).
Proof.
  revert t l. induction qs as [|q qs IH]; intros t l; cbn [writeLoop]; [apply preserves_ret|].
  apply preserves_bind; [|intros x; apply IH]. unfold writeSingle.
  destruct (convertQueryAndBuildArgs _ _) as [[[ddl pattern] args]|e|]; [|apply preserves_throw|apply preserves_panic].
  apply preserves_bind; [apply sameQueries_exec|]. intros x. apply preserves_bind.
  - destruct ddl; [by apply sameQueries_modify|apply preserves_ret].
  - intros _. apply preserves_bind; [by apply sameQueries_modify|]. intros _. apply preserves_ret.
Qed.
Lemma sameQueries_failed s0 req : preserves (sameQueries s0) (onPool (setFailed req)).
Proof. apply preserves_modifyS. by intros s. Qed.

Lemma failed_body s0 req isLeader lastSeq query s e s' : sameQueries s0 s →
  writeBody req isLeader lastSeq query s = (Err e, s') → sameQueries s0 s'.
Proof.
  intros Hs. unfold writeBody. go_unfold. destruct (writeLoop _ 0 0 s) as [r1 s1] eqn:Hl.
  apply sameQueries_writeLoop with (s0 := s0) in Hl; [|done]. destruct r1 as [x|e1|]; [| |done].
  - destruct (releaseStep _ lastSeq s1) as [r2 s2] eqn:Hr.
    assert (sameQueries s0 s2) as Hs2.
    { revert Hr. unfold releaseStep. case_match; [|by intros [= _ <-]]. apply preserves_bind; [|intros _; apply preserves_ret|done].
      apply sameQueries_wrapping, sameQueries_exec. }
    destruct r2 as [[]|e2|]; [|by intros [= _ <-]|done].
    destruct (flushIfNeeded s2) as [[[]|e3|] s3] eqn:Hf; [by destruct isLeader|by apply flushIfNeeded_no_error in Hf|done].
  - intros [= _ <-]. by apply (sameQueries_failed s0 req s1 (Ok tt)).
Qed.
Lemma failed_deferring {A} s0 cleanup (m : GoM (State (C := C)) serror A) s e s' : preserves (sameQueries s0) cleanup →
  (∀ s1, m s = (Err e, s1) → sameQueries s0 s1) → deferring cleanup m s = (Err e, s') → sameQueries s0 s'.
Proof.
  intros Hc Hm. unfold deferring. destruct (m s) as [[x|e1|] s1]; [done| |done]. intros [= -> <-].
  destruct (cleanup s1) as [r s2] eqn:He. by apply (Hc s1 r s2 (Hm s1 eq_refl)).
Qed.

Lemma failed_query now req isLeader s e s' : QueryWithContext now req isLeader s = (Err e, s') →
  (xs_heap s' = xs_heap s ∨ xs_heap s' = xs_heap s ++ [MkQueryTracker req None]) ∧
  po_queries (xs_pool s') = po_queries (xs_pool s) ∧ po_reads (xs_pool s') = po_reads (xs_pool s).
Proof.
  unfold QueryWithContext. case_decide; [|case_decide; [|intros [= _ <-]; auto]].
  - unfold readTx. go_unfold. destruct (if _ && _ then None else _) as [e1|]; [intros [= _ <-]; auto|].
    destruct (readLoop _ _ _ s) as [r1 s1] eqn:Hl. pose proof (readLoop_state _ _ _ _ _ _ Hl) as ->.
    destruct r1 as [[[cn ct] data]|e1|]; [by destruct (_ && _)| |done]. destruct (_ && _); [done|]. intros [= _ <-]. auto.
  - unfold write, newTracker. go_unfold. set (s1 := set_heap s _).
    destruct (writeLocked req isLeader (length (xs_heap s)) s1) as [[x|e1|] s2] eqn:Hw; [done| |done]. intros [= _ <-].
    assert (sameQueries s1 s2) as (-> & -> & ->); [|auto]. assert (sameQueries s1 s1) as Hs1 by done.
    revert Hw. unfold writeLocked. go_unfold. case_match; [|case_match].
    + intros [([] & s3 & Hsp & Hb)|(r0 & Hsp & _)]%bind_inv.
      * apply (sameQueries_wrapping s1 _ (sameQueries_exec s1 _ _)) in Hsp; [|done]. revert Hb.
        apply failed_deferring; [apply sameQueries_ignoring, sameQueries_exec|]. intros s4. by apply failed_body.
      * by apply (sameQueries_wrapping s1 _ (sameQueries_exec s1 _ _)) in Hsp.
    + by apply failed_body.
    + apply failed_deferring; [apply sameQueries_ignoring, sameQueries_exec|]. intros s4. by apply failed_body.
Qed.

(** A request that leaves the content, the sequence number and the savepoints as they
    were. *)
Definition untouched s s' : Prop := settled s' ∧ db s' = db s ∧ xs_current s' = xs_current s.

(** Every failed read is one, and every request of neither type. *)
Lemma failed_read_untouched now req isLeader s e s' : settled s → rh_QueryType (rq_Header req) ≠ WriteQuery →
  QueryWithContext now req isLeader s = (Err e, s') → untouched s s'.
Proof.
  intros Hset Hty. unfold QueryWithContext. rewrite (decide_False (P := _ = WriteQuery)) by done.
  case_decide; [|by intros [= _ <-]]. unfold readTx. go_unfold.
  destruct (if _ && _ then None else _) as [e1|]; [by intros [= _ <-]|].
  destruct (readLoop _ _ _ s) as [r1 s1] eqn:Hl. pose proof (readLoop_state _ _ _ _ _ _ Hl) as ->.
  destruct r1 as [[[cn ct] data]|e1|]; [by destruct (_ && _)| |done]. destruct (_ && _); [done|]. by intros [= _ <-].
Qed.

(** The requests a leader answers between two states, in the order in which it
    answers them, with failed requests that leave it untouched and with blocks
    produced in between. *)
Inductive leads : State (C := C) → list QueryAsTx → State (C := C) → Prop :=
| leads_nil s : leads s [] s
| leads_query now req ref resp s s1 tx txs s' : plainRequest req → rq_Queries req ≠ [] →
    xs_current s + Z.of_nat (length (rq_Queries req)) < two64 →
    QueryWithContext now req true s = (Ok (ref, resp), s1) →
    qt_Request tx = req → rs_LogOffset (sr_Header (qt_Response tx)) = rs_LogOffset (sr_Header (re_Header resp)) →
    leads s1 txs s' → leads s (tx :: txs) s'
| leads_failed now req e s s1 txs s' : QueryWithContext now req true s = (Err e, s1) → untouched s s1 →
    leads s1 txs s' → leads s txs s'
| leads_commit s x s1 txs s' : CommitEx s = (Ok x, s1) → leads s1 txs s' → leads s txs s'.

Lemma leads_executes s txs s' : leads s txs s' → settled s → 0 <= xs_current s →
  settled s' ∧ executes (db s) (xs_current s) txs (db s') (xs_current s').
Proof.
  induction 1 as [s|now req ref resp s s1 tx txs s' Hp Hne Hroom Hq Hreq Hoff _ IH|now req e s s1 txs s' _ (Hs1 & Hdb & Hcu) _ IH|s x s1 txs s' Hc _ IH]; intros Hset Hz0.
  - split; [done|constructor].
  - unfold QueryWithContext in Hq. destruct (decide _) as [Hread|Hnr]; [|destruct (decide _) as [Hwr|]; [|done]].
    + apply readTx_inv in Hq as (Hs1 & Hdb & Hcu & _); [|done]. destruct IH as [? Hx]; [done|lia|].
      rewrite Hdb, Hcu in Hx. split; [done|]. apply executes_read; [by rewrite Hreq|done].
    + apply write_inv in Hq as (Hs1 & Hrun & Hcu & Hlo & _); [|done..]. destruct IH as [? Hx]; [done|lia|].
      split; [done|]. rewrite Hcu in Hx. subst req. eapply executes_write; try done. congruence.
  - destruct IH as [? Hx]; [done|lia|]. by rewrite Hdb, Hcu in Hx.
  - apply CommitEx_inv in Hc as (Hs1 & Hdb & Hcu & _); [|done]. destruct IH as [? Hx]; [done|lia|].
    by rewrite Hdb, Hcu in Hx.
Qed.

(** Replaying a block of executed queries, of which the replica has the first part. *)
Lemma ReplayBlock_executes d0 n0 txs1 d n txs2 d' n' b r : reliable →
  executes d0 n0 txs1 d n → executes d n txs2 d' n' → sb_QueryTxs b = txs1 ++ txs2 →
  settled r → 0 <= n → PoolInv (xs_current r) (xs_pool r) → db r = d → xs_current r = n →
  ∃ r', ReplayBlock b r = (Ok tt, r') ∧ db r' = d' ∧ xs_current r' = n' ∧ settled r' ∧ PoolInv (xs_current r') (xs_pool r').
Proof.
  intros Hrel Hx1 Hx2 Hb Hr Hn Hpool Hdb Hcur.
  destruct (replayLoop_skip _ _ _ _ _ txs2 0 r Hx1 ltac:(lia)) as (l & heap & Hskip).
  destruct (replayLoop_run _ _ _ _ _ l (set_heap r heap) Hx2) as (l' & r1 & Hrun & Hr1 & Hp1 & Hdb1 & Hcu1 & _);
    [done|cbn; by rewrite <- Hcur|lia|done|done|].
  unfold ReplayBlock. rewrite Hb. unfold mbind at 1, gom_bind at 1. rewrite Hskip, Hrun.
  destruct (flushHandler_ok r1 Hrel) as [r2 Hf]. unfold mbind at 1, gom_bind at 1. rewrite Hf.
  destruct (flushHandler_inv _ _ Hr1 Hf) as [Hr2 (Hdb2 & Hcu2 & Hpo2 & _)]. unfold onPool. go_unfold.
  cbn [xs_pool set_pool].
  destruct (truncate_inv n' l' (foldl (λ p r, removeFailed r p) (xs_pool r2) (sb_FailedReqs b))) as (p' & Ht & Hp');
    [apply removeFailed_inv; by rewrite Hpo2|].
  rewrite Ht. eexists. split; [done|]. unfold db in *. cbn. rewrite Hcu2, Hcu1. split_and!; [congruence|done|exact Hr2|exact Hp'].
Qed.

(** C10: A replica that replays a block reaches the state of the leader that executed
    its queries, on stores whose commits and begins do not fail.  The leader answers
    the requests of [txs1] and then those of [txs2]: non-empty reads and writes of one
    or several statements that succeed, have no transaction control and stay below
    2^64 statements, with failed requests and blocks in between.  Of the failed
    requests only those may occur that leave the leader's content, sequence number and
    savepoints as they were, such as every failed read ([failed_read_untouched]); a
    write of several statements that fails after its first leaks sequence numbers and
    is excluded, because replicas then refuse the block ([failed_write_leaks_seq]).
    The replica has the content and the sequence number the leader had after [txs1],
    wherever that point lies in the block, no open savepoint and a consistent pool.
    Then [ReplayBlock] of a block that holds
    both lists succeeds, skips [txs1], executes [txs2], and ends with the leader's
    content and sequence number, no open savepoint and a consistent pool. *)
Theorem replay_converges s txs1 sk txs2 s' b r : reliable → settled s → 0 <= xs_current s →
  leads s txs1 sk → leads sk txs2 s' → sb_QueryTxs b = txs1 ++ txs2 →
  settled r → PoolInv (xs_current r) (xs_pool r) → db r = db sk → xs_current r = xs_current sk →
  ∃ r', ReplayBlock b r = (Ok tt, r') ∧ db r' = db s' ∧ xs_current r' = xs_current s' ∧
    settled r' ∧ PoolInv (xs_current r') (xs_pool r').
Proof.
  intros Hrel Hset Hz0 Hl1 Hl2 Hb Hr Hpool Hdb Hcur.
  destruct (leads_executes _ _ _ Hl1 Hset Hz0) as [Hsk Hx1]. pose proof (executes_le _ _ _ _ _ Hx1) as Hle.
  destruct (leads_executes _ _ _ Hl2 Hsk ltac:(lia)) as [Hs' Hx2].
  apply (ReplayBlock_executes _ _ txs1 (db sk) (xs_current sk) txs2 _ _ _ _ Hrel Hx1 Hx2); try done. lia.
Qed.
End props.
