(* ===== verification/XenoPool.v ===== *)
(** * xenomint: the pool over the life of a state

    Any sequence of requests, replays and blocks, successful or not, keeps the
    pool consistent with the sequence number: the positions of the index stay in
    range, so truncating the pool at a block never slices out of range. *)
From S2P Require Import Prelude Hash Types Block SqlTypes Sanitizer Xenomint XenoProps.
From Stdlib Require Import String ZArith Lia.
From stdpp Require Import base list gmap strings.
Local Open Scope Z_scope.

Section pool.
Context `{SqlEnv} `{!SqlParser} {C : Type} `{!SqlStore SqlValue C}.
Implicit Types (s : State (C := C)).
Abbreviation XM := (GoM (State (C := C)) serror).

(** ** Code that moves the sequence number by at most [k] *)

(** [lo] is a sequence number not above the current one. *)
Record poolOK (lo : Z) s : Prop := {
  po_lo : 0 <= lo <= xs_current s;
  po_inv : PoolInv lo (xs_pool s);
}.

Definition moves {A} (lo k : Z) (m : XM A) : Prop := ∀ s, poolOK lo s → xs_current s + k < two64 →
  poolOK lo (m s).2 ∧ xs_current s <= xs_current (m s).2 <= xs_current s + k.

(** [m] touches neither the pool nor the sequence number. *)
Definition quiet {A} (m : XM A) : Prop := ∀ s, xs_pool (m s).2 = xs_pool s ∧ xs_current (m s).2 = xs_current s.

Lemma moves_quiet {A} lo (m : XM A) : quiet m → moves lo 0 m.
Proof. intros Hq s [Hlo Hpo] _. destruct (Hq s) as [Hp Hc]. split; [split; [lia|by rewrite Hp]|lia]. Qed.

Lemma moves_bind {A B} lo k1 k2 (m : XM A) (f : A → XM B) : 0 <= k1 → 0 <= k2 →
  moves lo k1 m → (∀ a, moves lo k2 (f a)) → moves lo (k1 + k2) (mbind f m).
Proof.
  intros Hk1 Hk2 Hm Hf s Hs Hroom. unfold mbind, gom_bind. destruct (Hm s Hs ltac:(lia)) as [Hs1 Hc1].
  destruct (m s) as [[a|e|] s1]; cbn in *; [|split; [done|lia]..].
  destruct (Hf a s1 Hs1 ltac:(lia)) as [Hs2 Hc2]. split; [done|lia].
Qed.

Lemma moves_quiet_bind {A B} lo k (m : XM A) (f : A → XM B) : 0 <= k →
  quiet m → (∀ a, moves lo k (f a)) → moves lo k (mbind f m).
Proof. intros. replace k with (0 + k) by lia. apply moves_bind; [lia|done|by apply moves_quiet|done]. Qed.

Lemma moves_le {A} lo k k' (m : XM A) : k <= k' → moves lo k m → moves lo k' m.
Proof. intros Hle Hm s Hs Hroom. destruct (Hm s Hs ltac:(lia)). split; [done|lia]. Qed.

Lemma moves_attempt {A} lo k (m : XM A) : moves lo k m → moves lo k (attempt m).
Proof. intros Hm s Hs Hroom. destruct (Hm s Hs Hroom) as [? ?]. unfold attempt. by destruct (m s) as [[]]. Qed.

Lemma moves_wrapping {A} lo k (m : XM A) : 0 <= k → moves lo k m → moves lo k (wrappingX m).
Proof.
  intros Hk Hm. unfold wrappingX. replace k with (k + 0) by lia. apply moves_bind; [done..|by apply moves_attempt|].
  intros []; by apply moves_quiet.
Qed.

Lemma quiet_bind {A B} (m : XM A) (f : A → XM B) : quiet m → (∀ a, quiet (f a)) → quiet (mbind f m).
Proof.
  intros Hm Hf s. destruct (Hm s) as [Hp Hc]. unfold mbind, gom_bind. destruct (m s) as [[a|e|] s1]; [|done..].
  cbn in *. destruct (Hf a s1). split; congruence.
Qed.
Lemma quiet_attempt {A} (m : XM A) : quiet m → quiet (attempt m).
Proof. intros Hm s. specialize (Hm s). unfold attempt. by destruct (m s) as [[]]. Qed.
Lemma quiet_wrapping {A} (m : XM A) : quiet m → quiet (wrappingX m).
Proof. intros Hm. apply quiet_bind; [by apply quiet_attempt|]. by intros []. Qed.
Lemma quiet_ignoring {A} (m : XM A) : quiet m → quiet (ignoring m).
Proof. intros Hm. apply quiet_bind; [by apply quiet_attempt|done]. Qed.
Lemma quiet_exec q args : quiet (exec q args).
Proof. intros s. unfold exec. by destruct (db_Exec _ _ _). Qed.
Lemma quiet_fatal f : quiet (fatal f).
Proof.
  apply quiet_bind; [|by intros []]. intros s. unfold onConn. by destruct (f _).
Qed.
Lemma quiet_openHandler : quiet openHandler.
Proof. apply quiet_bind; [done|]. intros s. destruct (xs_readUncommitted s); [apply quiet_fatal|done]. Qed.
Lemma quiet_commitHandler : quiet commitHandler.
Proof.
  apply quiet_bind; [done|]. intros s. apply quiet_bind; [|done].
  destruct (xs_readUncommitted s); [apply quiet_fatal|done].
Qed.
Lemma quiet_rollbackHandler : quiet rollbackHandler.
Proof.
  apply quiet_bind; [done|]. intros s. apply quiet_bind; [|done].
  destruct (xs_readUncommitted s); [apply quiet_fatal|done].
Qed.
Lemma quiet_flushHandler : quiet flushHandler.
Proof. apply quiet_bind; [apply quiet_commitHandler|intros; apply quiet_openHandler]. Qed.
Lemma quiet_flushIfNeeded : quiet flushIfNeeded.
Proof. apply quiet_bind; [done|]. intros s. case_decide; [apply quiet_flushHandler|done]. Qed.
Lemma quiet_releaseStep sp n : quiet (releaseStep sp n).
Proof. destruct sp; [|done]. apply quiet_bind; [apply quiet_wrapping, quiet_exec|done]. Qed.
Lemma quiet_newTracker req resp : quiet (newTracker req resp).
Proof. done. Qed.

(** ** The parts of the operations *)

Lemma moves_writeSingle lo q : 0 <= lo → moves lo 1 (writeSingle q).
Proof.
  intros Hlo. unfold writeSingle.
  destruct (convertQueryAndBuildArgs _ _) as [[[ddl pattern] args]|e|];
    [|by eapply moves_le; [|apply moves_quiet]; [lia|]..].
  apply moves_quiet_bind; [lia|apply quiet_exec|]. intros r. apply moves_quiet_bind; [lia|by destruct ddl|]. intros _.
  intros s [Hl Hp] Hroom. unfold incSeq. go_unfold. cbn. rewrite u64_id by (unfold is_u64; lia).
  split; [split; [cbn; lia|done]|lia].
Qed.

Lemma moves_writeLoop lo qs t l : 0 <= lo → moves lo (Z.of_nat (length qs)) (writeLoop qs t l).
Proof.
  intros Hlo. revert t l. induction qs as [|q qs IH]; intros t l; cbn [writeLoop length]; [by apply moves_quiet|].
  replace (Z.of_nat (S (length qs))) with (1 + Z.of_nat (length qs)) by lia.
  apply moves_bind; [lia..|by apply moves_writeSingle|auto].
Qed.

Lemma moves_onPool lo f : (∀ p, PoolInv lo p → PoolInv lo (f p)) → moves lo 0 (onPool f).
Proof. intros Hf s [Hl Hp] _. split; [split; [done|by apply Hf]|cbn; lia]. Qed.

Lemma moves_pooled {A} lo f (k : unit → XM A) : (∀ p, PoolInv lo p → PoolInv lo (f p)) → (∀ a, quiet (k a)) →
  moves lo 0 (mbind k (onPool f)).
Proof. intros Hf Hk. change 0 with (0 + 0). apply moves_bind; [lia..|by apply moves_onPool|]. intros []. by apply moves_quiet. Qed.

Lemma moves_writeBody lo req (isLeader : bool) query : 0 <= lo →
  moves lo (Z.of_nat (length (rq_Queries req))) (writeBody req isLeader lo query).
Proof.
  intros Hlo. unfold writeBody. apply moves_quiet_bind; [lia|done|]. intros s0. rewrite <- (Z.add_0_r (Z.of_nat _)).
  apply moves_bind; [lia..|by apply moves_attempt, moves_writeLoop|]. intros [e|r].
  - apply moves_pooled; [intros p; apply set_failed_inv|done].
  - apply moves_quiet_bind; [lia|apply quiet_releaseStep|]. intros _.
    apply moves_quiet_bind; [lia|apply quiet_flushIfNeeded|]. intros _.
    destruct isLeader; [|by apply moves_quiet]. apply moves_pooled; [intros p; apply enqueue_inv|done].
Qed.

Lemma moves_deferring {A} lo k (c : XM unit) (m : XM A) : quiet c → moves lo k m → moves lo k (deferring c m).
Proof.
  intros Hc Hm s Hs Hroom. destruct (Hm s Hs Hroom) as [Hs1 Hc1]. unfold deferring. destruct (m s) as [r s1].
  cbn [snd] in *. destruct (Hc s1) as [Hp Hcu]. destruct r; cbn [snd]; [..|done].
  all: rewrite Hcu; split; [|done]; destruct Hs1; split; [by rewrite Hcu|by rewrite Hp].
Qed.

(** What an operation does to a state whose pool matches its sequence number. *)
Definition opMoves {A} (k : Z) (m : XM A) : Prop := ∀ s, poolOK (xs_current s) s → xs_current s + k < two64 →
  poolOK (xs_current (m s).2) (m s).2 ∧ xs_current s <= xs_current (m s).2 <= xs_current s + k.

Lemma poolOK_current lo s : poolOK lo s → poolOK (xs_current s) s.
Proof. intros [Hl Hp]. split; [lia|]. apply (PoolInv_mono lo); [lia|done]. Qed.

Lemma opMoves_moves {A} k (m : XM A) : (∀ lo, 0 <= lo → moves lo k m) → opMoves k m.
Proof. intros Hm s Hs Hroom. destruct (Hm (xs_current s) ltac:(destruct Hs; lia) s Hs Hroom). eauto using poolOK_current. Qed.

Lemma moves_readTx lo now req : moves lo 0 (readTx now req).
Proof.
  apply moves_quiet_bind; [lia|done|]. intros s.
  cbn beta zeta. match goal with |- moves _ _ (match ?x with _ => _ end) => destruct x end; [by apply moves_quiet|].
  apply moves_quiet_bind; [lia|apply quiet_attempt; intros s1; destruct (readLoop _ _ _ s1) eqn:Hl; by apply readLoop_state in Hl as ->|].
  intros res. destruct (xs_readUncommitted s && xs_hasSchemaChange s); [by apply moves_quiet|]. destruct res as [e|[[cn ct] data]].
  - apply moves_pooled; [intros p; apply set_failed_inv|done].
  - apply moves_quiet_bind; [lia|apply quiet_newTracker|]. intros ref. by apply moves_pooled; [intros p []|].
Qed.

Lemma writeLocked_moves req isLeader query s : poolOK (xs_current s) s →
  xs_current s + Z.of_nat (length (rq_Queries req)) < two64 →
  poolOK (xs_current s) (writeLocked req isLeader query s).2 ∧
  xs_current s <= xs_current (writeLocked req isLeader query s).2 <= xs_current s + Z.of_nat (length (rq_Queries req)).
Proof.
  intros Hs Hroom. assert (0 <= xs_current s) as Hlo by (destruct Hs; lia).
  set (lo := xs_current s) in *. set (body := writeBody req isLeader lo query).
  assert (writeLocked req isLeader query s = (if savepointed s req then
      wrappingX (exec SAVEPOINT [SeqArg lo]);; deferring (ignoring (exec ROLLBACK_TO [SeqArg lo])) body
    else if xs_readUncommitted s then body else deferring (ignoring (exec "ROLLBACK" [])) body) s) as -> by done.
  destruct (savepointed s req); [|destruct (xs_readUncommitted s)].
  - apply moves_quiet_bind; [lia|apply quiet_wrapping, quiet_exec| |done..].
    intros _. apply moves_deferring; [apply quiet_ignoring, quiet_exec|by apply moves_writeBody].
  - by apply moves_writeBody.
  - apply moves_deferring; [apply quiet_ignoring, quiet_exec|by apply moves_writeBody|done..].
Qed.

Lemma opMoves_write now req isLeader : opMoves (Z.of_nat (length (rq_Queries req))) (write now req isLeader).
Proof.
  intros s Hs Hroom. unfold write, newTracker. go_unfold. set (s1 := set_heap s _).
  destruct (writeLocked_moves req isLeader (length (xs_heap s)) s1) as [Hs2 Hc2]; [by destruct Hs|done|].
  destruct (writeLocked req isLeader (length (xs_heap s)) s1) as [[r|e|] s2]; cbn in *.
  all: split; [by eapply poolOK_current|done].
Qed.

Lemma opMoves_replay req resp : opMoves (Z.of_nat (length (rq_Queries req))) (replay req resp).
Proof.
  intros s Hs Hroom. assert (0 <= xs_current s) as Hlo by (destruct Hs; lia). unfold replay. go_unfold.
  set (lo := xs_current s) in *. set (k := Z.of_nat _) in *.
  enough (moves lo k (query ← newTracker req (Some resp);
    if decide (rs_LogOffset (sr_Header (re_Header resp)) ≠ lo) then throw (SWrap ErrQueryConflict)
    else wrappingX (writeLoop (rq_Queries req) 0 0);; flushIfNeeded;; onPool (enqueue lo query))) as Hm.
  { destruct (Hm s Hs Hroom). split; [by eapply poolOK_current|done]. }
  apply moves_quiet_bind; [lia|apply quiet_newTracker|]. intros query.
  case_decide; [apply (moves_le _ 0); [lia|by apply moves_quiet]|]. rewrite <- (Z.add_0_r k).
  apply moves_bind; [lia..|apply moves_wrapping; [lia|by apply moves_writeLoop]|]. intros _.
  apply moves_quiet_bind; [lia|apply quiet_flushIfNeeded|]. intros _. apply moves_onPool. intros p. apply enqueue_inv.
Qed.

(** ** Blocks *)

Definition blockStatements (txs : list QueryAsTx) : nat := sum_list_with (λ tx, length (rq_Queries (qt_Request tx))) txs.

Lemma opMoves_bind {A B} k1 k2 (m : XM A) (f : A → XM B) : 0 <= k1 → 0 <= k2 →
  opMoves k1 m → (∀ a, opMoves k2 (f a)) → opMoves (k1 + k2) (mbind f m).
Proof.
  intros Hk1 Hk2 Hm Hf s Hs Hroom. unfold mbind, gom_bind. destruct (Hm s Hs ltac:(lia)) as [Hs1 Hc1].
  destruct (m s) as [[a|e|] s1]; cbn in *; [|split; [done|lia]..].
  destruct (Hf a s1 Hs1 ltac:(lia)) as [Hs2 Hc2]. split; [done|lia].
Qed.
Lemma opMoves_quiet {A} (m : XM A) : quiet m → opMoves 0 m.
Proof. intros Hq. apply opMoves_moves. intros lo _. by apply moves_quiet. Qed.
Lemma opMoves_le {A} k k' (m : XM A) : k <= k' → opMoves k m → opMoves k' m.
Proof. intros Hle Hm s Hs Hroom. destruct (Hm s Hs ltac:(lia)). split; [done|lia]. Qed.

(** One query of a block that has the replica's sequence number. *)
Lemma replayOne_moves lo req query : 0 <= lo →
  moves lo (Z.of_nat (length (rq_Queries req)))
    ((if decide (rh_QueryType (rq_Header req) ≠ WriteQuery ∧ rq_Queries req ≠ [])
      then throw (SWrap ErrInvalidRequest)
      else wrappingX (writeLoop (rq_Queries req) 0 0);; mret tt);;
     onPool (enqueue lo query)).
Proof.
  intros Hlo. rewrite <- (Z.add_0_r (Z.of_nat _)). apply moves_bind; [lia..| |].
  - case_decide; [apply (moves_le _ 0); [lia|by apply moves_quiet]|]. rewrite <- (Z.add_0_r (Z.of_nat _)).
    apply moves_bind; [lia..|apply moves_wrapping; [lia|by apply moves_writeLoop]|]. intros _. by apply moves_quiet.
  - intros _. apply moves_onPool. intros p. apply enqueue_inv.
Qed.

Lemma opMoves_replayLoop txs lastsp : opMoves (Z.of_nat (blockStatements txs)) (replayLoop txs lastsp).
Proof.
  revert lastsp. induction txs as [|tx txs IH]; intros lastsp; cbn [replayLoop]; [by apply opMoves_quiet|].
  unfold blockStatements in *. cbn [sum_list_with]. set (k := length (rq_Queries (qt_Request tx))) in *.
  case_decide; [apply (opMoves_le _ _ _) with (2 := IH _); lia|].
  rewrite Nat2Z.inj_add. intros s Hs. unfold newTracker. go_unfold. set (s1 := set_heap s _).
  change (xs_current s) with (xs_current s1). assert (poolOK (xs_current s1) s1) as Hs1 by (by destruct Hs). clearbody s1. revert s1 Hs1.
  intros s1 Hs1 Hroom. case_decide; [cbn; split; [done|lia]|]. case_decide.
  { destruct (IH (xs_current s1) s1 Hs1 ltac:(lia)). split; [done|lia]. }
  destruct (replayOne_moves (xs_current s1) (qt_Request tx) (length (xs_heap s))) with (s := s1) as [Hs2 Hc2];
    [destruct Hs1; lia|done|fold k; lia|].
  go_unfold in Hs2. go_unfold in Hc2. apply poolOK_current in Hs2. fold k in Hc2.
  set (rest := if decide (rh_QueryType _ ≠ _ ∧ _) then _ else _) in *.
  destruct (rest s1) as [[[]|e|] s2]; cbn in Hs2, Hc2 |- *; [|split; [done|lia]..].
  match type of Hs2 with poolOK _ ?s3 => destruct (IH (xs_current s1) s3 Hs2 ltac:(cbn; lia)) as [Hs3 Hc3] end. cbn in Hc3. split; [done|lia].
Qed.

Lemma opMoves_ReplayBlock b : opMoves (Z.of_nat (blockStatements (sb_QueryTxs b))) (ReplayBlock b).
Proof.
  unfold ReplayBlock. rewrite <- (Z.add_0_r (Z.of_nat _)). apply opMoves_bind; [lia..|apply opMoves_replayLoop|].
  intros lastsp. apply opMoves_moves. intros lo Hlo. apply moves_quiet_bind; [lia|apply quiet_flushHandler|]. intros _.
  change 0 with (0 + 0). apply moves_bind; [lia..|apply moves_onPool; intros p; apply removeFailed_inv|]. intros _.
  intros s Hs Hroom. go_unfold. destruct (truncate_inv lo lastsp (xs_pool s) (po_inv _ _ Hs)) as (p' & -> & Hp').
  unfold onPool. go_unfold. cbn. destruct Hs. split; [by split|lia].
Qed.

Lemma opMoves_CommitEx : opMoves 0 CommitEx.
Proof.
  apply opMoves_moves. intros lo Hlo. apply moves_quiet_bind; [lia|apply quiet_flushHandler|]. intros _.
  apply moves_quiet_bind; [lia|done|]. intros s. apply moves_pooled; [intros; apply newPool_inv|done].
Qed.

Lemma quiet_Close commit : quiet (Close commit).
Proof.
  apply quiet_bind; [done|]. intros s. destruct (xs_closed s); [done|].
  apply quiet_bind; [destruct commit; [apply quiet_commitHandler|apply quiet_rollbackHandler]|]. intros _.
  apply quiet_bind; [intros s1; unfold onConn; by destruct (db_Close _)|]. by intros [].
Qed.

(** ** The life of a state *)

Inductive xop :=
| OpQuery (now : Z) (req : Request) (isLeader : bool)
| OpReplay (req : Request) (resp : Response)
| OpReplayBlock (b : Block)
| OpCommitEx
| OpUpdateResp (q : nat) (resp : Response)
| OpClose (commit : bool).

Definition runOp (op : xop) : XM unit :=
  match op with
  | OpQuery now req isLeader => QueryWithContext now req isLeader;; mret tt
  | OpReplay req resp => ReplayWithContext req resp
  | OpReplayBlock b => ReplayBlock b
  | OpCommitEx => CommitEx;; mret tt
  | OpUpdateResp q resp => UpdateResp q resp
  | OpClose commit => Close commit
  end.
Definition opStatements (op : xop) : nat :=
  match op with
  | OpQuery _ req _ | OpReplay req _ => length (rq_Queries req)
  | OpReplayBlock b => blockStatements (sb_QueryTxs b)
  | _ => 0
  end.

(** The state after the operations, whatever they return. *)
Definition runOps (ops : list xop) s : State := foldl (λ s op, (runOp op s).2) s ops.

Lemma opMoves_ret {A} k (m : XM A) : 0 <= k → opMoves k m → opMoves k (m;; mret tt).
Proof. intros Hk Hm. rewrite <- (Z.add_0_r k). apply opMoves_bind; [lia..|done|]. intros _. by apply opMoves_quiet. Qed.

Lemma runOp_moves op : opMoves (Z.of_nat (opStatements op)) (runOp op).
Proof.
  destruct op as [now req isLeader|req resp|b| |q resp|commit]; cbn [runOp opStatements].
  - apply opMoves_ret; [lia|]. unfold QueryWithContext. case_decide; [|case_decide].
    + apply (opMoves_le 0); [lia|]. apply opMoves_moves. intros lo _. apply moves_readTx.
    + apply opMoves_write.
    + apply (opMoves_le 0); [lia|by apply opMoves_quiet].
  - unfold ReplayWithContext. case_decide; [|case_decide]; [|apply opMoves_replay|].
    all: apply (opMoves_le 0); [lia|by apply opMoves_quiet].
  - apply opMoves_ReplayBlock.
  - apply opMoves_ret; [lia|apply opMoves_CommitEx].
  - by apply opMoves_quiet.
  - apply opMoves_quiet, quiet_Close.
Qed.

Lemma runOps_moves ops s : poolOK (xs_current s) s → xs_current s + Z.of_nat (sum_list_with opStatements ops) < two64 →
  poolOK (xs_current (runOps ops s)) (runOps ops s).
Proof.
  unfold runOps. revert s. induction ops as [|op ops IH]; intros s Hs Hroom; [done|]. cbn [sum_list_with foldl] in *.
  destruct (runOp_moves op s Hs ltac:(lia)) as [Hs1 Hc1]. apply IH; [done|lia].
Qed.

(** C11: From a new state, any sequence of queries (by leader or follower), replayed
    requests, replayed blocks, produced blocks and closes, whatever each of them
    returns, leaves the pool consistent with the sequence number, as long as fewer
    than 2^64 statements were given: every indexed sequence number is at most the
    current one and its position is that of a pooled query, in increasing order; so
    truncating the pool, at any sequence number, does not panic and keeps it so. *)
Theorem pool_life ru node c ops : Z.of_nat (sum_list_with opStatements ops) < two64 →
  let s := runOps ops (NewState ru node c).2 in
  PoolInv (xs_current s) (xs_pool s) ∧
  ∀ sp, ∃ p', truncate sp (xs_pool s) = Ok p' ∧ PoolInv (xs_current s) p'.
Proof.
  intros Hroom s. destruct (runOps_moves ops (NewState ru node c).2) as [_ Hp].
  - destruct (quiet_openHandler (MkState ru c newPool false node 100 0 0 false [])) as [Hp Hc].
    unfold NewState. split; [rewrite Hc; cbn; lia|]. rewrite Hp. apply newPool_inv.
  - destruct (quiet_openHandler (MkState ru c newPool false node 100 0 0 false [])) as [_ Hc].
    unfold NewState. rewrite Hc. cbn. lia.
  - split; [done|]. intros sp. by apply truncate_inv.
Qed.
End pool.
