(* ===== verification/XenoSample.v ===== *)
(** * A concrete SQL store and runs of the database state

    A store that keeps the list of the statements it ran, with transactions and
    savepoints, as an instance of [SqlStore] and [SqlLaws]; runs of the theorems on
    it, and the runs on which a failed request of several statements harms the
    requests after it. *)
From S2P Require Import Prelude Hash Types Block SqlTypes Sanitizer Xenomint XenoProps XenoPool.
From S2P Require Import MetaState MetaView MetaTx Ledger LedgerRefine Sample.
From S2P Require Import Storage StorageProps Branch BranchProps ChainSample.
From Stdlib Require Import String ZArith Lia.
From stdpp Require Import base list gmap strings.
Local Open Scope Z_scope.

#[export] Instance sampleSqlEnv : SqlEnv := {|
  SqlValue := Z;
  MarshalHash_RequestHeader := λ h, Some [rh_SeqNo h];
  MarshalHash_RequestPayload := λ qs, Some [Z.of_nat (length qs)];
  MarshalHash_ResponseHeader := λ h, Some [rs_LogOffset h];
  MarshalHash_ResponsePayload := λ p, Some [Z.of_nat (length p.2)];
  MarshalHash_AckHeader := λ a, Some [ak_Timestamp a];
|}.

(** Statements are their own syntax trees; CREATE changes the schema. *)
#[export] Instance sampleParser : SqlParser := {|
  ParseMultiple := λ s, Some [(s, if HasPrefix s "CREATE" then DDL "" "" [] else OtherStatement, Node OtherNode [])];
|}.

(** ** The store *)

Record conn := MkConn { cn_rows : list string; cn_committed : list string; cn_saves : list (list string); cn_tx : bool }.

Definition runStatement (q : string) (rows : list string) : GoResult serror (Z * Z) * list string :=
  if decide (q = "FAIL"%string) then (Err (SNew q), rows) else (Ok (1, Z.of_nat (length rows)), rows ++ [q]).

Definition conn_Exec (q : string) (args : list (sqlArg Z)) (c : conn) : GoResult serror (Z * Z) * conn :=
  let '(MkConn rows committed saves tx) := c in
  if decide (q = SAVEPOINT) then (Ok (0, 0), MkConn rows committed (rows :: saves) tx)
  else if decide (q = ROLLBACK_TO) then
    match saves with
    | [] => (Err (SNew "no such savepoint"), c)
    | d :: _ => (Ok (0, 0), MkConn d committed saves tx)
    end
  else if decide (q = RELEASE_SAVEPOINT) then
    match saves with
    | [] => (Err (SNew "no such savepoint"), c)
    | _ :: saves => (Ok (0, 0), MkConn rows committed saves tx)
    end
  else if decide (q = "ROLLBACK"%string) then
    if tx then (Ok (0, 0), MkConn committed committed [] false) else (Err (SNew "no transaction is active"), c)
  else let '(r, rows) := runStatement q rows in (r, MkConn rows committed saves tx).

#[export] Instance sampleStore : SqlStore Z conn := {|
  db_Exec := conn_Exec;
  db_Query := λ _ _ _ c, Ok ([], [], [[Z.of_nat (length (cn_rows c))]]);
  db_Begin := λ c, (None, MkConn (cn_rows c) (cn_rows c) [] true);
  db_Commit := λ c, (None, MkConn (cn_rows c) (cn_rows c) [] false);
  db_Rollback := λ c, (None, MkConn (cn_committed c) (cn_committed c) [] false);
  db_ReaderBegin := λ _, None;
  db_Close := λ c, (None, c);
|}.

Definition samplePlain (q : string) : bool :=
  bool_decide (q ∉ [SAVEPOINT; ROLLBACK_TO; RELEASE_SAVEPOINT; "ROLLBACK"%string]).

#[export, refine] Instance sampleLaws : SqlLaws Z conn (list string) := {|
  content := cn_rows;
  saves := cn_saves;
  inTx := cn_tx;
  plain := samplePlain;
  run := λ q _, runStatement q;
|}.
Proof.
  - intros q args [rows com sv tx] r c' Hp%bool_decide_eq_true. cbn. unfold conn_Exec.
    rewrite !decide_False by (intros ->; apply Hp; set_solver).
    destruct (runStatement q rows) as [r0 rows']. by intros [= <- <-].
  - intros args [] r c' [= <- <-]. done.
  - intros args [rows com [|d sv] tx] r c' [= <- <-]; done.
  - intros args [rows com [|d sv] tx] r c' [= <- <-]; done.
  - intros [rows com sv tx] r c'. cbn. intros ->. intros [= <- <-]. done.
  - intros [] e c' [= <- <-]. done.
  - intros [] c' [= <-]. done.
Defined.

(** ** Requests *)

Definition sampleRequest (ty id : Z) (stmts : list string) : Request :=
  MkRequest (MkRequestHeader ty "client" "db" 1 id 0 (Z.of_nat (length stmts)) zeroHash)
    (MkHSV (addr id) (Some 7) None) ((λ p, MkQuery p []) <$> stmts).

(** A new state on an empty store, and the state after some requests to a leader. *)
Definition fresh : State (C := conn) := (NewState true "node" (MkConn [] [] [] false)).2.
Definition after (reqs : list Request) (s : State (C := conn)) : State (C := conn) :=
  runOps ((λ req, OpQuery 0 req true) <$> reqs) s.

(** The block that holds the requests, with the log offsets given. *)
Definition sampleTx (req : Request) (off : Z) : QueryAsTx :=
  MkQueryAsTx req (MkSignedResponseHeader
    (MkResponseHeader (rq_Header req) (Request_Hash req) "node" 0 1 off 0 (Z.of_nat (length (rq_Queries req)))
      zeroHash (addr 4)) zeroHash).
Definition sampleSqlBlock (txs : list QueryAsTx) : Block :=
  MkBlock (MkSignedHeader (MkHeader 1 "node" zeroHash zeroHash zeroHash 0) (MkHSV zeroHash None None)) [] txs [].

Definition is_Ok {E A} (r : GoResult E A) : bool := match r with Ok _ => true | _ => false end.
Definition sampleUnsigned : Block := sampleSqlBlock [sampleTx (sampleRequest WriteQuery 1 ["INSERT 1"]) 0].

Lemma sampleUnsigned_signed : is_Ok (Block_PackAndSignBlock sampleUnsigned sampleKey) = true.
Proof. vm_compute. reflexivity. Qed.

Lemma SqlBlock_sign_verify_witness : ∃ b',
  Block_PackAndSignBlock sampleUnsigned sampleKey = Ok b' ∧ SqlBlock_Verify b' = Ok tt.
Proof.
  pose proof sampleUnsigned_signed as Hok.
  destruct (Block_PackAndSignBlock sampleUnsigned sampleKey) as [b'| |] eqn:Hb; [|discriminate Hok..].
  exists b'. exact (conj eq_refl (SqlBlock_sign_verify _ _ _ Hb)).
Defined.

Definition w1 : Request := sampleRequest WriteQuery 1 ["INSERT 1"; "INSERT 2"].
Definition w2 : Request := sampleRequest WriteQuery 2 ["INSERT 3"].
Definition r3 : Request := sampleRequest ReadQuery 3 ["SELECT"].

Lemma sample_plain ty id stmts :
  forallb (λ p, match convertQueryAndBuildArgs (V := SqlValue) p [] with Ok (_, p, _) => samplePlain p | _ => true end) stmts = true →
  plainRequest (sampleRequest ty id stmts).
Proof.
  intros Hall. apply Forall_fmap, Forall_forall. intros p Hp ddl pattern args Hc.
  rewrite forallb_forall in Hall. specialize (Hall p ltac:(by apply list_elem_of_In)).
  cbn [qu_Pattern qu_Args] in Hc. rewrite Hc in Hall. exact Hall.
Qed.

(** The leader answers [req] with the log offset of [tx]. *)
Definition answers (req : Request) (tx : QueryAsTx) (s : State (C := conn)) : bool :=
  match QueryWithContext 0 req true s with
  | (Ok (_, resp), _) => bool_decide (rs_LogOffset (sr_Header (qt_Response tx)) = rs_LogOffset (sr_Header (re_Header resp)))
  | _ => false
  end.

Lemma leads_one req tx txs s s' : plainRequest req → rq_Queries req ≠ [] → qt_Request tx = req →
  bool_decide (xs_current s + Z.of_nat (length (rq_Queries req)) < two64) = true → answers req tx s = true →
  leads (after [req] s) txs s' → leads s (tx :: txs) s'.
Proof.
  intros Hp Hne Hreq Hroom%bool_decide_eq_true Ha Hl. unfold answers in Ha.
  unfold after, runOps in Hl. cbn [fmap list_fmap foldl runOp] in Hl. unfold mbind, gom_bind in Hl.
  destruct (QueryWithContext 0 req true s) as [[[ref resp]|e|] s1] eqn:Hq; [|discriminate Ha..].
  apply bool_decide_eq_true in Ha. by eapply leads_query.
Qed.

Lemma sample_leads1 : leads fresh [sampleTx w1 0] (after [w1] fresh).
Proof.
  apply (leads_one w1); [by apply sample_plain|discriminate|reflexivity|vm_compute; reflexivity..|apply leads_nil].
Qed.
(** A write that fails at its only statement leaves the leader untouched. *)
Definition refused : Request := sampleRequest WriteQuery 5 ["FAIL"].
Definition failsUntouched (req : Request) (s : State (C := conn)) : bool :=
  match QueryWithContext 0 req true s with
  | (Err _, s1) => bool_decide (cn_saves (xs_conn s1) = []) && xs_readUncommitted s1 &&
      bool_decide (cn_rows (xs_conn s1) = cn_rows (xs_conn s)) && bool_decide (xs_current s1 = xs_current s)
  | _ => false
  end.
Lemma leads_fails req txs s s' : failsUntouched req s = true → leads (after [req] s) txs s' → leads s txs s'.
Proof.
  unfold failsUntouched. intros Hf Hl. unfold after, runOps in Hl. cbn [fmap list_fmap foldl runOp] in Hl. unfold mbind, gom_bind in Hl.
  destruct (QueryWithContext 0 req true s) as [[[ref resp]|e|] s1] eqn:Hq; [discriminate Hf| |discriminate Hf].
  rewrite !andb_true_iff, !bool_decide_eq_true in Hf. destruct Hf as [[[Hsv Hru] Hdb] Hcur].
  eapply leads_failed; [exact Hq| |exact Hl]. split; [|exact (conj Hdb Hcur)]. split; [exact Hsv|]. rewrite Hru. discriminate.
Qed.
Lemma sample_leads2 : leads (after [w1] fresh) [sampleTx w2 2; sampleTx r3 3] (after [r3] (after [w2] (after [refused] (after [w1] fresh)))).
Proof.
  apply (leads_fails refused); [vm_compute; reflexivity|].
  apply (leads_one w2); [by apply sample_plain|discriminate|reflexivity|vm_compute; reflexivity..|].
  apply (leads_one r3); [by apply sample_plain|discriminate|reflexivity|vm_compute; reflexivity..|apply leads_nil].
Qed.

(** A follower that has run the first request replays the block of all three. *)
Lemma replay_converges_witness : ∃ r',
  ReplayBlock (sampleSqlBlock [sampleTx w1 0; sampleTx w2 2; sampleTx r3 3]) (runOps [OpQuery 0 w1 false] fresh) = (Ok tt, r') ∧
  db r' = ["INSERT 1"; "INSERT 2"; "INSERT 3"]%string ∧ xs_current r' = 3.
Proof.
  destruct (replay_converges fresh [sampleTx w1 0] (after [w1] fresh) [sampleTx w2 2; sampleTx r3 3]
    (after [r3] (after [w2] (after [refused] (after [w1] fresh)))) (sampleSqlBlock [sampleTx w1 0; sampleTx w2 2; sampleTx r3 3])
    (runOps [OpQuery 0 w1 false] fresh)) as (r' & Hr & Hdb & Hcur & _).
  - done.
  - done.
  - done.
  - apply sample_leads1.
  - apply sample_leads2.
  - reflexivity.
  - done.
  - apply newPool_inv.
  - vm_compute. reflexivity.
  - vm_compute. reflexivity.
  - exists r'. split; [exact Hr|]. rewrite Hdb, Hcur. split; vm_compute; reflexivity.
Defined.

Lemma pool_life_witness :
  let s := runOps [OpQuery 0 w1 true; OpQuery 0 r3 true; OpReplayBlock (sampleSqlBlock [sampleTx w2 2])] fresh in
  PoolInv (xs_current s) (xs_pool s) ∧ po_queries (xs_pool s) = [].
Proof.
  destruct (pool_life true "node" (MkConn [] [] [] false)
    [OpQuery 0 w1 true; OpQuery 0 r3 true; OpReplayBlock (sampleSqlBlock [sampleTx w2 2])]) as [Hp _].
  - vm_compute. reflexivity.
  - split; [exact Hp|]. vm_compute. reflexivity.
Defined.

(** ** After a failed request *)

Definition bad : Request := sampleRequest WriteQuery 4 ["INSERT 0"; "FAIL"].

(** The statements of a failed request are undone, its sequence numbers are not: a
    replica, which does not get the failed request, refuses the next block. *)
Lemma failed_write_leaks_seq :
  db (after [bad] fresh) = [] ∧ xs_current (after [bad] fresh) = 1 ∧
  answers w2 (sampleTx w2 1) (after [bad] fresh) = true ∧
  (ReplayBlock (sampleSqlBlock [sampleTx w2 1]) fresh).1 = Err ErrMissingParent.
Proof. repeat apply conj; vm_compute; reflexivity. Qed.

(** The savepoint of the failed request stays open, so that the deferred ROLLBACK TO
    of the next request of several statements, which succeeds, undoes it. *)
Lemma failed_write_undoes_next :
  answers w1 (sampleTx w1 1) (after [bad] fresh) = true ∧
  db (after [bad; w1] fresh) = [] ∧ xs_current (after [bad; w1] fresh) = 3.
Proof. repeat apply conj; vm_compute; reflexivity. Qed.

(** After a failed request with a schema change every read takes the lock twice. *)
Definition is_Panic {E A} (r : GoResult E A) : bool := match r with Panic => true | _ => false end.
Lemma failed_ddl_blocks_reads :
  is_Panic (QueryWithContext 0 r3 true (after [sampleRequest WriteQuery 5 ["CREATE TABLE t"; "FAIL"]] fresh)).1 = true.
Proof. vm_compute. reflexivity. Qed.

(** A block without writes truncates the pool at sequence number 0, and with it a
    pooled write that is in no block yet. *)
Lemma empty_block_drops_first_write :
  po_queries (xs_pool (after [w1] fresh)) = [0]%nat ∧
  po_queries (xs_pool (ReplayBlock (sampleSqlBlock []) (after [w1] fresh)).2) = [].
Proof. apply conj; vm_compute; reflexivity. Qed.
