(* ===== verification/AckIndex.v ===== *)
(** * The index of responses and acknowledgements of a SQL chain

    Models [src/sqlchain/ackindex.go]: per height the responses that wait for an
    acknowledgement and the acknowledgements that wait for a block, with a barrier
    below which heights have expired, and the counters kept for statistics.  The
    index refines two flat tables keyed by height and query.  The locks make every
    operation atomic. *)
From S2P Require Import Prelude Hash Types Block SqlTypes.
From Stdlib Require Import String ZArith Lia.
From stdpp Require Import base list gmap strings.
Local Open Scope Z_scope.

Section ack_index.
Context `{Env}.

Record multiAckIndex := MkMultiAckIndex {
  mi_respIndex : gmap QueryKey SignedResponseHeader;
  mi_ackIndex : gmap QueryKey SignedAckHeader;
}.

(** [hi] owns its multi-indexes; the counters of the owner are here. *)
Record ackIndex := MkAckIndex {
  ai_hi : gmap Z multiAckIndex;
  ai_barrier : Z;
  ai_multiIndexCount : Z;
  ai_responseCount : Z;
  ai_ackCount : Z;
}.
Implicit Types (ai : ackIndex) (mi : multiAckIndex).
Abbreviation AM := (GoM ackIndex serror).

Definition newAckIndex : ackIndex := MkAckIndex ∅ 0 0 0 0.

Definition addCounts (multi resp ack : Z) ai : ackIndex :=
  MkAckIndex (ai_hi ai) (ai_barrier ai) (i32 (ai_multiIndexCount ai + multi)) (i32 (ai_responseCount ai + resp))
    (i32 (ai_ackCount ai + ack)).
Definition set_hi (hi : gmap Z multiAckIndex) ai : ackIndex :=
  MkAckIndex hi (ai_barrier ai) (ai_multiIndexCount ai) (ai_responseCount ai) (ai_ackCount ai).
Definition emptyMulti : multiAckIndex := MkMultiAckIndex ∅ ∅.

(** [load]: the multi-index of a height, created if missing. *)
Definition load (h : Z) : AM multiAckIndex :=
  ai ← getS;
  if decide (h < ai_barrier ai) then throw (SWrap ErrQueryExpired)
  else
    match ai_hi ai !! h with
    | Some mi => mret mi
    | None => modifyS (λ ai, addCounts 1 0 0 (set_hi (<[h := emptyMulti]> (ai_hi ai)) ai));; mret emptyMulti
    end.

(** An operation on the multi-index of a height, with the changes of the owner's
    counters of responses and acknowledgements. *)
Definition onMulti (h : Z) (f : multiAckIndex → GoResult serror unit * multiAckIndex * (Z * Z)) : AM unit :=
  mi ← load h;
  let '(r, mi', (resp, ack)) := f mi in
  modifyS (λ ai, addCounts 0 resp ack (set_hi (<[h := mi']> (ai_hi ai)) ai));;
  liftR r.

Definition multi_addResponse (resp : SignedResponseHeader) mi : GoResult serror unit * multiAckIndex * (Z * Z) :=
  let key := GetQueryKey (rs_Request (sr_Header resp)) in
  match mi_respIndex mi !! key with
  | Some oresp =>
      if decide (sr_ResponseHash oresp ≠ sr_ResponseHash resp) then (Err (SWrap ErrResponseSeqNotMatch), mi, (0, 0))
      else (Ok tt, mi, (0, 0))
  | None => (Ok tt, MkMultiAckIndex (<[key := resp]> (mi_respIndex mi)) (mi_ackIndex mi), (1, 0))
  end.

(** A hash that does not match is reported, and the acknowledgement registered. *)
Definition multi_register (ack : SignedAckHeader) mi : GoResult serror unit * multiAckIndex * (Z * Z) :=
  let key := Ack_GetQueryKey (sa_Header ack) in
  match mi_respIndex mi !! key with
  | None => (Err (SWrap ErrQueryNotFound), mi, (0, 0))
  | Some resp =>
      let r := if decide (sr_ResponseHash resp ≠ ak_ResponseHash (sa_Header ack))
               then Err (SWrap ErrResponseSeqNotMatch) else Ok tt in
      (r, MkMultiAckIndex (delete key (mi_respIndex mi)) (<[key := ack]> (mi_ackIndex mi)), (-1, 1))
  end.

Definition multi_remove (ack : SignedAckHeader) mi : GoResult serror unit * multiAckIndex * (Z * Z) :=
  let key := Ack_GetQueryKey (sa_Header ack) in
  match mi_respIndex mi !! key with
  | Some _ => (Ok tt, MkMultiAckIndex (delete key (mi_respIndex mi)) (mi_ackIndex mi), (-1, 0))
  | None =>
      match mi_ackIndex mi !! key with
      | Some oack =>
          if decide (Ack_Hash oack ≠ Ack_Hash ack) then (Err (SWrap ErrMultipleAckOfSeqNo), mi, (0, 0))
          else (Ok tt, MkMultiAckIndex (mi_respIndex mi) (delete key (mi_ackIndex mi)), (0, -1))
      | None => (Err (SWrap ErrQueryNotFound), mi, (0, 0))
      end
  end.

(** The order of a Go map is not specified; [map_to_list] is one. *)
Definition multi_acks mi : list SignedAckHeader := (map_to_list (mi_ackIndex mi)).*2.

Definition addResponse (h : Z) (resp : SignedResponseHeader) : AM unit := onMulti h (multi_addResponse resp).
Definition register (h : Z) (ack : SignedAckHeader) : AM unit := onMulti h (multi_register ack).
Definition remove (h : Z) (ack : SignedAckHeader) : AM unit := onMulti h (multi_remove ack).

Definition sumBy (f : multiAckIndex → Z) (hi : gmap Z multiAckIndex) : Z :=
  foldr Z.add 0 (f <$> (map_to_list hi).*2).
Definition respSize mi : Z := Z.of_nat (size (mi_respIndex mi)).
Definition ackSize mi : Z := Z.of_nat (size (mi_ackIndex mi)).

(** [advance]: drop the heights from the barrier up to [h]. *)
Definition expires ai (h : Z) (x : Z) : Prop := ai_barrier ai <= x < h.
#[export] Instance expires_dec ai h x : Decision (expires ai h x).
Proof. unfold expires. apply _. Defined.
Definition advance (h : Z) ai : ackIndex :=
  let dl := filter (λ kv, expires ai h kv.1) (ai_hi ai) in
  addCounts (- Z.of_nat (size dl)) (- sumBy respSize dl) (- sumBy ackSize dl)
    (MkAckIndex (filter (λ kv, ¬ expires ai h kv.1) (ai_hi ai)) h (ai_multiIndexCount ai) (ai_responseCount ai) (ai_ackCount ai)).

(** [acks]: the acknowledgements from height [x] on, [n] heights; each height is
    loaded, and so created. *)
Fixpoint acksLoop (x : Z) (n : nat) : AM (list SignedAckHeader) :=
  match n with
  | O => mret []
  | S n =>
      res ← attempt (load x);
      let here := match res with inr mi => multi_acks mi | inl _ => [] end in
      rest ← acksLoop (x + 1) n; mret (here ++ rest)
  end.
Definition acks (h : Z) : AM (list SignedAckHeader) :=
  ai ← getS; acksLoop (ai_barrier ai) (Z.to_nat (h - ai_barrier ai + 1)).

(** ** The specification: two flat tables *)

Record ackTable := MkAckTable {
  at_barrier : Z;
  at_resp : gmap (Z * QueryKey) SignedResponseHeader;
  at_ack : gmap (Z * QueryKey) SignedAckHeader;
}.
Implicit Types (t : ackTable).

(** The operations of an index, and what they return. *)
Inductive ackOp :=
| OpAddResponse (h : Z) (resp : SignedResponseHeader)
| OpRegister (h : Z) (ack : SignedAckHeader)
| OpRemove (h : Z) (ack : SignedAckHeader)
| OpAdvance (h : Z)
| OpAcks (h : Z).
Inductive ackOut := OutResult (r : GoResult serror unit) | OutAcks (l : list SignedAckHeader).

Definition runAckOp (op : ackOp) ai : ackOut * ackIndex :=
  match op with
  | OpAddResponse h resp => let '(r, ai) := addResponse h resp ai in (OutResult r, ai)
  | OpRegister h ack => let '(r, ai) := register h ack ai in (OutResult r, ai)
  | OpRemove h ack => let '(r, ai) := remove h ack ai in (OutResult r, ai)
  | OpAdvance h => (OutResult (Ok tt), advance h ai)
  | OpAcks h => let '(r, ai) := acks h ai in (OutAcks (match r with Ok l => l | _ => [] end), ai)
  end.

Definition specOp (op : ackOp) t : ackOut * ackTable :=
  let b := at_barrier t in
  let R := at_resp t in
  let A := at_ack t in
  let expired := OutResult (Err (SWrap ErrQueryExpired)) in
  match op with
  | OpAddResponse h resp =>
      let k := (h, GetQueryKey (rs_Request (sr_Header resp))) in
      if decide (h < b) then (expired, t)
      else match R !! k with
      | Some old => (OutResult (if decide (sr_ResponseHash old = sr_ResponseHash resp) then Ok tt
                                else Err (SWrap ErrResponseSeqNotMatch)), t)
      | None => (OutResult (Ok tt), MkAckTable b (<[k := resp]> R) A)
      end
  | OpRegister h ack =>
      let k := (h, Ack_GetQueryKey (sa_Header ack)) in
      if decide (h < b) then (expired, t)
      else match R !! k with
      | None => (OutResult (Err (SWrap ErrQueryNotFound)), t)
      | Some resp => (OutResult (if decide (sr_ResponseHash resp = ak_ResponseHash (sa_Header ack)) then Ok tt
                                 else Err (SWrap ErrResponseSeqNotMatch)), MkAckTable b (delete k R) (<[k := ack]> A))
      end
  | OpRemove h ack =>
      let k := (h, Ack_GetQueryKey (sa_Header ack)) in
      if decide (h < b) then (expired, t)
      else match R !! k, A !! k with
      | Some _, _ => (OutResult (Ok tt), MkAckTable b (delete k R) A)
      | None, Some old =>
          if decide (Ack_Hash old = Ack_Hash ack) then (OutResult (Ok tt), MkAckTable b R (delete k A))
          else (OutResult (Err (SWrap ErrMultipleAckOfSeqNo)), t)
      | None, None => (OutResult (Err (SWrap ErrQueryNotFound)), t)
      end
  | OpAdvance h =>
      (OutResult (Ok tt), MkAckTable h (filter (λ kv, ¬ b <= kv.1.1 < h) R) (filter (λ kv, ¬ b <= kv.1.1 < h) A))
  | OpAcks h => (OutAcks (map_to_list (filter (λ kv, kv.1.1 <= h) A)).*2, t)
  end.

(** Lists of acknowledgements are equal up to their order. *)
Definition sameOut (o o' : ackOut) : Prop :=
  match o, o' with
  | OutResult r, OutResult r' => r = r'
  | OutAcks l, OutAcks l' => l ≡ₚ l'
  | _, _ => False
  end.

(** ** Refinement *)

Definition multiAt (hi : gmap Z multiAckIndex) (h : Z) : multiAckIndex := default emptyMulti (hi !! h).

(** The index holds the tables, no height is below the barrier, and the counters
    of heights and of waiting responses are right. *)
Record holds ai t : Prop := {
  ho_barrier : at_barrier t = ai_barrier ai;
  ho_resp h k : at_resp t !! (h, k) = mi_respIndex (multiAt (ai_hi ai) h) !! k;
  ho_ack h k : at_ack t !! (h, k) = mi_ackIndex (multiAt (ai_hi ai) h) !! k;
  ho_low h mi : ai_hi ai !! h = Some mi → ai_barrier ai <= h;
  ho_multi : ai_multiIndexCount ai = i32 (Z.of_nat (size (ai_hi ai)));
  ho_count : ai_responseCount ai = i32 (sumBy respSize (ai_hi ai));
}.

Lemma i32_add x d : i32 (i32 x + d) = i32 (x + d).
Proof.
  unfold i32, two32. f_equal. replace ((x + 2 ^ 31) mod 2 ^ 32 - 2 ^ 31 + d + 2 ^ 31) with ((x + 2 ^ 31) mod 2 ^ 32 + d) by lia.
  rewrite Z.add_mod_idemp_l by done. f_equal. lia.
Qed.

Lemma sumBy_insert f hi h mi : hi !! h = None → sumBy f (<[h := mi]> hi) = f mi + sumBy f hi.
Proof.
  intros Hn. unfold sumBy. pose proof (map_to_list_insert hi h mi Hn) as Hp.
  apply (fmap_Permutation snd), (fmap_Permutation f) in Hp. cbn in Hp.
  assert (∀ l l', l ≡ₚ l' → foldr Z.add 0 l = foldr Z.add 0 l') as Hsum.
  { induction 1; cbn; lia. }
  rewrite (Hsum _ _ Hp). done.
Qed.
Lemma sumBy_delete f hi h mi : hi !! h = Some mi → sumBy f hi = f mi + sumBy f (delete h hi).
Proof.
  intros Hs. rewrite <- (insert_delete_id hi h mi) at 1 by done. apply sumBy_insert, lookup_delete_eq.
Qed.
Lemma sumBy_update f hi h mi mi' : hi !! h = Some mi → sumBy f (<[h := mi']> hi) = sumBy f hi - f mi + f mi'.
Proof.
  intros Hs. rewrite (sumBy_delete f hi h mi Hs), <- insert_delete_eq. rewrite sumBy_insert by apply lookup_delete_eq. lia.
Qed.
Lemma sumBy_filter f hi (P : Z * multiAckIndex → Prop) `{!∀ x, Decision (P x)} :
  sumBy f hi = sumBy f (filter P hi) + sumBy f (filter (λ x, ¬ P x) hi).
Proof.
  induction hi as [|h mi hi Hn IH] using map_ind; [by rewrite !map_filter_empty|].
  rewrite sumBy_insert by done. destruct (decide (P (h, mi))) as [HP|HP].
  - rewrite (map_filter_insert_True P), (map_filter_insert_False (λ x, ¬ P x)), delete_id by (auto; tauto).
    rewrite sumBy_insert by (apply map_lookup_filter_None; auto). lia.
  - rewrite (map_filter_insert_False P), (map_filter_insert_True (λ x, ¬ P x)), delete_id by (auto; tauto).
    rewrite (sumBy_insert f (filter (λ x, ¬ P x) hi)) by (apply map_lookup_filter_None; auto). lia.
Qed.

Lemma holds_new : holds newAckIndex (MkAckTable 0 ∅ ∅).
Proof. split; try done; intros *; cbn; by rewrite ?lookup_empty. Qed.

Lemma load_spec h ai t r ai' : holds ai t → load h ai = (r, ai') → holds ai' t ∧
  match r with
  | Ok mi => ¬ h < ai_barrier ai ∧ ai_hi ai' !! h = Some mi ∧ mi = multiAt (ai_hi ai) h
  | Err e => e = SWrap ErrQueryExpired ∧ h < ai_barrier ai
  | Panic => False
  end.
Proof.
  intros Ht. unfold load. go_unfold. case_decide as Hb; [by intros [= <- <-]|].
  destruct (ai_hi ai !! h) as [mi|] eqn:Hh; intros [= <- <-].
  - split_and!; try done. unfold multiAt. by rewrite Hh.
  - destruct Ht as [Hba Hre Hac Hlo Hmu Hco]. split_and!; [|done|cbn; by rewrite lookup_insert_eq|unfold multiAt; by rewrite Hh].
    assert (∀ h', multiAt (<[h := emptyMulti]> (ai_hi ai)) h' = multiAt (ai_hi ai) h') as Hm.
    { intros h'. unfold multiAt. destruct (decide (h = h')) as [<-|]; [by rewrite lookup_insert_eq, Hh|by rewrite lookup_insert_ne]. }
    split; cbn.
    + done.
    + intros h' k. by rewrite Hm.
    + intros h' k. by rewrite Hm.
    + intros h' mi. destruct (decide (h = h')) as [<-|]; [intros _; lia|]. rewrite lookup_insert_ne by done. apply Hlo.
    + rewrite Hmu, i32_add, map_size_insert_None by done. f_equal. lia.
    + rewrite sumBy_insert by done. rewrite Hco, i32_add. apply (f_equal i32). change (respSize emptyMulti) with 0. lia.
Qed.

(** An operation whose effect on the tables at height [h] is that of [f]. *)
Lemma onMulti_spec h f ai t r ai' R' A' : holds ai t → onMulti h f ai = (r, ai') → ¬ h < ai_barrier ai →
  (let '(r', mi', (dr, _)) := f (multiAt (ai_hi ai) h) in
   dr = respSize mi' - respSize (multiAt (ai_hi ai) h) ∧
   (∀ h' k, R' !! (h', k) = if decide (h' = h) then mi_respIndex mi' !! k else at_resp t !! (h', k)) ∧
   (∀ h' k, A' !! (h', k) = if decide (h' = h) then mi_ackIndex mi' !! k else at_ack t !! (h', k))) →
  r = (f (multiAt (ai_hi ai) h)).1.1 ∧ holds ai' (MkAckTable (at_barrier t) R' A').
Proof.
  intros Ht Hop Hb Hf. unfold onMulti in Hop. go_unfold in Hop.
  destruct (load h ai) as [r1 ai1] eqn:Hl. apply (load_spec _ _ t) in Hl as [Ht1 Hl]; [|done].
  assert (ai_barrier ai1 = ai_barrier ai) as Hba1 by (destruct Ht, Ht1; congruence).
  destruct r1 as [mi|e|]; [|by destruct Hl|done]. destruct Hl as (_ & Hhi1 & ->).
  destruct (f (multiAt (ai_hi ai) h)) as [[r' mi'] [dr da]]. go_unfold in Hop. injection Hop as <- <-.
  destruct Hf as (Hdr & HR & HA). split; [done|]. destruct Ht1 as [Hba Hre Hac Hlo Hmu Hco].
  assert (∀ h', multiAt (<[h := mi']> (ai_hi ai1)) h' = if decide (h' = h) then mi' else multiAt (ai_hi ai1) h') as Hm.
  { intros h'. unfold multiAt. case_decide as Hd; [subst; by rewrite lookup_insert_eq|by rewrite lookup_insert_ne]. }
  split; cbn.
  - done.
  - intros h' k. rewrite HR, Hm. case_decide; [done|]. apply Hre.
  - intros h' k. rewrite HA, Hm. case_decide; [done|]. apply Hac.
  - intros h' m. destruct (decide (h = h')) as [<-|]; [intros _; lia|]. rewrite lookup_insert_ne by done. apply Hlo.
  - rewrite Hmu, i32_add, map_size_insert_Some by done. f_equal. lia.
  - rewrite (sumBy_update _ _ _ _ _ Hhi1), Hco, i32_add. f_equal. lia.
Qed.

Lemma onMulti_no_panic h f ai : (∀ mi, (f mi).1.1 ≠ Panic) → (onMulti h f ai).1 ≠ Panic.
Proof.
  intros Hf. unfold onMulti, load. go_unfold. case_decide; [done|].
  destruct (ai_hi ai !! h) as [mi|]; go_unfold; [specialize (Hf mi)|specialize (Hf emptyMulti)];
    by destruct (f _) as [[r mi'] [dr da]].
Qed.
Lemma addResponse_no_panic h resp ai : (addResponse h resp ai).1 ≠ Panic.
Proof. apply onMulti_no_panic. intros mi. unfold multi_addResponse. repeat case_match; done. Qed.
Lemma remove_no_panic h ack ai : (remove h ack ai).1 ≠ Panic.
Proof. apply onMulti_no_panic. intros mi. unfold multi_remove. repeat case_match; done. Qed.

Lemma onMulti_expired h f ai t r ai' : holds ai t → onMulti h f ai = (r, ai') → h < ai_barrier ai →
  r = Err (SWrap ErrQueryExpired) ∧ holds ai' t.
Proof.
  intros Ht Hop Hb. unfold onMulti in Hop. go_unfold in Hop.
  destruct (load h ai) as [r1 ai1] eqn:Hl. apply (load_spec _ _ t) in Hl as [Ht1 Hl]; [|done].
  destruct r1 as [mi|e|]; [by destruct Hl|destruct Hl as [-> _]; by injection Hop as <- <-|done].
Qed.

(** The tables do not change. *)
Lemma onMulti_same h f ai t r ai' res : holds ai t → onMulti h f ai = (r, ai') → ¬ h < ai_barrier ai →
  f (multiAt (ai_hi ai) h) = (res, multiAt (ai_hi ai) h, (0, 0)) → r = res ∧ holds ai' t.
Proof.
  intros Ht Hop Hb Hf. destruct (onMulti_spec h f ai t r ai' (at_resp t) (at_ack t) Ht Hop Hb) as [Hr Ht'].
  - rewrite Hf. split_and!; [lia|..]; intros h' k; case_decide; subst; [apply Ht|done|apply Ht|done].
  - rewrite Hf in Hr. split; [done|]. by destruct t.
Qed.

(** A change at one height, seen in a flat table. *)
Section flat.
Context {V : Type} (F : gmap (Z * QueryKey) V) (m : gmap QueryKey V) (h : Z) (Hm : ∀ k, F !! (h, k) = m !! k).
Lemma flat_same h' k' : F !! (h', k') = if decide (h' = h) then m !! k' else F !! (h', k').
Proof using Hm. case_decide; subst; auto. Qed.
Lemma flat_insert k v h' k' : <[(h, k) := v]> F !! (h', k') = if decide (h' = h) then <[k := v]> m !! k' else F !! (h', k').
Proof using Hm.
  case_decide; subst; [|by rewrite lookup_insert_ne by congruence].
  destruct (decide (k = k')) as [<-|]; [by rewrite !lookup_insert_eq|]. by rewrite !lookup_insert_ne by congruence.
Qed.
Lemma flat_delete k h' k' : delete (h, k) F !! (h', k') = if decide (h' = h) then delete k m !! k' else F !! (h', k').
Proof using Hm.
  case_decide; subst; [|by rewrite lookup_delete_ne by congruence].
  destruct (decide (k = k')) as [<-|]; [by rewrite !lookup_delete_eq|]. by rewrite !lookup_delete_ne by congruence.
Qed.
End flat.

Definition refines (op : ackOp) : Prop := ∀ ai t, holds ai t →
  let '(o, ai') := runAckOp op ai in let '(o', t') := specOp op t in sameOut o o' ∧ holds ai' t'.

Lemma size_delete_Z {V} (m : gmap QueryKey V) k v : m !! k = Some v →
  Z.of_nat (size (delete k m)) = Z.of_nat (size m) - 1.
Proof.
  intros Hk. rewrite map_size_delete, Hk.
  assert (size m ≠ 0%nat) by (intros Hz%map_size_empty_inv; by rewrite Hz, lookup_empty in Hk). lia.
Qed.

Lemma addResponse_refines h resp : refines (OpAddResponse h resp).
Proof.
  intros ai t Ht. cbn [runAckOp specOp]. destruct (addResponse h resp ai) as [r ai'] eqn:Hop. unfold addResponse in Hop.
  rewrite (ho_barrier _ _ Ht). case_decide as Hb; [by destruct (onMulti_expired _ _ _ _ _ _ Ht Hop Hb) as [-> ?]|].
  set (k := GetQueryKey _). rewrite (ho_resp _ _ Ht).
  assert (multi_addResponse resp (multiAt (ai_hi ai) h) = match mi_respIndex (multiAt (ai_hi ai) h) !! k with
    | Some old => if decide (sr_ResponseHash old ≠ sr_ResponseHash resp) then _ else _ | None => _ end) as Hf by done.
  destruct (mi_respIndex (multiAt (ai_hi ai) h) !! k) as [old|] eqn:Hold.
  - destruct (onMulti_same _ _ _ _ _ _ (if decide (sr_ResponseHash old = sr_ResponseHash resp) then Ok tt
      else Err (SWrap ErrResponseSeqNotMatch)) Ht Hop Hb) as [-> ?]; [|done].
    rewrite Hf. repeat case_decide; done.
  - rewrite <- (ho_barrier _ _ Ht).
    destruct (onMulti_spec h _ ai t r ai' (<[(h, k) := resp]> (at_resp t)) (at_ack t) Ht Hop Hb) as [Hr Ht'].
    + rewrite Hf. split_and!; [|intros; apply flat_insert, Ht|intros; apply flat_same, Ht].
      unfold respSize. cbn. rewrite map_size_insert_None by done. lia.
    + rewrite Hf in Hr. by rewrite Hr.
Qed.

Lemma register_refines h ack : refines (OpRegister h ack).
Proof.
  intros ai t Ht. cbn [runAckOp specOp]. destruct (register h ack ai) as [r ai'] eqn:Hop. unfold register in Hop.
  rewrite (ho_barrier _ _ Ht). case_decide as Hb; [by destruct (onMulti_expired _ _ _ _ _ _ Ht Hop Hb) as [-> ?]|].
  set (k := Ack_GetQueryKey _). rewrite (ho_resp _ _ Ht).
  assert (multi_register ack (multiAt (ai_hi ai) h) = match mi_respIndex (multiAt (ai_hi ai) h) !! k with
    | Some resp => _ | None => _ end) as Hf by done.
  destruct (mi_respIndex (multiAt (ai_hi ai) h) !! k) as [resp|] eqn:Hold.
  - rewrite <- (ho_barrier _ _ Ht).
    destruct (onMulti_spec h _ ai t r ai' (delete (h, k) (at_resp t)) (<[(h, k) := ack]> (at_ack t)) Ht Hop Hb) as [Hr Ht'].
    + rewrite Hf. split_and!; [|intros; apply flat_delete, Ht|intros; apply flat_insert, Ht].
      unfold respSize. cbn [mi_respIndex]. fold k. rewrite (size_delete_Z _ _ _ Hold). lia.
    + rewrite Hf in Hr. cbn in Hr. split; [|done]. cbn. rewrite Hr. repeat case_decide; done.
  - by destruct (onMulti_same _ _ _ _ _ _ _ Ht Hop Hb Hf) as [-> ?].
Qed.

Lemma remove_refines h ack : refines (OpRemove h ack).
Proof.
  intros ai t Ht. cbn [runAckOp specOp]. destruct (remove h ack ai) as [r ai'] eqn:Hop. unfold remove in Hop.
  rewrite (ho_barrier _ _ Ht). case_decide as Hb; [by destruct (onMulti_expired _ _ _ _ _ _ Ht Hop Hb) as [-> ?]|].
  set (k := Ack_GetQueryKey _). rewrite (ho_resp _ _ Ht), (ho_ack _ _ Ht).
  assert (multi_remove ack (multiAt (ai_hi ai) h) = match mi_respIndex (multiAt (ai_hi ai) h) !! k with
    | Some resp => _ | None => match mi_ackIndex (multiAt (ai_hi ai) h) !! k with
      | Some oack => if decide (Ack_Hash oack ≠ Ack_Hash ack) then _ else _ | None => _ end end) as Hf by done.
  destruct (mi_respIndex (multiAt (ai_hi ai) h) !! k) as [resp|] eqn:Hold;
    [|destruct (mi_ackIndex (multiAt (ai_hi ai) h) !! k) as [oack|] eqn:Hoack; [destruct (decide (Ack_Hash oack = Ack_Hash ack)) as [Hh|Hh]|]].
  - rewrite <- (ho_barrier _ _ Ht).
    destruct (onMulti_spec h _ ai t r ai' (delete (h, k) (at_resp t)) (at_ack t) Ht Hop Hb) as [Hr Ht'].
    + rewrite Hf. split_and!; [|intros; apply flat_delete, Ht|intros; apply flat_same, Ht].
      unfold respSize. cbn [mi_respIndex]. fold k. rewrite (size_delete_Z _ _ _ Hold). lia.
    + rewrite Hf in Hr. by rewrite Hr.
  - rewrite decide_False in Hf by auto. rewrite <- (ho_barrier _ _ Ht).
    destruct (onMulti_spec h _ ai t r ai' (at_resp t) (delete (h, k) (at_ack t)) Ht Hop Hb) as [Hr Ht'].
    + rewrite Hf. split_and!; [unfold respSize; cbn [mi_respIndex]; lia|intros; apply flat_same, Ht|intros; apply flat_delete, Ht].
    + rewrite Hf in Hr. by rewrite Hr.
  - rewrite decide_True in Hf by auto. by destruct (onMulti_same _ _ _ _ _ _ _ Ht Hop Hb Hf) as [-> ?].
  - by destruct (onMulti_same _ _ _ _ _ _ _ Ht Hop Hb Hf) as [-> ?].
Qed.

Lemma size_sum (hi : gmap Z multiAckIndex) : Z.of_nat (size hi) = sumBy (λ _, 1) hi.
Proof.
  unfold sumBy. rewrite <- length_map_to_list. induction (map_to_list hi) as [|x l IH]; [done|]. cbn. rewrite <- IH. lia.
Qed.

Lemma multiAt_filter (P : Z → Prop) `{!∀ x, Decision (P x)} (hi : gmap Z multiAckIndex) h :
  multiAt (filter (λ kv, P kv.1) hi) h = if decide (P h) then multiAt hi h else emptyMulti.
Proof.
  unfold multiAt. destruct (hi !! h) as [mi|] eqn:Hh.
  - case_decide as Hd; [by rewrite (map_lookup_filter_Some_2 _ _ _ mi)|].
    assert (filter (λ kv : Z * multiAckIndex, P kv.1) hi !! h = None) as ->; [|done].
    apply map_lookup_filter_None. right. intros x _. done.
  - assert (filter (λ kv : Z * multiAckIndex, P kv.1) hi !! h = None) as -> by (apply map_lookup_filter_None; auto).
    by case_decide.
Qed.

Lemma flat_filter {V} (F : gmap (Z * QueryKey) V) (P : Z → Prop) `{!∀ x, Decision (P x)} h k :
  filter (λ kv, P kv.1.1) F !! (h, k) = if decide (P h) then F !! (h, k) else None.
Proof.
  destruct (F !! (h, k)) as [v|] eqn:Hv.
  - case_decide as Hd; [by apply map_lookup_filter_Some_2|]. apply map_lookup_filter_None. right. intros x _. done.
  - assert (filter (λ kv : Z * QueryKey * V, P kv.1.1) F !! (h, k) = None) as -> by (apply map_lookup_filter_None; auto).
    by case_decide.
Qed.

Lemma advance_refines h : refines (OpAdvance h).
Proof.
  intros ai t Ht. cbn [runAckOp specOp]. split; [done|]. destruct Ht as [Hba Hre Hac Hlo Hmu Hco].
  assert (∀ x, (¬ expires ai h x) ↔ ¬ at_barrier t <= x < h) as Hx by (intros x; unfold expires; by rewrite Hba).
  pose proof (multiAt_filter (λ x, ¬ expires ai h x) (ai_hi ai)) as Hmf.
  pose proof (λ V F, flat_filter (V := V) F (λ x, ¬ at_barrier t <= x < h)) as Hff. cbn beta in Hmf, Hff.
  unfold advance. split; cbn [ai_hi ai_barrier ai_multiIndexCount ai_responseCount addCounts at_barrier at_resp at_ack].
  - done.
  - intros x k. rewrite Hmf, Hff.
    destruct (decide (¬ expires ai h x)) as [He|He], (decide (¬ at_barrier t <= x < h)) as [Hb|Hb];
      [apply Hre|by apply Hx in He|by apply Hx in Hb|symmetry; apply lookup_empty].
  - intros x k. rewrite Hmf, Hff.
    destruct (decide (¬ expires ai h x)) as [He|He], (decide (¬ at_barrier t <= x < h)) as [Hb|Hb];
      [apply Hac|by apply Hx in He|by apply Hx in Hb|symmetry; apply lookup_empty].
  - intros x mi [Hin Hne]%map_lookup_filter_Some. apply Hlo in Hin. unfold expires in Hne. cbn in Hne. lia.
  - rewrite Hmu, i32_add. apply (f_equal i32). rewrite !size_sum.
    rewrite (sumBy_filter _ (ai_hi ai) (λ kv, expires ai h kv.1)) at 1. lia.
  - rewrite Hco, i32_add. apply (f_equal i32).
    rewrite (sumBy_filter _ (ai_hi ai) (λ kv, expires ai h kv.1)) at 1. lia.
Qed.

(** The acknowledgements of the heights from [x] on, with their keys. *)
Fixpoint tagged (hi : gmap Z multiAckIndex) (x : Z) (n : nat) : list (Z * QueryKey * SignedAckHeader) :=
  match n with
  | O => []
  | S n => ((λ kv, (x, kv.1, kv.2)) <$> map_to_list (mi_ackIndex (multiAt hi x))) ++ tagged hi (x + 1) n
  end.

Lemma elem_of_tagged hi x n h k a : (h, k, a) ∈ tagged hi x n ↔
  x <= h < x + Z.of_nat n ∧ mi_ackIndex (multiAt hi h) !! k = Some a.
Proof.
  revert x. induction n as [|n IH]; intros x; cbn [tagged]; [rewrite elem_of_nil; lia|].
  rewrite elem_of_app, IH, list_elem_of_fmap. split.
  - intros [([k' a'] & [= -> -> ->] & Hin%elem_of_map_to_list)|[Hr Hin]]; (split; [lia|done]).
  - intros [Hr Hin]. destruct (decide (h = x)) as [->|]; [left|right; split; [lia|done]].
    exists (k, a). split; [done|]. by apply elem_of_map_to_list.
Qed.

Lemma NoDup_tagged hi x n : NoDup (tagged hi x n).
Proof.
  revert x. induction n as [|n IH]; intros x; cbn [tagged]; [constructor|]. apply NoDup_app. split_and!.
  - apply NoDup_fmap_2; [|apply NoDup_map_to_list]. intros [] [] [= -> ->]. done.
  - intros [[h k] a] ([k' a'] & [= -> _ _] & _)%list_elem_of_fmap [Hr _]%elem_of_tagged. lia.
  - apply IH.
Qed.

Lemma acksLoop_spec x n ai t r ai' : holds ai t → ai_barrier ai <= x → acksLoop x n ai = (r, ai') →
  r = Ok (tagged (ai_hi ai) x n).*2 ∧ holds ai' t.
Proof.
  revert x ai r ai'. induction n as [|n IH]; intros x ai r ai' Ht Hx; cbn [acksLoop tagged]; [by intros [= <- <-]|].
  go_unfold. destruct (load x ai) as [r1 ai1] eqn:Hl. apply (load_spec _ _ t) in Hl as [Ht1 Hl]; [|done].
  destruct r1 as [mi|e|]; [|lia|done]. destruct Hl as (_ & Hhi & ->).
  destruct (acksLoop (x + 1) n ai1) as [r2 ai2] eqn:Hloop. apply IH in Hloop as [-> Ht2]; [|done|].
  2:{ rewrite <- (ho_barrier _ _ Ht1), (ho_barrier _ _ Ht). lia. }
  intros [= <- <-]. split; [|done]. f_equal. rewrite fmap_app. f_equal.
  - unfold multi_acks. rewrite <- list_fmap_compose. by apply list_fmap_ext.
  - assert (∀ h, mi_ackIndex (multiAt (ai_hi ai1) h) = mi_ackIndex (multiAt (ai_hi ai) h)) as Heq.
    { intros h. apply map_eq. intros k. by rewrite <- (ho_ack _ _ Ht1), (ho_ack _ _ Ht). }
    clear IH Hhi. revert x Hx. induction n as [|n IH]; intros x Hx; cbn [tagged]; [done|].
    rewrite Heq, !fmap_app. f_equal. apply IH. lia.
Qed.

Lemma acks_refines h : refines (OpAcks h).
Proof.
  intros ai t Ht. cbn [runAckOp specOp]. destruct (acks h ai) as [r ai'] eqn:Hop. unfold acks in Hop. go_unfold in Hop.
  apply (acksLoop_spec _ _ _ t) in Hop as [-> Ht']; [|done|lia]. split; [|done]. cbn.
  apply fmap_Permutation, NoDup_Permutation; [apply NoDup_tagged|apply NoDup_map_to_list|].
  intros [[x k] a]. rewrite elem_of_tagged, elem_of_map_to_list, map_lookup_filter_Some, (ho_ack _ _ Ht). cbn.
  split; [intros [? ?]; split; [done|lia]|]. intros [Hin Hx]. split; [|done].
  unfold multiAt in Hin. destruct (ai_hi ai !! x) as [mi|] eqn:Hmi; [|cbn in Hin; by rewrite lookup_empty in Hin].
  apply (ho_low _ _ Ht) in Hmi. lia.
Qed.

(** ** Runs *)

Fixpoint runAckOps (ops : list ackOp) ai : list ackOut * ackIndex :=
  match ops with
  | [] => ([], ai)
  | op :: ops => let '(o, ai) := runAckOp op ai in let '(os, ai) := runAckOps ops ai in (o :: os, ai)
  end.
Fixpoint specOps (ops : list ackOp) t : list ackOut * ackTable :=
  match ops with
  | [] => ([], t)
  | op :: ops => let '(o, t) := specOp op t in let '(os, t) := specOps ops t in (o :: os, t)
  end.

Lemma runAckOp_refines op : refines op.
Proof.
  destruct op; [apply addResponse_refines|apply register_refines|apply remove_refines|apply advance_refines|apply acks_refines].
Qed.

Lemma runAckOps_refines ops ai t : holds ai t →
  let '(os, ai') := runAckOps ops ai in let '(os', t') := specOps ops t in Forall2 sameOut os os' ∧ holds ai' t'.
Proof.
  revert ai t. induction ops as [|op ops IH]; intros ai t Ht; cbn [runAckOps specOps]; [done|].
  pose proof (runAckOp_refines op ai t Ht) as Hop. destruct (runAckOp op ai) as [o ai1], (specOp op t) as [o' t1].
  destruct Hop as [Ho Ht1]. specialize (IH ai1 t1 Ht1).
  destruct (runAckOps ops ai1) as [os ai2], (specOps ops t1) as [os' t2]. destruct IH. by split; [constructor|].
Qed.
End ack_index.

(** C15: The index of responses and acknowledgements behaves like two flat tables.
    Over any sequence of operations from a new index (responses added,
    acknowledgements registered and removed, the barrier advanced, the candidates
    for a block listed) each operation returns what the tables say, up to the order
    of the listed acknowledgements; the index then holds exactly the tables, nothing
    below the barrier, and counts its heights and its waiting responses right. *)
Theorem ackIndex_refines `{Env} (ops : list ackOp) :
  let '(os, ai) := runAckOps ops newAckIndex in
  let '(os', t) := specOps ops (MkAckTable 0 ∅ ∅) in
  Forall2 sameOut os os' ∧ holds ai t.
Proof. apply runAckOps_refines, holds_new. Qed.
