(* ===== verification/SqlNode.v ===== *)
(** * Block nodes, block index and runtime of a SQL chain

    Models [src/sqlchain/blockindex.go] and [runtime.go].  A node never changes but
    for the block it caches; the cached blocks are cells of the chain's memory and a
    node holds the address of its cell.  Times and durations are nanoseconds. *)
From S2P Require Import Prelude Hash Types Block SqlTypes Bytes LevelDB.
From Stdlib Require Import String ZArith Lia.
From stdpp Require Import base list gmap strings.
Local Open Scope Z_scope.
#[local] Set Warnings "-register-all".

(** ** Block nodes *)

Inductive blockNode := BlockNode (parent : option blockNode) (hash : Hash) (height count : Z) (cell : nat).
Definition bn_parent (n : blockNode) : option blockNode := let 'BlockNode p _ _ _ _ := n in p.
Definition bn_hash (n : blockNode) : Hash := let 'BlockNode _ h _ _ _ := n in h.
Definition bn_height (n : blockNode) : Z := let 'BlockNode _ _ h _ _ := n in h.
Definition bn_count (n : blockNode) : Z := let 'BlockNode _ _ _ c _ := n in c.
Definition bn_cell (n : blockNode) : nat := let 'BlockNode _ _ _ _ c := n in c.

(** Induction along the parents. *)
Section parent_induction.
Variable P : blockNode → Prop.
Hypothesis HP : ∀ p hash height count cell, match p with Some p => P p | None => True end →
  P (BlockNode p hash height count cell).
Fixpoint blockNode_parent_ind (n : blockNode) : P n :=
  let 'BlockNode p hash height count cell := n in
  HP p hash height count cell (match p with Some p => blockNode_parent_ind p | None => I end).
End parent_induction.

(** [newBlockNodeEx] with the cell that holds the block. *)
Definition newBlockNodeEx (height : Z) (hash : Hash) (cell : nat) (parent : option blockNode) : blockNode :=
  BlockNode parent hash height (match parent with Some p => i32 (bn_count p + 1) | None => 0 end) cell.

(** [for ancestor = n; ancestor != nil && P(ancestor); ancestor = ancestor.parent {}] *)
Fixpoint ascend (P : blockNode → bool) (n : blockNode) : option blockNode :=
  if P n then match n with BlockNode (Some p) _ _ _ _ => ascend P p | _ => None end else Some n.
Definition ascendFrom (P : blockNode → bool) (n : option blockNode) : option blockNode := n ≫= ascend P.

Definition ancestor (n : blockNode) (height : Z) : option blockNode :=
  if decide (height < 0 ∨ height > bn_height n) then None
  else
    match ascend (λ x, bool_decide (bn_height x > height)) n with
    | Some a => if decide (bn_height a < height) then None else Some a
    | None => None
    end.

Definition ancestorByCount (n : blockNode) (count : Z) : option blockNode :=
  if decide (count < 0 ∨ count > bn_count n) then None
  else
    match ascend (λ x, bool_decide (bn_count x > count)) n with
    | Some a => if decide (bn_count a < count) then None else Some a
    | None => None
    end.

(** A height in a key: the two's complement, big-endian. *)
Definition heightToKey (h : Z) : list Z := putBE 4 (u32 h).
Definition indexKey (n : blockNode) : list Z := heightToKey (bn_height n) ++ bn_hash n.

(** [keyWithSymbolToHeight] *)
Definition keyWithSymbolToHeight (k : list Z) : Z :=
  if decide (length k < 8)%nat then -1 else i32 (getBE (take 4 (drop 4 k))).

(** ** The block index *)

Definition blockIndex : Type := gmap Hash blockNode.
Definition newBlockIndex : blockIndex := ∅.
Definition addBlock (newBlock : blockNode) (i : blockIndex) : blockIndex := <[bn_hash newBlock := newBlock]> i.
Definition hasBlock (i : blockIndex) (hash : Hash) : bool := bool_decide (is_Some (i !! hash)).
Definition lookupNode (i : blockIndex) (hash : Hash) : option blockNode := i !! hash.

(** ** The runtime *)

(** [state]: a snapshot of the best chain. *)
Record headState := MkHeadState { hs_node : option blockNode; hs_Head : Hash; hs_Height : Z }.

Record runtime := MkRuntime {
  rt_chainInitTime : Z;
  rt_genesisHash : Hash;
  rt_period : Z;
  rt_tick : Z;
  rt_queryTTL : Z;
  rt_blockCacheTTL : Z;
  rt_peers : list NodeID;
  rt_server : NodeID;
  rt_index : Z;
  rt_total : Z;
  rt_nextTurn : Z;
  rt_head : headState;
  rt_lastBillingHeight : Z;
  rt_offset : Z;
}.
Implicit Types (r : runtime).

(** [Peers.Find] on the server list. *)
Definition Peers_Find (servers : list NodeID) (key : NodeID) : option Z :=
  (λ x, i32 (Z.of_nat x.1)) <$> list_find (λ s, key = s) servers.

Definition blockCacheTTLRequired (ttl : Z) : Z := if decide (ttl < 0) then 0 else ttl.

Definition set_peers r (peers : list NodeID) (server : NodeID) (index total : Z) : runtime :=
  MkRuntime (rt_chainInitTime r) (rt_genesisHash r) (rt_period r) (rt_tick r) (rt_queryTTL r) (rt_blockCacheTTL r)
    peers server index total (rt_nextTurn r) (rt_head r) (rt_lastBillingHeight r) (rt_offset r).
Definition SetNextTurn (turn : Z) r : runtime :=
  MkRuntime (rt_chainInitTime r) (rt_genesisHash r) (rt_period r) (rt_tick r) (rt_queryTTL r) (rt_blockCacheTTL r)
    (rt_peers r) (rt_server r) (rt_index r) (rt_total r) turn (rt_head r) (rt_lastBillingHeight r) (rt_offset r).
Definition IncNextTurn r : runtime := SetNextTurn (i32 (rt_nextTurn r + 1)) r.
Definition setHead (head : headState) r : runtime :=
  MkRuntime (rt_chainInitTime r) (rt_genesisHash r) (rt_period r) (rt_tick r) (rt_queryTTL r) (rt_blockCacheTTL r)
    (rt_peers r) (rt_server r) (rt_index r) (rt_total r) (rt_nextTurn r) head (rt_lastBillingHeight r) (rt_offset r).
Definition setLastBillingHeight (h : Z) r : runtime :=
  MkRuntime (rt_chainInitTime r) (rt_genesisHash r) (rt_period r) (rt_tick r) (rt_queryTTL r) (rt_blockCacheTTL r)
    (rt_peers r) (rt_server r) (rt_index r) (rt_total r) (rt_nextTurn r) (rt_head r) h (rt_offset r).

(** [updateTime] at a reading of the wall clock. *)
Definition updateTime (now clock : Z) r : runtime :=
  MkRuntime (rt_chainInitTime r) (rt_genesisHash r) (rt_period r) (rt_tick r) (rt_queryTTL r) (rt_blockCacheTTL r)
    (rt_peers r) (rt_server r) (rt_index r) (rt_total r) (rt_nextTurn r) (rt_head r) (rt_lastBillingHeight r)
    (time_Sub now clock).
Definition rt_now r (clock : Z) : Z := clock + rt_offset r.

(** A zero period is a division by zero. *)
Definition getHeightFromTime r (t : Z) : GoResult serror Z :=
  if decide (rt_period r = 0) then Panic else Ok (i32 (Z.quot (time_Sub t (rt_chainInitTime r)) (rt_period r))).

Definition getMinValidHeight r : Z := i32 (rt_nextTurn r - rt_queryTTL r).
Definition queryTimeIsExpired r (t : Z) : GoResult serror bool :=
  result_bind (getHeightFromTime r t) (λ h, Ok (bool_decide (h < getMinValidHeight r))).

Definition nextTick r (clock : Z) : Z * Z :=
  let t := rt_now r clock in
  let d := time_Sub (rt_chainInitTime r + i64 (rt_nextTurn r * rt_period r)) t in
  (t, if decide (d > rt_tick r) then rt_tick r else d).

Definition isMyTurn r : bool :=
  if decide (rt_total r <= 0) then false else bool_decide (Z.rem (rt_nextTurn r) (rt_total r) = rt_index r).

Definition updatePeers (peers : list NodeID) r : runtime :=
  match Peers_Find peers (rt_server r) with
  | Some index => set_peers r peers (rt_server r) index (i32 (Z.of_nat (length peers)))
  | None => set_peers r [] (rt_server r) (-1) 0
  end.

Section runtime.
Context `{SqlEnv}.

Definition setGenesis (b : Block) r : runtime :=
  MkRuntime (Block_Timestamp b) (Block_BlockHash b) (rt_period r) (rt_tick r) (rt_queryTTL r) (rt_blockCacheTTL r)
    (rt_peers r) (rt_server r) (rt_index r) (rt_total r) (rt_nextTurn r) (MkHeadState None (Block_GenesisHash b) 0)
    (rt_lastBillingHeight r) (rt_offset r).

(** [sqlchain.Config], without the names of its files and the RPC service. *)
Record Config := MkConfig {
  cf_DatabaseID : DatabaseID;
  cf_Genesis : option Block;
  cf_Period : Z;
  cf_Tick : Z;
  cf_Peers : list NodeID;
  cf_Server : NodeID;
  cf_QueryTTL : Z;
  cf_BlockCacheTTL : Z;
  cf_TokenType : TokenType;
  cf_GasPrice : Z;
  cf_UpdatePeriod : Z;
  cf_LastBillingHeight : Z;
  cf_ReadUncommitted : bool;
}.

(** A runtime whose genesis block is not known has the zero time and hash. *)
Definition newRunTime (c : Config) : runtime :=
  let r := MkRuntime 0 zeroHash (cf_Period c) (cf_Tick c) (cf_QueryTTL c) (blockCacheTTLRequired (cf_BlockCacheTTL c))
    (cf_Peers c) (cf_Server c) (default (-1) (Peers_Find (cf_Peers c) (cf_Server c)))
    (i32 (Z.of_nat (length (cf_Peers c)))) 1 (MkHeadState None zeroHash 0) (cf_LastBillingHeight c) 0 in
  match cf_Genesis c with Some b => setGenesis b r | None => r end.
End runtime.
