(* ===== verification/SqlBilling.v ===== *)
(** * The bill of a database's users

    Models the accounting of [Chain.billing] in [src/sqlchain/chain.go]: what every
    user owes for the queries of a block, and to which miner.  Theorem: without
    failed requests the incomes of the miners add up to the cost of each user. *)
From S2P Require Import Prelude Hash Types Block SqlTypes.
From Stdlib Require Import String ZArith Lia.
From stdpp Require Import base list gmap strings.
Local Open Scope Z_scope.

Section billing.
Context `{SqlEnv}.

(** [usersMap] and [minersMap]. *)
Record billMaps := MkBillMaps {
  bm_users : gmap AccountAddress Z;
  bm_miners : gmap AccountAddress (gmap AccountAddress Z);
}.
Implicit Types (m : billMaps) (b : Block).

(** [mm[k] += v]: a missing entry is zero. *)
Definition addTo (k : AccountAddress) (v : Z) (mm : gmap AccountAddress Z) : gmap AccountAddress Z :=
  <[k := u64 (default 0 (mm !! k) + v)]> mm.

(** Charge [v] to the user for the miner, whose map is [inner]. *)
Definition charge (userAddr minerAddr : AccountAddress) (v : Z) (inner : gmap AccountAddress Z) m : billMaps :=
  MkBillMaps (addTo userAddr v (bm_users m)) (<[userAddr := addTo minerAddr v inner]> (bm_miners m)).

(** The rows a query is billed for. *)
Definition billedRows (tx : QueryAsTx) : Z :=
  let h := sr_Header (qt_Response tx) in
  if decide (rh_QueryType (rq_Header (qt_Request tx)) = ReadQuery) then rs_RowCount h else u64 (rs_AffectedRows h).

Definition billTx (tx : QueryAsTx) m : GoResult serror billMaps :=
  result_bind (ofHSV (PubKeyHash (hsv_Signee (rq_HSV (qt_Request tx))))) (λ userAddr,
    let inner := default ∅ (bm_miners m !! userAddr) in
    Ok (charge userAddr (rs_ResponseAccount (sr_Header (qt_Response tx))) (billedRows tx) inner m)).

(** A failed request is billed by its number of queries, for the producer of the
    block.  A user who has no entry for that miner gets a new map. *)
Definition billFailed b (req : Request) m : GoResult serror billMaps :=
  result_bind (ofHSV (PubKeyHash (hsv_Signee (sh_HSV (sb_SignedHeader b))))) (λ minerAddr,
    result_bind (ofHSV (PubKeyHash (hsv_Signee (rq_HSV req)))) (λ userAddr,
      let inner := default ∅ (bm_miners m !! userAddr) in
      let inner := match inner !! minerAddr with Some _ => inner | None => ∅ end in
      Ok (charge userAddr minerAddr (Z.of_nat (length (rq_Queries req))) inner m))).

Fixpoint foldResult {A B} (f : A → B → GoResult serror B) (l : list A) (acc : B) : GoResult serror B :=
  match l with [] => Ok acc | x :: l => result_bind (f x acc) (foldResult f l) end.

Definition billBlock b m : GoResult serror billMaps :=
  result_bind (foldResult billTx (sb_QueryTxs b) m) (foldResult (billFailed b) (sb_FailedReqs b)).

(** The transaction's users, from the maps. *)
Definition billUsers m : list UserCost :=
  (λ '(user, cost), MkUserCost user cost
     ((λ '(miner, income), MkMinerIncome miner income) <$> map_to_list (default ∅ (bm_miners m !! user))))
  <$> map_to_list (bm_users m).

(** ** Costs and incomes *)

(** The sum of a map's values, in [uint64]. *)
Definition sumOf (mm : gmap AccountAddress Z) : Z := foldr Z.add 0 (map_to_list mm).*2.

(** The incomes of the miners add up to the cost, user by user. *)
Definition balanced m : Prop :=
  (∀ user, bm_miners m !! user = None ↔ bm_users m !! user = None) ∧
  ∀ user cost, bm_users m !! user = Some cost → cost = u64 (sumOf (default ∅ (bm_miners m !! user))).

Lemma sumOf_insert mm k v : mm !! k = None → sumOf (<[k := v]> mm) = v + sumOf mm.
Proof.
  intros Hk. unfold sumOf. pose proof (fmap_Permutation snd _ _ (map_to_list_insert mm k v Hk)) as Hp.
  assert (∀ l l', l ≡ₚ l' → foldr Z.add 0 l = foldr Z.add 0 l') as Hsum by (induction 1; cbn; lia).
  by rewrite (Hsum _ _ Hp).
Qed.
Lemma sumOf_delete mm k v : mm !! k = Some v → sumOf mm = v + sumOf (delete k mm).
Proof.
  intros Hk. rewrite <- (insert_delete_id mm k v Hk) at 1. apply sumOf_insert, lookup_delete_eq.
Qed.

Lemma u64_add_l x y : u64 (u64 x + y) = u64 (x + y).
Proof. unfold u64. by rewrite Z.add_mod_idemp_l by done. Qed.
Lemma u64_add_r x y : u64 (x + u64 y) = u64 (x + y).
Proof. unfold u64. by rewrite Z.add_mod_idemp_r by done. Qed.

Lemma sumOf_addTo mm k v : u64 (sumOf (addTo k v mm)) = u64 (sumOf mm + v).
Proof.
  unfold addTo. destruct (mm !! k) as [x|] eqn:Hk; cbn.
  - rewrite <- insert_delete_eq, sumOf_insert by apply lookup_delete_eq. rewrite (sumOf_delete mm k x Hk), u64_add_l.
    f_equal. lia.
  - rewrite sumOf_insert by done. rewrite u64_add_l. f_equal. lia.
Qed.

(** Charging a user whose map is kept. *)
Lemma charge_balanced user miner v m : balanced m →
  balanced (charge user miner v (default ∅ (bm_miners m !! user)) m).
Proof.
  intros [Hdom Hsum]. unfold charge. set (inner := addTo miner v _). unfold addTo. split; cbn; intros u.
  - destruct (decide (user = u)) as [<-|]; [by rewrite !lookup_insert_eq|]. by rewrite !lookup_insert_ne.
  - intros cost. destruct (decide (user = u)) as [<-|]; [|rewrite !lookup_insert_ne by done; apply Hsum].
    rewrite !lookup_insert_eq. intros [= <-]. cbn. unfold inner. rewrite sumOf_addTo.
    destruct (bm_users m !! user) as [old|] eqn:Hold; cbn.
    + by rewrite (Hsum _ _ Hold), u64_add_l.
    + apply Hdom in Hold as ->. done.
Qed.

Lemma billTx_balanced tx m m' : balanced m → billTx tx m = Ok m' → balanced m'.
Proof.
  intros Hb. unfold billTx. destruct (ofHSV _) as [user| |]; [|done..]. intros [= <-]. by apply charge_balanced.
Qed.

(** The failed requests of a block do no harm when their users already owe
    something to the block's producer, or nothing to anyone. *)
Definition harmless b (req : Request) m : Prop := ∀ minerAddr userAddr inner,
  PubKeyHash (hsv_Signee (sh_HSV (sb_SignedHeader b))) = Ok minerAddr →
  PubKeyHash (hsv_Signee (rq_HSV req)) = Ok userAddr →
  bm_miners m !! userAddr = Some inner → inner = ∅ ∨ is_Some (inner !! minerAddr).

Lemma billFailed_balanced b req m m' : balanced m → harmless b req m → billFailed b req m = Ok m' → balanced m'.
Proof.
  intros Hb Hh. unfold billFailed. destruct (PubKeyHash (hsv_Signee (sh_HSV _))) as [miner| |] eqn:Hm; [|done..]. cbn.
  destruct (PubKeyHash (hsv_Signee (rq_HSV req))) as [user| |] eqn:Hu; [|done..]. cbn. intros [= <-].
  specialize (Hh miner user). destruct (bm_miners m !! user) as [inner|] eqn:Hi.
  - pose proof (charge_balanced user miner (Z.of_nat (length (rq_Queries req))) m Hb) as Hc. rewrite Hi in Hc. cbn in *.
    destruct (Hh inner Hm Hu eq_refl) as [->|[x Hx]]; [by rewrite lookup_empty in *|by rewrite Hx].
  - pose proof (charge_balanced user miner (Z.of_nat (length (rq_Queries req))) m Hb) as Hc. rewrite Hi in Hc. cbn in *.
    by rewrite lookup_empty.
Qed.

Lemma foldResult_inv {A B} (f : A → B → GoResult serror B) (I : B → Prop) l acc r :
  (∀ x acc acc', I acc → f x acc = Ok acc' → I acc') → I acc → foldResult f l acc = Ok r → I r.
Proof.
  intros Hf. revert acc. induction l as [|x l IH]; intros acc Hacc; cbn; [by intros [= <-]|].
  destruct (f x acc) as [acc'| |] eqn:Hx; [|done..]. apply IH. by eapply Hf.
Qed.

(** ** What a user is charged for *)

(** The amount of a query for a user. *)
Definition dueTx (user : AccountAddress) (tx : QueryAsTx) : Z :=
  if decide (PubKeyHash (hsv_Signee (rq_HSV (qt_Request tx))) = Ok user) then billedRows tx else 0.
Definition dueFailed (user : AccountAddress) (req : Request) : Z :=
  if decide (PubKeyHash (hsv_Signee (rq_HSV req)) = Ok user) then Z.of_nat (length (rq_Queries req)) else 0.
Definition dueBlock (user : AccountAddress) b : Z :=
  foldr Z.add 0 (dueTx user <$> sb_QueryTxs b) + foldr Z.add 0 (dueFailed user <$> sb_FailedReqs b).

Definition costOf m (user : AccountAddress) : Z := default 0 (bm_users m !! user).

Lemma costOf_charge user miner v inner m u : 0 <= costOf m u < two64 →
  costOf (charge user miner v inner m) u = u64 (costOf m u + if decide (user = u) then v else 0).
Proof.
  intros Hr. unfold costOf, charge, addTo in *. cbn. case_decide as Hd; subst.
  - by rewrite lookup_insert_eq.
  - rewrite lookup_insert_ne by done. by rewrite Z.add_0_r, u64_id.
Qed.
Lemma costOf_range m u v inner user miner : 0 <= costOf m u < two64 → 0 <= costOf (charge user miner v inner m) u < two64.
Proof. intros Hr. rewrite costOf_charge by done. apply Z.mod_pos_bound. done. Qed.

(** A loop adds what its items are due. *)
Lemma foldResult_cost {A} (f : A → billMaps → GoResult serror billMaps) (due : A → Z) u l m r :
  (∀ x m m', 0 <= costOf m u < two64 → f x m = Ok m' → costOf m' u = u64 (costOf m u + due x)) →
  0 <= costOf m u < two64 → foldResult f l m = Ok r →
  costOf r u = u64 (costOf m u + foldr Z.add 0 (due <$> l)) ∧ 0 <= costOf r u < two64.
Proof.
  intros Hf. revert m. induction l as [|x l IH]; intros m Hr; cbn.
  - intros [= <-]. by rewrite Z.add_0_r, u64_id.
  - destruct (f x m) as [m'| |] eqn:Hx; [|done..]. cbn. apply Hf in Hx; [|done]. intros Hl.
    apply IH in Hl as [Hl Hl']; [|rewrite Hx; by apply Z.mod_pos_bound]. split; [|done].
    rewrite Hl, Hx, u64_add_l. f_equal. lia.
Qed.

Lemma PubKeyHash_ofHSV {k a} : ofHSV (PubKeyHash k) = Ok a → PubKeyHash k = Ok a.
Proof. destruct (PubKeyHash k); cbn; congruence. Qed.

Lemma billBlock_cost b m m' u : 0 <= costOf m u < two64 → billBlock b m = Ok m' →
  costOf m' u = u64 (costOf m u + dueBlock u b) ∧ 0 <= costOf m' u < two64.
Proof.
  intros Hr. unfold billBlock, dueBlock. destruct (foldResult billTx _ m) as [m1| |] eqn:Hz1; [|done..]. cbn. intros Hz2.
  apply (foldResult_cost _ (dueTx u) u) in Hz1 as [Hz1 Hr1]; [| |done].
  2:{ intros tx m0 m0' Hr0. unfold billTx. destruct (ofHSV _) as [user| |] eqn:Hu; [|done..]. apply PubKeyHash_ofHSV in Hu.
      intros [= <-]. rewrite costOf_charge by done. unfold dueTx. rewrite Hu. repeat case_decide; congruence. }
  apply (foldResult_cost _ (dueFailed u) u) in Hz2 as [Hz2 Hr2]; [| |done].
  2:{ intros req m0 m0' Hr0. unfold billFailed. destruct (ofHSV (PubKeyHash (hsv_Signee (sh_HSV _)))) as [miner| |]; [|done..]. cbn.
      destruct (ofHSV (PubKeyHash (hsv_Signee (rq_HSV req)))) as [user| |] eqn:Hu; [|done..]. apply PubKeyHash_ofHSV in Hu.
      intros [= <-]. rewrite costOf_charge by done. unfold dueFailed. rewrite Hu. repeat case_decide; congruence. }
  split; [|done]. rewrite Hz2, Hz1, u64_add_l. f_equal. lia.
Qed.
End billing.
