(* ===== verification/SqlChain.v ===== *)
(** * The chain of a database

    Models [src/sqlchain/chain.go] and [rpc.go]: start-up from the block database,
    pushing and checking blocks, producing blocks, the head synchronisation, the
    turns, the processing of blocks and heights with the stash, acknowledgements,
    readers, the block cache and billing.  The two LevelDB databases, the wire code
    and the answers of other nodes are parameters.  What goroutines send on the
    channel of blocks waits in a list of the state until [onBlock] receives it. *)
From S2P Require Import Prelude Hash Merkle Types Block SqlTypes Sanitizer Xenomint AckIndex Bytes LevelDB SqlNode SqlBilling.
From Stdlib Require Import String ZArith Lia.
From stdpp Require Import base list gmap strings.
Local Open Scope Z_scope.

(** ASCII codes of the key prefixes. *)
Definition metaBlockIndex : list Z := [66; 76; 67; 75].
Definition metaResponseIndex : list Z := [82; 69; 83; 80].
Definition metaAckIndex : list Z := [81; 65; 67; 75].

(** The version the generated code gives to new billing transactions. *)
Class BillingVersion := { UpdateBilling_HSPDefaultVersion : Z }.

Section chain.
Context `{SqlEnv} `{!SqlParser} {C : Type} `{!SqlStore SqlValue C} {D : Type} `{!LevelDB serror D}.
Context `{!MsgPack Block} `{!MsgPack SignedAckHeader} `{!MsgPack SignedResponseHeader} `{!BillingVersion}.

(** ** The chain *)

Record Chain := MkChain {
  sc_bi : blockIndex;
  sc_ai : ackIndex;
  sc_st : State (C := C);
  sc_rt : runtime;
  sc_blkDB : D;
  sc_txDB : D;
  sc_cells : list (option Block);
  sc_cachedBlockCount : Z;
  sc_databaseID : DatabaseID;
  sc_updatePeriod : Z;
  sc_pk : PrivateKey;
  sc_addr : AccountAddress;
  sc_prefix : list Z;
  sc_stash : list Block;
  sc_pending : list Block;
  sc_heights : list Z;
  sc_sent : list (Signed UpdateBillingHeader);
}.
Implicit Types (c : Chain) (b : Block).
Abbreviation SM := (GoM Chain serror).

Definition set_ai c (ai : ackIndex) : Chain :=
  MkChain (sc_bi c) ai (sc_st c) (sc_rt c) (sc_blkDB c) (sc_txDB c) (sc_cells c) (sc_cachedBlockCount c) (sc_databaseID c)
    (sc_updatePeriod c) (sc_pk c) (sc_addr c) (sc_prefix c) (sc_stash c) (sc_pending c) (sc_heights c) (sc_sent c).
Definition set_st c (st : State (C := C)) : Chain :=
  MkChain (sc_bi c) (sc_ai c) st (sc_rt c) (sc_blkDB c) (sc_txDB c) (sc_cells c) (sc_cachedBlockCount c) (sc_databaseID c)
    (sc_updatePeriod c) (sc_pk c) (sc_addr c) (sc_prefix c) (sc_stash c) (sc_pending c) (sc_heights c) (sc_sent c).
Definition set_rt c (rt : runtime) : Chain :=
  MkChain (sc_bi c) (sc_ai c) (sc_st c) rt (sc_blkDB c) (sc_txDB c) (sc_cells c) (sc_cachedBlockCount c) (sc_databaseID c)
    (sc_updatePeriod c) (sc_pk c) (sc_addr c) (sc_prefix c) (sc_stash c) (sc_pending c) (sc_heights c) (sc_sent c).
Definition set_blkDB c (d : D) : Chain :=
  MkChain (sc_bi c) (sc_ai c) (sc_st c) (sc_rt c) d (sc_txDB c) (sc_cells c) (sc_cachedBlockCount c) (sc_databaseID c)
    (sc_updatePeriod c) (sc_pk c) (sc_addr c) (sc_prefix c) (sc_stash c) (sc_pending c) (sc_heights c) (sc_sent c).
Definition set_txDB c (d : D) : Chain :=
  MkChain (sc_bi c) (sc_ai c) (sc_st c) (sc_rt c) (sc_blkDB c) d (sc_cells c) (sc_cachedBlockCount c) (sc_databaseID c)
    (sc_updatePeriod c) (sc_pk c) (sc_addr c) (sc_prefix c) (sc_stash c) (sc_pending c) (sc_heights c) (sc_sent c).
Definition set_bi c (bi : blockIndex) : Chain :=
  MkChain bi (sc_ai c) (sc_st c) (sc_rt c) (sc_blkDB c) (sc_txDB c) (sc_cells c) (sc_cachedBlockCount c) (sc_databaseID c)
    (sc_updatePeriod c) (sc_pk c) (sc_addr c) (sc_prefix c) (sc_stash c) (sc_pending c) (sc_heights c) (sc_sent c).
Definition set_cells c (cells : list (option Block)) (count : Z) : Chain :=
  MkChain (sc_bi c) (sc_ai c) (sc_st c) (sc_rt c) (sc_blkDB c) (sc_txDB c) cells count (sc_databaseID c)
    (sc_updatePeriod c) (sc_pk c) (sc_addr c) (sc_prefix c) (sc_stash c) (sc_pending c) (sc_heights c) (sc_sent c).
Definition set_queues c (stash pending : list Block) (heights : list Z) : Chain :=
  MkChain (sc_bi c) (sc_ai c) (sc_st c) (sc_rt c) (sc_blkDB c) (sc_txDB c) (sc_cells c) (sc_cachedBlockCount c)
    (sc_databaseID c) (sc_updatePeriod c) (sc_pk c) (sc_addr c) (sc_prefix c) stash pending heights (sc_sent c).
Definition set_sent c (sent : list (Signed UpdateBillingHeader)) : Chain :=
  MkChain (sc_bi c) (sc_ai c) (sc_st c) (sc_rt c) (sc_blkDB c) (sc_txDB c) (sc_cells c) (sc_cachedBlockCount c)
    (sc_databaseID c) (sc_updatePeriod c) (sc_pk c) (sc_addr c) (sc_prefix c) (sc_stash c) (sc_pending c) (sc_heights c) sent.

Definition onRt (f : runtime → runtime) : SM unit := modifyS (λ c, set_rt c (f (sc_rt c))).
Definition onAck {A} (m : GoM ackIndex serror A) : SM A := λ c,
  let '(r, ai) := m (sc_ai c) in (r, set_ai c ai).
Definition onState {A} (m : GoM (State (C := C)) serror A) : SM A := λ c,
  let '(r, st) := m (sc_st c) in (r, set_st c st).
Definition heightOf (t : Z) : SM Z := c ← getS; liftR (getHeightFromTime (sc_rt c) t).
Definition wrappingS {A} (m : SM A) : SM A :=
  res ← attempt m; match res with inl e => throw (SWrap e) | inr a => mret a end.
(** [if ierr = m(); ierr != nil { log }] *)
Definition logging {A} (m : SM A) : SM unit := _ ← attempt m; mret tt.

(** A value of the wire code, or its error. *)
Definition encodeMsg {A} `{!MsgPack A} (a : A) : SM (list Z) :=
  match EncodeMsgPack a with Some enc => mret enc | None => throw (SNew "encode") end.
Definition decodeMsg {A} `{!MsgPack A} (v : list Z) : GoResult serror A :=
  match DecodeMsgPack v with Some a => Ok a | None => Err (SWrap (SNew "decode")) end.

Definition headOf c : headState := rt_head (sc_rt c).
Definition blockPrefix c : list Z := sc_prefix c ++ metaBlockIndex.

(** ** Reading blocks *)

Definition fetchBlockByIndexKey c (key : list Z) : GoResult serror Block :=
  match ldb_Get (sc_blkDB c) (blockPrefix c ++ key) with
  | Ok (Some v) => decodeMsg v
  | Ok None => Err (SWrap (SNew "leveldb: not found"))
  | Err e => Err (SWrap e)
  | Panic => Panic
  end.

(** A chain without a head node dereferences nil. *)
Definition FetchBlock c (height : Z) : GoResult serror (option Block) :=
  match hs_node (headOf c) with
  | None => Panic
  | Some n =>
      match ancestor n height with
      | Some a => result_bind (fetchBlockByIndexKey c (indexKey a)) (λ b, Ok (Some b))
      | None => Ok None
      end
  end.

Definition FetchBlockByCount c (count : Z) : GoResult serror (option Block * Z * Z) :=
  match hs_node (headOf c) with
  | None => if decide (count < 0) then Ok (None, 0, 0) else Panic
  | Some n =>
      match (if decide (count < 0) then Some n else ancestorByCount n count) with
      | Some a => result_bind (fetchBlockByIndexKey c (indexKey a)) (λ b, Ok (Some b, bn_count a, bn_height a))
      | None => Ok (None, 0, 0)
      end
  end.

(** The RPC: without a block, the height is that of the head. *)
Definition RPC_FetchBlock c (height : Z) : GoResult serror (Z * option Block) :=
  result_bind (FetchBlock c height) (λ ob,
    Ok (match ob with Some _ => height | None => hs_Height (headOf c) end, ob)).

(** [blockNode.load] and [clear] on the cells. *)
Definition loadCell c (n : blockNode) : option Block := default None (sc_cells c !! bn_cell n).

(** The metrics are not kept; computing them reads the head block. *)
Definition updateMetrics : SM unit :=
  c ← getS;
  match hs_node (headOf c) with
  | None => panic
  | Some n =>
      match loadCell c n with
      | Some _ => mret tt
      | None =>
          match FetchBlock c (hs_Height (headOf c)) with
          | Ok (Some _) | Err _ => mret tt
          | Ok None | Panic => panic
          end
      end
  end.

(** ** Acknowledgements *)

Definition AddResponse (resp : SignedResponseHeader) : SM unit :=
  h ← heightOf (rh_Timestamp (rs_Request (sr_Header resp))); onAck (AckIndex.addResponse h resp).
Definition registerAck (ack : SignedAckHeader) : SM unit :=
  h ← heightOf (Ack_GetRequestTimestamp (sa_Header ack)); onAck (AckIndex.register h ack).
Definition removeAck (ack : SignedAckHeader) : SM unit :=
  h ← heightOf (Ack_GetRequestTimestamp (sa_Header ack)); onAck (AckIndex.remove h ack).

Definition pushAckedQuery (ack : SignedAckHeader) : SM unit :=
  h ← heightOf (Ack_GetResponseTimestamp (sa_Header ack));
  enc ← encodeMsg ack;
  c ← getS;
  let tdbKey := (sc_prefix c ++ metaAckIndex) ++ heightToKey h ++ Ack_Hash ack in
  wrappingS (registerAck ack);;
  c ← getS;
  let '(e, d) := ldb_Put tdbKey enc (sc_txDB c) in
  modifyS (λ c, set_txDB c d);;
  match e with Some e => throw (SWrap e) | None => mret tt end.

Definition VerifyAndPushAckedQuery (ack : SignedAckHeader) : SM unit :=
  c ← getS;
  expired ← liftR (queryTimeIsExpired (sc_rt c) (Ack_GetResponseTimestamp (sa_Header ack)));
  if (expired : bool) then throw (SWrap ErrQueryExpired)
  else liftR (Ack_Verify ack);; pushAckedQuery ack.

(** ** Pushing blocks *)

(** [forM_]: the loops over the queries and acknowledgements of a block. *)
Fixpoint forEach {A} (f : A → SM unit) (l : list A) : SM unit :=
  match l with [] => mret tt | x :: l => f x;; forEach f l end.

(** The new node and what becomes of the runtime and the index. *)
Definition extend (height : Z) b c : Chain :=
  let cell := length (sc_cells c) in
  let node := newBlockNodeEx height (Block_BlockHash b) cell (hs_node (headOf c)) in
  let c := set_cells c (sc_cells c ++ [Some b]) (i32 (sc_cachedBlockCount c + 1)) in
  let c := set_rt c (setHead (MkHeadState (Some node) (bn_hash node) (bn_height node)) (sc_rt c)) in
  set_bi c (addBlock node (sc_bi c)).

(** The log entry at the end takes the first eight characters of the producer. *)
Definition pushBlock b : SM unit :=
  h ← heightOf (Block_Timestamp b);
  enc ← encodeMsg b;
  c ← getS;
  let node := newBlockNodeEx h (Block_BlockHash b) (length (sc_cells c)) (hs_node (headOf c)) in
  let '(e, d) := ldb_Put (blockPrefix c ++ indexKey node) enc (sc_blkDB c) in
  modifyS (λ c, set_blkDB c d);;
  match e with
  | Some e => throw (SWrap e)
  | None =>
      modifyS (extend h b);;
      updateMetrics;;
      forEach (λ v, logging (AddResponse (qt_Response v))) (sb_QueryTxs b);;
      forEach (λ v, logging (removeAck v)) (sb_Acks b);;
      if decide (String.length (Block_Producer b) < 8)%nat then panic else mret tt
  end.

Definition genesis (ob : option Block) : SM unit :=
  match ob with
  | None => throw (SNew "genesis block not provided")
  | Some b => wrappingS (liftR (Block_VerifyAsGenesis b));; pushBlock b
  end.

(** The index of the peer whose turn it is, [-1] without peers. *)
Definition nextProducer c : Z :=
  let total := i32 (Z.of_nat (length (rt_peers (sc_rt c)))) in
  if decide (total > 0) then Z.rem (i32 (rt_nextTurn (sc_rt c) - 1)) total else -1.

Definition CheckAndPushNewBlock b : SM unit :=
  height ← heightOf (Block_Timestamp b);
  c ← getS;
  if decide (hs_Height (headOf c) = height ∧ hs_Head (headOf c) = Block_BlockHash b) then mret tt
  else if decide (Block_ParentHash b ≠ hs_Head (headOf c)) then throw ErrInvalidBlock
  else
    liftR (SqlBlock_Verify b);;
    if decide (Block_Producer b = rt_server (sc_rt c)) then pushBlock b
    else
      match Peers_Find (rt_peers (sc_rt c)) (Block_Producer b) with
      | None => throw ErrUnknownProducer
      | Some index =>
          if decide (index ≠ nextProducer c) then throw ErrInvalidProducer
          else onState (ReplayBlock b);; pushBlock b
      end.

(** ** Start-up *)

(** The blocks of the database in key order; [id] is the next sequence number. *)
Fixpoint reload (kvs : list (list Z * list Z)) (last : option blockNode) (id : Z) : SM (option blockNode * Z) :=
  match kvs with
  | [] => mret (last, id)
  | (_, v) :: kvs =>
      b ← liftR (decodeMsg v);
      parent ← match last with
        | None =>
            wrappingS (liftR (Block_VerifyAsGenesis b));; onRt (setGenesis b);; mret None
        | Some l =>
            if decide (Block_ParentHash b = bn_hash l) then wrappingS (liftR (SqlBlock_Verify b));; mret (Some l)
            else c ← getS;
              match lookupNode (sc_bi c) (Block_ParentHash b) with
              | None => throw ErrParentNotFound
              | Some p => mret (Some p)
              end
        end;
      let '(nid, ok) := CalcNextID b in
      let id := if (ok : bool) && bool_decide (nid > id) then nid else id in
      h ← heightOf (Block_Timestamp b);
      c ← getS;
      let node := newBlockNodeEx h (Block_BlockHash b) (length (sc_cells c)) parent in
      modifyS (λ c, set_bi (set_cells c (sc_cells c ++ [None]) (sc_cachedBlockCount c)) (addBlock node (sc_bi c)));;
      reload kvs (Some node) id
  end.

(** The responses and acknowledgements are decoded, and not kept. *)
Definition checkEntries (A : Type) `{!MsgPack A} (kvs : list (list Z * list Z)) : GoResult serror unit :=
  foldResult (λ kv _, result_bind (decodeMsg (A := A) kv.2) (λ _, Ok tt)) kvs tt.

(** [NewChainWithContext] on opened databases. *)
Definition loadChain (cfg : Config) : SM unit :=
  c ← getS;
  '(last, id) ← reload (ldb_prefix (sc_blkDB c) (blockPrefix c)) None 0;
  match last with
  | None => genesis (cf_Genesis cfg)
  | Some n =>
      onRt (setHead (MkHeadState (Some n) (bn_hash n) (bn_height n)));;
      modifyS (λ c, set_st c (SetSeq id (sc_st c)));;
      updateMetrics;;
      c ← getS;
      liftR (checkEntries SignedResponseHeader (ldb_prefix (sc_txDB c) (sc_prefix c ++ metaResponseIndex)));;
      liftR (checkEntries SignedAckHeader (ldb_prefix (sc_txDB c) (sc_prefix c ++ metaAckIndex)))
  end.

Definition emptyChain (cfg : Config) (blkDB txDB : D) (st : State (C := C)) (pk : PrivateKey) (addr : AccountAddress)
    (prefix : list Z) : Chain :=
  MkChain newBlockIndex newAckIndex st (newRunTime cfg) blkDB txDB [] 0 (cf_DatabaseID cfg) (cf_UpdatePeriod cfg) pk addr
    prefix [] [] [] [].

Definition NewChain (cfg : Config) (blkDB txDB : D) (strg : C) (pk : PrivateKey) : GoResult serror unit * option Chain :=
  match PubKeyHash (Some (key_PubKey pk)) with
  | Err e => (Err (SWrap (SVerifier e)), None)
  | Panic => (Panic, None)
  | Ok addr =>
      match AccountAddress_of (cf_DatabaseID cfg) with
      | Err _ => (Err (SWrap (SNew "failed to generate database meta prefix")), None)
      | Panic => (Panic, None)
      | Ok prefix =>
          match NewState (cf_ReadUncommitted cfg) (cf_Server cfg) strg with
          | (Ok _, st) =>
              let '(r, c) := loadChain cfg (emptyChain cfg blkDB txDB st pk addr prefix) in (r, Some c)
          | _ => (Panic, None)
          end
      end
  end.

(** ** Producing blocks *)

(** [for !v.Ready() { sleep }]: the response a tracker has, or gets while the
    producer waits; without one the context ends. *)
Definition waitReady (arrive : nat → option Response) (ref : nat) : SM QueryAsTx :=
  c ← getS;
  match xs_heap (sc_st c) !! ref with
  | None => panic
  | Some t =>
      match tr_Resp t, arrive ref with
      | Some resp, _ => mret (MkQueryAsTx (tr_Req t) (re_Header resp))
      | None, Some resp => onState (UpdateResp ref resp);; mret (MkQueryAsTx (tr_Req t) (re_Header resp))
      | None, None => throw (SNew "context canceled")
      end
  end.
Fixpoint waitAll (arrive : nat → option Response) (refs : list nat) : SM (list QueryAsTx) :=
  match refs with
  | [] => mret []
  | r :: refs => tx ← waitReady arrive r; txs ← waitAll arrive refs; mret (tx :: txs)
  end.

(** The count the other peers are told. *)
Definition adviseCount c b : Z :=
  match lookupNode (sc_bi c) (Block_BlockHash b), lookupNode (sc_bi c) (Block_ParentHash b) with
  | Some nd, _ => bn_count nd
  | None, Some pn => i32 (bn_count pn + 1)
  | None, None => -1
  end.

(** The block goes to the chain's own channel and is returned for the peers. *)
Definition produceBlock (now : Z) (arrive : nat → option Response) : SM (option Block) :=
  '(frs, qts) ← wrappingS (onState CommitEx);
  if decide (length frs = 0 ∧ length qts = 0)%nat then mret None
  else
    h ← heightOf now;
    c ← getS;
    acks ← onAck (AckIndex.acks h);
    txs ← waitAll arrive qts;
    let header := MkHeader 16777216 (rt_server (sc_rt c)) (rt_genesisHash (sc_rt c)) (hs_Head (headOf c)) zeroHash now in
    block ← liftR (Block_PackAndSignBlock
      (MkBlock (MkSignedHeader header (MkHSV zeroHash None None)) frs txs acks) (sc_pk c));
    modifyS (λ c, set_queues c (sc_stash c) (sc_pending c ++ [block]) (sc_heights c));;
    mret (Some block).

(** ** Synchronising the head *)

(** The answer of a peer: an error (or one that says the peer has no such chain),
    no block and the height of the peer, or a block, which is received or not. *)
Inductive fetchAnswer :=
| FetchFailed
| FetchUnknown
| FetchNone (height : Z)
| FetchFound (b : Block) (received : bool).

Definition isInitiating (h : Z) (a : fetchAnswer) : bool :=
  match a with FetchUnknown => true | FetchNone height => bool_decide (height <= h) | _ => false end.
Definition isSuccess (h : Z) (a : fetchAnswer) : bool :=
  match a with FetchNone height => bool_decide (height > h) | FetchFound _ received => received | _ => false end.
Definition foundBlocks (answers : list fetchAnswer) : list Block :=
  omap (λ a, match a with FetchFound b true => Some b | _ => None end) answers.

Definition syncHead (answer : NodeID → fetchAnswer) : SM unit :=
  c ← getS;
  let h := i32 (rt_nextTurn (sc_rt c) - 1) in
  if decide (hs_Height (headOf c) >= h) then mret tt
  else
    let answers := answer <$> filter (λ s, s ≠ rt_server (sc_rt c)) (rt_peers (sc_rt c)) in
    modifyS (λ c, set_queues c (sc_stash c) (sc_pending c ++ foundBlocks answers) (sc_heights c));;
    if decide (answers ≠ [] ∧ filter (λ a, isSuccess h a = true) answers = []) then
      if forallb (isInitiating h) answers then throw ErrInitiating else throw (SNew "all remote peers are unreachable")
    else mret tt.

(** ** The block cache *)

(** Clear the cells from a node towards the genesis block, up to the first that is
    clear already. *)
Fixpoint clearCells (n : blockNode) (cells : list (option Block)) (count : Z) : list (option Block) * Z :=
  let 'BlockNode parent _ _ _ cell := n in
  match cells !! cell with
  | Some (Some _) =>
      let cells := <[cell := None]> cells in
      let count := i32 (count - 1) in
      match parent with Some p => clearCells p cells count | None => (cells, count) end
  | _ => (cells, count)
  end.

Definition pruneCount c : Z :=
  let lastCnt := i32 (rt_nextTurn (sc_rt c) - rt_blockCacheTTL (sc_rt c)) in
  if decide (rt_lastBillingHeight (sc_rt c) < lastCnt) then rt_lastBillingHeight (sc_rt c) else lastCnt.
Definition pruneBlockCache c : Chain :=
  match ascendFrom (λ n, bool_decide (bn_count n > pruneCount c)) (hs_node (headOf c)) with
  | None => c
  | Some n => let '(cells, count) := clearCells n (sc_cells c) (sc_cachedBlockCount c) in set_cells c cells count
  end.

(** ** Turns *)

(** What [runCurrentTurn] defers. *)
Definition endTurn (h : Z) c : Chain :=
  let c := pruneBlockCache c in
  let c := set_rt c (IncNextTurn (sc_rt c)) in
  let c := set_ai c (advance (getMinValidHeight (sc_rt c)) (sc_ai c)) in
  set_queues c (sc_stash c) (sc_pending c) (sc_heights c ++ [h]).

Definition runCurrentTurn (now d : Z) (arrive : nat → option Response) : SM (option Block) :=
  c ← getS;
  let h := rt_nextTurn (sc_rt c) in
  res ← (if negb (isMyTurn (sc_rt c)) then mret None
         else if decide (i64 (i64 (- d) + rt_tick (sc_rt c)) > rt_period (sc_rt c)) then mret None
         else
           res ← attempt (produceBlock now arrive);
           mret (match res with inr ob => ob | inl _ => None end));
  modifyS (endTurn h);; mret res.

(** One round of [mainCycle], at a reading of the wall clock. *)
Definition mainCycleStep (clock : Z) (answer : NodeID → fetchAnswer) (arrive : nat → option Response) : SM (option Block) :=
  res ← attempt (syncHead answer);
  c ← getS;
  let '(t, d) := nextTick (sc_rt c) clock in
  match res with
  | inl ErrInitiating | inr _ => if decide (d > 0) then mret None else runCurrentTurn t d arrive
  | inl _ => mret None
  end.

(** The inner loop of [sync], up to [height]; at most one round for each height. *)
Fixpoint syncTo (height : Z) (answers : nat → NodeID → fetchAnswer) (rounds : nat) : SM unit :=
  c ← getS;
  if decide (rt_nextTurn (sc_rt c) <= height) then
    match rounds with
    | O => panic
    | S rounds =>
        res ← attempt (syncHead (answers rounds));
        match res with
        | inl ErrInitiating => onRt (SetNextTurn (i32 (height + 1)));; syncTo height answers rounds
        | inl e => throw e
        | inr _ => onRt IncNextTurn;; syncTo height answers rounds
        end
    end
  else mret tt.

(** [sync] with the readings of the clock at each round; the last one is before the
    genesis time or finds nothing to do. *)
Fixpoint syncLoop (clocks : list Z) (answers : nat → nat → NodeID → fetchAnswer) : SM unit :=
  match clocks with
  | [] => mret tt
  | clock :: clocks =>
      c ← getS;
      let now := rt_now (sc_rt c) clock in
      height ← heightOf now;
      if decide (now < rt_chainInitTime (sc_rt c)) then mret tt
      else if decide (rt_nextTurn (sc_rt c) > height) then mret tt
      else
        syncTo height (answers (length clocks)) (Z.to_nat (height + 1 - rt_nextTurn (sc_rt c)));;
        syncLoop clocks answers
  end.

Definition afterSync c : Chain :=
  let c := pruneBlockCache c in set_ai c (advance (getMinValidHeight (sc_rt c)) (sc_ai c)).
Definition sync (clocks : list Z) (answers : nat → nat → NodeID → fetchAnswer) : SM unit := λ c,
  match syncLoop clocks answers c with
  | (Panic, c) => (Panic, c)
  | (r, c) => (r, afterSync c)
  end.

Definition Stop : SM unit := onState (Close false).
Definition Start (clocks : list Z) (answers : nat → nat → NodeID → fetchAnswer) : SM unit :=
  res ← attempt (sync clocks answers);
  match res with
  | inl e => logging Stop;; throw e
  | inr _ => mret tt
  end.

(** ** Billing *)

(** The blocks above [minHeight], from the cache or the database. *)
Fixpoint billLoop c (minHeight : Z) (n : blockNode) (m : billMaps) : GoResult serror billMaps :=
  let 'BlockNode parent _ height _ cell := n in
  if decide (height > minHeight) then
    result_bind
      (match sc_cells c !! cell with
       | Some (Some b) => Ok b
       | _ => match FetchBlock c height with
              | Ok (Some b) => Ok b
              | Err e => Err e
              | Ok None | Panic => Panic
              end
       end) (λ b,
    result_bind (billBlock b m) (λ m,
      match parent with Some p => billLoop c minHeight p m | None => Ok m end))
  else Ok m.

(** The header of the bill, and the error of the receiver's address. *)
Definition billing c (h : Z) (node : option blockNode) : GoResult serror (UpdateBillingHeader * option serror) :=
  let minHeight := rt_lastBillingHeight (sc_rt c) in
  result_bind
    (match ascendFrom (λ n, bool_decide (bn_height n > h)) node with
     | Some n => billLoop c minHeight n (MkBillMaps ∅ ∅)
     | None => Ok (MkBillMaps ∅ ∅)
     end) (λ m,
  match AccountAddress_of (sc_databaseID c) with
  | Ok receiver =>
      Ok (MkUpdateBillingHeader receiver 0 (billUsers m) (u32 minHeight) (u32 h) UpdateBilling_HSPDefaultVersion, None)
  | Err _ =>
      Ok (MkUpdateBillingHeader zeroHash 0 (billUsers m) (u32 minHeight) (u32 h) UpdateBilling_HSPDefaultVersion,
          Some (SNew "address"))
  | Panic => Panic
  end).

Definition TransactionTypeUpdateBilling : Z := 12.

(** [ub.Sign], whose error is only logged. *)
Definition signBill c (h : UpdateBillingHeader) (clock : Z) : Signed UpdateBillingHeader :=
  let mixin := MkMixin TransactionTypeUpdateBilling clock in
  let tx i := MkSigned h mixin i in
  let i := MkHSV zeroHash None None in
  match HSV_SetHash (MarshalHash_Transaction (TxUpdateBilling (tx i))) i with
  | Ok i => match HSV_SignHash (sc_pk c) i with Ok i => tx i | _ => tx i end
  | _ => tx i
  end.

Definition set_Nonce (h : UpdateBillingHeader) (nonce : Z) : UpdateBillingHeader :=
  MkUpdateBillingHeader (ub_Receiver h) nonce (ub_Users h) (ub_From h) (ub_To h) (ub_Version h).

(** ** Processing blocks and heights *)

(** A new height: bill, and return the stashed blocks to the channel.  Without a
    bill its nonce is set through a nil pointer.  [nonce] is the block producer's
    answer. *)
Definition onHeight (h clock : Z) (nonce : option Z) : SM unit :=
  c ← getS;
  let period := i32 (sc_updatePeriod c) in
  let total := rt_total (sc_rt c) in
  if decide (period = 0 ∨ total = 0) then panic
  else
    (if decide (Z.rem h period = 0 ∧ Z.rem (i32 (Z.quot h period)) total = rt_index (sc_rt c)) then
       match billing c h (hs_node (headOf c)) with
       | Ok (ub, _) =>
           modifyS (λ c, set_sent c (sc_sent c ++ [signBill c (set_Nonce ub (default 0 nonce)) clock]))
       | _ => panic
       end
     else mret tt);;
    modifyS (λ c, set_queues c [] (sc_pending c ++ sc_stash c) (sc_heights c)).

(** A block from the channel: newer blocks are stashed, older ones dropped. *)
Definition onBlock b : SM unit :=
  height ← heightOf (Block_Timestamp b);
  c ← getS;
  let turn := i32 (rt_nextTurn (sc_rt c) - 1) in
  if decide (height > turn) then modifyS (λ c, set_queues c (sc_stash c ++ [b]) (sc_pending c) (sc_heights c))
  else if decide (height < turn) then mret tt
  else logging (CheckAndPushNewBlock b).

(** The RPC: an advised block goes to the channel. *)
Definition AdviseNewBlock b : SM unit := modifyS (λ c, set_queues c (sc_stash c) (sc_pending c ++ [b]) (sc_heights c)).

Definition UpdatePeers (peers : list NodeID) : SM unit := onRt (updatePeers peers).
Definition SetLastBillingHeight (h : Z) : SM unit := onRt (setLastBillingHeight h).
Definition Chain_query (now : Z) (req : Request) (isLeader : bool) : SM (nat * Response) :=
  onState (QueryWithContext now req isLeader).
End chain.
