(* ===== verification/SqlChainProps.v ===== *)
(** * A restarted SQL chain

    The invariant of a running chain: its head is linked to the genesis block by
    verified blocks with increasing heights, and the block database holds exactly
    these blocks.  A chain started again on its databases has the same nodes and
    head, and the sequence number after the last write of its blocks. *)
From S2P Require Import Prelude Hash Merkle Types Block SqlTypes Sanitizer Xenomint AckIndex Bytes LevelDB SqlNode SqlBilling SqlChain.
From Stdlib Require Import String ZArith Lia Sorting.Sorted.
From stdpp Require Import base list gmap strings sorting.
Local Open Scope Z_scope.

Section props.
Context `{SqlEnv} `{!SqlParser} {C : Type} `{!SqlStore SqlValue C} {D : Type} `{!LevelDB serror D}.
Context `{!MsgPack Block} `{!MsgPack SignedAckHeader} `{!MsgPack SignedResponseHeader} `{!BillingVersion}.
Abbreviation Chain := (Chain (C := C) (D := D)).
Implicit Types (c : Chain) (b : Block) (n : blockNode) (r : runtime) (bs : list (Z * Block)).

(** ** Nodes *)

(** The blocks of a chain of nodes with their heights, newest first. *)
Inductive linked r : blockNode → list (Z * Block) → Prop :=
| linked_genesis b cell : Block_VerifyAsGenesis b = Ok tt → rt_chainInitTime r = Block_Timestamp b →
    linked r (BlockNode None (Block_BlockHash b) 0 0 cell) [(0, b)]
| linked_next p bs b h cell : linked r p bs → SqlBlock_Verify b = Ok tt → Block_ParentHash b = bn_hash p →
    getHeightFromTime r (Block_Timestamp b) = Ok h → bn_height p < h →
    linked r (newBlockNodeEx h (Block_BlockHash b) cell (Some p)) ((h, b) :: bs).

(** A node without the address of its cell. *)
Fixpoint shape n : list (Hash * Z * Z) :=
  let 'BlockNode p hash height count _ := n in
  (hash, height, count) :: match p with Some p => shape p | None => [] end.

Lemma linked_rt r r' n bs : rt_chainInitTime r' = rt_chainInitTime r → rt_period r' = rt_period r →
  linked r n bs → linked r' n bs.
Proof.
  intros Hi Hp. induction 1 as [b cell Hg Ht|p bs b h cell _ IH Hv Hpa Hh Hlt].
  - constructor; [done|congruence].
  - apply linked_next; [done..| |done]. revert Hh. unfold getHeightFromTime. by rewrite Hi, Hp.
Qed.

Lemma linked_heights r n bs h b : linked r n bs → (h, b) ∈ bs → 0 <= h <= bn_height n.
Proof.
  intros Hl. revert h b. induction Hl as [g cell _ _|p bs g h' cell Hl IH _ _ _ Hlt]; intros h b Hin.
  - apply list_elem_of_singleton in Hin as [= -> ->]. done.
  - cbn. assert (0 <= bn_height p) as Hp by (destruct Hl; [done|]; cbn in *; destruct (IH h0 b0); [by left|lia]).
    apply elem_of_cons in Hin as [[= -> ->]|Hin]; [lia|]. apply IH in Hin. lia.
Qed.

Lemma linked_height r n bs : linked r n bs → 0 <= bn_height n < 2 ^ 31.
Proof.
  intros Hl. destruct Hl as [g cell _ _|p bs g h cell Hl Hv Hpa Hh Hlt]; [cbn; lia|]. cbn.
  assert (0 <= bn_height p).
  { destruct Hl as [|p' bs' b' h' cell' Hl']; [done|]. cbn in *.
    pose proof (linked_heights r _ _ h' b' (linked_next r p' bs' b' h' cell' Hl' ltac:(done) ltac:(done) ltac:(done) ltac:(done))) as Hz.
    cbn in Hz. destruct Hz; [by left|lia]. }
  unfold getHeightFromTime in Hh. case_decide; [done|]. injection Hh as <-.
  pose proof (i32_range (time_Sub (Block_Timestamp g) (rt_chainInitTime r) `quot` rt_period r)) as Hr.
  unfold is_i32 in Hr. lia.
Qed.

(** ** The block database *)

Definition entryKey (pre : list Z) (h : Z) b : list Z := pre ++ heightToKey h ++ Block_BlockHash b.
Definition entry (pre : list Z) (x : Z * Block) : list Z * list Z :=
  (entryKey pre x.1 x.2, default [] (EncodeMsgPack x.2)).

(** The database has these blocks, and no others under the prefix. *)
Record holdsBlocks (pre : list Z) (m : gmap (list Z) (list Z)) bs : Prop := {
  hb_stored h b : (h, b) ∈ bs → ∃ enc, EncodeMsgPack b = Some enc ∧ m !! entryKey pre h b = Some enc;
  hb_only k v : m !! k = Some v → pre `prefix_of` k → ∃ h b, (h, b) ∈ bs ∧ k = entryKey pre h b;
}.

Lemma u32_height h : 0 <= h < 2 ^ 31 → u32 h = h.
Proof. intros. unfold u32, two32. rewrite Z.mod_small; lia. Qed.

Lemma heightToKey_lt h h' x y : 0 <= h < h' → h' < 2 ^ 31 → bytes_lt (heightToKey h ++ x) (heightToKey h' ++ y).
Proof.
  intros Hh Hh'. apply putBE_lt. rewrite !u32_height by lia. change (256 ^ Z.of_nat 4) with (2 ^ 32).
  rewrite !Z.mod_small by lia. lia.
Qed.

Lemma entries_sorted pre r n bs : linked r n bs → StronglySorted bytes_lt (entry pre <$> reverse bs).*1.
Proof.
  intros Hl. pose proof (linked_height _ _ _ Hl) as Hmax.
  induction Hl as [g cell _ _|p bs g h cell Hl IH _ _ _ Hlt]; [repeat constructor|].
  rewrite reverse_cons, !fmap_app. pose proof (linked_height _ _ _ Hl) as Hp.
  apply StronglySorted_app_2; [|by apply IH|repeat constructor].
  intros k1 k2 (kv1 & -> & ([h1 b1] & -> & Hin)%list_elem_of_fmap)%list_elem_of_fmap Hk2.
  apply list_elem_of_singleton in Hk2 as ->. cbn. apply bytes_lt_app. cbn in Hmax.
  cbn in Hin. rewrite elem_of_reverse in Hin. apply (linked_heights _ _ _ _ _ Hl) in Hin.
  apply heightToKey_lt; lia.
Qed.

Lemma ldb_prefix_entries (d : D) pre r n bs : linked r n bs → holdsBlocks pre (ldb_map d) bs →
  ldb_prefix d pre = entry pre <$> reverse bs.
Proof.
  intros Hl [Hst Hon]. apply sorted_entries_eq; [apply ldb_prefix_sorted|by eapply entries_sorted|].
  intros [k v]. rewrite ldb_prefix_spec, list_elem_of_fmap. split.
  - intros [Hk Hpre]. destruct (Hon k v Hk Hpre) as (h & b & Hin & ->). exists (h, b).
    destruct (Hst h b Hin) as (enc & Henc & Hm). unfold entry. cbn. rewrite Henc. rewrite Hk in Hm. injection Hm as ->. split; [done|].
    by apply elem_of_reverse.
  - intros ([h b] & [= -> ->] & Hin). rewrite elem_of_reverse in Hin.
    destruct (Hst h b Hin) as (enc & Henc & Hm). cbn. rewrite Henc. split; [done|]. unfold entryKey. by apply prefix_app_r.
Qed.

(** ** Cached blocks *)

(** The cell of a node is clear or holds the node's block. *)
Definition cellOK (cells : list (option Block)) (cell : nat) b : Prop :=
  cells !! cell = Some (Some b) ∨ cells !! cell = Some None.
Fixpoint cellsOK (cells : list (option Block)) n bs : Prop :=
  let 'BlockNode p _ _ _ cell := n in
  match bs with
  | [] => False
  | (_, b) :: bs => cellOK cells cell b ∧ match p with Some p => cellsOK cells p bs | None => True end
  end.
(** Cells are added and cleared. *)
Definition cooled (cells cells' : list (option Block)) : Prop :=
  ∀ i x, cells !! i = Some x → cells' !! i = Some x ∨ cells' !! i = Some None.

Lemma cooled_refl cells : cooled cells cells.
Proof. intros i x. by left. Qed.
Lemma cooled_trans x y z : cooled x y → cooled y z → cooled x z.
Proof. intros H1' H2' i v Hi. destruct (H1' i v Hi) as [Hy|Hy]; [by apply H2'|]. apply H2' in Hy. tauto. Qed.
Lemma cooled_app cells l : cooled cells (cells ++ l).
Proof. intros i x Hi. left. by apply lookup_app_l_Some. Qed.
Lemma cooled_clear cells i : cooled cells (<[i := None]> cells).
Proof.
  intros j x Hj. destruct (decide (i = j)) as [<-|]; [|by rewrite list_lookup_insert_ne; [left|]].
  right. apply list_lookup_insert_eq. by eapply lookup_lt_Some.
Qed.
Lemma cooled_clearCells n cells count : cooled cells (clearCells n cells count).1.
Proof.
  revert cells count. induction n as [p hs ht ct cell IH] using blockNode_parent_ind. intros cells count. cbn. destruct (cells !! cell) as [[b|]|] eqn:Hc; try apply cooled_refl.
  destruct p as [p|]; [|apply cooled_clear]. eapply cooled_trans; [apply cooled_clear|]. apply IH.
Qed.
Lemma cellsOK_cooled cells cells' n bs : cooled cells cells' → cellsOK cells n bs → cellsOK cells' n bs.
Proof.
  intros Hc. revert n. induction bs as [|[h b] bs IH]; intros [p hs ht ct cell]; cbn; [done|].
  intros [[Hb|Hb] Hp]; (split; [destruct (Hc _ _ Hb) as [?|?]; [first [by left|by right]|by right]|]);
    (destruct p; [by apply IH|done]).
Qed.

(** ** Reloading *)

(** The sequence number after the writes of the blocks. *)
Fixpoint nextIDs bs : Z :=
  match bs with
  | [] => 0
  | (_, b) :: bs =>
      let id := nextIDs bs in
      let '(nid, ok) := CalcNextID b in if (ok : bool) && bool_decide (nid > id) then nid else id
  end.

(** A chain that has read blocks of genesis [g]: the other fields are those of [c]. *)
Definition booted (g : Block) (bi : blockIndex) (cells : list (option Block)) c : Chain :=
  set_bi (set_cells (set_rt c (setGenesis g (sc_rt c))) cells (sc_cachedBlockCount c)) bi.

Lemma genesis_height r b : rt_period r ≠ 0 → rt_chainInitTime r = Block_Timestamp b →
  getHeightFromTime r (Block_Timestamp b) = Ok 0.
Proof.
  intros Hp Hi. unfold getHeightFromTime. rewrite decide_False by done. rewrite Hi. unfold time_Sub.
  rewrite Z.sub_diag. change (Z.max (- 2 ^ 63) (Z.min (2 ^ 63 - 1) 0)) with 0. by rewrite Z.quot_0_l.
Qed.

Definition encodable bs : Prop := ∀ h b, (h, b) ∈ bs → is_Some (EncodeMsgPack b).

Lemma decode_entry pre h b : is_Some (EncodeMsgPack b) → decodeMsg (A := Block) (entry pre (h, b)).2 = Ok b.
Proof. intros [enc Henc]. unfold entry, decodeMsg. cbn. rewrite Henc. cbn. by rewrite (Decode_Encode _ _ Henc). Qed.

Lemma reload_linked pre r n bs c rest : linked r n bs → encodable bs → rt_period r ≠ 0 →
  rt_period (sc_rt c) = rt_period r → sc_cells c = [] →
  ∃ g n' bi cells, reload ((entry pre <$> reverse bs) ++ rest) None 0 c =
    reload rest (Some n') (nextIDs bs) (booted g bi cells c) ∧
    Block_Timestamp g = rt_chainInitTime r ∧ linked r n' bs ∧ shape n' = shape n ∧ cellsOK cells n' bs.
Proof.
  intros Hl Henc Hp Hcp Hcells. revert rest.
  induction Hl as [b cell Hg Ht|p bs b h cell Hl IH Hv Hpa Hh Hlt]; intros rest.
  - exists b, (BlockNode None (Block_BlockHash b) 0 0 0), (addBlock (BlockNode None (Block_BlockHash b) 0 0 0) (sc_bi c)), [None].
    split_and!; [|done|by constructor|done|split; [by right|done]].
    change (entry pre <$> reverse [(0, b)]) with [entry pre (0, b)]. rewrite (surjective_pairing (entry pre (0, b))).
    cbn [app reload]. rewrite decode_entry by (eapply Henc; by left).
    unfold wrappingS, onRt, heightOf. go_unfold. rewrite Hg.
    cbn [nextIDs]. destruct (CalcNextID b) as [nid ok].
    rewrite genesis_height; [|cbn; congruence|done].
    change (sc_cells (set_rt c (setGenesis b (sc_rt c)))) with (sc_cells c). by rewrite Hcells.
  - destruct (IH ltac:(intros ? ? ?; eapply Henc; by right) (entry pre (h, b) :: rest)) as (g & n' & bi & cells & Hr & Hg & Hn' & Hsh & Hnc).
    assert (bn_hash n' = bn_hash p ∧ bn_height n' = bn_height p ∧ bn_count n' = bn_count p) as (Hha & Hhe & Hco).
    { destruct n', p. cbn in *. injection Hsh as -> -> -> _. done. }
    set (node := newBlockNodeEx h (Block_BlockHash b) (length cells) (Some n')).
    exists g, node, (addBlock node bi), (cells ++ [None]). split_and!.
    + rewrite reverse_cons, fmap_app, <- app_assoc. cbn [fmap list_fmap app]. rewrite Hr. clear Hr IH.
      rewrite (surjective_pairing (entry pre (h, b))). cbn [reload].
      rewrite decode_entry by (eapply Henc; by left).
      unfold wrappingS, onRt, heightOf. go_unfold. rewrite decide_True by congruence. go_unfold. rewrite Hv.
      cbn [nextIDs]. destruct (CalcNextID b) as [nid ok].
      assert (getHeightFromTime (sc_rt (booted g bi cells c)) (Block_Timestamp b) = Ok h) as ->.
      { rewrite <- Hh. unfold getHeightFromTime. cbn. by rewrite Hg, Hcp. }
      done.
    + done.
    + apply linked_next; [done..|congruence|done|lia].
    + cbn. rewrite Hco. by rewrite Hsh.
    + split; [right; by apply list_lookup_middle|]. eapply cellsOK_cooled; [apply cooled_app|done].
Qed.

(** ** The invariant *)

(** The entries of the database of acknowledgements are readable. *)
Definition readableAcks c : Prop :=
  (∀ k v, ldb_map (sc_txDB c) !! k = Some v → sc_prefix c ++ metaAckIndex `prefix_of` k →
     is_Some (DecodeMsgPack v : option SignedAckHeader)) ∧
  (∀ k v, ldb_map (sc_txDB c) !! k = Some v → ¬ sc_prefix c ++ metaResponseIndex `prefix_of` k).

Record ChainInv c n bs : Prop := {
  ci_head : headOf c = MkHeadState (Some n) (bn_hash n) (bn_height n);
  ci_linked : linked (sc_rt c) n bs;
  ci_period : rt_period (sc_rt c) ≠ 0;
  ci_blocks : holdsBlocks (blockPrefix c) (ldb_map (sc_blkDB c)) bs;
  ci_acks : readableAcks c;
  ci_cells : cellsOK (sc_cells c) n bs;
}.

(** What the invariant is about does not change. *)
Record calm c c' : Prop := {
  cm_head : headOf c' = headOf c;
  cm_init : rt_chainInitTime (sc_rt c') = rt_chainInitTime (sc_rt c);
  cm_period : rt_period (sc_rt c') = rt_period (sc_rt c);
  cm_blocks : ldb_map (sc_blkDB c') = ldb_map (sc_blkDB c);
  cm_prefix : sc_prefix c' = sc_prefix c;
  cm_acks : readableAcks c → readableAcks c';
  cm_cells : cooled (sc_cells c) (sc_cells c');
}.
Lemma calm_same c c' : headOf c' = headOf c → rt_chainInitTime (sc_rt c') = rt_chainInitTime (sc_rt c) →
  rt_period (sc_rt c') = rt_period (sc_rt c) → sc_blkDB c' = sc_blkDB c → sc_prefix c' = sc_prefix c →
  sc_txDB c' = sc_txDB c → sc_cells c' = sc_cells c → calm c c'.
Proof.
  intros Hh Hi Hp Hb Hpre Ht Hc. split; [done..|congruence|done| |rewrite Hc; apply cooled_refl].
  unfold readableAcks. by rewrite Hpre, Ht.
Qed.
#[export] Instance calm_preorder : PreOrder calm.
Proof.
  split; [intros c; by apply calm_same|]. intros c1 c2 c3 [] []. split; try congruence; [auto|by eapply cooled_trans].
Qed.

Lemma ChainInv_calm c c' n bs : calm c c' → ChainInv c n bs → ChainInv c' n bs.
Proof.
  intros [Hh Hi Hp Hb Hpre Ha Hc] [Hh' Hl Hp' Hb' Ha' Hc'].
  split; [congruence|by eapply linked_rt|congruence| |auto|by eapply cellsOK_cooled].
  unfold blockPrefix. by rewrite Hpre, Hb.
Qed.

Abbreviation SM := (GoM Chain serror).
Definition quietS {A} (m : SM A) : Prop := ∀ c, keeps calm c m.

Lemma quietS_ret {A} (a : A) : quietS (mret a). Proof. intros c. by apply calm_same. Qed.
Lemma quietS_throw {A} e : quietS (throw e : SM A). Proof. intros c. by apply calm_same. Qed.
Lemma quietS_panic {A} : quietS (panic : SM A). Proof. intros c. by apply calm_same. Qed.
Lemma quietS_getS : quietS (getS : SM Chain). Proof. intros c. by apply calm_same. Qed.
Lemma quietS_liftR {A} (x : GoResult serror A) : quietS (liftR x : SM A). Proof. intros c. by apply calm_same. Qed.
Lemma quietS_bind {A B} (m : SM A) (k : A → SM B) : quietS m → (∀ a, quietS (k a)) → quietS (mbind k m).
Proof. intros Hm Hk c. apply keeps_bind; [apply _|apply Hm|]. intros a c' _. apply Hk. Qed.
Lemma quietS_attempt {A} (m : SM A) : quietS m → quietS (attempt m).
Proof. intros Hm c. apply keeps_attempt, Hm. Qed.
Lemma quietS_modify (f : Chain → Chain) : (∀ c, calm c (f c)) → quietS (modifyS f).
Proof. intros Hf c. apply Hf. Qed.
Lemma quietS_onAck {A} (m : GoM ackIndex serror A) : quietS (onAck m).
Proof. intros c. unfold keeps, onAck. destruct (m _). by apply calm_same. Qed.
Lemma quietS_onState {A} (m : GoM (State (C := C)) serror A) : quietS (onState m).
Proof. intros c. unfold keeps, onState. destruct (m _). by apply calm_same. Qed.
Lemma quietS_logging {A} (m : SM A) : quietS m → quietS (logging m).
Proof. intros Hm. apply quietS_bind; [by apply quietS_attempt|intros; apply quietS_ret]. Qed.
Lemma quietS_wrapping {A} (m : SM A) : quietS m → quietS (wrappingS m).
Proof. intros Hm. apply quietS_bind; [by apply quietS_attempt|]. intros []; [apply quietS_throw|apply quietS_ret]. Qed.
Lemma quietS_heightOf t : quietS (heightOf t).
Proof. apply quietS_bind; [apply quietS_getS|intros; apply quietS_liftR]. Qed.
Lemma quietS_forEach {A} (f : A → SM unit) l : (∀ x, quietS (f x)) → quietS (forEach f l).
Proof. intros Hf. induction l as [|x l IH]; [apply quietS_ret|]. apply quietS_bind; [apply Hf|by intros]. Qed.
Lemma quietS_encodeMsg {A} `{!MsgPack A} (a : A) : quietS (encodeMsg a).
Proof. unfold encodeMsg. case_match; [apply quietS_ret|apply quietS_throw]. Qed.
End props.

Create HintDb quiet.
#[export] Hint Extern 0 (calm _ _) => apply calm_same; reflexivity : core.
#[export] Hint Resolve quietS_ret quietS_throw quietS_panic quietS_getS quietS_liftR quietS_attempt quietS_onAck
  quietS_onState quietS_logging quietS_wrapping quietS_heightOf quietS_forEach quietS_encodeMsg : quiet.

(** Split a goal [quietS m] along the code. *)
Ltac quiet_step :=
  match goal with
  | |- ∀ _, quietS _ => intros ?
  | |- quietS (mbind _ _) => apply quietS_bind; [|intros ?]
  | |- quietS (modifyS _) => apply quietS_modify; intros ?
  | |- quietS (match ?x with _ => _ end) => destruct x eqn:?
  | |- quietS (if ?x then _ else _) => destruct x eqn:?
  | |- quietS _ => solve [auto with quiet]
  | |- calm _ _ => by apply calm_same
  end.
Ltac quiet := repeat quiet_step.

Section runs.
Context `{SqlEnv} `{!SqlParser} {C : Type} `{!SqlStore SqlValue C} {D : Type} `{!LevelDB serror D}.
Context `{!MsgPack Block} `{!MsgPack SignedAckHeader} `{!MsgPack SignedResponseHeader} `{!BillingVersion}.
Abbreviation Chain := (Chain (C := C) (D := D)).
Implicit Types (c : Chain) (b : Block) (n : blockNode) (bs : list (Z * Block)).

Lemma quietS_updateMetrics : quietS (updateMetrics (C := C) (D := D)).
Proof. unfold updateMetrics. quiet. Qed.
Lemma quietS_AddResponse resp : quietS (AddResponse (C := C) (D := D) resp).
Proof. unfold AddResponse. quiet. Qed.
Lemma quietS_registerAck ack : quietS (registerAck (C := C) (D := D) ack).
Proof. unfold registerAck. quiet. Qed.
Lemma quietS_removeAck ack : quietS (removeAck (C := C) (D := D) ack).
Proof. unfold removeAck. quiet. Qed.

Lemma quietS_syncHead answer : quietS (syncHead (C := C) (D := D) answer).
Proof. unfold syncHead. quiet. Qed.
Lemma quietS_waitAll arrive refs : quietS (waitAll (C := C) (D := D) arrive refs).
Proof.
  induction refs as [|ref refs IH]; cbn [waitAll]; [quiet|]. apply quietS_bind; [unfold waitReady; quiet|].
  intros tx. apply quietS_bind; [done|]. quiet.
Qed.
Lemma quietS_produceBlock now arrive : quietS (produceBlock (C := C) (D := D) now arrive).
Proof.
  unfold produceBlock. apply quietS_bind; [auto with quiet|]. intros [frs qts].
  case_decide; [quiet|]. do 3 (apply quietS_bind; [auto with quiet|intros ?]). apply quietS_bind; [apply quietS_waitAll|]. quiet.
Qed.
Lemma calm_pruneBlockCache c : calm c (pruneBlockCache c).
Proof.
  unfold pruneBlockCache. destruct (ascendFrom _ _) as [n|]; [|done].
  pose proof (cooled_clearCells n (sc_cells c) (sc_cachedBlockCount c)) as Hc.
  destruct (clearCells _ _ _) as [cells count]. split; done.
Qed.
Lemma calm_endTurn h c : calm c (endTurn h c).
Proof. etrans; [apply calm_pruneBlockCache|]. by apply calm_same. Qed.
Lemma quietS_runCurrentTurn now d arrive : quietS (runCurrentTurn (C := C) (D := D) now d arrive).
Proof.
  unfold runCurrentTurn. apply quietS_bind; [auto with quiet|]. intros c. apply quietS_bind.
  - destruct (negb _); [quiet|]. case_decide; [quiet|]. apply quietS_bind; [apply quietS_attempt, quietS_produceBlock|]. quiet.
  - intros res. apply quietS_bind; [apply quietS_modify; intros; apply calm_endTurn|]. quiet.
Qed.
Lemma quietS_mainCycleStep clock answer arrive : quietS (mainCycleStep (C := C) (D := D) clock answer arrive).
Proof.
  unfold mainCycleStep. apply quietS_bind; [apply quietS_attempt, quietS_syncHead|]. intros res.
  apply quietS_bind; [auto with quiet|]. intros c. destruct (nextTick _ _) as [t d].
  destruct res as [[]|]; try quiet; apply quietS_runCurrentTurn.
Qed.

Lemma readableAcks_put c h (ack : SignedAckHeader) enc e d : EncodeMsgPack ack = Some enc →
  ldb_Put ((sc_prefix c ++ metaAckIndex) ++ heightToKey h ++ Ack_Hash ack) enc (sc_txDB c) = (e, d) →
  readableAcks c → readableAcks (set_txDB c d).
Proof.
  intros Henc Hput%ldb_Put_spec [Ha Hr]. split; intros k v; cbn; rewrite Hput; destruct e; try (by eauto).
  - intros [[<- <-]|[_ Hk]]%lookup_insert_Some; [|by apply Ha]. intros _. by rewrite (Decode_Encode _ _ Henc).
  - intros [[<- <-]|[_ Hk]]%lookup_insert_Some; [|by apply (Hr k v)].
    rewrite <- app_assoc. intros Hp%prefix_app_inv. destruct Hp as [k Hk]. discriminate Hk.
Qed.

Lemma quietS_pushAckedQuery ack : quietS (pushAckedQuery (C := C) (D := D) ack).
Proof.
  unfold pushAckedQuery. apply quietS_bind; [auto with quiet|]. intros h c. unfold keeps, encodeMsg.
  destruct (EncodeMsgPack ack) as [enc|] eqn:Henc; [|done]. go_unfold.
  pose proof (quietS_wrapping _ (quietS_registerAck ack) c) as Hreg. unfold keeps in Hreg.
  destruct (wrappingS (registerAck ack) c) as [[[]|e|] c1]; [|done..]. cbn [snd] in Hreg. go_unfold.
  destruct (ldb_Put _ enc (sc_txDB c1)) as [e d] eqn:Hput. rewrite <- (cm_prefix _ _ Hreg) in Hput.
  assert (calm c1 (set_txDB c1 d)) as Hc2.
  { split; try done; [by eapply readableAcks_put|apply cooled_refl]. }
  destruct e; cbn; by etrans.
Qed.
Lemma quietS_VerifyAndPushAckedQuery ack : quietS (VerifyAndPushAckedQuery (C := C) (D := D) ack).
Proof.
  unfold VerifyAndPushAckedQuery. do 2 (apply quietS_bind; [auto with quiet|intros ?]). destruct (_ : bool); [quiet|].
  apply quietS_bind; [auto with quiet|intros]. apply quietS_pushAckedQuery.
Qed.

Lemma quietS_syncTo height answers rounds : quietS (syncTo (C := C) (D := D) height answers rounds).
Proof.
  induction rounds as [|rounds IH]; cbn [syncTo]; (apply quietS_bind; [auto with quiet|intros c]); (case_decide; [|quiet]); [quiet|].
  apply quietS_bind; [apply quietS_attempt, quietS_syncHead|]. intros [[]|]; try (solve [quiet]);
    (apply quietS_bind; [apply quietS_modify; intros; by apply calm_same|by intros]).
Qed.
Lemma quietS_syncLoop clocks answers : quietS (syncLoop (C := C) (D := D) clocks answers).
Proof.
  induction clocks as [|clock clocks IH]; cbn [syncLoop]; [quiet|]. do 2 (apply quietS_bind; [auto with quiet|intros ?]).
  case_decide; [quiet|]. case_decide; [quiet|]. apply quietS_bind; [apply quietS_syncTo|by intros].
Qed.
Lemma quietS_sync clocks answers : quietS (sync (C := C) (D := D) clocks answers).
Proof.
  intros c. pose proof (quietS_syncLoop clocks answers c) as Hc. unfold keeps, sync in *.
  assert (∀ c', calm c c' → calm c (afterSync c')) as Ha.
  { intros c' Hc'. etrans; [done|]. etrans; [apply calm_pruneBlockCache|]. by apply calm_same. }
  destruct (syncLoop clocks answers c) as [[]]; cbn in *; [by apply Ha..|done].
Qed.
Lemma quietS_onHeight h clock nonce : quietS (onHeight (C := C) (D := D) h clock nonce).
Proof.
  unfold onHeight. apply quietS_bind; [auto with quiet|]. intros c. case_decide; [quiet|].
  apply quietS_bind; [|quiet]. case_decide; [|quiet]. destruct (billing _ _ _) as [[ub e]| |]; quiet.
Qed.

(** ** Pushing blocks *)

Lemma holdsBlocks_put pre m bs h b enc : holdsBlocks pre m bs → EncodeMsgPack b = Some enc →
  (∀ h' b', (h', b') ∈ bs → entryKey pre h' b' ≠ entryKey pre h b) →
  holdsBlocks pre (<[entryKey pre h b := enc]> m) ((h, b) :: bs).
Proof.
  intros [Hst Hon] Henc Hne. split.
  - intros h' b' [[= -> ->]|Hin]%elem_of_cons; [exists enc; by rewrite lookup_insert_eq|].
    rewrite lookup_insert_ne by (intros Heq; by eapply Hne). by apply Hst.
  - intros k v [[<- <-]|[_ Hk]]%lookup_insert_Some Hpre; [by exists h, b; split; [left|]|].
    destruct (Hon k v Hk Hpre) as (h' & b' & Hin & ->). exists h', b'. split; [by right|done].
Qed.

Lemma entryKey_height pre h b h' b' : 0 <= h < h' → h' < 2 ^ 31 → entryKey pre h b ≠ entryKey pre h' b'.
Proof.
  intros Hlt Hr Heq. assert (bytes_lt (entryKey pre h b) (entryKey pre h' b')) as Hb.
  { apply bytes_lt_app. by apply heightToKey_lt. }
  rewrite Heq in Hb. by eapply bytes_lt_asym.
Qed.

(** The database of a chain and its period. *)
Definition ids c : list Z * Z := (sc_prefix c, rt_period (sc_rt c)).
Lemma calm_ids c c' : calm c c' → ids c' = ids c.
Proof. intros []. unfold ids. congruence. Qed.

(** What comes after the block is stored. *)
Lemma quietS_track b : quietS (updateMetrics (C := C) (D := D);;
  forEach (λ v, logging (AddResponse (qt_Response v))) (sb_QueryTxs b);;
  forEach (λ v, logging (removeAck v)) (sb_Acks b);;
  if decide (String.length (Block_Producer b) < 8)%nat then panic else mret tt).
Proof.
  apply quietS_bind; [apply quietS_updateMetrics|intros _].
  apply quietS_bind; [apply quietS_forEach; intros; apply quietS_logging, quietS_AddResponse|intros _].
  apply quietS_bind; [apply quietS_forEach; intros; apply quietS_logging, quietS_removeAck|intros _]. quiet.
Qed.

(** The block becomes the head, or nothing of the chain changes. *)
Lemma pushBlock_inv b c n bs : ChainInv c n bs → SqlBlock_Verify b = Ok tt → Block_ParentHash b = bn_hash n →
  (∀ h, getHeightFromTime (sc_rt c) (Block_Timestamp b) = Ok h → bn_height n < h) →
  ids (pushBlock b c).2 = ids c ∧
  (ChainInv (pushBlock b c).2 n bs ∧ (pushBlock b c).1 ≠ Ok tt ∨
   ∃ h cell, ChainInv (pushBlock b c).2 (newBlockNodeEx h (Block_BlockHash b) cell (Some n)) ((h, b) :: bs)).
Proof.
  intros Hinv Hv Hpa Hh. unfold pushBlock, heightOf, encodeMsg. go_unfold.
  destruct (getHeightFromTime (sc_rt c) (Block_Timestamp b)) as [h| |] eqn:Hht; [|by split; [|left]..]. specialize (Hh h eq_refl).
  destruct (EncodeMsgPack b) as [enc|] eqn:Henc; [|by split; [|left]]. go_unfold.
  rewrite (ci_head _ _ _ Hinv). cbn [hs_node]. set (node := newBlockNodeEx h _ _ _).
  change (blockPrefix c ++ indexKey node) with (entryKey (blockPrefix c) h b).
  destruct (ldb_Put _ enc (sc_blkDB c)) as [e d] eqn:Hput. apply ldb_Put_spec in Hput. go_unfold.
  assert (linked (sc_rt c) node ((h, b) :: bs)) as Hl by (apply linked_next; try done; apply Hinv).
  destruct e as [e|].
  { split; [done|]. left. split; [|done]. cbn. eapply ChainInv_calm; [|done]. split; try done. apply cooled_refl. }  set (c2 := extend h b (set_blkDB c d)). split; [apply (calm_ids c2), (quietS_track b c2)|].
  right. exists h, (length (sc_cells c)). fold node.
  assert (ChainInv c2 node ((h, b) :: bs)) as Hc2.
  { assert (hs_node (headOf c) = Some n) as Hn by (by rewrite (ci_head _ _ _ Hinv)).
    assert (headOf c2 = MkHeadState (Some node) (bn_hash node) (bn_height node)) as Hhd.
    { unfold c2, extend, headOf. cbn. fold (headOf c). by rewrite Hn. }
    split; [done|by apply (linked_rt (sc_rt c))|apply Hinv| |apply Hinv|].
    2:{ change (sc_cells c2) with (sc_cells c ++ [Some b]). cbn. split; [left; by rewrite list_lookup_middle|].
        eapply cellsOK_cooled; [apply cooled_app|apply Hinv]. }
    change (blockPrefix c2) with (blockPrefix c). change (sc_blkDB c2) with d. rewrite Hput.
    apply holdsBlocks_put; [apply Hinv|done|]. intros h' b' Hin.
    pose proof (linked_heights _ _ _ _ _ (ci_linked _ _ _ Hinv) Hin). pose proof (linked_height _ _ _ Hl) as Hr. cbn in Hr.
    apply entryKey_height; lia. }
  eapply ChainInv_calm; [|done]. apply (quietS_track b c2).
Qed.

(** [c'] has the blocks [bs] of [c], and perhaps later ones. *)
Definition extends c c' bs : Prop := ids c' = ids c ∧ ∃ n' bs', ChainInv c' n' (bs' ++ bs).

Lemma extends_calm c c1 c2 bs : calm c1 c2 → extends c c1 bs → extends c c2 bs.
Proof.
  intros Hc (Hid & n & bs' & Hi). split; [rewrite <- Hid; by apply calm_ids|]. exists n, bs'. by eapply ChainInv_calm.
Qed.
Lemma ChainInv_extends c n bs : ChainInv c n bs → extends c c bs.
Proof. intros Hi. split; [done|]. by exists n, []. Qed.

(** A block that follows the head is of a later period. *)
Definition laterPeriod c b : Prop := ∀ h, getHeightFromTime (sc_rt c) (Block_Timestamp b) = Ok h →
  Block_ParentHash b = hs_Head (headOf c) → hs_Height (headOf c) < h.

Lemma pushBlock_extends b c c1 n bs : ChainInv c n bs → calm c c1 → SqlBlock_Verify b = Ok tt →
  Block_ParentHash b = bn_hash n → laterPeriod c b → extends c (pushBlock b c1).2 bs.
Proof.
  intros Hinv Hcalm Hv Hpa Hlater. unfold laterPeriod in Hlater. rewrite (ci_head _ _ _ Hinv) in Hlater. cbn in Hlater.
  destruct (pushBlock_inv b c1 n bs) as [Hid Hi]; [by eapply ChainInv_calm|done|done| |].
  - intros h Hh. apply Hlater; [|done]. rewrite <- Hh. unfold getHeightFromTime.
    by rewrite (cm_init _ _ Hcalm), (cm_period _ _ Hcalm).
  - split; [rewrite Hid; by apply calm_ids|]. destruct Hi as [[Hi _]|(h & cell & Hi)]; [by exists n, []|].
    eexists _, [_]. exact Hi.
Qed.

Lemma CheckAndPushNewBlock_extends b c n bs : ChainInv c n bs → laterPeriod c b →
  extends c (CheckAndPushNewBlock b c).2 bs.
Proof.
  intros Hinv Hlater. pose proof (ChainInv_extends _ _ _ Hinv) as Hext.
  unfold CheckAndPushNewBlock, heightOf. go_unfold. destruct (getHeightFromTime _ _) as [h| |]; [|done..].
  rewrite (ci_head _ _ _ Hinv). cbn [hs_Height hs_Head]. case_decide; [done|].
  destruct (decide (Block_ParentHash b ≠ bn_hash n)) as [|Hpa]; [done|]. apply dec_stable in Hpa.
  go_unfold. destruct (SqlBlock_Verify b) as [[]| |] eqn:Hv; [|done..].
  case_decide; [by eapply pushBlock_extends|]. destruct (Peers_Find _ _) as [index|]; [|done].
  case_decide; [done|]. go_unfold. pose proof (quietS_onState (ReplayBlock b) c) as Hc. unfold keeps in Hc.
  destruct (onState (ReplayBlock b) c) as [[[]|e|] c1]; cbn [snd] in *; [|by eapply extends_calm..].
  by eapply pushBlock_extends.
Qed.

(** ** Runs *)

(** What a running chain is asked to do. *)
Inductive event :=
| EvQuery (now : Z) (req : Request) (isLeader : bool)
| EvUpdateResp (ref : nat) (resp : Response)
| EvResponse (resp : SignedResponseHeader)
| EvAck (ack : SignedAckHeader)
| EvAdvise (b : Block)
| EvBlock (b : Block)
| EvHeight (h clock : Z) (nonce : option Z)
| EvCycle (clock : Z) (answer : NodeID → fetchAnswer) (arrive : nat → option Response)
| EvSync (clocks : list Z) (answers : nat → nat → NodeID → fetchAnswer)
| EvPeers (peers : list NodeID)
| EvBilled (h : Z).

Definition ignoreS {A} (m : GoM Chain serror A) : GoM Chain serror unit := _ ← m; mret tt.
Definition handle (ev : event) : GoM Chain serror unit :=
  match ev with
  | EvQuery now req isLeader => ignoreS (Chain_query now req isLeader)
  | EvUpdateResp ref resp => onState (UpdateResp ref resp)
  | EvResponse resp => AddResponse resp
  | EvAck ack => VerifyAndPushAckedQuery ack
  | EvAdvise b => AdviseNewBlock b
  | EvBlock b => onBlock b
  | EvHeight h clock nonce => onHeight h clock nonce
  | EvCycle clock answer arrive => ignoreS (mainCycleStep clock answer arrive)
  | EvSync clocks answers => sync clocks answers
  | EvPeers peers => UpdatePeers peers
  | EvBilled h => SetLastBillingHeight h
  end.

(** The state after the events, whatever they return; every block that comes in
    and follows the head is of a later period than the head. *)
Fixpoint runEvents (evs : list event) c : Chain :=
  match evs with [] => c | ev :: evs => runEvents evs (handle ev c).2 end.
Fixpoint periodic (evs : list event) c : Prop :=
  match evs with
  | [] => True
  | ev :: evs => match ev with EvBlock b => laterPeriod c b | _ => True end ∧ periodic evs (handle ev c).2
  end.

Lemma handle_extends ev c n bs : ChainInv c n bs → match ev with EvBlock b => laterPeriod c b | _ => True end →
  extends c (handle ev c).2 bs.
Proof.
  intros Hinv Hok. assert (∀ (A : Type) (m : GoM Chain serror A), quietS m → quietS (ignoreS m)) as Hig.
  { intros A m Hm. apply quietS_bind; [done|auto with quiet]. }
  assert (∀ m : GoM Chain serror unit, quietS m → extends c (m c).2 bs) as Hq.
  { intros m Hm. eapply extends_calm; [apply Hm|by eapply ChainInv_extends]. }
  destruct ev as [now req isLeader|ref resp|resp|ack|b|b|h clock nonce|clock answer arrive|clocks answers|peers|h]; cbn [handle].
  - apply Hq, Hig, quietS_onState.
  - apply Hq, quietS_onState.
  - apply Hq, quietS_AddResponse.
  - apply Hq, quietS_VerifyAndPushAckedQuery.
  - apply Hq, quietS_modify. intros; by apply calm_same.
  - unfold onBlock, heightOf. go_unfold.
    destruct (getHeightFromTime _ _) as [h| |]; [|by eapply ChainInv_extends..].
    case_decide; [apply (extends_calm c c); [by apply calm_same|by eapply ChainInv_extends]|].
    case_decide; [by eapply ChainInv_extends|]. unfold logging. go_unfold.
    pose proof (CheckAndPushNewBlock_extends b c n bs Hinv Hok) as He. by destruct (CheckAndPushNewBlock b c) as [[]].
  - apply Hq, quietS_onHeight.
  - apply Hq, Hig, quietS_mainCycleStep.
  - apply Hq, quietS_sync.
  - apply Hq, quietS_modify. intros c0. unfold updatePeers. destruct (Peers_Find _ _); by apply calm_same.
  - apply Hq, quietS_modify. intros; by apply calm_same.
Qed.

Lemma runEvents_extends evs c n bs : ChainInv c n bs → periodic evs c → extends c (runEvents evs c) bs.
Proof.
  revert c n bs. induction evs as [|ev evs IH]; intros c n bs Hinv; cbn [runEvents periodic]; [intros; by eapply ChainInv_extends|].
  intros [Hok Hp]. destruct (handle_extends ev c n bs Hinv Hok) as (Hid1 & n1 & bs1 & Hinv1).
  destruct (IH _ _ _ Hinv1 Hp) as (Hid2 & n2 & bs2 & Hinv2). split; [congruence|]. exists n2, (bs2 ++ bs1). by rewrite <- app_assoc.
Qed.
End runs.
