(* ===== verification/SqlRestart.v ===== *)
(** * Starting a SQL chain

    The first start on empty databases pushes the genesis block; a later start
    reads the blocks back.  A chain that ran any sequence of events and is started
    again has the same chain of blocks. *)
From S2P Require Import Prelude Hash Merkle Types Block SqlTypes Sanitizer Xenomint AckIndex Bytes LevelDB SqlNode SqlBilling SqlChain.
From S2P Require Import SqlChainProps.
From Stdlib Require Import String ZArith Lia Sorting.Sorted.
From stdpp Require Import base list gmap strings sorting.
Local Open Scope Z_scope.

Section restart.
Context `{SqlEnv} `{!SqlParser} {C : Type} `{!SqlStore SqlValue C} {D : Type} `{!LevelDB serror D}.
Context `{!MsgPack Block} `{!MsgPack SignedAckHeader} `{!MsgPack SignedResponseHeader} `{!BillingVersion}.
Abbreviation Chain := (Chain (C := C) (D := D)).
Implicit Types (c : Chain) (b : Block) (n : blockNode) (bs : list (Z * Block)).

(** ** The first start *)

Definition freshPrefix (m : gmap (list Z) (list Z)) (pre : list Z) : Prop :=
  ∀ k v, m !! k = Some v → ¬ pre `prefix_of` k.

Lemma ldb_prefix_fresh (d : D) pre : freshPrefix (ldb_map d) pre → ldb_prefix d pre = [].
Proof.
  intros Hf. destruct (ldb_prefix d pre) as [|[k v] l] eqn:Hl; [done|].
  assert ((k, v) ∈ ldb_prefix d pre) as Hin by (rewrite Hl; by left).
  apply ldb_prefix_spec in Hin as [Hk Hp]. by destruct (Hf k v).
Qed.

(** Pushing the genesis block on a chain whose runtime knows it. *)
Lemma genesis_inv g c c' : genesis (Some g) c = (Ok tt, c') → rt_period (sc_rt c) ≠ 0 →
  rt_chainInitTime (sc_rt c) = Block_Timestamp g → hs_node (headOf c) = None →
  freshPrefix (ldb_map (sc_blkDB c)) (blockPrefix c) → readableAcks c →
  ids c' = ids c ∧ ∃ n, ChainInv c' n [(0, g)].
Proof.
  intros Hg Hp Hi Hn Hf Ha. unfold genesis, wrappingS in Hg. go_unfold in Hg.
  destruct (Block_VerifyAsGenesis g) as [[]| |] eqn:Hv; [|done..].
  unfold pushBlock, heightOf, encodeMsg in Hg. go_unfold in Hg. rewrite (genesis_height _ _ Hp Hi) in Hg.
  destruct (EncodeMsgPack g) as [enc|] eqn:Henc; [|done]. go_unfold in Hg.
  rewrite Hn in Hg. set (node := newBlockNodeEx 0 _ _ _) in Hg.
  change (blockPrefix c ++ indexKey node) with (entryKey (blockPrefix c) 0 g) in Hg.
  destruct (ldb_Put _ enc (sc_blkDB c)) as [[e|] d] eqn:Hput; [done|]. apply ldb_Put_spec in Hput.
  set (c2 := extend 0 g (set_blkDB c d)).
  assert (ChainInv c2 node [(0, g)]) as Hc2.
  { split.
    - unfold c2, extend, headOf. cbn. fold (headOf c). by rewrite Hn.
    - apply (linked_rt (sc_rt c)); [done..|]. by constructor.
    - done.
    - change (blockPrefix c2) with (blockPrefix c). change (sc_blkDB c2) with d. rewrite Hput.
      apply holdsBlocks_put; [|done|intros ? ? []%not_elem_of_nil]. split; [intros ? ? []%not_elem_of_nil|].
      intros k v Hk Hpre. by destruct (Hf k v).
    - apply Ha.
    - split; [left; by apply list_lookup_middle|done]. }
  pose proof (quietS_track g c2) as Hq. unfold keeps in Hq. go_unfold in Hq. fold c2 in Hg. rewrite Hg in Hq. cbn [snd] in Hq.
  split; [by apply (calm_ids c2)|]. exists node. by eapply ChainInv_calm.
Qed.

Lemma NewChain_fresh_inv cfg (blk tx : D) strg pk c g prefix : AccountAddress_of (cf_DatabaseID cfg) = Ok prefix →
  cf_Period cfg ≠ 0 → cf_Genesis cfg = Some g → freshPrefix (ldb_map blk) (prefix ++ metaBlockIndex) →
  freshPrefix (ldb_map tx) prefix → NewChain cfg blk tx strg pk = (Ok tt, Some c) →
  ids c = (prefix, cf_Period cfg) ∧ ∃ n, ChainInv c n [(0, g)].
Proof.
  intros Hpre Hp Hg Hf Hft. unfold NewChain. rewrite Hpre. cbn [PubKeyHash].
  destruct (NewState _ _ strg) as [[[]|e|] st] eqn:Hst; [|done..].
  destruct (loadChain cfg _) as [r c1] eqn:Hl. intros [= -> ->].
  set (c0 := emptyChain cfg blk tx st pk _ prefix) in Hl. unfold loadChain in Hl. go_unfold in Hl.
  change (sc_blkDB c0) with blk in Hl. change (blockPrefix c0) with (prefix ++ metaBlockIndex) in Hl.
  rewrite ldb_prefix_fresh in Hl by done. cbn [reload] in Hl. go_unfold in Hl. rewrite Hg in Hl.
  assert (rt_chainInitTime (sc_rt c0) = Block_Timestamp g ∧ hs_node (headOf c0) = None ∧ rt_period (sc_rt c0) = cf_Period cfg) as (Hi & Hn & Hpe).
  { unfold c0, headOf, emptyChain, newRunTime. cbn. by rewrite Hg. }
  destruct (genesis_inv g c0 c Hl) as [Hid Hinv]; [congruence|done|done|done| |split; [|done]].
  - split; intros k v Hk Hpx; destruct (Hft k v Hk); by eapply prefix_app_l.
  - rewrite Hid. unfold ids. rewrite Hpe. done.
Qed.

(** ** A later start *)

Lemma checkEntries_ok (A : Type) `{!MsgPack A} kvs : (∀ k v, (k, v) ∈ kvs → is_Some (DecodeMsgPack v : option A)) →
  checkEntries A kvs = Ok tt.
Proof.
  unfold checkEntries. induction kvs as [|[k v] kvs IH]; intros Hd; cbn; [done|].
  destruct (Hd k v) as [a Ha]; [by left|]. unfold decodeMsg at 1. rewrite Ha. cbn. apply IH. intros k' v' Hin. apply (Hd k'). by right.
Qed.

Lemma ancestor_self n : 0 <= bn_height n → ancestor n (bn_height n) = Some n.
Proof.
  intros Hn. unfold ancestor. rewrite decide_False by lia. destruct n as [p hs ht ct cell]. cbn in *.
  rewrite bool_decide_false by lia. cbn. by rewrite decide_False by lia.
Qed.

(** Reads of the databases that succeed. *)
Hypothesis reads : ∀ (d : D) k, ∃ o, ldb_Get d k = Ok o.

Lemma updateMetrics_ok c n bs : ChainInv c n bs → updateMetrics c = (Ok tt, c).
Proof.
  intros Hinv. unfold updateMetrics. go_unfold. rewrite (ci_head _ _ _ Hinv). cbn [hs_node hs_Height].
  destruct (loadCell c n); [done|]. unfold FetchBlock. rewrite (ci_head _ _ _ Hinv). cbn [hs_node].
  rewrite ancestor_self by (eapply linked_height, Hinv). unfold fetchBlockByIndexKey.
  destruct (reads (sc_blkDB c) (blockPrefix c ++ indexKey n)) as [o Ho]. rewrite Ho. destruct o as [v|]; [|done].
  unfold decodeMsg. by destruct (DecodeMsgPack v).
Qed.

Lemma NewChain_restart cfg (blk tx : D) strg pk c n bs : ChainInv c n bs →
  AccountAddress_of (cf_DatabaseID cfg) = Ok (sc_prefix c) → cf_Period cfg = rt_period (sc_rt c) →
  ldb_map blk = ldb_map (sc_blkDB c) → ldb_map tx = ldb_map (sc_txDB c) →
  (NewState (cf_ReadUncommitted cfg) (cf_Server cfg) strg).1 = Ok tt →
  ∃ c' n', NewChain cfg blk tx strg pk = (Ok tt, Some c') ∧ ids c' = ids c ∧ ChainInv c' n' bs ∧ shape n' = shape n ∧
    xs_current (sc_st c') = nextIDs bs.
Proof.
  intros Hinv Hpre Hper Hblk Htx Hst. unfold NewChain. rewrite Hpre. cbn [PubKeyHash].
  destruct (NewState _ _ strg) as [r st] eqn:Hns. cbn in Hst. subst r.
  set (c0 := emptyChain cfg blk tx st pk _ (sc_prefix c)).
  assert (rt_period (sc_rt c0) = cf_Period cfg) as Hp0.
  { unfold c0, emptyChain, newRunTime. cbn. by destruct (cf_Genesis cfg). }
  pose proof (ci_blocks _ _ _ Hinv) as Hbl. rewrite <- Hblk in Hbl.
  assert (encodable bs) as Henc by (intros h b Hin; destruct (hb_stored _ _ _ Hbl h b Hin) as (enc & -> & _); by eexists).
  destruct (reload_linked (blockPrefix c) (sc_rt c) n bs c0 [] (ci_linked _ _ _ Hinv) Henc (ci_period _ _ _ Hinv))
    as (g & n' & bi & cells & Hr & Hg & Hl' & Hsh & Hcell); [congruence|done|].
  rewrite app_nil_r in Hr. set (c1 := booted g bi cells c0) in Hr.
  set (c2 := set_rt c1 (setHead (MkHeadState (Some n') (bn_hash n') (bn_height n')) (sc_rt c1))).
  set (c3 := set_st c2 (SetSeq (nextIDs bs) (sc_st c2))).
  assert (readableAcks c3) as Ha.
  { destruct (ci_acks _ _ _ Hinv) as [Ha1 Ha2]. unfold readableAcks. change (sc_txDB c3) with tx.
    change (sc_prefix c3) with (sc_prefix c). by rewrite Htx. }
  assert (ChainInv c3 n' bs) as Hi3.
  { assert (rt_period (sc_rt c3) = rt_period (sc_rt c)) as Hp3
      by (change (rt_period (sc_rt c3)) with (rt_period (sc_rt c0)); congruence).
    split; [done|by apply (linked_rt (sc_rt c))|rewrite Hp3; apply Hinv|exact Hbl|done|done]. }
  exists c3, n'. split_and!; [| |done|done|done].
  2:{ unfold ids. change (rt_period (sc_rt c3)) with (rt_period (sc_rt c0)). by rewrite Hp0, Hper. }
  assert (loadChain cfg c0 = (Ok tt, c3)) as ->; [|done].
  unfold loadChain. go_unfold. change (sc_blkDB c0) with blk. change (blockPrefix c0) with (blockPrefix c).
  rewrite (ldb_prefix_entries _ _ _ _ _ (ci_linked _ _ _ Hinv) Hbl), Hr. cbn [reload]. unfold onRt. go_unfold.
  fold c2. fold c3. rewrite (updateMetrics_ok _ _ _ Hi3). go_unfold.
  change (sc_txDB c3) with tx in *. change (sc_prefix c3) with (sc_prefix c) in *.
  rewrite !checkEntries_ok; [done|..].
  - intros k v [Hk Hp]%ldb_prefix_spec. destruct Ha as [Ha _]. by apply (Ha k v).
  - intros k v [Hk Hp]%ldb_prefix_spec. destruct Ha as [_ Ha]. by destruct (Ha k v).
Qed.

(** C13: A SQL chain survives a restart, if no two of its blocks are of one period.  It
    is started on databases that have no entry of it, with a genesis block and a
    period that is not zero, and handles a sequence of events (queries, responses,
    acknowledgements, advised and received blocks, heights, turns, synchronisations,
    new peers, failing database writes) in which every block that follows the head is
    of a later period than the head ([periodic]; without it the restart fails, see
    [same_period_restart_fails]).  Started again with the same database id and
    period on the databases as they are then, which are read without error, and with
    a store that opens, it loads without error and has the same chain of blocks: the
    same hashes, heights and counts from the head to the genesis block.  Its
    sequence number is the one after the last write of these blocks, which is not
    that of the chain before the restart when that had writes in no block yet. *)
Theorem restart_roundtrip cfg (blk tx : D) strg pk g prefix c0 evs cfg' (blk' tx' : D) strg' pk' :
  AccountAddress_of (cf_DatabaseID cfg) = Ok prefix → cf_Period cfg ≠ 0 → cf_Genesis cfg = Some g →
  freshPrefix (ldb_map blk) (prefix ++ metaBlockIndex) → freshPrefix (ldb_map tx) prefix →
  NewChain cfg blk tx strg pk = (Ok tt, Some c0) → periodic evs c0 →
  cf_DatabaseID cfg' = cf_DatabaseID cfg → cf_Period cfg' = cf_Period cfg →
  ldb_map blk' = ldb_map (sc_blkDB (runEvents evs c0)) → ldb_map tx' = ldb_map (sc_txDB (runEvents evs c0)) →
  (NewState (cf_ReadUncommitted cfg') (cf_Server cfg') strg').1 = Ok tt →
  ∃ c' n n' bs, NewChain cfg' blk' tx' strg' pk' = (Ok tt, Some c') ∧
    ChainInv (runEvents evs c0) n (bs ++ [(0, g)]) ∧ ChainInv c' n' (bs ++ [(0, g)]) ∧ shape n' = shape n ∧
    headOf c' = MkHeadState (Some n') (hs_Head (headOf (runEvents evs c0))) (hs_Height (headOf (runEvents evs c0))) ∧
    xs_current (sc_st c') = nextIDs (bs ++ [(0, g)]).
Proof.
  intros Hpre Hp Hg Hf Hft Hnew Hper Hid Hpe Hblk Htx Hst.
  destruct (NewChain_fresh_inv _ _ _ _ _ _ _ _ Hpre Hp Hg Hf Hft Hnew) as (Hids0 & n0 & Hinv0).
  destruct (runEvents_extends evs c0 n0 _ Hinv0 Hper) as (Hids & n & bs & Hinv). rewrite Hids0 in Hids. injection Hids as Hpx Hpp.
  destruct (NewChain_restart cfg' blk' tx' strg' pk' _ _ _ Hinv) as (c' & n' & Hnc & _ & Hinv' & Hsh & Hseq);
    [by rewrite Hid, Hpx|congruence|done..|].
  exists c', n, n', bs. split_and!; [done..| |done]. rewrite (ci_head _ _ _ Hinv), (ci_head _ _ _ Hinv').
  cbn. destruct n, n'. cbn in *. by injection Hsh as -> -> _ _.
Qed.
End restart.
