(* ===== verification/SqlReplicate.v ===== *)
(** * A block carries the leader's writes to a follower

    The queries a leader answers between two blocks are pooled; the block it
    produces of them, accepted by a follower that was in step at the last block,
    brings the follower to the leader's content and sequence number. *)
From S2P Require Import Prelude Hash Merkle Types Block SqlTypes Sanitizer Xenomint XenoProps AckIndex Bytes LevelDB SqlNode.
From S2P Require Import SqlBilling SqlChain SqlChainProps.
From Stdlib Require Import String ZArith Lia.
From stdpp Require Import base list gmap strings.
Local Open Scope Z_scope.

(** ** The leader's state *)

Section serving.
Context `{SqlEnv} `{!SqlParser} {C D : Type} `{!SqlStore SqlValue C} `{!SqlLaws SqlValue C D}.
Implicit Types (s : State (C := C)) (req : Request).

(** [off] is the log offset a tracker was answered with. *)
Variable off : nat → Z.

(** The requests a leader answers, failed requests that leave it untouched, and the
    responses the trackers get. *)
Inductive serves : State (C := C) → State (C := C) → Prop :=
| serves_refl s : serves s s
| serves_query s s1 now req ref resp s2 : serves s s1 → plainRequest req → rq_Queries req ≠ [] →
    xs_current s1 + Z.of_nat (length (rq_Queries req)) < two64 →
    QueryWithContext now req true s1 = (Ok (ref, resp), s2) → rs_LogOffset (sr_Header (re_Header resp)) = off ref →
    serves s s2
| serves_failed s s1 now req e s2 : serves s s1 → QueryWithContext now req true s1 = (Err e, s2) → untouched s1 s2 → serves s s2
| serves_resp s s1 ref resp : serves s s1 → rs_LogOffset (sr_Header (re_Header resp)) = off ref →
    serves s (UpdateResp ref resp s1).2.

(** The transaction a tracker gives. *)
Definition txOf s (ref : nat) (tx : QueryAsTx) : Prop :=
  ∃ t, xs_heap s !! ref = Some t ∧ qt_Request tx = tr_Req t ∧ rs_LogOffset (sr_Header (qt_Response tx)) = off ref.

(** The pooled writes are what was executed since [d0] and [n0]. *)
Record Pooled (d0 : D) (n0 : Z) s : Prop := {
  pd_settled : settled s;
  pd_start : 0 <= n0;
  pd_refs ref : ref ∈ po_queries (xs_pool s) → (ref < length (xs_heap s))%nat;
  pd_exec txs : Forall2 (txOf s) (po_queries (xs_pool s)) txs → executes d0 n0 txs (db s) (xs_current s);
  pd_le : n0 <= xs_current s;
  pd_resp ref t resp : xs_heap s !! ref = Some t → tr_Resp t = Some resp →
    rs_LogOffset (sr_Header (re_Header resp)) = off ref;
  pd_reads h ref : po_reads (xs_pool s) !! h = Some ref →
    ∃ t, xs_heap s !! ref = Some t ∧ rh_QueryType (rq_Header (tr_Req t)) = ReadQuery;
}.

Lemma txOf_heap s s' ref tx : (∀ t, xs_heap s' !! ref = Some t → ∃ t0, xs_heap s !! ref = Some t0 ∧ tr_Req t0 = tr_Req t) →
  txOf s' ref tx → txOf s ref tx.
Proof. intros Hh (t & Ht & Hreq & Hoff). destruct (Hh t Ht) as (t0 & Ht0 & Heq). exists t0. split_and!; congruence. Qed.

Lemma Forall2_impl_elem {A B} (P Q : A → B → Prop) l k : (∀ x y, x ∈ l → P x y → Q x y) → Forall2 P l k → Forall2 Q l k.
Proof.
  intros HPQ Hl. induction Hl as [|x y l k Hxy _ IH]; constructor; [apply HPQ; [by left|done]|].
  apply IH. intros x' y' Hin. apply HPQ. by right.
Qed.

(** A heap with one more tracker. *)
Lemma txs_app s s' t refs txs : xs_heap s' = xs_heap s ++ [t] → (∀ ref, ref ∈ refs → (ref < length (xs_heap s))%nat) →
  Forall2 (txOf s') refs txs → Forall2 (txOf s) refs txs.
Proof.
  intros Hheap Hrefs. apply Forall2_impl_elem. intros ref tx Hin%Hrefs. apply txOf_heap.
  intros t' Ht'. rewrite Hheap, lookup_app_l in Ht' by done. by exists t'.
Qed.
Lemma resp_app s s' req : xs_heap s' = xs_heap s ++ [MkQueryTracker req None] →
  (∀ ref t resp, xs_heap s !! ref = Some t → tr_Resp t = Some resp → rs_LogOffset (sr_Header (re_Header resp)) = off ref) →
  ∀ ref t resp, xs_heap s' !! ref = Some t → tr_Resp t = Some resp → rs_LogOffset (sr_Header (re_Header resp)) = off ref.
Proof.
  intros Hheap Hre ref t resp. rewrite Hheap. intros [Ht|[_ Ht]]%lookup_app_Some; [by eapply Hre|].
  apply list_lookup_singleton_Some in Ht as [_ <-]. done.
Qed.
Lemma reads_app s s' (t0 : QueryTracker) (p : gmap Hash nat) : xs_heap s' = xs_heap s ++ [t0] →
  (∀ h ref, p !! h = Some ref → ∃ t, xs_heap s !! ref = Some t ∧ rh_QueryType (rq_Header (tr_Req t)) = ReadQuery) →
  ∀ h ref, p !! h = Some ref → ∃ t, xs_heap s' !! ref = Some t ∧ rh_QueryType (rq_Header (tr_Req t)) = ReadQuery.
Proof.
  intros Hheap Hrd h ref Hh. destruct (Hrd h ref Hh) as (t & Ht & Hty). exists t. split; [|done].
  rewrite Hheap. by apply lookup_app_l_Some.
Qed.

Lemma Pooled_write d0 n0 now req ref resp s s' : Pooled d0 n0 s → plainRequest req → rq_Queries req ≠ [] →
  xs_current s + Z.of_nat (length (rq_Queries req)) < two64 → rh_QueryType (rq_Header req) = WriteQuery →
  write now req true s = (Ok (ref, resp), s') → rs_LogOffset (sr_Header (re_Header resp)) = off ref → Pooled d0 n0 s'.
Proof.
  intros [Hset Hst Href Hex Hle Hre Hrd] Hp Hne Hroom Hty Hw Hoff.
  apply write_inv in Hw as (Hset' & Hrun & Hcur & Hlo & -> & Hheap & Hpool & _); [|done..|lia|done].
  split.
  - done.
  - done.
  - intros i. rewrite Hpool, Hheap, length_app. cbn. rewrite elem_of_app, list_elem_of_singleton.
    intros [Hi%Href| ->]; lia.
  - intros txs. rewrite Hpool. cbn. intros (txs1 & txs2 & Hl & Hr & ->)%Forall2_app_inv_l.
    apply Forall2_cons_inv_l in Hr as (tx & rest & Htx & Hrest & ->). apply Forall2_nil_inv_l in Hrest as ->.
    eapply executes_app; [apply Hex; by eapply txs_app|].
    destruct Htx as (t & Ht & Hreq & Htoff). rewrite Hheap, list_lookup_middle in Ht by done. injection Ht as <-. cbn in Hreq.
    rewrite Hcur. subst req. eapply executes_write; try done; [congruence|constructor].
  - lia.
  - by eapply resp_app.
  - rewrite Hpool. cbn. by eapply reads_app.
Qed.

Lemma Pooled_read d0 n0 now req r s s' : Pooled d0 n0 s → rh_QueryType (rq_Header req) = ReadQuery →
  readTx now req s = (Ok r, s') → Pooled d0 n0 s'.
Proof.
  intros [Hset Hst Href Hex Hle Hre Hrd] Hty Hr. destruct (readTx_inv _ _ _ _ _ Hr Hset) as (Hset' & Hdb & Hcu & _).
  assert (xs_heap s' = xs_heap s ++ [MkQueryTracker req None] ∧
    xs_pool s' = enqueueRead (Request_Hash req) (length (xs_heap s)) (xs_pool s)) as [Hheap Hpool].
  { unfold readTx in Hr. go_unfold in Hr. destruct (if _ && _ then None else _) as [e|]; [done|].
    destruct (readLoop _ _ _ s) as [r1 s1] eqn:Hl. pose proof (readLoop_state _ _ _ _ _ _ Hl) as ->.
    destruct r1 as [[[cn ct] data]|e|]; [|by destruct (_ && _) in Hr|done].
    destruct (_ && _) in Hr; [done|]. unfold newTracker, onPool in Hr. go_unfold in Hr. by injection Hr as _ <-. }
  split.
  - done.
  - done.
  - intros i. rewrite Hpool, Hheap, length_app. cbn. intros Hi%Href. lia.
  - intros txs. rewrite Hpool, Hdb, Hcu. cbn. intros Hl. apply Hex. by eapply txs_app.
  - lia.
  - by eapply resp_app.
  - rewrite Hpool. cbn. intros h ref. destruct (decide (Request_Hash req = h)) as [<-|].
    + rewrite lookup_insert_eq. intros [= <-]. exists (MkQueryTracker req None). split; [|done]. by rewrite Hheap, list_lookup_middle.
    + rewrite lookup_insert_ne by done. by eapply reads_app.
Qed.

Lemma Pooled_resp d0 n0 ref resp s : Pooled d0 n0 s → rs_LogOffset (sr_Header (re_Header resp)) = off ref →
  Pooled d0 n0 (UpdateResp ref resp s).2.
Proof.
  intros [Hset Hst Href Hex Hle Hre Hrd] Hoff. unfold UpdateResp. go_unfold. cbn [snd]. set (s' := set_heap s _).
  assert (∀ i t, xs_heap s' !! i = Some t → ∃ t0, xs_heap s !! i = Some t0 ∧ tr_Req t = tr_Req t0 ∧
    (tr_Resp t = tr_Resp t0 ∨ i = ref ∧ tr_Resp t = Some resp)) as Hh.
  { intros i t. unfold s'. cbn. intros Ht. destruct (decide (i = ref)) as [->|].
    - rewrite list_lookup_alter_eq in Ht. destruct (xs_heap s !! ref) as [t0|]; [|done]. injection Ht as <-. exists t0. cbn. auto.
    - rewrite list_lookup_alter_ne in Ht by done. exists t. auto. }
  split; change (xs_pool s') with (xs_pool s).
  - done.
  - done.
  - intros i Hi. unfold s'. cbn [xs_heap set_heap]. rewrite length_alter. by apply Href.
  - intros txs Hl. apply Hex. eapply Forall2_impl_elem; [|done]. intros i tx _. apply txOf_heap.
    intros t (t0 & Ht0 & Hreq & _)%Hh. by exists t0.
  - done.
  - intros i t resp' (t0 & Ht0 & _ & [Heq|[-> Heq]])%Hh; rewrite Heq; [by eapply Hre|]. by intros [= <-].
  - intros h i Hi. destruct (Hrd h i Hi) as (t & Ht & Hty). destruct (decide (i = ref)) as [->|].
    + eexists. unfold s'. cbn [xs_heap set_heap]. rewrite list_lookup_alter_eq, Ht. split; [done|done].
    + exists t. unfold s'. cbn [xs_heap set_heap]. by rewrite list_lookup_alter_ne.
Qed.

Lemma Pooled_failed d0 n0 now req e s s' : Pooled d0 n0 s → QueryWithContext now req true s = (Err e, s') → untouched s s' → Pooled d0 n0 s'.
Proof.
  intros [Hset Hst Href Hex Hle Hre Hrd] (Hheap & Hpq & Hpr)%failed_query (Hset' & Hdb & Hcu). split.
  - done.
  - done.
  - intros ref. rewrite Hpq. intros Hin%Href. destruct Hheap as [-> | ->]; [done|]. rewrite length_app. lia.
  - intros txs. rewrite Hpq, Hdb, Hcu. intros Hl. apply Hex. destruct Hheap as [Hh|Hh]; [|by eapply txs_app].
    eapply Forall2_impl_elem; [|done]. intros ref tx _. apply txOf_heap. intros t. rewrite Hh. by exists t.
  - lia.
  - destruct Hheap as [-> |Hh]; [done|]. by eapply resp_app.
  - rewrite Hpr. destruct Hheap as [-> |Hh]; [done|]. by eapply reads_app.
Qed.

Lemma serves_Pooled d0 n0 s s' : serves s s' → Pooled d0 n0 s → Pooled d0 n0 s'.
Proof.
  induction 1 as [s|s s1 now req ref resp s2 _ IH Hp Hne Hroom Hq Hoff|s s1 now req e s2 _ IH Hq Hun|s s1 ref resp _ IH Hoff]; intros Hs.
  - done.
  - unfold QueryWithContext in Hq. destruct (decide _) as [Hread|_]; [by apply (Pooled_read _ _ now req (ref, resp) s1); [apply IH|..]|].
    destruct (decide _) as [Hwr|]; [|done]. by apply (Pooled_write _ _ now req ref resp s1); [apply IH|..].
  - by apply (Pooled_failed d0 n0 now req e s1 s2 (IH Hs)).
  - apply Pooled_resp; auto.
Qed.

(** The queries a block is made of, with the responses they got. *)
Lemma Pooled_CommitEx d0 n0 s frs qts s' : Pooled d0 n0 s → CommitEx s = (Ok (frs, qts), s') →
  settled s' ∧ (∀ ref t resp, xs_heap s' !! ref = Some t → tr_Resp t = Some resp →
    rs_LogOffset (sr_Header (re_Header resp)) = off ref) ∧
  ∀ txs, Forall2 (txOf s') qts txs → executes d0 n0 txs (db s') (xs_current s').
Proof.
  intros [Hset Hst Href Hex Hle Hre Hrd] Hc. unfold CommitEx in Hc. apply bind_Ok in Hc as ([] & s1 & Hf & Hc).
  apply flushHandler_inv in Hf as [Hs1 (Hdb & Hcu & Hpo & Hhe & _)]; [|done].
  unfold onPool in Hc. go_unfold in Hc. injection Hc as _ <- <-.
  split_and!; [done|intros ref t resp; cbn; rewrite Hhe; apply Hre|].
  intros txs. rewrite Hpo. intros (txs1 & txs2 & Hl & Hr & ->)%Forall2_app_inv_l.
  assert (∀ ref tx, txOf (set_pool s1 newPool) ref tx → txOf s ref tx) as Htx.
  { intros ref tx. apply txOf_heap. intros t. cbn. rewrite Hhe. by exists t. }
  change (db (set_pool s1 newPool)) with (db s1). change (xs_current (set_pool s1 newPool)) with (xs_current s1).
  rewrite Hdb, Hcu. eapply executes_app; [apply Hex; eapply Forall2_impl_elem; [|done]; auto|].
  assert (∀ ref, ref ∈ (map_to_list (po_reads (xs_pool s))).*2 → ∃ t, xs_heap s !! ref = Some t ∧
    rh_QueryType (rq_Header (tr_Req t)) = ReadQuery) as Hreads.
  { intros ref ([h ref'] & -> & Hin%elem_of_map_to_list)%list_elem_of_fmap. by eapply Hrd. }
  clear Hl. induction Hr as [|ref tx refs txs2 Hx _ IH]; [constructor|].
  destruct (Htx _ _ Hx) as (t & Ht & Hreq & _). destruct (Hreads ref) as (t' & Ht' & Hty); [by left|].
  apply executes_read; [congruence|]. apply IH. intros ref' Hin. apply Hreads. by right.
Qed.
End serving.

(** ** Producing and pushing *)

Section replicate.
Context `{SqlEnv} `{!SqlParser} {C DB : Type} `{!SqlStore SqlValue C} `{!SqlLaws SqlValue C DB}.
Context {D : Type} `{!LevelDB serror D}.
Context `{!MsgPack Block} `{!MsgPack SignedAckHeader} `{!MsgPack SignedResponseHeader} `{!BillingVersion}.
Abbreviation Chain := (Chain (C := C) (D := D)).
Implicit Types (c : Chain) (b : Block).

Variable off : nat → Z.

(** Responses that arrive have the offsets their requests were answered with. *)
Definition arrivals (arrive : nat → option Response) : Prop :=
  ∀ ref resp, arrive ref = Some resp → rs_LogOffset (sr_Header (re_Header resp)) = off ref.

Definition respOK c : Prop := ∀ ref t resp, xs_heap (sc_st c) !! ref = Some t → tr_Resp t = Some resp →
  rs_LogOffset (sr_Header (re_Header resp)) = off ref.

(** Everything but the responses of the trackers. *)
Definition sameButHeap c c' : Prop := ∃ heap, c' = set_st c (set_heap (sc_st c) heap).

Lemma waitAll_txs arrive refs c txs c' : arrivals arrive → respOK c → waitAll arrive refs c = (Ok txs, c') →
  sameButHeap c c' ∧ Forall2 (txOf off (sc_st c)) refs txs.
Proof.
  intros Harr. revert c txs c'. induction refs as [|ref refs IH]; intros c txs c' Hre Hw; cbn [waitAll] in Hw.
  { injection Hw as <- <-. split; [|constructor]. exists (xs_heap (sc_st c)). destruct c as [? ? []]. done. }
  apply bind_Ok in Hw as (tx & c1 & Hr & Hw). apply bind_Ok in Hw as (txs1 & c2 & Hrs & Hw). injection Hw as <- <-.
  unfold waitReady in Hr. go_unfold in Hr. destruct (xs_heap (sc_st c) !! ref) as [t|] eqn:Ht; [|done].
  assert (∃ heap, c1 = set_st c (set_heap (sc_st c) heap) ∧ txOf off (sc_st c) ref tx ∧
    (∀ i t1, heap !! i = Some t1 → ∃ t0, xs_heap (sc_st c) !! i = Some t0 ∧ tr_Req t0 = tr_Req t1) ∧ respOK c1) as (heap & -> & Htx & Hh & Hre1).
  { destruct (tr_Resp t) as [resp|] eqn:Hresp; [|destruct (arrive ref) as [resp|] eqn:Ha; [|done]].
    - injection Hr as <- <-. exists (xs_heap (sc_st c)). split_and!.
      + destruct c as [? ? []]. done.
      + exists t. cbn. split_and!; [done..|by eapply Hre].
      + eauto.
      + done.
    - unfold UpdateResp, onState in Hr. go_unfold in Hr. injection Hr as <- <-. eexists. split_and!.
      + done.
      + exists t. cbn. split_and!; [done..|by apply Harr].
      + intros i t1. cbn. intros Hi. destruct (decide (i = ref)) as [->|].
        * rewrite list_lookup_alter_eq, Ht in Hi. injection Hi as <-. by exists t.
        * rewrite list_lookup_alter_ne in Hi by done. by exists t1.
      + intros i t1 resp1. cbn. intros Hi. destruct (decide (i = ref)) as [->|].
        * rewrite list_lookup_alter_eq, Ht in Hi. injection Hi as <-. intros [= <-]. by apply Harr.
        * rewrite list_lookup_alter_ne in Hi by done. by eapply Hre. }
  apply IH in Hrs as [[heap2 ->] Hl]; [|done]. split; [by exists heap2|]. constructor; [done|].
  eapply Forall2_impl; [done|]. intros i tx'. apply txOf_heap. intros t1 Hi. apply Hh. exact Hi.
Qed.

Lemma PackAndSign_header b k b' : Block_PackAndSignBlock b k = Ok b' →
  Block_ParentHash b' = Block_ParentHash b ∧ Block_Producer b' = Block_Producer b ∧ Block_Timestamp b' = Block_Timestamp b ∧
  sb_QueryTxs b' = sb_QueryTxs b.
Proof.
  unfold Block_PackAndSignBlock. destruct (computeMerkleRoot b) as [r| |]; [|done..]. cbn.
  destruct (ofHSV _) as [i| |]; [|done..]. cbn. by intros [= <-].
Qed.

(** The block a leader produces of what it served. *)
Lemma produceBlock_spec d0 n0 now arrive c b c' : Pooled off d0 n0 (sc_st c) → arrivals arrive →
  produceBlock now arrive c = (Ok (Some b), c') →
  executes d0 n0 (sb_QueryTxs b) (db (sc_st c')) (xs_current (sc_st c')) ∧ settled (sc_st c') ∧
  SqlBlock_Verify b = Ok tt ∧ Block_ParentHash b = hs_Head (headOf c) ∧ Block_Producer b = rt_server (sc_rt c) ∧
  Block_Timestamp b = now ∧ sc_rt c' = sc_rt c ∧ b ∈ sc_pending c'.
Proof.
  intros Hpool Harr Hp. unfold produceBlock in Hp.
  apply bind_Ok in Hp as ([frs qts] & c1 & Hcommit & Hp). unfold wrappingS in Hcommit. go_unfold in Hcommit.
  unfold onState in Hcommit. destruct (CommitEx (sc_st c)) as [[[frs' qts']|e|] s1] eqn:Hce; [|done..].
  injection Hcommit as -> -> <-. destruct (Pooled_CommitEx off d0 n0 _ _ _ _ Hpool Hce) as (Hset & Hre & Hexec).
  case_decide; [done|]. apply bind_Ok in Hp as (h & c2 & Hh & Hp). unfold heightOf in Hh. go_unfold in Hh.
  destruct (getHeightFromTime _ _) as [h'| |]; [|done..]. injection Hh as -> <-.
  apply bind_Ok in Hp as (c2 & c3 & [= <- <-] & Hp). apply bind_Ok in Hp as (acks & c3 & Hacks & Hp).
  assert (∃ ai, c3 = set_ai (set_st c s1) ai) as [ai ->].
  { unfold onAck in Hacks. destruct (AckIndex.acks h _) as [ra ai]. injection Hacks as _ <-. by exists ai. }
  apply bind_Ok in Hp as (txs & c4 & Hwait & Hp). apply waitAll_txs in Hwait as [[heap ->] Htxs]; [|done|exact Hre].
  apply Hexec in Htxs. apply bind_Ok in Hp as (block & c5 & Hsign & Hp). unfold liftR in Hsign. injection Hsign as Hsign <-.
  go_unfold in Hp. injection Hp as -> <-. destruct (PackAndSign_header _ _ _ Hsign) as (Hpa & Hpr & Hts & Hqt).
  split_and!.
  - rewrite Hqt. exact Htxs.
  - exact Hset.
  - by eapply PackAndSign_Verify.
  - by rewrite Hpa.
  - by rewrite Hpr.
  - by rewrite Hts.
  - done.
  - cbn. apply elem_of_app. right. by left.
Qed.

Lemma forEach_acks {A} (f : A → GoM Chain serror unit) l c : rt_period (sc_rt c) ≠ 0 →
  (∀ x c, rt_period (sc_rt c) ≠ 0 → ∃ r ai, f x c = (r, set_ai c ai) ∧ r ≠ Panic) →
  ∃ ai, forEach (λ x, logging (f x)) l c = (Ok tt, set_ai c ai).
Proof.
  intros Hp Hf. revert c Hp. induction l as [|x l IH]; intros c Hp.
  { exists (sc_ai c). by destruct c. }
  destruct (Hf x c Hp) as (r & ai & Hx & Hr). destruct (IH (set_ai c ai) Hp) as [ai' Hai]. exists ai'.
  assert (logging (f x) c = (Ok tt, set_ai c ai)) as Hlog.
  { unfold logging. go_unfold. rewrite Hx. by destruct r. }
  cbn [forEach]. unfold mbind, gom_bind. rewrite Hlog. exact Hai.
Qed.

Lemma AddResponse_ai resp c : rt_period (sc_rt c) ≠ 0 → ∃ r ai, AddResponse resp c = (r, set_ai c ai) ∧ r ≠ Panic.
Proof.
  intros Hp. unfold AddResponse, heightOf, getHeightFromTime. go_unfold. rewrite decide_False by done. unfold onAck.
  destruct (AckIndex.addResponse _ resp (sc_ai c)) as [r ai] eqn:Ha. exists r, ai. split; [done|].
  pose proof (addResponse_no_panic) as Hn. intros ->. eapply Hn. by rewrite Ha.
Qed.
Lemma removeAck_ai ack c : rt_period (sc_rt c) ≠ 0 → ∃ r ai, removeAck ack c = (r, set_ai c ai) ∧ r ≠ Panic.
Proof.
  intros Hp. unfold removeAck, heightOf, getHeightFromTime. go_unfold. rewrite decide_False by done. unfold onAck.
  destruct (AckIndex.remove _ ack (sc_ai c)) as [r ai] eqn:Ha. exists r, ai. split; [done|].
  pose proof (remove_no_panic) as Hn. intros ->. eapply Hn. by rewrite Ha.
Qed.

(** Writes of the databases that succeed. *)
Definition writes : Prop := ∀ k v (d : D), (ldb_Put k v d).1 = None.

Lemma pushBlock_ok b c : writes → rt_period (sc_rt c) ≠ 0 → is_Some (EncodeMsgPack b) →
  (8 <= String.length (Block_Producer b))%nat →
  ∃ c', pushBlock b c = (Ok tt, c') ∧ hs_Head (headOf c') = Block_BlockHash b ∧ sc_st c' = sc_st c.
Proof.
  intros Hw Hp [enc Henc] Hlen. unfold pushBlock, heightOf, encodeMsg. go_unfold.
  assert (∃ h, getHeightFromTime (sc_rt c) (Block_Timestamp b) = Ok h) as [h Hh].
  { unfold getHeightFromTime. rewrite decide_False by done. by eexists. }
  rewrite Hh, Henc. go_unfold. destruct (ldb_Put _ enc (sc_blkDB c)) as [e d] eqn:Hput.
  assert (e = None) as -> by (apply (f_equal fst) in Hput; by rewrite Hw in Hput).
  set (c2 := extend h b (set_blkDB c d)).
  assert (updateMetrics c2 = (Ok tt, c2)) as ->.
  { unfold updateMetrics. go_unfold. unfold c2 at 1, extend, headOf. cbn. unfold loadCell. cbn. by rewrite list_lookup_middle. }
  destruct (forEach_acks (λ v, AddResponse (qt_Response v)) (sb_QueryTxs b) c2 Hp) as [ai1 ->].
  { intros x c0 Hp0. by apply AddResponse_ai. }
  destruct (forEach_acks removeAck (sb_Acks b) (set_ai c2 ai1) Hp) as [ai2 ->].
  { intros x c0 Hp0. by apply removeAck_ai. }
  rewrite decide_False by lia. eexists. split; [done|]. split; [|done]. reflexivity.
Qed.

(** C12: Leader and follower of a database's chain stay in step, on stores whose commits
    and begins and whose LevelDB writes do not fail.  The follower has the content and
    the sequence number the leader had when its last block was made, no open savepoint,
    and the same head; the leader is another server, with an id of eight characters or more, and
    it is its turn by the follower's peers and clock; periods are not zero.  The
    leader answers requests (non-empty reads, and writes of one or several statements,
    that succeed, have no transaction control and stay below 2^64 statements; failed
    ones only where they leave content, sequence number and savepoints as they were,
    see [failed_write_leaks_seq] for the others), responses with the log offsets of
    their requests reach the trackers, and it produces a block, which can be encoded and whose hash is not the head's.
    Then the follower accepts that block: it replays the leader's writes, ends with
    the leader's content and sequence number, and its head is the block; and the
    leader, which takes its own block from the channel, gets the same head. *)
Theorem block_replicates s0 (L F : Chain) now arrive b L' : reliable (C := C) → writes →
  Pooled off (db s0) (xs_current s0) s0 → serves off s0 (sc_st L) → arrivals arrive →
  produceBlock now arrive L = (Ok (Some b), L') →
  settled (sc_st F) → PoolInv (xs_current (sc_st F)) (xs_pool (sc_st F)) →
  db (sc_st F) = db s0 → xs_current (sc_st F) = xs_current s0 →
  hs_Head (headOf F) = hs_Head (headOf L) → Block_BlockHash b ≠ hs_Head (headOf L) →
  Peers_Find (rt_peers (sc_rt F)) (rt_server (sc_rt L)) = Some (nextProducer F) →
  rt_server (sc_rt L) ≠ rt_server (sc_rt F) → (8 <= String.length (rt_server (sc_rt L)))%nat →
  rt_period (sc_rt F) ≠ 0 → rt_period (sc_rt L) ≠ 0 → is_Some (EncodeMsgPack b) →
  ∃ F' L'', CheckAndPushNewBlock b F = (Ok tt, F') ∧ CheckAndPushNewBlock b L' = (Ok tt, L'') ∧
    hs_Head (headOf F') = Block_BlockHash b ∧ hs_Head (headOf L'') = Block_BlockHash b ∧
    db (sc_st F') = db (sc_st L'') ∧ xs_current (sc_st F') = xs_current (sc_st L'').
Proof.
  intros Hrel Hw Hp0 Hserve Harr Hprod HFset HFpool HFdb HFcur Hhead Hnew Hfind Hne Hlen HpF HpL Henc.
  pose proof (serves_Pooled off _ _ _ _ Hserve Hp0) as HL.
  destruct (produceBlock_spec _ _ _ _ _ _ _ HL Harr Hprod) as (Hex & _ & Hv & Hpa & Hpr & _ & Hrt & _).
  destruct (ReplayBlock_executes (db s0) (xs_current s0) [] (db s0) (xs_current s0) (sb_QueryTxs b) _ _ b (sc_st F)
    Hrel ltac:(constructor) Hex eq_refl HFset (pd_start _ _ _ _ HL) HFpool HFdb HFcur) as (st' & Hreplay & Hdb & Hcur & _).
  destruct (pushBlock_ok b (set_st F st') Hw HpF Henc) as (F' & HF' & HheadF & HstF); [by rewrite Hpr|].
  destruct (pushBlock_ok b L' Hw) as (L'' & HL'' & HheadL & HstL); [by rewrite Hrt|done|by rewrite Hpr|].
  exists F', L''. split_and!; [| |done|done|by rewrite HstF, HstL|by rewrite HstF, HstL].
  - unfold CheckAndPushNewBlock, heightOf, getHeightFromTime. go_unfold. rewrite decide_False by done.
    rewrite decide_False by (intros [_ Heq]; congruence). rewrite decide_False by (intros Hc; apply Hc; congruence). go_unfold.
    rewrite Hv, decide_False by congruence. rewrite Hpr, Hfind, decide_False by (intros Hc; by apply Hc).
    go_unfold. unfold onState. rewrite Hreplay. exact HF'.
  - unfold CheckAndPushNewBlock, heightOf, getHeightFromTime. go_unfold. rewrite Hrt, decide_False by done.
    assert (headOf L' = headOf L) as HhL by (unfold headOf; by rewrite Hrt). rewrite HhL.
    rewrite decide_False by (intros [_ Heq]; congruence). rewrite decide_False by (intros Hc; apply Hc; congruence). go_unfold.
    rewrite Hv, decide_True by congruence. exact HL''.
Qed.
End replicate.
