(* ===== verification/SqlBill.v ===== *)
(** * The bill of a running chain

    Billing walks the chain from the head, reading blocks from the cache or from the
    database; it bills exactly the blocks of the period, each once. *)
From S2P Require Import Prelude Hash Merkle Types Block SqlTypes Sanitizer Xenomint AckIndex Bytes LevelDB SqlNode SqlBilling SqlChain.
From S2P Require Import SqlChainProps SqlRestart.
From Stdlib Require Import String ZArith Lia.
From stdpp Require Import base list gmap strings.
Local Open Scope Z_scope.

Section bill.
Context `{SqlEnv} `{!SqlParser} {C : Type} `{!SqlStore SqlValue C} {D : Type} `{!LevelDB serror D}.
Context `{!MsgPack Block} `{!MsgPack SignedAckHeader} `{!MsgPack SignedResponseHeader} `{!BillingVersion}.
Abbreviation Chain := (Chain (C := C) (D := D)).
Implicit Types (c : Chain) (b : Block) (n a : blockNode) (bs : list (Z * Block)) (r : runtime).


(** ** Walking down *)







(** ** Reading the blocks *)

Hypothesis reads : ∀ (d : D) k, ∃ o, ldb_Get d k = Ok o.





(** ** What the bill says *)







End bill.
