(* ===== verification/WireSample.v ===== *)
(** * A wire code for blocks

    A prefix code of lists of numbers for the data of a SQL chain, as a concrete
    instance of [MsgPack] for the runs of [SqlSample]. *)
From S2P Require Import Prelude Hash Types Block SqlTypes Sanitizer Xenomint.
From S2P Require Import MetaState MetaView MetaTx Ledger LedgerRefine Sample.
From S2P Require Import Storage StorageProps Branch BranchProps ChainSample XenoProps XenoPool XenoSample.
From Stdlib Require Import String Ascii ZArith Lia.
From stdpp Require Import base list gmap strings.
Local Open Scope Z_scope.

(** ** Prefix codes *)

Class Code (A : Type) := {
  put : A → list Z;
  take_code : list Z → option (A * list Z);
  take_put a l : take_code (put a ++ l) = Some (a, l);
}.

#[export, refine] Instance Z_code : Code Z := {|
  put := λ z, [z];
  take_code := λ l, match l with [] => None | z :: l => Some (z, l) end;
|}.
Proof. done. Defined.

#[export, refine] Instance pair_code {A B} `{!Code A, !Code B} : Code (A * B) := {|
  put := λ p, put p.1 ++ put p.2;
  take_code := λ l, '(a, l) ← take_code l; '(b, l) ← take_code l; Some ((a, b), l);
|}.
Proof. intros [a b] l. cbn. rewrite <- app_assoc, take_put. cbn. by rewrite take_put. Defined.

(** A list is its length and its elements. *)
Fixpoint takeN {A} `{!Code A} (n : nat) (l : list Z) : option (list A * list Z) :=
  match n with
  | O => Some ([], l)
  | S n => '(a, l) ← take_code l; '(x, l) ← takeN n l; Some (a :: x, l)
  end.
Lemma takeN_put {A} `{!Code A} (x : list A) l : takeN (length x) (mjoin (put <$> x) ++ l) = Some (x, l).
Proof.
  induction x as [|a x IH]; [done|]. change (mjoin (put <$> a :: x)) with (put a ++ mjoin (put <$> x)).
  cbn [length takeN]. rewrite <- app_assoc, take_put. cbn. by rewrite IH.
Qed.
#[export, refine] Instance list_code {A} `{!Code A} : Code (list A) := {|
  put := λ x, Z.of_nat (length x) :: mjoin (put <$> x);
  take_code := λ l, match l with [] => None | n :: l => takeN (Z.to_nat n) l end;
|}.
Proof. intros x l. cbn -[mjoin]. rewrite Nat2Z.id. apply takeN_put. Defined.

(** A type with the code of another one. *)
Definition takeVia {A B} `{!Code B} (g : B → A) (l : list Z) : option (A * list Z) :=
  match take_code l with Some (b, l) => Some (g b, l) | None => None end.
Lemma takeVia_put {A B} `{!Code B} (f : A → B) (g : B → A) a l : (∀ a, g (f a) = a) →
  takeVia g (put (f a) ++ l) = Some (a, l).
Proof. intros Hgf. unfold takeVia. by rewrite take_put, Hgf. Qed.
Definition via {A B} `{!Code B} (f : A → B) (g : B → A) (Hgf : ∀ a, g (f a) = a) : Code A := {|
  put := λ a, put (f a);
  take_code := takeVia g;
  take_put := λ a l, takeVia_put f g a l Hgf;
|}.

#[export, refine] Instance option_code {A} `{!Code A} : Code (option A) :=
  via (λ o, match o with Some a => [a] | None => [] end) (λ l, match l with [] => None | a :: _ => Some a end) _.
Proof. by intros []. Defined.
#[export, refine] Instance string_code : Code string :=
  via (λ s, (λ c, Z.of_nat (nat_of_ascii c)) <$> list_ascii_of_string s)
    (λ l, string_of_list_ascii ((λ z, ascii_of_nat (Z.to_nat z)) <$> l)) _.
Proof.
  intros s. rewrite <- (string_of_list_ascii_of_string s) at 2. f_equal. rewrite <- list_fmap_compose.
  induction (list_ascii_of_string s) as [|c l IH]; [done|]. cbn -[ascii_of_nat nat_of_ascii].
  by rewrite Nat2Z.id, ascii_nat_embedding, IH.
Defined.

(** ** Blocks *)

#[export] Instance key_code : Code PublicKey := Z_code.
#[export] Instance value_code : Code SqlValue := Z_code.
#[export] Instance sig_code : Code Signature := list_code (A := Z).
#[export, refine] Instance HSV_code : Code HSV :=
  via (λ h, (hsv_DataHash h, hsv_Signee h, hsv_Signature h)) (λ '(d, s, g), MkHSV d s g) _.
Proof. by intros []. Defined.
#[export, refine] Instance RequestHeader_code : Code RequestHeader :=
  via (λ h, (rh_QueryType h, rh_NodeID h, rh_DatabaseID h, rh_ConnectionID h, rh_SeqNo h, rh_Timestamp h,
             rh_BatchCount h, rh_QueriesHash h)) (λ '(a, b, c, d, e, f, g, h), MkRequestHeader a b c d e f g h) _.
Proof. by intros []. Defined.
#[export, refine] Instance ResponseHeader_code : Code ResponseHeader :=
  via (λ h, (rs_Request h, rs_RequestHash h, rs_NodeID h, rs_Timestamp h, rs_RowCount h, rs_LogOffset h,
             rs_LastInsertID h, rs_AffectedRows h, rs_PayloadHash h, rs_ResponseAccount h))
    (λ '(a, b, c, d, e, f, g, h, i, j), MkResponseHeader a b c d e f g h i j) _.
Proof. by intros []. Defined.
#[export, refine] Instance SignedResponseHeader_code : Code SignedResponseHeader :=
  via (λ h, (sr_Header h, sr_ResponseHash h)) (λ '(a, b), MkSignedResponseHeader a b) _.
Proof. by intros []. Defined.
#[export, refine] Instance AckHeader_code : Code AckHeader :=
  via (λ h, (ak_Response h, ak_ResponseHash h, ak_NodeID h, ak_Timestamp h)) (λ '(a, b, c, d), MkAckHeader a b c d) _.
Proof. by intros []. Defined.
#[export, refine] Instance SignedAckHeader_code : Code SignedAckHeader :=
  via (λ h, (sa_Header h, sa_HSV h)) (λ '(a, b), MkSignedAckHeader a b) _.
Proof. by intros []. Defined.
#[export, refine] Instance Query_code : Code Query := via (λ q, (qu_Pattern q, qu_Args q)) (λ '(a, b), MkQuery a b) _.
Proof. by intros []. Defined.
#[export, refine] Instance Request_code : Code Request :=
  via (λ r, (rq_Header r, rq_HSV r, rq_Queries r)) (λ '(a, b, c), MkRequest a b c) _.
Proof. by intros []. Defined.
#[export, refine] Instance QueryAsTx_code : Code QueryAsTx :=
  via (λ t, (qt_Request t, qt_Response t)) (λ '(a, b), MkQueryAsTx a b) _.
Proof. by intros []. Defined.
#[export, refine] Instance Header_code : Code Header :=
  via (λ h, (hd_Version h, hd_Producer h, hd_GenesisHash h, hd_ParentHash h, hd_MerkleRoot h, hd_Timestamp h))
    (λ '(a, b, c, d, e, f), MkHeader a b c d e f) _.
Proof. by intros []. Defined.
#[export, refine] Instance SignedHeader_code : Code SignedHeader :=
  via (λ h, (sh_Header h, sh_HSV h)) (λ '(a, b), MkSignedHeader a b) _.
Proof. by intros []. Defined.
#[export, refine] Instance Block_code : Code Block :=
  via (λ b, (sb_SignedHeader b, sb_FailedReqs b, sb_QueryTxs b, sb_Acks b)) (λ '(a, b, c, d), MkBlock a b c d) _.
Proof. by intros []. Defined.

(** ** The instances *)

Lemma Code_decode {A} `{!Code A} (a : A) enc : Some (put a) = Some enc → (fst <$> take_code enc) = Some a.
Proof. intros [= <-]. rewrite <- (app_nil_r (put a)), take_put. done. Qed.
Definition coded (A : Type) `{!Code A} : MsgPack A := {|
  EncodeMsgPack := λ a, Some (put a);
  DecodeMsgPack := λ enc, fst <$> take_code enc;
  Decode_Encode := Code_decode;
|}.
#[export] Instance sampleBlockCode : MsgPack Block := coded Block.
#[export] Instance sampleAckCode : MsgPack SignedAckHeader := coded SignedAckHeader.
#[export] Instance sampleResponseCode : MsgPack SignedResponseHeader := coded SignedResponseHeader.
