(* ===== verification/SqlSample.v ===== *)
(** * A leader and a follower of a database's chain

    A genesis block, two chains that start from it on finite-map databases, a block
    of the leader, and runs of the theorems about SQL chains on them; also the runs
    that show where a chain does not do what it should. *)
From S2P Require Import Prelude Hash Merkle Types Block SqlTypes Sanitizer Xenomint XenoProps XenoPool.
From S2P Require Import MetaState MetaView MetaTx Ledger LedgerRefine Sample.
From S2P Require Import Storage StorageProps Branch BranchProps ChainSample XenoSample.
From S2P Require Import AckIndex Bytes LevelDB SqlNode SqlBilling SqlChain SqlChainProps SqlRestart SqlReplicate SqlBill.
From S2P Require Import WireSample.
From Stdlib Require Import String ZArith Lia.
From stdpp Require Import base list gmap strings.
Local Open Scope Z_scope.

#[export] Instance sampleBillingVersion : BillingVersion := {| UpdateBilling_HSPDefaultVersion := 1 |}.

(** ** The chains *)

(** The genesis block is made at time 1, and a period has 10 units. *)
Definition genesisBlock : Block :=
  let b := MkBlock (MkSignedHeader (MkHeader 1 (Hash_String zeroHash) zeroHash zeroHash zeroHash 1) (MkHSV zeroHash None None)) [] [] [] in
  match Block_PackAsGenesis b with Ok b => b | _ => b end.
Definition sampleConfig (server : NodeID) : Config :=
  MkConfig dbName (Some genesisBlock) 10 5 ["follower"; "the leader"]%string server 10 5 0 1 2 0 true.
Abbreviation sampleDB := (gmap (list Z) (list Z)).
Abbreviation sampleChain := (Chain (C := conn) (D := sampleDB)).
Definition emptyConn : conn := MkConn [] [] [] false.
Definition noChain : sampleChain := emptyChain (sampleConfig "nobody") ∅ ∅ XenoSample.fresh sampleKey zeroHash [].
Definition startChain (server : NodeID) : sampleChain :=
  default noChain (NewChain (sampleConfig server) ∅ ∅ emptyConn sampleKey).2.

(** Both have got to the turn of the leader, which has served three requests. *)
Definition noNews (_ _ : nat) (_ : NodeID) : fetchAnswer := FetchNone 1.
Definition atTurn (server : NodeID) : sampleChain := runEvents [EvSync [18] noNews] (startChain server).
Definition leader : sampleChain :=
  runEvents [EvQuery 18 w1 true; EvQuery 18 w2 true; EvQuery 18 r3 true] (atTurn "the leader").

(** ** A block of the leader *)

(** The offsets of the trackers, and the responses that arrive. *)
Definition sampleOff (ref : nat) : Z := match ref with 0%nat => 0 | 1%nat => 2 | _ => 3 end.
Definition arriving (ref : nat) : option Response :=
  match [w1; w2; r3] !! ref with
  | Some req => Some (MkResponse (qt_Response (sampleTx req (sampleOff ref))) (MkResponsePayload [] [] []))
  | None => None
  end.
Lemma arriving_offsets : arrivals sampleOff arriving.
Proof. intros ref resp. unfold arriving. destruct ([w1; w2; r3] !! ref); [|done]. by intros [= <-]. Qed.

Definition blockOf (c : sampleChain) (now : Z) : Block :=
  match (produceBlock now arriving c).1 with Ok (Some b) => b | _ => genesisBlock end.
Definition block1 : Block := blockOf leader 18.

(** The leader answers a request at the offset of its tracker. *)
Definition answersAt (now : Z) (req : Request) (s : State (C := conn)) : bool :=
  match QueryWithContext now req true s with
  | (Ok (ref, resp), _) => bool_decide (rs_LogOffset (sr_Header (re_Header resp)) = sampleOff ref)
  | _ => false
  end.
Lemma serves_one now req s s1 : plainRequest req → rq_Queries req ≠ [] →
  bool_decide (xs_current s1 + Z.of_nat (length (rq_Queries req)) < two64) = true → answersAt now req s1 = true →
  serves sampleOff s s1 → serves sampleOff s (QueryWithContext now req true s1).2.
Proof.
  intros Hp Hne Hroom%bool_decide_eq_true Ha Hs. unfold answersAt in Ha.
  destruct (QueryWithContext now req true s1) as [[[ref resp]|e|] s2] eqn:Hq; [|discriminate Ha..].
  apply bool_decide_eq_true in Ha. by eapply serves_query.
Qed.
Lemma query_state (now : Z) (req : Request) (l : bool) (c : sampleChain) :
  sc_st (handle (EvQuery now req l) c).2 = (QueryWithContext now req l (sc_st c)).2.
Proof.
  cbn [handle]. unfold ignoreS, Chain_query, onState. go_unfold. by destruct (QueryWithContext _ _ _ _) as [[]].
Qed.
Lemma leader_serves : serves sampleOff (sc_st (atTurn "the leader")) (sc_st leader).
Proof.
  unfold leader. cbn [runEvents]. rewrite !query_state.
  do 3 (apply serves_one; [by apply sample_plain|discriminate|vm_compute; reflexivity..|]). apply serves_refl.
Qed.

(** A chain that has served nothing. *)
Definition idle (s : State (C := conn)) : bool :=
  bool_decide (length (cn_saves (xs_conn s)) = 0%nat) && xs_readUncommitted s && bool_decide (xs_current s = 0) &&
  bool_decide (po_queries (xs_pool s) = []) && bool_decide (length (xs_heap s) = 0%nat) &&
  bool_decide (size (po_reads (xs_pool s)) = 0%nat) && bool_decide (size (po_index (xs_pool s)) = 0%nat).
Lemma idle_spec s : idle s = true →
  settled s ∧ PoolInv (xs_current s) (xs_pool s) ∧ xs_current s = 0 ∧ Pooled sampleOff (db s) (xs_current s) s.
Proof.
  unfold idle. rewrite !andb_true_iff, !bool_decide_eq_true. intros ((((((Hsv & Hru) & Hcur) & Hq) & Hh) & Hr) & Hi).
  apply length_zero_iff_nil in Hsv, Hh. apply map_size_empty_iff in Hr, Hi.
  assert (settled s) as Hset by (split; [exact Hsv|rewrite Hru; discriminate]).
  split_and!; [exact Hset| |exact Hcur|split; [exact Hset|rewrite Hcur; discriminate|..]].
  - split; intros *; rewrite Hi, lookup_empty; discriminate.
  - rewrite Hq. intros ref []%not_elem_of_nil.
  - rewrite Hq. intros txs ->%Forall2_nil_inv_l. constructor.
  - reflexivity.
  - rewrite Hh. discriminate.
  - rewrite Hr. intros h ref. rewrite lookup_empty. discriminate.
Qed.
Lemma atTurn_leader : idle (sc_st (atTurn "the leader")) = true.
Proof. vm_compute. reflexivity. Qed.
Lemma atTurn_follower : idle (sc_st (atTurn "follower")) = true.
Proof. vm_compute. reflexivity. Qed.

Definition produced (c : sampleChain) (now : Z) : bool :=
  match (produceBlock now arriving c).1 with Ok (Some _) => true | _ => false end.
Lemma blockOf_produced c now : produced c now = true →
  produceBlock now arriving c = (Ok (Some (blockOf c now)), (produceBlock now arriving c).2).
Proof. unfold produced, blockOf. by destruct (produceBlock now arriving c) as [[[b|]| |] c']. Qed.
Lemma sample_reliable : reliable (C := conn).
Proof. done. Qed.
Lemma sample_writes : writes (D := sampleDB).
Proof. done. Qed.

(** The follower accepts the leader's block and has its content. *)
Lemma block_replicates_witness : ∃ F' L'',
  CheckAndPushNewBlock block1 (atTurn "follower") = (Ok tt, F') ∧
  CheckAndPushNewBlock block1 (produceBlock 18 arriving leader).2 = (Ok tt, L'') ∧
  hs_Head (headOf F') = addr 18 ∧ db (sc_st F') = db (sc_st L'') ∧ xs_current (sc_st F') = xs_current (sc_st L'').
Proof.
  destruct (block_replicates sampleOff (sc_st (atTurn "the leader")) leader (atTurn "follower") 18 arriving block1
    (produceBlock 18 arriving leader).2) as (F' & L'' & HF & HL & Hhead & _ & Hdb & Hcur).
  - apply sample_reliable.
  - apply sample_writes.
  - apply idle_spec, atTurn_leader.
  - apply leader_serves.
  - apply arriving_offsets.
  - apply blockOf_produced. vm_compute. reflexivity.
  - apply idle_spec, atTurn_follower.
  - apply idle_spec, atTurn_follower.
  - vm_compute. reflexivity.
  - vm_compute. reflexivity.
  - vm_compute. reflexivity.
  - vm_compute. discriminate.
  - vm_compute. reflexivity.
  - vm_compute. discriminate.
  - vm_compute. lia.
  - vm_compute. discriminate.
  - vm_compute. discriminate.
  - eexists. reflexivity.
  - exists F', L''. split_and!; [exact HF|exact HL| |exact Hdb|exact Hcur].
    rewrite Hhead. vm_compute. reflexivity.
Defined.

(** ** Restart *)

Lemma sample_prefix : AccountAddress_of dbName = Ok dbHash.
Proof. vm_compute. reflexivity. Qed.
Lemma fresh_empty pre : freshPrefix (∅ : sampleDB) pre.
Proof. intros k v. by rewrite lookup_empty. Qed.
Lemma startChain_ok server : is_Ok (NewChain (sampleConfig server) (∅ : sampleDB) ∅ emptyConn sampleKey).1 = true →
  NewChain (sampleConfig server) ∅ ∅ emptyConn sampleKey = (Ok tt, Some (startChain server)).
Proof.
  unfold startChain, NewChain. destruct (PubKeyHash _); [|done..]. destruct (AccountAddress_of _); [|done..].
  destruct (NewState _ _ _) as [[]]; [|done..]. by destruct (loadChain _ _) as [[[]| |] c].
Qed.
Definition followed : list event := [EvSync [18] noNews; EvAdvise block1; EvBlock block1; EvSync [39] noNews].

(** The follower is started again after it has taken the leader's block. *)
Lemma restart_roundtrip_witness :
  let c := runEvents followed (startChain "follower") in
  ∃ c', NewChain (sampleConfig "follower") (sc_blkDB c) (sc_txDB c) emptyConn 2 = (Ok tt, Some c') ∧
    hs_Head (headOf c') = addr 18 ∧ hs_Height (headOf c') = 1.
Proof.
  intros c. destruct (restart_roundtrip (sample_reads (E := serror)) (sampleConfig "follower") (∅ : sampleDB) ∅ emptyConn sampleKey genesisBlock dbHash
    (startChain "follower") followed (sampleConfig "follower") (sc_blkDB c) (sc_txDB c) emptyConn 2)
    as (c' & n & n' & bs & Hnew & _ & _ & _ & Hhead & _).
  - apply sample_prefix.
  - discriminate.
  - reflexivity.
  - apply fresh_empty.
  - apply fresh_empty.
  - apply startChain_ok. vm_compute. reflexivity.
  - unfold followed. cbn [periodic]. split; [exact I|split; [exact I|split; [|by split]]].
    intros h Hh _. vm_compute in Hh. injection Hh as <-. vm_compute. reflexivity.
  - reflexivity.
  - reflexivity.
  - reflexivity.
  - reflexivity.
  - reflexivity.
  - exists c'. split; [exact Hnew|]. rewrite Hhead. split; vm_compute; reflexivity.
Defined.

(** ** Billing *)

Definition billed : sampleChain := runEvents followed (startChain "follower").





(** ** Where a chain fails *)

(** A second block of the leader in the same period, with an earlier time.  The
    follower accepts it, and cannot be started again: its key is before that of its
    parent. *)
Definition block2 : Block :=
  let b := MkBlock (MkSignedHeader (MkHeader 1 "the leader" (addr 1) (addr 18) zeroHash 12) (MkHSV zeroHash None None)) [] [] [] in
  match Block_PackAndSignBlock b sampleKey with Ok b => b | _ => b end.
Definition twoBlocks : sampleChain := runEvents [EvSync [18] noNews; EvBlock block1; EvBlock block2] (startChain "follower").
Lemma same_period_restart_fails :
  hs_Head (headOf twoBlocks) = addr 12 ∧ hs_Height (headOf twoBlocks) = 1 ∧
  (NewChain (sampleConfig "follower") (sc_blkDB twoBlocks) (sc_txDB twoBlocks) emptyConn sampleKey).1 = Err ErrParentNotFound.
Proof. repeat apply conj; vm_compute; reflexivity. Qed.

(** A server that is removed from the peers divides by zero at the next height. *)
Lemma removed_peer_panics : (onHeight 2 0 None (runEvents [EvPeers ["the leader"%string]] (startChain "follower"))).1 = Panic.
Proof. vm_compute. reflexivity. Qed.

(** When a block cannot be read, or a request is not signed, the bill is nil and is
    used all the same. *)
Definition unsignedBlock : Block := sampleSqlBlock [MkQueryAsTx (MkRequest (rq_Header w2) (MkHSV (addr 2) None None) (rq_Queries w2))
  (qt_Response (sampleTx w2 0))].
Lemma failed_billing_panics :
  let node := BlockNode (hs_node (headOf billed)) (addr 20) 2 2 (length (sc_cells billed)) in
  let c := set_rt (set_cells billed (sc_cells billed ++ [Some unsignedBlock]) 3)
    (setHead (MkHeadState (Some node) (addr 20) 2) (sc_rt billed)) in
  (∃ e, billing c 2 (Some node) = Err e) ∧ (onHeight 2 0 None (runEvents [EvPeers ["the leader"; "follower"]%string] c)).1 = Panic.
Proof. split; [eexists|]; vm_compute; reflexivity. Qed.

(** A genesis block without producer passes its checks, and ends the process when
    the block is logged. *)
Definition namelessGenesis : Block :=
  let b := MkBlock (MkSignedHeader (MkHeader 1 "" zeroHash zeroHash zeroHash 1) (MkHSV zeroHash None None)) [] [] [] in
  match Block_PackAsGenesis b with Ok b => b | _ => b end.
Lemma nameless_genesis_panics :
  Block_VerifyAsGenesis namelessGenesis = Ok tt ∧ (genesis (Some namelessGenesis) (startChain "follower")).1 = Panic.
Proof. split; vm_compute; reflexivity. Qed.

(** A failed request of a user whose other queries were answered by another miner
    replaces the incomes of that miner: the user pays 4 and the miners get 2. *)
Definition failingBlock : Block :=
  MkBlock (MkSignedHeader (MkHeader 1 "the leader" (addr 1) (addr 1) zeroHash 18) (MkHSV (addr 18) (Some 5) None))
    [bad] [sampleTx w1 0] [].
Lemma failed_request_loses_income :
  match billBlock failingBlock (MkBillMaps ∅ ∅) with
  | Ok m => (λ uc, (uc_Cost uc, inc_Income <$> uc_Miners uc)) <$> billUsers m
  | _ => []
  end = [(4, [2])].
Proof. vm_compute. reflexivity. Qed.

(** An acknowledgement of another response is refused, and kept. *)
Definition sampleAck (req : Request) (hash : Hash) : SignedAckHeader :=
  MkSignedAckHeader (MkAckHeader (sr_Header (qt_Response (sampleTx req 0))) hash "client" 0) (MkHSV (addr 30) None None).
Definition acked (ops : list ackOp) : ackIndex := (runAckOps ops newAckIndex).2.
Lemma mismatched_ack_kept :
  let ai := acked [OpAddResponse 1 (qt_Response (sampleTx w1 0))] in
  (register 1 (sampleAck w1 (addr 99)) ai).1 = Err (SWrap ErrResponseSeqNotMatch) ∧
  (acks 1 (register 1 (sampleAck w1 (addr 99)) ai).2).1 = Ok [sampleAck w1 (addr 99)].
Proof. split; vm_compute; reflexivity. Qed.

(** A response that comes again after its acknowledgement makes the counter count
    the acknowledgement twice. *)
Lemma ack_counted_twice :
  let ops := [OpAddResponse 1 (qt_Response (sampleTx w1 0)); OpRegister 1 (sampleAck w1 zeroHash)] in
  let ai := acked (ops ++ ops) in ai_ackCount ai = 2 ∧ sumBy ackSize (ai_hi ai) = 1.
Proof. split; vm_compute; reflexivity. Qed.
