(* ===== verification/Pow.v ===== *)
(** * Proof of work

    Models [src/pow/cpuminer]: the 256-bit nonce of [uint256.go] and the search of
    [miner.go], with the callers of [src/crypto/asymmetric/keypair.go] and
    [src/proto/nodeinfo.go] that make node ids.  The channels that stop a search
    are polled once per nonce; what the polls see is a parameter. *)
From S2P Require Import Prelude Hash Types Bytes.
From Stdlib Require Import ZArith Lia.
From stdpp Require Import base list.
Local Open Scope Z_scope.

(** ** Uint256 *)

Record Uint256 := MkUint256 { u_A : Z; u_B : Z; u_C : Z; u_D : Z }.
#[export] Instance Uint256_eq_dec : EqDecision Uint256.
Proof. solve_decision. Defined.
Implicit Types (i : Uint256).

Definition zeroUint256 : Uint256 := MkUint256 0 0 0 0.

(** [i.A++; i.A == 0] and so on, on a value; the source updates [i] in place. *)
Definition Inc i : Uint256 :=
  let '(MkUint256 a b c d) := i in
  let a := u64 (a + 1) in
  if decide (a = 0) then
    let b := u64 (b + 1) in
    if decide (b = 0) then
      let c := u64 (c + 1) in
      if decide (c = 0) then MkUint256 a b c (u64 (d + 1)) else MkUint256 a b c d
    else MkUint256 a b c d
  else MkUint256 a b c d.

(** The fields in order, each big-endian. *)
Definition Uint256_Bytes i : list Z := putBE 8 (u_A i) ++ putBE 8 (u_B i) ++ putBE 8 (u_C i) ++ putBE 8 (u_D i).
Definition Uint256FromBytes (b : list Z) : option Uint256 :=
  if decide (length b = 32%nat) then
    Some (MkUint256 (getBE (take 8 b)) (getBE (take 8 (drop 8 b))) (getBE (take 8 (drop 16 b))) (getBE (drop 24 b)))
  else None.

(** What the four words denote. *)
Definition wf_Uint256 i : Prop := is_u64 (u_A i) ∧ is_u64 (u_B i) ∧ is_u64 (u_C i) ∧ is_u64 (u_D i).
Definition value i : Z := u_A i + 2 ^ 64 * u_B i + 2 ^ 128 * u_C i + 2 ^ 192 * u_D i.

Lemma wf_zero : wf_Uint256 zeroUint256.
Proof. repeat split; done. Qed.
Lemma u64_succ z : is_u64 z → (u64 (z + 1) = 0 ∧ z = two64 - 1) ∨ (u64 (z + 1) ≠ 0 ∧ u64 (z + 1) = z + 1).
Proof.
  unfold is_u64, u64. intros Hz. destruct (decide (z = two64 - 1)) as [->|Hne].
  - left. split; [|done]. replace (two64 - 1 + 1) with (1 * two64) by lia. by apply Z.mod_mul.
  - right. rewrite Z.mod_small by lia. lia.
Qed.

Lemma Inc_value i : wf_Uint256 i → wf_Uint256 (Inc i) ∧ value (Inc i) = (value i + 1) mod 2 ^ 256.
Proof.
  destruct i as [a b c d]. intros (Ha & Hb & Hc & Hd). cbn in Ha, Hb, Hc, Hd. unfold Inc.
  change (2 ^ 256) with (2 ^ 64 * (2 ^ 64 * (2 ^ 64 * 2 ^ 64))). change two64 with (2 ^ 64) in *.
  assert (∀ x y z w, value (MkUint256 x y z w) = x + 2 ^ 64 * (y + 2 ^ 64 * (z + 2 ^ 64 * w))) as Hval.
  { intros. unfold value. cbn [u_A u_B u_C u_D]. change (2 ^ 128) with (2 ^ 64 * 2 ^ 64).
    change (2 ^ 192) with (2 ^ 64 * (2 ^ 64 * 2 ^ 64)). ring. }
  pose proof (u64_range (a + 1)) as Ra. pose proof (u64_range (b + 1)) as Rb.
  pose proof (u64_range (c + 1)) as Rc. pose proof (u64_range (d + 1)) as Rd.
  split; [repeat case_decide; (split_and!; cbn; assumption)|].
  unfold is_u64 in *. change two64 with (2 ^ 64) in *.
  destruct (u64_succ a Ha) as [[Za Ea]|[Na Ea]]; [rewrite decide_True by done|rewrite decide_False by done].
  2:{ rewrite !Hval, Ea, Z.mod_small; lia. }
  destruct (u64_succ b Hb) as [[Zb Eb]|[Nb Eb]]; [rewrite decide_True by done|rewrite decide_False by done].
  2:{ rewrite !Hval, Za, Eb, Ea, Z.mod_small; change two64 with (2 ^ 64) in *; lia. }
  destruct (u64_succ c Hc) as [[Zc Ec]|[Nc Ec]]; [rewrite decide_True by done|rewrite decide_False by done].
  2:{ rewrite !Hval, Za, Zb, Ec, Ea, Eb, Z.mod_small; change two64 with (2 ^ 64) in *; lia. }
  rewrite !Hval, Za, Zb, Zc, Ea, Eb, Ec. change two64 with (2 ^ 64).
  destruct (u64_succ d Hd) as [[Zd Ed]|[Nd Ed]].
  - rewrite Zd, Ed. change two64 with (2 ^ 64). reflexivity.
  - rewrite Ed, Z.mod_small; lia.
Qed.

(** The [k]-th nonce of a search. *)
Definition nonceAt (start : Uint256) (k : nat) : Uint256 := Nat.iter k Inc start.

Lemma nonceAt_value start k : wf_Uint256 start →
  wf_Uint256 (nonceAt start k) ∧ value (nonceAt start k) = (value start + Z.of_nat k) mod 2 ^ 256.
Proof.
  intros Hs. induction k as [|k [Hw Hv]].
  - split; [done|]. change (nonceAt start 0) with start. rewrite Z.add_0_r, Z.mod_small; [done|].
    destruct start as [a b c d]. destruct Hs as (Ha & Hb & Hc & Hd). unfold is_u64, value in *. cbn in *. change two64 with (2 ^ 64) in *. lia.
  - destruct (Inc_value _ Hw) as [Hw' Hv']. split; [exact Hw'|]. change (nonceAt start (S k)) with (Inc (nonceAt start k)).
    rewrite Hv', Hv, Z.add_mod_idemp_l by done. f_equal. lia.
Qed.
Lemma nonceAt_S start k : nonceAt start (S k) = nonceAt (Inc start) k.
Proof. unfold nonceAt. rewrite Nat.iter_succ_r. done. Qed.

Lemma value_inj i j : wf_Uint256 i → wf_Uint256 j → value i = value j → i = j.
Proof.
  destruct i as [a b c d], j as [a' b' c' d']. intros (Ha & Hb & Hc & Hd) (Ha' & Hb' & Hc' & Hd').
  unfold is_u64, value in *. cbn in *. change two64 with (2 ^ 64) in *. intros Hv. f_equal; lia.
Qed.

Lemma getBE_putBE_u64 z : is_u64 z → getBE (putBE 8 z) = z.
Proof. intros Hz. rewrite getBE_putBE. change (256 ^ Z.of_nat 8) with two64. by apply Z.mod_small. Qed.
Lemma Uint256FromBytes_Bytes i : wf_Uint256 i → Uint256FromBytes (Uint256_Bytes i) = Some i.
Proof.
  destruct i as [a b c d]. intros (Ha & Hb & Hc & Hd). unfold Uint256FromBytes, Uint256_Bytes. cbn [u_A u_B u_C u_D] in *.
  rewrite decide_True by (rewrite !length_app, !length_putBE; done).
  assert (∀ z l, drop 8 (putBE 8 z ++ l) = l) as Hd8 by (intros; apply drop_app_length'; by rewrite length_putBE).
  assert (∀ z l, take 8 (putBE 8 z ++ l) = putBE 8 z) as Ht8 by (intros; apply take_app_length'; by rewrite length_putBE).
  replace (drop 24 (putBE 8 a ++ _)) with (drop 8 (drop 8 (drop 8 (putBE 8 a ++ putBE 8 b ++ putBE 8 c ++ putBE 8 d))))
    by (by rewrite !drop_drop).
  replace (drop 16 (putBE 8 a ++ _)) with (drop 8 (drop 8 (putBE 8 a ++ putBE 8 b ++ putBE 8 c ++ putBE 8 d)))
    by (by rewrite !drop_drop).
  rewrite !Hd8, !Ht8. by rewrite !getBE_putBE_u64.
Qed.

(** C40: The nonces of a search run through the 256-bit integers: the words of a nonce
    stay in range, the [k]-th nonce is the first one plus [k] modulo [2^256], so that
    no nonce comes twice within [2^256] tries, and a nonce is read back from its
    bytes. *)
Theorem nonces_spec start k : wf_Uint256 start →
  wf_Uint256 (nonceAt start k) ∧ value (nonceAt start k) = (value start + Z.of_nat k) mod 2 ^ 256 ∧
  (∀ j, Z.of_nat j < Z.of_nat k < 2 ^ 256 → nonceAt start j ≠ nonceAt start k) ∧
  Uint256FromBytes (Uint256_Bytes (nonceAt start k)) = Some (nonceAt start k).
Proof.
  intros Hs. destruct (nonceAt_value start k Hs) as [Hw Hv]. split_and!; [done|done| |by apply Uint256FromBytes_Bytes].
  intros j Hjk Heq. destruct (nonceAt_value start j Hs) as [_ Hvj]. rewrite Heq, Hv in Hvj.
  assert ((Z.of_nat k - Z.of_nat j) mod 2 ^ 256 = 0) as Hm.
  { replace (Z.of_nat k - Z.of_nat j) with ((value start + Z.of_nat k) - (value start + Z.of_nat j)) by lia.
    rewrite Zminus_mod, Hvj, Z.sub_diag. done. }
  rewrite Z.mod_small in Hm; lia.
Qed.

(** ** The search *)

Record NonceInfo := MkNonceInfo { ni_Nonce : Uint256; ni_Difficulty : Z; ni_Hash : Hash }.
Definition zeroNonceInfo : NonceInfo := MkNonceInfo zeroUint256 0 zeroHash.

(** What the [select] of a round sees: nothing, the job's or the miner's end. *)
Inductive poll := PollNone | PollStop | PollQuit.
Inductive mineError := ErrJobStopped | ErrMinerInterrupted.

Section mining.
Context `{Env}.
Implicit Types (data : list Z) (best : NonceInfo) (polls : list poll).

Definition HashBlock data (nonce : Uint256) : Hash := THashH (data ++ Uint256_Bytes nonce).

(** The rounds, one for each poll: the error and what is sent on the channel, or
    nothing while the search is still on. *)
Fixpoint mineLoop data (difficulty : Z) polls (i : Uint256) best : option (option mineError * NonceInfo) :=
  match polls with
  | [] => None
  | PollStop :: _ => Some (Some ErrJobStopped, best)
  | PollQuit :: _ => Some (Some ErrMinerInterrupted, best)
  | PollNone :: polls =>
      let currentHash := HashBlock data i in
      let currentDifficulty := Hash_Difficulty (Some currentHash) in
      if decide (currentDifficulty >= difficulty) then Some (None, MkNonceInfo i currentDifficulty currentHash)
      else if decide (currentDifficulty > ni_Difficulty best) then
        mineLoop data difficulty polls (Inc i) (MkNonceInfo i currentDifficulty currentHash)
      else mineLoop data difficulty polls (Inc i) best
  end.
Definition ComputeBlockNonce data (startNonce : Uint256) (difficulty : Z) polls : option (option mineError * NonceInfo) :=
  mineLoop data difficulty polls startNonce zeroNonceInfo.

(** [GetPubKeyNonce] with [rounds] polls before its stop is seen; [quit] may be seen
    earlier. *)
Definition GetPubKeyNonce (key : PublicKey) (difficulty : Z) polls : option NonceInfo :=
  snd <$> ComputeBlockNonce (pub_Serialize key) zeroUint256 difficulty (polls ++ [PollStop]).

(** *** What is found *)

Definition infoAt data (start : Uint256) (k : nat) : NonceInfo :=
  let h := HashBlock data (nonceAt start k) in MkNonceInfo (nonceAt start k) (Hash_Difficulty (Some h)) h.
Definition difficultyAt data (start : Uint256) (k : nat) : Z := ni_Difficulty (infoAt data start k).

(** The best of [best] and the first [k] nonces. *)
Definition bestOf data (start : Uint256) (k : nat) best info : Prop :=
  ni_Difficulty best <= ni_Difficulty info ∧ (∀ j, (j < k)%nat → difficultyAt data start j <= ni_Difficulty info) ∧
  (info = best ∨ ∃ j, (j < k)%nat ∧ info = infoAt data start j).

Definition stopError (p : poll) : option mineError :=
  match p with PollNone => None | PollStop => Some ErrJobStopped | PollQuit => Some ErrMinerInterrupted end.

Lemma infoAt_S data start k : infoAt data start (S k) = infoAt data (Inc start) k.
Proof. unfold infoAt. by rewrite nonceAt_S. Qed.

(** After [k] rounds without a hit. *)
Lemma mineLoop_misses data d k polls start best : (∀ j, (j < k)%nat → difficultyAt data start j < d) →
  ∃ info, bestOf data start k best info ∧
    mineLoop data d (replicate k PollNone ++ polls) start best = mineLoop data d polls (nonceAt start k) info.
Proof.
  revert start best. induction k as [|k IH]; intros start best Hlt.
  { exists best. split; [|done]. split_and!; [lia|intros; lia|by left]. }
  pose proof (Hlt 0%nat ltac:(lia)) as Hz0. unfold difficultyAt, infoAt in Hz0. cbn [ni_Difficulty] in Hz0.
  change (nonceAt start 0) with start in Hz0. cbn [replicate app mineLoop]. rewrite decide_False by lia.
  set (cur := MkNonceInfo start _ _). set (nb := if decide (Hash_Difficulty (Some (HashBlock data start)) > ni_Difficulty best) then cur else best).
  destruct (IH (Inc start) nb) as (info & (Hb1 & Hb2 & Hb3) & Heq).
  { intros j Hj. unfold difficultyAt. rewrite <- infoAt_S. apply Hlt. lia. }
  assert (cur = infoAt data start 0) as Hcur by done.
  exists info. split; [split_and!|].
  - unfold nb, cur in Hb1. case_decide; cbn [ni_Difficulty] in Hb1; lia.
  - intros [|j] Hj.
    + unfold difficultyAt. rewrite <- Hcur. unfold nb, cur in *. case_decide; cbn [ni_Difficulty] in *; lia.
    + unfold difficultyAt. rewrite infoAt_S. apply Hb2. lia.
  - destruct Hb3 as [->|(j & Hj & ->)].
    + unfold nb. case_decide; [right; exists 0%nat; split; [lia|done]|by left].
    + right. exists (S j). split; [lia|]. by rewrite infoAt_S.
  - rewrite nonceAt_S, <- Heq. unfold nb. by case_decide.
Qed.

(** The search for a nonce.  It tries the nonces in order from the start.  A nonce
    whose hash is difficult enough ends it with that nonce, its difficulty and its
    hash, and no earlier nonce was difficult enough.  When it is stopped after [k]
    nonces it returns an error and the best of them, and nothing (the zero value)
    only when none had a positive difficulty.  Otherwise it goes on. *)
Theorem mining_spec data start d k : (∀ j, (j < k)%nat → difficultyAt data start j < d) →
  (∀ polls, d <= difficultyAt data start k →
    ComputeBlockNonce data start d (replicate k PollNone ++ PollNone :: polls) = Some (None, infoAt data start k)) ∧
  (∀ p polls, p ≠ PollNone → ∃ info,
    ComputeBlockNonce data start d (replicate k PollNone ++ p :: polls) = Some (stopError p, info) ∧
    (∀ j, (j < k)%nat → difficultyAt data start j <= ni_Difficulty info) ∧
    (info = zeroNonceInfo ∨ ∃ j, (j < k)%nat ∧ info = infoAt data start j)) ∧
  ComputeBlockNonce data start d (replicate k PollNone) = None.
Proof.
  intros Hlt. unfold ComputeBlockNonce. split_and!.
  - intros polls Hge. destruct (mineLoop_misses data d k (PollNone :: polls) start zeroNonceInfo Hlt) as (info & _ & ->).
    cbn [mineLoop]. unfold difficultyAt, infoAt in *. cbn [ni_Difficulty] in Hge. by rewrite decide_True by lia.
  - intros p polls Hp. destruct (mineLoop_misses data d k (p :: polls) start zeroNonceInfo Hlt) as (info & (_ & Hb2 & Hb3) & ->).
    exists info. split; [|done]. by destruct p.
  - destruct (mineLoop_misses data d k [] start zeroNonceInfo Hlt) as (info & _ & Heq). rewrite app_nil_r in Heq. by rewrite Heq.
Qed.
End mining.
