(* ===== verification/NodeInfo.v ===== *)
(** * Nodes and their ids

    Models [src/proto/nodeinfo.go]: node keys and their order, node ids, roles and
    the mined identity of a node, with the check of an identity in
    [src/crypto/kms/pubkeystore.go].  An id that a node has mined passes the check. *)
From S2P Require Import Prelude Hash Types Bytes Pow.
From Stdlib Require Import String Ascii ZArith Lia.
From stdpp Require Import base list strings.
Local Open Scope Z_scope.

(** ** Node keys *)

(** [NodeKey.Less] on the arrays. *)
Fixpoint NodeKey_Less (k y : Hash) : bool :=
  match k, y with
  | v :: k, w :: y => if decide (v = w) then NodeKey_Less k y else bool_decide (v < w)
  | _, _ => false
  end.

Lemma NodeKey_Less_lt k y : length k = length y → NodeKey_Less k y = true ↔ bytes_lt k y.
Proof.
  revert y. induction k as [|v k IH]; intros [|w y]; cbn; try done. intros [= Hl].
  case_decide as Hd; [|rewrite bool_decide_eq_true; split; [by left|intros [?|[??]]; [done|lia]]].
  rewrite (IH y Hl). split; [by right|intros [?|[_ ?]]; [lia|done]].
Qed.

(** ** Roles *)

Definition ServerRole : Type := Z.
Definition Role_Unknown : ServerRole := 0.
Definition Role_Leader : ServerRole := 1.
Definition Role_Follower : ServerRole := 2.
Definition Role_Miner : ServerRole := 3.
Definition Role_Client : ServerRole := 4.

Definition ServerRole_String (s : ServerRole) : string :=
  if decide (s = Role_Leader) then "Leader"
  else if decide (s = Role_Follower) then "Follower"
  else if decide (s = Role_Miner) then "Miner"
  else if decide (s = Role_Client) then "Client"
  else "Unknown".

(** [strings.ToLower] on ASCII. *)
Definition lowerChar (c : ascii) : ascii :=
  let n := N_of_ascii c in if decide (65 <= n <= 90)%N then ascii_of_N (n + 32) else c.
Fixpoint toLower (s : string) : string :=
  match s with EmptyString => EmptyString | String c s => String (lowerChar c) (toLower s) end.

Definition parseServerRole (roleStr : string) : ServerRole :=
  let s := toLower roleStr in
  if decide (s = "leader"%string) then Role_Leader
  else if decide (s = "follower"%string) then Role_Follower
  else if decide (s = "miner"%string) then Role_Miner
  else if decide (s = "client"%string) then Role_Client
  else Role_Unknown.

Definition Roles_Contains (ss : list ServerRole) (role : ServerRole) : bool := existsb (Z.eqb role) ss.

Lemma parse_String_role s : s ∈ [Role_Unknown; Role_Leader; Role_Follower; Role_Miner; Role_Client] →
  parseServerRole (ServerRole_String s) = s.
Proof. rewrite !elem_of_cons. intros [->|[->|[->|[->|[->|[]%not_elem_of_nil]]]]]; reflexivity. Qed.

(** ** Node ids *)

Definition NodeID_Difficulty (id : NodeID) : Z :=
  if decide (String.length id ≠ HashSize * 2)%nat then -1
  else match NewHashFromStr id with Ok h => Hash_Difficulty (Some h) | _ => -1 end.
(** A nil raw id for a string that is no hash. *)
Definition ToRawNodeID (id : NodeID) : option Hash := match NewHashFromStr id with Ok h => Some h | _ => None end.
Definition ToNodeID (id : option Hash) : NodeID := match id with Some h => Hash_String h | None => EmptyString end.

Definition bytes_string (b : list Z) : string := String.string_of_list_ascii ((λ z, ascii_of_N (Z.to_N z)) <$> b).
(** An id that is no hash slices a nil pointer. *)
Definition NodeID_MarshalBinary (id : NodeID) : GoResult HashError (list Z) :=
  match NewHashFromStr id with Ok h => Ok h | _ => Panic end.
Definition NodeID_UnmarshalBinary (keyBytes : list Z) : GoResult HashError NodeID :=
  if decide (length keyBytes = 64%nat) then Ok (bytes_string keyBytes)
  else match NewHash keyBytes with Ok h => Ok (Hash_String h) | Err e => Err e | Panic => Panic end.

Lemma NodeID_binary_roundtrip h : valid_hash h →
  ∃ b, NodeID_MarshalBinary (Hash_String h) = Ok b ∧ NodeID_UnmarshalBinary b = Ok (Hash_String h).
Proof.
  intros Hv. exists h. unfold NodeID_MarshalBinary, NewHashFromStr. rewrite Decode_Hash_String by done. split; [done|].
  destruct Hv as [Hl _]. unfold NodeID_UnmarshalBinary, NewHash, Hash_SetBytes. rewrite decide_False by (rewrite Hl; done).
  by rewrite decide_True.
Qed.

Section nodes.
Context `{Env}.

Record Node := MkNode {
  nd_ID : NodeID;
  nd_Role : ServerRole;
  nd_Addr : string;
  nd_DirectAddr : string;
  nd_PublicKey : option PublicKey;
  nd_Nonce : Uint256;
}.

(** [InitNodeCryptoInfo] with a generated key; nothing while the search is on. *)
Definition InitNodeCryptoInfo (key : PublicKey) (difficulty : Z) (polls : list poll) (node : Node) : option Node :=
  match GetPubKeyNonce key difficulty polls with
  | None => None
  | Some nonce =>
      Some (MkNode (Hash_String (ni_Hash nonce)) (nd_Role node) (nd_Addr node) (nd_DirectAddr node) (Some key) (ni_Nonce nonce))
  end.

(** [kms.IsIDPubNonceValid] *)
Definition IsIDPubNonceValid (id : option Hash) (nonce : option Uint256) (key : option PublicKey) : bool :=
  match key, id, nonce with
  | Some key, Some id, Some nonce => Hash_IsEqual (Some (HashBlock (pub_Serialize key) nonce)) (Some id)
  | _, _, _ => false
  end.

Definition validIdentity (n : Node) : Prop :=
  IsIDPubNonceValid (ToRawNodeID (nd_ID n)) (Some (nd_Nonce n)) (nd_PublicKey n) = true.

(** The id of a valid node is the printed hash of its key and nonce, up to case and
    leading zeros. *)
Lemma validIdentity_spec n : validIdentity n ↔
  ∃ key, nd_PublicKey n = Some key ∧ ToRawNodeID (nd_ID n) = Some (HashBlock (pub_Serialize key) (nd_Nonce n)).
Proof.
  unfold validIdentity, IsIDPubNonceValid. destruct (nd_PublicKey n) as [key|]; [|split; [done|by intros (? & ? & ?)]].
  destruct (ToRawNodeID (nd_ID n)) as [h|]; [|split; [done|by intros (? & ? & ?)]].
  cbn. rewrite bool_decide_eq_true. split; [intros <-; by eexists|]. by intros (? & [= ->] & [= <-]).
Qed.
End nodes.

(** ** Mined identities *)

Section mined.
Context `{Env}.

(** Some round of the search ends it. *)
Lemma mineLoop_total data d polls i best : ∃ e info, mineLoop data d (polls ++ [PollStop]) i best = Some (e, info).
Proof.
  revert i best. induction polls as [|[] polls IH]; intros i best; cbn; [by eexists _, _| |by eexists _, _..].
  case_decide; [by eexists _, _|]. case_decide; apply IH.
Qed.

(** What is sent is the zero value or a nonce with its hash and difficulty. *)
Definition genuine (data : list Z) (info : NonceInfo) : Prop :=
  ni_Hash info = HashBlock data (ni_Nonce info) ∧ ni_Difficulty info = Hash_Difficulty (Some (ni_Hash info)).
Lemma mineLoop_genuine data d polls i best e info : mineLoop data d polls i best = Some (e, info) →
  best = zeroNonceInfo ∨ genuine data best →
  (e = None → genuine data info ∧ d <= ni_Difficulty info) ∧ (info = zeroNonceInfo ∨ genuine data info).
Proof.
  revert i best. induction polls as [|p polls IH]; intros i best; cbn [mineLoop]; [done|].
  destruct p; [|by intros [= <- <-]..].
  case_decide as Hd; [intros [= <- <-] _; split; [intros _; split; [done|by apply Z.ge_le]|by right]|].
  case_decide; intros Hl Hb; (eapply IH; [exact Hl|]); [by right|done].
Qed.

(** A node that initialises its identity: the search ends, and unless no nonce had a
    positive difficulty the id it gets is valid for its key and nonce. *)
Lemma InitNodeCryptoInfo_valid key d polls node : ∃ n, InitNodeCryptoInfo key d polls node = Some n ∧
  nd_PublicKey n = Some key ∧ nd_Role n = nd_Role node ∧
  (nd_ID n = Hash_String zeroHash ∨ validIdentity n ∧ nd_ID n = Hash_String (HashBlock (pub_Serialize key) (nd_Nonce n))).
Proof.
  unfold InitNodeCryptoInfo, GetPubKeyNonce, ComputeBlockNonce.
  destruct (mineLoop_total (pub_Serialize key) d polls zeroUint256 zeroNonceInfo) as (e & info & Hm).
  rewrite Hm. cbn [fmap option_fmap option_map snd]. eexists. split; [reflexivity|].
  cbn [nd_PublicKey nd_Role nd_ID nd_Nonce]. split_and!; [reflexivity..|].
  destruct (mineLoop_genuine _ _ _ _ _ _ _ Hm ltac:(by left)) as [_ [->|[Hh _]]]; [by left|right].
  rewrite <- Hh. split; [|reflexivity]. apply validIdentity_spec. exists key. split; [reflexivity|].
  cbn [nd_ID nd_Nonce]. unfold ToRawNodeID, NewHashFromStr.
  rewrite Hh, Decode_Hash_String by apply THashH_valid. reflexivity.
Qed.
End mined.
