(* ===== verification/Consistent.v ===== *)
(** * Consistent hashing

    Models the ring of [src/consistent/consistent.go]: every node has
    [NumberOfReplicas] keys on a circle of hashes, and a name belongs to the node of
    the next key.  The keys are kept sorted for a binary search.  SHA-256 is a
    parameter.  The replicas of a node share one record, which is never written. *)
From S2P Require Import Prelude Hash Types Bytes Pow NodeInfo.
From Stdlib Require Import String ZArith Lia Sorting.Sorted.
From stdpp Require Import base list gmap strings sorting pretty.
Local Open Scope Z_scope.

Inductive ringError := ErrEmptyCircle | ErrRingKeyNotFound.

(** [hash.HashH]: SHA-256. *)
Class NodeEnv `{Env} := { HashH : list Z → Hash; HashH_valid : ∀ b, valid_hash (HashH b) }.

Definition hashLe (x y : Hash) : Prop := bytes_leb x y = true.
#[export] Instance hashLe_dec : RelDecision hashLe.
Proof. intros x y. unfold hashLe. apply _. Defined.
#[export] Instance hashLe_trans : Transitive hashLe.
Proof. intros x y z. apply bytes_leb_trans. Qed.
#[export] Instance hashLe_total : Total hashLe.
Proof. intros x y. apply bytes_leb_total. Qed.

(** [sort.Search]: the least index below [n] at which [f] holds, by bisection;
    [fuel] bounds the rounds. *)
Fixpoint bisect (f : nat → bool) (fuel i j : nat) : nat :=
  match fuel with
  | O => i
  | S fuel =>
      if decide (i < j)%nat then
        let h := Nat.div2 (i + j) in
        if f h then bisect f fuel i h else bisect f fuel (S h) j
      else i
  end.
Definition sort_Search (n : nat) (f : nat → bool) : nat := bisect f n 0 n.

Section ring.
Context `{NodeEnv}.

Record Consistent := MkConsistent {
  cs_circle : gmap Hash Node;
  cs_sortedHashes : list Hash;
  cs_NumberOfReplicas : nat;
}.
Implicit Types (c : Consistent) (node : Node) (id : NodeID).
Abbreviation RR := (GoResult ringError).

Definition nodeKey id (idx : nat) : string := pretty idx +:+ id.
Definition hashKey (key : string) : Hash := HashH (string_bytes key).

(** On 32-byte keys [Less] is the strict part of the order. *)
Definition updateSortedHashes c : Consistent :=
  MkConsistent (cs_circle c) (merge_sort hashLe (map_to_list (cs_circle c)).*1) (cs_NumberOfReplicas c).

Definition replicas c id : list Hash := (λ i, hashKey (nodeKey id i)) <$> seq 0 (cs_NumberOfReplicas c).

Definition AddCache node c : Consistent :=
  updateSortedHashes (MkConsistent (foldl (λ m h, <[h := node]> m) (cs_circle c) (replicas c (nd_ID node)))
    (cs_sortedHashes c) (cs_NumberOfReplicas c)).
Definition RemoveCache id c : Consistent :=
  updateSortedHashes (MkConsistent (foldl (λ m h, delete h m) (cs_circle c) (replicas c id))
    (cs_sortedHashes c) (cs_NumberOfReplicas c)).
Definition ResetCache c : Consistent := MkConsistent ∅ [] (cs_NumberOfReplicas c).

Definition search c (key : Hash) : nat :=
  let n := length (cs_sortedHashes c) in
  let i := sort_Search n (λ x, match cs_sortedHashes c !! x with Some h => NodeKey_Less key h | None => false end) in
  if decide (n <= i)%nat then 0%nat else i.

(** [*c.circle[c.sortedHashes[i]]]: an index out of range and a missing node panic. *)
Definition nodeAt c (i : nat) : RR Node :=
  match cs_sortedHashes c !! i with
  | None => Panic
  | Some h => match cs_circle c !! h with Some node => Ok node | None => Panic end
  end.

Definition GetNeighbor (name : string) c : RR Node :=
  if decide (size (cs_circle c) = 0%nat) then Err ErrEmptyCircle else nodeAt c (search c (hashKey name)).

Definition GetNode (name : string) c : RR Node :=
  match cs_circle c !! hashKey (nodeKey name 0) with Some n => Ok n | None => Err ErrRingKeyNotFound end.

(** [for i = start + 1; i != start; i++ { if i >= len { i = 0 }; body }]: the body
    returns whether the loop breaks.  Nothing when the rounds do not suffice. *)
Fixpoint around {A} (len start : nat) (body : nat → A → RR (A * bool)) (rounds i : nat) (acc : A) : option (RR A) :=
  if decide (i = start) then Some (Ok acc)
  else
    match rounds with
    | O => None
    | S rounds =>
        let i := if decide (len <= i)%nat then 0%nat else i in
        match body i acc with
        | Ok (acc, true) => Some (Ok acc)
        | Ok (acc, false) => around len start body rounds (S i) acc
        | Err e => Some (Err e)
        | Panic => Some Panic
        end
    end.

(** [b] is the zero node before the first round. *)
Definition GetTwoNeighbors (rounds : nat) (name : string) (zero : Node) c : option (RR (Node * Node)) :=
  if decide (size (cs_circle c) = 0%nat) then Some (Err ErrEmptyCircle)
  else
    let start := search c (hashKey name) in
    match nodeAt c start with
    | Ok a =>
        if decide (cs_NumberOfReplicas c = 0%nat) then Some Panic
        else if decide (length (cs_sortedHashes c) / cs_NumberOfReplicas c = 1)%nat then Some (Ok (a, zero))
        else
          match around (length (cs_sortedHashes c)) start
            (λ i _, result_bind (nodeAt c i) (λ b, Ok (b, bool_decide (nd_ID b ≠ nd_ID a)))) rounds (S start) zero with
          | Some r => Some (result_bind r (λ b, Ok (a, b)))
          | None => None
          end
    | Err e => Some (Err e)
    | Panic => Some Panic
    end.

Definition sliceContainsMember (set : list Node) (member : Node) : bool :=
  existsb (λ m, bool_decide (nd_ID m = nd_ID member)) set.

(** [n] is an [int]: a negative capacity panics. *)
Definition GetNeighborsEx (rounds : nat) (name : string) (n : Z) (roles : list ServerRole) c : option (RR (list Node)) :=
  if decide (size (cs_circle c) = 0%nat) then Some (Err ErrEmptyCircle)
  else if decide (cs_NumberOfReplicas c = 0%nat) then Some Panic
  else
    let count := Z.of_nat (length (cs_sortedHashes c) / cs_NumberOfReplicas c) in
    let n := if decide (count < n) then count else n in
    let start := search c (hashKey name) in
    if decide (n < 0) then Some Panic
    else
      match nodeAt c start with
      | Ok elem =>
          let noFilter := bool_decide (roles = []) in
          let wanted e := noFilter || Roles_Contains roles (nd_Role e) in
          let res := if wanted elem then [elem] else [] in
          if noFilter && bool_decide (Z.of_nat (length res) = n) then Some (Ok res)
          else
            around (length (cs_sortedHashes c)) start
              (λ i res, result_bind (nodeAt c i) (λ elem,
                let res := if wanted elem && negb (sliceContainsMember res elem) then res ++ [elem] else res in
                Ok (res, bool_decide (Z.of_nat (length res) = n)))) rounds (S start) res
      | Err e => Some (Err e)
      | Panic => Some Panic
      end.
Definition GetNeighbors (rounds : nat) (name : string) (n : Z) c : option (RR (list Node)) := GetNeighborsEx rounds name n [] c.
End ring.
