(* ===== verification/ConsistentProps.v ===== *)
(** * The ring of nodes

    The binary search finds the next key on the circle; the ring denotes a map from
    ids to nodes; a name belongs to the node of the next key; and a node that joins
    or leaves only takes or gives names of its own. *)
From S2P Require Import Prelude Hash Types Bytes Pow NodeInfo Consistent.
From Stdlib Require Import String ZArith Lia Sorting.Sorted.
From stdpp Require Import base list gmap strings sorting pretty.
Local Open Scope Z_scope.

(** ** Bisection *)

Lemma bisect_spec f fuel i j : (∀ x y, i <= x <= y → y < j → f x = true → f y = true)%nat → (i <= j)%nat → (j - i <= fuel)%nat →
  let r := bisect f fuel i j in
  (i <= r <= j)%nat ∧ (∀ x, i <= x < r → f x = false)%nat ∧ ((r < j)%nat → f r = true).
Proof.
  revert i j. induction fuel as [|fuel IH]; intros i j Hm Hij Hf; cbn [bisect].
  { split_and!; [lia..|intros; lia|lia]. }
  case_decide as Hlt; [|split_and!; [lia..|intros; lia|lia]].
  set (h := Nat.div2 (i + j)).
  assert (i <= h < j)%nat as Hh.
  { unfold h. rewrite Nat.div2_div. split; [apply Nat.div_le_lower_bound; lia|apply Nat.Div0.div_lt_upper_bound; lia]. }
  destruct (f h) eqn:Hfh.
  - destruct (IH i h) as (Hr & Hlo & Hhi); [intros x y ? ?; apply Hm; lia|lia|lia|].
    split_and!; [lia..|done|]. intros _. destruct (decide (bisect f fuel i h < h)%nat) as [?|?]; [by apply Hhi|].
    by replace (bisect f fuel i h) with h by lia.
  - destruct (IH (S h) j) as (Hr & Hlo & Hhi); [intros x y ? ?; apply Hm; lia|lia|lia|].
    split_and!; [lia..| |done]. intros x Hx. destruct (decide (S h <= x)%nat); [apply Hlo; lia|].
    destruct (f x) eqn:Hfx; [|done]. rewrite (Hm x h) in Hfh; [done|lia|lia|done].
Qed.

(** ** The next key *)

(** [h] is the first key of [K] after [key], going round. *)
Definition isNext (K : Hash → Prop) (key h : Hash) : Prop :=
  K h ∧ ((bytes_lt key h ∧ ∀ h', K h' → bytes_lt key h' → hashLe h h') ∨
         ((∀ h', K h' → ¬ bytes_lt key h') ∧ ∀ h', K h' → hashLe h h')).

Lemma isNext_unique K key h h' : isNext K key h → isNext K key h' → h = h'.
Proof.
  intros [Kh [[Hl Hm]|[Hn Hm]]] [Kh' [[Hl' Hm']|[Hn' Hm']]].
  - apply bytes_leb_antisym; [by apply Hm|by apply Hm'].
  - by destruct (Hn' h).
  - by destruct (Hn h').
  - apply bytes_leb_antisym; [by apply Hm|by apply Hm'].
Qed.

(** Fewer keys: the next key stays if it is there. *)
Lemma isNext_sub K K' key h : (∀ h, K h → K' h) → isNext K' key h → K h → isNext K key h.
Proof. intros Hs [_ [[Hl Hm]|[Hn Hm]]] Kh; (split; [done|]); [left|right]; split; eauto. Qed.
Lemma isNext_ext K K' key h : (∀ h, K h ↔ K' h) → isNext K key h ↔ isNext K' key h.
Proof. intros Hs. split; intros Hn; (eapply isNext_sub; [|exact Hn|]); try (intros ?; apply Hs); apply Hs, Hn. Qed.

Section ring_props.
Context `{NodeEnv}.
Implicit Types (c : Consistent) (node : Node) (id : NodeID).

(** ** The sorted keys *)

Definition onCircle c (h : Hash) : Prop := is_Some (cs_circle c !! h).
Record wfRing c : Prop := {
  wr_sorted : cs_sortedHashes c = merge_sort hashLe (map_to_list (cs_circle c)).*1;
  wr_valid h : onCircle c h → valid_hash h;
}.

Lemma wr_elem c h : wfRing c → h ∈ cs_sortedHashes c ↔ onCircle c h.
Proof.
  intros [-> _]. rewrite merge_sort_Permutation, list_elem_of_fmap. split.
  - intros ([h' n] & -> & Hin%elem_of_map_to_list). by exists n.
  - intros [n Hn]. exists (h, n). split; [done|]. by apply elem_of_map_to_list.
Qed.
Lemma wr_order c i j x y : wfRing c → cs_sortedHashes c !! i = Some x → cs_sortedHashes c !! j = Some y → (i <= j)%nat → hashLe x y.
Proof.
  intros [-> _]. pose proof (StronglySorted_merge_sort hashLe (map_to_list (cs_circle c)).*1) as Hs. revert i j.
  generalize dependent (merge_sort hashLe (map_to_list (cs_circle c)).*1). intros l Hs.
  induction Hs as [|z l Hs IH Hf]; intros [|i] [|j]; cbn; try done; try lia.
  - intros [= ->] [= ->] _. apply bytes_leb_refl.
  - intros [= ->] Hy%list_elem_of_lookup_2 _. rewrite Forall_forall in Hf. by apply Hf.
  - intros Hx Hy ?. apply (IH i j); [done..|lia].
Qed.

Lemma hashKey_valid name : valid_hash (hashKey name).
Proof. apply HashH_valid. Qed.

(** The search finds the next key. *)
Lemma search_next c key : wfRing c → valid_hash key → size (cs_circle c) ≠ 0%nat →
  ∃ h, cs_sortedHashes c !! search c key = Some h ∧ isNext (onCircle c) key h.
Proof.
  intros Hwf Hkey Hne. set (l := cs_sortedHashes c).
  set (f := λ x, match l !! x with Some h => NodeKey_Less key h | None => false end).
  assert (∀ x h, l !! x = Some h → f x = true ↔ bytes_lt key h) as Hf.
  { intros x h Hx. unfold f. rewrite Hx. apply NodeKey_Less_lt.
    assert (onCircle c h) as Hh by (apply (wr_elem c); [done|by eapply list_elem_of_lookup_2]).
    destruct (wr_valid _ Hwf h Hh), Hkey. congruence. }
  assert (∀ x y, (x <= y)%nat → (y < length l)%nat → f x = true → f y = true) as Hm.
  { intros x y Hxy Hy Hfx. destruct (lookup_lt_is_Some_2 l x ltac:(lia)) as [hx Hx]. destruct (lookup_lt_is_Some_2 l y Hy) as [hy Hy'].
    apply (Hf _ _ Hx) in Hfx. apply (Hf _ _ Hy'). eapply bytes_lt_leb_trans; [done|]. by eapply (wr_order c x y). }
  destruct (bisect_spec f (length l) 0 (length l)) as (Hr & Hlo & Hhi); [intros x y ? ?; apply Hm; lia|lia|lia|].
  change (bisect f (length l) 0 (length l)) with (sort_Search (length l) f) in *.
  set (r := sort_Search (length l) f) in *.
  assert (length l ≠ 0%nat) as Hlen.
  { intros Hz%length_zero_iff_nil. apply Hne. apply map_size_empty_iff, map_empty. intros h.
    destruct (cs_circle c !! h) as [n|] eqn:Hh; [|done]. assert (h ∈ l) as Hin by (apply (wr_elem c); [done|by exists n]).
    rewrite Hz in Hin. by apply not_elem_of_nil in Hin. }
  assert (∀ h, onCircle c h → ∃ x, l !! x = Some h) as Hat by (intros h Hh%(wr_elem c); [by apply list_elem_of_lookup|done]).
  assert (search c key = if decide (length l <= r)%nat then 0%nat else r) as -> by reflexivity. case_decide as Hd.
  - destruct (lookup_lt_is_Some_2 l 0 ltac:(lia)) as [h Hh]. exists h. split; [done|].
    split; [apply (wr_elem c); [done|by eapply list_elem_of_lookup_2]|]. right. split.
    + intros h' [x Hx]%Hat Hlt. apply (Hf _ _ Hx) in Hlt. rewrite Hlo in Hlt; [done|]. apply lookup_lt_Some in Hx. lia.
    + intros h' [x Hx]%Hat. apply (wr_order c 0 x); [done..|lia].
  - destruct (lookup_lt_is_Some_2 l r ltac:(lia)) as [h Hh]. exists h. split; [done|].
    split; [apply (wr_elem c); [done|by eapply list_elem_of_lookup_2]|]. left. split; [apply (Hf r); [done|]; apply Hhi; lia|].
    intros h' [x Hx]%Hat Hlt. apply (Hf _ _ Hx) in Hlt. apply (wr_order c r x); [done..|].
    destruct (decide (r <= x)%nat); [done|]. rewrite Hlo in Hlt; [done|lia].
Qed.

(** A name belongs to the node of the next key. *)
Lemma GetNeighbor_next c name : wfRing c → size (cs_circle c) ≠ 0%nat →
  ∃ h node, GetNeighbor name c = Ok node ∧ cs_circle c !! h = Some node ∧ isNext (onCircle c) (hashKey name) h.
Proof.
  intros Hwf Hne. destruct (search_next c (hashKey name) Hwf (hashKey_valid _) Hne) as (h & Hh & Hn).
  destruct (proj1 Hn) as [node Hnode]. exists h, node. split_and!; [|done|done].
  unfold GetNeighbor. rewrite decide_False by done. unfold nodeAt. by rewrite Hh, Hnode.
Qed.
End ring_props.

(** ** Members *)

Definition ringSize : nat := 20.

Section members.
Context `{NodeEnv}.
Implicit Types (c : Consistent) (node : Node) (id : NodeID) (ms : gmap NodeID Node).

Definition ringKey id (i : nat) : Hash := hashKey (nodeKey id i).

(** Ids whose keys do not collide on the circle. *)
Definition apart (known : NodeID → Prop) : Prop := ∀ id id' i j, known id → known id' → (i < ringSize)%nat → (j < ringSize)%nat →
  ringKey id i = ringKey id' j → id = id' ∧ i = j.

(** The keys of the nodes of a map. *)
Definition keyOf ms (h : Hash) : Prop := ∃ id i, is_Some (ms !! id) ∧ (i < ringSize)%nat ∧ h = ringKey id i.

(** The ring [c] has the members [ms]. *)
Record ringOf c ms : Prop := {
  ro_size : cs_NumberOfReplicas c = ringSize;
  ro_wf : wfRing c;
  ro_node h n : cs_circle c !! h = Some n ↔ ∃ id i, ms !! id = Some n ∧ (i < ringSize)%nat ∧ h = ringKey id i;
  ro_id id n : ms !! id = Some n → nd_ID n = id;
}.

Definition emptyRing : Consistent := MkConsistent ∅ [] ringSize.
Lemma circle_empty h : cs_circle emptyRing !! h = None.
Proof. apply lookup_empty. Qed.
Lemma ringOf_empty : ringOf emptyRing ∅.
Proof.
  split; [done| | |].
  - split; [reflexivity|]. intros h [n Hn]. by rewrite circle_empty in Hn.
  - intros h n. rewrite circle_empty. split; [done|]. intros (id & i & Hn & _). by rewrite lookup_empty in Hn.
  - intros id n. by rewrite lookup_empty.
Qed.
Lemma ringOf_reset c ms : ringOf c ms → ringOf (ResetCache c) ∅.
Proof. intros [Hs _ _ _]. unfold ResetCache. rewrite Hs. apply ringOf_empty. Qed.

(** Inserting and deleting a list of keys. *)
Lemma foldl_insert (l : list Hash) node (m : gmap Hash Node) h :
  foldl (λ m h, <[h := node]> m) m l !! h = if decide (h ∈ l) then Some node else m !! h.
Proof.
  revert m. induction l as [|x l IH]; intros m; cbn [foldl]; [by rewrite decide_False by apply not_elem_of_nil|].
  rewrite IH. destruct (decide (h ∈ l)) as [Hin|Hin]; [by rewrite decide_True by (by right)|].
  destruct (decide (h = x)) as [->|Hne]; [rewrite decide_True by (by left); apply lookup_insert_eq|].
  rewrite decide_False by (by intros [?|?]%elem_of_cons). by apply lookup_insert_ne.
Qed.
Lemma foldl_delete (l : list Hash) (m : gmap Hash Node) h :
  foldl (λ m h, delete h m) m l !! h = if decide (h ∈ l) then None else m !! h.
Proof.
  revert m. induction l as [|x l IH]; intros m; cbn [foldl]; [by rewrite decide_False by apply not_elem_of_nil|].
  rewrite IH. destruct (decide (h ∈ l)) as [Hin|Hin]; [by rewrite decide_True by (by right)|].
  destruct (decide (h = x)) as [->|Hne]; [rewrite decide_True by (by left); apply lookup_delete_eq|].
  rewrite decide_False by (by intros [?|?]%elem_of_cons). by apply lookup_delete_ne.
Qed.
Lemma elem_of_replicas c id h : cs_NumberOfReplicas c = ringSize → h ∈ replicas c id ↔ ∃ i, (i < ringSize)%nat ∧ h = ringKey id i.
Proof.
  intros Hs. unfold replicas. rewrite Hs, list_elem_of_fmap. split.
  - intros (i & -> & Hi%elem_of_seq). exists i. split; [lia|done].
  - intros (i & Hi & ->). exists i. split; [done|]. apply elem_of_seq. lia.
Qed.

(** A sorted ring from its circle. *)
Lemma updateSortedHashes_wf c : (∀ h, onCircle c h → valid_hash h) → wfRing (updateSortedHashes c).
Proof. intros Hv. split; [done|exact Hv]. Qed.

Variable known : NodeID → Prop.
Hypothesis Hapart : apart known.
Definition allKnown ms : Prop := ∀ id, is_Some (ms !! id) → known id.

Lemma ringOf_add c ms node : ringOf c ms → allKnown ms → known (nd_ID node) →
  ringOf (AddCache node c) (<[nd_ID node := node]> ms).
Proof.
  intros [Hs Hwf Hn Hid] Hk Hkn. split; [done| | |].
  - apply updateSortedHashes_wf. intros h. unfold onCircle. cbn. rewrite foldl_insert.
    case_decide as Hin; [|apply (wr_valid _ Hwf)]. intros _. apply (elem_of_replicas _ _ _ Hs) in Hin as (i & _ & ->). apply hashKey_valid.
  - intros h n. cbn. rewrite foldl_insert. case_decide as Hin; rewrite (elem_of_replicas _ _ _ Hs) in Hin.
    + destruct Hin as (i & Hi & ->). split.
      * intros [= <-]. exists (nd_ID node), i. by rewrite lookup_insert_eq.
      * intros (id & j & Hms & Hj & Heq). destruct (decide (nd_ID node = id)) as [<-|Hne]; [by rewrite lookup_insert_eq in Hms|].
        rewrite lookup_insert_ne in Hms by done. destruct (Hapart (nd_ID node) id i j); [done|by apply Hk|done..].
    + rewrite Hn. split.
      * intros (id & i & Hms & Hi & ->). exists id, i. split; [|done]. rewrite lookup_insert_ne; [done|].
        intros <-. apply Hin. by exists i.
      * intros (id & i & Hms & Hi & ->). exists id, i. split; [|done]. rewrite lookup_insert_ne in Hms; [done|].
        intros <-. apply Hin. by exists i.
  - intros id n. destruct (decide (nd_ID node = id)) as [<-|]; [rewrite lookup_insert_eq; by intros [= <-]|].
    rewrite lookup_insert_ne by done. apply Hid.
Qed.

Lemma ringOf_remove c ms id : ringOf c ms → allKnown ms → known id → ringOf (RemoveCache id c) (delete id ms).
Proof.
  intros [Hs Hwf Hn Hid] Hk Hkn. split; [done| | |].
  - apply updateSortedHashes_wf. intros h. unfold onCircle. cbn. rewrite foldl_delete.
    case_decide as Hin; [by intros []|apply (wr_valid _ Hwf)].
  - intros h n. cbn. rewrite foldl_delete. case_decide as Hin; rewrite (elem_of_replicas _ _ _ Hs) in Hin.
    + destruct Hin as (i & Hi & ->). split; [done|]. intros (id' & j & Hms & Hj & Heq). apply lookup_delete_Some in Hms as [Hne Hms].
      destruct (Hapart id id' i j); [done|by apply Hk|done..].
    + rewrite Hn. split.
      * intros (id' & i & Hms & Hi & ->). exists id', i. split; [|done]. rewrite lookup_delete_ne; [done|].
        intros <-. apply Hin. by exists i.
      * intros (id' & i & Hms & Hi & ->). exists id', i. by apply lookup_delete_Some in Hms as [_ Hms].
  - intros id' n [_ Hms]%lookup_delete_Some. by apply Hid.
Qed.

(** *** Readers *)

Lemma GetNode_spec c ms id : ringOf c ms → allKnown ms → known id →
  GetNode id c = match ms !! id with Some n => Ok n | None => Err ErrRingKeyNotFound end.
Proof.
  intros [Hs Hwf Hn Hid] Hk Hkn. unfold GetNode. fold (ringKey id 0). destruct (ms !! id) as [n|] eqn:Hms.
  - assert (cs_circle c !! ringKey id 0 = Some n) as ->; [|done]. apply Hn. exists id, 0%nat. split_and!; [done|unfold ringSize; lia|done].
  - destruct (cs_circle c !! ringKey id 0) as [n|] eqn:Hc; [|done]. apply Hn in Hc as (id' & j & Hms' & Hj & Heq).
    destruct (Hapart id id' 0%nat j) as [-> _]; [done|by apply Hk|unfold ringSize; lia|done|done|]. congruence.
Qed.

Lemma onCircle_key c ms h : ringOf c ms → onCircle c h ↔ keyOf ms h.
Proof.
  intros Hr. split.
  - intros [n (id & i & Hms & Hi & ->)%(ro_node _ _ Hr)]. exists id, i. by split; [exists n|].
  - intros (id & i & [n Hms] & Hi & ->). exists n. apply (ro_node _ _ Hr). by exists id, i.
Qed.
Lemma ring_empty c ms : ringOf c ms → size (cs_circle c) = 0%nat ↔ ms = ∅.
Proof.
  intros Hr. rewrite map_size_empty_iff. split; intros He; apply map_empty.
  - intros id. destruct (ms !! id) as [n|] eqn:Hms; [|done]. assert (cs_circle c !! ringKey id 0 = Some n) as Hc.
    { apply (ro_node _ _ Hr). exists id, 0%nat. split_and!; [done|unfold ringSize; lia|done]. }
    by rewrite He, lookup_empty in Hc.
  - intros h. destruct (cs_circle c !! h) as [n|] eqn:Hc; [|done]. apply (ro_node _ _ Hr) in Hc as (id & i & Hms & _).
    by rewrite He, lookup_empty in Hms.
Qed.

Lemma GetNeighbor_spec c ms name : ringOf c ms → match GetNeighbor name c with
  | Ok n => ∃ id i, ms !! id = Some n ∧ (i < ringSize)%nat ∧ isNext (keyOf ms) (hashKey name) (ringKey id i)
  | Err e => ms = ∅ ∧ e = ErrEmptyCircle
  | Panic => False
  end.
Proof.
  intros Hr. destruct (decide (size (cs_circle c) = 0%nat)) as [Hz|Hz].
  { unfold GetNeighbor. rewrite decide_True by done. split; [by apply (ring_empty c)|done]. }
  destruct (GetNeighbor_next c name (ro_wf _ _ Hr) Hz) as (h & n & -> & Hc & Hn).
  apply (ro_node _ _ Hr) in Hc as (id & i & Hms & Hi & ->). exists id, i. split_and!; [done..|].
  revert Hn. apply isNext_ext. intros h. symmetry. by apply onCircle_key.
Qed.
End members.

(** ** Runs of the ring *)

Section runs.
Context `{NodeEnv}.
Implicit Types (c : Consistent) (node : Node) (id : NodeID) (ms : gmap NodeID Node).

Inductive ringOp := RingAdd (node : Node) | RingRemove (id : NodeID) | RingReset.
Definition opID (op : ringOp) : option NodeID :=
  match op with RingAdd node => Some (nd_ID node) | RingRemove id => Some id | RingReset => None end.
Definition runRing (ops : list ringOp) c : Consistent :=
  foldl (λ c op, match op with RingAdd node => AddCache node c | RingRemove id => RemoveCache id c | RingReset => ResetCache c end) c ops.
Definition runMembers (ops : list ringOp) ms : gmap NodeID Node :=
  foldl (λ ms op, match op with RingAdd node => <[nd_ID node := node]> ms | RingRemove id => delete id ms | RingReset => ∅ end) ms ops.
Definition opsKnown (known : NodeID → Prop) (ops : list ringOp) : Prop := ∀ op id, op ∈ ops → opID op = Some id → known id.

Lemma runRing_members known ops c ms : apart known → opsKnown known ops → ringOf c ms → allKnown known ms →
  ringOf (runRing ops c) (runMembers ops ms) ∧ allKnown known (runMembers ops ms).
Proof.
  intros Ha. revert c ms. induction ops as [|op ops IH]; intros c ms Hk Hr Hall; [done|]. cbn [runRing runMembers foldl].
  assert (∀ id, opID op = Some id → known id) as Hop by (intros id; apply Hk; by left).
  apply IH; [intros op' id Hin; apply Hk; by right| |].
  - destruct op as [node|id|]; [by eapply ringOf_add; eauto|by eapply ringOf_remove; eauto|by eapply ringOf_reset].
  - destruct op as [node|id|]; intros id' [n Hn].
    + destruct (decide (nd_ID node = id')) as [<-|]; [by apply Hop|]. rewrite lookup_insert_ne in Hn by done. apply Hall. by exists n.
    + apply lookup_delete_Some in Hn as [_ Hn]. apply Hall. by exists n.
    + by rewrite lookup_empty in Hn.
Qed.
Lemma allKnown_empty known : allKnown known ∅.
Proof. intros id [n Hn]. by rewrite lookup_empty in Hn. Qed.

(** C38: The ring denotes a map from ids to nodes.  After any sequence of nodes added
    and removed and resets, of ids whose keys do not collide, looking an id up gives
    its node or an error, and the node of a name is the one of the first key strictly
    after the hash of the name, going round the circle (a name that is hashed onto a
    key gets the next one); there is none only when the ring is empty. *)
Theorem ring_refines known ops : apart known → opsKnown known ops →
  let c := runRing ops emptyRing in let ms := runMembers ops ∅ in
  (∀ id, known id → GetNode id c = match ms !! id with Some n => Ok n | None => Err ErrRingKeyNotFound end) ∧
  (∀ name, match GetNeighbor name c with
   | Ok n => ∃ id i, ms !! id = Some n ∧ (i < ringSize)%nat ∧ isNext (keyOf ms) (hashKey name) (ringKey id i)
   | Err e => ms = ∅ ∧ e = ErrEmptyCircle
   | Panic => False
   end).
Proof.
  intros Ha Hk c ms. destruct (runRing_members known ops emptyRing ∅ Ha Hk ringOf_empty (allKnown_empty _)) as [Hr Hall].
  split; [intros id Hid; by eapply GetNode_spec; eauto|]. intros name. by apply GetNeighbor_spec.
Qed.

(** Fewer members: a name whose node stays keeps its node. *)
Lemma GetNeighbor_sub c c' ms ms' name n : ringOf c ms → ringOf c' ms' → (∀ id n, ms' !! id = Some n → ms !! id = Some n) →
  GetNeighbor name c = Ok n → ms' !! nd_ID n = Some n → GetNeighbor name c' = Ok n.
Proof.
  intros Hr Hr' Hsub Hn Hstay. pose proof (GetNeighbor_spec c ms name Hr) as Hs. rewrite Hn in Hs.
  destruct Hs as (id1 & i & Hms & Hi & Hnext). pose proof (ro_id _ _ Hr _ _ Hms) as <-.
  assert (isNext (keyOf ms') (hashKey name) (ringKey (nd_ID n) i)) as Hnext'.
  { eapply isNext_sub; [|exact Hnext|]; [|by exists (nd_ID n), i; split; [eexists|]].
    intros h (id2 & j & [n2 Hn2] & Hj & ->). exists id2, j. split; [|done]. exists n2. by apply Hsub. }
  pose proof (GetNeighbor_spec c' ms' name Hr') as Hs'. destruct (GetNeighbor name c') as [n'|e|]; [|by destruct Hs' as [-> _]|done].
  destruct Hs' as (id2 & j & Hms2 & Hj & Hnext2). pose proof (isNext_unique _ _ _ _ Hnext' Hnext2) as Heq. f_equal.
  assert (cs_circle c' !! ringKey id2 j = Some n') as Hc by (apply (ro_node _ _ Hr'); by exists id2, j).
  assert (cs_circle c' !! ringKey (nd_ID n) i = Some n) as Hc' by (apply (ro_node _ _ Hr'); by exists (nd_ID n), i).
  rewrite Heq in Hc'. congruence.
Qed.

(** Consistent hashing.  When a new node joins, a name either moves to it or keeps
    its node; when a node leaves, only the names of that node move. *)
Theorem neighbor_stable known ops node name n : apart known → opsKnown known ops → known (nd_ID node) →
  let c := runRing ops emptyRing in
  (runMembers ops ∅ !! nd_ID node = None → GetNeighbor name (AddCache node c) = Ok n → n = node ∨ GetNeighbor name c = Ok n) ∧
  (GetNeighbor name c = Ok n → nd_ID n ≠ nd_ID node → GetNeighbor name (RemoveCache (nd_ID node) c) = Ok n).
Proof.
  intros Ha Hk Hkn c. destruct (runRing_members known ops emptyRing ∅ Ha Hk ringOf_empty (allKnown_empty _)) as [Hr Hall].
  fold c in Hr. set (ms := runMembers ops ∅) in *. split.
  - intros Hnew Hn. pose proof (ringOf_add known Ha c ms node Hr Hall Hkn) as Hr'.
    pose proof (GetNeighbor_spec _ _ name Hr') as Hs. rewrite Hn in Hs. destruct Hs as (id & i & Hms & _).
    destruct (decide (nd_ID node = id)) as [<-|Hne]; [rewrite lookup_insert_eq in Hms; left; congruence|right].
    rewrite lookup_insert_ne in Hms by done. apply (GetNeighbor_sub _ c _ ms name n Hr' Hr); [|exact Hn|].
    + intros id' n' Hn'. rewrite lookup_insert_ne; [done|]. intros <-. congruence.
    + by rewrite (ro_id _ _ Hr _ _ Hms).
  - intros Hn Hne. pose proof (ringOf_remove known Ha c ms (nd_ID node) Hr Hall Hkn) as Hr'.
    pose proof (GetNeighbor_spec _ _ name Hr) as Hs. rewrite Hn in Hs. destruct Hs as (id & i & Hms & _).
    apply (GetNeighbor_sub c _ ms (delete (nd_ID node) ms) name n Hr Hr'); [|exact Hn|].
    + by intros id' n' [_ Hn']%lookup_delete_Some.
    + apply lookup_delete_Some. split; [done|]. by rewrite (ro_id _ _ Hr _ _ Hms).
Qed.
End runs.
