(* ===== verification/RingWalk.v ===== *)
(** * Walking round the ring

    [GetNeighborsEx] collects the distinct nodes of some roles from the next key on.
    Theorem: what it returns, and when it does not return. *)
From S2P Require Import Prelude Hash Types Bytes Pow NodeInfo Consistent ConsistentProps.
From Stdlib Require Import String ZArith Lia.
From stdpp Require Import base list gmap strings sorting.
Local Open Scope Z_scope.

(** ** The loop *)

Section loop.
Context {A : Type} (body : nat → A → GoResult ringError (A * bool)).

(** The body at the indices of a list, until it breaks. *)
Fixpoint visit (idxs : list nat) (acc : A) : GoResult ringError (A * bool) :=
  match idxs with
  | [] => Ok (acc, false)
  | i :: idxs =>
      match body i acc with
      | Ok (acc, false) => visit idxs acc
      | r => r
      end
  end.

Lemma visit_app l k acc : visit (l ++ k) acc =
  match visit l acc with Ok (acc, false) => visit k acc | r => r end.
Proof. revert acc. induction l as [|i l IH]; intros acc; cbn; [done|]. destruct (body i acc) as [[acc' []]| |]; [done|apply IH|done..]. Qed.

(** Indices that do not pass the start. *)
Lemma around_straight len start k rounds i acc : (i + k <= len)%nat → (start < i ∨ i + k <= start)%nat →
  around len start body (k + rounds) i acc =
  match visit (seq i k) acc with
  | Ok (acc, true) => Some (Ok acc)
  | Ok (acc, false) => around len start body rounds (i + k) acc
  | Err e => Some (Err e)
  | Panic => Some Panic
  end.
Proof.
  revert i acc. induction k as [|k IH]; intros i acc Hi Hs; [by rewrite Nat.add_0_r|].
  cbn [seq visit Nat.add around]. rewrite decide_False by lia. rewrite decide_False by lia.
  destruct (body i acc) as [[acc' []]| |]; [done| |done..]. rewrite IH by lia. by replace (S i + k)%nat with (i + S k)%nat by lia.
Qed.

Lemma around_wrap len start rounds acc : (0 < start < len)%nat →
  around len start body rounds len acc = around len start body rounds 0 acc.
Proof.
  intros Hs. destruct rounds as [|rounds]; cbn [around]; rewrite (decide_False (P := len = start)) by lia;
    rewrite (decide_False (P := 0%nat = start)) by lia; [done|].
  rewrite (decide_True (P := (len <= len)%nat)) by lia. by rewrite (decide_False (P := (len <= 0)%nat)) by lia.
Qed.

(** Once round, back to a start that is not the first index. *)
Lemma around_once len start rounds acc : (0 < start < len)%nat → (len <= rounds)%nat →
  around len start body rounds (S start) acc =
  match visit (seq (S start) (len - S start) ++ seq 0 start) acc with
  | Ok (acc, _) => Some (Ok acc)
  | Err e => Some (Err e)
  | Panic => Some Panic
  end.
Proof.
  intros Hs Hr. replace rounds with ((len - S start) + (start + (rounds - (len - S start) - start)))%nat by lia.
  rewrite around_straight by lia. rewrite visit_app. destruct (visit (seq (S start) _) acc) as [[acc1 []]| |]; [done| |done..].
  replace (S start + (len - S start))%nat with len by lia. rewrite around_wrap by lia. rewrite around_straight by lia.
  destruct (visit (seq 0 start) acc1) as [[acc2 []]| |]; [done| |done..]. cbn [Nat.add]. destruct (_ - _ - _)%nat; cbn; by rewrite decide_True.
Qed.

(** From the first index: one pass, then on and on. *)
Lemma around_first len rounds acc acc' : (0 < len)%nat → (len <= rounds)%nat →
  visit (seq 1 (len - 1)) acc = Ok (acc', true) → around len 0 body rounds 1 acc = Some (Ok acc').
Proof.
  intros Hl Hr Hv. replace rounds with ((len - 1) + (rounds - (len - 1)))%nat by lia.
  rewrite around_straight by lia. by rewrite Hv.
Qed.
Lemma around_saturated len rounds i acc : (0 < len)%nat → (i ≠ 0)%nat → (∀ j, (j < len)%nat → body j acc = Ok (acc, false)) →
  around len 0 body rounds i acc = None.
Proof.
  intros Hl Hi Hb. revert i Hi. induction rounds as [|rounds IH]; intros i Hi; cbn [around]; rewrite decide_False by done; [done|].
  case_decide; rewrite Hb by lia; by apply IH.
Qed.
Lemma around_forever len rounds acc acc' : (0 < len)%nat → visit (seq 1 (len - 1)) acc = Ok (acc', false) →
  (∀ j, (j < len)%nat → body j acc' = Ok (acc', false)) → around len 0 body rounds 1 acc = None.
Proof.
  intros Hl Hv Hb. destruct (decide (len - 1 <= rounds)%nat) as [Hle|Hgt].
  - replace rounds with ((len - 1) + (rounds - (len - 1)))%nat by lia. rewrite around_straight by lia. rewrite Hv.
    apply around_saturated; [done|lia|done].
  - replace (seq 1 (len - 1)) with (seq 1 rounds ++ seq (1 + rounds) (len - 1 - rounds)) in Hv.
    2:{ rewrite <- seq_app. f_equal. lia. }
    rewrite visit_app in Hv. rewrite <- (Nat.add_0_r rounds), around_straight by lia.
    destruct (visit (seq 1 rounds) acc) as [[acc1 []]| |]; [done| |done..]. cbn. by rewrite decide_False by lia.
Qed.

(** An invariant of the body. *)
Lemma around_inv (I : A → Prop) len start rounds i acc : (0 < len)%nat → I acc →
  (∀ j acc, (j < len)%nat → I acc → ∃ acc' b, body j acc = Ok (acc', b) ∧ I acc') →
  match around len start body rounds i acc with Some (Ok acc) => I acc | Some _ => False | None => True end.
Proof.
  intros Hl HI Hb. revert i acc HI. induction rounds as [|rounds IH]; intros i acc HI; cbn [around]; case_decide; [done..|].
  destruct (Hb (if decide (len <= i)%nat then 0%nat else i) acc) as (acc' & b & -> & HI'); [case_decide; lia|done|].
  destruct b; [done|]. by apply IH.
Qed.
End loop.

(** ** Collecting nodes *)

Section collect.
Context `{NodeEnv}.
Implicit Types (c : Consistent) (res xs : list Node) (e : Node).

(** The nodes of the keys, in the order of the keys. *)
Definition ringNodes c : list Node := omap (λ h, cs_circle c !! h) (cs_sortedHashes c).

Lemma ringNodes_at c i e : wfRing c → length (ringNodes c) = length (cs_sortedHashes c) ∧
  (ringNodes c !! i = Some e → nodeAt c i = Ok e).
Proof.
  intros Hwf. unfold ringNodes, nodeAt. assert (∀ h, h ∈ cs_sortedHashes c → is_Some (cs_circle c !! h)) as Hall.
  { intros h. by apply (wr_elem c). }
  revert i. induction (cs_sortedHashes c) as [|h l IH]; intros i; [done|].
  destruct (Hall h) as [n Hn]; [by left|]. cbn. rewrite Hn. cbn.
  assert (∀ h, h ∈ l → is_Some (cs_circle c !! h)) as Hall' by (intros h' ?; apply Hall; by right).
  destruct (IH Hall' 0%nat) as [-> _]. split; [done|]. destruct i as [|i]; cbn; [by rewrite Hn; intros [= ->]|]. by apply IH.
Qed.

Variable wanted : Node → bool.
Definition grow res e : list Node := if wanted e && negb (sliceContainsMember res e) then res ++ [e] else res.
(** The wanted nodes of a list, each id once. *)
Definition distinctNodes xs : list Node := foldl grow [] xs.

Lemma contains_elem res e : sliceContainsMember res e = true ↔ nd_ID e ∈ nd_ID <$> res.
Proof.
  unfold sliceContainsMember. rewrite existsb_exists, list_elem_of_fmap. split.
  - intros (m & Hin%list_elem_of_In & Heq%bool_decide_eq_true). by exists m.
  - intros (m & Heq & Hin%list_elem_of_In). exists m. split; [done|]. by apply bool_decide_eq_true.
Qed.
Lemma grow_length res e : (length res <= length (grow res e) <= S (length res))%nat.
Proof. unfold grow. destruct (_ && _); [rewrite length_app; cbn|]; lia. Qed.
Lemma grow_prefix res e : res `prefix_of` grow res e.
Proof. unfold grow. destruct (_ && _); [by apply prefix_app_r|done]. Qed.
Lemma foldl_grow_prefix xs res : res `prefix_of` foldl grow res xs.
Proof. revert res. induction xs as [|e xs IH]; intros res; cbn; [done|]. etrans; [apply grow_prefix|apply IH]. Qed.

(** All wanted nodes of the list are in. *)
Lemma foldl_grow_contains xs res e : e ∈ xs → wanted e = true → sliceContainsMember (foldl grow res xs) e = true.
Proof.
  revert res. induction xs as [|x xs IH]; intros res; [by intros ?%not_elem_of_nil|]. cbn.
  intros [<-|Hin]%elem_of_cons Hw; [|by apply IH]. apply contains_elem.
  destruct (foldl_grow_prefix xs (grow res e)) as [k ->]. rewrite fmap_app. apply elem_of_app. left.
  apply contains_elem. unfold grow. rewrite Hw. destruct (sliceContainsMember res e) eqn:Hc; [done|]. cbn.
  apply contains_elem. rewrite fmap_app. apply elem_of_app. right. by left.
Qed.
Lemma foldl_grow_saturated xs res e : e ∈ xs → grow (foldl grow res xs) e = foldl grow res xs.
Proof.
  intros Hin. unfold grow at 1. destruct (wanted e) eqn:Hw; [|done]. by rewrite (foldl_grow_contains xs res e).
Qed.

Lemma distinctNodes_spec xs : NoDup (nd_ID <$> distinctNodes xs) ∧ ∀ e, e ∈ distinctNodes xs → e ∈ xs ∧ wanted e = true.
Proof.
  assert (∀ res, NoDup (nd_ID <$> res) → NoDup (nd_ID <$> foldl grow res xs) ∧
    ∀ e, e ∈ foldl grow res xs → e ∈ res ∨ e ∈ xs ∧ wanted e = true) as Hgen.
  { induction xs as [|x xs IH]; intros res Hnd; cbn; [split; [done|]; by left|].
    destruct (IH (grow res x)) as [Hnd' Hin].
    - unfold grow. destruct (wanted x && _) eqn:Hc; [|done]. apply andb_true_iff in Hc as [_ Hc%negb_true_iff].
      rewrite fmap_app. apply NoDup_app. split; [done|]. split; [|apply NoDup_singleton].
      intros id Hid [= ->]%list_elem_of_singleton. apply contains_elem in Hid. congruence.
    - split; [done|]. intros e [He|[He ?]]%Hin; [|right; split; [by right|done]]. unfold grow in He.
      destruct (wanted x && _) eqn:Hc; [|by left]. apply andb_true_iff in Hc as [Hw _].
      apply elem_of_app in He as [?|[= ->]%list_elem_of_singleton]; [by left|]. right. split; [by left|done]. }
  destruct (Hgen [] ltac:(constructor)) as [Hnd Hin]. split; [done|]. intros e [[]%not_elem_of_nil|?]%Hin. done.
Qed.

(** The loop's body, with a break at [n] nodes. *)
Definition collectBody c (n : Z) (i : nat) res : GoResult ringError (list Node * bool) :=
  result_bind (nodeAt c i) (λ elem,
    let res := if wanted elem && negb (sliceContainsMember res elem) then res ++ [elem] else res in
    Ok (res, bool_decide (Z.of_nat (length res) = n))).

Lemma visit_collect c n idxs xs res : Forall2 (λ i e, nodeAt c i = Ok e) idxs xs → Z.of_nat (length res) < n →
  let all := foldl grow res xs in
  visit (collectBody c n) idxs res = Ok (take (Z.to_nat n) all, bool_decide (n <= Z.of_nat (length all))).
Proof.
  intros Hx. revert res. induction Hx as [|i e idxs xs Hi _ IH]; intros res Hlt; cbn [visit foldl].
  - rewrite take_ge by lia. by rewrite bool_decide_false by lia.
  - unfold collectBody at 1. rewrite Hi. cbn [result_bind]. fold (grow res e). pose proof (grow_length res e) as Hg.
    case_bool_decide as Hd; [|apply IH; lia]. destruct (foldl_grow_prefix xs (grow res e)) as [k ->].
    rewrite take_app_length' by lia. rewrite length_app, bool_decide_true by lia. done.
Qed.

(** More than [n] nodes already: the loop never breaks. *)
Lemma visit_collect_over c n idxs xs res : Forall2 (λ i e, nodeAt c i = Ok e) idxs xs → n < Z.of_nat (length res) →
  visit (collectBody c n) idxs res = Ok (foldl grow res xs, false).
Proof.
  intros Hx. revert res. induction Hx as [|i e idxs xs Hi _ IH]; intros res Hlt; cbn [visit foldl]; [done|].
  unfold collectBody at 1. rewrite Hi. cbn [result_bind]. fold (grow res e). pose proof (grow_length res e) as Hg.
  rewrite bool_decide_false by lia. apply IH. lia.
Qed.
(** Exactly [n] nodes already: the next node decides. *)
Lemma visit_collect_full c n idxs x xs res : Forall2 (λ i e, nodeAt c i = Ok e) idxs (x :: xs) → Z.of_nat (length res) = n →
  visit (collectBody c n) idxs res =
    if wanted x && negb (sliceContainsMember res x) then Ok (foldl grow res (x :: xs), false) else Ok (res, true).
Proof.
  intros (i & idxs' & Hi & Hx & ->)%Forall2_cons_inv_r Hn. cbn [visit foldl]. unfold collectBody at 1. rewrite Hi. cbn [result_bind].
  unfold grow at 2. destruct (_ && _); [|by rewrite bool_decide_true]. rewrite length_app. cbn [length].
  rewrite bool_decide_false by lia. apply visit_collect_over; [done|]. rewrite length_app. cbn. lia.
Qed.
End collect.

(** ** The neighbours *)

Section neighbors.
Context `{NodeEnv}.
Implicit Types (c : Consistent) (ms : gmap NodeID Node).

(** Twenty keys for each member. *)
Lemma ring_count known c ms : apart known → allKnown known ms → ringOf c ms →
  length (cs_sortedHashes c) = (ringSize * size ms)%nat.
Proof.
  intros Ha Hk Hr. rewrite (wr_sorted _ (ro_wf _ _ Hr)), merge_sort_Permutation.
  assert ((map_to_list (cs_circle c)).*1 ≡ₚ (map_to_list ms).*1 ≫= replicas c) as ->.
  { assert (∀ id i j, is_Some (ms !! id) → (i < ringSize)%nat → (j < ringSize)%nat → ringKey id i = ringKey id j → i = j) as Hinj.
    { intros id i j Hid Hi Hj Heq. by destruct (Ha id id i j (Hk _ Hid) (Hk _ Hid) Hi Hj Heq). }
    assert (∀ id, id ∈ (map_to_list ms).*1 ↔ is_Some (ms !! id)) as Hdom.
    { intros id. rewrite list_elem_of_fmap. split; [intros ([id' n] & -> & Hn%elem_of_map_to_list); by exists n|].
      intros [n Hn]. exists (id, n). split; [done|]. by apply elem_of_map_to_list. }
    apply NoDup_Permutation; [apply NoDup_fst_map_to_list| |].
    - apply NoDup_bind; [|..|apply NoDup_fst_map_to_list].
      + intros id id' h Hid%Hdom Hid'%Hdom (i & Hi & ->)%(elem_of_replicas _ _ _ (ro_size _ _ Hr))
          (j & Hj & Heq)%(elem_of_replicas _ _ _ (ro_size _ _ Hr)). by destruct (Ha id id' i j (Hk _ Hid) (Hk _ Hid') Hi Hj Heq).
      + intros id Hid%Hdom. unfold replicas. rewrite (ro_size _ _ Hr). apply NoDup_fmap_2_strong; [|apply NoDup_seq].
        intros i j Hi%elem_of_seq Hj%elem_of_seq. apply Hinj; [done|lia..].
    - intros h. rewrite list_elem_of_fmap, list_elem_of_bind. split.
      + intros ([h' n] & -> & Hin%elem_of_map_to_list). apply (ro_node _ _ Hr) in Hin as (id & i & Hms & Hi & ->). exists id.
        split; [apply (elem_of_replicas _ _ _ (ro_size _ _ Hr)); by exists i|]. apply Hdom. by exists n.
      + intros (id & (i & Hi & ->)%(elem_of_replicas _ _ _ (ro_size _ _ Hr)) & [n Hn]%Hdom). exists (ringKey id i, n).
        split; [done|]. apply elem_of_map_to_list, (ro_node _ _ Hr). by exists id, i. }
  rewrite <- (length_map_to_list ms). unfold replicas. rewrite (ro_size _ _ Hr).
  induction (map_to_list ms) as [|[id n] l IH]; [done|]. cbn [fmap list_fmap mbind list_bind length fst].
  rewrite length_app, length_fmap, length_seq, IH. lia.
Qed.

Lemma wfRing_ringNodes c ms e : ringOf c ms → e ∈ ringNodes c ↔ ∃ id, ms !! id = Some e.
Proof.
  intros Hr. unfold ringNodes. rewrite list_elem_of_omap. split.
  - intros (h & _ & (id & i & Hms & _)%(ro_node _ _ Hr)). by exists id.
  - intros [id Hms]. exists (ringKey id 0). assert (cs_circle c !! ringKey id 0 = Some e) as Hc.
    { apply (ro_node _ _ Hr). exists id, 0%nat. split_and!; [done|unfold ringSize; lia|done]. }
    split; [|done]. apply (wr_elem c _ (ro_wf _ _ Hr)). by exists e.
Qed.

(** The ring from an index on. *)
Definition rotate (i : nat) (l : list Node) : list Node := drop i l ++ take i l.

Lemma Forall2_seq c i k : wfRing c → (i + k <= length (ringNodes c))%nat →
  Forall2 (λ j e, nodeAt c j = Ok e) (seq i k) (take k (drop i (ringNodes c))).
Proof.
  intros Hwf. revert i. induction k as [|k IH]; intros i Hle; [constructor|].
  destruct (lookup_lt_is_Some_2 (ringNodes c) i ltac:(lia)) as [e He]. rewrite (drop_S _ _ _ He). cbn.
  constructor; [by apply (ringNodes_at c i e Hwf)|]. apply IH. lia.
Qed.

Lemma search_lt c key : (search c key < length (cs_sortedHashes c) ∨ search c key = 0)%nat.
Proof. unfold search. case_decide; [by right|left; lia]. Qed.

Definition wantedRole (roles : list ServerRole) (e : Node) : bool := bool_decide (roles = []) || Roles_Contains roles (nd_Role e).

(** The distinct wanted nodes are the wanted members. *)
Lemma distinctNodes_members c ms roles i e : ringOf c ms →
  e ∈ distinctNodes (wantedRole roles) (rotate i (ringNodes c)) ↔ (∃ id, ms !! id = Some e) ∧ wantedRole roles e = true.
Proof.
  intros Hr. assert (∀ x, x ∈ rotate i (ringNodes c) ↔ ∃ id, ms !! id = Some x) as Hrot.
  { intros x. rewrite <- (wfRing_ringNodes c ms x Hr). unfold rotate.
    rewrite <- (take_drop i (ringNodes c)) at 3. rewrite !elem_of_app. tauto. }
  split.
  - intros [He Hw]%distinctNodes_spec. split; [by apply Hrot|done].
  - intros [[id Hms] Hw]. assert (nd_ID e ∈ nd_ID <$> distinctNodes (wantedRole roles) (rotate i (ringNodes c))) as Hin.
    { apply contains_elem, foldl_grow_contains; [|done]. apply Hrot. by exists id. }
    apply list_elem_of_fmap in Hin as (m & Hid & Hm). pose proof (proj2 (distinctNodes_spec _ _) m Hm) as [Hm' _].
    apply Hrot in Hm' as [id' Hms']. pose proof (ro_id _ _ Hr _ _ Hms). pose proof (ro_id _ _ Hr _ _ Hms').
    assert (id' = id) as -> by congruence. assert (m = e) as <- by congruence. done.
Qed.

(** The walk from an index, by what one pass over the other keys gives. *)
Lemma walk_pass c wanted k start e res r b : wfRing c → ringNodes c !! start = Some e →
  (∀ idxs, Forall2 (λ j x, nodeAt c j = Ok x) idxs (drop (S start) (ringNodes c) ++ take start (ringNodes c)) →
    visit (collectBody wanted c k) idxs res = Ok (r, b)) →
  let len := length (cs_sortedHashes c) in
  (start ≠ 0%nat ∨ b = true → around len start (collectBody wanted c k) len (S start) res = Some (Ok r)) ∧
  (start = 0%nat → b = false → (∀ x, x ∈ ringNodes c → grow wanted r x = r) → Z.of_nat (length r) ≠ k →
    ∀ rounds, around len start (collectBody wanted c k) rounds (S start) res = None).
Proof.
  intros Hwf He Hv len. destruct (ringNodes_at c start e Hwf) as [Hlen _].
  pose proof (lookup_lt_Some _ _ _ He) as Hs. rewrite Hlen in Hs. fold len in Hs, Hlen.
  assert (Forall2 (λ j x, nodeAt c j = Ok x) (seq (S start) (len - S start)) (drop (S start) (ringNodes c))) as Hf1.
  { rewrite <- (take_ge (drop (S start) (ringNodes c)) (len - S start)) by (rewrite length_drop; lia).
    apply Forall2_seq; [done|]. lia. }
  assert (Forall2 (λ j x, nodeAt c j = Ok x) (seq 0 start) (take start (ringNodes c))) as Hf2.
  { pose proof (Forall2_seq c 0 start Hwf ltac:(lia)) as Hf. by rewrite drop_0 in Hf. }
  specialize (Hv _ (Forall2_app Hf1 Hf2)). destruct (decide (start = 0%nat)) as [->|Hne].
  - rewrite app_nil_r in Hv. split.
    + intros [?| ->]; [done|]. apply (around_first (collectBody wanted c k)); [lia|lia|done].
    + intros _ -> Hsat Hk rounds. apply (around_forever _ _ _ _ r); [lia|exact Hv|]. intros j Hj.
      destruct (lookup_lt_is_Some_2 (ringNodes c) j ltac:(lia)) as [x Hx]. unfold collectBody.
      rewrite (proj2 (ringNodes_at c j x Hwf) Hx). cbn [result_bind]. fold (grow wanted r x).
      rewrite Hsat by (by eapply list_elem_of_lookup_2). by rewrite bool_decide_false by done.
  - split; [|done]. intros _. rewrite (around_once (collectBody wanted c k)) by lia. by rewrite Hv.
Qed.

(** One pass from the node of the name on, and the nodes of the whole ring. *)
Lemma distinct_from c wanted start e : ringNodes c !! start = Some e →
  distinctNodes wanted (rotate start (ringNodes c)) =
    foldl (grow wanted) (if wanted e then [e] else []) (drop (S start) (ringNodes c) ++ take start (ringNodes c)).
Proof.
  intros He. unfold distinctNodes, rotate. rewrite (drop_S _ _ _ He). cbn [app foldl]. unfold grow at 2. cbn. by rewrite andb_true_r.
Qed.
Lemma distinct_saturated c wanted start x : x ∈ ringNodes c →
  grow wanted (distinctNodes wanted (rotate start (ringNodes c))) x = distinctNodes wanted (rotate start (ringNodes c)).
Proof.
  intros Hx. apply foldl_grow_saturated. unfold rotate. rewrite <- (take_drop start (ringNodes c)) in Hx.
  apply elem_of_app in Hx as [?|?]; apply elem_of_app; [by right|by left].
Qed.

(** Fewer nodes than asked for at the start. *)
Lemma neighbors_walk c roles k start e : wfRing c → ringNodes c !! start = Some e →
  let wanted := wantedRole roles in let all := distinctNodes wanted (rotate start (ringNodes c)) in
  let res := if wanted e then [e] else [] in let len := length (cs_sortedHashes c) in
  Z.of_nat (length res) < k →
  (start ≠ 0%nat ∨ k <= Z.of_nat (length all) →
    around len start (collectBody wanted c k) len (S start) res = Some (Ok (take (Z.to_nat k) all))) ∧
  (start = 0%nat → Z.of_nat (length all) < k → ∀ rounds, around len start (collectBody wanted c k) rounds (S start) res = None).
Proof.
  intros Hwf He wanted all res len Hlt.
  destruct (walk_pass c wanted k start e res (take (Z.to_nat k) all) (bool_decide (k <= Z.of_nat (length all))) Hwf He) as [Hsome Hnone].
  { intros idxs Hidx. rewrite (visit_collect wanted c k idxs _ res Hidx Hlt). unfold all. by rewrite (distinct_from c wanted start e He). }
  split.
  - intros [?|?]; apply Hsome; [by left|right; by apply bool_decide_true].
  - intros Hs Hk rounds. rewrite take_ge in Hnone by lia. apply Hnone; [done|by apply bool_decide_false; lia| |lia].
    intros x. apply distinct_saturated.
Qed.

(** One node of some roles is asked for and the nearest node is of them: the search
    looks at the next key before it stops, and does not stop when that key is of
    another such node. *)
Definition overshoots (roles : list ServerRole) (xs : list Node) : bool :=
  match xs with
  | e :: x :: _ => negb (bool_decide (roles = [])) && wantedRole roles e && wantedRole roles x && bool_decide (nd_ID x ≠ nd_ID e)
  | _ => false
  end.

Lemma one_walk c roles start e : wfRing c → ringNodes c !! start = Some e → (1 < length (ringNodes c))%nat →
  wantedRole roles e = true → roles ≠ [] →
  let wanted := wantedRole roles in let all := distinctNodes wanted (rotate start (ringNodes c)) in
  let over := overshoots roles (rotate start (ringNodes c)) in let len := length (cs_sortedHashes c) in
  (start ≠ 0%nat ∨ over = false →
    around len start (collectBody wanted c 1) len (S start) [e] = Some (Ok (if over then all else take 1 all))) ∧
  (start = 0%nat → over = true → ∀ rounds, around len start (collectBody wanted c 1) rounds (S start) [e] = None).
Proof.
  intros Hwf He Hlen Hw Hro wanted all over len.
  pose proof (distinct_from c wanted start e He) as Hall. fold all in Hall. unfold wanted in Hall at 2. rewrite Hw in Hall.
  set (ys := drop (S start) (ringNodes c) ++ take start (ringNodes c)) in Hall.
  assert (length ys = length (ringNodes c) - 1)%nat as Hys.
  { apply lookup_lt_Some in He. unfold ys. rewrite length_app, length_drop, length_take. lia. }
  destruct ys as [|x ys'] eqn:Hx; [cbn in Hys; lia|].
  assert (over = wanted x && negb (sliceContainsMember [e] x)) as Hover.
  { unfold over, rotate. rewrite (drop_S _ _ _ He). cbn [app]. fold ys. rewrite Hx. cbn [overshoots]. rewrite Hw, bool_decide_false by done.
    cbn [negb andb]. unfold wanted. f_equal. unfold sliceContainsMember. cbn. rewrite orb_false_r.
    repeat case_bool_decide; cbn; congruence. }
  destruct (walk_pass c wanted 1 start e [e] (if over then all else take 1 all) (negb over) Hwf He) as [Hsome Hnone].
  { fold ys. rewrite Hx. intros idxs Hidx. rewrite (visit_collect_full wanted c 1 idxs x ys' [e] Hidx eq_refl), <- Hover, Hall.
    destruct over; [done|]. destruct (foldl_grow_prefix wanted (x :: ys') [e]) as [l ->]. done. }
  split.
  - intros [?| Ho]; apply Hsome; [by left|right; by rewrite Ho].
  - intros Hs Ho rounds. rewrite Ho in Hnone. apply Hnone; [done|done|intros y; apply distinct_saturated|].
    rewrite Hall. cbn [foldl]. destruct (foldl_grow_prefix wanted ys' (grow wanted [e] x)) as [l ->].
    unfold grow. rewrite <- Hover, Ho. rewrite length_app. cbn. lia.
Qed.

(** Whatever it returns are members of the wanted roles; it panics only at a negative
    number. *)
Lemma GetNeighborsEx_members c ms rounds name n roles : ringOf c ms →
  match GetNeighborsEx rounds name n roles c with
  | Some (Ok l) => ∀ e, e ∈ l → (∃ id, ms !! id = Some e) ∧ wantedRole roles e = true
  | Some Panic => n < 0
  | _ => True
  end.
Proof.
  intros Hr. unfold GetNeighborsEx. case_decide as Hz; [done|]. rewrite (ro_size _ _ Hr). rewrite decide_False by done.
  set (k := if decide _ then _ else n). case_decide as Hk; [unfold k in Hk; case_decide; lia|].
  assert (∀ i, (i < length (cs_sortedHashes c))%nat → ∃ e, nodeAt c i = Ok e ∧ ∃ id, ms !! id = Some e) as Hat.
  { intros i Hi. destruct (lookup_lt_is_Some_2 (ringNodes c) i) as [e He].
    { by rewrite (proj1 (ringNodes_at c i (MkNode "" 0 "" "" None zeroUint256) (ro_wf _ _ Hr))). }
    exists e. split; [by apply (ringNodes_at c i e (ro_wf _ _ Hr))|]. apply (wfRing_ringNodes c ms e Hr). by eapply list_elem_of_lookup_2. }
  destruct (search_next c (hashKey name) (ro_wf _ _ Hr) (hashKey_valid _) Hz) as (h & Hh & _).
  apply lookup_lt_Some in Hh. destruct (Hat _ Hh) as (e & -> & He). fold (wantedRole roles e).
  set (I := λ l : list Node, ∀ x, x ∈ l → (∃ id, ms !! id = Some x) ∧ wantedRole roles x = true).
  assert (I (if wantedRole roles e then [e] else [])) as HI.
  { intros x. destruct (wantedRole roles e) eqn:Hw; [|by intros []%not_elem_of_nil]. by intros ->%list_elem_of_singleton. }
  destruct (_ && _); [exact HI|].
  assert (∀ j acc, (j < length (cs_sortedHashes c))%nat → I acc → ∃ acc' b, collectBody (wantedRole roles) c k j acc = Ok (acc', b) ∧ I acc') as Hbody.
  { intros j acc Hj HIa. unfold collectBody. destruct (Hat j Hj) as (x & -> & Hx). cbn [result_bind]. eexists _, _. split; [reflexivity|].
    destruct (wantedRole roles x) eqn:Hw; [|exact HIa]. destruct (negb _); [|exact HIa].
    intros y [Hy|Hy]%elem_of_app; [by apply HIa|]. by apply list_elem_of_singleton in Hy as ->. }
  pose proof (around_inv _ I _ (search c (hashKey name)) rounds (S (search c (hashKey name))) _ (Nat.le_lt_trans _ _ _ (Nat.le_0_l _) Hh) HI Hbody) as Hinv.
  revert Hinv. unfold collectBody, wantedRole. by destruct (around _ _ _ _ _ _) as [[]|].
Qed.

(** The search as a walk from the node of the name. *)
Lemma GetNeighborsEx_around known c ms rounds name n roles e : apart known → allKnown known ms → ringOf c ms →
  size (cs_circle c) ≠ 0%nat → nodeAt c (search c (hashKey name)) = Ok e → 1 <= n →
  let start := search c (hashKey name) in let k := Z.min n (Z.of_nat (size ms)) in
  let res := if wantedRole roles e then [e] else [] in
  GetNeighborsEx rounds name n roles c =
    if bool_decide (roles = []) && bool_decide (Z.of_nat (length res) = k) then Some (Ok res)
    else around (length (cs_sortedHashes c)) start (collectBody (wantedRole roles) c k) rounds (S start) res.
Proof.
  intros Ha Hall Hr Hcirc Hat Hn start k res. pose proof (ring_count known c ms Ha Hall Hr) as Hcount.
  unfold GetNeighborsEx. rewrite decide_False by done. rewrite (ro_size _ _ Hr). rewrite decide_False by (unfold ringSize; lia).
  rewrite Hcount, Nat.mul_comm, Nat.div_mul by (unfold ringSize; lia).
  assert ((if decide (Z.of_nat (size ms) < n) then Z.of_nat (size ms) else n) = k) as -> by (unfold k; case_decide; lia).
  rewrite decide_False by (unfold k; lia). fold start. fold start in Hat. rewrite Hat. reflexivity.
Qed.

(** The node the search starts at. *)
Lemma start_node known c ms name : apart known → allKnown known ms → ringOf c ms → ms ≠ ∅ →
  let start := search c (hashKey name) in ∃ e, ringNodes c !! start = Some e ∧ nodeAt c start = Ok e ∧
    size (cs_circle c) ≠ 0%nat ∧ (1 < length (ringNodes c))%nat.
Proof.
  intros Ha Hall Hr Hne start. pose proof (ring_count known c ms Ha Hall Hr) as Hcount.
  assert (size ms ≠ 0%nat) as Hsize by (by rewrite map_size_non_empty_iff).
  assert (length (ringNodes c) = length (cs_sortedHashes c)) as Hlen.
  { apply (ringNodes_at c 0 (MkNode "" 0 "" "" None zeroUint256) (ro_wf _ _ Hr)). }
  destruct (lookup_lt_is_Some_2 (ringNodes c) start) as [e He].
  { rewrite Hlen. destruct (search_lt c (hashKey name)) as [?|Hz]; [done|]. unfold start. rewrite Hz. unfold ringSize in Hcount. lia. }
  exists e. split_and!; [done|by apply (ringNodes_at c start e (ro_wf _ _ Hr))|by rewrite (ring_empty c ms Hr)|].
  rewrite Hlen, Hcount. unfold ringSize. lia.
Qed.

Lemma over_first c roles k start e : ringNodes c !! start = Some e →
  Z.of_nat (length (if wantedRole roles e then [e] else [])) < k →
  bool_decide (k = 1) && overshoots roles (rotate start (ringNodes c)) = false.
Proof.
  intros He Hlt. destruct (decide (k = 1)) as [->|Hk]; [|by rewrite bool_decide_false]. rewrite bool_decide_true by done.
  unfold rotate. rewrite (drop_S _ _ _ He). cbn [app overshoots]. destruct (_ ++ _); [done|].
  destruct (wantedRole roles e); [cbn in Hlt; lia|]. by rewrite andb_false_r.
Qed.

(** Exactly one node at the start, and one is asked for. *)
Lemma one_neighbor c roles start e rounds : wfRing c → ringNodes c !! start = Some e → (1 < length (ringNodes c))%nat →
  wantedRole roles e = true →
  let all := distinctNodes (wantedRole roles) (rotate start (ringNodes c)) in
  let over := overshoots roles (rotate start (ringNodes c)) in
  let len := length (cs_sortedHashes c) in
  let result := if bool_decide (roles = []) && bool_decide (Z.of_nat (length [e]) = 1) then Some (Ok [e])
    else around len start (collectBody (wantedRole roles) c 1) rounds (S start) [e] in
  (start ≠ 0%nat ∨ over = false → rounds = len → result = Some (Ok (if over then all else take 1 all))) ∧
  (start = 0%nat → over = true → result = None).
Proof.
  intros Hwf He Hlen Hw all over len result. unfold result. destruct (decide (roles = [])) as [Hro|Hro].
  - assert (over = false) as Ho.
    { unfold over, overshoots. destruct (rotate _ _) as [|? [|]]; [done..|]. by rewrite bool_decide_true. }
    rewrite Ho, bool_decide_true by done. split; [|done]. intros _ _. unfold all. rewrite (distinct_from c _ start e He), Hw.
    destruct (foldl_grow_prefix (wantedRole roles) (drop (S start) (ringNodes c) ++ take start (ringNodes c)) [e]) as [l ->]. done.
  - rewrite bool_decide_false by done. destruct (one_walk c roles start e Hwf He Hlen Hw Hro) as [Hsome Hnone].
    split; [intros Hc ->; by apply Hsome|intros Hs Ho; by apply Hnone].
Qed.

(** C39: [GetNeighborsEx].  Let [all] be the members of the wanted roles, each once, in
    the order of their first keys from the hash of the name on, going round, [k] the
    smaller of the number asked for, at least one, and the number of members, and
    [over] whether [k] is one and the first two keys from the hash on are of two
    different members that both have one of the given roles.  Unless the name is
    hashed before the first or after the last key it returns: the first [k] of
    [all], or all of [all] when [over].  From there it returns the first [k] exactly
    when [all] has as many and not [over]; otherwise it never returns. *)
Theorem neighbors_spec known ops name n roles : apart known → opsKnown known ops →
  let c := runRing ops emptyRing in let ms := runMembers ops ∅ in ms ≠ ∅ → 1 <= n →
  let start := search c (hashKey name) in
  let all := distinctNodes (wantedRole roles) (rotate start (ringNodes c)) in
  let k := Z.min n (Z.of_nat (size ms)) in
  let over := bool_decide (k = 1) && overshoots roles (rotate start (ringNodes c)) in
  (start ≠ 0%nat ∨ over = false ∧ k <= Z.of_nat (length all) →
    GetNeighborsEx (length (cs_sortedHashes c)) name n roles c = Some (Ok (if over then all else take (Z.to_nat k) all))) ∧
  (start = 0%nat → over = true ∨ Z.of_nat (length all) < k → ∀ rounds, GetNeighborsEx rounds name n roles c = None) ∧
  NoDup (nd_ID <$> all) ∧ (∀ e, e ∈ all ↔ (∃ id, ms !! id = Some e) ∧ wantedRole roles e = true).
Proof.
  intros Ha Hko c ms Hne Hn start all k over.
  destruct (runRing_members known ops emptyRing ∅ Ha Hko ringOf_empty (allKnown_empty _)) as [Hr Hall]. fold c ms in Hr, Hall.
  destruct (start_node known c ms name Ha Hall Hr Hne) as (e & He & Hat & Hcirc & Hlen). fold start in He, Hat.
  pose proof (λ rounds, GetNeighborsEx_around known c ms rounds name n roles e Ha Hall Hr Hcirc Hat Hn) as Hex. cbv zeta in Hex. fold k in Hex.
  assert (1 <= k) as Hk1 by (apply map_size_non_empty_iff in Hne; unfold k; lia).
  split; [|split; [|split; [apply distinctNodes_spec|intros x; by apply distinctNodes_members]]].
  all: destruct (decide (Z.of_nat (length (if wantedRole roles e then [e] else [])) < k)) as [Hlt|Hge].
  - assert (over = false) as -> by (by apply (over_first c roles k start e)).
    intros Hcase. rewrite Hex, (bool_decide_false (_ = k)), andb_false_r by lia.
    apply (neighbors_walk c roles k start e (ro_wf _ _ Hr) He Hlt). tauto.
  - destruct (wantedRole roles e) eqn:Hw; [|cbn in Hge; lia]. assert (k = 1) as Hk by (cbn in Hge; lia).
    unfold over. rewrite Hex, Hk. fold start. intros Hcase.
    apply (one_neighbor c roles start e _ (ro_wf _ _ Hr) He Hlen Hw); [|done]. revert Hcase. cbn. tauto.
  - intros Hz [Hov|Hlt'] rounds; [unfold over in Hov; rewrite (over_first c roles k start e He Hlt) in Hov; done|].
    rewrite Hex, (bool_decide_false (_ = k)), andb_false_r by lia.
    by apply (neighbors_walk c roles k start e (ro_wf _ _ Hr) He Hlt).
  - destruct (wantedRole roles e) eqn:Hw; [|cbn in Hge; lia]. assert (k = 1) as Hk by (cbn in Hge; lia).
    intros Hz Hcase rounds. rewrite Hex, Hk. apply (one_neighbor c roles start e _ (ro_wf _ _ Hr) He Hlen Hw); [done|].
    destruct Hcase as [Hov|Hlt']; [by apply andb_true_iff in Hov as [_ ?]|]. exfalso. revert Hlt'. unfold all.
    rewrite (distinct_from c _ start e He), Hw, Hk.
    destruct (foldl_grow_prefix (wantedRole roles) (drop (S start) (ringNodes c) ++ take start (ringNodes c)) [e]) as [l ->]. cbn. lia.
Qed.
End neighbors.
