(* ===== verification/KeyStore.v ===== *)
(** * The public key store

    Models [src/crypto/kms/pubkeystore.go]: a table of nodes by id, checked on the
    way in, and [KMSStorage] of [src/consistent/persistence.go] as the [Persistence]
    of a hash ring.  The SQL statements of the table are operations that may fail
    and then leave it as it is.  The wire code of a node has its id in the binary form
    of [NodeID.MarshalBinary]; the code of the fields is a parameter. *)
From S2P Require Import Prelude Hash Types Pow NodeInfo.
From Stdlib Require Import String ZArith Lia.
From stdpp Require Import base list gmap strings.
Local Open Scope Z_scope.

Inductive kerror :=
| ErrPKSNotInitialized | ErrNilNode | ErrKeyNotFound | ErrNodeIDKeyNonceNotMatch
| KWrap (e : kerror) | KNew (msg : string).

(** The statements on the table [kms]: [INSERT OR REPLACE], [DELETE] by id and of
    all rows, [SELECT] by id and of all ids. *)
Class KmsTable (D : Type) := {
  kt_Set : string → list Z → D → option kerror * D;
  kt_Delete : string → D → option kerror * D;
  kt_DeleteAll : D → option kerror * D;
  kt_Get : D → string → GoResult kerror (option (list Z));
  kt_IDs : D → GoResult kerror (list string);
  kt_map : D → gmap string (list Z);
  kt_Set_spec : ∀ d k v r d', kt_Set k v d = (r, d') → kt_map d' = match r with None => <[k := v]> (kt_map d) | Some _ => kt_map d end;
  kt_Delete_spec : ∀ d k r d', kt_Delete k d = (r, d') → kt_map d' = match r with None => delete k (kt_map d) | Some _ => kt_map d end;
  kt_DeleteAll_spec : ∀ d r d', kt_DeleteAll d = (r, d') → kt_map d' = match r with None => ∅ | Some _ => kt_map d end;
  kt_Get_spec : ∀ d k o, kt_Get d k = Ok o → kt_map d !! k = o;
  kt_Get_total : ∀ d k, kt_Get d k ≠ Panic;
  kt_IDs_spec : ∀ d l, kt_IDs d = Ok l → NoDup l ∧ ∀ k, k ∈ l ↔ is_Some (kt_map d !! k);
  kt_IDs_total : ∀ d, kt_IDs d ≠ Panic;
}.

(** The fields of a node on the wire, with the bytes of its id. *)
Definition NodeWire `{Env} : Type := list Z * ServerRole * string * string * option PublicKey * Uint256.

Section node_wire.
Context `{Env} `{!MsgPack NodeWire}.
Implicit Types (n : Node).

(** The codec calls the marshaler of the id, and gives back its panic as an error. *)
Definition EncodeNode n : option (list Z) :=
  match NodeID_MarshalBinary (nd_ID n) with
  | Ok b => EncodeMsgPack ((b, nd_Role n, nd_Addr n, nd_DirectAddr n, nd_PublicKey n, nd_Nonce n) : NodeWire)
  | _ => None
  end.
Definition DecodeNode (enc : list Z) : option Node :=
  match (DecodeMsgPack enc : option NodeWire) with
  | None => None
  | Some (b, role, addr, direct, key, nonce) =>
      match NodeID_UnmarshalBinary b with Ok id => Some (MkNode id role addr direct key nonce) | _ => None end
  end.

(** What comes back: the node with its id printed anew, in lower case and with all of
    its digits. *)
Definition wireNode n : Node :=
  match ToRawNodeID (nd_ID n) with
  | Some h => MkNode (Hash_String h) (nd_Role n) (nd_Addr n) (nd_DirectAddr n) (nd_PublicKey n) (nd_Nonce n)
  | None => n
  end.

Lemma UnmarshalBinary_hash h : valid_hash h → NodeID_UnmarshalBinary h = Ok (Hash_String h).
Proof.
  intros [Hl _]. unfold NodeID_UnmarshalBinary, NewHash, Hash_SetBytes. rewrite decide_False by (rewrite Hl; done). by rewrite decide_True.
Qed.
Lemma NewHashFromStr_hash s h : NewHashFromStr s = Ok h → valid_hash h.
Proof.
  unfold NewHashFromStr. intros Hs. destruct (Decode_valid s) as [(h' & Hd & Hv & _)|[[Hd _]|Hd]]; rewrite Hd in Hs; [|discriminate..].
  injection Hs as <-. exact Hv.
Qed.
Lemma Decode_EncodeNode n enc : EncodeNode n = Some enc → DecodeNode enc = Some (wireNode n).
Proof.
  unfold EncodeNode, DecodeNode, wireNode, NodeID_MarshalBinary, ToRawNodeID.
  destruct (NewHashFromStr (nd_ID n)) as [h| |] eqn:Hd; [|discriminate..]. intros Henc%Decode_Encode. rewrite Henc.
  cbv beta iota. rewrite (UnmarshalBinary_hash h (NewHashFromStr_hash _ _ Hd)). reflexivity.
Qed.

(** A node with a printed id, as a mined one, comes back as it is. *)
Lemma wireNode_printed n h : valid_hash h → nd_ID n = Hash_String h → wireNode n = n.
Proof.
  intros Hv Hid. unfold wireNode, ToRawNodeID. assert (NewHashFromStr (nd_ID n) = Ok h) as ->.
  { rewrite Hid. exact (Decode_Hash_String h Hv). }
  rewrite <- Hid. by destruct n.
Qed.
(** The id still names the same hash, so the identity stays valid. *)
Lemma wireNode_identity n : validIdentity n → validIdentity (wireNode n).
Proof.
  unfold validIdentity, wireNode, ToRawNodeID. destruct (NewHashFromStr (nd_ID n)) as [h| |] eqn:Hd; [|by rewrite Hd..].
  cbn [nd_ID nd_Nonce nd_PublicKey]. unfold NewHashFromStr at 1. by rewrite (Decode_Hash_String h (NewHashFromStr_hash _ _ Hd)).
Qed.
End node_wire.

Section key_store.
Context `{Env} {D : Type} `{!KmsTable D} `{!MsgPack NodeWire}.
Implicit Types (node : Node) (id : NodeID).

(** [pks]: the open table, if any. *)
Abbreviation KM := (GoM (option D) kerror).

Definition wrapK {A} (m : KM A) : KM A := res ← attempt m; match res with inl e => throw (KWrap e) | inr a => mret a end.
Definition openTable : KM D := pks ← getS; match pks with Some d => mret d | None => throw ErrPKSNotInitialized end.
(** A statement on the open table. *)
Definition execute (f : D → option kerror * D) (d : D) : KM unit :=
  let '(e, d) := f d in putS (Some d);; match e with Some e => throw (KWrap e) | None => mret tt end.

Definition GetNodeInfo id : KM Node :=
  d ← openTable;
  wrapK (o ← liftR (kt_Get d id);
    match o with
    | None => throw ErrKeyNotFound
    | Some raw => match DecodeNode raw with Some n => mret n | None => throw (KNew "decode") end
    end).
Definition GetPublicKey id : KM (option PublicKey) := node ← GetNodeInfo id; mret (nd_PublicKey node).
Definition GetAllNodeID : KM (list NodeID) := d ← openTable; wrapK (liftR (kt_IDs d)).

Definition setNode node : KM unit :=
  d ← openTable;
  match EncodeNode node with
  | None => throw (KWrap (KNew "marshal"))
  | Some buf => execute (kt_Set (nd_ID node) buf) d
  end.
(** [Unittest] is off. *)
Definition SetNode (nodeInfo : option Node) : KM unit :=
  match nodeInfo with
  | None => throw ErrNilNode
  | Some node =>
      if negb (IsIDPubNonceValid (ToRawNodeID (nd_ID node)) (Some (nd_Nonce node)) (nd_PublicKey node))
      then throw ErrNodeIDKeyNonceNotMatch else setNode node
  end.
Definition SetPublicKey id (nonce : Uint256) (key : option PublicKey) : KM unit :=
  SetNode (Some (MkNode id Role_Unknown EmptyString EmptyString key nonce)).
Definition DelNode id : KM unit := d ← openTable; execute (kt_Delete id) d.
Definition ResetBucket : KM unit :=
  pks ← getS; match pks with Some d => execute kt_DeleteAll d | None => mret tt end.
Definition ClosePublicKeyStore : KM unit := putS None.

Fixpoint setNodes (nodes : list Node) : KM unit :=
  match nodes with [] => mret tt | n :: nodes => wrapK (setNode n);; setNodes nodes end.

(** [opened] is the table of the file, or an error; without a valid block producer
    in the configuration the process ends. *)
Definition InitPublicKeyStore (bp : option NodeID) (opened : GoResult kerror D) (initNodes : list Node) : KM unit :=
  ClosePublicKeyStore;;
  match bp ≫= ToRawNodeID with
  | None => panic
  | Some _ => d ← liftR opened; putS (Some d);; setNodes initNodes
  end.

(** [KMSStorage.GetAllNodeInfo]: nodes that cannot be read are left out. *)
Fixpoint readNodes (ids : list NodeID) : KM (list Node) :=
  match ids with
  | [] => mret []
  | id :: ids =>
      res ← attempt (GetNodeInfo id); nodes ← readNodes ids;
      mret (match res with inr n => n :: nodes | inl _ => nodes end)
  end.
Definition GetAllNodeInfo : KM (list Node) := ids ← GetAllNodeID; readNodes ids.
End key_store.

(** ** The interface of a ring to its storage *)

(** [consistent.Persistence] *)
Class Persistence `{Env} (P : Type) := {
  ps_SetNode : Node → GoM P kerror unit;
  ps_DelNode : NodeID → GoM P kerror unit;
  ps_Reset : GoM P kerror unit;
  ps_GetAllNodeInfo : GoM P kerror (list Node);
  ps_isKMSStorage : bool;
}.

(** What a ring relies on: a map of nodes by the id they were given with, a check of
    the nodes, and the form in which they are stored. *)
Class PersistenceLaws `{Env} (P : Type) `{!Persistence P} := {
  ps_nodes : P → gmap NodeID Node;
  ps_accepts : Node → Prop;
  ps_stored : Node → Node;
  ps_SetNode_spec : ∀ n p r p', ps_SetNode n p = (r, p') →
    match r with
    | Ok _ => ps_accepts n ∧ ps_nodes p' = <[nd_ID n := ps_stored n]> (ps_nodes p)
    | Err _ => ps_nodes p' = ps_nodes p
    | Panic => False
    end;
  ps_DelNode_spec : ∀ id p r p', ps_DelNode id p = (r, p') →
    match r with Ok _ => ps_nodes p' = delete id (ps_nodes p) | Err _ => ps_nodes p' = ps_nodes p | Panic => False end;
  ps_Reset_spec : ∀ p r p', ps_Reset p = (r, p') →
    match r with Ok _ => ps_nodes p' = ∅ | Err _ => ps_nodes p' = ps_nodes p | Panic => False end;
  ps_GetAllNodeInfo_spec : ∀ p r p', ps_GetAllNodeInfo p = (r, p') → p' = p ∧
    match r with
    | Ok l => ∀ n, n ∈ l → ∃ id, ps_nodes p !! id = Some n
    | Err _ => True
    | Panic => False
    end;
}.

(** ** KMSStorage *)

Section kms_storage.
Context `{Env} {D : Type} `{!KmsTable D} `{!MsgPack NodeWire}.
Implicit Types (p : option D) (node : Node) (id : NodeID).

#[export] Instance KMSStorage : Persistence (option D) := {|
  ps_SetNode := λ n, SetNode (Some n);
  ps_DelNode := DelNode;
  ps_Reset := ResetBucket;
  ps_GetAllNodeInfo := GetAllNodeInfo;
  ps_isKMSStorage := true;
|}.

(** The nodes that can be decoded. *)
Definition storedNodes p : gmap NodeID Node :=
  match p with Some d => omap DecodeNode (kt_map d) | None => ∅ end.

Lemma setNode_spec n p r p' : setNode n p = (r, p') →
  match r with
  | Ok _ => storedNodes p' = <[nd_ID n := wireNode n]> (storedNodes p)
  | Err _ => storedNodes p' = storedNodes p
  | Panic => False
  end.
Proof.
  unfold setNode, openTable. go_unfold. destruct p as [d|]; [|by intros [= <- <-]]. destruct (EncodeNode n) as [buf|] eqn:Henc; [|by intros [= <- <-]].
  unfold execute. destruct (kt_Set _ _ d) as [e d'] eqn:Hset. go_unfold. apply kt_Set_spec in Hset.
  destruct e as [e|]; intros [= <- <-]; cbn [storedNodes]; rewrite Hset; [done|].
  apply omap_insert_Some. by apply Decode_EncodeNode.
Qed.

Lemma SetNode_spec n p r p' : SetNode (Some n) p = (r, p') →
  match r with
  | Ok _ => validIdentity n ∧ storedNodes p' = <[nd_ID n := wireNode n]> (storedNodes p)
  | Err _ => storedNodes p' = storedNodes p
  | Panic => False
  end.
Proof.
  unfold SetNode, validIdentity. destruct (IsIDPubNonceValid _ _ _) eqn:Hv; [|by intros [= <- <-]]. cbn [negb].
  intros Hset%setNode_spec. by destruct r.
Qed.

(** The nodes put in at start. *)
Lemma setNodes_spec nodes p r p' : setNodes nodes p = (r, p') → r ≠ Panic ∧
  ∀ id n, storedNodes p' !! id = Some n → storedNodes p !! id = Some n ∨ ∃ m, m ∈ nodes ∧ n = wireNode m.
Proof.
  revert p. induction nodes as [|n nodes IH]; intros p; cbn [setNodes]; [intros [= <- <-]; auto|].
  unfold wrapK. go_unfold. destruct (setNode n p) as [r1 p1] eqn:Hset. intros Hr.
  apply setNode_spec in Hset. destruct r1 as [[]|e|]; [|injection Hr as <- <-; rewrite Hset; auto|done].
  apply IH in Hr as (Hnp & Hin). split; [done|]. intros id m [Hm|(m' & Hm & ->)]%Hin; [|right; exists m'; split; [by right|done]].
  rewrite Hset in Hm. destruct (decide (nd_ID n = id)) as [<-|]; [|rewrite lookup_insert_ne in Hm by done; by left].
  rewrite lookup_insert_eq in Hm. injection Hm as <-. right. exists n. split; [by left|done].
Qed.

Lemma DelNode_spec id p r p' : DelNode id p = (r, p') →
  match r with Ok _ => storedNodes p' = delete id (storedNodes p) | Err _ => storedNodes p' = storedNodes p | Panic => False end.
Proof.
  unfold DelNode, openTable. go_unfold. destruct p as [d|]; [|by intros [= <- <-]].
  unfold execute. destruct (kt_Delete _ d) as [e d'] eqn:Hdel. go_unfold. apply kt_Delete_spec in Hdel.
  destruct e as [e|]; intros [= <- <-]; cbn [storedNodes]; rewrite Hdel; [done|]. by rewrite omap_delete.
Qed.

Lemma ResetBucket_spec p r p' : ResetBucket p = (r, p') →
  match r with Ok _ => storedNodes p' = ∅ | Err _ => storedNodes p' = storedNodes p | Panic => False end.
Proof.
  unfold ResetBucket. go_unfold. destruct p as [d|]; [|by intros [= <- <-]].
  unfold execute. destruct (kt_DeleteAll d) as [e d'] eqn:Hdel. go_unfold. apply kt_DeleteAll_spec in Hdel.
  destruct e as [e|]; intros [= <- <-]; cbn [storedNodes]; rewrite Hdel; [done|]. by rewrite omap_empty.
Qed.

Lemma GetNodeInfo_spec id p : ∃ r, GetNodeInfo id p = (r, p) ∧ r ≠ Panic ∧ ∀ n, r = Ok n → storedNodes p !! id = Some n.
Proof.
  unfold GetNodeInfo, openTable, wrapK. go_unfold. destruct p as [d|]; [|by eexists]. go_unfold.
  destruct (kt_Get d id) as [[raw|]|e|] eqn:Hg; cbn; [|by eexists..|by destruct (kt_Get_total d id)].
  apply kt_Get_spec in Hg. destruct (DecodeNode raw) as [n|] eqn:Hdec; cbn; [|by eexists].
  eexists. split_and!; [done..|]. intros n' [= <-]. rewrite lookup_omap, Hg. exact Hdec.
Qed.

Lemma readNodes_spec ids p : ∃ l, readNodes ids p = (Ok l, p) ∧ ∀ n, n ∈ l → ∃ id, storedNodes p !! id = Some n.
Proof.
  induction ids as [|id ids IH]; cbn [readNodes].
  { exists []. split; [done|]. intros n []%not_elem_of_nil. }
  destruct IH as (l & Hl & Hin). destruct (GetNodeInfo_spec id p) as (r & Hr & Hnp & Hok). go_unfold. rewrite Hr.
  destruct r as [n|e|]; [|..|done]; rewrite Hl; [|by exists l].
  exists (n :: l). split; [done|]. intros m [->|Hm]%elem_of_cons; [|by apply Hin]. exists id. by apply Hok.
Qed.

Lemma GetAllNodeInfo_spec p r p' : GetAllNodeInfo p = (r, p') → p' = p ∧
  match r with
  | Ok l => ∀ n, n ∈ l → ∃ id, storedNodes p !! id = Some n
  | Err _ => True
  | Panic => False
  end.
Proof.
  unfold GetAllNodeInfo, GetAllNodeID, openTable, wrapK. go_unfold. destruct p as [d|]; [|by intros [= <- <-]]. go_unfold.
  destruct (kt_IDs d) as [ids|e|] eqn:Hids; cbn; [|by intros [= <- <-]|by destruct (kt_IDs_total d)].
  intros Hr. destruct (readNodes_spec ids (Some d)) as (l & Hl & Hin).
  rewrite Hl in Hr. injection Hr as <- <-. by split.
Qed.

#[export] Instance KMSStorage_laws : PersistenceLaws (option D) := {|
  ps_nodes := storedNodes;
  ps_accepts := validIdentity;
  ps_stored := wireNode;
  ps_SetNode_spec := SetNode_spec;
  ps_DelNode_spec := DelNode_spec;
  ps_Reset_spec := ResetBucket_spec;
  ps_GetAllNodeInfo_spec := GetAllNodeInfo_spec;
|}.
End kms_storage.
