(* ===== verification/Dht.v ===== *)
(** * The node directory

    Models the persistent ring of [src/consistent/consistent.go], the access rules
    of [src/route/acl.go], the resolver of [src/route/dns.go] and the DHT service of
    [src/route/service.go].  The ring is programmed against [Persistence].  The
    configuration, the DNS seed and the caller's authenticated id are parameters. *)
From S2P Require Import Prelude Hash Types Bytes Pow NodeInfo Consistent ConsistentProps KeyStore.
From Stdlib Require Import String ZArith Lia.
From stdpp Require Import base list gmap strings.
Local Open Scope Z_scope.

(** ** Access rules *)

Inductive RemoteFunc :=
| DHTPing | DHTFindNeighbor | DHTFindNode | DHTGSetNode | MetricUploadMetrics
| DBSQuery | DBSAck | DBSDeploy | DBSObserverFetchBlock | DBCCall
| SQLCAdviseNewBlock | SQLCFetchBlock | SQLCSignBilling | SQLCLaunchBilling
| MCCAdviseNewBlock | MCCAdviseTxBilling | MCCAdviseBillingRequest | MCCFetchBlock | MCCFetchBlockByCount
| MCCFetchLastIrreversibleBlock | MCCFetchTxBilling | MCCNextAccountNonce | MCCAddTx | MCCQuerySQLChainProfile
| MCCQueryAccountTokenBalance | MCCQueryTxState | MCCQueryAccountSQLChainProfiles | MaxRPCOffset.
#[export] Instance RemoteFunc_eq_dec : EqDecision RemoteFunc.
Proof. solve_decision. Defined.

(** [AnonymousNodeID.ToRawNodeID()]: 64 times the digit f. *)
Definition AnonymousRawNodeID : Hash := replicate HashSize 255.

(** ** The resolver *)

Section resolver.
Context `{Env}.

Record Resolver := MkResolver {
  rv_cache : gmap Hash string;
  rv_bpNodeIDs : gmap Hash string;
  rv_bpNodes : gmap Hash Node;
}.
Implicit Types (rv : Resolver).

Definition IsBPNodeID rv (id : option Hash) : bool :=
  match id with None => false | Some h => bool_decide (is_Some (rv_bpNodeIDs rv !! h)) end.

Definition setNodeAddrCache (id : option Hash) (addr : string) rv : GoResult kerror unit * Resolver :=
  match id with
  | None => (Err (KNew "nil node id"), rv)
  | Some h => (Ok tt, MkResolver (<[h := addr]> (rv_cache rv)) (rv_bpNodeIDs rv) (rv_bpNodes rv))
  end.
Definition GetNodeAddrCache rv (id : option Hash) : GoResult kerror string :=
  match id with
  | None => Err (KNew "nil node id")
  | Some h => match rv_cache rv !! h with Some a => Ok a | None => Err (KNew "unknown node id") end
  end.

(** A known node of the configuration. *)
Definition addKnown rv (n : Node) : Resolver :=
  match ToRawNodeID (nd_ID n) with
  | None => rv
  | Some raw =>
      let bpNodes := if decide (nd_Role n = Role_Leader ∨ nd_Role n = Role_Follower)
                     then <[raw := n]> (rv_bpNodes rv) else rv_bpNodes rv in
      MkResolver (<[raw := nd_Addr n]> (rv_cache rv)) (rv_bpNodeIDs rv) bpNodes
  end.
Definition addBP rv (n : Node) : Resolver :=
  match ToRawNodeID (nd_ID n) with
  | None => rv
  | Some raw => MkResolver (<[raw := nd_Addr n]> (rv_cache rv)) (<[raw := nd_Addr n]> (rv_bpNodeIDs rv)) (rv_bpNodes rv)
  end.

(** [initBPNodeIDs]: [seed] is the answer of the DNS seed, if one is configured; an
    error of it ends the initialisation.  The seed nodes for the configuration are
    returned, in the order of a Go map. *)
Definition initBPNodeIDs (seed : option (option (gmap Hash Node))) (known : list Node) rv : option (list Node) * Resolver :=
  let rv := MkResolver (rv_cache rv) ∅ (rv_bpNodes rv) in
  match seed with
  | Some None => (None, MkResolver (rv_cache rv) ∅ ∅)
  | _ =>
      let bpNodes := match seed with Some (Some bps) => bps | _ => rv_bpNodes rv end in
      let rv := foldl addKnown (MkResolver (rv_cache rv) ∅ bpNodes) known in
      let bps := (map_to_list (rv_bpNodes rv)).*2 in
      (Some (filter (λ n, is_Some (ToRawNodeID (nd_ID n))) bps), foldl addBP rv bps)
  end.
Definition newResolver : Resolver := MkResolver ∅ ∅ ∅.

(** [IsPermitted] *)
Definition IsPermitted rv (caller : option Hash) (funcName : RemoteFunc) : bool :=
  let anonymous := match caller with None => true | Some h => bool_decide (h = AnonymousRawNodeID) end in
  if anonymous && bool_decide (funcName ≠ DHTPing) then false
  else if IsBPNodeID rv caller then true
  else
    match funcName with
    | DHTPing | DHTFindNode | DHTFindNeighbor | MetricUploadMetrics => true
    | _ => false
    end.
End resolver.

(** ** The persistent ring and the service *)

Section service.
Context `{NodeEnv} {P : Type} `{!Persistence P}.
Implicit Types (node : Node) (id : NodeID).

Record DHTState := MkDHTState { dh_persist : P; dh_ring : Consistent }.
Abbreviation DM := (GoM DHTState kerror).

Definition onPersist {A} (m : GoM P kerror A) : DM A := λ s,
  let '(r, p) := m (dh_persist s) in (r, MkDHTState p (dh_ring s)).
Definition onRing (f : Consistent → Consistent) : DM unit := modifyS (λ s, MkDHTState (dh_persist s) (f (dh_ring s))).

(** [Consistent.Add], [Remove] and [Set] *)
Definition Ring_Add node : DM unit := onPersist (ps_SetNode node);; onRing (AddCache node).
Definition Ring_Remove id : DM unit := onPersist (ps_DelNode id);; onRing (RemoveCache id).
Fixpoint addAll (nodes : list Node) : DM unit :=
  match nodes with [] => mret tt | n :: nodes => _ ← attempt (Ring_Add n); addAll nodes end.
Definition Ring_Set (nodes : list Node) : DM unit := onPersist ps_Reset;; onRing ResetCache;; addAll nodes.

(** [InitConsistent]: [init] is [Persistence.Init] with the path and the seed nodes. *)
Definition InitConsistent (init : GoM P kerror unit) : DM unit :=
  onRing (λ _, emptyRing);;
  onPersist init;;
  nodes ← onPersist ps_GetAllNodeInfo;
  if ps_isKMSStorage then addAll nodes
  else onRing (λ c, foldl (λ c n, AddCache n c) c nodes).

(** *** RPC *)

Definition liftRing {A} (r : GoResult ringError A) : DM A := λ s,
  (match r with Ok a => Ok a | Err _ => Err (KNew "DHT") | Panic => Panic end, s).
Definition notPermitted : kerror := KNew "not permitted".

Definition DHT_FindNode (rv : Resolver) (caller : option Hash) id : DM Node :=
  if negb (IsPermitted rv caller DHTFindNode) then throw notPermitted
  else s ← getS; liftRing (GetNode id (dh_ring s)).

(** A search that does not end in [rounds] goes on. *)
Definition DHT_FindNeighbor (rv : Resolver) (caller : option Hash) id (count : Z) (roles : list ServerRole) (rounds : nat) : DM (option (list Node)) :=
  if negb (IsPermitted rv caller DHTFindNeighbor) then throw notPermitted
  else s ← getS;
    match GetNeighborsEx rounds id count roles (dh_ring s) with
    | None => mret None
    | Some r => nodes ← liftRing r; mret (Some nodes)
    end.

Definition DHT_Ping (rv : Resolver) (minDifficulty : Z) (caller : option Hash) node : DM string :=
  if negb (IsPermitted rv caller DHTPing) then throw notPermitted
  else if decide (nd_Role node = Role_Leader ∨ nd_Role node = Role_Follower) then throw (KNew "setting node is not permitted")
  else if negb (IsIDPubNonceValid (ToRawNodeID (nd_ID node)) (Some (nd_Nonce node)) (nd_PublicKey node))
  then throw (KNew "nonce public key not match")
  else if decide (NodeID_Difficulty (nd_ID node) < minDifficulty) then throw (KNew "difficulty too low")
  else
    res ← attempt (Ring_Add node);
    match res with inl e => throw (KWrap e) | inr _ => mret "Pong"%string end.
End service.
