(* ===== verification/DhtProps.v ===== *)
(** * What the directory promises

    The DHT service refines a directory of nodes: a map that only a valid ping
    changes, and that lookups read.  Proved against the interface of the storage and
    instantiated with the key store. *)
From S2P Require Import Prelude Hash Types Bytes Pow NodeInfo Consistent ConsistentProps RingWalk KeyStore Dht.
From Stdlib Require Import String ZArith Lia.
From stdpp Require Import base list gmap strings.
Local Open Scope Z_scope.

(** ** The directory *)

Section directory.
Context `{NodeEnv}.
Implicit Types (dir : gmap NodeID Node) (node : Node) (id : NodeID) (rv : Resolver).

Inductive dirOp :=
| DirPing (caller : option Hash) (node : Node)
| DirFind (caller : option Hash) (id : NodeID)
| DirNeighbor (caller : option Hash) (id : NodeID) (count : Z) (roles : list ServerRole) (rounds : nat)
| DirRemove (id : NodeID).
Inductive dirOut :=
| OutPing (r : GoResult kerror string) | OutNode (r : GoResult kerror Node)
| OutNeighbor (r : GoResult kerror (option (list Node))) | OutRemove (r : GoResult kerror unit).

Definition opNodeID (op : dirOp) : option NodeID :=
  match op with DirPing _ n => Some (nd_ID n) | DirFind _ id | DirRemove id => Some id | DirNeighbor _ _ _ _ _ => None end.

(** A node that may register. *)
Definition registrable (minDifficulty : Z) node : Prop :=
  nd_Role node ≠ Role_Leader ∧ nd_Role node ≠ Role_Follower ∧ validIdentity node ∧ minDifficulty <= NodeID_Difficulty (nd_ID node).

Definition lookupResult rv (caller : option Hash) dir id : GoResult kerror Node :=
  if IsPermitted rv caller DHTFindNode then match dir !! id with Some n => Ok n | None => Err (KNew "DHT") end
  else Err notPermitted.

(** The steps of a directory; the storage may refuse a change. *)
Inductive dirStep rv (minDifficulty : Z) dir : dirOp → dirOut → gmap NodeID Node → Prop :=
| dir_ping caller node : IsPermitted rv caller DHTPing = true → registrable minDifficulty node →
    dirStep rv minDifficulty dir (DirPing caller node) (OutPing (Ok "Pong"%string)) (<[nd_ID node := node]> dir)
| dir_ping_refused caller node e : dirStep rv minDifficulty dir (DirPing caller node) (OutPing (Err e)) dir
| dir_find caller id : dirStep rv minDifficulty dir (DirFind caller id) (OutNode (lookupResult rv caller dir id)) dir
| dir_neighbor caller id count roles rounds r : (IsPermitted rv caller DHTFindNeighbor = false → r = Err notPermitted) →
    (r = Panic → count < 0) → (∀ l, r = Ok (Some l) → ∀ n, n ∈ l → (∃ id, dir !! id = Some n) ∧ wantedRole roles n = true) →
    dirStep rv minDifficulty dir (DirNeighbor caller id count roles rounds) (OutNeighbor r) dir
| dir_remove id : dirStep rv minDifficulty dir (DirRemove id) (OutRemove (Ok tt)) (delete id dir)
| dir_remove_refused id e : dirStep rv minDifficulty dir (DirRemove id) (OutRemove (Err e)) dir.

Inductive dirSteps rv (minDifficulty : Z) : gmap NodeID Node → list dirOp → list dirOut → gmap NodeID Node → Prop :=
| dirs_nil dir : dirSteps rv minDifficulty dir [] [] dir
| dirs_cons dir op o dir1 ops os dir2 : dirStep rv minDifficulty dir op o dir1 → dirSteps rv minDifficulty dir1 ops os dir2 →
    dirSteps rv minDifficulty dir (op :: ops) (o :: os) dir2.

(** Every node of a directory was there at first or came by a valid ping. *)
Lemma dirSteps_genuine rv m dir ops os dir' id n : dirSteps rv m dir ops os dir' → dir' !! id = Some n →
  dir !! id = Some n ∨ nd_ID n = id ∧ registrable m n.
Proof.
  induction 1 as [dir|dir op o dir1 ops os dir2 Hs _ IH]; [by left|]. intros [Hn|?]%IH; [|by right].
  destruct Hs as [caller node _ Hreg| | | |id'|]; try by left.
  - destruct (decide (nd_ID node = id)) as [<-|]; [rewrite lookup_insert_eq in Hn; injection Hn as <-; by right|].
    rewrite lookup_insert_ne in Hn by done. by left.
  - apply lookup_delete_Some in Hn as [_ Hn]. by left.
Qed.
End directory.

(** ** The service against the interface *)

Section service_props.
Context `{NodeEnv} {P : Type} `{!Persistence P} `{!PersistenceLaws P}.
Implicit Types (s : DHTState (P := P)) (dir : gmap NodeID Node) (node : Node) (id : NodeID).
Variable known : NodeID → Prop.
Hypothesis Hapart : apart known.

(** The ring has the nodes of the directory, and the storage has them too, in the form
    in which it stores them. *)
Record holdsDir s dir : Prop := {
  hd_ring : ringOf (dh_ring s) dir;
  hd_known : allKnown known dir;
  hd_stored id n : dir !! id = Some n → ps_nodes (dh_persist s) !! id = Some (ps_stored n);
}.

Lemma allKnown_insert dir id n : allKnown known dir → known id → allKnown known (<[id := n]> dir).
Proof.
  intros Hk Hid id' [n' Hn]. destruct (decide (id = id')) as [<-|]; [done|]. rewrite lookup_insert_ne in Hn by done. apply Hk. by exists n'.
Qed.
Lemma allKnown_delete dir id : allKnown known dir → allKnown known (delete id dir).
Proof. intros Hk id' [n' Hn]. apply lookup_delete_Some in Hn as [_ Hn]. apply Hk. by exists n'. Qed.

Lemma Ring_Add_spec node s dir r s' : holdsDir s dir → known (nd_ID node) → Ring_Add node s = (r, s') →
  match r with
  | Ok _ => ps_accepts node ∧ holdsDir s' (<[nd_ID node := node]> dir)
  | Err _ => holdsDir s' dir
  | Panic => False
  end.
Proof.
  intros [Hr Hk Hst] Hkn Ha. unfold Ring_Add, onPersist, onRing in Ha. go_unfold in Ha.
  destruct (ps_SetNode node (dh_persist s)) as [r1 p1] eqn:Hset. pose proof (ps_SetNode_spec _ _ _ _ Hset) as Hp.
  destruct r1 as [[]|e|]; [|injection Ha as <- <-; by split; [..|cbn; rewrite Hp]|done].
  injection Ha as <- <-. destruct Hp as [Hacc Hp]. split; [done|]. split; cbn [dh_ring dh_persist].
  - by eapply ringOf_add.
  - by apply allKnown_insert.
  - intros id n. rewrite Hp. destruct (decide (nd_ID node = id)) as [<-|]; [by rewrite !lookup_insert_eq; intros [= <-]|].
    rewrite !lookup_insert_ne by done. apply Hst.
Qed.

Lemma Ring_Remove_spec id s dir r s' : holdsDir s dir → known id → Ring_Remove id s = (r, s') →
  match r with Ok _ => holdsDir s' (delete id dir) | Err _ => holdsDir s' dir | Panic => False end.
Proof.
  intros [Hr Hk Hst] Hkn Ha. unfold Ring_Remove, onPersist, onRing in Ha. go_unfold in Ha.
  destruct (ps_DelNode id (dh_persist s)) as [r1 p1] eqn:Hdel. pose proof (ps_DelNode_spec _ _ _ _ Hdel) as Hp.
  destruct r1 as [[]|e|]; [|injection Ha as <- <-; by split; [..|cbn; rewrite Hp]|done].
  injection Ha as <- <-. split; cbn [dh_ring dh_persist].
  - by eapply ringOf_remove.
  - by apply allKnown_delete.
  - intros id' n [Hne Hn]%lookup_delete_Some. rewrite Hp. apply lookup_delete_Some. auto.
Qed.

(** The nodes of the storage that are accepted again at start. *)
Lemma addAll_spec nodes s dir : holdsDir s dir → (∀ n, n ∈ nodes → known (nd_ID n)) → ∃ s' dir',
  addAll nodes s = (Ok tt, s') ∧ holdsDir s' dir' ∧
  ∀ id n, dir' !! id = Some n → dir !! id = Some n ∨ nd_ID n = id ∧ n ∈ nodes ∧ ps_accepts n.
Proof.
  revert s dir. induction nodes as [|n nodes IH]; intros s dir Hs Hk; cbn [addAll].
  { exists s, dir. split_and!; [done..|]. by left. }
  destruct (Ring_Add n s) as [r s1] eqn:Ha. pose proof (Ring_Add_spec n s dir r s1 Hs (Hk n ltac:(by left)) Ha) as Hadd.
  go_unfold. rewrite Ha. destruct r as [[]|e|]; [|..|done].
  - destruct Hadd as [Hacc Hs1]. destruct (IH s1 _ Hs1) as (s' & dir' & -> & Hs' & Hin); [intros m Hm; apply Hk; by right|].
    exists s', dir'. split_and!; [done..|]. intros id m [Hm|(Hid & Hm & Ham)]%Hin; [|right; split_and!; [done|by right|done]].
    destruct (decide (nd_ID n = id)) as [<-|]; [|rewrite lookup_insert_ne in Hm by done; by left].
    rewrite lookup_insert_eq in Hm. injection Hm as <-. right. split_and!; [done|by left|done].
  - destruct (IH s1 _ Hadd) as (s' & dir' & -> & Hs' & Hin); [intros m Hm; apply Hk; by right|].
    exists s', dir'. split_and!; [done..|]. intros id m [Hm|(Hid & Hm & Ham)]%Hin; [by left|right; split_and!; [done|by right|done]].
Qed.

(** *** Calls *)

Variable rv : Resolver.
Variable minDifficulty : Z.

Definition runDirOp (op : dirOp) s : dirOut * DHTState :=
  match op with
  | DirPing caller node => let '(r, s) := DHT_Ping rv minDifficulty caller node s in (OutPing r, s)
  | DirFind caller id => let '(r, s) := DHT_FindNode rv caller id s in (OutNode r, s)
  | DirNeighbor caller id count roles rounds => let '(r, s) := DHT_FindNeighbor rv caller id count roles rounds s in (OutNeighbor r, s)
  | DirRemove id => let '(r, s) := Ring_Remove id s in (OutRemove r, s)
  end.
Fixpoint runDirOps (ops : list dirOp) s : list dirOut * DHTState :=
  match ops with
  | [] => ([], s)
  | op :: ops => let '(o, s) := runDirOp op s in let '(os, s) := runDirOps ops s in (o :: os, s)
  end.

Lemma Ping_spec caller node s dir : holdsDir s dir → known (nd_ID node) →
  let '(r, s') := DHT_Ping rv minDifficulty caller node s in
  ∃ dir', dirStep rv minDifficulty dir (DirPing caller node) (OutPing r) dir' ∧ holdsDir s' dir'.
Proof.
  intros Hs Hk. unfold DHT_Ping. assert (∀ e, ∃ dir', dirStep rv minDifficulty dir (DirPing caller node) (OutPing (Err e)) dir' ∧ holdsDir s dir') as Herr.
  { intros e. exists dir. split; [constructor|done]. }
  destruct (IsPermitted rv caller DHTPing) eqn:Hp; [|apply Herr]. cbn [negb]. case_decide as Hrole; [apply Herr|].
  destruct (IsIDPubNonceValid _ _ _) eqn:Hv; [|apply Herr]. cbn [negb]. case_decide as Hd; [apply Herr|]. go_unfold.
  destruct (Ring_Add node s) as [r s1] eqn:Ha. pose proof (Ring_Add_spec node s dir r s1 Hs Hk Ha) as Hadd.
  destruct r as [[]|e|]; [|exists dir; split; [constructor|done]|done]. destruct Hadd as [_ Hadd].
  exists (<[nd_ID node := node]> dir). split; [|done]. apply dir_ping; [done|]. split_and!; [tauto..|done|lia].
Qed.

Lemma runDirOp_step op s dir : holdsDir s dir → (∀ id, opNodeID op = Some id → known id) →
  let '(o, s') := runDirOp op s in ∃ dir', dirStep rv minDifficulty dir op o dir' ∧ holdsDir s' dir'.
Proof.
  intros Hs Hk. destruct op as [caller node|caller id|caller id count roles rounds|id]; cbn [runDirOp].
  - pose proof (Ping_spec caller node s dir Hs ltac:(by apply Hk)) as Hp. by destruct (DHT_Ping _ _ _ _ _).
  - assert (DHT_FindNode rv caller id s = (lookupResult rv caller dir id, s)) as ->; [|exists dir; split; [constructor|done]].
    unfold DHT_FindNode, lookupResult. destruct (IsPermitted _ _ _); [|done]. cbn. go_unfold. unfold liftRing. cbn.
    rewrite (GetNode_spec known Hapart _ dir id (hd_ring _ _ Hs) (hd_known _ _ Hs)) by (by apply Hk). by destruct (dir !! id).
  - pose proof (GetNeighborsEx_members (dh_ring s) dir rounds id count roles (hd_ring _ _ Hs)) as Hm.
    unfold DHT_FindNeighbor. destruct (IsPermitted _ _ _) eqn:Hp; cbn [negb]; [|by exists dir; split; [constructor|]].
    go_unfold. destruct (GetNeighborsEx _ _ _ _ _) as [[l|e|]|]; go_unfold; unfold liftRing; cbn;
      (exists dir; split; [|done]); constructor; try congruence; try done. intros l' [= <-]. exact Hm.
  - destruct (Ring_Remove id s) as [r s1] eqn:Ha. pose proof (Ring_Remove_spec id s dir r s1 Hs ltac:(by apply Hk) Ha) as Hrem.
    destruct r as [[]|e|]; [|..|done]; (eexists; split; [constructor|done]).
Qed.

Lemma runDirOps_steps ops s dir : holdsDir s dir → (∀ op id, op ∈ ops → opNodeID op = Some id → known id) →
  let '(os, s') := runDirOps ops s in ∃ dir', dirSteps rv minDifficulty dir ops os dir' ∧ holdsDir s' dir'.
Proof.
  revert s dir. induction ops as [|op ops IH]; intros s dir Hs Hk; cbn [runDirOps].
  { exists dir. split; [constructor|done]. }
  pose proof (runDirOp_step op s dir Hs ltac:(intros id; apply Hk; by left)) as Hop. destruct (runDirOp op s) as [o s1].
  destruct Hop as (dir1 & Hstep & Hs1). specialize (IH s1 dir1 Hs1 ltac:(intros op' id Hin; apply Hk; by right)).
  destruct (runDirOps ops s1) as [os s2]. destruct IH as (dir2 & Hsteps & Hs2). exists dir2. split; [|done]. by econstructor.
Qed.
End service_props.

(** ** The service on the key store *)

Section kms.
Context `{NodeEnv} {D : Type} `{!KmsTable D} `{!MsgPack NodeWire}.
Implicit Types (s : DHTState (P := option D)) (dir : gmap NodeID Node).

Lemma InitConsistent_spec known bp (d : D) seeds s r s0 : apart known →
  (∀ id n, storedNodes (Some d) !! id = Some n → known (nd_ID n)) → (∀ n, n ∈ seeds → known (nd_ID (wireNode n))) →
  InitConsistent (InitPublicKeyStore bp (Ok d) seeds) s = (Ok r, s0) → ∃ dir0, holdsDir known s0 dir0 ∧
  ∀ id n, dir0 !! id = Some n → nd_ID n = id ∧ validIdentity n ∧
    ((∃ row, storedNodes (Some d) !! row = Some n) ∨ ∃ m, m ∈ seeds ∧ n = wireNode m).
Proof.
  intros Ha Hd Hseeds Hinit. unfold InitConsistent, InitPublicKeyStore in Hinit.
  destruct (bp ≫= ToRawNodeID) as [raw|]; unfold ClosePublicKeyStore, onRing, onPersist in Hinit; go_unfold in Hinit; [|done].
  destruct (setNodes seeds (Some d)) as [r1 p1] eqn:Hset. apply setNodes_spec in Hset as (_ & Hin).
  destruct r1 as [[]|e|]; [|done..]. cbn [dh_persist dh_ring] in Hinit.
  change (ps_GetAllNodeInfo p1) with (GetAllNodeInfo p1) in Hinit.
  destruct (GetAllNodeInfo p1) as [r2 p2] eqn:Hall. apply GetAllNodeInfo_spec in Hall as [-> Hl].
  destruct r2 as [l|e|]; [|done..].
  assert (∀ n, n ∈ l → (∃ row, storedNodes (Some d) !! row = Some n) ∨ ∃ m, m ∈ seeds ∧ n = wireNode m) as Hfrom.
  { intros n [row Hn]%Hl. destruct (Hin _ _ Hn) as [?|?]; eauto. }
  destruct (addAll_spec known Ha l (MkDHTState p1 emptyRing) ∅) as (s' & dir0 & Hadd & Hs' & Hdir).
  { split; cbn; [apply ringOf_empty|apply allKnown_empty|]. intros id n. by rewrite lookup_empty. }
  { intros n [[row Hn]|(m & Hn & ->)]%Hfrom; [by apply (Hd row)|by apply Hseeds]. }
  cbn in Hinit. rewrite Hadd in Hinit. injection Hinit as _ <-. exists dir0. split; [done|].
  intros id n [Hn|(<- & Hn & Hacc)]%Hdir; [by rewrite lookup_empty in Hn|]. split_and!; [done|done|]. by apply Hfrom.
Qed.

(** C37: The DHT service is a directory of nodes.  It is started on a key store with
    the nodes of the configuration, and handles any sequence of pings, lookups,
    neighbour searches and removals, from any callers, on a storage whose statements
    may fail.  Then every answer is that of a directory: only a permitted ping of a
    node with a valid identity, enough difficulty and no role of a block producer
    changes it, an error changes nothing, a lookup gives the last registered node of
    the id or an error, and a search only gives registered nodes of the wanted roles.
    Every node of the directory has an id that is the hash of its key and nonce, is
    stored under its id as the wire code brings it back (with the id printed anew;
    [wireNode_printed]: a printed id is left alone), and was read at the start, from
    a row of the store or a node of the configuration, or registered so. *)
Theorem dht_directory known bp (d : D) seeds rv minDifficulty ops s s0 : apart known →
  (∀ id n, storedNodes (Some d) !! id = Some n → known (nd_ID n)) → (∀ n, n ∈ seeds → known (nd_ID (wireNode n))) →
  (∀ op id, op ∈ ops → opNodeID op = Some id → known id) →
  InitConsistent (InitPublicKeyStore bp (Ok d) seeds) s = (Ok tt, s0) →
  let '(os, s') := runDirOps rv minDifficulty ops s0 in
  ∃ dir0 dir, dirSteps rv minDifficulty dir0 ops os dir ∧ ringOf (dh_ring s') dir ∧
    (∀ id n, dir0 !! id = Some n → (∃ row, storedNodes (Some d) !! row = Some n) ∨ ∃ m, m ∈ seeds ∧ n = wireNode m) ∧
    (∀ id n, dir !! id = Some n → nd_ID n = id ∧ validIdentity n ∧ storedNodes (dh_persist s') !! id = Some (wireNode n) ∧
      (dir0 !! id = Some n ∨ registrable minDifficulty n)).
Proof.
  intros Ha Hd Hseeds Hops Hinit. destruct (InitConsistent_spec known bp d seeds s tt s0 Ha Hd Hseeds Hinit) as (dir0 & Hs0 & Hdir0).
  pose proof (runDirOps_steps known Ha rv minDifficulty ops s0 dir0 Hs0 Hops) as Hrun.
  destruct (runDirOps rv minDifficulty ops s0) as [os s']. destruct Hrun as (dir & Hsteps & Hs'). exists dir0, dir.
  split_and!; [done|apply Hs'|intros id n Hn; apply (Hdir0 id n Hn)|]. intros id n Hn.
  pose proof (ro_id _ _ (hd_ring _ _ _ Hs') _ _ Hn) as Hid. pose proof (hd_stored _ _ _ Hs' _ _ Hn) as Hst.
  destruct (dirSteps_genuine _ _ _ _ _ _ _ _ Hsteps Hn) as [Hn0|[_ Hreg]].
  - destruct (Hdir0 id n Hn0) as (_ & Hv & _). split_and!; [done..|by left].
  - split_and!; [done|apply Hreg|done|by right].
Qed.
End kms.
