(* ===== verification/NodeSample.v ===== *)
(** * Concrete nodes, rings and directories

    A key table as a finite map, a hash that tells the keys of a few nodes apart, and
    runs of the theorems about nonces, rings and the DHT service; also the searches
    that do not return what they should. *)
From S2P Require Import Prelude Hash Types Block Bytes SqlTypes Sanitizer Xenomint XenoProps XenoPool.
From S2P Require Import MetaState MetaView MetaTx Ledger LedgerRefine Sample.
From S2P Require Import Storage StorageProps Branch BranchProps ChainSample XenoSample WireSample.
From S2P Require Import Pow NodeInfo Consistent ConsistentProps RingWalk KeyStore Dht DhtProps.
From Stdlib Require Import String ZArith Lia.
From stdpp Require Import base list gmap strings.
Local Open Scope Z_scope.

(** ** Nonces *)

Lemma nonces_spec_witness :
  let start := MkUint256 (two64 - 1) (two64 - 1) 0 0 in
  wf_Uint256 start ∧ nonceAt start 1 = MkUint256 0 0 1 0 ∧ value (nonceAt start 3) = (value start + 3) mod 2 ^ 256.
Proof.
  intros start. assert (wf_Uint256 start) as Hw by (repeat split; vm_compute; (reflexivity || discriminate)).
  split; [exact Hw|]. split; [vm_compute; reflexivity|]. exact (proj1 (proj2 (nonces_spec start 3 Hw))).
Defined.

Lemma mining_spec_witness : ∃ info,
  ComputeBlockNonce [5] (MkUint256 0 0 0 65536) 16 [PollNone; PollNone; PollStop] = Some (Some ErrJobStopped, info) ∧
  15 <= ni_Difficulty info.
Proof.
  destruct (mining_spec [5] (MkUint256 0 0 0 65536) 16 2) as (_ & Hstop & _).
  - intros [|[|j]] Hj; [vm_compute; reflexivity..|lia].
  - destruct (Hstop PollStop [] ltac:(discriminate)) as (info & Hc & Hb & _). exists info. split; [exact Hc|].
    exact (Hb 0%nat ltac:(lia)).
Defined.

(** ** Nodes *)

(** The length, the first two and the last bytes. *)
Definition endBytes (b : list Z) : Hash := firstBytes (Z.of_nat (length b) :: take 2 b ++ reverse (take 29 (reverse b))).
#[export] Instance sampleNodeEnv : NodeEnv := {| HashH := endBytes; HashH_valid := λ b, firstBytes_valid _ |}.

(** The node with a key, whose nonce is zero. *)
Definition sampleNode (k : Z) (role : ServerRole) : Node :=
  MkNode (Hash_String (HashBlock [k] zeroUint256)) role "addr" "" (Some k) zeroUint256.
Definition nodeA : Node := sampleNode 1 Role_Miner.
Definition nodeB : Node := sampleNode 2 Role_Client.
Definition nodeC : Node := sampleNode 3 Role_Miner.

Definition sampleIDs : list NodeID := nd_ID <$> [nodeA; nodeB; nodeC].
Definition sampleKeys : list Hash := sampleIDs ≫= λ id, ringKey id <$> seq 0 ringSize.

Lemma NoDup_bind_inj {A B : Type} (f : A → nat → B) (l : list A) (n : nat) x y i j : NoDup (l ≫= λ a, f a <$> seq 0 n) →
  x ∈ l → y ∈ l → (i < n)%nat → (j < n)%nat → f x i = f y j → x = y ∧ i = j.
Proof.
  intros Hnd Hx Hy Hi Hj Heq. induction l as [|a l IH]; [by apply not_elem_of_nil in Hx|].
  cbn in Hnd. apply NoDup_app in Hnd as (Hnd1 & Hdis & Hnd2).
  assert (∀ z k, z ∈ l → (k < n)%nat → f z k ∈ l ≫= λ a, f a <$> seq 0 n) as Hin.
  { intros z k Hz Hk. apply list_elem_of_bind. exists z. split; [apply list_elem_of_fmap_2, elem_of_seq; lia|done]. }
  assert (∀ k, (k < n)%nat → f a k ∈ f a <$> seq 0 n) as Ha by (intros k Hk; apply list_elem_of_fmap_2, elem_of_seq; lia).
  apply elem_of_cons in Hx as [->|Hx], Hy as [->|Hy].
  - split; [done|]. apply (NoDup_lookup (f a <$> seq 0 n) i j (f a i)); [done|..]; rewrite list_lookup_fmap, lookup_seq_lt by done; cbn; congruence.
  - destruct (Hdis (f a i)); [by apply Ha|]. rewrite Heq. by apply Hin.
  - destruct (Hdis (f a j)); [by apply Ha|]. rewrite <- Heq. by apply Hin.
  - by apply IH.
Qed.

Lemma sample_apart : apart (λ id, id ∈ sampleIDs).
Proof.
  intros id id' i j. apply (NoDup_bind_inj ringKey sampleIDs ringSize). apply (bool_decide_unpack _). vm_compute. exact I.
Qed.

(** ** Rings *)

Definition sampleOps : list ringOp := [RingAdd nodeA; RingAdd nodeB; RingRemove (nd_ID nodeA); RingAdd nodeC].
Definition sampleRing : Consistent := runRing sampleOps emptyRing.

Lemma sample_opsKnown ops : forallb (λ op, match opID op with Some id => bool_decide (id ∈ sampleIDs) | None => true end) ops = true →
  opsKnown (λ id, id ∈ sampleIDs) ops.
Proof.
  rewrite forallb_forall. intros Hall op id Hin%list_elem_of_In%Hall Hid. rewrite Hid in Hin. by apply bool_decide_eq_true in Hin.
Qed.

Lemma ring_refines_witness :
  GetNode (nd_ID nodeC) sampleRing = Ok nodeC ∧ GetNode (nd_ID nodeA) sampleRing = Err ErrRingKeyNotFound ∧
  ∃ n id i, GetNeighbor "some name" sampleRing = Ok n ∧ runMembers sampleOps ∅ !! id = Some n ∧
    isNext (keyOf (runMembers sampleOps ∅)) (hashKey "some name") (ringKey id i).
Proof.
  destruct (ring_refines (λ id, id ∈ sampleIDs) sampleOps sample_apart) as [Hnode Hnext].
  - apply sample_opsKnown. vm_compute. reflexivity.
  - fold sampleRing in Hnode, Hnext. split_and!.
    + rewrite (Hnode (nd_ID nodeC)) by (apply (bool_decide_unpack _); vm_compute; exact I). vm_compute. reflexivity.
    + rewrite (Hnode (nd_ID nodeA)) by (apply (bool_decide_unpack _); vm_compute; exact I). vm_compute. reflexivity.
    + assert (is_Ok (GetNeighbor "some name" sampleRing) = true) as Hok by (vm_compute; reflexivity).
      specialize (Hnext "some name"%string).
      destruct (GetNeighbor "some name" sampleRing) as [n| |]; [|discriminate Hok..].
      destruct Hnext as (id & i & Hms & _ & Hn). exists n, id, i. exact (conj eq_refl (conj Hms Hn)).
Defined.

(** The name moves to the new node or stays. *)
Lemma neighbor_stable_witness : ∃ n,
  GetNeighbor "some name" (AddCache nodeA sampleRing) = Ok n ∧ (n = nodeA ∨ GetNeighbor "some name" sampleRing = Ok n).
Proof.
  assert (is_Ok (GetNeighbor "some name" (AddCache nodeA sampleRing)) = true) as Hok by (vm_compute; reflexivity).
  destruct (GetNeighbor "some name" (AddCache nodeA sampleRing)) as [n| |] eqn:Hn; [|discriminate Hok..].
  exists n. split; [reflexivity|]. apply (neighbor_stable (λ id, id ∈ sampleIDs) sampleOps nodeA "some name" n sample_apart).
  - apply sample_opsKnown. vm_compute. reflexivity.
  - apply (bool_decide_unpack _). vm_compute. exact I.
  - vm_compute. reflexivity.
  - exact Hn.
Defined.

(** The three nodes from a name on. *)
Definition fullOps : list ringOp := [RingAdd nodeA; RingAdd nodeB; RingAdd nodeC].
Definition fullRing : Consistent := runRing fullOps emptyRing.
Definition idsOf (r : option (GoResult ringError (list Node))) : list NodeID :=
  match r with Some (Ok l) => nd_ID <$> l | _ => [] end.

Lemma neighbors_spec_witness : ∃ l,
  GetNeighborsEx 60 "some name" 2 [Role_Miner] fullRing = Some (Ok l) ∧ length l = 2%nat.
Proof.
  destruct (neighbors_spec (λ id, id ∈ sampleIDs) fullOps "some name" 2 [Role_Miner] sample_apart) as [Hget _].
  - apply sample_opsKnown. vm_compute. reflexivity.
  - intros He. apply (f_equal size) in He. vm_compute in He. discriminate He.
  - lia.
  - assert (bool_decide (Z.min 2 (Z.of_nat (size (runMembers fullOps ∅))) = 1) = false) as Hk by (vm_compute; reflexivity).
    rewrite Hk in Hget. cbn [andb] in Hget. eexists. split; [apply Hget; right; split; [reflexivity|vm_compute; discriminate]|].
    vm_compute. reflexivity.
Defined.

(** A name hashed before every key, and a role no member has: the search for it goes
    round the ring for ever. *)
Lemma search_forever (rounds : nat) : GetNeighborsEx rounds "some name" 1 [Role_Follower] fullRing = None.
Proof.
  assert (search fullRing (hashKey "some name") = 0%nat) as Hs by (vm_compute; reflexivity).
  destruct (runRing_members (λ id, id ∈ sampleIDs) fullOps emptyRing ∅ sample_apart) as [Hr Hall].
  - apply sample_opsKnown. vm_compute. reflexivity.
  - apply ringOf_empty.
  - apply allKnown_empty.
  - fold fullRing in Hr.
    assert (ringNodes fullRing !! 0%nat = Some nodeA) as He by (vm_compute; reflexivity).
    pose proof (proj2 (ringNodes_at fullRing 0 nodeA (ro_wf _ _ Hr)) He) as Hat.
    rewrite (GetNeighborsEx_around _ fullRing _ rounds "some name" 1 [Role_Follower] nodeA sample_apart Hall Hr).
    + rewrite Hs. change (wantedRole [Role_Follower] nodeA) with false. cbn [length]. rewrite andb_false_l.
      apply (neighbors_walk fullRing [Role_Follower] _ 0 nodeA (ro_wf _ _ Hr) He);
        [vm_compute; reflexivity|reflexivity|vm_compute; reflexivity].
    + intros Hz. vm_compute in Hz. discriminate Hz.
    + rewrite Hs. exact Hat.
    + lia.
Qed.

(** A request for one miner near a name, answered with two. *)
Lemma one_is_two : length (idsOf (GetNeighborsEx 60 (nodeKey (nd_ID nodeB) 0) 1 [Role_Miner] fullRing)) = 2%nat.
Proof. vm_compute. reflexivity. Qed.

(** A negative number of neighbors, which a caller of the DHT service can send. *)
Lemma negative_panics : GetNeighborsEx 0 "some name" (-1) [] fullRing = Some Panic.
Proof. vm_compute. reflexivity. Qed.

(** The keys of different nodes may be keys of the same string. *)
Lemma nodeKey_ambiguous : nodeKey "1a" 1 = nodeKey "a" 11.
Proof. vm_compute. reflexivity. Qed.

(** ** The directory *)

#[export, refine] Instance Uint256_code : Code Uint256 :=
  via (λ i, (u_A i, u_B i, u_C i, u_D i)) (λ '(a, b, c, d), MkUint256 a b c d) _.
Proof. by intros []. Defined.
#[export] Instance NodeWire_code : Code NodeWire := ltac:(unfold NodeWire; apply _).
#[export] Instance sampleNodeCode : MsgPack NodeWire := coded NodeWire.

#[export, refine] Instance sampleKmsTable : KmsTable (gmap string (list Z)) := {|
  kt_Set := λ k v d, (None, <[k := v]> d);
  kt_Delete := λ k d, (None, delete k d);
  kt_DeleteAll := λ d, (None, ∅);
  kt_Get := λ d k, Ok (d !! k);
  kt_IDs := λ d, Ok (map_to_list d).*1;
  kt_map := λ d, d;
|}.
Proof.
  - by intros d k v r d' [= <- <-].
  - by intros d k r d' [= <- <-].
  - by intros d r d' [= <- <-].
  - by intros d k o [= <-].
  - done.
  - intros d l [= <-]. split; [apply NoDup_fst_map_to_list|]. intros k. rewrite list_elem_of_fmap. split.
    + intros ([k' v] & -> & Hv%elem_of_map_to_list). by exists v.
    + intros [v Hv]. exists (k, v). split; [done|]. by apply elem_of_map_to_list.
  - done.
Defined.

Definition bpNode : Node := sampleNode 1 Role_Leader.
Definition sampleResolver : Resolver := (initBPNodeIDs None [bpNode] newResolver).2.
Definition someone : option Hash := Some (HashBlock [9] zeroUint256).
Abbreviation sampleDHT := (DHTState (P := option (gmap string (list Z)))).
Definition startDHT : GoResult kerror unit * sampleDHT :=
  InitConsistent (InitPublicKeyStore (Some (nd_ID bpNode)) (Ok ∅) [bpNode]) (MkDHTState None emptyRing).

(** A client registers itself over an anonymous connection, a block producer cannot,
    and lookups need an authenticated caller. *)
Definition dhtOps : list dirOp :=
  [DirPing (Some AnonymousRawNodeID) nodeB; DirPing someone (sampleNode 3 Role_Follower); DirFind someone (nd_ID nodeB);
   DirFind (Some AnonymousRawNodeID) (nd_ID nodeB); DirFind someone (nd_ID nodeC)].

Lemma dht_answers :
  (runDirOps sampleResolver 24 dhtOps startDHT.2).1 =
  [OutPing (Ok "Pong"%string); OutPing (Err (KNew "setting node is not permitted")); OutNode (Ok nodeB);
   OutNode (Err notPermitted); OutNode (Err (KNew "DHT"))].
Proof. vm_compute. reflexivity. Qed.

Lemma dht_directory_witness :
  let '(os, s') := runDirOps sampleResolver 24 dhtOps startDHT.2 in
  ∃ dir0 dir, dirSteps sampleResolver 24 dir0 dhtOps os dir ∧ ringOf (dh_ring s') dir ∧
    ∀ id n, dir !! id = Some n → validIdentity n.
Proof.
  pose proof (dht_directory (λ id, id ∈ sampleIDs) (Some (nd_ID bpNode)) (∅ : gmap string (list Z)) [bpNode] sampleResolver 24 dhtOps
    (MkDHTState None emptyRing) startDHT.2 sample_apart) as Hd.
  destruct (runDirOps sampleResolver 24 dhtOps startDHT.2) as [os s'].
  destruct Hd as (dir0 & dir & Hsteps & Hring & _ & Hdir).
  - intros id n Hn. cbn in Hn. rewrite omap_empty, lookup_empty in Hn. discriminate Hn.
  - intros n ->%list_elem_of_singleton. apply (bool_decide_unpack _). vm_compute. exact I.
  - assert (forallb (λ op, match opNodeID op with Some id => bool_decide (id ∈ sampleIDs) | None => true end) dhtOps = true) as Hall
      by (vm_compute; reflexivity).
    rewrite forallb_forall in Hall. intros op id Hin%list_elem_of_In%Hall Hid. rewrite Hid in Hin. by apply bool_decide_eq_true in Hin.
  - apply injective_projections; [|reflexivity]. vm_compute. reflexivity.
  - exists dir0, dir. split_and!; [exact Hsteps|exact Hring|]. intros id n Hn. exact (proj1 (proj2 (Hdir id n Hn))).
Defined.
