(* ===== verification/Worker.v ===== *)
(** * A database of a miner

    Models [src/worker/db.go] and [db_storage.go]: a database as the service Kayak
    replicates (payload code, check of requests, commit on the SQL chain), the
    sequence numbers of connections, and the requests of clients, which are answered
    by the SQL chain or go through Kayak.  The clock of the node is a list of
    readings in the state. *)
From S2P Require Import Prelude Hash Types SqlTypes Sanitizer Xenomint AckIndex Bytes LevelDB SqlNode SqlBilling SqlChain.
From S2P Require Import KayakWal Kayak.
From Stdlib Require Import String ZArith Lia.
From stdpp Require Import base list gmap strings.
Local Open Scope Z_scope.

(** The errors of [worker/errors.go], and those of the components called. *)
Module WErr.
Inductive werror :=
| ErrInvalidRequest | ErrInvalidRequestSeq | ErrAlreadyExists | ErrNotExists | ErrInvalidDBConfig
| ErrSpaceLimitExceeded | ErrUnknownMuxRequest | ErrPermissionDeny | ErrInvalidPermission | ErrInvalidTransactionType
| Wrap (e : werror) | OfChain (e : serror) | OfKayak (e : kerror) | OfVerifier (e : error) | New (msg : string).
End WErr.
Abbreviation werror := WErr.werror.

(** What [os.Stat] says of the storage file. *)
Inductive fileStat := StatSize (n : Z) | StatNotExist | StatError (e : werror).

Section database.
Context `{SqlEnv} `{!SqlParser} {C : Type} `{!SqlStore SqlValue C} {D : Type} `{!LevelDB serror D}.
Context `{!MsgPack Block} `{!MsgPack SignedAckHeader} `{!MsgPack SignedResponseHeader} `{!BillingVersion}.
Context `{!MsgPack Request} {W : Type} `{!Wal W}.

(** [DBConfig], without file names and the multiplexers. *)
Record DBConfig := MkDBConfig {
  dc_DatabaseID : DatabaseID;
  dc_MaxWriteTimeGap : Z;
  dc_SpaceLimit : Z;
  dc_UpdateBlockCount : Z;
  dc_LastBillingHeight : Z;
  dc_UseEventualConsistency : bool;
  dc_ReadUncommitted : bool;
}.

(** ** The replicated service *)

(** The fields of [Database] its Kayak handler uses; [connSeqs] holds the last
    sequence number of each connection. *)
Record Service := MkService {
  sv_cfg : DBConfig;
  sv_chain : Chain (C := C) (D := D);
  sv_connSeqs : gmap Z Z;
  sv_clock : nat → Z;
  sv_readings : nat;
}.
Implicit Types (s : Service) (req : Request).

Definition set_chain s (c : Chain) : Service := MkService (sv_cfg s) c (sv_connSeqs s) (sv_clock s) (sv_readings s).
Definition set_connSeqs s (m : gmap Z Z) : Service := MkService (sv_cfg s) (sv_chain s) m (sv_clock s) (sv_readings s).

(** [getLocalTime] *)
Definition getLocalTime s : Z := sv_clock s (sv_readings s).
Definition tick s : Service := MkService (sv_cfg s) (sv_chain s) (sv_connSeqs s) (sv_clock s) (S (sv_readings s)).

Definition verifySequence (connID seqNo : Z) s : option kerror :=
  match sv_connSeqs s !! connID with
  | Some lastSeq => if decide (seqNo <= lastSeq) then Some (KNew "invalid request sequence applied") else None
  | None => None
  end.
Definition recordSequence (connID seqNo : Z) s : Service := set_connSeqs s (<[connID := seqNo]> (sv_connSeqs s)).

(** [Check] up to the comparison with the last sequence number, and its end, which
    stores the new one.  Nothing is locked from one to the other, and requests are
    checked concurrently. *)
Definition service_CheckVerify req s : option kerror * Service :=
  match Request_Verify req with
  | Ok _ =>
      let nowTime := getLocalTime s in
      let s := tick s in
      let h := rq_Header req in
      if decide (rh_Timestamp h < nowTime - dc_MaxWriteTimeGap (sv_cfg s) ∨ nowTime + dc_MaxWriteTimeGap (sv_cfg s) < rh_Timestamp h)
      then (Some (KWrap (KNew "invalid request supplied")), s)
      else (verifySequence (rh_ConnectionID h) (rh_SeqNo h) s, s)
  | _ => (Some (KNew "verify"), s)
  end.
Definition service_CheckRecord req s : Service := recordSequence (rh_ConnectionID (rq_Header req)) (rh_SeqNo (rq_Header req)) s.

(** [Check] when no other check comes between the two. *)
Definition service_Check req s : option kerror * Service :=
  let '(e, s) := service_CheckVerify req s in
  match e with Some e => (Some e, s) | None => (None, service_CheckRecord req s) end.

(** [Commit]: [chain.Query] at the present time. *)
Definition query req (isLeader : bool) s : GoResult serror (nat * Response) * Service :=
  let '(r, c) := Chain_query (getLocalTime s) req isLeader (sv_chain s) in (r, set_chain (tick s) c).
Definition service_Commit req (isLeader : bool) s : GoResult kerror (nat * Response) * Service :=
  let '(r, s) := query req isLeader s in
  (match r with Ok tr => Ok tr | Err _ => Err (KNew "query") | Panic => Panic end, s).

(** A decoded request keeps its bytes, which [EncodePayload] gives back; they are a
    code of the same request. *)
Definition service_EncodePayload req : option (list Z) := EncodeMsgPack req.
Definition service_DecodePayload (data : list Z) : option Request := DecodeMsgPack data.

#[export] Instance databaseHandler : Handler Service Request (nat * Response) := {|
  EncodePayload := service_EncodePayload;
  DecodePayload := service_DecodePayload;
  Check := service_Check;
  Commit := service_Commit;
  Decode_EncodePayload := Decode_Encode;
|}.

(** [evictSequences] on the connections it receives; [l] holds the known ones, the
    latest first. *)
Definition MaxRecordedConnectionSequences : nat := 1000.
Fixpoint evictSequences (inputs l : list Z) (m : gmap Z Z) : gmap Z Z :=
  match inputs with
  | [] => m
  | connSeq :: inputs =>
      if decide (connSeq ∈ l) then m
      else
        let l := connSeq :: l in
        if decide (MaxRecordedConnectionSequences < length l)%nat then
          match last l with
          | Some evictSeq => evictSequences inputs (take (length l - 1) l) (delete evictSeq m)
          | None => evictSequences inputs l m
          end
        else evictSequences inputs l m
  end.

(** ** The database *)

Record Database := MkDatabase { db_kayakRuntime : Runtime W Service; db_accountAddr : AccountAddress }.
Implicit Types (db : Database).
Abbreviation DBM := (GoM Database werror).

Definition db_service db : Service := rt_sh (db_kayakRuntime db).
Definition set_service db s : Database := MkDatabase (set_sh (db_kayakRuntime db) s) (db_accountAddr db).

Definition onChain {A} (m : GoM (Chain (C := C) (D := D)) serror A) : DBM A := λ db,
  let '(r, c) := m (sv_chain (db_service db)) in
  (match r with Ok a => Ok a | Err e => Err (WErr.OfChain e) | Panic => Panic end,
   set_service db (set_chain (db_service db) c)).
Definition onKayak {A} (m : GoM (Runtime W Service) kerror A) : DBM A := λ db,
  let '(r, rt) := m (db_kayakRuntime db) in
  (match r with Ok a => Ok a | Err e => Err (WErr.OfKayak e) | Panic => Panic end, MkDatabase rt (db_accountAddr db)).
Definition wrapW {S A} (m : GoM S werror A) : GoM S werror A :=
  res ← attempt m; match res with inl e => throw (WErr.Wrap e) | inr a => mret a end.

(** [chain.Query] of a database, at the present time. *)
Definition chainQuery req (isLeader : bool) : DBM (nat * Response) := λ db,
  let '(r, s) := query req isLeader (db_service db) in
  (match r with Ok a => Ok a | Err e => Err (WErr.OfChain e) | Panic => Panic end, set_service db s).

Definition checkSpace (stat : fileStat) (limit : Z) : GoResult werror unit :=
  if decide (0 < limit) then
    match stat with
    | StatError e => Err e
    | StatNotExist => Ok tt
    | StatSize n => if decide (limit < u64 n) then Err WErr.ErrSpaceLimitExceeded else Ok tt
    end
  else Ok tt.

(** [writeQuery]: [stat] is the state of the storage file, [answers] and [wait] what
    the followers answer and how long the context lasts. *)
Definition writeQuery (stat : fileStat) (answers : list (NodeID * option kerror)) (wait : commitWait) req
    : DBM (nat * Response) :=
  db ← getS;
  liftR (checkSpace stat (dc_SpaceLimit (sv_cfg (db_service db))));;
  res ← wrapW (onKayak (Apply req answers wait));
  mret res.1.

Definition set_ResponseAccount (resp : Response) (a : AccountAddress) : Response :=
  let h := sr_Header (re_Header resp) in
  MkResponse (MkSignedResponseHeader
    (MkResponseHeader (rs_Request h) (rs_RequestHash h) (rs_NodeID h) (rs_Timestamp h) (rs_RowCount h) (rs_LogOffset h)
       (rs_LastInsertID h) (rs_AffectedRows h) (rs_PayloadHash h) a) (sr_ResponseHash (re_Header resp))) (re_Payload resp).

Definition Database_Query (stat : fileStat) (answers : list (NodeID * option kerror)) (wait : commitWait) req : DBM Response :=
  db ← getS;
  tr ← (if decide (rh_QueryType (rq_Header req) = ReadQuery) then wrapW (chainQuery req false)
        else if decide (rh_QueryType (rq_Header req) = WriteQuery) then
          if dc_UseEventualConsistency (sv_cfg (db_service db)) then wrapW (chainQuery req true)
          else wrapW (writeQuery stat answers wait req)
        else throw (WErr.Wrap WErr.ErrInvalidRequest));
  let response := set_ResponseAccount tr.2 (db_accountAddr db) in
  response ← wrapW (onChain (liftR (Response_BuildHash response)));
  onChain (AddResponse (re_Header response));;
  onChain (onState (UpdateResp tr.1 response));;
  mret response.

Definition Database_Ack (ack : SignedAckHeader) : DBM unit := onChain (VerifyAndPushAckedQuery ack).

(** Kayak's [UpdatePeers] does nothing. *)
Definition Database_UpdatePeers (servers : list NodeID) : DBM unit := onChain (UpdatePeers servers).

(** [Shutdown]: Kayak and then the chain stop.  The caller takes the database from
    the multiplexer of Kayak in between. *)
Definition Database_Shutdown : DBM unit :=
  modifyS (λ db, MkDatabase (Shutdown (db_kayakRuntime db)) (db_accountAddr db));;
  onChain Stop.
End database.
