(* ===== verification/WorkerProps.v ===== *)
(** * Requests of a connection are served in order

    The checks of [Worker], run concurrently with each other and with commits: what
    they accept is signed and recent, and has a larger sequence number than everything
    its connection had before, when the checks of that connection do not overlap. *)
From S2P Require Import Prelude Hash Types SqlTypes Sanitizer Xenomint AckIndex Bytes LevelDB SqlNode SqlBilling SqlChain.
From S2P Require Import KayakWal Kayak Worker.
From Stdlib Require Import String ZArith Lia Sorted.
From stdpp Require Import base list gmap strings sorting.
Local Open Scope Z_scope.

Section order.
Context `{SqlEnv} `{!SqlParser} {C : Type} `{!SqlStore SqlValue C} {D : Type} `{!LevelDB serror D}.
Context `{!MsgPack Block} `{!MsgPack SignedAckHeader} `{!MsgPack SignedResponseHeader} `{!BillingVersion}.
Context `{!MsgPack Request} {W : Type} `{!Wal W}.
Abbreviation Service := (Service (C := C) (D := D)).
Implicit Types (s : Service) (req : Request).

Definition connectionOf (p : Request * Z) : Z := rh_ConnectionID (rq_Header p.1).
Definition seqNoOf (p : Request * Z) : Z := rh_SeqNo (rq_Header p.1).

(** ** Concurrent checks *)

(** What happens to a database: a check begins and compares the sequence number, the
    [i]th check under way ends and stores its number, a request is committed. *)
Inductive serviceOp := CheckBegin (req : Request) | CheckEnd (i : nat) | OpCommit (req : Request) (isLeader : bool).

(** The requests that are accepted, with the time of their checks; [under] holds those
    whose check is under way. *)
Fixpoint accepted (ops : list serviceOp) s (under : list (Request * Z)) : list (Request * Z) :=
  match ops with
  | [] => []
  | CheckBegin req :: ops =>
      match service_CheckVerify req s with
      | (None, s') => accepted ops s' (under ++ [(req, getLocalTime s)])
      | (Some _, s') => accepted ops s' under
      end
  | CheckEnd i :: ops =>
      match under !! i with
      | Some p => p :: accepted ops (service_CheckRecord p.1 s) (delete i under)
      | None => accepted ops s under
      end
  | OpCommit req b :: ops => accepted ops (Commit req b s).2 under
  end.

(** No check of [conn] begins while another one of it is under way. *)
Fixpoint inTurn (conn : Z) (ops : list serviceOp) s (under : list (Request * Z)) : bool :=
  match ops with
  | [] => true
  | CheckBegin req :: ops =>
      match service_CheckVerify req s with
      | (None, s') => bool_decide (rh_ConnectionID (rq_Header req) = conn → Forall (λ p, connectionOf p ≠ conn) under) &&
          inTurn conn ops s' (under ++ [(req, getLocalTime s)])
      | (Some _, s') => inTurn conn ops s' under
      end
  | CheckEnd i :: ops =>
      match under !! i with
      | Some p => inTurn conn ops (service_CheckRecord p.1 s) (delete i under)
      | None => inTurn conn ops s under
      end
  | OpCommit req b :: ops => inTurn conn ops (Commit req b s).2 under
  end.

(** The requests of a connection, and their sequence numbers in order. *)
Definition ofConn (conn : Z) (ps : list (Request * Z)) : list (Request * Z) := filter (λ p, connectionOf p = conn) ps.
Definition seqNos (conn : Z) (ps : list (Request * Z)) : list Z := seqNoOf <$> ofConn conn ps.

(** Verified, and within the allowed time of the clock. *)
Definition vetted (gap : Z) (p : Request * Z) : Prop :=
  Request_Verify p.1 = Ok tt ∧ Z.abs (rh_Timestamp (rq_Header p.1) - p.2) <= gap.

Lemma CheckVerify_inv req s e s' : service_CheckVerify req s = (e, s') →
  sv_connSeqs s' = sv_connSeqs s ∧ sv_cfg s' = sv_cfg s ∧
  (e = None → vetted (dc_MaxWriteTimeGap (sv_cfg s)) (req, getLocalTime s) ∧
    ∀ last, sv_connSeqs s !! rh_ConnectionID (rq_Header req) = Some last → last < rh_SeqNo (rq_Header req)).
Proof.
  unfold service_CheckVerify, vetted. cbn [fst snd]. destruct (Request_Verify req) as [[]|?|]; [|by intros [= <- <-]..].
  case_decide as Ht; intros [= <- <-]; (split; [done|]; split; [done|]); [done|]. cbn in Ht. unfold verifySequence. cbn.
  destruct (sv_connSeqs s !! _) as [last|]; [case_decide; [done|]|]; intros _; (split; [split; [done|cbn; lia]|]); [|done].
  intros l [= <-]. lia.
Qed.
Lemma Commit_frame req b s : sv_connSeqs (Commit req b s).2 = sv_connSeqs s ∧ sv_cfg (Commit req b s).2 = sv_cfg s.
Proof.
  unfold Commit. cbn. unfold service_Commit, query. destruct (Chain_query _ _ _ _) as [r c]. by destruct r.
Qed.

Lemma accepted_vetted gap ops s under : dc_MaxWriteTimeGap (sv_cfg s) = gap → Forall (vetted gap) under →
  Forall (vetted gap) (accepted ops s under).
Proof.
  revert s under. induction ops as [|[req|i|req b] ops IH]; intros s under Hg Hu; cbn [accepted].
  - constructor.
  - destruct (service_CheckVerify req s) as [e s'] eqn:Hc. apply CheckVerify_inv in Hc as (_ & Hcfg & Hv).
    destruct e; apply IH; try congruence. apply Forall_app. split; [done|]. apply Forall_singleton. rewrite <- Hg. by apply Hv.
  - destruct (under !! i) as [p|] eqn:Hp; [|by apply IH]. constructor; [by eapply Forall_lookup_1|]. apply IH; [done|].
    by apply Forall_delete.
  - destruct (Commit_frame req b s) as [_ Hcfg]. apply IH; congruence.
Qed.

(** At most one check of the connection is under way, and its number is new. *)
Definition oneCheck (conn : Z) s (under : list (Request * Z)) : Prop :=
  ofConn conn under = [] ∨ ∃ p, ofConn conn under = [p] ∧ ∀ last, sv_connSeqs s !! conn = Some last → last < seqNoOf p.

Lemma seqNos_cons conn p ps :
  seqNos conn (p :: ps) = if decide (connectionOf p = conn) then seqNoOf p :: seqNos conn ps else seqNos conn ps.
Proof. unfold seqNos, ofConn. rewrite filter_cons. by case_decide. Qed.
Lemma ofConn_none conn under : Forall (λ p, connectionOf p ≠ conn) under → ofConn conn under = [].
Proof. unfold ofConn. induction 1 as [|p under Hp _ IH]; [done|]. by rewrite filter_cons, decide_False. Qed.
Lemma ofConn_delete conn i under p : under !! i = Some p →
  (connectionOf p = conn → ∃ l1 l2, ofConn conn under = l1 ++ p :: l2 ∧ ofConn conn (delete i under) = l1 ++ l2) ∧
  (connectionOf p ≠ conn → ofConn conn (delete i under) = ofConn conn under).
Proof.
  intros Hp. pose proof (take_drop_middle under i p Hp) as Hu. unfold ofConn. rewrite delete_take_drop.
  generalize dependent (drop (S i) under). generalize (take i under). intros l1 l2 <-. rewrite !filter_app, filter_cons.
  split; intros Hc; [rewrite decide_True by done; by do 2 eexists|by rewrite decide_False].
Qed.

Lemma inTurn_sorted conn ops s under : inTurn conn ops s under = true → oneCheck conn s under →
  StronglySorted Z.lt (seqNos conn (accepted ops s under)) ∧
  ∀ last, sv_connSeqs s !! conn = Some last → Forall (λ n, last < n) (seqNos conn (accepted ops s under)).
Proof.
  revert s under. induction ops as [|[req|i|req b] ops IH]; intros s under; cbn [accepted inTurn].
  - intros _ _. split; constructor.
  - destruct (service_CheckVerify req s) as [e s'] eqn:Hc. apply CheckVerify_inv in Hc as (Hq & _ & Hv). rewrite <- Hq.
    destruct e as [e|]; [intros Hi Ho; apply IH; [done|]; unfold oneCheck in *; by rewrite Hq|].
    intros [Halone%bool_decide_eq_true Hi]%andb_true_iff Ho. apply IH; [done|]. unfold oneCheck in *. unfold ofConn in *. rewrite filter_app, filter_cons, filter_nil.
    case_decide as Hd; [|by rewrite app_nil_r, Hq]. unfold connectionOf in Hd. cbn in Hd. subst conn. right.
    exists (req, getLocalTime s). rewrite Hq. split; [|by apply Hv].
    fold (ofConn (rh_ConnectionID (rq_Header req)) under). by rewrite ofConn_none by (by apply Halone).
  - destruct (under !! i) as [p|] eqn:Hp; [|by apply IH]. intros Hi Ho.
    destruct (ofConn_delete conn i under p Hp) as [Hin Hout]. rewrite seqNos_cons. case_decide as Hd.
    + destruct (Hin Hd) as (l1 & l2 & Hl & Hl'). destruct Ho as [Ho|(p' & Ho & Hlast)]; rewrite Hl in Ho; [by destruct l1|].
      assert (l1 = [] ∧ l2 = [] ∧ p' = p) as (-> & -> & ->) by (destruct l1 as [|? []]; [by injection Ho|done..]).
      destruct (IH _ _ Hi) as [Hs Ha]; [by left|]. unfold connectionOf in Hd.
      assert (Forall (λ n, seqNoOf p < n) (seqNos conn (accepted ops (service_CheckRecord p.1 s) (delete i under)))) as Hgt.
      { apply Ha. unfold service_CheckRecord, recordSequence. cbn. rewrite Hd. apply lookup_insert_eq. }
      split; [by constructor|]. intros last Hl0. specialize (Hlast last Hl0). constructor; [done|].
      eapply Forall_impl; [exact Hgt|]. cbn. intros n. lia.
    + assert (sv_connSeqs (service_CheckRecord p.1 s) !! conn = sv_connSeqs s !! conn) as Hq.
      { unfold service_CheckRecord, recordSequence. cbn. by apply lookup_insert_ne. }
      rewrite <- Hq. apply IH; [done|]. unfold oneCheck in *. by rewrite Hq, Hout.
  - destruct (Commit_frame req b s) as [Hq _]. rewrite <- Hq. intros Hi Ho. apply IH; [done|]. unfold oneCheck in *. by rewrite Hq.
Qed.

(** C19: Requests of a connection are accepted in order.  Checks run concurrently, the
    comparison of the sequence number and its storing being separate steps, with commits
    in between.  Every request that is accepted is verified and within the allowed time
    of the clock.  On a connection of which no check begins while another one is under
    way, whatever happens on other connections, the accepted sequence numbers grow
    strictly, also above the last number recorded at the start: no request of it is
    accepted twice.  Checks of one connection that overlap can accept a request twice. *)
Theorem connection_order (ops : list serviceOp) s :
  Forall (vetted (dc_MaxWriteTimeGap (sv_cfg s))) (accepted ops s []) ∧
  ∀ conn, inTurn conn ops s [] = true → StronglySorted Z.lt (seqNos conn (accepted ops s [])) ∧
    ∀ last, sv_connSeqs s !! conn = Some last → Forall (λ n, last < n) (seqNos conn (accepted ops s [])).
Proof.
  split; [apply accepted_vetted; [done|constructor]|]. intros conn Hi. apply inTurn_sorted; [done|by left].
Qed.
End order.
