(* ===== verification/DbReplica.v ===== *)
(** * The replicas of a database agree

    Puts Kayak, the worker and xenomint together: a leader and its followers run the
    database service of [Worker] under Kayak.  Commits of the same request on states
    that are in step, one as the leader and one as a follower, succeed or fail alike
    and leave states in step; so every replica has the content and the sequence
    number that the committed requests give, up to the point it has reached. *)
From S2P Require Import Prelude Hash Types SqlTypes Sanitizer Xenomint XenoProps AckIndex Bytes LevelDB SqlNode SqlBilling SqlChain.
From S2P Require Import KayakWal Kayak KayakInv KayakProps Worker.
From Stdlib Require Import String ZArith Lia.
From stdpp Require Import base list gmap strings relations.
Local Open Scope Z_scope.

(** ** Two states side by side *)

Section xeno.
Context `{SqlEnv} `{!SqlParser} {C D : Type} `{!SqlStore SqlValue C} `{!SqlLaws SqlValue C D}.
Implicit Types (s t : State (C := C)) (q : Query) (req : Request).
Abbreviation XM := (GoM (State (C := C)) serror).
Context (ru : bool).

(** Commits, begins and savepoints do not fail. *)
Definition faultless : Prop := reliable (C := C) ∧ ∀ (c : C) args,
  (∃ x, (db_Exec SAVEPOINT args c).1 = Ok x) ∧ (saves c ≠ [] → ∃ x, (db_Exec RELEASE_SAVEPOINT args c).1 = Ok x).

(** All that decides the fate of a write at the isolation level [ru]: not the pool and
    the trackers. *)
Record inStep s t : Prop := {
  is_content : content (xs_conn s) = content (xs_conn t);
  is_saves : saves (xs_conn s) = saves (xs_conn t);
  is_isolation : xs_readUncommitted s = ru;
  is_isolation' : xs_readUncommitted t = ru;
  is_maxTx : xs_maxTx s = xs_maxTx t;
  is_current : xs_current s = xs_current t;
  is_commitPoint : xs_lastCommitPoint s = xs_lastCommitPoint t;
  is_schema : xs_hasSchemaChange s = xs_hasSchemaChange t;
  is_idle : ru = false → inTx (xs_conn s) = false;
  is_idle' : ru = false → inTx (xs_conn t) = false;
}.
Lemma inStep_sym s t : inStep s t → inStep t s.
Proof. intros []. by split. Qed.
Lemma inStep_trans s t u : inStep s t → inStep t u → inStep s u.
Proof. intros [] []. split; first [congruence|done]. Qed.

(** With a savepoint open. *)
Definition inStepSaved s t : Prop := inStep s t ∧ saves (xs_conn s) ≠ [].

(** A relation of states in step that plain statements keep. *)
Record steady (J : State (C := C) → State (C := C) → Prop) : Prop := {
  sd_inStep s t : J s t → inStep s t;
  sd_closed s t s' t' : J s t → inStep s' t' → saves (xs_conn s') = saves (xs_conn s) → J s' t';
}.
Lemma steady_inStep : steady inStep.
Proof. by split. Qed.
Lemma steady_saved : steady inStepSaved.
Proof. split; [by intros ? ? [? _]|]. intros s t s' t' [? ?] ? Hs. split; [done|]. by rewrite Hs. Qed.
Hint Resolve steady_inStep steady_saved : core.

(** Two computations from states in [I] end alike: both with results in [R] and
    states in [J], both with an error and states in step, or both in a panic. *)
Definition alike {A B} (R : A → B → Prop) (J : State → State → Prop) (x : GoResult serror A * State) (y : GoResult serror B * State) : Prop :=
  match x, y with
  | (Ok a, s), (Ok b, t) => R a b ∧ J s t
  | (Err _, s), (Err _, t) => inStep s t
  | (Panic, _), (Panic, _) => True
  | _, _ => False
  end.
Definition together {A B} (I : State → State → Prop) (R : A → B → Prop) (J : State → State → Prop) (m : XM A) (m' : XM B) : Prop :=
  ∀ s t, I s t → alike R J (m s) (m' t).
Definition anyRel {A B} (_ : A) (_ : B) : Prop := True.

Lemma together_bind {A B A' B'} I (R : A → B → Prop) J (R' : A' → B' → Prop) K (m : XM A) (m' : XM B) k k' :
  together I R J m m' → (∀ a b, R a b → together J R' K (k a) (k' b)) → together I R' K (mbind k m) (mbind k' m').
Proof.
  intros Hm Hk s t Hst. specialize (Hm s t Hst). unfold mbind, gom_bind, alike in *.
  destruct (m s) as [[a|e|] s1], (m' t) as [[b|e'|] t1]; try done. destruct Hm as [HR HJ]. by apply Hk.
Qed.
Lemma together_try {A B A' B'} I (R : A → B → Prop) J (R' : A' → B' → Prop) K (m : XM A) (m' : XM B) h h' k k' :
  together I R J m m' → (∀ e e', together inStep R' K (h e) (h' e')) → (∀ a b, R a b → together J R' K (k a) (k' b)) →
  together I R' K (res ← attempt m; match res with inl e => h e | inr a => k a end)
    (res ← attempt m'; match res with inl e => h' e | inr a => k' a end).
Proof.
  intros Hm Hh Hk s t Hst. specialize (Hm s t Hst). unfold attempt, mbind, gom_bind, alike in *.
  destruct (m s) as [[a|e|] s1], (m' t) as [[b|e'|] t1]; try done; [destruct Hm as [HR HJ]; by apply Hk|by apply Hh].
Qed.
Lemma together_ret {A B} (I : State → State → Prop) (R : A → B → Prop) a b : R a b → together I R I (mret a : XM A) (mret b : XM B).
Proof. by intros HR s t Hst. Qed.
Lemma together_throw {A B} (I : State → State → Prop) (R : A → B → Prop) J e e' : (∀ s t, I s t → inStep s t) →
  together I R J (throw e : XM A) (throw e' : XM B).
Proof. intros HI s t Hst. by apply HI. Qed.
Lemma together_modify (I J : State → State → Prop) f f' : (∀ s t, I s t → J (f s) (f' t)) →
  together I anyRel J (modifyS f : XM unit) (modifyS f' : XM unit).
Proof. intros Hf s t Hst. split; [done|by apply Hf]. Qed.
Lemma together_get I : together I I I (getS : XM State) (getS : XM State).
Proof. by intros s t Hst. Qed.

(** *** Statements *)

Lemma together_exec_plain (J : State → State → Prop) pattern args : plain pattern = true → steady J →
  together J anyRel J (exec pattern args : XM (Z * Z)) (exec pattern args : XM (Z * Z)).
Proof.
  intros Hp HJ s t Hst. pose proof (sd_inStep _ HJ _ _ Hst) as [Hc Hs ? ? ? ? ? ? Hi Hi']. unfold exec, alike.
  destruct (db_Exec pattern args (xs_conn s)) as [r c] eqn:He, (db_Exec pattern args (xs_conn t)) as [r' c'] eqn:He'.
  destruct (plain_Exec _ _ _ _ _ Hp He) as (Hr & Hsv & Htx). destruct (plain_Exec _ _ _ _ _ Hp He') as (Hr' & Hsv' & Htx').
  rewrite Hc, Hr' in Hr. apply pair_equal_spec in Hr as [-> Hcc].
  assert (inStep (set_conn s c) (set_conn t c')) as Hnew.
  { split; try done; cbn; [congruence|intros Hf; rewrite Htx; by apply Hi|intros Hf; rewrite Htx'; by apply Hi']. }
  destruct r as [x|e|]; [split; [done|]|exact Hnew|done]. by eapply (sd_closed _ HJ s t).
Qed.

Lemma together_writeSingle J q : plainQuery q → steady J →
  together J anyRel J (writeSingle q : XM (Z * Z)) (writeSingle q : XM (Z * Z)).
Proof.
  intros Hp HJ. unfold writeSingle. unfold plainQuery in Hp.
  destruct (convertQueryAndBuildArgs (qu_Pattern q) (qu_Args q)) as [[[ddl pattern] args]|e|]; [|apply together_throw, HJ|by intros s t _].
  eapply together_bind; [apply together_exec_plain; [by eapply Hp|done]|]. intros a b _.
  assert (∀ f : State → State, (∀ s, saves (xs_conn (f s)) = saves (xs_conn s)) → (∀ s t, inStep s t → inStep (f s) (f t)) →
    together J anyRel J (modifyS f : XM unit) (modifyS f : XM unit)) as Hmod.
  { intros f Hsv Hf. apply together_modify. intros s t Hst. eapply (sd_closed _ HJ); [exact Hst|apply Hf; by apply HJ|apply Hsv]. }
  eapply (together_bind _ anyRel J).
  { destruct ddl; [|by apply together_ret]. apply Hmod; [done|]. intros s t []. by split. }
  intros _ _ _. eapply (together_bind _ anyRel J).
  { unfold incSeq. apply Hmod; [done|]. intros s t []. split; try done. cbn. congruence. }
  intros _ _ _. by apply together_ret.
Qed.

Lemma together_writeLoop J qs tot tot' l l' : Forall plainQuery qs → steady J →
  together J anyRel J (writeLoop qs tot l : XM (Z * Z)) (writeLoop qs tot' l' : XM (Z * Z)).
Proof.
  intros Hp HJ. revert tot tot' l l'. induction Hp as [|q qs Hq _ IH]; intros tot tot' l l'; cbn [writeLoop];
    [by apply together_ret|].
  eapply together_bind; [by apply together_writeSingle|]. intros a b _. apply IH.
Qed.

(** *** The parts of a write *)

Lemma together_flush : reliable (C := C) → together inStep anyRel inStep (flushHandler : XM unit) (flushHandler : XM unit).
Proof.
  intros Hrel s t [Hc Hs Hr Hr' ? Hcur ? ? Hi Hi']. unfold flushHandler, commitHandler, openHandler, fatal, onConn. go_unfold. rewrite Hr, Hr'.
  destruct ru eqn:Hru; go_unfold.
  - destruct (Hrel (xs_conn s)) as [Hk _], (Hrel (xs_conn t)) as [Hk' _].
    destruct (db_Commit (xs_conn s)) as [e c] eqn:He, (db_Commit (xs_conn t)) as [e' c'] eqn:He'. cbn in Hk, Hk'. subst e e'. go_unfold.
    cbn [xs_readUncommitted set_conn set_commitPoint set_schemaChange xs_conn]. rewrite Hr, Hr'.
    cbn [xs_conn set_conn set_commitPoint set_schemaChange].
    destruct (Hrel c) as [_ Hb], (Hrel c') as [_ Hb'].
    destruct (db_Begin c) as [e c1] eqn:Hd, (db_Begin c') as [e' c1'] eqn:Hd'. cbn in Hb, Hb'. subst e e'. go_unfold.
    apply commit_content in He as [He _], He' as [He' _]. apply begin_content in Hd as [Hd Hds], Hd' as [Hd' Hds'].
    split; [done|]. split; cbn; congruence.
  - cbn [xs_readUncommitted set_commitPoint set_schemaChange]. rewrite Hr, Hr'. go_unfold.
    split; [done|]. split; cbn; try congruence; auto.
Qed.

Lemma together_flushIfNeeded : reliable (C := C) →
  together inStep anyRel inStep (flushIfNeeded : XM unit) (flushIfNeeded : XM unit).
Proof.
  intros Hrel. unfold flushIfNeeded. eapply together_bind; [apply together_get|]. intros a b [? ? ? ? Hm Hc Hp Hsc ? ?].
  rewrite <- Hm, <- Hc, <- Hp, <- Hsc. case_decide; [by apply together_flush|by apply together_ret].
Qed.

Lemma together_release (sp : bool) (n n' : Z) : faultless → (sp = true → ru = true) →
  together (if sp then inStepSaved else inStep) anyRel inStep (releaseStep sp n : XM unit) (releaseStep sp n' : XM unit).
Proof.
  intros [_ Hfl] Hru. destruct sp; [|by apply together_ret]. specialize (Hru eq_refl). intros s t [[Hc Hs Hr Hr' ? ? ? ? Hi Hi'] Hne].
  unfold releaseStep, wrappingX, exec. go_unfold.
  destruct (Hfl (xs_conn s) [SeqArg n]) as [_ [x Hx]]; [done|]. destruct (Hfl (xs_conn t) [SeqArg n']) as [_ [y Hy]]; [by rewrite <- Hs|].
  destruct (db_Exec RELEASE_SAVEPOINT [SeqArg n] (xs_conn s)) as [r c] eqn:He.
  destruct (db_Exec RELEASE_SAVEPOINT [SeqArg n'] (xs_conn t)) as [r' c'] eqn:He'. cbn in Hx, Hy. subst r r'. go_unfold.
  apply release_Exec in He as [He Hes], He' as [He' Hes'].
  split; [done|]. split; cbn; try done; congruence.
Qed.
Lemma together_onPool f g : together inStep anyRel inStep (onPool f : XM unit) (onPool g : XM unit).
Proof. apply together_modify. intros s t []. by split. Qed.

(** The savepoint of a request. *)
Definition savepointOf req : bool := bool_decide (1 < length (rq_Queries req))%nat && ru.
Lemma savepointOf_eq s t req : inStep s t → bool_decide (1 < length (rq_Queries req))%nat && xs_readUncommitted s = savepointOf req ∧
  bool_decide (1 < length (rq_Queries req))%nat && xs_readUncommitted t = savepointOf req.
Proof. intros [? ? Hr Hr' ? ? ? ? ? ?]. by rewrite Hr, Hr'. Qed.
Definition bodyRel req : State (C := C) → State (C := C) → Prop := if savepointOf req then inStepSaved else inStep.
Lemma steady_body req : steady (bodyRel req).
Proof. unfold bodyRel. destruct (savepointOf req); auto. Qed.

(** The statements of a request, its release, the flush and the pooling. *)
Lemma together_writeBody req b b' n n' r r' : faultless → plainRequest req →
  together (bodyRel req) anyRel inStep (writeBody req b n r : XM (Z * Z)) (writeBody req b' n' r' : XM (Z * Z)).
Proof.
  intros Hfl Hp. pose proof (steady_body req) as Hsd. unfold writeBody.
  eapply together_bind; [apply together_get|]. intros s t Hst.
  destruct (savepointOf_eq s t req) as [-> ->]; [by apply Hsd|].
  apply (together_try _ anyRel (bodyRel req)); [by apply together_writeLoop| |].
  - intros e e'. eapply together_bind; [apply together_onPool|]. intros _ _ _. by apply together_throw.
  - intros res res' _. eapply together_bind; [apply together_release; [done|]|].
    { unfold savepointOf. by intros [_ ?]%andb_prop. }
    intros _ _ _. eapply together_bind; [apply together_flushIfNeeded, Hfl|]. intros _ _ _.
    eapply (together_bind _ anyRel inStep); [|intros _ _ _; by apply together_ret].
    destruct b, b'; [apply together_onPool|..|by apply together_ret]; intros u v []; by repeat split.
Qed.

(** The cleanups that are deferred. *)
Lemma together_defer {A B} I (R : A → B → Prop) cl cl' (m : XM A) (m' : XM B) :
  (∀ s t, inStep s t → inStep (cl s).2 (cl' t).2) → together I R inStep m m' →
  together I R inStep (deferring cl m) (deferring cl' m').
Proof.
  intros Hcl Hm s t Hst. specialize (Hm s t Hst). unfold deferring, alike in *.
  destruct (m s) as [[a|e|] s1], (m' t) as [[b|e'|] t1]; try done; [destruct Hm as [? ?]; split; [done|]|]; by apply Hcl.
Qed.

Lemma ignoring_state {A} (m : XM A) s : (ignoring m s).2 = (m s).2.
Proof. unfold ignoring. go_unfold. by destruct (m s) as [[| |] ?]. Qed.

Lemma cleanup_rollback_to n n' s t : ru = true → inStep s t →
  inStep (ignoring (exec ROLLBACK_TO [SeqArg n]) s).2 (ignoring (exec ROLLBACK_TO [SeqArg n']) t).2.
Proof.
  intros Hru [Hc Hs Hr Hr' ? ? ? ? Hi Hi']. rewrite !ignoring_state. unfold exec.
  destruct (db_Exec ROLLBACK_TO [SeqArg n] (xs_conn s)) as [r c] eqn:He.
  destruct (db_Exec ROLLBACK_TO [SeqArg n'] (xs_conn t)) as [r' c'] eqn:He'.
  apply rollback_to_Exec in He as [He Hes], He' as [He' Hes']. split; cbn; try congruence. by rewrite Hes, Hes', Hs, Hc.
Qed.
Lemma cleanup_rollback s t : ru = false → inStep s t →
  inStep (ignoring (exec "ROLLBACK" []) s).2 (ignoring (exec "ROLLBACK" []) t).2.
Proof.
  intros Hru [Hc Hs Hr Hr' ? ? ? ? Hi Hi']. rewrite !ignoring_state. unfold exec.
  destruct (db_Exec "ROLLBACK" [] (xs_conn s)) as [r c] eqn:He, (db_Exec "ROLLBACK" [] (xs_conn t)) as [r' c'] eqn:He'.
  apply rollback_Exec in He as (He & Hes & Het); [|by apply Hi]. apply rollback_Exec in He' as (He' & Hes' & Het'); [|by apply Hi'].
  split; cbn; try congruence; done.
Qed.

Lemma bind_get {A} (k : State → XM A) s : mbind k getS s = k s s.
Proof. done. Qed.

(** The savepoint is set on both sides. *)
Lemma together_savepoint n n' : faultless → ru = true →
  together inStep anyRel inStepSaved
    (wrappingX (exec SAVEPOINT [SeqArg n]) : XM (Z * Z)) (wrappingX (exec SAVEPOINT [SeqArg n']) : XM (Z * Z)).
Proof.
  intros [_ Hfl] Hru s t [Hc Hs Hr Hr' ? ? ? ? Hi Hi']. unfold wrappingX, exec. go_unfold.
  destruct (Hfl (xs_conn s) [SeqArg n]) as [[x Hx] _], (Hfl (xs_conn t) [SeqArg n']) as [[y Hy] _].
  destruct (db_Exec SAVEPOINT [SeqArg n] (xs_conn s)) as [r c] eqn:He.
  destruct (db_Exec SAVEPOINT [SeqArg n'] (xs_conn t)) as [r' c'] eqn:He'. cbn in Hx, Hy. subst r r'. go_unfold.
  apply savepoint_Exec in He as [He Hes], He' as [He' Hes'].
  split; [done|]. split; [split; cbn; congruence|]. cbn. by rewrite Hes.
Qed.

Lemma together_writeLocked req b b' r r' : faultless → plainRequest req →
  together inStep anyRel inStep (writeLocked req b r : XM (Z * Z)) (writeLocked req b' r' : XM (Z * Z)).
Proof.
  intros Hfl Hp. unfold writeLocked. eapply together_bind; [apply together_get|]. intros s t Hst.
  destruct (savepointOf_eq s t req Hst) as [-> ->]. rewrite (is_isolation _ _ Hst), (is_isolation' _ _ Hst).
  pose proof (together_writeBody req b b' (xs_current s) (xs_current t) r r' Hfl Hp) as Hb. unfold bodyRel in Hb.
  destruct (savepointOf req) eqn:Hsp; [|destruct ru eqn:Hru].
  - apply andb_prop in Hsp as [_ Hru]. eapply together_bind; [by apply together_savepoint|]. intros _ _ _.
    apply together_defer; [intros u v; by apply cleanup_rollback_to|exact Hb].
  - exact Hb.
  - apply together_defer; [intros u v; by apply cleanup_rollback|exact Hb].
Qed.

(** A write of a leader and of a follower. *)
Lemma together_write (now now' : Z) req b b' : faultless → plainRequest req →
  together inStep anyRel inStep (write now req b : XM (nat * Response)) (write now' req b' : XM (nat * Response)).
Proof.
  intros Hfl Hp. unfold write, newTracker.
  eapply (together_bind _ anyRel inStep).
  { eapply together_bind; [apply together_get|]. intros s t Hst. eapply (together_bind _ anyRel inStep); [|intros _ _ _; by apply together_ret].
    apply together_modify. intros u v []. by split. }
  intros q q' _. eapply together_bind; [apply together_get|]. intros s t _.
  eapply together_bind; [by apply together_writeLocked|]. intros res res' _.
  eapply together_bind; [apply together_get|]. intros u v _. by apply together_ret.
Qed.

(** A read changes neither content nor sequence number. *)
Lemma readTx_inStep (now : Z) req s t : inStep s t → inStep (readTx now req s).2 t.
Proof.
  intros Hst. unfold readTx. go_unfold. destruct (if _ && _ then None else _) as [e|]; [done|].
  destruct (readLoop _ _ _ s) as [r1 s1] eqn:Hl. pose proof (readLoop_state _ _ _ _ _ _ Hl) as ->.
  destruct r1 as [[[cn ct] data]|e|]; [..|done]; destruct (_ && _); try done; unfold newTracker, onPool; go_unfold; destruct Hst; by split.
Qed.

(** A request of any kind, as leader or follower. *)
Lemma query_inStep (now now' : Z) req b b' s t : faultless → plainRequest req → inStep s t →
  (QueryWithContext now req b s).1 ≠ Panic → inStep (QueryWithContext now req b s).2 (QueryWithContext now' req b' t).2.
Proof.
  intros Hfl Hp Hst Hnp. unfold QueryWithContext in *. case_decide; [|case_decide; [|done]].
  - apply readTx_inStep. apply inStep_sym, readTx_inStep, inStep_sym, Hst.
  - pose proof (together_write now now' req b b' Hfl Hp s t Hst) as Hw. unfold alike in Hw.
    destruct (write now req b s) as [[a|e|] s1], (write now' req b' t) as [[a'|e'|] t1]; try done. apply Hw.
Qed.
End xeno.

(** ** The service under Kayak *)

Section replicas.
Context `{SqlEnv} `{!SqlParser} {C DC : Type} `{!SqlStore SqlValue C} `{!SqlLaws SqlValue C DC} {D : Type} `{!LevelDB serror D}.
Context `{!MsgPack Block} `{!MsgPack SignedAckHeader} `{!MsgPack SignedResponseHeader} `{!BillingVersion}.
Context `{!MsgPack Request} {W : Type} `{!Wal W}.
Abbreviation Service := (Service (C := C) (D := D)).
Implicit Types (s t : Service) (req : Request).

Definition sv_state s : State (C := C) := sc_st (sv_chain s).
(** What a client can see of a database: its content and its sequence number. *)
Definition sv_view s : DC * Z := (db (sv_state s), xs_current (sv_state s)).
Definition sv_inStep (ru : bool) s t : Prop := inStep ru (sv_state s) (sv_state t).

Lemma inStep_view ru s t : sv_inStep ru s t → sv_view s = sv_view t.
Proof. intros []. unfold sv_view, db. congruence. Qed.

(** The content after the requests of a list: a leader that executes nothing else. *)
Definition after s (reqs : list Request) : Service := foldl (λ s req, (Commit req true s).2) s reqs.

Lemma Commit_state req b s : sv_state (Commit req b s).2 = (QueryWithContext (getLocalTime s) req b (sv_state s)).2 ∧
  ((Commit req b s).1 = Panic ↔ (QueryWithContext (getLocalTime s) req b (sv_state s)).1 = Panic).
Proof.
  unfold Commit. cbn. unfold service_Commit, query, Chain_query, onState, sv_state.
  destruct (QueryWithContext _ _ _ _) as [[r|e|] st]; by split.
Qed.
Lemma Check_state req s : sv_state (Check req s).2 = sv_state s.
Proof.
  unfold Check. cbn. unfold service_Check, service_CheckVerify. destruct (Request_Verify req); [|done..]. case_decide; [done|]. by destruct (verifySequence _ _ _).
Qed.

Lemma Commit_inStep ru req b b' s t : faultless (C := C) → plainRequest (C := C) req → sv_inStep ru s t → (Commit req b s).1 ≠ Panic →
  sv_inStep ru (Commit req b s).2 (Commit req b' t).2.
Proof.
  intros Hfl Hp Hst Hnp. destruct (Commit_state req b s) as [Hs Hpan], (Commit_state req b' t) as [Ht _].
  unfold sv_inStep. rewrite Hs, Ht. apply query_inStep; [done..|]. by rewrite <- Hpan.
Qed.

(** An execution, with checks at any time, is in step with the plain one. *)
Lemma executes_after ru b s0 t0 reqs s : faultless (C := C) → sv_inStep ru s0 t0 → executes b s0 reqs s → Forall (plainRequest (C := C)) reqs →
  sv_inStep ru s (after t0 reqs).
Proof.
  intros Hfl Hz0. induction 1 as [|req reqs s _ IH|req reqs s _ IH Hnp]; intros Hp; [done|..].
  - unfold sv_inStep. rewrite Check_state. by apply IH.
  - apply Forall_app in Hp as [Hp Hq]. inversion_clear Hq. unfold after. rewrite foldl_app. cbn [foldl].
    apply Commit_inStep; [done..|by apply IH|done].
Qed.

(** C16: The replicas of a database agree: Kayak, the service of the worker and xenomint
    composed.  A leader and its followers, whose databases start with the same content,
    sequence number and isolation level, serve requests under Kayak, with deliveries
    late, repeated, reordered or lost, rollbacks, abandoned requests and failing logs.
    At every point there is one list of committed requests, which the leader has
    executed and each follower up to some point.  The commits, begins and savepoints
    of the stores are assumed not to fail.  When none of the requests of the list has
    a statement of transaction control (which the sanitizer lets through), the leader
    has the content and the sequence number the list gives, and each follower those
    of its prefix, whether the requests succeed or fail.  Producing and replaying
    blocks of the SQL chain are not steps of this system. *)
Theorem database_replicas_agree (ru : bool) (s0 : Service) (t0 : NodeID → Service) (y y' : system W Service Request) :
  faultless (C := C) → sv_inStep ru s0 s0 → (∀ f, sv_inStep ru (t0 f) s0) → initial s0 t0 y → rtc step y y' →
  ∃ reqs, executes true s0 reqs (rt_sh (sy_leader y')) ∧
    (Forall (plainRequest (C := C)) reqs → sv_view (rt_sh (sy_leader y')) = sv_view (after s0 reqs)) ∧
    ∀ f fn, sy_followers y' !! f = Some fn → ∃ n, (n <= length reqs)%nat ∧
      executes false (t0 f) (take n reqs) (rt_sh (fn_rt fn)) ∧
      (Forall (plainRequest (C := C)) reqs → sv_view (rt_sh (fn_rt fn)) = sv_view (after s0 (take n reqs))).
Proof.
  intros Hfl Hz0 Ht0 Hinit Hrun.
  destruct (steps_simulate _ _ _ _ _ (implements_initial _ _ _ Hinit) Hrun) as (a & _ & es & Hlog & Hl & _ & Hfs).
  exists (en_req <$> es). split_and!; [apply Hl|intros Hp; eapply inStep_view, executes_after; [done..|apply Hl|done]|].
  intros f fn Hf. specialize (Hfs f). rewrite Hf in Hfs. destruct (Replication.position a !! f) as [n|]; [|done].
  exists n. rewrite length_fmap. split_and!; [apply Hfs..|]. intros Hp.
  eapply inStep_view, executes_after; [done|apply Ht0|apply Hfs|by apply Forall_take].
Qed.
End replicas.
