(* ===== verification/Dbms.v ===== *)
(** * The databases of a miner

    Models [src/worker/chainbusservice.go], [dbms.go], [dbms_rpc.go], [dbms_meta.go] and
    [observer.go]: the bus service that follows the main chain, the map of databases
    with its meta file, their creation and removal, and the permission checks before
    queries, acknowledgements and observers.  What a database opens when it is
    created, the answers of block producers and the meta file are parameters. *)
From S2P Require Import Prelude Hash Types Block SqlTypes Sanitizer Xenomint AckIndex Bytes LevelDB SqlNode SqlBilling SqlChain.
From S2P Require Import KayakWal Kayak NodeInfo Dht MetaState MetaTx Worker.
From Stdlib Require Import String ZArith Lia.
From stdpp Require Import base list gmap strings.
Local Open Scope Z_scope.

(** ** The bus service *)

Section bus_service.
Context `{Env}.

Record PermStat := MkPermStat { pt_Permission : option UserPermission; pt_Status : Status }.

Record BusService := MkBusService {
  bs_blockCount : Z;
  bs_sqlChainProfiles : gmap DatabaseID SQLChainProfile;
  bs_sqlChainState : gmap DatabaseID (gmap AccountAddress PermStat);
}.
Implicit Types (bs : BusService) (p : SQLChainProfile).

(** The permissions of the users of a database; the last entry of a user counts. *)
Definition userStates (us : list SQLChainUser) : gmap AccountAddress PermStat :=
  foldl (λ m u, <[su_Address u := MkPermStat (su_Permission u) (su_Status u)]> m) ∅ us.

Definition updateState (count : Z) (profiles : list SQLChainProfile) bs : BusService :=
  MkBusService count
    (foldl (λ m p, <[sp_ID p := p]> m) ∅ profiles)
    (foldl (λ m p, <[sp_ID p := userStates (sp_Users p)]> m) ∅ profiles).

(** [DBMS.UpdatePermission], for tests: the permission of one user. *)
Definition setUser (user : AccountAddress) (ps : PermStat) (us : list SQLChainUser) : list SQLChainUser :=
  match list_find (λ u, su_Address u = user) us with
  | Some (i, u) => <[i := MkSQLChainUser (su_Address u) (pt_Permission ps) (su_AdvancePayment u) (su_Arrears u) (su_Deposit u) (pt_Status ps)]> us
  | None => us ++ [MkSQLChainUser user (pt_Permission ps) 0 0 0 (pt_Status ps)]
  end.
Definition emptyProfile (id : DatabaseID) : SQLChainProfile :=
  MkSQLChainProfile id zeroHash 0 0 0 Particle zeroHash [] [] [] (MkResourceMeta [] 0 0 0 float_zero EmptyString false float_zero 0).
Definition UpdatePermission (id : DatabaseID) (user : AccountAddress) (ps : PermStat) bs : BusService :=
  let p := match bs_sqlChainProfiles bs !! id with
           | Some p => set_Users p (setUser user ps (sp_Users p))
           | None => set_Users (emptyProfile id) [MkSQLChainUser user (pt_Permission ps) 0 0 0 (pt_Status ps)]
           end in
  MkBusService (bs_blockCount bs) (<[id := p]> (bs_sqlChainProfiles bs))
    (<[id := <[user := ps]> (default ∅ (bs_sqlChainState bs !! id))]> (bs_sqlChainState bs)).

(** What [requestLastBlock] returns: the last irreversible block, the profiles of the
    databases of this miner and the count of the block; nothing on an error. *)
Definition lastAnswer : Type := option (option BPBlock * list SQLChainProfile * Z).

Definition NewBusService (answer : lastAnswer) : BusService :=
  let '(profiles, count) := match answer with Some (_, profiles, count) => (profiles, count) | None => ([], 0) end in
  updateState count profiles (MkBusService 0 ∅ ∅).

Definition RequestSQLProfile bs (id : DatabaseID) : option SQLChainProfile := bs_sqlChainProfiles bs !! id.
Definition RequestPermStat bs (id : DatabaseID) (user : AccountAddress) : option PermStat :=
  bs_sqlChainState bs !! id ≫= (.!! user).
Definition GetCurrentDBMapping bs : gmap DatabaseID SQLChainProfile := bs_sqlChainProfiles bs.

Fixpoint unwrapTx (tx : Transaction) : Transaction := match tx with TxWrapper t => unwrapTx t | _ => tx end.

(** [extractTxs]: the events published for a block. *)
Record busEvent := MkBusEvent { ev_type : Z; ev_tx : Transaction; ev_count : Z }.
Definition extractTxs (b : BPBlock) (count : Z) : list busEvent :=
  (λ tx, let t := unwrapTx tx in MkBusEvent (GetTransactionType t) t count) <$> bl_Transactions b.

(** The blocks between the last seen and the last irreversible one; an error leaves a
    block out, a nil block is dereferenced. *)
Fixpoint extractBetween (fetch : Z → GoResult werror (option BPBlock)) (counts : list Z) : GoResult werror (list busEvent) :=
  match counts with
  | [] => Ok []
  | i :: counts =>
      match fetch i with
      | Err _ => extractBetween fetch counts
      | Ok (Some b) => result_bind (extractBetween fetch counts) (λ evs, Ok (extractTxs b i ++ evs))
      | _ => Panic
      end
  end.

(** One round of [subscribeBlock]: the new state, then the events.  The events of the
    last block carry the old count. *)
Definition subscribeBlock (answer : lastAnswer) (fetch : Z → GoResult werror (option BPBlock)) bs
    : GoResult werror (list busEvent) * BusService :=
  match answer with
  | Some (Some b, profiles, newCount) =>
      let c := bs_blockCount bs in
      if decide (newCount <= c) then (Ok [], bs)
      else
        (result_bind (extractBetween fetch (seqZ (c + 1) (newCount - (c + 1)))) (λ evs, Ok (evs ++ extractTxs b c)),
         updateState newCount profiles bs)
  | _ => (Ok [], bs)
  end.
End bus_service.

(** ** The databases *)

(** The file of the names of the databases. *)
Class MetaFile (F : Type) := {
  mf_Read : F → GoResult werror (option (list Z));
  mf_Write : list Z → F → option werror * F;
  mf_Write_Read : ∀ f b f', mf_Write b f = (None, f') → mf_Read f' = Ok (Some b);
}.

Definition CreateDB : Z := 0.
Definition UpdateDB : Z := 1.
Definition DropDB : Z := 2.

Section dbms.
Context `{SqlEnv} `{!SqlParser} {C : Type} `{!SqlStore SqlValue C} {D : Type} `{!LevelDB serror D}.
Context `{!MsgPack Block} `{!MsgPack SignedAckHeader} `{!MsgPack SignedResponseHeader} `{!BillingVersion}.
Context `{!MsgPack Request} {W : Type} `{!Wal W}.
Context {F : Type} `{!MetaFile F} `{!MsgPack (list DatabaseID)}.
Abbreviation Database := (Database (C := C) (D := D) (W := W)).

(** [proto.Peers], with the result of the check of its signature. *)
Record Peers := MkPeers { pr_Leader : NodeID; pr_Servers : list NodeID; pr_Verify : option kerror }.
Record ServiceInstance := MkServiceInstance {
  si_DatabaseID : DatabaseID;
  si_Peers : option Peers;
  si_ResourceMeta : ResourceMeta;
  si_GenesisBlock : option Block;
}.

(** What a new database finds: its directory, the files of the chain, the storage and
    the log, the times and answers of the synchronisation, and the clock. *)
Record Opened := MkOpened {
  op_clear : option werror;
  op_mkdir : option werror;
  op_blkDB : D;
  op_txDB : D;
  op_storage : C;
  op_clocks : list Z;
  op_answers : nat → nat → NodeID → fetchAnswer;
  op_wal : GoResult werror W;
  op_logs : nat;
  op_clock : nat → Z;
}.

(** [DBMS].  [kayakMux] holds the databases whose runtime is registered; [meta] is the
    file; the node has its id, key and address, and the settings of the chains. *)
Record DBMS := MkDBMS {
  ms_dbMap : gmap DatabaseID Database;
  ms_kayakMux : gset DatabaseID;
  ms_busService : BusService;
  ms_meta : F;
  ms_dbCount : Z;
}.
Record NodeConf := MkNodeConf {
  nc_nodeID : NodeID;
  nc_privKey : PrivateKey;
  nc_address : AccountAddress;
  nc_MaxReqTimeGap : Z;
  nc_SQLChainPeriod : Z;
  nc_SQLChainTick : Z;
  nc_SQLChainTTL : Z;
  nc_BillingBlockCount : Z;
}.
Implicit Types (ms : DBMS) (id : DatabaseID) (nc : NodeConf).
Abbreviation MM := (GoM DBMS werror).

Definition set_dbMap ms (m : gmap DatabaseID Database) : DBMS := MkDBMS m (ms_kayakMux ms) (ms_busService ms) (ms_meta ms) (ms_dbCount ms).
Definition set_mux ms (x : gset DatabaseID) : DBMS := MkDBMS (ms_dbMap ms) x (ms_busService ms) (ms_meta ms) (ms_dbCount ms).
Definition set_bus ms (bs : BusService) : DBMS := MkDBMS (ms_dbMap ms) (ms_kayakMux ms) bs (ms_meta ms) (ms_dbCount ms).
Definition set_meta ms (f : F) : DBMS := MkDBMS (ms_dbMap ms) (ms_kayakMux ms) (ms_busService ms) f (ms_dbCount ms).
Definition addCount (n : Z) ms : DBMS := MkDBMS (ms_dbMap ms) (ms_kayakMux ms) (ms_busService ms) (ms_meta ms) (ms_dbCount ms + n).

(** An operation of one database. *)
Definition onDatabase {A} id (m : GoM Database werror A) : MM A := λ ms,
  match ms_dbMap ms !! id with
  | None => (Err WErr.ErrNotExists, ms)
  | Some db => let '(r, db) := m db in (r, set_dbMap ms (<[id := db]> (ms_dbMap ms)))
  end.

(** *** The meta file *)

(** [DBMSMeta]: the map from ids to true as the list of its keys. *)
Definition metaOf (f : F) : GoResult werror (gset DatabaseID) :=
  result_bind (mf_Read f) (λ o,
    match o with
    | None => Ok ∅
    | Some b => match DecodeMsgPack b with Some ids => Ok (list_to_set ids) | None => Err (WErr.New "decode") end
    end).
Definition readMeta : MM (gset DatabaseID) := ms ← getS; liftR (metaOf (ms_meta ms)).
Definition writeMeta : MM unit :=
  ms ← getS;
  match EncodeMsgPack (elements (dom (ms_dbMap ms))) with
  | None => throw (WErr.New "encode")
  | Some b => let '(e, f) := mf_Write b (ms_meta ms) in
      putS (set_meta ms f);; match e with Some e => throw e | None => mret tt end
  end.

Definition addMeta id (db : Database) : MM unit :=
  ms ← getS;
  if decide (is_Some (ms_dbMap ms !! id)) then throw WErr.ErrAlreadyExists
  else modifyS (λ ms, set_dbMap ms (<[id := db]> (ms_dbMap ms)));; writeMeta.
Definition removeMeta id : MM unit := modifyS (λ ms, set_dbMap ms (delete id (ms_dbMap ms)));; writeMeta.

(** *** Creation and removal *)

Definition chainConfig nc (cfg : DBConfig) (servers : list NodeID) (genesis : Block) : Config :=
  MkConfig (dc_DatabaseID cfg) (Some genesis) (nc_SQLChainPeriod nc) (nc_SQLChainTick nc) servers (nc_nodeID nc)
    (nc_SQLChainTTL nc) 0 Particle 0 (dc_UpdateBlockCount cfg) (dc_LastBillingHeight cfg) (dc_ReadUncommitted cfg).

(** [NewDatabase]: the database, or the error and whether its Kayak runtime was made. *)
Definition NewDatabase nc (cfg : DBConfig) (peers : option Peers) (genesis : option Block) (op : Opened)
    : GoResult (werror * bool) Database :=
  match op_mkdir op with
  | Some e => Err (e, false)
  | None =>
      match peers, genesis with
      | Some peers, Some genesis =>
          match PubKeyHash (Some (key_PubKey (nc_privKey nc))) with
          | Ok accountAddr =>
              match NewChain (chainConfig nc cfg (pr_Servers peers) genesis) (op_blkDB op) (op_txDB op) (op_storage op) (nc_privKey nc) with
              | (Ok _, Some chain) =>
                  match SqlChain.Start (op_clocks op) (op_answers op) chain with
                  | (Ok _, chain) =>
                      match op_wal op with
                      | Ok wal =>
                          let sv := MkService cfg chain ∅ (op_clock op) 0 in
                          match Kayak.NewRuntime (op_logs op)
                                  (MkRuntimeConfig (float_of_u64 1) (float_of_u64 0) (pr_Leader peers) (pr_Servers peers) (pr_Verify peers) (nc_nodeID nc))
                                  wal sv with
                          | (Ok _, rt) => Ok (MkDatabase (Kayak.Start rt) accountAddr)
                          | (Err e, _) => Err (WErr.OfKayak e, bool_decide (pr_Verify peers = None ∧ nc_nodeID nc ∈ pr_Servers peers))
                          | (Panic, _) => Panic
                          end
                      | Err e => Err (WErr.Wrap e, false)
                      | Panic => Panic
                      end
                  | (Err e, _) => Err (WErr.OfChain e, false)
                  | (Panic, _) => Panic
                  end
              | (Err e, _) => Err (WErr.OfChain e, false)
              | _ => Panic
              end
          | Err e => Err (WErr.OfVerifier e, false)
          | Panic => Panic
          end
      | _, _ => Err (WErr.ErrInvalidDBConfig, false)
      end
  end.

(** [sql.LevelReadUncommitted] *)
Definition LevelReadUncommitted : Z := 1.
Definition dbConfig nc ms (si : ServiceInstance) : DBConfig :=
  let m := si_ResourceMeta si in
  MkDBConfig (si_DatabaseID si) (nc_MaxReqTimeGap nc) (rm_Space m) (nc_BillingBlockCount nc)
    (match RequestSQLProfile (ms_busService ms) (si_DatabaseID si) with
     | Some p => i32 (sp_LastUpdatedHeight p) | None => 0 end)
    (rm_UseEventualConsistency m) (bool_decide (rm_IsolationLevel m = LevelReadUncommitted)).

(** [Create], up to the registration of the runtime of a new database. *)
Definition createOpen nc (op : Opened) (si : ServiceInstance) (cleanup : bool) : MM Database :=
  ms ← getS;
  let id := si_DatabaseID si in
  if decide (is_Some (ms_dbMap ms !! id)) then throw WErr.ErrAlreadyExists
  else
    match (if cleanup then op_clear op else None) with
    | Some e => throw e
    | None =>
        match NewDatabase nc (dbConfig nc ms si) (si_Peers si) (si_GenesisBlock si) op with
        | Ok db => modifyS (λ ms, set_mux ms ({[id]} ∪ ms_kayakMux ms));; mret db
        | Err (e, runtime) =>
            (if runtime : bool then modifyS (λ ms, set_mux ms (ms_kayakMux ms ∖ {[id]})) else mret tt);;
            _ ← attempt (removeMeta id); throw e
        | Panic => panic
        end
    end.
(** The rest of [Create]: on an error the new database is stopped and the id removed. *)
Definition createAdd id (db : Database) : MM unit :=
  res ← attempt (addMeta id db);
  modifyS (addCount 1);;
  match res with
  | inr _ => mret tt
  | inl e => modifyS (λ ms, set_mux ms (ms_kayakMux ms ∖ {[id]}));; _ ← attempt (removeMeta id); throw e
  end.
Definition Create nc (op : Opened) (si : ServiceInstance) (cleanup : bool) : MM unit :=
  db ← createOpen nc op si cleanup; createAdd (si_DatabaseID si) db.

(** [Database.Shutdown] of a database in the map, and its place in the multiplexer. *)
Definition shutdown id : MM unit :=
  modifyS (λ ms, set_mux ms (ms_kayakMux ms ∖ {[id]}));; onDatabase id Database_Shutdown.

Definition Drop id : MM unit :=
  ms ← getS;
  if decide (ms_dbMap ms !! id = None) then throw WErr.ErrNotExists
  else shutdown id;; modifyS (addCount (-1));; removeMeta id.

Definition Update (si : ServiceInstance) : MM unit :=
  onDatabase (si_DatabaseID si) (match si_Peers si with Some p => Database_UpdatePeers (pr_Servers p) | None => panic end).

(** [buildSQLChainServiceInstance]: the first miner leads; the peers are signed with
    the key of this node and so verify. *)
Definition buildSQLChainServiceInstance (profile : SQLChainProfile) : GoResult werror ServiceInstance :=
  match mi_NodeID <$> sp_Miners profile with
  | [] => Panic
  | (leader :: _) as nodeids =>
      match DecodeMsgPack (sp_EncodedGenesis profile) with
      | None => Err (WErr.New "decode")
      | Some genesis =>
          Ok (MkServiceInstance (sp_ID profile) (Some (MkPeers leader nodeids None)) (sp_Meta profile) (Some genesis))
      end
  end.

(** *** Events of the main chain *)

(** [createDatabase]: a profile whose instance cannot be built is used all the same. *)
Definition createDatabase nc (op : Opened) (tx : Transaction) : MM unit :=
  match tx with
  | TxCreateDatabase t =>
      ms ← getS;
      let dbID := FromAccountAndNonce (cd_Owner (tx_Header t)) (u32 (cd_Nonce (tx_Header t))) in
      match RequestSQLProfile (ms_busService ms) dbID with
      | None => mret tt
      | Some p =>
          if decide (nc_address nc ∈ (mi_Address <$> sp_Miners p)) then
            match buildSQLChainServiceInstance p with
            | Ok si => _ ← attempt (Create nc op si true); mret tt
            | _ => panic
            end
          else mret tt
      end
  | _ => mret tt
  end.

Definition updateBilling (tx : Transaction) : MM unit :=
  match tx with
  | TxUpdateBilling t =>
      ms ← getS;
      let id := DatabaseID_of (ub_Receiver (tx_Header t)) in
      match ms_dbMap ms !! id, RequestSQLProfile (ms_busService ms) id with
      | Some _, Some p => onDatabase id (onChain (SetLastBillingHeight (i32 (sp_LastUpdatedHeight p))))
      | _, _ => mret tt
      end
  | _ => mret tt
  end.

(** The subscriptions: the event of a transaction goes by its type. *)
Definition TransactionTypeCreateDatabase : Z := 8.
Definition onEvent nc (op : DatabaseID → Opened) (ev : busEvent) : MM unit :=
  if decide (ev_type ev = TransactionTypeCreateDatabase) then
    match ev_tx ev with
    | TxCreateDatabase t => createDatabase nc (op (FromAccountAndNonce (cd_Owner (tx_Header t)) (u32 (cd_Nonce (tx_Header t))))) (ev_tx ev)
    | _ => mret tt
    end
  else if decide (ev_type ev = TransactionTypeUpdateBilling) then updateBilling (ev_tx ev)
  else mret tt.
Fixpoint onEvents nc (op : DatabaseID → Opened) (evs : list busEvent) : MM unit :=
  match evs with [] => mret tt | ev :: evs => onEvent nc op ev;; onEvents nc op evs end.

(** A round of the bus service with its subscribers. *)
Definition pollBlocks nc (op : DatabaseID → Opened) (answer : lastAnswer) (fetch : Z → GoResult werror (option BPBlock)) : MM unit :=
  ms ← getS;
  let '(r, bs) := subscribeBlock answer fetch (ms_busService ms) in
  modifyS (λ ms, set_bus ms bs);;
  evs ← liftR r;
  onEvents nc op evs.

(** *** Start-up *)

(** The databases of the profiles, in some order; errors of a creation are logged. *)
Fixpoint createAll nc (op : DatabaseID → Opened) (profiles : list SQLChainProfile) : MM unit :=
  match profiles with
  | [] => mret tt
  | p :: profiles =>
      si ← liftR (buildSQLChainServiceInstance p);
      _ ← attempt (Create nc (op (sp_ID p)) si false);
      createAll nc op profiles
  end.
Fixpoint dropAll (ids : list DatabaseID) : MM unit :=
  match ids with [] => mret tt | id :: ids => Drop id;; dropAll ids end.
Definition initDatabases nc (op : DatabaseID → Opened) (meta : gset DatabaseID) (profiles : gmap DatabaseID SQLChainProfile) : MM unit :=
  createAll nc op (map_to_list profiles).*2;;
  dropAll (elements (meta ∖ dom profiles)).

Definition Init nc (op : DatabaseID → Opened) : MM unit :=
  localMeta ← wrapW readMeta;
  ms ← getS;
  wrapW (initDatabases nc op localMeta (GetCurrentDBMapping (ms_busService ms))).

(** [DBMS.Shutdown]: the databases in some order. *)
Fixpoint shutdownAll (ids : list DatabaseID) : MM unit :=
  match ids with [] => mret tt | id :: ids => _ ← attempt (shutdown id); shutdownAll ids end.
Definition DBMS_Shutdown : MM unit := ms ← getS; shutdownAll (elements (dom (ms_dbMap ms)));; writeMeta.

(** *** Requests *)

Definition checkPermission bs (addr : AccountAddress) id (queryType : Z) (queries : list Query) : GoResult werror unit :=
  match RequestPermStat bs id addr with
  | None => Err (WErr.Wrap WErr.ErrPermissionDeny)
  | Some ps =>
      if negb (EnableQuery (pt_Status ps)) then Err (WErr.Wrap WErr.ErrPermissionDeny)
      else
        let typed :=
          if decide (queryType = ReadQuery) then
            if HasReadPermission (pt_Permission ps) then None else Some WErr.ErrPermissionDeny
          else if decide (queryType = WriteQuery) then
            if HasWritePermission (pt_Permission ps) then None else Some WErr.ErrPermissionDeny
          else Some WErr.ErrInvalidPermission in
        match typed with
        | Some e => Err (WErr.Wrap e)
        | None =>
            if (HasDisallowedQueryPatterns (pt_Permission ps) (qu_Pattern <$> queries)).2
            then Err (WErr.Wrap WErr.ErrPermissionDeny) else Ok tt
        end
  end.

Definition addressOf (key : option PublicKey) : GoResult werror AccountAddress :=
  match PubKeyHash key with Ok a => Ok a | Err e => Err (WErr.OfVerifier e) | Panic => Panic end.

Definition DBMS_Query (stat : fileStat) (answers : list (NodeID * option kerror)) (wait : commitWait) (req : Request) : MM Response :=
  ms ← getS;
  addr ← liftR (addressOf (hsv_Signee (rq_HSV req)));
  let h := rq_Header req in
  liftR (checkPermission (ms_busService ms) addr (rh_DatabaseID h) (rh_QueryType h) (rq_Queries req));;
  onDatabase (rh_DatabaseID h) (Database_Query stat answers wait req).

Definition DBMS_Ack (ack : SignedAckHeader) : MM unit :=
  ms ← getS;
  addr ← liftR (addressOf (hsv_Signee (sa_HSV ack)));
  let id := rh_DatabaseID (rs_Request (ak_Response (sa_Header ack))) in
  liftR (checkPermission (ms_busService ms) addr id ReadQuery []);;
  onDatabase id (Database_Ack ack).

(** *** RPC *)

(** [caller] is the node id of the envelope; printing a nil one panics. *)
Definition fromNode (caller : option Hash) (node : NodeID) : MM unit :=
  h ← deref caller;
  if decide (Hash_String h ≠ node) then throw (WErr.Wrap WErr.ErrInvalidRequest) else mret tt.
Definition RPC_Query (caller : option Hash) (stat : fileStat) (answers : list (NodeID * option kerror)) (wait : commitWait) (req : Request) : MM Response :=
  fromNode caller (rh_NodeID (rq_Header req));; DBMS_Query stat answers wait req.
Definition RPC_Ack (caller : option Hash) (ack : SignedAckHeader) : MM unit :=
  fromNode caller (rh_NodeID (rs_Request (ak_Response (sa_Header ack))));; DBMS_Ack ack.
(** [verified] is the result of the check of the signature. *)
Definition RPC_Deploy nc (rv : Resolver) (caller : option Hash) (verified : option werror) (opType : Z) (op : Opened) (si : ServiceInstance) : MM unit :=
  if negb (IsPermitted rv caller DBSDeploy) then throw (WErr.Wrap WErr.ErrInvalidRequest)
  else
    match verified with
    | Some e => throw e
    | None =>
        if decide (opType = CreateDB) then Create nc op si true
        else if decide (opType = UpdateDB) then Update si
        else if decide (opType = DropDB) then Drop (si_DatabaseID si)
        else mret tt
    end.

(** [observerFetchBlock]: [key] is what the key store has for the caller. *)
Definition observerFetchBlock (key : GoResult werror (option PublicKey)) id (count : Z) : MM (option Block * Z) :=
  ms ← getS;
  pubKey ← liftR key;
  addr ← liftR (addressOf pubKey);
  liftR (checkPermission (ms_busService ms) addr id ReadQuery []);;
  match ms_dbMap ms !! id with
  | None => throw WErr.ErrNotExists
  | Some db =>
      match FetchBlockByCount (sv_chain (db_service db)) count with
      | Ok (b, realCount, _) => mret (b, realCount)
      | Err e => throw (WErr.OfChain e)
      | Panic => panic
      end
  end.

(** [DBKayakMuxService.Apply]: a log for a registered database. *)
Definition mux_Apply id (l : option Log) : MM (option (commitReq Request)) :=
  ms ← getS;
  if decide (id ∈ ms_kayakMux ms) then onDatabase id (onKayak (followerApply l true))
  else throw (WErr.Wrap WErr.ErrUnknownMuxRequest).
Definition mux_Fetch id (index : Z) : MM Log :=
  ms ← getS;
  if decide (id ∈ ms_kayakMux ms) then
    onDatabase id (db ← getS;
      match Kayak.Fetch (db_kayakRuntime db) index with
      | Ok l => mret l | Err e => throw (WErr.OfKayak e) | Panic => panic end)
  else throw (WErr.Wrap WErr.ErrUnknownMuxRequest).
End dbms.
