(* ===== verification/DbmsProps.v ===== *)
(** * The databases of a miner: theorems

    Requests reach a database only with the permission the main chain gives; the map
    of databases, the multiplexer and the meta file stay in step; start-up. *)
From S2P Require Import Prelude Hash Types Block SqlTypes Sanitizer Xenomint AckIndex Bytes LevelDB SqlNode SqlBilling SqlChain.
From S2P Require Import KayakWal Kayak NodeInfo Dht MetaState MetaTx Worker Dbms.
From Stdlib Require Import String ZArith Lia.
From stdpp Require Import base list gmap strings.
Local Open Scope Z_scope.

(** ** Permissions *)

Section permissions.
Context `{SqlEnv}.
Implicit Types (bs : BusService) (p : SQLChainProfile) (u : SQLChainUser).

Lemma foldl_insert_lookup {K A B} `{Countable K} (k : A → K) (f : A → B) (l : list A) x b :
  NoDup (k <$> l) → foldl (λ m a, <[k a := f a]> m) (∅ : gmap K B) l !! x = Some b ↔ ∃ a, a ∈ l ∧ k a = x ∧ f a = b.
Proof.
  induction l as [|a l IH] using rev_ind; intros Hnd.
  - cbn. rewrite lookup_empty. split; [done|]. by intros (a & []%not_elem_of_nil & _).
  - rewrite fmap_app in Hnd. apply NoDup_app in Hnd as (Hnd & Hni & _). rewrite foldl_app. cbn.
    destruct (decide (k a = x)) as [<-|Hne].
    + rewrite lookup_insert_eq. split.
      * intros [= <-]. exists a. split; [|done]. apply elem_of_app. right. by left.
      * intros (a' & [Ha'| ->%list_elem_of_singleton]%elem_of_app & Hk & <-); [|done].
        destruct (Hni (k a')); [by apply list_elem_of_fmap_2|]. rewrite Hk. by left.
    + rewrite lookup_insert_ne by done. rewrite (IH Hnd). split.
      * intros (a' & Ha' & Hk). exists a'. split; [|done]. apply elem_of_app. by left.
      * intros (a' & [Ha'| ->%list_elem_of_singleton]%elem_of_app & Hk & Hf); [by exists a'|done].
Qed.

(** What the state of the main chain allows the user of an address. *)
Definition mayRun (up : option UserPermission) (queryType : Z) (queries : list Query) : Prop :=
  (queryType = ReadQuery ∧ HasReadPermission up = true ∨ queryType = WriteQuery ∧ HasWritePermission up = true) ∧
  ∀ perm, up = Some perm → up_Patterns perm ≠ [] → ∀ q, q ∈ queries → qu_Pattern q ∈ up_Patterns perm.
Definition allowed (profiles : list SQLChainProfile) (id : DatabaseID) (addr : AccountAddress) (queryType : Z) (queries : list Query) : Prop :=
  ∃ p u, p ∈ profiles ∧ sp_ID p = id ∧ u ∈ sp_Users p ∧ su_Address u = addr ∧ EnableQuery (su_Status u) = true ∧
    mayRun (su_Permission u) queryType queries.

(** Every database once, every user of a database once. *)
Definition distinct (profiles : list SQLChainProfile) : Prop :=
  NoDup (sp_ID <$> profiles) ∧ ∀ p, p ∈ profiles → NoDup (su_Address <$> sp_Users p).

Lemma RequestPermStat_spec count profiles bs id addr ps : distinct profiles →
  RequestPermStat (updateState count profiles bs) id addr = Some ps ↔
  ∃ p u, p ∈ profiles ∧ sp_ID p = id ∧ u ∈ sp_Users p ∧ su_Address u = addr ∧ ps = MkPermStat (su_Permission u) (su_Status u).
Proof.
  intros [Hnd Hus]. unfold RequestPermStat. cbn. split.
  - intros (m & Hm & Hps)%bind_Some. apply foldl_insert_lookup in Hm as (p & Hp & Hid & <-); [|done].
    apply foldl_insert_lookup in Hps as (u & Hu & Ha & <-); [|by apply Hus]. by exists p, u.
  - intros (p & u & Hp & Hid & Hu & Ha & ->). apply bind_Some. exists (userStates (sp_Users p)). split.
    + apply foldl_insert_lookup; [done|]. by exists p.
    + apply foldl_insert_lookup; [by apply Hus|]. by exists u.
Qed.

Lemma disallowed_spec up qs : (HasDisallowedQueryPatterns up (qu_Pattern <$> qs)).2 = false ↔
  up ≠ None ∧ ∀ perm, up = Some perm → up_Patterns perm ≠ [] → ∀ q : Query, q ∈ qs → qu_Pattern q ∈ up_Patterns perm.
Proof.
  destruct up as [perm|]; cbn; [|split; [done|by intros [[] _]]].
  destruct (up_Patterns perm) as [|x ps] eqn:Hps; [split; [|done]; intros _; split; [done|]; by intros ? [= <-]|].
  destruct (list_find _ _) as [[i q]|] eqn:Hf; cbn.
  - apply list_find_Some in Hf as (Hq & Hn & _). apply list_elem_of_lookup_2, list_elem_of_fmap in Hq as (q' & -> & Hq').
    split; [done|]. intros [_ Hall]. destruct Hn. rewrite <- Hps. apply (Hall perm eq_refl); [by rewrite Hps|done].
  - apply list_find_None in Hf. rewrite Forall_forall in Hf. split; [|done]. intros _. split; [done|].
    intros perm' [= <-] _ q Hq. specialize (Hf (qu_Pattern q) ltac:(by apply list_elem_of_fmap_2)).
    rewrite Hps. by destruct (decide (qu_Pattern q ∈ x :: ps)).
Qed.

Lemma checkPermission_spec count profiles bs addr id ty qs : distinct profiles →
  checkPermission (updateState count profiles bs) addr id ty qs = Ok tt ↔ allowed profiles id addr ty qs.
Proof.
  intros Hd. unfold checkPermission. split.
  - destruct (RequestPermStat _ _ _) as [ps|] eqn:Hps; [|done]. apply RequestPermStat_spec in Hps as (p & u & Hp & Hid & Hu & Ha & ->); [|done].
    cbn [pt_Permission pt_Status]. destruct (EnableQuery (su_Status u)) eqn:He; [|done]. cbn [negb]. intros Hok.
    exists p, u. split_and!; [done..|]. unfold mayRun.
    destruct (HasDisallowedQueryPatterns _ _).2 eqn:Hdis in Hok.
    { case_decide; [|case_decide]; [destruct (HasReadPermission _)|destruct (HasWritePermission _)|]; done. }
    apply disallowed_spec in Hdis as [_ Hall]. split; [|done].
    case_decide as Hr; [left|case_decide as Hw; [right|done]]; (split; [done|]).
    + by destruct (HasReadPermission _).
    + by destruct (HasWritePermission _).
  - intros (p & u & Hp & Hid & Hu & Ha & He & Hty & Hall).
    assert (RequestPermStat (updateState count profiles bs) id addr = Some (MkPermStat (su_Permission u) (su_Status u))) as ->
      by (apply RequestPermStat_spec; [done|by exists p, u]).
    cbn [pt_Permission pt_Status]. rewrite He. cbn [negb].
    assert (su_Permission u ≠ None) as Hne by (destruct (su_Permission u); [done|by destruct Hty as [[_ ?]|[_ ?]]]).
    rewrite (proj2 (disallowed_spec (su_Permission u) qs) (conj Hne Hall)).
    destruct Hty as [[-> Hr]|[-> Hw]].
    + rewrite decide_True by done. by rewrite Hr.
    + rewrite decide_False, decide_True by done. by rewrite Hw.
Qed.
End permissions.

(** ** What the service keeps, Kayak keeps *)

Section kayak_service.
Context {W : Type} `{!Wal W} {St Req Resp : Type} `{!Handler St Req Resp}.
Context (P : St → Prop) (check_keeps : ∀ req s, P s → P (Check req s).2) (commit_keeps : ∀ req b s, P s → P (Commit req b s).2).
Definition holdsService (r : Runtime W St) : Prop := P (rt_sh r).
Abbreviation KM := (GoM (Runtime W St) kerror).

Lemma keeps_modify f : (∀ r, rt_sh (f r) = rt_sh r) → preserves holdsService (modifyS f : KM unit).
Proof. intros Hf. apply preserves_modifyS. intros r. unfold holdsService. by rewrite Hf. Qed.
Lemma keeps_onWal {A} (m : GoM W kerror A) : preserves holdsService (onWal m).
Proof. intros r res r' Hr. unfold onWal. destruct (m (rt_wal r)) as [x w]. intros [= <- <-]. by destruct r. Qed.
Lemma keeps_wrapping {A} (m : KM A) : preserves holdsService m → preserves holdsService (wrapping m).
Proof. intros Hm. unfold wrapping. repeat preserve_step. Qed.
Lemma keeps_doCheck req : preserves holdsService (doCheck req).
Proof.
  intros r res r' Hr. unfold doCheck. go_unfold. pose proof (check_keeps req (rt_sh r) Hr) as Hc.
  destruct (Check req (rt_sh r)) as [[e|] s]; intros [= <- <-]; by destruct r.
Qed.
Lemma keeps_doCommit req b : preserves holdsService (doCommit req b).
Proof.
  intros r res r' Hr. unfold doCommit. go_unfold. pose proof (commit_keeps req b (rt_sh r) Hr) as Hc.
  destruct (Commit req b (rt_sh r)) as [[x|e|] s]; intros [= <- <-]; by destruct r.
Qed.
Lemma keeps_newLog ty data : preserves holdsService (newLog ty data).
Proof.
  unfold newLog. repeat preserve_step; [apply keeps_modify; by intros []|apply preserves_attempt, keeps_onWal].
Qed.

Lemma Apply_service req answers wait : preserves holdsService (Apply req answers wait).
Proof.
  unfold Apply, leaderPrepare, leaderDoCommit, doLeaderRollback, markPendingPrepare, markPrepareFinished, doEncodePayload.
  pose proof keeps_newLog as Hn. pose proof keeps_doCommit as Hc.
  repeat first [apply keeps_wrapping; apply keeps_doCheck|apply Hn|apply Hc|apply keeps_modify; by intros []|apply keeps_wrapping|preserve_step].
Qed.
Lemma followerApply_service l chk : preserves holdsService (followerApply l chk).
Proof.
  unfold followerApply, followerPrepare, followerRollback, followerCommitBegin, getPrepareLog, waitForLog, writeWAL, checkIfPrepareFinished,
    markPendingPrepare, markPrepareFinished, updateNextIndex, doDecodePayload.
  repeat first [apply keeps_onWal|apply keeps_doCheck|apply keeps_modify; by intros []
    |apply keeps_modify; intros r; destruct (decide (rt_nextIndex _ < _)); by destruct r|apply keeps_wrapping|preserve_step].
Qed.
Lemma readLogs_service fuel : preserves holdsService (readLogs fuel).
Proof.
  induction fuel as [|fuel IH]; cbn [readLogs]; [apply preserves_throw|].
  unfold readLog, getPrepareLog, waitForLog, markPendingPrepare, markPrepareFinished, updateNextIndex.
  repeat first [apply IH|apply keeps_onWal|apply preserves_attempt, keeps_onWal|apply keeps_modify; by intros []
    |apply keeps_modify; intros r; destruct (decide (rt_nextIndex _ < _)); by destruct r|apply keeps_wrapping|preserve_step].
Qed.
End kayak_service.

Lemma NewRuntime_service {W : Type} `{!Wal W} {St : Type} fuel cfg (w : W) (s : St) :
  rt_sh (NewRuntime fuel cfg w s).2 = s.
Proof.
  unfold NewRuntime. destruct (kc_Verify cfg); [done|]. case_decide; [done|].
  destruct (readLogs fuel _) as [r rt] eqn:Hr. by apply (readLogs_service (λ s', s' = s)) in Hr.
Qed.

(** ** Requests *)

Section dbms.
Context `{SqlEnv} `{!SqlParser} {C : Type} `{!SqlStore SqlValue C} {D : Type} `{!LevelDB serror D}.
Context `{!MsgPack Block} `{!MsgPack SignedAckHeader} `{!MsgPack SignedResponseHeader} `{!BillingVersion}.
Context `{!MsgPack Request} {W : Type} `{!Wal W}.
Context {F : Type} `{!MetaFile F} `{!MsgPack (list DatabaseID)}.
Abbreviation DBMS := (DBMS (C := C) (D := D) (W := W) (F := F)).
Abbreviation Database := (Database (C := C) (D := D) (W := W)).
Implicit Types (ms : DBMS) (id : DatabaseID) (nc : NodeConf).
Abbreviation MM := (GoM DBMS werror).

(** The request comes from the node it names, and its signee may run it. *)
Definition authorized (profiles : list SQLChainProfile) (caller : option Hash) (node : NodeID) (signee : option PublicKey)
    id (queryType : Z) (queries : list Query) : Prop :=
  (∃ h, caller = Some h ∧ Hash_String h = node) ∧
  ∃ addr, addressOf signee = Ok addr ∧ allowed profiles id addr queryType queries.

(** An operation on a database behind its checks. *)
Lemma guarded {A} count profiles bs caller node signee id ty qs (m : GoM Database werror A) ms : distinct profiles →
  ms_busService ms = updateState count profiles bs →
  let op : MM A := (fromNode caller node;; ms ← getS; addr ← liftR (addressOf signee);
    liftR (checkPermission (ms_busService ms) addr id ty qs);; onDatabase id m) in
  authorized profiles caller node signee id ty qs ∧ op ms = onDatabase id m ms ∨
  ¬ authorized profiles caller node signee id ty qs ∧ (op ms).2 = ms ∧ ∀ a, (op ms).1 ≠ Ok a.
Proof.
  intros Hd Hbs op. unfold op, fromNode. go_unfold. unfold authorized, deref.
  destruct caller as [h|]; [|right; split; [by intros [(? & ? & _) _]|done]]. go_unfold.
  case_decide as Hn; [right; split; [|done]; by intros [(? & [= <-] & ?) _]|]. go_unfold.
  destruct (addressOf signee) as [addr|e|] eqn:Ha; [|right; (split; [|done]); by intros [_ (? & ? & _)]..].
  rewrite Hbs. destruct (checkPermission _ addr id ty qs) as [[]|e|] eqn:Hc.
  - left. split; [|done]. split; [by exists h|]. exists addr. split; [done|]. by eapply checkPermission_spec.
  - right. split; [|done]. intros [_ (addr' & [= <-] & Hal)]. eapply checkPermission_spec in Hal; [|done]. by rewrite Hc in Hal.
  - right. split; [|done]. intros [_ (addr' & [= <-] & Hal)]. eapply checkPermission_spec in Hal; [|done]. by rewrite Hc in Hal.
Qed.

(** C17: Only users of a database reach it.  The bus service holds the profiles of the
    last irreversible block.  A query or an acknowledgement is handed to its database
    exactly when it comes from the node it names and its signee is a user in the
    profile of that database, in good standing, with the right to read or write and,
    where the permission lists patterns, only statements among them; every other
    request is refused and changes nothing. *)
Theorem requests_authorized count profiles bs caller stat answers wait (req : Request) (ack : SignedAckHeader) ms : distinct profiles →
  ms_busService ms = updateState count profiles bs →
  (let h := rq_Header req in
   let ok := authorized profiles caller (rh_NodeID h) (hsv_Signee (rq_HSV req)) (rh_DatabaseID h) (rh_QueryType h) (rq_Queries req) in
   ok ∧ RPC_Query caller stat answers wait req ms = onDatabase (rh_DatabaseID h) (Database_Query stat answers wait req) ms ∨
   ¬ ok ∧ (RPC_Query caller stat answers wait req ms).2 = ms ∧ ∀ a, (RPC_Query caller stat answers wait req ms).1 ≠ Ok a) ∧
  (let h := rs_Request (ak_Response (sa_Header ack)) in
   let ok := authorized profiles caller (rh_NodeID h) (hsv_Signee (sa_HSV ack)) (rh_DatabaseID h) ReadQuery [] in
   ok ∧ RPC_Ack caller ack ms = onDatabase (rh_DatabaseID h) (Database_Ack ack) ms ∨
   ¬ ok ∧ (RPC_Ack caller ack ms).2 = ms ∧ ∀ a, (RPC_Ack caller ack ms).1 ≠ Ok a).
Proof. intros Hd Hbs. split; by eapply (guarded count profiles bs). Qed.

(** ** The registry *)

(** The files of the meta data do not fail. *)
Definition reliableMeta : Prop :=
  (∀ (b : list Z) (f : F), (mf_Write b f).1 = None) ∧ ∀ ids : list DatabaseID, is_Some (EncodeMsgPack ids).

(** Every registered runtime belongs to a database of the map, every database has the
    id it is stored under, and the meta file, when its writes do not fail, lists the
    databases. *)
Definition dbID (db : Database) : DatabaseID := dc_DatabaseID (sv_cfg (db_service db)).
Record wfDBMS ms : Prop := {
  wd_mux : ms_kayakMux ms ⊆ dom (ms_dbMap ms);
  wd_ids id db : ms_dbMap ms !! id = Some db → dbID db = id;
  wd_meta : reliableMeta → metaOf (ms_meta ms) = Ok (dom (ms_dbMap ms));
}.

Lemma metaOf_write ms b f : EncodeMsgPack (elements (dom (ms_dbMap ms))) = Some b → mf_Read f = Ok (Some b) →
  metaOf f = Ok (dom (ms_dbMap ms)).
Proof.
  intros He Hr. unfold metaOf. rewrite Hr. cbn. rewrite (Decode_Encode _ _ He). f_equal. apply list_to_set_elements_L.
Qed.

(** The two other clauses, while the map changes. *)
Definition wfMap ms : Prop := ms_kayakMux ms ⊆ dom (ms_dbMap ms) ∧ ∀ id db, ms_dbMap ms !! id = Some db → dbID db = id.
Lemma writeMeta_wf ms r ms' : wfMap ms → writeMeta ms = (r, ms') →
  r ≠ Panic ∧ wfDBMS ms' ∧ ms_dbMap ms' = ms_dbMap ms ∧ ms_kayakMux ms' = ms_kayakMux ms.
Proof.
  intros [Hmux Hids]. unfold writeMeta. go_unfold. destruct (EncodeMsgPack (elements (dom (ms_dbMap ms)))) as [b|] eqn:Hb.
  2:{ intros [= <- <-]. split_and!; [done| |done|done]. split; [done..|]. intros [_ Henc].
      destruct (Henc (elements (dom (ms_dbMap ms)))) as [b' Hb']. congruence. }
  destruct (mf_Write b (ms_meta ms)) as [e f] eqn:Hf. go_unfold.
  assert (wfDBMS (set_meta ms f)) as Hwf.
  { split; [done..|]. cbn. intros [Hw _]. specialize (Hw b (ms_meta ms)). rewrite Hf in Hw. cbn in Hw. subst e.
    apply (metaOf_write ms b); [done|]. by apply mf_Write_Read in Hf. }
  destruct e as [e|]; intros [= <- <-]; done.
Qed.

Lemma removeMeta_wf id ms r ms' : wfMap ms → id ∉ ms_kayakMux ms → removeMeta id ms = (r, ms') →
  r ≠ Panic ∧ wfDBMS ms' ∧ ms_dbMap ms' = delete id (ms_dbMap ms).
Proof.
  intros [Hmux Hids] Hni. unfold removeMeta. go_unfold. intros Hw. apply writeMeta_wf in Hw as (Hr & Hwf & -> & _); [done..|].
  split; cbn; [rewrite dom_delete_L; set_solver|]. intros id' db [_ Hdb]%lookup_delete_Some. by apply Hids.
Qed.

(** An operation of a database that keeps its configuration. *)
Definition keepsConfig {A} (m : GoM Database werror A) : Prop := ∀ db r db', m db = (r, db') → sv_cfg (db_service db') = sv_cfg (db_service db).
Lemma onDatabase_wf {A} id (m : GoM Database werror A) : keepsConfig m → preserves wfDBMS (onDatabase id m).
Proof.
  intros Hm ms r ms' [Hmux Hids Hmeta]. unfold onDatabase. destruct (ms_dbMap ms !! id) as [db|] eqn:Hdb; [|by intros [= _ <-]].
  destruct (m db) as [r0 db'] eqn:Hr. apply Hm in Hr. intros [= _ <-].
  assert (dom (<[id := db']> (ms_dbMap ms)) = dom (ms_dbMap ms)) as Hdom.
  { apply dom_insert_lookup_L. by eexists. }
  split; cbn; rewrite ?Hdom; [done| |exact Hmeta].
  intros id' db1 [[<- <-]|[_ ?]]%lookup_insert_Some; [|by apply Hids]. unfold dbID. rewrite Hr. by apply Hids.
Qed.

Definition cfgIs (cfg : DBConfig) (s : Service (C := C) (D := D)) : Prop := sv_cfg s = cfg.
Lemma service_keeps cfg : (∀ req s, cfgIs cfg s → cfgIs cfg (Check req s).2) ∧ ∀ req b s, cfgIs cfg s → cfgIs cfg (Commit req b s).2.
Proof.
  unfold cfgIs. split.
  - intros req s <-. unfold Check. cbn. unfold service_Check, service_CheckVerify. destruct (Request_Verify req); [|done..]. case_decide; [done|].
    by destruct (verifySequence _ _ _).
  - intros req b s <-. unfold Commit. cbn. unfold service_Commit, query. destruct (Chain_query _ _ _ _) as [[] c]; done.
Qed.

(** As a property of the computation. *)
Lemma keepsConfig_of {A} (m : GoM Database werror A) :
  (∀ cfg, preserves (λ db, sv_cfg (db_service db) = cfg) m) → keepsConfig m.
Proof. intros Hm db r db' Hr. by eapply Hm. Qed.
Definition configIs (cfg : DBConfig) (db : Database) : Prop := sv_cfg (db_service db) = cfg.
Lemma keeps_onChain {A} cfg (m : GoM Chain serror A) : preserves (configIs cfg) (onChain m).
Proof.
  intros db r db'. unfold configIs, onChain, db_service. destruct (m _) as [x c]. intros Hc [= _ <-].
  unfold set_service. destruct db as [rt a]. by destruct rt.
Qed.
Lemma keeps_chainQuery cfg req b : preserves (configIs cfg) (chainQuery req b).
Proof.
  intros db r db'. unfold configIs, chainQuery, query, db_service. destruct (Chain_query _ _ _ _) as [x c]. intros Hc [= _ <-].
  unfold set_service. destruct db as [rt a]. by destruct rt.
Qed.
Lemma keeps_onKayak {A} cfg (m : GoM (Runtime W Service) kerror A) : preserves (holdsService (cfgIs cfg)) m → preserves (configIs cfg) (onKayak m).
Proof.
  intros Hm db r db'. unfold configIs, onKayak, db_service. destruct (m _) as [x rt] eqn:Hr. intros Hc [= _ <-]. by eapply (Hm _ x rt).
Qed.
Lemma keeps_wrapW {A} (I : Database → Prop) (m : GoM Database werror A) : preserves I m → preserves I (wrapW m).
Proof. intros Hm. unfold wrapW. repeat preserve_step. Qed.

Lemma Query_keeps stat answers wait req : keepsConfig (Database_Query stat answers wait req).
Proof.
  apply keepsConfig_of. intros cfg. change (preserves (configIs cfg) (Database_Query stat answers wait req)).
  unfold Database_Query, writeQuery. destruct (service_keeps cfg) as [Hck Hcm].
  repeat first [apply keeps_chainQuery|apply keeps_onChain|apply keeps_onKayak, (Apply_service _ Hck Hcm)|apply keeps_wrapW|preserve_step].
Qed.
Lemma Shutdown_keeps : keepsConfig Database_Shutdown.
Proof.
  apply keepsConfig_of. intros cfg. change (preserves (configIs cfg) Database_Shutdown). unfold Database_Shutdown.
  apply preserves_bind; [|intros _; apply keeps_onChain]. apply preserves_modifyS. intros [rt a]. unfold configIs, db_service, Shutdown. cbn.
  case_decide; by destruct rt.
Qed.
Lemma onChain_keeps {A} (m : GoM Chain serror A) : keepsConfig (onChain m).
Proof. apply keepsConfig_of. intros cfg. apply keeps_onChain. Qed.
Lemma mux_keeps l : keepsConfig (onKayak (followerApply l true)).
Proof.
  apply keepsConfig_of. intros cfg. apply keeps_onKayak. destruct (service_keeps cfg) as [Hck Hcm]. by apply followerApply_service.
Qed.

(** *** Creation and removal *)

Lemma NewDatabase_id nc cfg peers genesis op db : NewDatabase nc cfg peers genesis op = Ok db → dbID db = dc_DatabaseID cfg.
Proof.
  unfold NewDatabase. destruct (op_mkdir op); [done|]. destruct peers as [peers|], genesis as [genesis|]; try done.
  destruct (PubKeyHash _); try done. destruct (NewChain _ _ _ _ _) as [[] [chain|]]; try done.
  destruct (SqlChain.Start _ _ chain) as [[] chain']; try done. destruct (op_wal op) as [wal| |]; try done.
  destruct (NewRuntime _ _ _ _) as [[] rt] eqn:Hr; try done. intros [= <-].
  assert (rt_sh rt = MkService cfg chain' ∅ (op_clock op) 0) as Hs.
  { match type of Hr with NewRuntime ?n ?c ?w ?sv = _ => pose proof (NewRuntime_service n c w sv) as Hn end. by rewrite Hr in Hn. }
  unfold dbID, db_service. cbn. replace (rt_sh (Kayak.Start rt)) with (rt_sh rt); [by rewrite Hs|].
  unfold Kayak.Start. case_decide; by destruct rt.
Qed.

Lemma wfDBMS_map ms : wfDBMS ms → wfMap ms.
Proof. by intros []. Qed.
Lemma wfDBMS_mux ms x : x ⊆ ms_kayakMux ms → wfDBMS ms → wfDBMS (set_mux ms x).
Proof. intros Hx [Hmux ? ?]. split; [|done..]. cbn. set_solver. Qed.

(** A database is in the map, or registered and not yet in the map. *)
Lemma createOpen_wf nc op si cleanup ms r ms' : wfDBMS ms → createOpen nc op si cleanup ms = (r, ms') →
  match r with
  | Ok db => ms_dbMap ms !! si_DatabaseID si = None ∧ dbID db = si_DatabaseID si ∧
      ms' = set_mux ms ({[si_DatabaseID si]} ∪ ms_kayakMux ms)
  | _ => wfDBMS ms'
  end.
Proof.
  intros Hwf. unfold createOpen. go_unfold. case_decide as Hex; [by intros [= <- <-]|].
  destruct (if cleanup then _ else None); [by intros [= <- <-]|].
  destruct (NewDatabase _ _ _ _ op) as [db|[e runtime]|] eqn:Hdb; [| |by intros [= <- <-]].
  - go_unfold. intros [= <- <-]. split_and!; [by apply eq_None_not_Some|by apply NewDatabase_id in Hdb|done].
  - assert (si_DatabaseID si ∉ ms_kayakMux ms) as Hni.
    { intros Hin. destruct Hwf as [Hmux _ _]. apply Hmux, elem_of_dom in Hin. done. }
    set (ms1 := if runtime then set_mux ms (ms_kayakMux ms ∖ {[si_DatabaseID si]}) else ms).
    assert (wfMap ms1) as Hwf1 by (unfold ms1; destruct runtime; [apply wfDBMS_map, wfDBMS_mux; [set_solver|done]|by apply wfDBMS_map]).
    assert (si_DatabaseID si ∉ ms_kayakMux ms1) as Hni1 by (unfold ms1; destruct runtime; cbn; set_solver).
    destruct (removeMeta (si_DatabaseID si) ms1) as [r1 ms2] eqn:Hrm.
    destruct (removeMeta_wf _ _ _ _ Hwf1 Hni1 Hrm) as (Hr1 & Hwf2 & _).
    destruct runtime; go_unfold; subst ms1; cbn iota in Hrm; rewrite Hrm; destruct r1; [..|done]; by intros [= <- <-].
Qed.

Lemma addMeta_wf id db ms r ms' : wfDBMS ms → ms_dbMap ms !! id = None → dbID db = id →
  addMeta id db (set_mux ms ({[id]} ∪ ms_kayakMux ms)) = (r, ms') →
  r ≠ Panic ∧ wfDBMS ms' ∧ ms_dbMap ms' = <[id := db]> (ms_dbMap ms).
Proof.
  intros [Hmux Hids Hmeta] Hno Hid. unfold addMeta. go_unfold. rewrite decide_False by (cbn; rewrite Hno; by intros [? ?]). go_unfold.
  intros Hw. apply writeMeta_wf in Hw as (Hr & Hwf & -> & _); [done..|]. split; cbn.
  - rewrite dom_insert_L. set_solver.
  - intros id' db' [[<- <-]|[_ ?]]%lookup_insert_Some; [done|by apply Hids].
Qed.
Lemma wfDBMS_count n ms : wfDBMS ms → wfDBMS (addCount n ms).
Proof. by intros []. Qed.

Lemma Create_wf nc op si cleanup : preserves wfDBMS (Create nc op si cleanup).
Proof.
  intros ms r ms' Hwf. unfold Create. intros [(db & ms1 & Hz1 & Hz2)|(r0 & Hz1 & Hn & _)]%bind_inv.
  - apply createOpen_wf in Hz1 as (Hno & Hid & ->); [|done..]. unfold createAdd in Hz2. go_unfold in Hz2.
    destruct (addMeta (si_DatabaseID si) db _) as [r1 ms2] eqn:Hadd. apply addMeta_wf in Hadd as (Hr1 & Hwf2 & _); [|done..].
    apply (wfDBMS_count 1) in Hwf2. destruct r1 as [[]|e|]; [by injection Hz2 as _ <-| |done]. go_unfold in Hz2.
    destruct (removeMeta (si_DatabaseID si) _) as [r2 ms3] eqn:Hrm. apply removeMeta_wf in Hrm as (Hr2 & Hwf3 & _).
    2:{ apply wfDBMS_map, wfDBMS_mux; [set_solver|done]. }
    2:{ cbn. set_solver. }
    destruct r2; [..|done]; by injection Hz2 as _ <-.
  - apply createOpen_wf in Hz1; [|done..]. destruct r0 as [db| |]; [by destruct (Hn db)|done..].
Qed.

Lemma shutdown_wf id : preserves wfDBMS (shutdown id).
Proof.
  unfold shutdown. apply preserves_bind; [|intros _; apply onDatabase_wf, Shutdown_keeps].
  apply preserves_modifyS. intros ms. apply wfDBMS_mux. set_solver.
Qed.
Lemma Drop_wf id : preserves wfDBMS (Drop id).
Proof.
  intros ms r ms' Hwf. unfold Drop. go_unfold. case_decide; [by intros [= _ <-]|].
  destruct (shutdown id ms) as [r1 ms1] eqn:Hs. pose proof (shutdown_wf id ms r1 ms1 Hwf Hs) as Hwf1.
  destruct r1 as [[]|e|]; [|by intros [= _ <-]..]. intros Hrm.
  apply removeMeta_wf in Hrm as (_ & ? & _); [done..|by apply wfDBMS_map, wfDBMS_count|].
  assert (id ∉ ms_kayakMux ms1) as Hni; [|done].
  unfold shutdown in Hs. go_unfold in Hs. unfold onDatabase in Hs. cbn [set_mux ms_dbMap] in Hs.
  destruct (ms_dbMap ms !! id) as [db|]; [|done]. destruct (Database_Shutdown db) as [r2 db2]. injection Hs as _ <-. cbn. set_solver.
Qed.

Lemma wfDBMS_bus bs ms : wfDBMS ms → wfDBMS (set_bus ms bs).
Proof. by intros []. Qed.
Lemma onEvents_wf nc op evs : preserves wfDBMS (onEvents nc op evs).
Proof.
  induction evs as [|ev evs IH]; cbn [onEvents]; [apply preserves_ret|]. apply preserves_bind; [|intros _; apply IH].
  unfold onEvent, createDatabase, updateBilling.
  repeat first [apply preserves_attempt, Create_wf|apply onDatabase_wf, onChain_keeps|preserve_step].
Qed.

(** What happens to a miner. *)
Inductive dbmsOp :=
| DoCreate (op : Opened (C := C) (D := D) (W := W)) (si : ServiceInstance) (cleanup : bool)
| DoDrop (id : DatabaseID)
| DoUpdate (si : ServiceInstance)
| DoQuery (caller : option Hash) (stat : fileStat) (answers : list (NodeID * option kerror)) (wait : commitWait) (req : Request)
| DoAck (caller : option Hash) (ack : SignedAckHeader)
| DoLog (id : DatabaseID) (l : option Log)
| DoPoll (op : DatabaseID → Opened (C := C) (D := D) (W := W)) (answer : lastAnswer) (fetch : Z → GoResult werror (option BPBlock)).
Definition ignore {A} (m : MM A) : MM unit := _ ← m; mret tt.
Definition runDbms nc (op : dbmsOp) : MM unit :=
  match op with
  | DoCreate op si cleanup => Create nc op si cleanup
  | DoDrop id => Drop id
  | DoUpdate si => Update si
  | DoQuery caller stat answers wait req => ignore (RPC_Query caller stat answers wait req)
  | DoAck caller ack => RPC_Ack caller ack
  | DoLog id l => ignore (mux_Apply id l)
  | DoPoll op answer fetch => pollBlocks nc op answer fetch
  end.
Definition runDbmsOps nc (ops : list dbmsOp) ms : DBMS := foldl (λ ms op, (runDbms nc op ms).2) ms ops.

Lemma runDbms_wf nc op : preserves wfDBMS (runDbms nc op).
Proof.
  destruct op; cbn [runDbms].
  - apply Create_wf.
  - apply Drop_wf.
  - apply onDatabase_wf. destruct (si_Peers si); [apply onChain_keeps|]. by intros db r db' [= _ <-].
  - unfold ignore, RPC_Query, DBMS_Query, fromNode. repeat first [apply onDatabase_wf, Query_keeps|preserve_step].
  - unfold RPC_Ack, DBMS_Ack, fromNode. repeat first [apply onDatabase_wf, onChain_keeps|preserve_step].
  - unfold ignore, mux_Apply. repeat first [apply onDatabase_wf, mux_keeps|preserve_step].
  - unfold pollBlocks. apply preserves_bind; [apply preserves_getS|]. intros ms0. destruct (subscribeBlock _ _ _) as [evs bs].
    apply preserves_bind; [apply preserves_modifyS; intros ms; apply wfDBMS_bus|]. intros _.
    apply preserves_bind; [apply preserves_liftR|]. intros l. apply onEvents_wf.
Qed.

(** A creation or removal that succeeds has written the meta file. *)
Lemma writeMeta_Ok ms ms' : writeMeta ms = (Ok tt, ms') → metaOf (ms_meta ms') = Ok (dom (ms_dbMap ms')).
Proof.
  unfold writeMeta. go_unfold. destruct (EncodeMsgPack _) as [b|] eqn:Hb; [|done].
  destruct (mf_Write b (ms_meta ms)) as [[e|] f] eqn:Hf; [done|]. intros [= <-]. apply mf_Write_Read in Hf. by apply (metaOf_write ms b).
Qed.
Lemma Create_meta nc op si cleanup ms ms' : Create nc op si cleanup ms = (Ok tt, ms') → metaOf (ms_meta ms') = Ok (dom (ms_dbMap ms')).
Proof.
  intros (db & ms1 & _ & Hadd)%bind_Ok. unfold createAdd in Hadd. go_unfold in Hadd.
  destruct (addMeta _ db ms1) as [[[]|e|] ms2] eqn:Ha; [| |done].
  - injection Hadd as <-. unfold addMeta in Ha. go_unfold in Ha. case_decide; [done|]. by apply writeMeta_Ok in Ha.
  - by destruct (removeMeta _ _) as [[[]|?|] ?] in Hadd.
Qed.
Lemma Drop_meta id ms ms' : Drop id ms = (Ok tt, ms') → metaOf (ms_meta ms') = Ok (dom (ms_dbMap ms')).
Proof.
  unfold Drop. go_unfold. case_decide; [done|]. destruct (shutdown id ms) as [[[]|e|] ms1]; [|done..].
  unfold removeMeta. go_unfold. apply writeMeta_Ok.
Qed.

(** C18: The registry of a miner stays consistent.  From a miner without databases and
    without a meta file, over any sequence of creations, removals, updates, queries,
    acknowledgements, replicated logs and blocks of the main chain, whatever each
    returns and whatever writes of the meta file fail: a registered Kayak runtime
    belongs to a database of the map, and every database has the id it is stored under.
    The meta file lists exactly the databases of the map when no write of it fails, and
    in any case after a creation or removal that returns without an error; a removal
    whose write fails leaves the two apart. *)
Theorem registry_consistent nc ops bs f : mf_Read f = Ok None →
  let ms := runDbmsOps nc ops (MkDBMS ∅ ∅ bs f 0) in
  ms_kayakMux ms ⊆ dom (ms_dbMap ms) ∧
  (∀ id db, ms_dbMap ms !! id = Some db → dbID db = id) ∧
  (reliableMeta → metaOf (ms_meta ms) = Ok (dom (ms_dbMap ms))) ∧
  ∀ ms', (∃ op si cleanup, Create nc op si cleanup ms = (Ok tt, ms')) ∨ (∃ id, Drop id ms = (Ok tt, ms')) →
    metaOf (ms_meta ms') = Ok (dom (ms_dbMap ms')).
Proof.
  intros Hf ms. assert (wfDBMS ms) as [? ? ?].
  2:{ split_and!; [done..|]. intros ms' [(op & si & cl & Hc)|[id Hd]]; [by eapply Create_meta|by eapply Drop_meta]. }
  unfold ms, runDbmsOps.
  assert (wfDBMS (MkDBMS ∅ ∅ bs f 0)) as Hwf.
  { split; cbn; [done|by intros id db; rewrite lookup_empty|]. unfold metaOf. rewrite Hf. cbn. by rewrite dom_empty_L. }
  revert Hwf. clear Hf ms. generalize (MkDBMS ∅ ∅ bs f 0 : DBMS). induction ops as [|op ops IH]; intros ms Hwf; [done|]. cbn.
  apply IH. destruct (runDbms nc op ms) as [r ms'] eqn:Hr. by eapply runDbms_wf.
Qed.

(** ** Start-up *)

(** No creation panics: the profiles have miners and a genesis block, and opening a
    database ends in a result or an error. *)
Definition creatable nc (op : DatabaseID → Opened) bs (profiles : gmap DatabaseID SQLChainProfile) : Prop :=
  ∀ id p, profiles !! id = Some p → sp_ID p = id ∧ ∃ si, buildSQLChainServiceInstance p = Ok si ∧
    ∀ ms, ms_busService ms = bs → NewDatabase nc (dbConfig nc ms si) (si_Peers si) (si_GenesisBlock si) (op id) ≠ Panic.

Lemma writeMeta_frame ms r ms' : writeMeta ms = (r, ms') → r ≠ Panic ∧ ms_dbMap ms' = ms_dbMap ms ∧ ms_busService ms' = ms_busService ms.
Proof.
  unfold writeMeta. go_unfold. destruct (EncodeMsgPack _); [|by intros [= <- <-]]. destruct (mf_Write _ _) as [[e|] f]; by intros [= <- <-].
Qed.
Lemma removeMeta_frame id ms r ms' : removeMeta id ms = (r, ms') →
  r ≠ Panic ∧ ms_dbMap ms' = delete id (ms_dbMap ms) ∧ ms_busService ms' = ms_busService ms.
Proof. unfold removeMeta. go_unfold. by intros ?%writeMeta_frame. Qed.

Lemma Create_frame nc op si cleanup ms r ms' :
  NewDatabase nc (dbConfig nc ms si) (si_Peers si) (si_GenesisBlock si) op ≠ Panic → Create nc op si cleanup ms = (r, ms') →
  r ≠ Panic ∧ dom (ms_dbMap ms') ⊆ {[si_DatabaseID si]} ∪ dom (ms_dbMap ms) ∧ ms_busService ms' = ms_busService ms.
Proof.
  intros Hnp. unfold Create, createOpen. go_unfold. case_decide as Hex; [intros [= <- <-]; split_and!; [done|set_solver|done]|].
  destruct (if cleanup then _ else None); [intros [= <- <-]; split_and!; [done|set_solver|done]|].
  destruct (NewDatabase _ _ _ _ op) as [db|[e runtime]|]; [| |done].
  - unfold createAdd, addMeta. go_unfold. rewrite decide_False by done. go_unfold.
    destruct (writeMeta _) as [r1 ms1] eqn:Hw. apply writeMeta_frame in Hw as (Hr1 & Hm1 & Hb1). cbn in Hm1, Hb1.
    destruct r1 as [[]|e|]; [| |done].
    + intros [= <- <-]. cbn. rewrite Hm1, dom_insert_L. split_and!; [done|set_solver|done].
    + destruct (removeMeta _ _) as [r2 ms2] eqn:Hrm. apply removeMeta_frame in Hrm as (Hr2 & Hm2 & Hb2). cbn in Hm2, Hb2.
      destruct r2 as [[]|e2|]; [..|done]; intros [= <- <-]; rewrite Hm2, Hm1, dom_delete_L, dom_insert_L; (split_and!; [done|set_solver|congruence]).
  - destruct runtime; go_unfold; destruct (removeMeta _ _) as [r2 ms2] eqn:Hrm; apply removeMeta_frame in Hrm as (Hr2 & Hm2 & Hb2); cbn in Hm2, Hb2;
      (destruct r2 as [[]|e2|]; [..|done]; intros [= <- <-]; rewrite Hm2, dom_delete_L; (split_and!; [done|set_solver|congruence])).
Qed.

Lemma createAll_frame nc op bs profiles ps ms r ms' : creatable nc op bs profiles → ms_busService ms = bs →
  (∀ p, p ∈ ps → ∃ id, profiles !! id = Some p) → createAll nc op ps ms = (r, ms') →
  r = Ok tt ∧ dom (ms_dbMap ms') ⊆ dom profiles ∪ dom (ms_dbMap ms) ∧ ms_busService ms' = bs.
Proof.
  intros Hcr. revert ms. induction ps as [|p ps IH]; intros ms Hbs Hps; cbn [createAll]; [intros [= <- <-]; split_and!; [done|set_solver|done]|].
  destruct (Hps p) as [id Hid]; [by left|]. destruct (Hcr id p Hid) as (Hpid & si & Hsi & Hnp). go_unfold. rewrite Hsi.
  assert (si_DatabaseID si = id) as Hsid.
  { revert Hsi. unfold buildSQLChainServiceInstance. destruct (_ <$> _); [done|]. destruct (DecodeMsgPack _); [|done]. by intros [= <-]. }
  destruct (Create nc (op (sp_ID p)) si false ms) as [r1 ms1] eqn:Hc. rewrite Hpid in Hc.
  apply Create_frame in Hc as (Hr1 & Hd1 & Hb1); [|by apply Hnp]. rewrite Hsid in Hd1.
  assert (dom (ms_dbMap ms1) ⊆ dom profiles ∪ dom (ms_dbMap ms)) as Hd1'.
  { assert (id ∈ dom profiles) by (apply elem_of_dom; by eexists). set_solver. }
  destruct r1 as [[]|e|]; [..|done]; (intros Hrec; apply IH in Hrec as (-> & Hd2 & Hb2);
    [split_and!; [done|set_solver|done]|congruence|intros p' Hp'; apply Hps; by right]).
Qed.

Lemma dropAll_absent ids ms : (∀ id, id ∈ ids → ms_dbMap ms !! id = None) →
  dropAll ids ms = (match ids with [] => Ok tt | _ => Err WErr.ErrNotExists end, ms).
Proof.
  intros Hall. destruct ids as [|id ids]; [done|]. cbn [dropAll]. unfold Drop. go_unfold.
  by rewrite decide_True by (apply Hall; by left).
Qed.

(** Start-up of a miner.  It opens databases of the profiles the main chain assigns
    to it, and only those; it succeeds exactly when every database of the meta file
    is still assigned.  Otherwise, although these databases are meant to be dropped,
    it fails, since a database that was not opened cannot be dropped. *)
Theorem Init_assigned nc op ms meta : ms_dbMap ms = ∅ → metaOf (ms_meta ms) = Ok meta →
  creatable nc op (ms_busService ms) (GetCurrentDBMapping (ms_busService ms)) →
  dom (ms_dbMap (Init nc op ms).2) ⊆ dom (GetCurrentDBMapping (ms_busService ms)) ∧
  (Init nc op ms).1 = if decide (meta ⊆ dom (GetCurrentDBMapping (ms_busService ms))) then Ok tt else Err (WErr.Wrap WErr.ErrNotExists).
Proof.
  intros Hempty Hmeta Hcr. unfold Init, wrapW, readMeta. go_unfold. rewrite Hmeta. go_unfold. unfold initDatabases. go_unfold.
  set (profiles := GetCurrentDBMapping (ms_busService ms)) in *.
  destruct (createAll nc op (map_to_list profiles).*2 ms) as [r ms1] eqn:Hc.
  apply (createAll_frame nc op (ms_busService ms) profiles) in Hc as (-> & Hdom & _); [|done|done|].
  2:{ intros p ([id p'] & -> & Hp)%list_elem_of_fmap. exists id. by apply elem_of_map_to_list. }
  rewrite Hempty, dom_empty_L in Hdom.
  assert (dom (ms_dbMap ms1) ⊆ dom profiles) as Hdom' by set_solver. clear Hdom.
  rewrite dropAll_absent.
  2:{ intros id Hin%elem_of_elements. apply not_elem_of_dom. set_solver. }
  destruct (elements (meta ∖ dom profiles)) as [|id ids] eqn:Hel; go_unfold; cbn [fst snd].
  - apply elements_empty_inv in Hel. rewrite decide_True by set_solver. done.
  - assert (id ∈ meta ∖ dom profiles) as Hid by (apply elem_of_elements; rewrite Hel; by left).
    rewrite decide_False by set_solver. done.
Qed.
End dbms.
