(* ===== verification/WorkerSample.v ===== *)
(** * A miner with a database

    A meta file, a leader and a follower that replicate a database through Kayak, and
    a miner that opens the databases of its profiles; runs of the theorems about
    databases on them, and the runs that show where a miner fails. *)
From S2P Require Import Prelude Hash Types Block Bytes SqlTypes Sanitizer Xenomint XenoProps XenoPool.
From S2P Require Import MetaState MetaView MetaTx Ledger LedgerRefine Sample.
From S2P Require Import Storage StorageProps Branch BranchProps ChainSample XenoSample WireSample.
From S2P Require Import AckIndex LevelDB SqlNode SqlBilling SqlChain SqlSample.
From S2P Require Import KayakWal Kayak KayakProps KayakSample NodeInfo Dht Worker WorkerProps DbReplica Dbms DbmsProps.
From Stdlib Require Import String ZArith Lia Sorted.
From stdpp Require Import base list gmap strings relations.
Local Open Scope Z_scope.

#[export] Instance sampleRequestCode : MsgPack Request := coded Request.
#[export] Instance sampleIdsCode : MsgPack (list DatabaseID) := coded (list string).

(** A meta file that does not fail. *)
#[export, refine] Instance sampleMetaFile : MetaFile (option (list Z)) := {|
  mf_Read := λ f, Ok f;
  mf_Write := λ b _, (None, Some b);
|}.
Proof. by intros f b f' [= <-]. Defined.

(** ** A replicated database *)

Abbreviation sampleServiceT := (Service (C := conn) (D := sampleDB)).
Definition sampleDBConfig : DBConfig := MkDBConfig dbName 5 0 1 0 false true.
Definition sampleService (server : NodeID) : sampleServiceT := MkService sampleDBConfig (startChain server) ∅ (λ n, Z.of_nat n) 0.
Definition dbRuntime (id : NodeID) (role : Kayak.ServerRole) (server : NodeID) : Runtime sampleWal sampleServiceT :=
  MkRuntime 0 0 ∅ id emptyWal (sampleService server) role ["f"%string] 1 1 1.
Definition dbFollowers : gmap NodeID (fnode sampleWal sampleServiceT Request) :=
  {["f"%string := MkFnode (dbRuntime "f" Kayak.Follower "follower") [] []]}.
Definition dbSystem : system sampleWal sampleServiceT Request := MkSystem (dbRuntime "leader" Kayak.Leader "the leader") [] dbFollowers.

Lemma dbSystem_initial : initial (sampleService "the leader") (λ _, sampleService "follower") dbSystem.
Proof.
  split; [split; [apply emptyWal_empty|done]|]. split; [done|]. intros f fn.
  unfold dbSystem, dbFollowers. cbn [sy_followers]. rewrite lookup_singleton_Some. intros [<- <-]. split; [split; [apply emptyWal_empty|done]|done].
Qed.

Definition signedRequest (ty id : Z) (stmts : list string) : Request :=
  match Request_Sign (sampleRequest ty id stmts) sampleKey with Ok r => r | _ => sampleRequest ty id stmts end.
Definition write1 : Request := signedRequest WriteQuery 1 ["INSERT 1"; "INSERT 2"].
Definition logOf (r : GoResult kerror Log) : Log := match r with Ok l => l | _ => log0 end.

(** The leader prepares and commits the request; its follower gets both logs. *)
Definition dbLog0 : Log := logOf (leaderPrepare write1 (dbRuntime "leader" Kayak.Leader "the leader")).1.
Definition dbLeaderA := KayakSample.after (leaderPrepare write1) (dbRuntime "leader" Kayak.Leader "the leader").
Definition dbLeaderB := KayakSample.after (leaderDoCommit write1 0) dbLeaderA.
Definition dbLog1 : Log := sampleLog 1 LogCommit (uint64ToBytes 0 ++ uint64ToBytes 0).
Definition cycleOf (r : GoResult kerror (option (commitReq Request))) : option (commitReq Request) := match r with Ok c => c | _ => None end.
Definition dbFollowerA := KayakSample.after (followerApply (Some dbLog0) true) (dbRuntime "f" Kayak.Follower "follower").
Definition dbFollowerB := KayakSample.after (followerApply (Some dbLog1) true) dbFollowerA.
Definition dbCycle : commitReq Request :=
  default (MkCommitReq write1 0 0 dbLog1) (cycleOf (followerApply (Some dbLog1) true dbFollowerA).1).
Definition dbFollowerC := KayakSample.after (followerDoCommit dbCycle) dbFollowerB.
Definition dbFollowersA := <["f"%string := MkFnode dbFollowerA [] []]> dbFollowers.
Definition dbFollowersB := <["f"%string := MkFnode dbFollowerB [dbCycle] []]> dbFollowersA.
Definition dbFollowersC := <["f"%string := MkFnode dbFollowerC [] [dbCycle]]> dbFollowersB.
Definition dbSystemC : system sampleWal sampleServiceT Request := MkSystem dbLeaderB [] dbFollowersC.

(** Equal results, told apart from the states. *)
Lemma ran_Ok {S E A} (m : GoM S E A) s a : match (m s).1 with Ok b => b = a | _ => False end → m s = (Ok a, KayakSample.after m s).
Proof. unfold KayakSample.after. destruct (m s) as [[b|e|] s']; cbn; [by intros ->|done..]. Qed.
Lemma committed_step r fl fs (k : nat) l (req : Request) r' : room r → fl !! k = Some (l, req) → is_Ok (leaderDoCommit req (Log_Index l) r).1 = true →
  KayakSample.after (leaderDoCommit req (Log_Index l)) r = r' →
  step (MkSystem r fl fs) (MkSystem r' (delete k fl) fs : system sampleWal sampleServiceT Request).
Proof.
  intros Hroom Hk Hok <-. destruct (leaderDoCommit req (Log_Index l) r) as [[res|e|] r1] eqn:Hd; [|done..].
  eapply step_commit; [done|done|]. rewrite Hd. unfold KayakSample.after. by rewrite Hd.
Qed.
Definition okSome {E A} (r : GoResult E (option A)) : bool := match r with Ok (Some _) => true | _ => false end.
Lemma cycle_step r fl fs (f : NodeID) rt q (req : commitReq Request) r' d : fs !! f = Some (MkFnode rt (req :: q) d) → okSome (followerDoCommit req rt).1 = true →
  KayakSample.after (followerDoCommit req) rt = r' →
  step (MkSystem r fl fs) (MkSystem r fl (<[f := MkFnode r' q (req :: d)]> fs) : system sampleWal sampleServiceT Request).
Proof.
  intros Hf Hok <-. destruct (followerDoCommit req rt) as [[[res|]|e|] r1] eqn:Hd; [|done..].
  unfold KayakSample.after. rewrite Hd. eapply (step_cycle _ _ _ f _ 0 req (Ok (Some res)) r1) in Hf; [exact Hf|done|done|done].
Qed.

Definition okNone {E A} (r : GoResult E (option A)) : bool := match r with Ok None => true | _ => false end.
Lemma prepare_step (r : Runtime sampleWal sampleServiceT) (fl : list (Log * Request)) (fs : gmap NodeID (fnode sampleWal sampleServiceT Request)) (f : NodeID) (rt : Runtime sampleWal sampleServiceT) (q d : list (commitReq Request)) (i : Z) (l : Log) r' : is_u64 i → wal_lookup (rt_wal r) i = Some l →
  fs !! f = Some (MkFnode rt q d) → okNone (A := commitReq Request) (followerApply (Some l) true rt).1 = true →
  KayakSample.after (A := option (commitReq Request)) (followerApply (Some l) true) rt = r' →
  step (MkSystem r fl fs) (MkSystem r fl (<[f := MkFnode r' q d]> fs) : system sampleWal sampleServiceT Request).
Proof.
  intros Hi Hl Hf Hok <-. unfold KayakSample.after. destruct (followerApply (Some l) true rt) as [[[c|]|e|] r1] eqn:Ha; [done| |done..].
  exact (step_deliver r fl fs f _ i l true (Ok None) _ Hi Hl Hf Ha).
Qed.
Lemma commit_step (r : Runtime sampleWal sampleServiceT) (fl : list (Log * Request)) (fs : gmap NodeID (fnode sampleWal sampleServiceT Request)) (f : NodeID) (rt : Runtime sampleWal sampleServiceT) (q d : list (commitReq Request)) (i : Z) (l : Log) c r' : is_u64 i → wal_lookup (rt_wal r) i = Some l →
  fs !! f = Some (MkFnode rt q d) → okSome (A := commitReq Request) (followerApply (Some l) true rt).1 = true →
  KayakSample.after (A := option (commitReq Request)) (followerApply (Some l) true) rt = r' →
  step (MkSystem r fl fs) (MkSystem r fl (<[f := MkFnode r' (default c (cycleOf (followerApply (Some l) true rt).1) :: q) d]> fs)
    : system sampleWal sampleServiceT Request).
Proof.
  intros Hi Hl Hf Hok <-. unfold KayakSample.after. destruct (followerApply (Some l) true rt) as [[[c'|]|e|] r1] eqn:Ha; [|done..].
  exact (step_deliver r fl fs f _ i l true (Ok (Some c')) _ Hi Hl Hf Ha).
Qed.

Lemma db_run : rtc step dbSystem dbSystemC.
Proof.
  apply (rtc_l _ _ (MkSystem dbLeaderA [(dbLog0, write1)] dbFollowers)).
  { apply step_prepare; [vm_compute; reflexivity|apply ran_Ok; vm_compute; reflexivity]. }
  apply (rtc_l _ _ (MkSystem dbLeaderB [] dbFollowers)).
  { apply (committed_step dbLeaderA [(dbLog0, write1)] dbFollowers 0 dbLog0 write1 dbLeaderB); [vm_compute; reflexivity|reflexivity|vm_compute; reflexivity|reflexivity]. }
  apply (rtc_l _ _ (MkSystem dbLeaderB [] dbFollowersA)).
  { apply (prepare_step dbLeaderB [] dbFollowers "f" (dbRuntime "f" Kayak.Follower "follower") [] [] 0 dbLog0 dbFollowerA);
      [done|vm_compute; reflexivity|apply lookup_singleton_eq|vm_compute; reflexivity|reflexivity]. }
  apply (rtc_l _ _ (MkSystem dbLeaderB [] dbFollowersB)).
  { apply (commit_step dbLeaderB [] dbFollowersA "f" dbFollowerA [] [] 1 dbLog1 (MkCommitReq write1 0 0 dbLog1) dbFollowerB);
      [done|vm_compute; reflexivity|apply lookup_insert_eq|vm_compute; reflexivity|reflexivity]. }
  apply rtc_once, (cycle_step dbLeaderB [] dbFollowersB "f" dbFollowerB [] dbCycle dbFollowerC); [apply lookup_insert_eq|vm_compute; reflexivity|reflexivity].
Qed.

Lemma sample_faultless : faultless (C := conn).
Proof.
  split; [apply sample_reliable|]. intros [rows com sv tx] args. split; [by eexists|]. destruct sv as [|d sv]; [done|]. intros _. by eexists.
Qed.
(** Nothing that decides the fate of a write differs. *)
Definition inStepb (s t : State (C := conn)) : bool :=
  bool_decide (cn_rows (xs_conn s) = cn_rows (xs_conn t)) && bool_decide (cn_saves (xs_conn s) = cn_saves (xs_conn t)) &&
  xs_readUncommitted s && xs_readUncommitted t && bool_decide (xs_maxTx s = xs_maxTx t) && bool_decide (xs_current s = xs_current t) &&
  bool_decide (xs_lastCommitPoint s = xs_lastCommitPoint t) && bool_decide (xs_hasSchemaChange s = xs_hasSchemaChange t).
Lemma inStepb_spec s t : inStepb s t = true → inStep true s t.
Proof. unfold inStepb. rewrite !andb_true_iff, !bool_decide_eq_true. intros (((((((? & ?) & ?) & ?) & ?) & ?) & ?) & ?). by split. Qed.

(** The leader and its follower have executed the request. *)
Lemma database_replicas_agree_witness : ∃ reqs n,
  executes true (sampleService "the leader") reqs (rt_sh dbLeaderB) ∧
  executes false (sampleService "follower") (take n reqs) (rt_sh dbFollowerC) ∧
  cn_rows (xs_conn (sv_state (rt_sh dbLeaderB))) = ["INSERT 1"; "INSERT 2"]%string ∧
  cn_rows (xs_conn (sv_state (rt_sh dbFollowerC))) = ["INSERT 1"; "INSERT 2"]%string.
Proof.
  destruct (database_replicas_agree true (sampleService "the leader") (λ _, sampleService "follower") dbSystem dbSystemC
    sample_faultless) as (reqs & Hl & _ & Hf).
  - apply inStepb_spec. vm_compute. reflexivity.
  - intros _. apply inStepb_spec. vm_compute. reflexivity.
  - apply dbSystem_initial.
  - apply db_run.
  - destruct (Hf "f"%string (MkFnode dbFollowerC [] [dbCycle])) as (n & _ & He & _); [apply lookup_insert_eq|].
    exists reqs, n. split; [exact Hl|]. split; [exact He|]. split; vm_compute; reflexivity.
Defined.

(** ** A miner *)

Abbreviation sampleDBMS := (DBMS (C := conn) (D := sampleDB) (W := sampleWal) (F := option (list Z))).
Definition minerInfo (k : Z) (node : NodeID) : MinerInfo := MkMinerInfo (addr k) node EmptyString 0 0 [] 0 Normal EmptyString.
(** Alice may read, Bob may write. *)
Definition minerProfile : SQLChainProfile :=
  MkSQLChainProfile dbName dbHash 0 0 0 Particle alice [minerInfo 1 "the leader"; minerInfo 2 "follower"]
    [sampleUser alice Read; sampleUser bob Write] (put genesisBlock) (sampleMeta 2).
Definition minerConf : NodeConf := MkNodeConf "the leader" sampleKey (addr 1) 5 10 5 10 2.
Definition minerOpened : Opened (C := conn) (D := sampleDB) (W := sampleWal) :=
  MkOpened None None ∅ ∅ emptyConn [1] noNews (Ok emptyWal) 1 (λ n, Z.of_nat n).
Definition minerBus : BusService := updateState 1 [minerProfile] (MkBusService 0 ∅ ∅).
Definition noDatabases (meta : option (list Z)) : sampleDBMS := MkDBMS ∅ ∅ minerBus meta 0.
Definition minerInstance : ServiceInstance :=
  match buildSQLChainServiceInstance minerProfile with Ok si => si | _ => MkServiceInstance "" None (sampleMeta 2) None end.

Lemma minerProfiles_distinct : distinct [minerProfile].
Proof.
  split; [apply NoDup_singleton|]. intros p ->%list_elem_of_singleton.
  apply (bool_decide_unpack _). vm_compute. exact I.
Qed.

(** A read of Alice, which comes from the node it names, is answered. *)
Definition readRequest : Request :=
  MkRequest (MkRequestHeader ReadQuery (Hash_String (addr 7)) dbName 1 3 0 1 zeroHash) (MkHSV (addr 33) (Some 1) None) [MkQuery "SELECT" []].
Definition minerDB : sampleDBMS :=
  MkDBMS {[dbName := MkDatabase (dbRuntime "leader" Kayak.Leader "the leader") (addr 1)]} {[dbName]} minerBus None 1.
Definition ackOfRead : SignedAckHeader :=
  MkSignedAckHeader (MkAckHeader (sr_Header (qt_Response (sampleTx readRequest 0))) zeroHash "client" 0) (MkHSV (addr 30) None None).
Lemma requests_authorized_witness :
  authorized [minerProfile] (Some (addr 7)) (Hash_String (addr 7)) (Some 1) dbName ReadQuery [MkQuery "SELECT" []] ∧
  is_Ok (RPC_Query (Some (addr 7)) StatNotExist [] GotResult readRequest minerDB).1 = true ∧
  (RPC_Ack (Some (addr 8)) ackOfRead minerDB).2 = minerDB.
Proof.
  assert (is_Ok (RPC_Query (Some (addr 7)) StatNotExist [] GotResult readRequest minerDB).1 = true) as Hok by (vm_compute; reflexivity).
  assert (is_Ok (RPC_Ack (Some (addr 8)) ackOfRead minerDB).1 = false) as Hno by (vm_compute; reflexivity).
  destruct (requests_authorized 1 [minerProfile] (MkBusService 0 ∅ ∅) (Some (addr 7)) StatNotExist [] GotResult readRequest ackOfRead minerDB)
    as [Hq _]; [apply minerProfiles_distinct|reflexivity|].
  destruct (requests_authorized 1 [minerProfile] (MkBusService 0 ∅ ∅) (Some (addr 8)) StatNotExist [] GotResult readRequest ackOfRead minerDB)
    as [_ Ha]; [apply minerProfiles_distinct|reflexivity|].
  destruct Hq as [[Hq _]|(_ & _ & Hq)].
  - split; [exact Hq|]. split; [exact Hok|]. destruct Ha as [[[(h & [= <-] & Hh) _] _]|(_ & Ha & _)]; [|exact Ha].
    exfalso. clear -Hh. vm_compute in Hh. discriminate Hh.
  - destruct (RPC_Query _ _ _ _ _ _) as [[a|e|] ms']; [destruct (Hq a); reflexivity|discriminate Hok..].
Defined.

(** A database is created and created again, another one dropped. *)
Definition minerOps : list dbmsOp :=
  [DoCreate minerOpened minerInstance true; DoCreate minerOpened minerInstance true; DoDrop "other"].
Lemma registry_consistent_witness :
  let ms := runDbmsOps minerConf minerOps (noDatabases None) in
  elements (dom (ms_dbMap ms)) = [dbName] ∧ ms_dbCount ms = 1 ∧ ms_kayakMux ms ⊆ dom (ms_dbMap ms) ∧
  metaOf (ms_meta ms) = Ok (dom (ms_dbMap ms)).
Proof.
  intros ms. destruct (registry_consistent minerConf minerOps minerBus None) as (Hmux & _ & Hmeta & _).
  - reflexivity.
  - split; [vm_compute; reflexivity|]. split; [vm_compute; reflexivity|]. split; [exact Hmux|]. apply Hmeta.
    split; [reflexivity|]. intros ids. eexists. reflexivity.
Defined.

(** The checks of two requests of a connection, one after the other, with a repetition of
    the first between them. *)
Definition write2 : Request := signedRequest WriteQuery 2 ["INSERT 3"].
Definition turns : list serviceOp := [CheckBegin write1; CheckEnd 0; CheckBegin write1; CheckBegin write2; CheckEnd 0].
Lemma connection_order_witness :
  (λ p, (seqNoOf p, p.2)) <$> accepted turns (sampleService "the leader") [] = [(seqNoOf (write1, 0), 0); (seqNoOf (write2, 0), 2)] ∧
  StronglySorted Z.lt (seqNos 1 (accepted turns (sampleService "the leader") [])).
Proof.
  split; [vm_compute; reflexivity|].
  refine (proj1 (proj2 (connection_order turns (sampleService "the leader")) 1 _)).
  vm_compute. reflexivity.
Defined.

(** With the assigned database in the meta file a miner starts, with another one it
    does not. *)
Lemma minerInstance_built : buildSQLChainServiceInstance minerProfile = Ok minerInstance.
Proof.
  assert (is_Ok (buildSQLChainServiceInstance minerProfile) = true) as Hok by (vm_compute; reflexivity).
  unfold minerInstance. by destruct (buildSQLChainServiceInstance minerProfile).
Qed.
Lemma dbConfig_bus (ms ms' : sampleDBMS) si : ms_busService ms = ms_busService ms' → dbConfig minerConf ms si = dbConfig minerConf ms' si.
Proof. unfold dbConfig. by intros ->. Qed.
Lemma miner_creatable : creatable (F := option (list Z)) minerConf (λ _, minerOpened) minerBus (GetCurrentDBMapping minerBus).
Proof.
  assert (is_Panic (NewDatabase minerConf (dbConfig minerConf (noDatabases None) minerInstance) (si_Peers minerInstance)
    (si_GenesisBlock minerInstance) minerOpened) = false) as Hnp by (vm_compute; reflexivity).
  intros id p. unfold GetCurrentDBMapping, minerBus, updateState. cbn [bs_sqlChainProfiles foldl].
  rewrite lookup_insert_Some, lookup_empty. intros [[<- <-]|[_ [=]]]. split; [reflexivity|]. exists minerInstance.
  split; [exact minerInstance_built|]. intros ms Hms. rewrite (dbConfig_bus ms (noDatabases None) minerInstance Hms).
  intros Hp. rewrite Hp in Hnp. discriminate Hnp.
Qed.
Lemma decode_ids (ids : list DatabaseID) : DecodeMsgPack (put ids) = Some ids.
Proof. unfold DecodeMsgPack, sampleIdsCode, coded. exact (Code_decode ids (put ids) eq_refl). Qed.
Lemma Init_assigned_witness :
  (Init minerConf (λ _, minerOpened) (noDatabases (Some (put [dbName])))).1 = Ok tt ∧
  (Init minerConf (λ _, minerOpened) (noDatabases (Some (put [dbName; "other"%string])))).1 = Err (WErr.Wrap WErr.ErrNotExists).
Proof.
  assert (∀ ids, metaOf (Some (put ids)) = Ok (list_to_set ids : gset DatabaseID)) as Hmeta.
  { intros ids. unfold metaOf. cbn [result_bind mf_Read sampleMetaFile]. by rewrite decode_ids. }
  split.
  - destruct (Init_assigned minerConf (λ _, minerOpened) (noDatabases (Some (put [dbName]))) (list_to_set [dbName]))
      as [_ Hr]; [reflexivity|apply Hmeta|apply miner_creatable|]. rewrite Hr. apply decide_True. apply (bool_decide_unpack _). vm_compute. exact I.
  - destruct (Init_assigned minerConf (λ _, minerOpened) (noDatabases (Some (put [dbName; "other"%string]))) (list_to_set [dbName; "other"%string]))
      as [_ Hr]; [reflexivity|apply Hmeta|apply miner_creatable|]. rewrite Hr. apply decide_False.
    intros Hsub. assert ("other"%string ∈ dom (GetCurrentDBMapping minerBus)) as Hin by (apply Hsub; set_solver).
    apply elem_of_dom in Hin as [p Hp]. revert Hp. unfold GetCurrentDBMapping, minerBus, updateState. cbn [bs_sqlChainProfiles foldl noDatabases ms_busService].
    rewrite lookup_insert_Some, lookup_empty. intros [[Hid _]|[_ [=]]]. vm_compute in Hid. discriminate Hid.
Defined.

(** ** Where a miner fails *)

(** A block that the block producer does not have comes as nil without an error, and
    the round of the bus service panics. *)
Lemma nil_block_panics :
  (subscribeBlock (Some (Some (sampleBlock zeroHash [] 1), [], 3)) (λ _, Ok None) (MkBusService 1 ∅ ∅)).1 = Panic.
Proof. vm_compute. reflexivity. Qed.

(** Two checks of one request that overlap both find its number to be new: the request
    is accepted twice. *)
Lemma overlapping_checks :
  seqNoOf <$> accepted [CheckBegin write1; CheckBegin write1; CheckEnd 0; CheckEnd 0] (sampleService "the leader") [] =
  [seqNoOf (write1, 0); seqNoOf (write1, 0)].
Proof. vm_compute. reflexivity. Qed.

(** A meta file of which only the first [n] writes succeed.  A removal whose write fails
    has taken the database from the map, while the file still lists it. *)
#[refine] Definition failingMetaFile : MetaFile (nat * option (list Z)) := {|
  mf_Read := λ f, Ok f.2;
  mf_Write := λ b f, match f with (S n, _) => (None, (n, Some b)) | (O, d) => (Some (WErr.New "disk"), (O, d)) end;
|}.
Proof. by intros [[|n] d] b f' [= <-]. Defined.
Lemma removal_not_written :
  let ms := runDbmsOps (MetaFile0 := failingMetaFile) minerConf [DoCreate minerOpened minerInstance true; DoDrop dbName]
    (MkDBMS ∅ ∅ minerBus (1%nat, None) 0) in
  elements (dom (ms_dbMap ms)) = [] ∧ match metaOf (MetaFile0 := failingMetaFile) (ms_meta ms) with Ok ids => elements ids = [dbName] | _ => False end.
Proof. vm_compute. split; reflexivity. Qed.

(** A new connection that is seen again ends the eviction of sequence numbers. *)
Lemma eviction_ends : evictSequences ([1; 1] ++ seqZ 2 1200) [] {[1 := 5]} = {[1 := 5]}.
Proof. reflexivity. Qed.

(** The second of two creations that overlap finds the database of the first and
    removes it from the map and from the multiplexer. *)
Lemma overlapping_creations :
  let db := MkDatabase (dbRuntime "leader" Kayak.Leader "the leader") (addr 1) in
  let ms := (createAdd dbName db (createAdd dbName db (noDatabases None)).2).2 in
  elements (dom (ms_dbMap ms)) = [] ∧ ms_dbCount ms = 2.
Proof. split; vm_compute; reflexivity. Qed.
