(* ===== verification/Bus.v ===== *)
(** * The event bus

    Models [src/chainbus/bus.go]: the handlers of every topic, in the order of their
    subscription, and the calls a publication makes or starts.  A callback is a number;
    whether it is a function is an argument of subscribing.  The lock is held by every
    operation, which a callback therefore does not call. *)
From S2P Require Import Prelude.
From Stdlib Require Import String ZArith Lia.
From stdpp Require Import base list gmap strings.

Record eventHandler := MkEventHandler { eh_callBack : nat; eh_flagOnce : bool; eh_async : bool; eh_transactional : bool }.
#[export] Instance eventHandler_eq_dec : EqDecision eventHandler.
Proof. solve_decision. Defined.
Implicit Types (h : eventHandler) (hs : list eventHandler).

(** The handlers, and the callbacks called or started with their topics. *)
Record ChainBus := MkChainBus { cb_handlers : gmap string (list eventHandler); cb_calls : list (string * nat) }.
Implicit Types (bus : ChainBus) (topic : string).

Inductive busError := NotAFunction | TopicNotExist (topic : string).
Definition New : ChainBus := MkChainBus ∅ [].
Definition handlersOf topic bus : list eventHandler := default [] (cb_handlers bus !! topic).
Definition set_handlers topic bus hs : ChainBus := MkChainBus (<[topic := hs]> (cb_handlers bus)) (cb_calls bus).

Definition doSubscribe topic (isFunc : bool) h bus : option busError * ChainBus :=
  if isFunc then (None, set_handlers topic bus (handlersOf topic bus ++ [h])) else (Some NotAFunction, bus).
Definition Subscribe topic (isFunc : bool) (fn : nat) := doSubscribe topic isFunc (MkEventHandler fn false false false).
Definition SubscribeAsync topic (isFunc : bool) (fn : nat) (transactional : bool) :=
  doSubscribe topic isFunc (MkEventHandler fn false true transactional).
Definition SubscribeOnce topic (isFunc : bool) (fn : nat) := doSubscribe topic isFunc (MkEventHandler fn true false false).
Definition SubscribeOnceAsync topic (isFunc : bool) (fn : nat) := doSubscribe topic isFunc (MkEventHandler fn true true false).
Definition HasCallback topic bus : bool := match cb_handlers bus !! topic with Some hs => (0 <? length hs)%nat | None => false end.

(** An index out of range removes nothing. *)
Definition removeHandler topic (idx : option nat) bus : ChainBus :=
  match cb_handlers bus !! topic, idx with
  | Some hs, Some idx => if decide (length hs <= idx)%nat then bus else set_handlers topic bus (take idx hs ++ drop (S idx) hs)
  | _, _ => bus
  end.
Definition findHandlerIdx topic (callback : nat) bus : option nat :=
  fst <$> list_find (λ h, eh_callBack h = callback) (handlersOf topic bus).
Definition Unsubscribe topic (handler : nat) bus : option busError * ChainBus :=
  if HasCallback topic bus then (None, removeHandler topic (findHandlerIdx topic handler bus) bus)
  else (Some (TopicNotExist topic), bus).

Definition doPublish topic h bus : ChainBus := MkChainBus (cb_handlers bus) (cb_calls bus ++ [(topic, eh_callBack h)]).
(** The copied slice with its indexes. *)
Fixpoint publishLoop topic (i : nat) (copyHandlers : list eventHandler) bus : ChainBus :=
  match copyHandlers with
  | [] => bus
  | h :: copyHandlers =>
      let bus := if eh_flagOnce h then removeHandler topic (Some i) bus else bus in
      publishLoop topic (S i) copyHandlers (doPublish topic h bus)
  end.
Definition Publish topic bus : ChainBus := publishLoop topic 0 (handlersOf topic bus) bus.

(** ** Publications *)

Definition once hs : list eventHandler := filter (λ h, eh_flagOnce h = true) hs.
Definition lasting hs : list eventHandler := filter (λ h, eh_flagOnce h = false) hs.
Definition removeAt (i : nat) hs : list eventHandler := take i hs ++ drop (S i) hs.

Lemma handlersOf_set topic bus hs : handlersOf topic (set_handlers topic bus hs) = hs.
Proof. unfold handlersOf, set_handlers. cbn. by rewrite lookup_insert_eq. Qed.
Lemma removeHandler_spec topic i bus :
  handlersOf topic (removeHandler topic (Some i) bus) = removeAt i (handlersOf topic bus) ∧ cb_calls (removeHandler topic (Some i) bus) = cb_calls bus ∧
  ∀ topic', topic' ≠ topic → handlersOf topic' (removeHandler topic (Some i) bus) = handlersOf topic' bus.
Proof.
  unfold removeHandler. destruct (cb_handlers bus !! topic) as [hs|] eqn:Hs.
  - assert (handlersOf topic bus = hs) as Hh by (unfold handlersOf; by rewrite Hs). case_decide.
    + split_and!; [|done|done]. rewrite Hh. unfold removeAt. by rewrite take_ge, drop_ge, app_nil_r by lia.
    + split_and!; [by rewrite handlersOf_set, Hh|done|]. intros topic' Hne. unfold handlersOf, set_handlers. cbn. by rewrite lookup_insert_ne.
  - assert (handlersOf topic bus = []) as -> by (unfold handlersOf; by rewrite Hs). split_and!; [|done|done]. unfold removeAt. by rewrite take_nil, drop_nil.
Qed.

(** The loop on the handlers alone. *)
Fixpoint remaining (i : nat) (copy : list eventHandler) hs : list eventHandler :=
  match copy with
  | [] => hs
  | h :: copy => remaining (S i) copy (if eh_flagOnce h then removeAt i hs else hs)
  end.
Lemma publishLoop_spec topic i copy bus :
  handlersOf topic (publishLoop topic i copy bus) = remaining i copy (handlersOf topic bus) ∧
  cb_calls (publishLoop topic i copy bus) = cb_calls bus ++ ((λ h, (topic, eh_callBack h)) <$> copy) ∧
  ∀ topic', topic' ≠ topic → handlersOf topic' (publishLoop topic i copy bus) = handlersOf topic' bus.
Proof.
  revert i bus. induction copy as [|h copy IH]; intros i bus; cbn [publishLoop remaining fmap list_fmap].
  { split_and!; [done|by rewrite app_nil_r|done]. }
  destruct (IH (S i) (doPublish topic h (if eh_flagOnce h then removeHandler topic (Some i) bus else bus))) as (Hh & Hc & Ho).
  destruct (removeHandler_spec topic i bus) as (Hrh & Hrc & Hro).
  rewrite Hh, Hc. split_and!.
  - destruct (eh_flagOnce h); [|done]. change (handlersOf topic (doPublish topic h (removeHandler topic (Some i) bus)))
      with (handlersOf topic (removeHandler topic (Some i) bus)). by rewrite Hrh.
  - cbn [doPublish cb_calls]. rewrite <- app_assoc. f_equal. by destruct (eh_flagOnce h).
  - intros topic' Hne. rewrite Ho by done. destruct (eh_flagOnce h); [|done]. by apply Hro.
Qed.

Lemma remaining_lasting i copy hs : once copy = [] → remaining i copy hs = hs.
Proof.
  revert i. induction copy as [|h copy IH]; intros i Hno; [done|]. cbn. unfold once in Hno. rewrite filter_cons in Hno.
  destruct (eh_flagOnce h); [by rewrite decide_True in Hno by done|]. rewrite decide_False in Hno by done. by apply IH.
Qed.
(** Removals behind a place leave it alone. *)
Lemma remaining_before i copy hs j : (j < i)%nat → remaining i copy hs !! j = hs !! j.
Proof.
  revert i hs. induction copy as [|h copy IH]; intros i hs Hj; [done|]. cbn. rewrite IH by lia. destruct (eh_flagOnce h); [|done].
  unfold removeAt. destruct (decide (j < length hs)%nat) as [Hl|Hl].
  - rewrite lookup_app_l by (rewrite length_take; lia). by apply lookup_take_lt.
  - rewrite !(proj2 (lookup_ge_None _ _)); [done|lia|]. rewrite length_app, length_take, length_drop. lia.
Qed.
Lemma remaining_skip front i copy hs : once front = [] → remaining i (front ++ copy) hs = remaining (i + length front) copy hs.
Proof.
  revert i. induction front as [|h front IH]; intros i Hno; cbn [app remaining length]; [by rewrite Nat.add_0_r|].
  unfold once in Hno. rewrite filter_cons in Hno. destruct (eh_flagOnce h); [by rewrite decide_True in Hno by done|].
  rewrite decide_False in Hno by done. rewrite IH by done. f_equal. lia.
Qed.
Lemma removeAt_middle front h back : removeAt (length front) (front ++ h :: back) = front ++ back.
Proof. unfold removeAt. rewrite take_app_length. f_equal. rewrite cons_middle, app_assoc. apply drop_app_length'. rewrite length_app. cbn. lia. Qed.
Lemma first_once hs : once hs ≠ [] → ∃ front h back, hs = front ++ h :: back ∧ once front = [] ∧ eh_flagOnce h = true.
Proof.
  induction hs as [|h hs IH]; [done|]. intros Hne. destruct (eh_flagOnce h) eqn:Hh; [by exists [], h, hs|].
  unfold once in Hne. rewrite filter_cons, decide_False in Hne by congruence. destruct (IH Hne) as (front & h' & back & -> & Hf & Ho).
  exists (h :: front), h', back. split_and!; [done| |done]. unfold once. by rewrite filter_cons, decide_False by congruence.
Qed.
Lemma lasting_all hs : once hs = [] → lasting hs = hs.
Proof.
  induction hs as [|h hs IH]; [done|]. unfold once, lasting. rewrite !filter_cons. destruct (eh_flagOnce h); [done|].
  rewrite decide_False, decide_True by done. intros Hno. f_equal. exact (IH Hno).
Qed.
Lemma once_app hs hs' : once (hs ++ hs') = once hs ++ once hs'.
Proof. apply filter_app. Qed.
Lemma once_cons h hs : eh_flagOnce h = true → once (h :: hs) = h :: once hs.
Proof. intros Hh. unfold once. by rewrite filter_cons, decide_True. Qed.
Lemma not_lasting h hs : eh_flagOnce h = true → h ∉ lasting hs.
Proof. intros Hh Hin. apply list_elem_of_filter in Hin as [Hf _]. congruence. Qed.

(** With two handlers that are to be called once, the second one stays. *)
Lemma second_stays front h middle h' back : once front = [] → eh_flagOnce h = true → once middle = [] → eh_flagOnce h' = true →
  let hs := front ++ h :: middle ++ h' :: back in h' ∈ remaining 0 hs hs.
Proof.
  intros Hf Hh Hm Hh' hs. apply (list_elem_of_lookup_2 _ (length front + length middle)). unfold hs at 1.
  rewrite remaining_skip by done. cbn [remaining Nat.add]. rewrite Hh. unfold hs. rewrite removeAt_middle.
  rewrite (remaining_skip middle) by done. cbn [remaining]. rewrite remaining_before by lia. rewrite Hh'. rewrite app_assoc.
  unfold removeAt. rewrite lookup_app_l by (rewrite length_take, !length_app; cbn [length]; lia). rewrite lookup_take_lt by lia.
  rewrite <- (length_app front middle). by apply list_lookup_middle.
Qed.

(** A publication calls every handler of its topic, in the order of their
    subscription, and touches no other topic.  Of the handlers of the topic it keeps
    exactly those that are not to be called once, if and only if at most one of them
    is to be called once: the index in the copy is used on the list that has already
    become shorter. *)
Theorem publish_spec topic bus :
  let hs := handlersOf topic bus in
  cb_calls (Publish topic bus) = cb_calls bus ++ ((λ h, (topic, eh_callBack h)) <$> hs) ∧
  (∀ topic', topic' ≠ topic → handlersOf topic' (Publish topic bus) = handlersOf topic' bus) ∧
  (handlersOf topic (Publish topic bus) = lasting hs ↔ (length (once hs) <= 1)%nat).
Proof.
  intros hs. unfold Publish. fold hs. destruct (publishLoop_spec topic 0 hs bus) as (Hh & Hc & Ho). split_and!; [done|done|].
  rewrite Hh. fold hs. clear Hh Hc Ho. destruct (decide (once hs = [])) as [Hno|Hne].
  { rewrite remaining_lasting, lasting_all by done. rewrite Hno. cbn. split; [lia|done]. }
  destruct (first_once hs Hne) as (front & h & rest & -> & Hf & Hh). rewrite once_app, Hf, once_cons by done. cbn [app length].
  destruct (decide (once rest = [])) as [Hnr|Hner].
  - rewrite Hnr. cbn. split; [lia|]. intros _. rewrite remaining_skip by done. cbn [remaining Nat.add]. rewrite Hh, removeAt_middle.
    rewrite remaining_lasting by done. unfold lasting. rewrite filter_app, filter_cons, decide_False by congruence.
    fold (lasting front) (lasting rest). by rewrite !lasting_all.
  - split; [|destruct (once rest); [done|cbn; lia]]. intros Heq. exfalso.
    destruct (first_once rest Hner) as (middle & h' & back & -> & Hm & Hh').
    pose proof (second_stays front h middle h' back Hf Hh Hm Hh') as Hin. cbn zeta in Hin. rewrite Heq in Hin. by apply not_lasting in Hin.
Qed.

(** Two handlers to be called once, and a lasting one that goes in place of the second. *)
Lemma lasting_removed :
  let bus := MkChainBus {["t" := [MkEventHandler 1 true false false; MkEventHandler 2 true false false; MkEventHandler 3 false false false]]} [] in
  eh_callBack <$> handlersOf "t" (Publish "t" bus) = [2].
Proof. vm_compute. reflexivity. Qed.
