(* ===== verification/TwoPC.v ===== *)
(** * Two-phase commit on local storages

    Models [src/twopc/twopc.go], the coordinator, and [src/storage/storage.go], the
    sqlite storage that is its worker.  The coordinator only sees the interface
    [Worker]; [WorkerLaws] states what a worker promises, [put_all_or_none] is proved
    against it, and a storage on a database that keeps [SqliteLaws] discharges it.
    The goroutines of one phase run on different workers and are joined before the
    next phase, so the order of a phase does not matter; a hook is the error it
    returns.  The context of a put ends at its timeout, which a worker may meet at any of
    its calls of the database; when each does so is an argument of [Put]. *)
From S2P Require Import Prelude.
From Stdlib Require Import String ZArith Lia.
From stdpp Require Import base list gmap strings.
Local Open Scope Z_scope.

(** ** The coordinator *)

(** A context, as one call of a worker sees it: it does not end, or it has ended by the
    [n]th call of the database, counted from 0. *)
Definition context : Type := option nat.
Definition lasts (ctx : context) (call : nat) : bool :=
  match ctx with None => true | Some n => bool_decide (call < n)%nat end.

(** [Worker]; [Commit] gives its result or its error. *)
Class Worker (B W R E : Type) := {
  worker_Prepare : context → B → W → option E * W;
  worker_Commit : context → B → W → (E + R) * W;
  worker_Rollback : context → B → W → option E * W;
}.

(** The context of a put in each phase, by the position of the worker. *)
Record contexts := MkContexts {
  cx_prepare : nat → context;
  cx_commit : nat → context;
  cx_rollback : nat → context;
}.
(** A timeout that is not met. *)
Definition inTime : contexts := MkContexts (λ _, None) (λ _, None) (λ _, None).

Section coordinator.
Context {B W R E : Type} `{!Worker B W R E}.
Implicit Types (ws : list W) (wb : B).

(** [Options]: the hooks that are set, with what each returns. *)
Record Options := MkOptions {
  op_timeout : Z;
  op_beforePrepare : option (option E);
  op_beforeCommit : option (option E);
  op_beforeRollback : option (option E);
  op_afterCommit : option (option E);
}.
Definition NewOptions (timeout : Z) : Options := MkOptions timeout None None None None.
Definition NewOptionsWithCallback (timeout : Z) (beforePrepare beforeCommit beforeRollback afterCommit : option (option E)) : Options :=
  MkOptions timeout beforePrepare beforeCommit beforeRollback afterCommit.

(** The first error of a phase, in the order of the workers. *)
Definition firstError (errs : list (option E)) : option E := head (omap id errs).

(** The workers, each with its context. *)
Definition timed (ctx : nat → context) ws : list (context * W) := imap (λ i w, (ctx i, w)) ws.

Definition prepare (ctx : nat → context) ws wb : option E * list W :=
  let rs := (λ cw, worker_Prepare cw.1 wb cw.2) <$> timed ctx ws in (firstError rs.*1, rs.*2).
Definition rollback (ctx : nat → context) ws wb : option E * list W :=
  let rs := (λ cw, worker_Rollback cw.1 wb cw.2) <$> timed ctx ws in (firstError rs.*1, rs.*2).

Definition errorOf (r : E + R) : option E := match r with inl e => Some e | inr _ => None end.
Definition resultOf (r : E + R) : option R := match r with inl _ => None | inr x => Some x end.
(** [commit]: the result is that of the first worker. *)
Definition commit (ctx : nat → context) ws wb : (option R * option E) * list W :=
  let rs := (λ cw, worker_Commit cw.1 wb cw.2) <$> timed ctx ws in
  ((head rs ≫= λ r, resultOf r.1, firstError (errorOf <$> rs.*1)), rs.*2).

Definition Put (opt : Options) (cx : contexts) ws wb : (option R * option E) * list W :=
  match op_beforePrepare opt with
  | Some (Some e) => ((None, Some e), ws)
  | _ =>
      match prepare (cx_prepare cx) ws wb with
      | (Some e, ws) => ((None, Some e), (rollback (cx_rollback cx) ws wb).2)
      | (None, ws) =>
          match op_beforeCommit opt with
          | Some (Some e) => ((None, Some e), (rollback (cx_rollback cx) ws wb).2)
          | _ =>
              let '((result, err), ws) := commit (cx_commit cx) ws wb in
              ((result, match op_afterCommit opt with Some e => e | None => err end), ws)
          end
      end
  end.
End coordinator.
Arguments Options : clear implicits.

(** ** The database *)

Inductive terror :=
| UnexpectedWriteBatch
| InconsistentState (conn seq time : Z)
| TxNotPrepared
| ContextDone
| UnrecognizedParameter (v : string)
| SqlError (msg : string).

(** [sql.DB] and its transactions, as one state [C]; a transaction is a number. *)
Class Sqlite (V C : Type) := {
  sq_BeginTx : bool → C → (terror + nat) * C;
  tx_ExecContext : nat → string → list (string * V) → C → (terror + (Z * Z)) * C;
  tx_Query : nat → string → list (string * V) → C → terror + (list string * list string * list (list V));
  tx_Commit : nat → C → option terror * C;
  tx_Rollback : nat → C → option terror * C;
}.

(** ** The storage *)

Section storage.
Context {V C : Type} `{!Sqlite V C}.

Record Query := MkQuery { qu_Pattern : string; qu_Args : list (string * V) }.
Record ExecLog := MkExecLog { el_ConnectionID : Z; el_SeqNo : Z; el_Timestamp : Z; el_Queries : list Query }.
Record ExecResult := MkExecResult { er_LastInsertID : Z; er_RowsAffected : Z }.
Record TxID := MkTxID { ti_ConnectionID : Z; ti_SeqNo : Z; ti_Timestamp : Z }.
#[export] Instance TxID_eq_dec : EqDecision TxID.
Proof. solve_decision. Defined.
Definition equalTxID (x y : TxID) : bool :=
  bool_decide (ti_ConnectionID x = ti_ConnectionID y) && bool_decide (ti_SeqNo x = ti_SeqNo y) &&
  bool_decide (ti_Timestamp x = ti_Timestamp y).

(** A batch is an interface value. *)
Inductive WriteBatch := BatchLog (el : ExecLog) | OtherBatch.

Record Storage := MkStorage {
  st_db : C;
  st_tx : option nat;
  st_id : TxID;
  st_queries : list Query;
}.
Implicit Types (s : Storage) (el : ExecLog).

(** [New], on an open database. *)
Definition New (c : C) : Storage := MkStorage c None (MkTxID 0 0 0) [].

Definition idOf el : TxID := MkTxID (el_ConnectionID el) (el_SeqNo el) (el_Timestamp el).
Definition inconsistent s : terror :=
  InconsistentState (ti_ConnectionID (st_id s)) (ti_SeqNo (st_id s)) (ti_Timestamp (st_id s)).
Definition endTx s (c : C) : Storage := MkStorage c None (st_id s) [].

Definition Prepare (ctx : context) (wb : WriteBatch) s : option terror * Storage :=
  match wb with
  | OtherBatch => (Some UnexpectedWriteBatch, s)
  | BatchLog el =>
      match st_tx s with
      | Some tx =>
          if equalTxID (st_id s) (idOf el) then (None, MkStorage (st_db s) (Some tx) (st_id s) (el_Queries el))
          else (Some (inconsistent s), s)
      | None =>
          if lasts ctx 0 then
            match sq_BeginTx false (st_db s) with
            | (inl e, c) => (Some e, MkStorage c None (st_id s) (st_queries s))
            | (inr tx, c) => (None, MkStorage c (Some tx) (idOf el) (el_Queries el))
            end
          else (Some ContextDone, s)
      end
  end.

(** The statements of a transaction, from the [call]th call of the database on; [acc] is
    the result so far. *)
Fixpoint execQueries (ctx : context) (call : nat) (tx : nat) (qs : list Query) (acc : ExecResult) (c : C)
    : (option terror * ExecResult) * C :=
  match qs with
  | [] => ((None, acc), c)
  | q :: qs =>
      if lasts ctx call then
        match tx_ExecContext tx (qu_Pattern q) (qu_Args q) c with
        | (inl e, c) => ((Some e, acc), c)
        | (inr (lastInsertID, rowsAffected), c) =>
            execQueries ctx (S call) tx qs (MkExecResult lastInsertID (i64 (er_RowsAffected acc + rowsAffected))) c
        end
      else ((Some ContextDone, acc), c)
  end.

(** [tx.Commit], of which nobody looks at the error: a transaction whose context has
    ended has been rolled back. *)
Definition commitTx (ctx : context) (call : nat) (tx : nat) (c : C) : C :=
  if lasts ctx call then (tx_Commit tx c).2 else (tx_Rollback tx c).2.

Definition Commit (ctx : context) (wb : WriteBatch) s : (terror + ExecResult) * Storage :=
  match wb with
  | OtherBatch => (inl UnexpectedWriteBatch, s)
  | BatchLog el =>
      match st_tx s with
      | Some tx =>
          if equalTxID (st_id s) (idOf el) then
            match execQueries ctx 0 tx (st_queries s) (MkExecResult 0 0) (st_db s) with
            | ((Some e, _), c) => (inl e, endTx s (tx_Rollback tx c).2)
            | ((None, res), c) => (inr res, endTx s (commitTx ctx (length (st_queries s)) tx c))
            end
          else (inl (inconsistent s), s)
      | None => (inl TxNotPrepared, s)
      end
  end.

Definition Rollback (ctx : context) (wb : WriteBatch) s : option terror * Storage :=
  match wb with
  | OtherBatch => (Some UnexpectedWriteBatch, s)
  | BatchLog el =>
      if equalTxID (st_id s) (idOf el) then
        match st_tx s with
        | Some tx => (None, endTx s (tx_Rollback tx (st_db s)).2)
        | None => (None, s)
        end
      else (Some (inconsistent s), s)
  end.

#[export] Instance storageWorker : Worker WriteBatch Storage ExecResult terror := {|
  worker_Prepare := Prepare;
  worker_Commit := Commit;
  worker_Rollback := Rollback;
|}.

Definition set_db s (c : C) : Storage := MkStorage c (st_tx s) (st_id s) (st_queries s).

(** [Query]: the last of the queries, in a transaction that is rolled back. *)
Definition Storage_Query (ctx : context) (qs : list Query) s : (terror + (list string * list string * list (list V))) * Storage :=
  match last qs with
  | None => (inr ([], [], []), s)
  | Some q =>
      if lasts ctx 0 then
        match sq_BeginTx true (st_db s) with
        | (inl e, c) => (inl e, set_db s c)
        | (inr tx, c) =>
            (if lasts ctx 1 then
               match tx_Query tx (qu_Pattern q) (qu_Args q) c with
               | inl e => inl e
               | inr ([], _, _) => inr ([], [], [])
               | inr rows => inr rows
               end
             else inl ContextDone, set_db s (tx_Rollback tx c).2)
        end
      else (inl ContextDone, s)
  end.

(** [Exec]: the queries in a transaction of their own.  The deferred rollback does
    nothing after a commit. *)
Definition Exec (ctx : context) (qs : list Query) s : (option terror * ExecResult) * Storage :=
  match qs with
  | [] => ((None, MkExecResult 0 0), s)
  | _ =>
      if lasts ctx 0 then
        match sq_BeginTx false (st_db s) with
        | (inl e, c) => ((Some e, MkExecResult 0 0), set_db s c)
        | (inr tx, c) =>
            match execQueries ctx 1 tx qs (MkExecResult 0 0) c with
            | ((Some e, res), c) => ((Some e, res), set_db s (tx_Rollback tx c).2)
            | ((None, res), c) => ((None, res), set_db s (commitTx ctx (S (length qs)) tx c))
            end
        end
      else ((Some ContextDone, MkExecResult 0 0), s)
  end.
End storage.
Arguments Query : clear implicits.
Arguments ExecLog : clear implicits.
Arguments WriteBatch : clear implicits.
Arguments Storage : clear implicits.
