(* ===== verification/TwoPCProps.v ===== *)
(** * Two-phase commit: theorems

    What a worker promises to the coordinator, the coordinator's promise on any such
    workers, the storage as such a worker, and a sequence of batches on several
    storages as one database. *)
From S2P Require Import Prelude TwoPC.
From Stdlib Require Import String ZArith Lia.
From stdpp Require Import base list gmap strings.
Local Open Scope Z_scope.

(** ** The promise of a worker *)

(** A worker has a content, [view], and may be prepared for a batch, [pending];
    [effect] is what a batch does to a content, [late] the answer to a commit whose
    context has already ended, which changes nothing.  A prepare may fail at will. *)
Class WorkerLaws (B W R E D : Type) `{!Worker B W R E} := {
  view : W → D;
  pending : W → option B;
  effect : B → D → E + (R * D);
  late : B → E + R;
  good : W → Prop;
  prepare_law ctx wb w r w' : good w → pending w = None → worker_Prepare ctx wb w = (r, w') →
    good w' ∧ view w' = view w ∧ pending w' = (match r with None => Some wb | Some _ => None end);
  commit_law wb w r w' : good w → pending w = Some wb → worker_Commit None wb w = (r, w') →
    good w' ∧ pending w' = None ∧
    match effect wb (view w) with
    | inl e => r = inl e ∧ view w' = view w
    | inr (x, d) => r = inr x ∧ view w' = d
    end;
  late_law wb w r w' : good w → pending w = Some wb → worker_Commit (Some 0%nat) wb w = (r, w') →
    good w' ∧ pending w' = None ∧ r = late wb ∧ view w' = view w;
  rollback_law ctx wb w r w' : good w → pending w = None ∨ pending w = Some wb → worker_Rollback ctx wb w = (r, w') →
    good w' ∧ view w' = view w ∧ pending w' = None;
}.

(** ** The promise of the coordinator *)

Section coordinator.
Context {B W R E D : Type} `{!Worker B W R E} `{!WorkerLaws B W R E D}.
Implicit Types (ws : list W) (wb : B) (opt : Options E) (d : D) (cx : contexts) (ctx : nat → context).

(** Replicas: workers with the same content, all of them idle or prepared. *)
Definition replica d (p : option B) (w : W) : Prop := good w ∧ view w = d ∧ pending w = p.

(** A batch goes to its second phase. *)
Definition committing opt cx ws wb : bool :=
  match op_beforePrepare opt with Some (Some _) => false | _ => true end &&
  match (prepare (cx_prepare cx) ws wb).1 with Some _ => false | None => true end &&
  match op_beforeCommit opt with Some (Some _) => false | _ => true end.

(** The context does not end during the commit phase: it has ended before it for every
    worker, or ends after it. *)
Definition wholeCommit cx (ended : bool) : Prop := ∀ i, cx_commit cx i = if ended then Some 0%nat else None.
(** What a batch then does to a content. *)
Definition outcome (ended : bool) wb d : E + (R * D) :=
  if ended then match late wb with inl e => inl e | inr x => inr (x, d) end else effect wb d.

Lemma firstError_None (errs : list (option E)) : firstError errs = None ↔ Forall (λ e, e = None) errs.
Proof.
  unfold firstError. induction errs as [|[e|] errs IH]; cbn.
  - by split.
  - split; [done|]. by inversion 1.
  - rewrite IH. split; [by constructor|by inversion 1].
Qed.
Lemma firstError_const (e : E) (errs : list (option E)) : errs ≠ [] → Forall (λ x, x = Some e) errs → firstError errs = Some e.
Proof. by destruct 2 as [|? ? ->]. Qed.

Lemma Forall_timed ctx ws (P : context → Prop) (Q : W → Prop) : (∀ i, P (ctx i)) → Forall Q ws →
  Forall (λ cw, P cw.1 ∧ Q cw.2) (timed ctx ws).
Proof.
  intros HP HQ. apply Forall_lookup. intros i [c w]. unfold timed. rewrite list_lookup_imap.
  intros (w' & Hw & [= -> ->])%fmap_Some. split; [apply HP|]. by eapply Forall_lookup_1.
Qed.
Lemma length_timed ctx ws : length (timed ctx ws) = length ws.
Proof. apply length_imap. Qed.

(** A phase of the protocol, worker by worker. *)
Lemma prepare_one d c wb w : replica d None w →
  replica d (match (worker_Prepare c wb w).1 with None => Some wb | Some _ => None end) (worker_Prepare c wb w).2.
Proof.
  intros (Hg & Hv & Hp). destruct (worker_Prepare c wb w) as [r w'] eqn:Hw. apply prepare_law in Hw as (? & ? & ?); [|done..].
  split_and!; [done|by etrans|done].
Qed.
Lemma rollback_one d p c wb w : p = None ∨ p = Some wb → replica d p w → replica d None (worker_Rollback c wb w).2.
Proof.
  intros Hor (Hg & Hv & Hp). destruct (worker_Rollback c wb w) as [r w'] eqn:Hw.
  apply rollback_law in Hw as (? & ? & ?); [|done|by rewrite Hp]. split_and!; [done|by etrans|done].
Qed.
Lemma commit_one d (ended : bool) wb w : replica d (Some wb) w →
  let c := if ended then Some 0%nat else None in
  match outcome ended wb d with
  | inl e => (worker_Commit c wb w).1 = inl e ∧ replica d None (worker_Commit c wb w).2
  | inr (x, d') => (worker_Commit c wb w).1 = inr x ∧ replica d' None (worker_Commit c wb w).2
  end.
Proof.
  intros (Hg & <- & Hp) c. destruct (worker_Commit c wb w) as [r w'] eqn:Hw. unfold outcome, c in *. destruct ended.
  - apply late_law in Hw as (? & ? & -> & ?); [|done..]. destruct (late wb); by split_and!.
  - apply commit_law in Hw as (? & ? & He); [|done..].
    destruct (effect wb (view w)) as [e|[x d']]; destruct He as [-> ?]; by split_and!.
Qed.

Lemma prepare_replicas d ctx ws wb : Forall (replica d None) ws →
  Forall (λ w, ∃ p, (p = None ∨ p = Some wb) ∧ replica d p w) (prepare ctx ws wb).2 ∧
  ((prepare ctx ws wb).1 = None → Forall (replica d (Some wb)) (prepare ctx ws wb).2).
Proof.
  intros Hws. unfold prepare. cbn. rewrite firstError_None, !Forall_fmap.
  apply (Forall_timed ctx ws (λ _, True)) in Hws; [|done]. split.
  - eapply Forall_impl; [exact Hws|]. intros [c w] [_ Hw]. cbn in *. apply (prepare_one d c wb) in Hw. eexists. split; [|exact Hw].
    destruct (worker_Prepare c wb w).1; [by left|by right].
  - intros Hok. eapply Forall_impl; [exact (proj2 (Forall_and _ _) (conj Hok Hws))|].
    intros [c w] [Hr [_ Hw]]. cbn in *. apply (prepare_one d c wb) in Hw. by rewrite Hr in Hw.
Qed.
Lemma rollback_replicas d ctx ws wb : Forall (λ w, ∃ p, (p = None ∨ p = Some wb) ∧ replica d p w) ws →
  Forall (replica d None) (rollback ctx ws wb).2.
Proof.
  intros Hws. unfold rollback. cbn. rewrite !Forall_fmap. apply (Forall_timed ctx ws (λ _, True)) in Hws; [|done].
  eapply Forall_impl; [exact Hws|]. intros [c w] [_ (p & Hp & Hw)]. by eapply rollback_one.
Qed.

(** Workers that all answer a commit with [r] and end in [P]. *)
Lemma commit_uniform ctx ws wb (r : E + R) (P : W → Prop) : ws ≠ [] →
  Forall (λ cw, (worker_Commit cw.1 wb cw.2).1 = r ∧ P (worker_Commit cw.1 wb cw.2).2) (timed ctx ws) →
  (commit ctx ws wb).1 = (resultOf r, errorOf r) ∧ Forall P (commit ctx ws wb).2.
Proof.
  intros Hne [Hr Hs]%Forall_and. unfold commit. cbn. rewrite !Forall_fmap. split; [|exact Hs].
  assert (timed ctx ws ≠ []) as Hne' by (intros Hn; apply Hne, length_zero_iff_nil; by rewrite <- (length_timed ctx), Hn).
  f_equal.
  - destruct Hr as [|cw cws Hr _]; [done|]. cbn. by rewrite Hr.
  - destruct r as [e|x]; cbn; [apply firstError_const; [by destruct (timed ctx ws)|]|apply firstError_None];
      rewrite !Forall_fmap; (eapply Forall_impl; [exact Hr|]); cbn; by intros cw ->.
Qed.

Lemma commit_replicas d cx ended ws wb : ws ≠ [] → wholeCommit cx ended → Forall (replica d (Some wb)) ws →
  match outcome ended wb d with
  | inl e => (commit (cx_commit cx) ws wb).1 = (None, Some e) ∧ Forall (replica d None) (commit (cx_commit cx) ws wb).2
  | inr (x, d') => (commit (cx_commit cx) ws wb).1 = (Some x, None) ∧ Forall (replica d' None) (commit (cx_commit cx) ws wb).2
  end.
Proof.
  intros Hne Hcx Hws. apply (Forall_timed (cx_commit cx) ws (λ c, c = if ended then Some 0%nat else None)) in Hws; [|done].
  destruct (outcome ended wb d) as [e|[x d']] eqn:He.
  - apply (commit_uniform _ _ _ (inl e)); [done|]. eapply Forall_impl; [exact Hws|]. intros [c w] [Hc Hw]. cbn in *.
    apply (commit_one d ended) in Hw. subst c. by rewrite He in Hw.
  - apply (commit_uniform _ _ _ (inr x)); [done|]. eapply Forall_impl; [exact Hws|]. intros [c w] [Hc Hw]. cbn in *.
    apply (commit_one d ended) in Hw. subst c. by rewrite He in Hw.
Qed.

Lemma Put_length opt cx ws wb : length (Put opt cx ws wb).2 = length ws.
Proof.
  unfold Put. destruct (op_beforePrepare opt) as [[e|]|]; [done|..];
    (destruct (prepare (cx_prepare cx) ws wb) as [err ws1] eqn:Hp; injection Hp as <- <-;
     destruct (firstError _); [cbn; by rewrite !length_fmap, length_timed, !length_fmap, length_timed|];
     destruct (op_beforeCommit opt) as [[e|]|]; cbn; by rewrite !length_fmap, length_timed, !length_fmap, length_timed).
Qed.

(** What the caller of [Put] sees. *)
Definition reported opt (err : option E) : option E := match op_afterCommit opt with Some e => e | None => err end.

(** All or none: a batch is executed by every replica, fails on every replica, or is
    refused and changes none; afterwards all are idle. *)
Lemma put_all_or_none d opt cx ended ws wb : ws ≠ [] → wholeCommit cx ended → Forall (replica d None) ws →
  if committing opt cx ws wb then
    match outcome ended wb d with
    | inl e => (Put opt cx ws wb).1 = (None, reported opt (Some e)) ∧ Forall (replica d None) (Put opt cx ws wb).2
    | inr (x, d') => (Put opt cx ws wb).1 = (Some x, reported opt None) ∧ Forall (replica d' None) (Put opt cx ws wb).2
    end
  else (∃ e, (Put opt cx ws wb).1 = (None, Some e)) ∧ Forall (replica d None) (Put opt cx ws wb).2.
Proof.
  intros Hne Hcx Hws. destruct (prepare_replicas d (cx_prepare cx) ws wb Hws) as [Hany Hall]. unfold committing, Put, reported.
  assert ((prepare (cx_prepare cx) ws wb).2 ≠ []) as Hne'.
  { intros Hn. apply Hne, length_zero_iff_nil. apply (f_equal length) in Hn. unfold prepare in Hn. cbn in Hn.
    by rewrite !length_fmap, length_timed in Hn. }
  destruct (op_beforePrepare opt) as [[e|]|]; cbn [andb]; [split; [by eexists|done]|..];
    (destruct (prepare (cx_prepare cx) ws wb) as [[e|] ws1]; cbn [fst snd andb] in *; [split; [by eexists|by apply rollback_replicas]|];
     destruct (op_beforeCommit opt) as [[e|]|]; cbn [andb]; [split; [by eexists|by apply rollback_replicas]|..];
     (pose proof (commit_replicas d cx ended ws1 wb Hne' Hcx (Hall eq_refl)) as Hc;
      destruct (commit (cx_commit cx) ws1 wb) as [[res err] ws2]; destruct (outcome ended wb d) as [e|[x d']]; cbn [fst snd] in Hc;
      destruct Hc as [[= -> ->] Hs]; by split)).
Qed.
End coordinator.

(** ** The storage as a worker *)

(** What sqlite promises: [sq_content] is the committed content, [sq_open] the open
    transactions, with the content of those that have run a statement.  A statement
    is a function of the content while no other transaction writes; begins may fail. *)
Class SqliteLaws (V C D : Type) `{!Sqlite V C} := {
  sq_content : C → D;
  sq_open : C → gmap nat (option D);
  sq_run : string → list (string * V) → D → (terror + (Z * Z)) * D;
  begin_law ro c r c' : sq_BeginTx ro c = (r, c') → sq_content c' = sq_content c ∧
    match r with
    | inl _ => sq_open c' = sq_open c
    | inr tx => sq_open c !! tx = None ∧ sq_open c' = <[tx := None]> (sq_open c)
    end;
  exec_law tx q args c o : sq_open c !! tx = Some o → (∀ tx' d, tx' ≠ tx → sq_open c !! tx' ≠ Some (Some d)) →
    let '(r, d) := sq_run q args (default (sq_content c) o) in
    (tx_ExecContext tx q args c).1 = r ∧ sq_content (tx_ExecContext tx q args c).2 = sq_content c ∧
    sq_open (tx_ExecContext tx q args c).2 = <[tx := Some d]> (sq_open c);
  txCommit_law tx c o c' : sq_open c !! tx = Some o → tx_Commit tx c = (None, c') →
    sq_content c' = default (sq_content c) o ∧ sq_open c' = delete tx (sq_open c);
  txRollback_law tx c r c' : tx_Rollback tx c = (r, c') →
    sq_content c' = sq_content c ∧ sq_open c' = delete tx (sq_open c);
}.

Section storage.
Context {V C D : Type} `{!Sqlite V C} `{!SqliteLaws V C D}.
Implicit Types (s : Storage V C) (el : ExecLog V) (qs : list (Query V)) (c : C).

(** What the statements of a batch do to a content: nothing when one fails. *)
Fixpoint runQueries qs (acc : ExecResult) (d : D) : terror + (ExecResult * D) :=
  match qs with
  | [] => inr (acc, d)
  | q :: qs =>
      match sq_run (qu_Pattern q) (qu_Args q) d with
      | (inl e, _) => inl e
      | (inr (lastInsertID, rowsAffected), d) =>
          runQueries qs (MkExecResult lastInsertID (i64 (er_RowsAffected acc + rowsAffected))) d
      end
  end.

(** No other transaction has run a statement. *)
Definition alone (tx : nat) c : Prop := ∀ tx' d, tx' ≠ tx → sq_open c !! tx' ≠ Some (Some d).

Lemma execQueries_spec call tx qs acc c o : sq_open c !! tx = Some o → alone tx c →
  match execQueries None call tx qs acc c with
  | ((err, acc'), c') =>
      sq_content c' = sq_content c ∧
      ∃ o', sq_open c' = <[tx := o']> (sq_open c) ∧
        match runQueries qs acc (default (sq_content c) o) with
        | inl e => err = Some e
        | inr (acc1, d) => err = None ∧ acc' = acc1 ∧ default (sq_content c) o' = d
        end
  end.
Proof.
  revert call acc c o. induction qs as [|q qs IH]; intros call acc c o Ho Ha; cbn [execQueries runQueries lasts].
  { split; [done|]. exists o. by rewrite insert_id. }
  pose proof (exec_law tx (qu_Pattern q) (qu_Args q) c o Ho Ha) as Hlaw.
  destruct (sq_run _ _ _) as [r d]. destruct (tx_ExecContext _ _ _ _) as [r' c1]. cbn in Hlaw. destruct Hlaw as (-> & Hc & Hop).
  destruct r as [e|[l n]]; [split; [done|]; exists (Some d); by split|].
  specialize (IH (S call) (MkExecResult l (i64 (er_RowsAffected acc + n))) c1 (Some d)). rewrite Hop, lookup_insert_eq in IH.
  specialize (IH eq_refl). destruct (execQueries None (S call) tx qs _ c1) as [[err acc'] c']. rewrite Hc in IH.
  destruct IH as (Hc' & o' & Ho' & Hrun); [intros tx' d' Hne; rewrite Hop, lookup_insert_ne by done; by apply Ha|].
  split; [done|]. exists o'. split; [by rewrite Ho', insert_insert_eq|exact Hrun].
Qed.

(** The only open transaction is the prepared one, and it has run nothing. *)
Definition wfStorage s : Prop := sq_open (st_db s) = match st_tx s with Some tx => {[tx := None]} | None => ∅ end.
Definition storageView s : D := sq_content (st_db s).
Definition storagePending s : option (WriteBatch V) :=
  match st_tx s with
  | Some _ => Some (BatchLog (MkExecLog (ti_ConnectionID (st_id s)) (ti_SeqNo (st_id s)) (ti_Timestamp (st_id s)) (st_queries s)))
  | None => None
  end.
Definition storageEffect (wb : WriteBatch V) (d : D) : terror + (ExecResult * D) :=
  match wb with BatchLog el => runQueries (el_Queries el) (MkExecResult 0 0) d | OtherBatch => inl UnexpectedWriteBatch end.
(** The answer when the context has ended before the commit. *)
Definition storageLate (wb : WriteBatch V) : terror + ExecResult :=
  match wb with
  | BatchLog el => match el_Queries el with [] => inr (MkExecResult 0 0) | _ => inl ContextDone end
  | OtherBatch => inl UnexpectedWriteBatch
  end.

Lemma equalTxID_refl i : equalTxID i i = true.
Proof. unfold equalTxID. by rewrite !bool_decide_eq_true_2. Qed.
Lemma pending_Some s wb : storagePending s = Some wb → ∃ tx el, st_tx s = Some tx ∧ wb = BatchLog el ∧ st_id s = idOf el ∧ st_queries s = el_Queries el.
Proof.
  unfold storagePending. destruct (st_tx s) as [tx|]; [|done]. intros [= <-]. eexists tx, _. split; [done|]. split; [done|].
  split; [by destruct (st_id s)|done].
Qed.

Lemma storage_prepare_law ctx wb s r s' : wfStorage s → storagePending s = None → Prepare ctx wb s = (r, s') →
  wfStorage s' ∧ storageView s' = storageView s ∧ storagePending s' = (match r with None => Some wb | Some _ => None end).
Proof.
  unfold wfStorage, storagePending, storageView, Prepare. intros Hwf Hp. destruct (st_tx s) eqn:Htx; [done|].
  destruct wb as [el|]; [|intros [= <- <-]; by rewrite Htx]. destruct (lasts ctx 0); [|intros [= <- <-]; by rewrite Htx].
  destruct (sq_BeginTx false (st_db s)) as [[e|tx] c] eqn:Hb; apply begin_law in Hb as [Hc Ho]; intros [= <- <-]; cbn.
  - split_and!; [congruence|done|done].
  - destruct Ho as [_ Ho]. rewrite Ho, Hwf. split_and!; [done|done|]. by destruct el.
Qed.

Lemma storage_rollback_law ctx wb s r s' : wfStorage s → storagePending s = None ∨ storagePending s = Some wb → Rollback ctx wb s = (r, s') →
  wfStorage s' ∧ storageView s' = storageView s ∧ storagePending s' = None.
Proof.
  intros Hwf [Hp|Hp].
  - assert (st_tx s = None) as Htx by (unfold storagePending in Hp; by destruct (st_tx s)). unfold Rollback.
    destruct wb as [el|]; [|by intros [= <- <-]]. rewrite Htx. destruct (equalTxID _ _); by intros [= <- <-].
  - destruct (pending_Some s wb Hp) as (tx & el & Htx & -> & Hid & _). unfold Rollback. rewrite Hid, equalTxID_refl, Htx. intros [= <- <-].
    destruct (tx_Rollback tx (st_db s)) as [e c] eqn:Hr. apply txRollback_law in Hr as [Hc Ho]. unfold wfStorage, storageView in *. cbn.
    rewrite Htx in Hwf. split_and!; [|done|done]. by rewrite Ho, Hwf, delete_singleton_eq.
Qed.

Lemma storage_late_law wb s r s' : wfStorage s → storagePending s = Some wb → Commit (Some 0%nat) wb s = (r, s') →
  wfStorage s' ∧ storagePending s' = None ∧ r = storageLate wb ∧ storageView s' = storageView s.
Proof.
  intros Hwf Hp. destruct (pending_Some s wb Hp) as (tx & el & Htx & -> & Hid & Hqs). unfold Commit, wfStorage, storageView in *.
  rewrite Hid, equalTxID_refl, Htx in *. cbn [storageLate]. rewrite Hqs. unfold commitTx.
  destruct (el_Queries el); cbn [execQueries lasts length]; rewrite ?bool_decide_false by lia;
    destruct (tx_Rollback tx (st_db s)) as [e c] eqn:Hr; apply txRollback_law in Hr as [Hc Ho]; intros [= <- <-]; cbn;
    (split_and!; [by rewrite Ho, Hwf, delete_singleton_eq|done|done|exact Hc]).
Qed.

Section reliable.
(** Commits of the database do not fail. *)
Context (reliableCommit : ∀ tx c, (tx_Commit tx c).1 = None).

Lemma txCommit_ok tx c o : sq_open c !! tx = Some o →
  sq_content (tx_Commit tx c).2 = default (sq_content c) o ∧ sq_open (tx_Commit tx c).2 = delete tx (sq_open c).
Proof.
  intros Ho. specialize (reliableCommit tx c). destruct (tx_Commit tx c) as [e c'] eqn:Hc. cbn in reliableCommit. subst e.
  by eapply txCommit_law.
Qed.

Lemma storage_commit_law wb s r s' : wfStorage s → storagePending s = Some wb → Commit None wb s = (r, s') →
  wfStorage s' ∧ storagePending s' = None ∧
  match storageEffect wb (storageView s) with
  | inl e => r = inl e ∧ storageView s' = storageView s
  | inr (x, d) => r = inr x ∧ storageView s' = d
  end.
Proof.
  intros Hwf Hp. destruct (pending_Some s wb Hp) as (tx & el & Htx & -> & Hid & Hqs). unfold Commit, wfStorage, storageView in *.
  rewrite Hid, equalTxID_refl, Htx in *. cbn [storageEffect]. rewrite Hqs.
  assert (sq_open (st_db s) !! tx = Some None) as Ho by (rewrite Hwf; apply lookup_singleton_eq).
  unfold commitTx. cbn [lasts].
  pose proof (execQueries_spec 0 tx (el_Queries el) (MkExecResult 0 0) (st_db s) None Ho) as He.
  destruct (execQueries _ _ _ _ _ _) as [[err acc] c]. destruct He as (Hc & o' & Ho' & He).
  { intros tx' d Hne. rewrite Hwf, lookup_singleton_ne by done. done. }
  assert (sq_open c !! tx = Some o' ∧ delete tx (sq_open c) = ∅) as [Hoc Hdel].
  { rewrite Ho', Hwf, lookup_insert_eq, delete_insert_eq, delete_singleton_eq. done. }
  cbn [default] in He. destruct (runQueries _ _ _) as [e|[x d]].
  - subst err. intros [= <- <-]. destruct (tx_Rollback tx c) as [? c'] eqn:Hr. apply txRollback_law in Hr as [Hr1 Hr2]. cbn.
    split_and!; [congruence|done|done|congruence].
  - destruct He as (-> & -> & Hd). intros [= <- <-]. destruct (txCommit_ok tx c o' Hoc) as [Hv1 Hv2]. cbn.
    split_and!; [congruence|done|done|]. rewrite Hv1, Hc. exact Hd.
Qed.

Definition storageLaws : WorkerLaws (WriteBatch V) (Storage V C) ExecResult terror D := {|
  view := storageView; pending := storagePending; effect := storageEffect; late := storageLate; good := wfStorage;
  prepare_law := storage_prepare_law; commit_law := storage_commit_law; late_law := storage_late_law;
  rollback_law := storage_rollback_law;
|}.
End reliable.

(** ** Statements outside the protocol *)

(** [Exec] runs all of its statements or none, and a prepared batch stays prepared. *)
Definition execOutcome qs (d : D) (r : option terror * ExecResult) (d' : D) : Prop :=
  (∃ e, r.1 = Some e) ∧ d' = d ∨
  r.1 = None ∧ runQueries qs (MkExecResult 0 0) d = inr (r.2, d').

Lemma Exec_spec qs s r s' : (∀ tx c, (tx_Commit tx c).1 = None) → wfStorage s → Exec None qs s = (r, s') →
  wfStorage s' ∧ storagePending s' = storagePending s ∧ execOutcome qs (storageView s) r (storageView s').
Proof.
  intros Hrel Hwf. unfold Exec, execOutcome. destruct qs as [|q qs]; [intros [= <- <-]; by auto|].
  generalize (q :: qs). clear q qs. intros qs. unfold commitTx. cbn [lasts].
  destruct (sq_BeginTx false (st_db s)) as [[e|tx] c] eqn:Hb; apply begin_law in Hb as [Hc Ho].
  - intros [= <- <-]. unfold wfStorage, storageView in *. cbn. split_and!; [congruence|done|]. left. by eauto.
  - destruct Ho as [Hno Ho]. assert (sq_open c !! tx = Some None) as Htx by (by rewrite Ho, lookup_insert_eq).
    pose proof (execQueries_spec 1 tx qs (MkExecResult 0 0) c None Htx) as He.
    destruct (execQueries None 1 tx qs _ c) as [[err acc] c1]. destruct He as (Hc1 & o' & Ho1 & He).
    { intros tx' d Hne. rewrite Ho, lookup_insert_ne by done. unfold wfStorage in Hwf. rewrite Hwf.
      destruct (st_tx s) as [t|]; [|by rewrite lookup_empty]. rewrite lookup_singleton_Some. by intros [_ [=]]. }
    assert (delete tx (sq_open c1) = sq_open (st_db s)) as Hdel by (by rewrite Ho1, Ho, insert_insert_eq, delete_insert_id).
    cbn [default] in He. rewrite Hc in He. unfold storageView. destruct (runQueries qs _ _) as [e|[x d]].
    + subst err. intros [= <- <-]. destruct (tx_Rollback tx c1) as [? c2] eqn:Hr. apply txRollback_law in Hr as [Hr1 Hr2].
      unfold wfStorage in *. cbn. split_and!; [congruence|done|]. left. split; [by eauto|congruence].
    + destruct He as (-> & -> & Hd). intros [= <- <-].
      assert (sq_open c1 !! tx = Some o') as Htx1 by (by rewrite Ho1, lookup_insert_eq).
      destruct (txCommit_ok Hrel tx c1 o' Htx1) as [Hv1 Hv2]. unfold wfStorage in *. cbn.
      split_and!; [congruence|done|]. right. split; [done|]. do 2 f_equal. by rewrite Hv1, Hc1, Hc.
Qed.

(** ** Several storages as one database *)

Fixpoint runPuts (puts : list (Options terror * contexts * WriteBatch V)) (ss : list (Storage V C))
    : list (option ExecResult * option terror) * list (Storage V C) :=
  match puts with
  | [] => ([], ss)
  | (opt, cx, wb) :: puts =>
      let '(out, ss) := Put opt cx ss wb in
      let '(outs, ss) := runPuts puts ss in (out :: outs, ss)
  end.

(** Why a batch can be refused: a hook, its type, a timeout or a begin that fails. *)
Definition mayRefuse (opt : Options terror) (cx : contexts) (wb : WriteBatch V) : Prop :=
  (∃ e, op_beforePrepare opt = Some (Some e)) ∨ (∃ e, op_beforeCommit opt = Some (Some e)) ∨ wb = OtherBatch ∨
  (∃ i, lasts (cx_prepare cx i) 0 = false) ∨ ∃ (c : C) e, (sq_BeginTx false c).1 = inl e.

(** One database that gets the batches: it refuses a batch, or runs it; when the time is
    over before the commit phase, every batch with a statement fails. *)
Definition storageOutcome (ended : bool) (wb : WriteBatch V) (d : D) : terror + (ExecResult * D) :=
  if ended then match storageLate wb with inl e => inl e | inr x => inr (x, d) end else storageEffect wb d.
Inductive answered (opt : Options terror) (cx : contexts) (wb : WriteBatch V) : D → option ExecResult * option terror → D → Prop :=
| refused d e : mayRefuse opt cx wb → answered opt cx wb d (None, Some e) d
| failed ended d e : wholeCommit cx ended → storageOutcome ended wb d = inl e →
    answered opt cx wb d (None, reported opt (Some e)) d
| executed ended d x d' : wholeCommit cx ended → storageOutcome ended wb d = inr (x, d') →
    answered opt cx wb d (Some x, reported opt None) d'.
Inductive oneDatabase : list (Options terror * contexts * WriteBatch V) → D → list (option ExecResult * option terror) → D → Prop :=
| one_nil d : oneDatabase [] d [] d
| one_cons opt cx wb puts d out d1 outs d' : answered opt cx wb d out d1 → oneDatabase puts d1 outs d' →
    oneDatabase ((opt, cx, wb) :: puts) d (out :: outs) d'.

Lemma Prepare_error ctx wb s e : st_tx s = None → (Prepare ctx wb s).1 = Some e →
  wb = OtherBatch ∨ lasts ctx 0 = false ∨ ∃ (c : C) e, (sq_BeginTx false c).1 = inl e.
Proof.
  intros Htx. unfold Prepare. destruct wb as [el|]; [|by left]. rewrite Htx. destruct (lasts ctx 0); [|by auto].
  destruct (sq_BeginTx false (st_db s)) as [[e'|tx] c] eqn:Hb; [|done]. intros _. right. right. exists (st_db s), e'. by rewrite Hb.
Qed.
Lemma prepare_error ctx ss wb e : Forall (λ s, st_tx s = None) ss → (prepare ctx ss wb).1 = Some e →
  wb = OtherBatch ∨ (∃ i, lasts (ctx i) 0 = false) ∨ ∃ (c : C) e, (sq_BeginTx false c).1 = inl e.
Proof.
  intros Hss Hp. apply (Forall_timed ctx ss (λ x, ∃ i, x = ctx i)) in Hss; [|by eauto].
  unfold prepare in Hp. cbn in Hp. unfold firstError in Hp. apply head_Some_elem_of in Hp.
  apply list_elem_of_omap in Hp as (oe & Hin & Hoe). cbn in Hoe. subst oe. rewrite <- list_fmap_compose in Hin.
  apply list_elem_of_fmap in Hin as ([c s] & Hs & Hin). rewrite Forall_forall in Hss.
  destruct (Hss _ Hin) as [[i Hi] Htx]. cbn in *. subst c. symmetry in Hs.
  destruct (Prepare_error _ _ _ _ Htx Hs) as [?|[?|?]]; eauto.
Qed.
Lemma not_committing opt cx ss wb : Forall (λ s, st_tx s = None) ss → committing opt cx ss wb = false → mayRefuse opt cx wb.
Proof.
  intros Hss. unfold committing, mayRefuse. destruct (op_beforePrepare opt) as [[e|]|] eqn:H1; [left; by exists e|..];
    (destruct (prepare (cx_prepare cx) ss wb).1 as [e|] eqn:Hp;
     [intros _; right; right; by eapply prepare_error
     |destruct (op_beforeCommit opt) as [[e|]|] eqn:H2; [intros _; right; left; by exists e|done..]]).
Qed.

(** C22: Two-phase commit makes several storages one database.  Storages with the same
    content that are in no transaction get a sequence of batches.  Hooks and begins may
    fail, and the timeout of a put may end it anywhere but within its commit phase.  It
    is assumed that a statement is a function of the content, so that it does not fail
    on one storage alone, that the commits of the databases do not fail, and that the
    timeout does not fall into a commit phase; where one of these is not so the contents
    can part.  Then after every sequence the storages are again in no transaction with
    one common content, and each batch was answered as by one database: refused by every
    storage for a reason, failed on every storage without effect, at a statement or
    because its time was over, or executed by every storage with the result of its last
    insertion and the sum of its rows. *)
Theorem twopc_one_database (d : D) (ss : list (Storage V C)) puts : (∀ tx c, (tx_Commit tx c).1 = None) → ss ≠ [] →
  Forall (λ p, ∃ ended, wholeCommit p.1.2 ended) puts →
  Forall (λ s, wfStorage s ∧ st_tx s = None ∧ storageView s = d) ss →
  ∃ d', oneDatabase puts d (runPuts puts ss).1 d' ∧
    Forall (λ s, wfStorage s ∧ st_tx s = None ∧ storageView s = d') (runPuts puts ss).2.
Proof.
  intros Hrel. set (laws := storageLaws Hrel).
  assert (∀ d s, wfStorage s ∧ st_tx s = None ∧ storageView s = d ↔ replica d None s) as Hrep.
  { intros d0 s. unfold replica. cbn. unfold storagePending. destruct (st_tx s); naive_solver. }
  revert d ss. induction puts as [|[[opt cx] wb] puts IH]; intros d ss Hne Hcx Hss; cbn [runPuts].
  { exists d. split; [constructor|exact Hss]. }
  apply Forall_cons in Hcx as [[ended Hend] Hcx]. cbn [fst snd] in Hend.
  assert (Forall (replica d None) ss) as Hss' by (eapply Forall_impl; [exact Hss|]; intros s; apply Hrep).
  pose proof (put_all_or_none d opt cx ended ss wb Hne Hend Hss') as Hput.
  assert ((Put opt cx ss wb).2 ≠ []) as Hne'.
  { intros Hnil. apply Hne. apply length_zero_iff_nil. rewrite <- (Put_length opt cx ss wb), Hnil. done. }
  destruct (Put opt cx ss wb) as [out ss1] eqn:Hp. cbn in Hne'.
  assert (∃ d1, answered opt cx wb d out d1 ∧ Forall (replica d1 None) ss1) as (d1 & Hans & Hss1).
  { destruct (committing opt cx ss wb) eqn:Hc.
    - change (outcome ended wb d) with (storageOutcome ended wb d) in Hput.
      destruct (storageOutcome ended wb d) as [e|[x d1]] eqn:He; destruct Hput as [Ho Hs]; cbn in Ho; subst out; eexists;
        (split; [by econstructor|exact Hs]).
    - destruct Hput as [[e Ho] Hs]. cbn in Ho. subst out. exists d. split; [|exact Hs]. constructor. eapply not_committing; [|exact Hc].
      eapply Forall_impl; [exact Hss|]. by intros s (_ & ? & _). }
  destruct (IH d1 ss1 Hne' Hcx) as (d' & Hone & Hss2).
  { eapply Forall_impl; [exact Hss1|]. intros s. apply Hrep. }
  destruct (runPuts puts ss1) as [outs ss2]. exists d'. split; [by econstructor|exact Hss2].
Qed.
End storage.

(** * Two storages under two-phase commit

    A database that keeps the list of its statements as an instance of [Sqlite], runs
    of batches on two storages, and the runs that show what the code does not report. *)

(** ** The database *)

Record table := MkTable { tb_rows : list string; tb_open : gmap nat (option (list string)) }.

Definition runRow (q : string) (args : list (string * Z)) (rows : list string) : (terror + (Z * Z)) * list string :=
  if decide (q = "FAIL"%string) then (inl (SqlError q), rows) else (inr (Z.of_nat (length rows), 1), rows ++ [q]).

#[export] Instance tableSqlite : Sqlite Z table := {|
  sq_BeginTx := λ _ t, let tx := fresh (dom (tb_open t)) in (inr tx, MkTable (tb_rows t) (<[tx := None]> (tb_open t)));
  tx_ExecContext := λ tx q args t,
    let '(r, rows) := runRow q args (default (tb_rows t) (default None (tb_open t !! tx))) in
    (r, MkTable (tb_rows t) (<[tx := Some rows]> (tb_open t)));
  tx_Query := λ tx q args t, inr (["count"%string], ["INT"%string], [[Z.of_nat (length (tb_rows t))]]);
  tx_Commit := λ tx t, (None, MkTable (default (tb_rows t) (default None (tb_open t !! tx))) (delete tx (tb_open t)));
  tx_Rollback := λ tx t, (None, MkTable (tb_rows t) (delete tx (tb_open t)));
|}.

#[export, refine] Instance tableLaws : SqliteLaws Z table (list string) := {|
  sq_content := tb_rows; sq_open := tb_open; sq_run := runRow;
|}.
Proof.
  - intros ro c r c' [= <- <-]. cbn. split_and!; [done| |done]. apply not_elem_of_dom, is_fresh.
  - intros tx q args c o Ho _. cbn. rewrite Ho. cbn. by destruct (runRow _ _ _).
  - intros tx c o c' Ho [= <-]. cbn. by rewrite Ho.
  - by intros tx c r c' [= <- <-].
Defined.

(** ** Batches *)

Definition batch (seq : Z) (stmts : list string) : WriteBatch Z :=
  BatchLog (MkExecLog 1 seq 0 ((λ q, MkQuery q []) <$> stmts)).
Definition emptyTable : table := MkTable [] ∅.
Definition twoStorages : list (Storage Z table) := [New emptyTable; New emptyTable].
(** The third batch is refused by a hook, the fourth meets its timeout in the prepare
    phase of the second storage, the fifth before the commit phase. *)
Definition samplePuts : list (Options terror * contexts * WriteBatch Z) :=
  [(NewOptions 5, inTime, batch 1 ["INSERT 1"; "INSERT 2"]); (NewOptions 5, inTime, batch 2 ["INSERT 3"; "FAIL"]);
   (NewOptionsWithCallback 5 None (Some (Some (SqlError "stop"))) None None, inTime, batch 3 ["INSERT 4"]);
   (NewOptions 5, MkContexts (λ i, if decide (i = 1)%nat then Some 0%nat else None) (λ _, None) (λ _, None), batch 4 ["INSERT 5"]);
   (NewOptions 5, MkContexts (λ _, None) (λ _, Some 0%nat) (λ _, None), batch 5 ["INSERT 6"]);
   (NewOptions 5, inTime, batch 6 ["INSERT 7"])]%string.

Lemma twopc_one_database_witness : ∃ d',
  oneDatabase samplePuts [] [(Some (MkExecResult 1 2), None); (None, Some (SqlError "FAIL")); (None, Some (SqlError "stop"));
    (None, Some ContextDone); (None, Some ContextDone); (Some (MkExecResult 2 1), None)] d' ∧
  Forall (λ s : Storage Z table, wfStorage s ∧ st_tx s = None ∧ storageView s = d') (runPuts samplePuts twoStorages).2 ∧
  storageView <$> (runPuts samplePuts twoStorages).2 = [["INSERT 1"; "INSERT 2"; "INSERT 7"]; ["INSERT 1"; "INSERT 2"; "INSERT 7"]]%string.
Proof.
  destruct (twopc_one_database [] twoStorages samplePuts) as (d' & Hone & Hall).
  - reflexivity.
  - discriminate.
  - unfold samplePuts. repeat apply Forall_cons_2; [exists false; intros i; reflexivity..|exists true; intros i; reflexivity|exists false; intros i; reflexivity|constructor].
  - repeat constructor.
  - exists d'. split; [exact Hone|]. split; [exact Hall|]. vm_compute. reflexivity.
Defined.

(** ** Where storages part *)

(** A timeout that falls into the commit phase: the first storage has committed, the
    second finds the context ended. *)
Lemma timeout_parts_storages :
  let '(out, ss) := Put (NewOptions 5) (MkContexts (λ _, None) (λ i, if decide (i = 1)%nat then Some 0%nat else None) (λ _, None))
    twoStorages (batch 1 ["INSERT 1"%string]) in
  out = (Some (MkExecResult 0 1), Some ContextDone) ∧ storageView <$> ss = [["INSERT 1"]; []]%string.
Proof. vm_compute. split; reflexivity. Qed.

(** A context that ends between the last statement and the commit: the transaction is
    rolled back, and the storage reports success. *)
Lemma late_commit_reported :
  let '(r, s) := Commit (Some 1%nat) (batch 1 ["INSERT 1"%string]) (Prepare None (batch 1 ["INSERT 1"%string]) (New emptyTable)).2 in
  r = inr (MkExecResult 0 1) ∧ storageView s = [].
Proof. vm_compute. split; reflexivity. Qed.

(** ** What is not reported *)

(** A database whose commits fail. *)
Definition fullSqlite : Sqlite Z table := {|
  sq_BeginTx := sq_BeginTx; tx_ExecContext := tx_ExecContext; tx_Query := tx_Query;
  tx_Commit := λ tx t, (Some (SqlError "database or disk is full"), MkTable (tb_rows t) (delete tx (tb_open t)));
  tx_Rollback := tx_Rollback;
|}.
(** [Commit] reports success when the commit of the database fails: the content is
    the old one. *)
Lemma commit_error_ignored :
  let '(r, s) := @Commit _ _ fullSqlite None (batch 1 ["INSERT 1"%string]) (@Prepare _ _ fullSqlite None (batch 1 ["INSERT 1"%string]) (New emptyTable)).2 in
  r = inr (MkExecResult 0 1) ∧ storageView s = [].
Proof. vm_compute. split; reflexivity. Qed.

(** The result of the last hook replaces the error of the commit. *)
Lemma commit_error_overwritten :
  (Put (NewOptionsWithCallback 5 None None None (Some None)) inTime twoStorages (batch 1 ["FAIL"%string])).1 = (None, None).
Proof. vm_compute. reflexivity. Qed.
