(* ===== verification/Dsn.v ===== *)
(** * Connection strings

    Models [src/storage/dsn.go] and, of [storage.go], the opening and closing of
    databases by their connection string; also the three strings of
    [src/xenomint/sqlite/sqlite.go].  The parameters of a string are a Go map, which
    [Format] writes in any order. *)
From S2P Require Import Prelude TwoPC.
From Stdlib Require Import String Ascii ZArith Lia.
From stdpp Require Import base list gmap strings.
Local Open Scope string_scope.

(** ** Text *)

(** [strings.SplitN(s, c, 2)]: the text before and after the first [c]. *)
Fixpoint cut (c : ascii) (s : string) : option (string * string) :=
  match s with
  | EmptyString => None
  | String a s => if decide (a = c) then Some ("", s) else (λ p, (String a p.1, p.2)) <$> cut c s
  end.
Fixpoint Split (c : ascii) (s : string) : list string :=
  match s with
  | EmptyString => [""]
  | String a s =>
      if decide (a = c) then "" :: Split c s
      else match Split c s with p :: ps => String a p :: ps | [] => [] end
  end.
Fixpoint Join (c : ascii) (parts : list string) : string :=
  match parts with
  | [] => ""
  | [p] => p
  | p :: parts => p +:+ String c (Join c parts)
  end.
Definition TrimPrefix (pre s : string) : string :=
  if String.prefix pre s then String.substring (String.length pre) (String.length s - String.length pre) s else s.

(** ** Connection strings *)

Record DSN := MkDSN { ds_filename : string; ds_params : gmap string string }.
Implicit Types (d : DSN).

Definition question : ascii := "?".
Definition ampersand : ascii := "&".
Definition equals : ascii := "=".

(** The parameters of a query; a part without [=] is an error. *)
Fixpoint addParts (parts : list string) (m : gmap string string) : terror + gmap string string :=
  match parts with
  | [] => inr m
  | v :: parts =>
      match cut equals v with
      | Some (k, x) => addParts parts (<[k := x]> m)
      | None => inl (UnrecognizedParameter v)
      end
  end.
Definition NewDSN (s : string) : terror + DSN :=
  match cut question s with
  | None => inr (MkDSN (TrimPrefix "file:" s) ∅)
  | Some (file, query) =>
      match addParts (Split ampersand query) ∅ with
      | inl e => inl e
      | inr m => inr (MkDSN (TrimPrefix "file:" file) m)
      end
  end.

(** [Format], with the order in which the map is read. *)
Definition formatParam (kv : string * string) : string := kv.1 +:+ String equals kv.2.
Definition Format d (kvs : list (string * string)) : string :=
  match kvs with
  | [] => "file:" +:+ ds_filename d
  | _ => "file:" +:+ ds_filename d +:+ String question (Join ampersand (formatParam <$> kvs))
  end.
Definition order d (kvs : list (string * string)) : Prop := kvs ≡ₚ map_to_list (ds_params d).

Definition SetFileName (fn : string) d : DSN := MkDSN fn (ds_params d).
Definition GetFileName d : string := ds_filename d.
Definition AddParam (key value : string) d : DSN :=
  MkDSN (ds_filename d) (if decide (value = "") then delete key (ds_params d) else <[key := value]> (ds_params d)).
Definition GetParam (key : string) d : option string := ds_params d !! key.
Definition Clone d : DSN := MkDSN (ds_filename d) (ds_params d).

(** ** Open databases *)

(** The databases of the process by file name; [open] is [sql.Open]. *)
Definition openDB (open : string → terror + nat) (kvs : list (string * string)) (dsn : string) (index : gmap string nat)
    : (terror + nat) * gmap string nat :=
  match NewDSN dsn with
  | inl e => (inl e, index)
  | inr d =>
      let d := AddParam "_synchronous" "NORMAL" (AddParam "_journal_mode" "WAL" d) in
      let fdsn := Format d kvs in
      if decide ((GetFileName d = ":memory:" ∨ default "" (GetParam "mode" d) = "memory") ∧ default "" (GetParam "cache" d) ≠ "shared")
      then (open fdsn, index)
      else
        match index !! ds_filename d with
        | Some db => (inr db, index)
        | None =>
            match open fdsn with
            | inl e => (inl e, index)
            | inr db => (inr db, <[ds_filename d := db]> index)
            end
        end
  end.
(** [Close] forgets the database and closes it; [close] is the closing. *)
Definition Close (close : option terror) (dsn : string) (index : gmap string nat) : option terror * gmap string nat :=
  match NewDSN dsn with
  | inl e => (Some e, index)
  | inr d => (close, delete (ds_filename d) index)
  end.

(** [NewSqlite]: the strings of the dirty reader, the reader and the writer. *)
Definition NewSqlite_dsns (filename : string) : terror + (DSN * DSN * DSN) :=
  match NewDSN filename with
  | inl e => inl e
  | inr d =>
      inr (AddParam "cache" "shared" (AddParam "_query_only" "on" (AddParam "_journal_mode" "WAL" (Clone d))),
           AddParam "_query_only" "on" (AddParam "_journal_mode" "WAL" (Clone d)),
           AddParam "cache" "shared" (AddParam "_journal_mode" "WAL" (Clone d)))
  end.

(** ** Lemmas on text *)

Fixpoint occurs (c : ascii) (s : string) : bool :=
  match s with EmptyString => false | String a s => bool_decide (a = c) || occurs c s end.

Lemma occurs_app c s t : occurs c (s +:+ t) = occurs c s || occurs c t.
Proof. induction s as [|a s IH]; [done|]. change (String a s +:+ t) with (String a (s +:+ t)). cbn [occurs]. by rewrite IH, orb_assoc. Qed.
Lemma cut_None c s : cut c s = None ↔ occurs c s = false.
Proof.
  induction s as [|a s IH]; [done|]. cbn. case_decide; [by rewrite bool_decide_true|]. rewrite bool_decide_false by done. cbn.
  rewrite <- IH. by destruct (cut c s).
Qed.
Lemma cut_app c s t : occurs c s = false → cut c (s +:+ String c t) = Some (s, t).
Proof.
  induction s as [|a s IH]; [intros _; change ("" +:+ ?x) with x; cbn [cut]; by rewrite decide_True|]. change (String a s +:+ ?x) with (String a (s +:+ x)). cbn [occurs cut]. intros [Ha Hs]%orb_false_iff. apply bool_decide_eq_false in Ha.
  rewrite decide_False by done. by rewrite IH.
Qed.
Lemma cut_Some c s x y : cut c s = Some (x, y) → s = x +:+ String c y ∧ occurs c x = false.
Proof.
  revert x. induction s as [|a s IH]; intros x; cbn; [done|]. case_decide as Ha.
  - intros [= <- <-]. by subst.
  - destruct (cut c s) as [[x' y']|]; [|done]. intros [= <- <-]. destruct (IH x' eq_refl) as [-> Hx']. cbn.
    by rewrite bool_decide_false.
Qed.

Lemma Split_nonempty c s : Split c s ≠ [].
Proof. destruct s as [|a s]; [done|]. cbn. case_decide; [done|]. induction s as [|b s IH]; cbn; [done|]. case_decide; [done|]. by destruct (Split c s). Qed.
Lemma Split_none c s : occurs c s = false → Split c s = [s].
Proof.
  induction s as [|a s IH]; cbn; [done|]. intros [Ha Hs]%orb_false_iff. apply bool_decide_eq_false in Ha.
  rewrite decide_False by done. by rewrite IH.
Qed.
Lemma Split_app c s t : occurs c s = false → Split c (s +:+ String c t) = s :: Split c t.
Proof.
  induction s as [|a s IH]; [intros _; change ("" +:+ ?x) with x; cbn [Split]; by rewrite decide_True|]. change (String a s +:+ ?x) with (String a (s +:+ x)). cbn [occurs Split]. intros [Ha Hs]%orb_false_iff. apply bool_decide_eq_false in Ha.
  rewrite decide_False by done. by rewrite IH.
Qed.
Lemma Split_Join c parts : parts ≠ [] → Forall (λ p, occurs c p = false) parts → Split c (Join c parts) = parts.
Proof.
  induction parts as [|p parts IH]; [done|]. intros _ [Hp Hps]%Forall_cons. destruct parts as [|q parts]; [by apply Split_none|].
  change (Join c (p :: q :: parts)) with (p +:+ String c (Join c (q :: parts))). rewrite Split_app by done. by rewrite IH.
Qed.
Lemma Split_parts c s : Forall (λ p, occurs c p = false) (Split c s).
Proof.
  induction s as [|a s IH]; cbn; [by repeat constructor|]. case_decide as Ha; [by constructor|].
  destruct (Split c s) as [|p ps]; [done|]. apply Forall_cons in IH as [Hp Hps]. constructor; [|done]. cbn. by rewrite bool_decide_false.
Qed.
Lemma substring_all s : String.substring 0 (String.length s) s = s.
Proof. induction s as [|a s IH]; cbn; [done|]. by rewrite IH. Qed.
Lemma prefix_append pre s : String.prefix pre (pre +:+ s) = true.
Proof.
  induction pre as [|a pre IH]; [by destruct s|]. change (String a pre +:+ s) with (String a (pre +:+ s)). cbn [String.prefix].
  by destruct (ascii_dec a a).
Qed.
Lemma substring_append pre s n : String.substring (String.length pre) n (pre +:+ s) = String.substring 0 n s.
Proof. induction pre as [|a pre IH]; [done|]. change (String a pre +:+ s) with (String a (pre +:+ s)). exact IH. Qed.
Lemma length_append s t : String.length (s +:+ t) = (String.length s + String.length t)%nat.
Proof. induction s as [|a s IH]; [done|]. change (String a s +:+ t) with (String a (s +:+ t)). cbn [String.length]. by rewrite IH. Qed.
Lemma TrimPrefix_app pre s : TrimPrefix pre (pre +:+ s) = s.
Proof.
  unfold TrimPrefix. rewrite prefix_append, substring_append, length_append.
  replace (String.length pre + String.length s - String.length pre)%nat with (String.length s) by lia. apply substring_all.
Qed.

Lemma append_assoc s t u : s +:+ (t +:+ u) = (s +:+ t) +:+ u.
Proof.
  induction s as [|a s IH]; [done|]. change (String a s +:+ ?x) with (String a (s +:+ x)).
  change (String a (s +:+ t) +:+ u) with (String a ((s +:+ t) +:+ u)). by rewrite IH.
Qed.
Lemma prefix_split pre s : String.prefix pre s = true → ∃ r, s = pre +:+ r.
Proof.
  revert s. induction pre as [|a pre IH]; intros s; [by exists s|]. destruct s as [|b s]; cbn [String.prefix]; [done|].
  destruct (ascii_dec a b) as [<-|]; [|done]. intros [r ->]%IH. by exists r.
Qed.
Lemma occurs_TrimPrefix c pre s : occurs c s = false → occurs c (TrimPrefix pre s) = false.
Proof.
  intros Hs. destruct (String.prefix pre s) eqn:Hp; [|unfold TrimPrefix; by rewrite Hp].
  destruct (prefix_split pre s Hp) as [r ->]. rewrite TrimPrefix_app. rewrite occurs_app in Hs. by apply orb_false_iff in Hs as [_ ?].
Qed.

(** ** Round trip *)

(** The characters a connection string has a meaning for are not in its parts. *)
Definition clean d : Prop :=
  occurs question (ds_filename d) = false ∧
  map_Forall (λ k v, occurs equals k = false ∧ occurs ampersand k = false ∧ occurs ampersand v = false) (ds_params d).

Lemma addParts_format kvs m : Forall (λ kv, occurs equals kv.1 = false) kvs → NoDup kvs.*1 → (∀ k, k ∈ kvs.*1 → m !! k = None) →
  addParts (formatParam <$> kvs) m = inr (list_to_map kvs ∪ m).
Proof.
  revert m. induction kvs as [|[k v] kvs IH]; intros m Hk Hnd Hm; cbn; [by rewrite map_empty_union|].
  apply Forall_cons in Hk as [Hk Hks]. apply NoDup_cons in Hnd as [Hni Hnd]. unfold formatParam at 1. cbn [fst snd].
  rewrite cut_app by done. rewrite IH; [|done|done|].
  - f_equal. rewrite <- insert_union_l. symmetry. apply insert_union_r. by apply not_elem_of_list_to_map_1.
  - intros k' Hk'. rewrite lookup_insert_ne by (intros ->; done). apply Hm. by right.
Qed.

Lemma Format_parses d kvs : clean d → order d kvs → NewDSN (Format d kvs) = inr d.
Proof.
  intros [Hf Hp] Hord. unfold order in Hord. rewrite map_Forall_to_list in Hp.
  assert (Forall (λ kv, occurs equals kv.1 = false ∧ occurs ampersand kv.1 = false ∧ occurs ampersand kv.2 = false) kvs) as Hkv.
  { rewrite Hord. eapply Forall_impl; [exact Hp|]. by intros [k v]. }
  assert (NoDup kvs.*1) as Hnd by (rewrite Hord; apply NoDup_fst_map_to_list).
  assert (list_to_map kvs = ds_params d) as Hm.
  { rewrite (list_to_map_proper _ _ Hnd Hord). apply list_to_map_to_list. }
  assert (occurs question ("file:" +:+ ds_filename d) = false) as Hq by (rewrite occurs_app, Hf; done).
  unfold NewDSN, Format. destruct d as [fn ps]. cbn [ds_filename ds_params] in *. destruct kvs as [|kv kvs].
  - rewrite (proj2 (cut_None question _) Hq), TrimPrefix_app. cbn in Hm. by subst.
  - change ("file:" +:+ fn +:+ ?x) with ("file:" +:+ (fn +:+ x)). rewrite append_assoc. rewrite cut_app by done. rewrite Split_Join; [|done|].
    + rewrite addParts_format; [|by eapply Forall_impl; [exact Hkv|]; intros ? [? _]|done|by intros k _; apply lookup_empty].
      by rewrite TrimPrefix_app, map_union_empty, Hm.
    + rewrite Forall_fmap. eapply Forall_impl; [exact Hkv|]. intros [k v] (_ & Hk & Hv). cbn in *. unfold formatParam. cbn [fst snd].
      rewrite occurs_app, Hk. cbn. by rewrite Hv.
Qed.

Lemma addParts_clean parts m m' : Forall (λ p, occurs ampersand p = false) parts →
  map_Forall (λ k v, occurs equals k = false ∧ occurs ampersand k = false ∧ occurs ampersand v = false) m →
  addParts parts m = inr m' →
  map_Forall (λ k v, occurs equals k = false ∧ occurs ampersand k = false ∧ occurs ampersand v = false) m'.
Proof.
  revert m. induction parts as [|p parts IH]; intros m Hps Hm; cbn; [by intros [= <-]|].
  apply Forall_cons in Hps as [Hp Hps]. destruct (cut equals p) as [[k v]|] eqn:Hc; [|done].
  apply cut_Some in Hc as [-> Hk]. rewrite occurs_app in Hp. apply orb_false_iff in Hp as [Hk' Hv]. cbn in Hv.
  apply IH; [done|]. apply map_Forall_insert_2; [done|exact Hm].
Qed.
Lemma NewDSN_clean s d : NewDSN s = inr d → clean d.
Proof.
  unfold NewDSN, clean. destruct (cut question s) as [[file query]|] eqn:Hc.
  - apply cut_Some in Hc as [_ Hf]. destruct (addParts _ _) as [e|m] eqn:Ha; [done|]. intros [= <-]. cbn.
    split; [by apply occurs_TrimPrefix|]. eapply addParts_clean; [apply Split_parts| |exact Ha]. apply map_Forall_empty.
  - apply cut_None in Hc. intros [= <-]. cbn. split; [by apply occurs_TrimPrefix|apply map_Forall_empty].
Qed.
Lemma AddParam_clean key value d : occurs equals key = false → occurs ampersand key = false → occurs ampersand value = false →
  clean d → clean (AddParam key value d).
Proof.
  intros Hk1 Hk2 Hv [Hf Hp]. split; [done|]. cbn. case_decide; [by apply map_Forall_delete|by apply map_Forall_insert_2].
Qed.

(** A sequence of parameters that are added. *)
Definition addParams (kvs : list (string * string)) d : DSN := foldl (λ d kv, AddParam kv.1 kv.2 d) d kvs.
Definition plainParam (kv : string * string) : Prop :=
  occurs equals kv.1 = false ∧ occurs ampersand kv.1 = false ∧ occurs ampersand kv.2 = false.

(** Connection strings read back.  A connection string that is parsed and gets
    further parameters, whose names and values have none of the separators, is
    written in any order of its parameters to a string that parses to the same file
    name and parameters; in particular the strings of a database's readers and
    writer keep the file and the encryption key of the string they are made from. *)
Theorem dsn_roundtrip s d added kvs : NewDSN s = inr d → Forall plainParam added → order (addParams added d) kvs →
  NewDSN (Format (addParams added d) kvs) = inr (addParams added d).
Proof.
  intros Hs%NewDSN_clean Hadd Hord. apply Format_parses; [|done]. clear Hord. unfold addParams.
  revert d Hs. induction Hadd as [|[k v] added (? & ? & ?) _ IH]; intros d Hd; [done|]. apply IH. by apply AddParam_clean.
Qed.

Definition keyed : DSN := MkDSN "a.db3" {["_crypto_key" := "k"]}.
Definition keyedShared : DSN := addParams [("cache", "shared")] keyed.
Lemma dsn_roundtrip_witness :
  NewDSN "file:a.db3?_crypto_key=k" = inr keyed ∧
  Format keyedShared [("cache", "shared"); ("_crypto_key", "k")] = "file:a.db3?cache=shared&_crypto_key=k" ∧
  NewDSN (Format keyedShared [("cache", "shared"); ("_crypto_key", "k")]) = inr keyedShared ∧
  GetParam "_crypto_key" keyedShared = Some "k".
Proof.
  split; [reflexivity|]. split; [reflexivity|]. split; [|reflexivity].
  apply (dsn_roundtrip "file:a.db3?_crypto_key=k" keyed [("cache", "shared")] [("cache", "shared"); ("_crypto_key", "k")]).
  - reflexivity.
  - repeat constructor.
  - unfold order. vm_compute. repeat constructor.
Defined.

(** ** What does not read back *)

(** A key with an ampersand, added to a connection string, is cut and adds another
    parameter. *)
Lemma encryption_key_cut :
  NewDSN (Format (AddParam "_crypto_key" "a&mode=memory" (MkDSN "x" ∅)) [("_crypto_key", "a&mode=memory")]) =
  inr (MkDSN "x" (<["mode" := "memory"]> {["_crypto_key" := "a"]})).
Proof. reflexivity. Qed.

(** Two storages of a file share the database, which the first to close takes away. *)
Lemma opened_twice open kvs dsn db index : openDB open kvs dsn ∅ = (inr db, index) → index ≠ ∅ →
  openDB open kvs dsn index = (inr db, index) ∧ (Close None dsn index).2 = ∅.
Proof.
  unfold openDB, Close. destruct (NewDSN dsn) as [e|d]; [done|]. cbn zeta.
  set (d' := AddParam _ _ _). change (ds_filename d') with (ds_filename d).
  case_decide; [by intros [= _ <-]|]. rewrite lookup_empty. destruct (open _) as [e|db']; [done|].
  intros [= -> <-] _. rewrite lookup_insert_eq. split; [done|]. cbn. by rewrite delete_insert_id.
Qed.
