(* ===== verification/Client.v ===== *)
(** * The client of a database

    Models [src/client/conn.go], [stmt.go], [rows.go], [tx.go], [receipt.go] and, of
    [driver.go], the peers of databases and the numbers of connections: connections
    to the leader and a follower of a database, statements in and outside of
    transactions, and acknowledgements of answers.  The answers of block producers
    and miners and the clock are functions of the number of calls; the random source
    is a list of draws. *)
From S2P Require Import Prelude Hash Types Block SqlTypes.
From Stdlib Require Import String ZArith Lia.
From stdpp Require Import base list gmap strings.
Local Open Scope Z_scope.

(** The errors of [client/errors.go] and of the packages it calls. *)
Module CErr.
Inductive cerror :=
| ErrQueryInTransaction | ErrNotInitialized | ErrAlreadyInitialized | ErrInvalidRequestSeq | ErrInvalidProfile
| ErrNoSuchTokenBalance | ErrBadConn | ErrTxDone | EOF
| Wrap (e : cerror) | OfTypes (e : serror) | Remote (msg : string) | New (msg : string).
End CErr.
Abbreviation cerror := CErr.cerror.

(** ** The driver *)

(** [proto.Peers] without its signature. *)
Record Peers := MkPeers { pe_Leader : NodeID; pe_Servers : list NodeID }.

(** The variables of [driver.go]; [dr_rand] lists the draws of the random source. *)
Record Driver := MkDriver {
  dr_peerList : gmap DatabaseID Peers;
  dr_connIDAvail : list Z;
  dr_globalSeqNo : Z;
  dr_rand : nat → Z;
  dr_draws : nat;
}.
Implicit Types (d : Driver).

Definition set_avail d (l : list Z) : Driver := MkDriver (dr_peerList d) l (dr_globalSeqNo d) (dr_rand d) (dr_draws d).
Definition set_peerList d (m : gmap DatabaseID Peers) : Driver := MkDriver m (dr_connIDAvail d) (dr_globalSeqNo d) (dr_rand d) (dr_draws d).
(** A draw of the random source. *)
Definition draw d : Z * Driver :=
  (dr_rand d (dr_draws d), MkDriver (dr_peerList d) (dr_connIDAvail d) (dr_globalSeqNo d) (dr_rand d) (S (dr_draws d))).
Definition nextSeqNo d : Z * Driver :=
  let n := u64 (dr_globalSeqNo d + 1) in
  (n, MkDriver (dr_peerList d) (dr_connIDAvail d) n (dr_rand d) (dr_draws d)).

Definition allocateConnAndSeq d : (Z * Z) * Driver :=
  match dr_connIDAvail d with
  | [] => let '(connID, d) := draw d in let '(seqNo, d) := nextSeqNo d in ((connID, seqNo), d)
  | connID :: avail => let '(seqNo, d) := nextSeqNo (set_avail d avail) in ((connID, seqNo), d)
  end.
Definition putBackConn (connID : Z) d : Driver := set_avail d (dr_connIDAvail d ++ [connID]).

(** [getPeers]: [answer] is the profile of the block producer or its error, [sign]
    the error of signing the peers. *)
Definition getPeers (answer : GoResult cerror SQLChainProfile) (sign : option cerror) (dbID : DatabaseID) : GoM Driver cerror Peers :=
  res ← attempt (liftR answer);
  match res with
  | inl e => throw (CErr.Wrap e)
  | inr profile =>
      match mi_NodeID <$> sp_Miners profile with
      | [] => throw (CErr.Wrap CErr.ErrInvalidProfile)
      | (leader :: _) as nodeIDs =>
          match sign with
          | Some e => throw (CErr.Wrap e)
          | None =>
              let peers := MkPeers leader nodeIDs in
              modifyS (λ d, set_peerList d (<[dbID := peers]> (dr_peerList d)));; mret peers
          end
      end
  end.
Definition cacheGetPeers (answer : GoResult cerror SQLChainProfile) (sign : option cerror) (dbID : DatabaseID) : GoM Driver cerror Peers :=
  d ← getS;
  match dr_peerList d !! dbID with
  | Some peers => mret peers
  | None => getPeers answer sign dbID
  end.

(** One round of the peers updater: [gone] says of an error that the block producer
    does not know the database. *)
Fixpoint updatePeers (answer : DatabaseID → GoResult cerror SQLChainProfile) (gone : cerror → bool) (dbIDs : list DatabaseID)
    : GoM Driver cerror unit :=
  match dbIDs with
  | [] => mret tt
  | dbID :: dbIDs =>
      res ← attempt (getPeers (answer dbID) None dbID);
      (match res with
       | inl e => if gone e then modifyS (λ d, set_peerList d (delete dbID (dr_peerList d))) else mret tt
       | inr _ => mret tt
       end);;
      updatePeers answer gone dbIDs
  end.

(** ** Connections *)

Section connections.
Context `{SqlEnv}.

(** A connection to a peer, with the acknowledgements that wait for a worker;
    [pc_open] is false after its channel is closed. *)
Record pconn := MkPconn { pc_target : NodeID; pc_acks : list AckHeader; pc_open : bool }.

Record conn := MkConn {
  cn_dbID : DatabaseID;
  cn_queries : list Query;
  cn_localNodeID : NodeID;
  cn_privKey : PrivateKey;
  cn_inTransaction : bool;
  cn_closed : bool;
  cn_leader : option pconn;
  cn_follower : option pconn;
}.
Implicit Types (c : conn).

(** [Config] *)
Record Config := MkConfig { cf_DatabaseID : DatabaseID; cf_UseLeader : bool; cf_UseFollower : bool; cf_UseDirectRPC : bool }.
Definition NewConfig : Config := MkConfig "" true false false.

(** The choice of a follower: draws until one is not the leader; [None] when [fuel]
    draws were the leader.  Without another server the loop never ends, which
    [newConn] shows as a panic. *)
Fixpoint pickFollower (fuel : nat) (peers : Peers) d : option NodeID * Driver :=
  match fuel with
  | O => (None, d)
  | S fuel =>
      let '(x, d) := draw d in
      match pe_Servers peers !! Z.to_nat (x `mod` Z.of_nat (length (pe_Servers peers))) with
      | Some node => if decide (node = pe_Leader peers) then pickFollower fuel peers d else (Some node, d)
      | None => (None, d)
      end
  end.

(** [newConn]: [local] is the node id and the key of this node. *)
Definition newConn (fuel : nat) (cfg : Config) (local : GoResult cerror (NodeID * PrivateKey)) (answer : GoResult cerror SQLChainProfile)
    (sign : option cerror) : GoM Driver cerror conn :=
  '(localNodeID, privKey) ← liftR local;
  res ← attempt (cacheGetPeers answer sign (cf_DatabaseID cfg));
  match res with
  | inl e => throw (CErr.Wrap e)
  | inr peers =>
      let leader := if cf_UseLeader cfg then Some (MkPconn (pe_Leader peers) [] true) else None in
      follower ← (if cf_UseFollower cfg && bool_decide (1 < length (pe_Servers peers))%nat then
                    λ d, let '(node, d) := pickFollower fuel peers d in
                         (match node with Some n => Ok (Some (MkPconn n [] true)) | None => Panic end, d)
                  else mret None);
      match leader, follower with
      | None, None => throw (CErr.New "no follower peers found")
      | _, _ => mret (MkConn (cf_DatabaseID cfg) [] localNodeID privKey false false leader follower)
      end
  end.

(** A client: the driver, a connection, the requests it has sent with their targets,
    the answers of the miners, the clock, and the receipt of the context. *)
Record Client := MkClient {
  cl_driver : Driver;
  cl_conn : conn;
  cl_sent : list (NodeID * Request);
  cl_answer : nat → cerror + Response;
  cl_clock : nat → Z;
  cl_readings : nat;
  cl_receipt : option Hash;
}.
Implicit Types (k : Client) (q : Query).
Abbreviation CM := (GoM Client cerror).

Definition set_conn k c : Client :=
  MkClient (cl_driver k) c (cl_sent k) (cl_answer k) (cl_clock k) (cl_readings k) (cl_receipt k).
Definition set_driver k d : Client :=
  MkClient d (cl_conn k) (cl_sent k) (cl_answer k) (cl_clock k) (cl_readings k) (cl_receipt k).
Definition set_receipt k (h : Hash) : Client :=
  MkClient (cl_driver k) (cl_conn k) (cl_sent k) (cl_answer k) (cl_clock k) (cl_readings k) (Some h).
Definition set_queries c (qs : list Query) (tx : bool) : conn :=
  MkConn (cn_dbID c) qs (cn_localNodeID c) (cn_privKey c) tx (cn_closed c) (cn_leader c) (cn_follower c).
Definition getLocalTime : CM Z := λ k,
  (Ok (cl_clock k (cl_readings k)),
   MkClient (cl_driver k) (cl_conn k) (cl_sent k) (cl_answer k) (cl_clock k) (S (cl_readings k)) (cl_receipt k)).

(** [pCaller.Call] of a query. *)
Definition call (target : NodeID) (req : Request) : CM Response := λ k,
  (match cl_answer k (length (cl_sent k)) with inl e => Err e | inr r => Ok r end,
   MkClient (cl_driver k) (cl_conn k) (cl_sent k ++ [(target, req)]) (cl_answer k) (cl_clock k) (cl_readings k) (cl_receipt k)).

(** Which connection a query uses; [true] is the leader. *)
Definition useLeader c (queryType : Z) : bool :=
  match cn_leader c, cn_follower c with
  | Some _, Some _ => negb (bool_decide (queryType = ReadQuery))
  | Some _, None => true
  | None, _ => false
  end.
Definition used c (queryType : Z) : option pconn := if useLeader c queryType then cn_leader c else cn_follower c.

Definition pushAck (a : AckHeader) (p : pconn) : pconn := MkPconn (pc_target p) (pc_acks p ++ [a]) (pc_open p).
Definition enqueueAck (queryType : Z) (a : AckHeader) c : conn :=
  if useLeader c queryType
  then MkConn (cn_dbID c) (cn_queries c) (cn_localNodeID c) (cn_privKey c) (cn_inTransaction c) (cn_closed c) (pushAck a <$> cn_leader c) (cn_follower c)
  else MkConn (cn_dbID c) (cn_queries c) (cn_localNodeID c) (cn_privKey c) (cn_inTransaction c) (cn_closed c) (cn_leader c) (pushAck a <$> cn_follower c).

(** [rows] *)
Record rows := MkRows { rw_columns : list string; rw_types : list string; rw_data : list (list SqlValue) }.
Definition newRows (res : Response) : rows :=
  MkRows (pl_Columns (re_Payload res)) (pl_DeclTypes (re_Payload res)) (pl_Rows (re_Payload res)).

Definition deferM {A} (cleanup : Client → Client) (m : CM A) : CM A := λ k, let '(r, k) := m k in (r, cleanup k).

(** [sendQuery]; [receipt] tells whether the context holds a receipt.  The result is
    the affected rows, the last inserted id and the rows. *)
Definition sendQuery (receipt : bool) (queryType : Z) (queries : list Query) : CM (Z * Z * rows) :=
  k ← getS;
  let c := cl_conn k in
  uc ← deref (used c queryType);
  let '((connID, seqNo), d) := allocateConnAndSeq (cl_driver k) in
  modifyS (λ k, set_driver k d);;
  deferM (λ k, set_driver k (putBackConn connID (cl_driver k)))
    (now ← getLocalTime;
     let h := MkRequestHeader queryType (cn_localNodeID c) (cn_dbID c) connID seqNo now 0 zeroHash in
     req ← liftR (match Request_Sign (MkRequest h (MkHSV zeroHash None None) queries) (cn_privKey c) with
                  | Ok r => Ok r | Err e => Err (CErr.OfTypes e) | Panic => Panic end);
     (if receipt then modifyS (λ k, set_receipt k (Request_Hash req)) else mret tt);;
     response ← call (pc_target uc) req;
     let rh := sr_Header (re_Header response) in
     now ← getLocalTime;
     if pc_open uc then
       modifyS (λ k, set_conn k (enqueueAck queryType (MkAckHeader rh (sr_ResponseHash (re_Header response)) (cn_localNodeID c) now) (cl_conn k)));;
       mret (if decide (queryType = WriteQuery) then (rs_AffectedRows rh, rs_LastInsertID rh, newRows response) else (0, 0, newRows response))
     else panic).

Definition addQuery (receipt : bool) (queryType : Z) q : CM (Z * Z * option rows) :=
  k ← getS;
  let c := cl_conn k in
  if cn_inTransaction c then
    if decide (queryType = ReadQuery) then throw CErr.ErrQueryInTransaction
    else putS (set_conn k (set_queries c (cn_queries c ++ [q]) true));; mret (0, 0, None)
  else
    '(affectedRows, lastInsertID, r) ← sendQuery receipt queryType [q];
    mret (affectedRows, lastInsertID, Some r).

Definition convertQuery (query : string) (args : list (string * SqlValue)) : Query := MkQuery query args.

Definition ifOpen {A} (m : CM A) : CM A := k ← getS; if cn_closed (cl_conn k) then throw CErr.ErrBadConn else m.

Definition BeginTx : CM unit :=
  ifOpen (k ← getS;
    if cn_inTransaction (cl_conn k) then throw CErr.ErrTxDone else putS (set_conn k (set_queries (cl_conn k) [] true))).
Definition ExecContext (receipt : bool) (query : string) (args : list (string * SqlValue)) : CM (Z * Z) :=
  ifOpen ('(affectedRows, lastInsertID, _) ← addQuery receipt WriteQuery (convertQuery query args); mret (affectedRows, lastInsertID)).
Definition QueryContext (receipt : bool) (query : string) (args : list (string * SqlValue)) : CM (option rows) :=
  ifOpen ('(_, _, r) ← addQuery receipt ReadQuery (convertQuery query args); mret r).
Definition endTx k : Client := set_conn k (set_queries (cl_conn k) [] false).
Definition Commit : CM unit :=
  ifOpen (k ← getS;
    if negb (cn_inTransaction (cl_conn k)) then throw CErr.ErrTxDone
    else deferM endTx (match cn_queries (cl_conn k) with [] => mret tt | qs => _ ← sendQuery false WriteQuery qs; mret tt end)).
Definition Rollback : CM unit :=
  ifOpen (k ← getS;
    if negb (cn_inTransaction (cl_conn k)) then throw CErr.ErrTxDone
    else deferM endTx (match cn_queries (cl_conn k) with [] => throw CErr.ErrTxDone | _ => mret tt end)).

(** [Close]: closing a channel twice panics. *)
Definition closePconn (p : option pconn) : GoResult cerror (option pconn) :=
  match p with
  | None => Ok None
  | Some p => if pc_open p then Ok (Some (MkPconn (pc_target p) [] false)) else Panic
  end.
Definition Close : CM unit :=
  k ← getS;
  let c := cl_conn k in
  leader ← liftR (closePconn (cn_leader c));
  follower ← liftR (closePconn (cn_follower c));
  putS (set_conn k (MkConn (cn_dbID c) (cn_queries c) (cn_localNodeID c) (cn_privKey c) (cn_inTransaction c) true leader follower)).

(** [ackWorker] on one acknowledgement: it is signed and sent, or dropped. *)
Definition signAck c (a : AckHeader) : GoResult serror SignedAckHeader :=
  result_bind (ofHSV (HSV_Sign (MarshalHash_AckHeader a) (cn_privKey c) (MkHSV zeroHash None None))) (λ i, Ok (MkSignedAckHeader a i)).
Definition ackWorker c (p : pconn) : option SignedAckHeader * pconn :=
  match pc_acks p with
  | [] => (None, p)
  | a :: acks => (match signAck c a with Ok s => Some s | _ => None end, MkPconn (pc_target p) acks (pc_open p))
  end.

(** ** Statements, rows and transactions *)

(** [stmt]: [None] after it is closed. *)
Definition stmt : Type := option string.
Definition PrepareContext (query : string) : CM stmt := ifOpen (mret (Some query)).
Definition stmt_ExecContext (s : stmt) (receipt : bool) (args : list (string * SqlValue)) : CM (Z * Z) :=
  match s with Some pattern => ExecContext receipt pattern args | None => throw CErr.ErrBadConn end.
Definition stmt_QueryContext (s : stmt) (receipt : bool) (args : list (string * SqlValue)) : CM (option rows) :=
  match s with Some pattern => QueryContext receipt pattern args | None => throw CErr.ErrBadConn end.
Definition stmt_Close (s : stmt) : stmt := None.
Definition convertOldArgs (args : list SqlValue) : list (string * SqlValue) := (λ v, (EmptyString, v)) <$> args.

(** [Next] into [dest]; a row that is longer than [dest] panics. *)
Definition Next (dest : list SqlValue) (r : rows) : GoResult cerror (list SqlValue) * rows :=
  match rw_data r with
  | [] => (Err CErr.EOF, r)
  | row :: data =>
      if decide (length row <= length dest)%nat
      then (Ok (row ++ drop (length row) dest), MkRows (rw_columns r) (rw_types r) data)
      else (Panic, r)
  end.
Definition rows_Close (r : rows) : rows := MkRows (rw_columns r) (rw_types r) [].

(** [ExecuteInTx] *)
Definition ExecuteInTx (fn : CM unit) : CM unit :=
  res ← attempt fn;
  match res with
  | inr _ => r ← attempt Commit; match r with inl e => throw (CErr.Wrap e) | inr _ => mret tt end
  | inl e => _ ← attempt Rollback; throw e
  end.
End connections.
