(* ===== verification/ClientProps.v ===== *)
(** * The client of a database: theorems

    What a connection sends, in and outside of transactions; and the numbers of
    connections and requests against the check of the database. *)
From S2P Require Import Prelude Hash Types Block SqlTypes Sanitizer Xenomint AckIndex Bytes LevelDB SqlNode SqlBilling SqlChain.
From S2P Require Import KayakWal Kayak Worker Client.
From Stdlib Require Import String ZArith Lia.
From stdpp Require Import base list gmap strings relations.
Local Open Scope Z_scope.

(** ** Sessions *)

Section session.
Context `{SqlEnv}.
Implicit Types (k : Client) (c : conn) (q : Query) (req : Request).

(** What the caller does with a connection. *)
Inductive sessionOp :=
| DoBegin | DoExec (receipt : bool) (query : string) (args : list (string * SqlValue))
| DoQuery (receipt : bool) (query : string) (args : list (string * SqlValue)) | DoCommit | DoRollback.
Definition runSessionOp (op : sessionOp) k : Client :=
  match op with
  | DoBegin => (BeginTx k).2
  | DoExec receipt query args => (ExecContext receipt query args k).2
  | DoQuery receipt query args => (QueryContext receipt query args k).2
  | DoCommit => (Commit k).2
  | DoRollback => (Rollback k).2
  end.
Definition runSession (ops : list sessionOp) k : Client := foldl (λ k op, runSessionOp op k) k ops.

(** The specification: the statements of the open transaction, if there is one, and
    the batches that go to the database. *)
Definition sessionStep (op : sessionOp) (tx : option (list Query)) : list (Z * list Query) * option (list Query) :=
  match op, tx with
  | DoBegin, None => ([], Some [])
  | DoBegin, Some qs => ([], Some qs)
  | DoExec _ query args, None => ([(WriteQuery, [MkQuery query args])], None)
  | DoExec _ query args, Some qs => ([], Some (qs ++ [MkQuery query args]))
  | DoQuery _ query args, None => ([(ReadQuery, [MkQuery query args])], None)
  | DoQuery _ _ _, Some qs => ([], Some qs)
  | DoCommit, Some [] => ([], None)
  | DoCommit, Some qs => ([(WriteQuery, qs)], None)
  | DoCommit, None => ([], None)
  | DoRollback, _ => ([], None)
  end.
Fixpoint batches (ops : list sessionOp) (tx : option (list Query)) : list (Z * list Query) * option (list Query) :=
  match ops with
  | [] => ([], tx)
  | op :: ops => let '(bs, tx) := sessionStep op tx in let '(bs', tx) := batches ops tx in (bs ++ bs', tx)
  end.

(** The parts of a connection that its life does not change. *)
Definition shape c := (cn_dbID c, cn_localNodeID c, cn_privKey c, cn_closed c, pc_target <$> cn_leader c, pc_open <$> cn_leader c,
  pc_target <$> cn_follower c, pc_open <$> cn_follower c).
Definition transaction c : option (list Query) := if cn_inTransaction c then Some (cn_queries c) else None.
(** An open connection to a leader or a follower. *)
Definition usable c : Prop :=
  cn_closed c = false ∧ (is_Some (cn_leader c) ∨ is_Some (cn_follower c)) ∧
  (∀ p, cn_leader c = Some p → pc_open p = true) ∧ ∀ p, cn_follower c = Some p → pc_open p = true.
(** Signing with the key of the connection succeeds. *)
Definition signing c : Prop := ∀ req, ∃ req', Request_Sign req (cn_privKey c) = Ok req'.

(** A request as the connection makes it: to the follower for reads if there is one,
    else to the leader if there is one. *)
Record sentBy c (seqNo : Z) (b : Z * list Query) (sent : NodeID * Request) : Prop := {
  sb_target : Some sent.1 = pc_target <$> used c b.1;
  sb_verified : Request_Verify sent.2 = Ok tt;
  sb_type : rh_QueryType (rq_Header sent.2) = b.1;
  sb_queries : rq_Queries sent.2 = b.2;
  sb_node : rh_NodeID (rq_Header sent.2) = cn_localNodeID c;
  sb_db : rh_DatabaseID (rq_Header sent.2) = cn_dbID c;
  sb_seq : rh_SeqNo (rq_Header sent.2) = seqNo;
}.

Lemma shape_used c c' ty : shape c' = shape c → pc_target <$> used c' ty = pc_target <$> used c ty.
Proof.
  unfold shape, used, useLeader. intros [= _ _ _ _ Hl _ Hf _].
  destruct (cn_leader c), (cn_leader c'); try done; destruct (cn_follower c), (cn_follower c'); try done; by destruct (negb _).
Qed.
Lemma shape_usable c c' : shape c' = shape c → usable c → usable c'.
Proof.
  unfold shape, usable. intros [= _ _ _ Hc Hl Hlo Hf Hfo] (Hz1 & Hz2 & Hz3 & Hz4). split_and!; [congruence|..].
  - destruct (cn_leader c), (cn_leader c'), (cn_follower c), (cn_follower c'); try done; by (destruct Hz2 as [[? ?]|[? ?]]; eauto).
  - intros p Hp. rewrite Hp in Hlo. destruct (cn_leader c) as [p'|]; [|done]. injection Hlo as ->. by apply Hz3.
  - intros p Hp. rewrite Hp in Hfo. destruct (cn_follower c) as [p'|]; [|done]. injection Hfo as ->. by apply Hz4.
Qed.
Lemma usable_used c ty : usable c → ∃ p, used c ty = Some p ∧ pc_open p = true.
Proof.
  intros (_ & Hor & Hl & Hf). unfold used, useLeader. destruct (cn_leader c) as [l|], (cn_follower c) as [f|].
  - destruct (negb _); eauto.
  - eauto.
  - eauto.
  - by destruct Hor as [[? ?]|[? ?]].
Qed.
Lemma enqueueAck_shape ty a c : shape (enqueueAck ty a c) = shape c ∧ transaction (enqueueAck ty a c) = transaction c.
Proof. unfold enqueueAck, shape, transaction. destruct (useLeader c ty); cbn; split; try done; [destruct (cn_leader c)|destruct (cn_follower c)]; done. Qed.

Lemma Request_Sign_fields req key req' : Request_Sign req key = Ok req' →
  rq_Queries req' = rq_Queries req ∧ rh_QueryType (rq_Header req') = rh_QueryType (rq_Header req) ∧
  rh_NodeID (rq_Header req') = rh_NodeID (rq_Header req) ∧ rh_DatabaseID (rq_Header req') = rh_DatabaseID (rq_Header req) ∧
  rh_ConnectionID (rq_Header req') = rh_ConnectionID (rq_Header req) ∧ rh_SeqNo (rq_Header req') = rh_SeqNo (rq_Header req).
Proof.
  unfold Request_Sign. destruct (buildHash _); [|done..]. cbn. destruct (ofHSV _); [|done..]. cbn. by intros [= <-].
Qed.

Definition seqOf k : Z := dr_globalSeqNo (cl_driver k).
Lemma allocate_seq (d : Driver) x d' : allocateConnAndSeq d = (x, d') → x.2 = u64 (dr_globalSeqNo d + 1) ∧ dr_globalSeqNo d' = x.2.
Proof. unfold allocateConnAndSeq. destruct (dr_connIDAvail d); cbn; by intros [= <- <-]. Qed.

(** A query is sent exactly once, whatever the answer. *)
Lemma sendQuery_spec receipt ty qs k : usable (cl_conn k) → signing (cl_conn k) →
  let k' := (sendQuery receipt ty qs k).2 in
  (∃ sent, cl_sent k' = cl_sent k ++ [sent] ∧ sentBy (cl_conn k) (seqOf k') (ty, qs) sent) ∧
  seqOf k' = u64 (seqOf k + 1) ∧ shape (cl_conn k') = shape (cl_conn k) ∧ transaction (cl_conn k') = transaction (cl_conn k) ∧
  (sendQuery receipt ty qs k).1 ≠ Panic.
Proof.
  intros Hu Hs. destruct (usable_used _ ty Hu) as (uc & Huc & Hopen). cbn zeta. unfold sendQuery. go_unfold. rewrite Huc. go_unfold.
  destruct (allocateConnAndSeq (cl_driver k)) as [[connID seqNo] d] eqn:Hal. apply allocate_seq in Hal as [Hseq Hd]. cbn [snd] in *.
  unfold deferM, getLocalTime. go_unfold. cbn [cl_conn cl_clock cl_readings set_driver].
  match goal with |- context [Request_Sign ?r ?key] => destruct (Hs r) as [req Hr]; rewrite Hr end. go_unfold.
  pose proof (Request_Sign_Verify _ _ _ Hr) as Hv. apply Request_Sign_fields in Hr as (Hq & Hty & Hn & Hdb & _ & Hsq). cbn in Hq, Hty, Hn, Hdb, Hsq.
  assert (sentBy (cl_conn k) seqNo (ty, qs) (pc_target uc, req)) as Hsent by (split; cbn; try done; by rewrite Huc).
  unfold call. destruct receipt; go_unfold; unfold seqOf; cbn;
    (destruct (cl_answer k (length (cl_sent k))) as [e|resp]; go_unfold; [cbn; rewrite Hd; split_and!; by eauto|];
     rewrite Hopen; cbn; destruct (enqueueAck_shape ty (MkAckHeader (sr_Header (re_Header resp)) (sr_ResponseHash (re_Header resp))
       (cn_localNodeID (cl_conn k)) (cl_clock k (S (cl_readings k)))) (cl_conn k)) as [Hsh Htx]; rewrite Hd, Hsh, Htx; split_and!; by eauto).
Qed.

(** Batches that are sent one after the other, with consecutive numbers. *)
Inductive sentFrom c : Z → list (Z * list Query) → list (NodeID * Request) → Z → Prop :=
| sent_nil n : sentFrom c n [] [] n
| sent_cons n b bs s sent n' : sentBy c (u64 (n + 1)) b s → sentFrom c (u64 (n + 1)) bs sent n' →
    sentFrom c n (b :: bs) (s :: sent) n'.
Lemma sentFrom_app c n bs sent n1 bs' sent' n2 : sentFrom c n bs sent n1 → sentFrom c n1 bs' sent' n2 →
  sentFrom c n (bs ++ bs') (sent ++ sent') n2.
Proof. induction 1; [done|]. intros Hs'. cbn. constructor; auto. Qed.
Lemma sentBy_shape c c' n b s : shape c' = shape c → sentBy c' n b s → sentBy c n b s.
Proof.
  intros Hsh [Ht ? ? ? Hn Hd ?]. rewrite (shape_used c c' _ Hsh) in Ht. unfold shape in Hsh. injection Hsh as Hdb Hln _ _ _ _ _ _.
  split; congruence.
Qed.
Lemma sentFrom_shape c c' n bs sent n' : shape c' = shape c → sentFrom c' n bs sent n' → sentFrom c n bs sent n'.
Proof. intros Hsh. induction 1; constructor; [by eapply sentBy_shape|done]. Qed.

(** The effect of a call on the connection. *)
Record follows k k' (bs : list (Z * list Query)) (tx : option (list Query)) : Prop := {
  fo_sent : ∃ sent, cl_sent k' = cl_sent k ++ sent ∧ sentFrom (cl_conn k) (seqOf k) bs sent (seqOf k');
  fo_tx : transaction (cl_conn k') = tx;
  fo_shape : shape (cl_conn k') = shape (cl_conn k);
}.
Lemma follows_quiet k k' tx : cl_sent k' = cl_sent k → seqOf k' = seqOf k → transaction (cl_conn k') = tx →
  shape (cl_conn k') = shape (cl_conn k) → follows k k' [] tx.
Proof. intros Hs Hq Ht Hsh. split; [|done..]. exists []. rewrite app_nil_r, Hs, Hq. split; [done|constructor]. Qed.
Lemma follows_send receipt ty qs k : usable (cl_conn k) → signing (cl_conn k) →
  follows k (sendQuery receipt ty qs k).2 [(ty, qs)] (transaction (cl_conn k)).
Proof.
  intros Hu Hs. destruct (sendQuery_spec receipt ty qs k Hu Hs) as ((sent & Hc & Hb) & Hq & Hsh & Ht & _). split; [|done..].
  exists [sent]. split; [done|]. rewrite Hq in *. constructor; [done|constructor].
Qed.
Lemma follows_end k k' bs tx : follows k k' bs tx → follows k (endTx k') bs None.
Proof. intros [Hs _ Hsh]. split; [exact Hs|done|exact Hsh]. Qed.

Lemma runSessionOp_follows op k : usable (cl_conn k) → signing (cl_conn k) →
  follows k (runSessionOp op k) (sessionStep op (transaction (cl_conn k))).1 (sessionStep op (transaction (cl_conn k))).2.
Proof.
  intros Hu Hs. pose proof Hu as (Hcl & _). assert (∀ tx, transaction (cl_conn k) = tx → follows k k [] tx) as Hquiet by (intros tx Ht; by apply follows_quiet).
  destruct op as [|r query args|r query args| |]; cbn [runSessionOp sessionStep].
  - unfold BeginTx, ifOpen. go_unfold. rewrite Hcl. unfold transaction in *. destruct (cn_inTransaction (cl_conn k)) eqn:Htx; [by apply Hquiet|].
    by apply follows_quiet.
  - unfold ExecContext, ifOpen, addQuery. go_unfold. rewrite Hcl. unfold transaction at 1 2. destruct (cn_inTransaction (cl_conn k)) eqn:Htx.
    + rewrite decide_False by done. by apply follows_quiet.
    + pose proof (follows_send r WriteQuery [convertQuery query args] k Hu Hs) as Hf. unfold transaction in Hf. rewrite Htx in Hf.
      by destruct (sendQuery r WriteQuery _ k) as [[[[a l] rs]|e|] k'].
  - unfold QueryContext, ifOpen, addQuery. go_unfold. rewrite Hcl. unfold transaction in *. destruct (cn_inTransaction (cl_conn k)) eqn:Htx.
    + rewrite decide_True by done. by apply Hquiet.
    + pose proof (follows_send r ReadQuery [convertQuery query args] k Hu Hs) as Hf. unfold transaction in Hf. rewrite Htx in Hf.
      by destruct (sendQuery r ReadQuery _ k) as [[[[a l] rs]|e|] k'].
  - unfold Commit, ifOpen. go_unfold. rewrite Hcl. unfold transaction in *. destruct (cn_inTransaction (cl_conn k)) eqn:Htx; cbn [negb]; [|by apply Hquiet].
    unfold deferM. destruct (cn_queries (cl_conn k)) as [|q qs] eqn:Hqs; [by apply follows_quiet|].
    pose proof (follows_send false WriteQuery (q :: qs) k Hu Hs) as Hf. go_unfold.
    destruct (sendQuery false WriteQuery (q :: qs) k) as [[[[a l] rs]|e|] k']; by eapply follows_end.
  - unfold Rollback, ifOpen. go_unfold. rewrite Hcl. unfold transaction in *. destruct (cn_inTransaction (cl_conn k)) eqn:Htx; cbn [negb]; [|by apply Hquiet].
    unfold deferM. destruct (cn_queries (cl_conn k)) as [|q qs] eqn:Hqs; by apply follows_quiet.
Qed.

(** C21: A connection is a session of batches.  Over any sequence of begins, statements,
    queries, commits and rollbacks, whatever the miners answer, the requests that
    leave the client are those of the specification and no others: a statement outside
    a transaction at once, the statements of a transaction in one batch, in their
    order, when it is committed, and nothing of a transaction that is rolled back.
    Each request is signed and verifies, names this node and this database, goes to
    the follower if it only reads and to the leader otherwise (where there are both),
    and they are numbered consecutively. *)
Theorem session_batches ops k : usable (cl_conn k) → signing (cl_conn k) →
  let k' := runSession ops k in
  let '(bs, tx) := batches ops (transaction (cl_conn k)) in
  transaction (cl_conn k') = tx ∧
  ∃ sent, cl_sent k' = cl_sent k ++ sent ∧ sentFrom (cl_conn k) (seqOf k) bs sent (seqOf k').
Proof.
  intros Hu Hs. cbn zeta. revert k Hu Hs. induction ops as [|op ops IH]; intros k Hu Hs; cbn [batches runSession foldl].
  { split; [done|]. exists []. rewrite app_nil_r. split; [done|constructor]. }
  pose proof (runSessionOp_follows op k Hu Hs) as [(sent & Hc & Hf) Ht Hsh].
  destruct (sessionStep op (transaction (cl_conn k))) as [bs tx]. cbn [fst snd] in *.
  specialize (IH (runSessionOp op k) (shape_usable _ _ Hsh Hu)). rewrite Ht in IH.
  assert (signing (cl_conn (runSessionOp op k))) as Hs'.
  { intros req. unfold shape in Hsh. injection Hsh as _ _ Hkey _ _ _ _ _. rewrite Hkey. apply Hs. }
  specialize (IH Hs'). fold (runSession ops (runSessionOp op k)). destruct (batches ops tx) as [bs' tx'].
  destruct IH as (Ht' & sent' & Hc' & Hf'). split; [done|]. exists (sent ++ sent'). rewrite Hc', Hc, app_assoc. split; [done|].
  eapply sentFrom_app; [exact Hf|]. by eapply sentFrom_shape.
Qed.
End session.

(** ** Numbers against the check of the database *)

Section numbers.
Context `{SqlEnv} {C D : Type}.
Abbreviation Service := (Service (C := C) (D := D)).

(** A request that waits for its answer. *)
Record flying := MkFlying { fl_conn : Z; fl_seq : Z; fl_arrived : bool }.
(** The driver of a process, its waiting requests, and a replica of a database. *)
Record traffic := MkTraffic { tf_driver : Driver; tf_flying : list flying; tf_service : Service }.

(** [sendQuery] of any number of goroutines: it takes numbers, the request reaches the
    replica, which records it, and the number of the connection is given back, also
    when the request has not arrived.  Other clients have connections of their own. *)
Inductive travel : traffic → traffic → Prop :=
| travel_send d d' fs sv c s : dr_globalSeqNo d + 1 < two64 → allocateConnAndSeq d = ((c, s), d') →
    travel (MkTraffic d fs sv) (MkTraffic d' (MkFlying c s false :: fs) sv)
| travel_arrive d fs sv i c s : fs !! i = Some (MkFlying c s false) → verifySequence c s sv = None →
    travel (MkTraffic d fs sv) (MkTraffic d (<[i := MkFlying c s true]> fs) (recordSequence c s sv))
| travel_answer d fs sv i f : fs !! i = Some f →
    travel (MkTraffic d fs sv) (MkTraffic (putBackConn (fl_conn f) d) (delete i fs) sv)
| travel_other d fs sv c s : (∀ n, dr_rand d n ≠ c) →
    travel (MkTraffic d fs sv) (MkTraffic d fs (recordSequence c s sv)).

(** Every connection has one place; what is recorded has been given out before. *)
Record TrafficInv (rand : nat → Z) (t : traffic) : Prop := {
  ti_rand : dr_rand (tf_driver t) = rand;
  ti_seq : 0 <= dr_globalSeqNo (tf_driver t) < two64;
  ti_once : NoDup (dr_connIDAvail (tf_driver t) ++ (fl_conn <$> tf_flying t));
  ti_drawn c : c ∈ dr_connIDAvail (tf_driver t) ++ (fl_conn <$> tf_flying t) → ∃ n, (n < dr_draws (tf_driver t))%nat ∧ rand n = c;
  ti_known c n s : sv_connSeqs (tf_service t) !! c = Some s → rand n = c → (n < dr_draws (tf_driver t))%nat ∧ s <= dr_globalSeqNo (tf_driver t);
  ti_waiting f s : f ∈ tf_flying t → fl_arrived f = false → sv_connSeqs (tf_service t) !! fl_conn f = Some s → s < fl_seq f;
  ti_given f : f ∈ tf_flying t → fl_seq f <= dr_globalSeqNo (tf_driver t);
}.

Lemma recordSequence_lookup c s (sv : Service) c' : sv_connSeqs (recordSequence c s sv) !! c' = if decide (c = c') then Some s else sv_connSeqs sv !! c'.
Proof. unfold recordSequence. cbn. case_decide as Hc; [subst; by rewrite lookup_insert_eq|by rewrite lookup_insert_ne]. Qed.

(** What a request takes: the next number, and a connection that nobody uses. *)
Lemma allocate_spec rand (t : traffic) c s d' : Inj (=) (=) rand → TrafficInv rand t → dr_globalSeqNo (tf_driver t) + 1 < two64 →
  allocateConnAndSeq (tf_driver t) = ((c, s), d') →
  s = dr_globalSeqNo (tf_driver t) + 1 ∧ dr_globalSeqNo d' = s ∧ dr_rand d' = rand ∧ (dr_draws (tf_driver t) <= dr_draws d')%nat ∧
  NoDup (dr_connIDAvail d' ++ c :: (fl_conn <$> tf_flying t)) ∧
  ∀ x, x ∈ dr_connIDAvail d' ++ c :: (fl_conn <$> tf_flying t) → ∃ n, (n < dr_draws d')%nat ∧ rand n = x.
Proof.
  intros Hinj [Hr Hs Hnd Hdr _ _ _] Hroom. destruct t as [d fs sv]. cbn in *. unfold allocateConnAndSeq.
  assert (u64 (dr_globalSeqNo d + 1) = dr_globalSeqNo d + 1) as Hu by (apply Z.mod_small; unfold two64 in *; lia).
  destruct (dr_connIDAvail d) as [|c0 avail] eqn:Ha; cbn; intros [= <- <- <-]; cbn.
  - rewrite Ha. cbn in *. rewrite Hr. split_and!; [done|done|done|lia| |].
    + constructor; [|done]. intros (n & Hn & Heq)%Hdr. apply Hinj in Heq. lia.
    + intros x [->|Hx]%elem_of_cons; [exists (dr_draws d); split; [lia|done]|]. destruct (Hdr x Hx) as (n & ? & ?). exists n. split; [lia|done].
  - split_and!; [done|done|done|lia| |].
    + by rewrite <- Permutation_middle.
    + intros x Hx. apply Hdr. cbn. by rewrite Permutation_middle.
Qed.

Lemma travel_inv rand t t' : Inj (=) (=) rand → TrafficInv rand t → travel t t' → TrafficInv rand t'.
Proof.
  intros Hinj Hinv Ht. destruct Ht as [d d' fs sv c s Hroom Hal|d fs sv i c s Hi Hv|d fs sv i f Hi|d fs sv c s Hc].
  - destruct (allocate_spec rand _ c s d' Hinj Hinv Hroom Hal) as (Hs & Hg & Hr & Hd & Hnd & Hdr). destruct Hinv as [_ Hseq _ _ Hkn Hw Hgi]. cbn in *.
    split; cbn; [done|lia|done|done|..].
    + intros c' n s' Hl Hrn. destruct (Hkn c' n s' Hl Hrn). lia.
    + intros f s' [->|Hf]%elem_of_cons Ha Hl; cbn in *; [|by eapply Hw].
      destruct (Hdr c) as (n & _ & Hn); [apply elem_of_app; right; by left|]. destruct (Hkn c n s' Hl Hn). lia.
    + intros f [->|Hf]%elem_of_cons; cbn; [lia|]. specialize (Hgi f Hf). lia.
  - destruct Hinv as [Hr Hseq Hnd Hdr Hkn Hw Hgi]. cbn in *.
    assert (fl_conn <$> <[i := MkFlying c s true]> fs = fl_conn <$> fs) as Hfm.
    { rewrite list_fmap_insert. cbn. apply list_insert_id. rewrite list_lookup_fmap, Hi. done. }
    assert (MkFlying c s false ∈ fs) as Hin by (by eapply list_elem_of_lookup_2).
    split; cbn [tf_driver tf_flying tf_service]; rewrite ?Hfm; [done|done|done|done|..].
    + intros c' n s'. rewrite recordSequence_lookup. case_decide as Hc; [|by apply Hkn]. subst c'. intros [= <-] Hrn.
      destruct (Hdr c) as (n' & Hn' & Hrn'); [apply elem_of_app; right; by apply (list_elem_of_fmap_2 fl_conn) in Hin|].
      rewrite <- Hrn' in Hrn. apply Hinj in Hrn as ->. split; [done|]. exact (Hgi _ Hin).
    + intros f s' [j Hj]%list_elem_of_lookup Ha. rewrite recordSequence_lookup. destruct (decide (i = j)) as [<-|Hij].
      { rewrite list_lookup_insert_eq in Hj by (by eapply lookup_lt_Some). injection Hj as <-. done. }
      rewrite list_lookup_insert_ne in Hj by done. case_decide as Hc; [|apply Hw; [by eapply list_elem_of_lookup_2|done]].
      apply NoDup_app in Hnd as (_ & _ & Hnd). destruct Hij.
      eapply (NoDup_lookup _ i j (fl_conn f)); [exact Hnd|..]; rewrite list_lookup_fmap; [rewrite Hi|by rewrite Hj]. cbn. by rewrite Hc.
    + intros f Hf. apply list_elem_of_lookup in Hf as [j Hj]. destruct (decide (i = j)) as [<-|Hij].
      * rewrite list_lookup_insert_eq in Hj by (by eapply lookup_lt_Some). injection Hj as <-. exact (Hgi _ Hin).
      * rewrite list_lookup_insert_ne in Hj by done. apply Hgi. by eapply list_elem_of_lookup_2.
  - destruct Hinv as [Hr Hseq Hnd Hdr Hkn Hw Hgi]. cbn in *.
    assert (f :: delete i fs ≡ₚ fs) as Hp by (symmetry; by apply delete_Permutation).
    assert ((dr_connIDAvail d ++ [fl_conn f]) ++ (fl_conn <$> delete i fs) ≡ₚ dr_connIDAvail d ++ (fl_conn <$> fs)) as Hp'.
    { rewrite <- app_assoc. cbn. apply Permutation_app_head. rewrite <- Hp at 2. done. }
    split; cbn; [done|done|by rewrite Hp'|intros c; rewrite Hp'; apply Hdr|done|..].
    + intros f' s' Hf' Ha Hl. apply Hw; [|done..]. rewrite <- Hp. by right.
    + intros f' Hf'. apply Hgi. rewrite <- Hp. by right.
  - destruct Hinv as [Hr Hseq Hnd Hdr Hkn Hw Hgi]. cbn in *. rewrite Hr in Hc. split; cbn [tf_driver tf_flying tf_service]; [done|done|done|done| | |done].
    + intros c' n s'. rewrite recordSequence_lookup. case_decide as Heq; [subst; intros _ Hn; by destruct (Hc n)|by apply Hkn].
    + intros f s' Hf Ha. rewrite recordSequence_lookup. case_decide as Heq; [|by apply Hw].
      destruct (Hdr (fl_conn f)) as (n & _ & Hn); [apply elem_of_app; right; by apply list_elem_of_fmap_2|]. destruct (Hc n). congruence.
Qed.

(** C20: The database never refuses a request of a waiting client as out of order.  A
    process sends requests to a database from any number of goroutines, with fewer
    than 2^64 requests in all; connections are numbered at random, without two equal
    draws and apart from the connections of other clients, and their numbers are used
    again after an answer.  Whatever the order in which requests are sent, arrive,
    are answered or given up: a request that arrives while its sender waits, with a
    valid signature and a time within the gap, passes the check of the replica. *)
Theorem waiting_request_accepted (rand : nat → Z) (sv : Service) (t : traffic) : Inj (=) (=) rand →
  (∀ n, sv_connSeqs sv !! rand n = None) → rtc travel (MkTraffic (MkDriver ∅ [] 0 rand 0) [] sv) t →
  ∀ f (req : Request), f ∈ tf_flying t → fl_arrived f = false →
    rh_ConnectionID (rq_Header req) = fl_conn f → rh_SeqNo (rq_Header req) = fl_seq f → Request_Verify req = Ok tt →
    (let now := Worker.getLocalTime (tf_service t) in let gap := dc_MaxWriteTimeGap (sv_cfg (tf_service t)) in
     now - gap <= rh_Timestamp (rq_Header req) <= now + gap) →
    (service_Check req (tf_service t)).1 = None.
Proof.
  intros Hinj Hfresh Hrun f req Hf Ha Hc Hs Hv Ht.
  assert (TrafficInv rand t) as [_ _ _ _ _ Hw _].
  { assert (TrafficInv rand (MkTraffic (MkDriver ∅ [] 0 rand 0) [] sv)) as Hinit.
    { split; cbn; [done|done|constructor|by intros c []%not_elem_of_nil| |by intros f' s []%not_elem_of_nil|by intros f' []%not_elem_of_nil].
      intros c n s Hl <-. by rewrite Hfresh in Hl. }
    clear Hf Ha Hc Hs Hv Ht. induction Hrun as [|t1 t2 t3 Hstep _ IH]; [done|]. apply IH. by eapply travel_inv. }
  unfold service_Check, service_CheckVerify. rewrite Hv. rewrite decide_False by (cbn in *; lia).
  assert (verifySequence (rh_ConnectionID (rq_Header req)) (rh_SeqNo (rq_Header req)) (tick (tf_service t)) = None) as ->; [|done].
  unfold verifySequence. cbn. rewrite Hc, Hs. destruct (sv_connSeqs (tf_service t) !! fl_conn f) as [l|] eqn:Hl; [|done].
  rewrite decide_False; [done|]. specialize (Hw f l Hf Ha Hl). lia.
Qed.
End numbers.

(** ** The choice of a follower *)

Section follower.
Context `{SqlEnv}.
Definition drawnServer (peers : Peers) (d : Driver) (i : nat) : option NodeID :=
  pe_Servers peers !! Z.to_nat (dr_rand d (dr_draws d + i) `mod` Z.of_nat (length (pe_Servers peers))).

(** The first draw that is not the leader is taken. *)
Lemma pickFollower_first peers i fuel d node : (i < fuel)%nat → (∀ j, (j < i)%nat → drawnServer peers d j = Some (pe_Leader peers)) →
  drawnServer peers d i = Some node → node ≠ pe_Leader peers → (pickFollower fuel peers d).1 = Some node.
Proof.
  revert fuel d. induction i as [|i IH]; intros fuel d Hlt Hall Hi Hne; (destruct fuel as [|fuel]; [lia|]); cbn.
  - unfold drawnServer in Hi. rewrite Nat.add_0_r in Hi. rewrite Hi. by rewrite decide_False.
  - pose proof (Hall 0%nat ltac:(lia)) as H0'. unfold drawnServer in H0'. rewrite Nat.add_0_r in H0'. rewrite H0'.
    rewrite decide_True by done. apply IH; [lia|..|done]; unfold drawnServer in *; cbn.
    + intros j Hj. specialize (Hall (S j) ltac:(lia)). by rewrite Nat.add_succ_r in Hall.
    + by rewrite Nat.add_succ_r in Hi.
Qed.
(** Without another server the choice never ends. *)
Lemma pickFollower_never peers fuel d : Forall (λ n, n = pe_Leader peers) (pe_Servers peers) → (pickFollower fuel peers d).1 = None.
Proof.
  intros Hall. revert d. induction fuel as [|fuel IH]; intros d; [done|]. cbn.
  destruct (pe_Servers peers !! _) as [node|] eqn:Hn; [|done]. pose proof (Forall_lookup_1 _ _ _ _ Hall Hn) as Heq. cbn in Heq. rewrite decide_True by done. apply IH.
Qed.
End follower.
