(* ===== verification/ClientSample.v ===== *)
(** * A session of a client

    A connection with a leader and a follower, a session on it, and a process whose
    request reaches a replica; also what a client does not do as it says. *)
From S2P Require Import Prelude Hash Types Block Bytes SqlTypes Sanitizer Xenomint XenoProps XenoPool.
From S2P Require Import MetaState MetaView MetaTx Ledger LedgerRefine Sample.
From S2P Require Import Storage StorageProps Branch BranchProps ChainSample XenoSample WireSample.
From S2P Require Import AckIndex LevelDB SqlNode SqlBilling SqlChain SqlSample.
From S2P Require Import KayakWal Kayak Worker NodeInfo Dht Dbms WorkerSample Client ClientProps.
From Stdlib Require Import String ZArith Lia.
From stdpp Require Import base list gmap strings relations.
Local Open Scope Z_scope.

Definition sampleRand (n : nat) : Z := Z.of_nat n + 100.
Definition sampleDriver : Driver := MkDriver ∅ [] 0 sampleRand 0.
Definition noConn : conn := MkConn "" [] "" sampleKey false false None None.
Definition sampleConn : conn :=
  match (newConn 5 (MkConfig dbName true true false) (Ok ("client"%string, sampleKey)) (Ok minerProfile) None sampleDriver).1 with
  | Ok c => c | _ => noConn end.
Lemma sampleConn_targets : pc_target <$> cn_leader sampleConn = Some "the leader"%string ∧ pc_target <$> cn_follower sampleConn = Some "follower"%string.
Proof. split; vm_compute; reflexivity. Qed.

(** Every answer is an error. *)
Definition sampleClient : Client := MkClient sampleDriver sampleConn [] (λ _, inl (CErr.Remote "timeout")) (λ n, Z.of_nat n) 0 None.
Definition sampleSession : list sessionOp :=
  [DoExec false "INSERT 0" []; DoBegin; DoExec false "INSERT 1" []; DoExec false "INSERT 2" []; DoQuery false "SELECT" []; DoCommit;
   DoBegin; DoExec false "INSERT 3" []; DoRollback; DoQuery true "SELECT" []].

Lemma sample_signing c : signing c.
Proof. intros req. eexists. reflexivity. Qed.
Lemma sampleConn_usable : usable sampleConn.
Proof.
  split; [vm_compute; reflexivity|]. split; [left; eexists; vm_compute; reflexivity|].
  split; intros p Hp; [assert (pc_open <$> cn_leader sampleConn = Some true) as Ho by (vm_compute; reflexivity)
    |assert (pc_open <$> cn_follower sampleConn = Some true) as Ho by (vm_compute; reflexivity)]; rewrite Hp in Ho; by injection Ho.
Qed.

Lemma session_batches_witness :
  let k' := runSession sampleSession sampleClient in
  transaction (cl_conn k') = None ∧
  (λ s, (s.1, qu_Pattern <$> rq_Queries s.2)) <$> cl_sent k' =
    [("the leader", ["INSERT 0"]); ("the leader", ["INSERT 1"; "INSERT 2"]); ("follower", ["SELECT"])]%string ∧
  ∃ sent, sentFrom sampleConn 0 [(WriteQuery, [MkQuery "INSERT 0" []]); (WriteQuery, [MkQuery "INSERT 1" []; MkQuery "INSERT 2" []]);
    (ReadQuery, [MkQuery "SELECT" []])] sent 3.
Proof.
  pose proof (session_batches sampleSession sampleClient sampleConn_usable (sample_signing _)) as [Ht (sent & _ & Hs)].
  split; [exact Ht|]. split; [vm_compute; reflexivity|]. exists sent. exact Hs.
Defined.

(** A request of a process arrives at a replica. *)
Definition flightRequest : Request :=
  let r := MkRequest (MkRequestHeader WriteQuery "client" dbName 100 1 0 0 zeroHash) (MkHSV zeroHash None None) [MkQuery "INSERT 1" []] in
  match Request_Sign r sampleKey with Ok r => r | _ => r end.
Definition flightTraffic : traffic (C := XenoSample.conn) (D := sampleDB) :=
  MkTraffic (allocateConnAndSeq sampleDriver).2 [MkFlying 100 1 false] (sampleService "follower").
Lemma waiting_request_accepted_witness : (service_Check flightRequest (tf_service flightTraffic)).1 = None.
Proof.
  apply (waiting_request_accepted sampleRand (sampleService "follower") flightTraffic) with (f := MkFlying 100 1 false).
  - intros n m. unfold sampleRand. lia.
  - intros n. apply lookup_empty.
  - apply rtc_once. unfold flightTraffic. eapply travel_send; [done|reflexivity].
  - left.
  - reflexivity.
  - reflexivity.
  - reflexivity.
  - vm_compute. reflexivity.
  - vm_compute. split; discriminate.
Defined.

(** ** What a client does not do as it says *)

(** The receipt of a query is set although the query fails. *)
Definition failedReceipt (r : GoResult cerror (option rows) * Client) : bool :=
  match r with (Err (CErr.Remote _), k) => bool_decide (is_Some (cl_receipt k)) | _ => false end.
Lemma receipt_without_answer : failedReceipt (QueryContext true "SELECT" [] sampleClient) = true.
Proof. vm_compute. reflexivity. Qed.

(** The rollback of a transaction without statements is an error. *)
Lemma empty_rollback_fails : (Rollback (BeginTx sampleClient).2).1 = Err CErr.ErrTxDone.
Proof. vm_compute. reflexivity. Qed.

(** Closing a connection twice panics. *)
Lemma close_twice_panics : (Close (Close sampleClient).2).1 = Panic.
Proof. vm_compute. reflexivity. Qed.
