(* ===== verification/KeyFile.v ===== *)
(** * Ciphers, key files and the local keys

    Models [src/crypto/cipher.go] (the padding), [src/crypto/symmetric/aes.go], and
    [src/crypto/kms/privatekeystore.go] and [localkeystore.go]: password encryption, the
    file of the private key, encrypted with the master key, and the keys and the node id
    the process holds.  The block cipher, the hash, the curve, base58 and the random
    source are parameters; the chaining of blocks is that of the standard library. *)
From S2P Require Import Prelude Hash Pow.
From Stdlib Require Import String ZArith Lia.
From stdpp Require Import base list.
Local Open Scope Z_scope.

(** ** Blocks of sixteen bytes *)

Definition BlockSize : nat := 16.
(** [in[i*16 : (i+1)*16]] for every [i]. *)
Definition chunks (b : list Z) : list (list Z) :=
  (λ i, take BlockSize (drop (i * BlockSize) b)) <$> seq 0 (length b / BlockSize).

Lemma chunks_app c b : length c = BlockSize → chunks (c ++ b) = c :: chunks b.
Proof.
  intros Hc. unfold chunks. rewrite length_app, Hc.
  replace ((BlockSize + length b) / BlockSize)%nat with (S (length b / BlockSize)).
  2:{ replace (BlockSize + length b)%nat with (length b + 1 * BlockSize)%nat by lia. rewrite Nat.div_add by done. lia. }
  cbn [seq]. rewrite <- fmap_S_seq, fmap_cons, <- list_fmap_compose. f_equal.
  - rewrite Nat.mul_0_l, drop_0. rewrite <- Hc. apply take_app_length.
  - apply list_fmap_ext. intros i x _. unfold compose. f_equal.
    change (S x * BlockSize)%nat with (BlockSize + x * BlockSize)%nat. rewrite <- Hc at 1. by rewrite drop_app_add'.
Qed.

(** Data of whole blocks. *)
Lemma whole_ind (P : list Z → Prop) : P [] → (∀ c b, length c = BlockSize → (length b mod BlockSize = 0)%nat → P b → P (c ++ b)) →
  ∀ b, (length b mod BlockSize = 0)%nat → P b.
Proof.
  intros Hnil Happ b. remember (length b) as n eqn:Hn. revert b Hn. induction (lt_wf n) as [n _ IH]. intros b Hn Hmod.
  destruct (decide (n = 0)%nat) as [->|Hne]; [by destruct b|].
  assert (BlockSize <= n)%nat as Hle.
  { destruct (decide (n < BlockSize)%nat); [rewrite Nat.mod_small in Hmod by done; lia|lia]. }
  rewrite <- (take_drop BlockSize b).
  assert (length (drop BlockSize b) mod BlockSize = 0)%nat as Hm.
  { rewrite length_drop, <- Hn. replace n with (n - BlockSize + 1 * BlockSize)%nat in Hmod by lia. by rewrite Nat.Div0.mod_add in Hmod. }
  apply Happ; [rewrite length_take; lia|done|]. eapply IH; [|reflexivity|done]. rewrite length_drop. unfold BlockSize in *. lia.
Qed.
Lemma mjoin_cons {A} (c : list A) cs : mjoin (c :: cs) = c ++ mjoin cs.
Proof. done. Qed.
Lemma concat_chunks b : (length b mod BlockSize = 0)%nat → mjoin (chunks b) = b.
Proof. apply (whole_ind (λ b, mjoin (chunks b) = b)); [done|]. intros c b' Hc _ IH. rewrite chunks_app by done. by rewrite mjoin_cons, IH. Qed.
Lemma chunks_length b : (length b mod BlockSize = 0)%nat → Forall (λ c, length c = BlockSize) (chunks b).
Proof.
  apply (whole_ind (λ b, Forall (λ c, length c = BlockSize) (chunks b))); [constructor|].
  intros c b' Hc _ IH. rewrite chunks_app by done. by constructor.
Qed.
Lemma chunks_concat cs : Forall (λ c, length c = BlockSize) cs → chunks (mjoin cs) = cs ∧ length (mjoin cs) = (BlockSize * length cs)%nat.
Proof.
  induction 1 as [|c cs Hc _ [IH Hl]]; [done|]. rewrite mjoin_cons, chunks_app by done. rewrite IH, length_app, Hc, Hl. split; [done|unfold BlockSize; cbn [length]; lia].
Qed.

(** ** Padding *)

Definition AddPKCSPadding (src : list Z) : list Z :=
  let padding := (BlockSize - length src mod BlockSize)%nat in
  src ++ replicate padding (Z.of_nat padding).

Inductive cryptoError := errInvalidPadding | ErrInputSize | ErrNotKeyFile | ErrHashNotMatch | ErrInvalidBase58Version | ErrNilField
| ErrChecksum | PathError | NewCryptoError (msg : string).
(** The last byte of empty data is out of range. *)
Definition RemovePKCSPadding (src : list Z) : GoResult cryptoError (list Z) :=
  match last src with
  | None => Panic
  | Some p =>
      if decide (p > Z.of_nat BlockSize ∨ (length src < BlockSize)%nat) then Err errInvalidPadding
      else Ok (take (length src - Z.to_nat p) src)
  end.

Lemma padding_whole src : (length (AddPKCSPadding src) mod BlockSize = 0)%nat ∧ (BlockSize <= length (AddPKCSPadding src))%nat.
Proof.
  unfold AddPKCSPadding. rewrite length_app, length_replicate.
  pose proof (Nat.mod_upper_bound (length src) BlockSize ltac:(done)) as Hlt. pose proof (Nat.div_mod_eq (length src) BlockSize) as Heq.
  set (q := (length src / BlockSize)%nat) in *. set (r := (length src mod BlockSize)%nat) in *.
  replace (length src + (BlockSize - r))%nat with ((q + 1) * BlockSize)%nat by lia. split; [apply Nat.Div0.mod_mul|unfold BlockSize; lia].
Qed.
Lemma RemovePKCSPadding_Add src : RemovePKCSPadding (AddPKCSPadding src) = Ok src.
Proof.
  destruct (padding_whole src) as [_ Hle]. unfold RemovePKCSPadding. unfold AddPKCSPadding in *.
  pose proof (Nat.mod_upper_bound (length src) BlockSize ltac:(done)) as Hlt.
  set (p := (BlockSize - length src mod BlockSize)%nat) in *. assert (0 < p <= BlockSize)%nat as Hp by lia.
  assert (last (src ++ replicate p (Z.of_nat p)) = Some (Z.of_nat p)) as ->.
  { destruct p as [|p']; [lia|]. rewrite replicate_S_end, app_assoc. apply last_snoc. }
  rewrite decide_False by lia. f_equal. rewrite length_app, length_replicate, Nat2Z.id.
  replace (length src + p - p)%nat with (length src) by lia. apply take_app_length.
Qed.

(** ** Chained encryption *)

(** The cipher of [crypto/aes] under a key, and the hash of keys. *)
Class BlockCipher := {
  aes_Encrypt : list Z → list Z → list Z;
  aes_Decrypt : list Z → list Z → list Z;
  DoubleHashB : list Z → list Z;
  aes_Encrypt_block key b : length b = BlockSize → Forall is_byte b →
    length (aes_Encrypt key b) = BlockSize ∧ Forall is_byte (aes_Encrypt key b);
  aes_Decrypt_Encrypt key b : length b = BlockSize → Forall is_byte b → aes_Decrypt key (aes_Encrypt key b) = b;
}.

Definition xorBytes (a b : list Z) : list Z := zip_with Z.lxor a b.
Lemma is_byte_lxor a b : is_byte a → is_byte b → is_byte (Z.lxor a b).
Proof.
  unfold is_byte. intros Ha Hb. assert (0 <= Z.lxor a b) by (apply Z.lxor_nonneg; lia). split; [done|].
  destruct (decide (Z.lxor a b = 0)) as [->|Hne]; [lia|]. apply (Z.log2_lt_pow2 _ 8); [lia|].
  eapply Z.le_lt_trans; [apply Z.log2_lxor; lia|]. apply Z.max_lub_lt.
  - destruct (decide (a = 0)) as [->|]; [done|]. apply Z.log2_lt_pow2; lia.
  - destruct (decide (b = 0)) as [->|]; [done|]. apply Z.log2_lt_pow2; lia.
Qed.
Lemma xorBytes_block a b : length a = BlockSize → length b = BlockSize → Forall is_byte a → Forall is_byte b →
  length (xorBytes a b) = BlockSize ∧ Forall is_byte (xorBytes a b) ∧ xorBytes (xorBytes a b) b = a.
Proof.
  intros Ha Hb Fa Fb. unfold xorBytes. rewrite length_zip_with, Ha, Hb. split; [done|].
  rewrite <- Ha in Hb. clear Ha. revert b Hb Fb. induction Fa as [|x a Hx Fa IH]; intros b Hb Fb; [by destruct b|].
  destruct b as [|y b]; [done|]. apply Forall_cons in Fb as [Hy Fb]. destruct (IH b) as [F1 F2]; [by injection Hb|done|].
  cbn. split; [constructor; [by apply is_byte_lxor|done]|]. f_equal; [|done].
  by rewrite Z.lxor_assoc, Z.lxor_nilpotent, Z.lxor_0_r.
Qed.

Section passwords.
Context `{BlockCipher}.

(** [NewCBCEncrypter] and [NewCBCDecrypter], block by block. *)
Fixpoint cbcEncrypt (key prev : list Z) (blocks : list (list Z)) : list (list Z) :=
  match blocks with
  | [] => []
  | b :: blocks => let c := aes_Encrypt key (xorBytes b prev) in c :: cbcEncrypt key c blocks
  end.
Fixpoint cbcDecrypt (key prev : list Z) (blocks : list (list Z)) : list (list Z) :=
  match blocks with
  | [] => []
  | c :: blocks => xorBytes (aes_Decrypt key c) prev :: cbcDecrypt key c blocks
  end.

Definition KeyDerivation (password salt : list Z) : list Z := DoubleHashB (password ++ salt).
(** [iv] is read from the random source; [None] when that fails. *)
Definition EncryptWithPassword (iv : option (list Z)) (data password salt : list Z) : GoResult cryptoError (list Z) :=
  match iv with
  | None => Err (NewCryptoError "rand")
  | Some iv => Ok (iv ++ mjoin (cbcEncrypt (KeyDerivation password salt) iv (chunks (AddPKCSPadding data))))
  end.
Definition DecryptWithPassword (data password salt : list Z) : GoResult cryptoError (list Z) :=
  if decide (length data mod BlockSize ≠ 0 ∨ length data / BlockSize < 2)%nat then Err ErrInputSize
  else RemovePKCSPadding (mjoin (cbcDecrypt (KeyDerivation password salt) (take BlockSize data) (chunks (drop BlockSize data)))).

Definition isBlock (b : list Z) : Prop := length b = BlockSize ∧ Forall is_byte b.
Lemma cbc_roundtrip key prev blocks : isBlock prev → Forall isBlock blocks →
  Forall isBlock (cbcEncrypt key prev blocks) ∧ length (cbcEncrypt key prev blocks) = length blocks ∧
  cbcDecrypt key prev (cbcEncrypt key prev blocks) = blocks.
Proof.
  intros Hprev Hbs. revert prev Hprev. induction Hbs as [|b bs Hb _ IH]; intros prev Hprev; [done|]. cbn.
  destruct Hb as [Hb1 Hb2], Hprev as [Hp1 Hp2]. destruct (xorBytes_block b prev Hb1 Hp1 Hb2 Hp2) as (Hx1 & Hx2 & Hx3).
  destruct (aes_Encrypt_block key (xorBytes b prev) Hx1 Hx2) as [He1 He2].
  destruct (IH (aes_Encrypt key (xorBytes b prev))) as (H1' & H2' & H3'); [done|].
  split_and!; [by constructor|by f_equal|]. by rewrite aes_Decrypt_Encrypt, Hx3, H3'.
Qed.

Lemma chunks_blocks b : (length b mod BlockSize = 0)%nat → Forall is_byte b → Forall isBlock (chunks b).
Proof.
  intros Hm Hb. apply Forall_and. split; [by apply chunks_length|]. unfold chunks. apply Forall_fmap, Forall_true.
  intros i. cbn. by apply Forall_take, Forall_drop.
Qed.

(** What is encrypted with a password is decrypted with it. *)
Lemma password_roundtrip iv data password salt : isBlock iv → Forall is_byte data → ∃ enc,
  EncryptWithPassword (Some iv) data password salt = Ok enc ∧ DecryptWithPassword enc password salt = Ok data.
Proof.
  intros Hiv Hdata. eexists. split; [reflexivity|]. unfold DecryptWithPassword.
  destruct (padding_whole data) as [Hm Hle]. set (p := AddPKCSPadding data) in *. set (key := KeyDerivation password salt).
  assert (Forall is_byte p) as Hp.
  { unfold p, AddPKCSPadding. apply Forall_app. split; [done|]. apply Forall_replicate. unfold is_byte, BlockSize. lia. }
  destruct (cbc_roundtrip key iv (chunks p) Hiv (chunks_blocks p Hm Hp)) as (Hb & Hl & Hd). pose proof Hiv as [Hivl _].
  set (cs := cbcEncrypt key iv (chunks p)) in *.
  assert (Forall (λ c, length c = BlockSize) cs) as Hcs by (eapply Forall_impl; [exact Hb|]; by intros c [? _]).
  destruct (chunks_concat cs Hcs) as [Hch Hcl].
  assert (1 <= length cs)%nat as Hcs1.
  { rewrite Hl. unfold chunks. rewrite length_fmap, length_seq. apply Nat.div_le_lower_bound; [done|lia]. }
  rewrite decide_False.
  - rewrite <- Hivl at 1 2. rewrite take_app_length, drop_app_length, Hch, Hd, concat_chunks by done. apply RemovePKCSPadding_Add.
  - rewrite length_app, Hivl, Hcl. replace (BlockSize + BlockSize * length cs)%nat with ((1 + length cs) * BlockSize)%nat by lia.
    rewrite Nat.Div0.mod_mul, Nat.div_mul by done. lia.
Qed.
End passwords.

(** ** The key file *)

(** What base58 with a checksum reads. *)
Inductive decoded := Decoded (data : list Z) (version : Z) | BadChecksum | BadFormat.

Class KeyCodec (K P : Type) := {
  key_Serialize : K → list Z;
  PrivKeyFromBytes : list Z → K;
  key_Public : K → P;
  CheckEncode : list Z → Z → list Z;
  CheckDecode : list Z → decoded;
  key_Serialize_bytes k : length (key_Serialize k) = 32%nat ∧ Forall is_byte (key_Serialize k);
  PrivKeyFromBytes_Serialize k : PrivKeyFromBytes (key_Serialize k) = k;
  CheckDecode_Encode data version : CheckDecode (CheckEncode data version) = Decoded data version;
}.

Definition PrivateKeyStoreVersion : Z := 35.
Definition PrivateKeyBytesLen : nat := 32.
Definition HashBSize : nat := 32.
(** The bytes of the text auxten-key-salt-auxten. *)
Definition oldPrivateKDFSalt : list Z :=
  [97; 117; 120; 116; 101; 110; 45; 107; 101; 121; 45; 115; 97; 108; 116; 45; 97; 117; 120; 116; 101; 110].
Definition privateKDFSalt : list Z := [192; 78; 164; 113; 73; 101; 65; 49; 121; 75; 106; 112; 47; 57; 69; 67].

Section key_files.
Context `{BlockCipher} {K P : Type} `{!KeyCodec K P}.

(** ** The private key *)

(** The raw format is encrypted with the old salt and starts with a hash. *)
Definition decodeBinaryKey (encData masterKey : list Z) : GoResult cryptoError K :=
  result_bind (DecryptWithPassword encData masterKey oldPrivateKDFSalt) (λ decData,
    if decide (length decData ≠ HashBSize + PrivateKeyBytesLen)%nat then Err ErrNotKeyFile
    else if decide (DoubleHashB (drop HashBSize decData) ≠ take HashBSize decData) then Err ErrHashNotMatch
    else Ok (PrivKeyFromBytes (drop HashBSize decData))).
Definition DecodePrivateKey (keyBytes masterKey : list Z) : GoResult cryptoError K :=
  match CheckDecode keyBytes with
  | BadChecksum => Err ErrChecksum
  | BadFormat => decodeBinaryKey keyBytes masterKey
  | Decoded encData version =>
      if decide (version ≠ 0 ∧ version ≠ PrivateKeyStoreVersion) then Err ErrInvalidBase58Version
      else
        result_bind (DecryptWithPassword encData masterKey privateKDFSalt) (λ decData,
          if decide (length decData ≠ PrivateKeyBytesLen) then Err ErrNotKeyFile else Ok (PrivKeyFromBytes decData))
  end.
Definition EncodePrivateKey (iv : option (list Z)) (key : K) (masterKey : list Z) : GoResult cryptoError (list Z) :=
  result_bind (EncryptWithPassword iv (key_Serialize key) masterKey privateKDFSalt) (λ encKey,
    Ok (CheckEncode encKey PrivateKeyStoreVersion)).

Lemma EncodePrivateKey_Decode (iv : list Z) (key : K) (masterKey : list Z) : isBlock iv → ∃ b,
  EncodePrivateKey (Some iv) key masterKey = Ok b ∧ DecodePrivateKey b masterKey = Ok key.
Proof.
  intros Hiv. destruct (key_Serialize_bytes key) as [Hl Hb].
  destruct (password_roundtrip iv (key_Serialize key) masterKey privateKDFSalt Hiv Hb) as (enc & He & Hd).
  exists (CheckEncode enc PrivateKeyStoreVersion). unfold EncodePrivateKey. rewrite He. split; [done|].
  unfold DecodePrivateKey. rewrite CheckDecode_Encode, decide_False by naive_solver. rewrite Hd. cbn.
  rewrite decide_False by (unfold PrivateKeyBytesLen; lia). by rewrite PrivKeyFromBytes_Serialize.
Qed.

(** ** The local keys *)

Record LocalKeyStore := MkLocalKeyStore {
  lk_isSet : bool;
  lk_private : option K;
  lk_public : option P;
  lk_nodeID : option (list Z);
  lk_nodeNonce : option Uint256;
}.
Implicit Types (lk : LocalKeyStore).
Definition ResetLocalKeyStore : LocalKeyStore := MkLocalKeyStore false None None None None.
(** The first pair stays. *)
Definition SetLocalKeyPair (private : K) (public : P) lk : LocalKeyStore :=
  if lk_isSet lk then lk else MkLocalKeyStore true (Some private) (Some public) (lk_nodeID lk) (lk_nodeNonce lk).
Definition SetLocalNodeIDNonce (rawNodeID : list Z) (nonce : option Uint256) lk : LocalKeyStore :=
  MkLocalKeyStore (lk_isSet lk) (lk_private lk) (lk_public lk) (Some rawNodeID)
    (match nonce with Some n => Some n | None => lk_nodeNonce lk end).
Definition field {A} (o : option A) : GoResult cryptoError A := match o with Some a => Ok a | None => Err ErrNilField end.
Definition GetLocalNodeIDBytes lk : GoResult cryptoError (list Z) := field (lk_nodeID lk).
Definition GetLocalNodeID lk : GoResult cryptoError string :=
  result_bind (GetLocalNodeIDBytes lk) (λ b, match NewHash b with Ok h => Ok (Hash_String h) | Err _ => Err (NewCryptoError "hash") | Panic => Panic end).
Definition GetLocalNonce lk : GoResult cryptoError Uint256 := field (lk_nodeNonce lk).
Definition GetLocalPublicKey lk : GoResult cryptoError P := field (lk_public lk).
Definition GetLocalPrivateKey lk : GoResult cryptoError K := field (lk_private lk).

(** ** Start *)

(** The key file, if it can be read, and the keys of the process. *)
Record keyWorld := MkKeyWorld { kw_file : option (list Z); kw_local : LocalKeyStore }.
Implicit Types (w : keyWorld).

Definition LoadPrivateKey (masterKey : list Z) w : GoResult cryptoError K :=
  match kw_file w with None => Err PathError | Some b => DecodePrivateKey b masterKey end.
(** [written] is the error of the writing. *)
Definition SavePrivateKey (iv : option (list Z)) (written : option cryptoError) (key : K) (masterKey : list Z) w
    : GoResult cryptoError unit * keyWorld :=
  match EncodePrivateKey iv key masterKey with
  | Ok b => match written with Some e => (Err e, w) | None => (Ok tt, MkKeyWorld (Some b) (kw_local w)) end
  | Err e => (Err e, w)
  | Panic => (Panic, w)
  end.

(** [InitLocalKeyPair]: [generate] is the setting, [fresh] the new key pair. *)
Definition InitLocalKeyPair (generate : bool) (fresh : GoResult cryptoError (K * P)) (iv : option (list Z)) (written : option cryptoError)
    (masterKey : list Z) : GoM keyWorld cryptoError unit :=
  w ← getS;
  res ← attempt (liftR (LoadPrivateKey masterKey w));
  '(private, public) ← (match res with
    | inr private => mret (private, key_Public private)
    | inl PathError =>
        if generate then
          '(private, public) ← liftR fresh;
          SavePrivateKey iv written private masterKey;;
          mret (private, public)
        else throw PathError
    | inl e => throw e
    end);
  modifyS (λ w, MkKeyWorld (kw_file w) (SetLocalKeyPair private public (kw_local w))).

(** C25: A key survives a restart.  A process that finds no key file and may generate a
    key writes the new key to the file and holds it; every later process with the same
    master key, whatever its settings, its random source or its file system do, reads
    the same key from the file, holds it, and leaves the file alone. *)
Theorem key_file_restart (iv : list Z) (key : K) (masterKey : list Z) w : isBlock iv → kw_file w = None → lk_isSet (kw_local w) = false →
  let '(r, w') := InitLocalKeyPair true (Ok (key, key_Public key)) (Some iv) None masterKey w in
  r = Ok tt ∧ GetLocalPrivateKey (kw_local w') = Ok key ∧ GetLocalPublicKey (kw_local w') = Ok (key_Public key) ∧
  ∀ generate fresh iv' written,
    let '(r2, w2) := InitLocalKeyPair generate fresh iv' written masterKey (MkKeyWorld (kw_file w') ResetLocalKeyStore) in
    r2 = Ok tt ∧ GetLocalPrivateKey (kw_local w2) = Ok key ∧ kw_file w2 = kw_file w'.
Proof.
  intros Hiv Hf Hs. unfold InitLocalKeyPair at 1, LoadPrivateKey. go_unfold. rewrite Hf. go_unfold. unfold SavePrivateKey.
  destruct (EncodePrivateKey_Decode iv key masterKey Hiv) as (b & He & Hd). rewrite He. go_unfold. cbn [kw_file kw_local].
  unfold SetLocalKeyPair at 1 2. rewrite Hs. split_and!; [done..|]. intros generate fresh iv' written.
  unfold InitLocalKeyPair, LoadPrivateKey. go_unfold. cbn [kw_file]. rewrite Hd. go_unfold. done.
Qed.
End key_files.
