(* ===== verification/Seed.v ===== *)
(** * Block producers from a DNS seed

    Models [src/route/ipv6.go] and [ipv6seed.go]: the identity of a block producer is
    cut into IPv6 addresses, which DNS serves under numbered names, and is read back
    from there.  A name is its number and its domain; [lookup] is what the DNS answers
    to an attempt.  The lookups of a group run in goroutines that write to places of
    their own. *)
From S2P Require Import Prelude Hash Types Bytes Pow NodeInfo Sample KeyFile.
From Stdlib Require Import String Ascii ZArith Lia.
From stdpp Require Import base list gmap strings.
Local Open Scope Z_scope.

Inductive seedError :=
| NotWholeAddresses | EmptyIPList | UnexpectedIP (ip : list Z) | LookupError (msg : string)
| KeyBytesLen (n : nat) | ErrBytesLen | OfCrypto (e : cryptoError) | OfHash (e : HashError).

Definition IPv6len : nat := BlockSize.

(** ** Bytes in addresses *)

Definition ToIPv6 (b : list Z) : GoResult seedError (list (list Z)) :=
  if decide (length b mod IPv6len ≠ 0)%nat then Err NotWholeAddresses else Ok (chunks b).
(** [copy] into sixteen zero bytes. *)
Definition FromIPv6 (ips : list (list Z)) : list Z := mjoin ((λ ip, take IPv6len (ip ++ replicate IPv6len 0)) <$> ips).

(** ** Lookups *)

Definition concurrentNum : nat := 5.
Definition retryCount : nat := 3.

(** What a host answers to an attempt. *)
Abbreviation answer := (seedError + list (list Z))%type.

(** The attempts of one name: the first answer, and the last error before it. *)
Fixpoint attempts (f : nat → answer) (rs : list nat) : option (list (list Z)) * option seedError :=
  match rs with
  | [] => (None, None)
  | r :: rs =>
      match f r with
      | inr ips => (Some ips, None)
      | inl e => let '(o, e') := attempts f rs in (o, Some (default e e'))
      end
  end.
Definition host (f : nat → nat → answer) (index : nat) : option (list (list Z)) * option seedError := attempts (f index) (seq 0 retryCount).

(** The first addresses of the answers at the places below the number of successes. *)
Fixpoint collect (i successCount : nat) (ipsArray : list (option (list (list Z)))) : GoResult seedError (list (list Z)) :=
  match ipsArray with
  | [] => Ok []
  | ips :: ipsArray =>
      if decide (i < successCount)%nat then
        match default [] ips with
        | [] => Err EmptyIPList
        | ip :: _ =>
            if decide (length ip ≠ IPv6len) then Err (UnexpectedIP ip)
            else result_bind (collect (S i) successCount ipsArray) (λ l, Ok (ip :: l))
        end
      else collect (S i) successCount ipsArray
  end.

(** Groups of names until one is not answered; [None] when [fuel] groups are. *)
Fixpoint groups (fuel i : nat) (f : nat → nat → answer) (allIPv6 : list (list Z)) : option (GoResult seedError (list (list Z))) :=
  match fuel with
  | O => None
  | S fuel =>
      let ipsArray := (λ j, (host f (i * concurrentNum + j)).1) <$> seq 0 concurrentNum in
      let successCount := length (omap id ipsArray) in
      match collect 0 successCount ipsArray with
      | Ok l =>
          match allIPv6 ++ l with
          | [] => Some (Err (default EmptyIPList (host f 0).2))
          | allIPv6 => if decide (successCount < concurrentNum)%nat then Some (Ok allIPv6) else groups fuel (S i) f allIPv6
          end
      | Err e => Some (Err e)
      | Panic => Some Panic
      end
  end.
Definition FromDomain (fuel : nat) (f : nat → nat → answer) : option (GoResult seedError (list Z)) :=
  match groups fuel 0 f [] with
  | Some (Ok ips) => Some (Ok (FromIPv6 ips))
  | Some (Err e) => Some (Err e)
  | Some Panic => Some Panic
  | None => None
  end.

(** ** The seed *)

(** Parsing a public key; [zeroKey] is the key a failed parse leaves, because the
    error is assigned to a shadowed variable. *)
Class SeedEnv `{Env} := {
  ParsePubKey : list Z → option PublicKey;
  zeroKey : PublicKey;
  ParsePubKey_Serialize k : ParsePubKey (pub_Serialize k) = Some k;
  pub_Serialize_length k : length (pub_Serialize k) = 33%nat;
}.

Definition PublicKeyBytesLen : nat := 33.
Definition PublicKeyFormatHeader : Z := 2.
Definition ID : string := "id.".
Definition PUBKEY : string := "pub.".
Definition NONCE : string := "n.".
Definition ADDR : string := "addr.".

Section seed.
Context `{SeedEnv}.

Definition UnmarshalBinary (b : list Z) : PublicKey := default zeroKey (ParsePubKey b).

Definition ofCrypto {A} (r : GoResult cryptoError A) : GoResult seedError A :=
  match r with Ok a => Ok a | Err e => Err (OfCrypto e) | Panic => Panic end.

(** The public key of 32 bytes without its header, or of 48 padded bytes. *)
Definition pubKeyBytes (pubBuf : list Z) : GoResult seedError (list Z) :=
  if decide (length pubBuf = PublicKeyBytesLen - 1)%nat then Ok (PublicKeyFormatHeader :: pubBuf)
  else if decide (length pubBuf = 48)%nat then ofCrypto (RemovePKCSPadding pubBuf)
  else Err (KeyBytesLen (length pubBuf)).

(** [GetBPFromDNSSeed]: the raw id and the node. *)
Definition seedNode (pubBuf nonceBuf addrBuf nodeIDBuf : list Z) : GoResult seedError (Hash * Node) :=
  result_bind (pubKeyBytes pubBuf) (λ keyBuf,
    match Uint256FromBytes nonceBuf with
    | None => Err ErrBytesLen
    | Some nonce =>
        result_bind (ofCrypto (RemovePKCSPadding addrBuf)) (λ addrBytes,
          match Hash_SetBytes nodeIDBuf with
          | Ok id => Ok (id, MkNode (ToNodeID (Some id)) Role_Unknown (bytes_string addrBytes) "" (Some (UnmarshalBinary keyBuf)) nonce)
          | Err e => Err (OfHash e)
          | Panic => Panic
          end)
    end).
Definition GetBPFromDNSSeed (fuel : nat) (lookup : string → nat → nat → answer) (BPDomain : string) : option (GoResult seedError (Hash * Node)) :=
  match FromDomain fuel (lookup (PUBKEY +:+ BPDomain)), FromDomain fuel (lookup (NONCE +:+ BPDomain)),
        FromDomain fuel (lookup (ADDR +:+ BPDomain)), FromDomain fuel (lookup (ID +:+ BPDomain)) with
  | Some pub, Some nonce, Some addr, Some id =>
      Some (result_bind pub (λ pubBuf, result_bind nonce (λ nonceBuf, result_bind addr (λ addrBuf, result_bind id (λ idBuf,
        seedNode pubBuf nonceBuf addrBuf idBuf)))))
  | _, _, _, _ => None
  end.

(** [net.IP.String]: an address that is an IPv4 address mapped to IPv6, ten zero bytes
    and two of 0xff in front of it, is printed as a dotted quad, every other one in
    hexadecimal groups. *)
Inductive ipText := DottedQuad (b : list Z) | Hextets (b : list Z).
Definition IP_String (ip : list Z) : ipText :=
  if decide (take 12 ip = replicate 10 0 ++ [255; 255]) then DottedQuad (drop 12 ip) else Hextets ip.

(** A line of the zone: domain, number and the text of the address. *)
Record line := MkLine { ln_domain : string; ln_index : nat; ln_ip : ipText }.
Definition linesOf (domain : string) (b : list Z) : GoResult seedError (list line) :=
  result_bind (ToIPv6 b) (λ ips, Ok (imap (λ i ip, MkLine domain i (IP_String ip)) ips)).
(** A node without an id or a key is dereferenced. *)
Definition GenBPIPv6 (node : Node) (domain : string) : GoResult seedError (list line) :=
  match ToRawNodeID (nd_ID node), nd_PublicKey node with
  | Some id, Some key =>
      result_bind (linesOf (ID +:+ domain) id) (λ l1,
      result_bind (linesOf (PUBKEY +:+ domain) (AddPKCSPadding (pub_Serialize key))) (λ l2,
      result_bind (linesOf (NONCE +:+ domain) (Uint256_Bytes (nd_Nonce node))) (λ l3,
      result_bind (linesOf (ADDR +:+ domain) (AddPKCSPadding (string_bytes (nd_Addr node)))) (λ l4,
        Ok (l1 ++ l2 ++ l3 ++ l4)))))
  | _, _ => Panic
  end.
End seed.

(** ** Reading a domain back *)

(** A name that exists is answered within three attempts, and no other is. *)
Definition served (f : nat → nat → answer) (index : nat) (o : option (list Z)) : Prop :=
  match o with
  | Some ip => ∃ r rest, (r < retryCount)%nat ∧ f index r = inr (ip :: rest) ∧ ∀ r', (r' < r)%nat → ∃ e, f index r' = inl e
  | None => ∀ r, (r < retryCount)%nat → ∃ e, f index r = inl e
  end.
Definition serves (f : nat → nat → answer) (ips : list (list Z)) : Prop := ∀ index, served f index (ips !! index).

Lemma attempts_first f n r ips k : (∀ r', (k <= r' < r)%nat → ∃ e, f r' = inl e) → f r = inr ips → (k <= r < k + n)%nat →
  (attempts f (seq k n)).1 = Some ips.
Proof.
  revert k. induction n as [|n IH]; intros k Hbefore Hr Hk; [lia|]. cbn. destruct (decide (k = r)) as [->|Hne]; [by rewrite Hr|].
  destruct (Hbefore k ltac:(lia)) as [e He]. rewrite He. specialize (IH (S k)).
  destruct (attempts f (seq (S k) n)) as [o e']. apply IH; [|done|lia]. intros r' Hr'. apply Hbefore. lia.
Qed.
Lemma attempts_none f rs : (∀ r, r ∈ rs → ∃ e, f r = inl e) → (attempts f rs).1 = None.
Proof.
  induction rs as [|r rs IH]; intros Hall; [done|]. cbn. destruct (Hall r) as [e He]; [by left|]. rewrite He.
  destruct (attempts f rs) as [o e']. cbn in *. apply IH. intros r' Hr'. apply Hall. by right.
Qed.
Lemma host_serves f ips index : serves f ips →
  match ips !! index with Some ip => ∃ rest, (host f index).1 = Some (ip :: rest) | None => (host f index).1 = None end.
Proof.
  intros Hs. specialize (Hs index). unfold served in Hs. unfold host. destruct (ips !! index) as [ip|].
  - destruct Hs as (r & rest & Hr & Hf & Hb). exists rest. eapply attempts_first; [|exact Hf|unfold retryCount in *; lia].
    intros r' Hr'. apply Hb. lia.
  - apply attempts_none. intros r Hr%elem_of_seq. apply Hs. unfold retryCount in *. lia.
Qed.

(** Answers at the first places only. *)
Lemma collect_prefix i (ips : list (list Z)) arr m : Forall (λ ip, length ip = IPv6len) ips →
  Forall2 (λ ip o, ∃ rest, o = Some (ip :: rest)) ips arr →
  collect i (i + length ips) (arr ++ replicate m None) = Ok ips.
Proof.
  intros Hlen Hall. revert i Hlen. induction Hall as [|ip o ips arr [rest ->] _ IH]; intros i Hlen.
  - cbn. rewrite Nat.add_0_r. clear. revert i. induction m as [|m IH]; intros i; [done|]. cbn. rewrite decide_False by lia.
    assert (∀ s k n, (s <= k)%nat → collect k s (replicate n None) = Ok []) as Hg.
    { intros s k n. revert k. induction n as [|n IHn]; intros k Hk; [done|]. cbn. rewrite decide_False by lia. apply IHn. lia. }
    apply Hg. lia.
  - apply Forall_cons in Hlen as [Hip Hlen]. cbn [app collect length]. rewrite decide_True by lia.
    change (default [] (Some (ip :: rest))) with (ip :: rest). cbn iota.
    rewrite decide_False by (intros Hn; done). replace (i + S (length ips))%nat with (S i + length ips)%nat by lia.
    by rewrite IH.
Qed.
Lemma prefix_successes (ips : list (list Z)) arr m : Forall2 (λ ip o, ∃ rest, o = Some (ip :: rest)) ips arr →
  length (omap id (arr ++ replicate m (None : option (list (list Z))))) = length ips.
Proof.
  induction 1 as [|ip o ips arr [rest ->] _ IH]; cbn; [|by rewrite IH]. induction m as [|m IH]; [done|exact IH].
Qed.

(** One group: the addresses of the group, and how many there are. *)
Lemma group_serves f ips i : serves f ips → Forall (λ ip, length ip = IPv6len) ips →
  let arr := (λ j, (host f (i * concurrentNum + j)).1) <$> seq 0 concurrentNum in
  let part := take concurrentNum (drop (i * concurrentNum) ips) in
  length (omap id arr) = length part ∧ collect 0 (length (omap id arr)) arr = Ok part.
Proof.
  intros Hs Hlen arr part.
  assert (length part = concurrentNum `min` (length ips - i * concurrentNum))%nat as Hp by (unfold part; by rewrite length_take, length_drop).
  assert (∃ arr', arr = arr' ++ replicate (concurrentNum - length part) None ∧ Forall2 (λ ip o, ∃ rest, o = Some (ip :: rest)) part arr')
    as (arr' & Harr & Hall).
  { exists (take (length part) arr). split.
    - rewrite <- (take_drop (length part) arr) at 1. f_equal. apply list_eq. intros j. rewrite lookup_drop.
      unfold arr. rewrite list_lookup_fmap. destruct (decide (j < concurrentNum - length part)%nat) as [Hj|Hj].
      + rewrite lookup_seq_lt by lia. rewrite lookup_replicate_2 by lia. rewrite Nat.add_0_l.
        change (Some (host f (i * concurrentNum + (length part + j))).1 = Some None). f_equal.
        pose proof (host_serves f ips (i * concurrentNum + (length part + j)) Hs) as Hh.
        assert (ips !! (i * concurrentNum + (length part + j))%nat = None) as Hnone.
        { apply lookup_ge_None. lia. }
        by rewrite Hnone in Hh.
      + rewrite (proj2 (lookup_ge_None (seq 0 concurrentNum) _)) by (rewrite length_seq; lia). trans (None : option (option (list (list Z)))); [done|]. symmetry. apply lookup_ge_None. rewrite length_replicate. lia.
    - apply Forall2_same_length_lookup_2.
      + unfold arr. rewrite length_take, length_fmap, length_seq. unfold part. rewrite length_take. lia.
      + intros j ip o Hip Ho. unfold part in Hip. apply lookup_take_Some in Hip as [Hip Hj]. rewrite lookup_drop in Hip.
        apply lookup_take_Some in Ho as [Ho _]. unfold arr in Ho. rewrite list_lookup_fmap, lookup_seq_lt in Ho by done. cbn in Ho. injection Ho as <-.
        pose proof (host_serves f ips (i * concurrentNum + j) Hs) as Hh. rewrite Hip in Hh. exact Hh. }
  assert (length (omap id arr) = length part) as Hc by (rewrite Harr; by apply prefix_successes).
  split; [done|]. rewrite Hc, Harr. apply (collect_prefix 0); [|done]. unfold part. by apply Forall_take, Forall_drop.
Qed.

Lemma groups_serves f ips fuel i : serves f ips → Forall (λ ip, length ip = IPv6len) ips → ips ≠ [] →
  (i * concurrentNum <= length ips < (i + fuel) * concurrentNum)%nat →
  groups fuel i f (take (i * concurrentNum) ips) = Some (Ok ips).
Proof.
  intros Hs Hlen Hne. revert i. induction fuel as [|fuel IH]; intros i Hi; [lia|]. cbn [groups].
  destruct (group_serves f ips i Hs Hlen) as [Hc Hcol]. cbn zeta in Hc, Hcol. rewrite Hcol, Hc.
  assert (take (i * concurrentNum) ips ++ take concurrentNum (drop (i * concurrentNum) ips) = take (S i * concurrentNum) ips) as Happ.
  { change (S i * concurrentNum)%nat with (concurrentNum + i * concurrentNum)%nat. rewrite Nat.add_comm, take_take_drop. done. }
  rewrite Happ. assert (take (S i * concurrentNum) ips ≠ []) as Hne'.
  { destruct ips; [done|]. unfold concurrentNum. done. }
  destruct (take (S i * concurrentNum) ips) as [|ip l] eqn:Ht; [done|]. rewrite <- Ht.
  rewrite length_take, length_drop. case_decide as Hlt.
  - do 2 f_equal. apply take_ge. lia.
  - apply IH. lia.
Qed.

(** The addresses that are served come back as one string of bytes. *)
Lemma FromDomain_serves f b fuel : (length b mod IPv6len = 0)%nat → b ≠ [] → serves f (chunks b) →
  (length b / IPv6len < fuel * concurrentNum)%nat → FromDomain fuel f = Some (Ok b).
Proof.
  intros Hm Hne Hs Hfuel. unfold FromDomain.
  pose proof (chunks_length b Hm) as Hlen. assert (length (chunks b) = length b / IPv6len)%nat as Hcl.
  { unfold chunks. by rewrite length_fmap, length_seq. }
  assert (chunks b ≠ []) as Hcne.
  { intros Hnil. apply Hne. rewrite <- (concat_chunks b Hm), Hnil. done. }
  pose proof (groups_serves f (chunks b) fuel 0 Hs Hlen Hcne) as Hg. change (take (0 * concurrentNum) (chunks b)) with (@nil (list Z)) in Hg. rewrite Hg by (rewrite Hcl; lia).
  do 2 f_equal. unfold FromIPv6. rewrite <- (concat_chunks b Hm) at 2. f_equal. clear -Hlen.
  induction Hlen as [|ip ips Hip _ IH]; [done|]. rewrite fmap_cons. f_equal; [|exact IH]. unfold IPv6len. rewrite <- Hip. apply take_app_length.
Qed.

(** ** The zone *)

(** The records of a zone.  A dotted quad is no value of an AAAA record: a zone with
    such a line cannot be loaded. *)
Record AAAA := MkAAAA { rr_domain : string; rr_index : nat; rr_ip : list Z }.
Definition readLine (l : line) : option AAAA :=
  match ln_ip l with Hextets ip => Some (MkAAAA (ln_domain l) (ln_index l) ip) | DottedQuad _ => None end.
Definition readZone (lines : list line) : option (list AAAA) := mapM readLine lines.

(** The address of a name in the zone, and a DNS that has loaded the zone and answers
    from it. *)
Definition zoneLookup (zone : list AAAA) (domain : string) (index : nat) : option (list Z) :=
  rr_ip <$> list.head (filter (λ l, rr_domain l = domain ∧ rr_index l = index) zone).
Definition zoneServes (lookup : string → nat → nat → answer) (lines : list line) : Prop :=
  ∃ zone, readZone lines = Some zone ∧ ∀ domain index, served (lookup domain) index (zoneLookup zone domain index).

Definition printAAAA (r : AAAA) : line := MkLine (rr_domain r) (rr_index r) (IP_String (rr_ip r)).
Lemma readLine_print r : readLine (printAAAA r) = Some r ∨ readLine (printAAAA r) = None.
Proof. unfold readLine, printAAAA, IP_String. cbn [ln_ip ln_domain ln_index]. destruct r. case_decide; auto. Qed.
Lemma readZone_print zone zone' : readZone (printAAAA <$> zone) = Some zone' → zone' = zone.
Proof.
  unfold readZone. revert zone'. induction zone as [|r zone IH]; intros zone' Hz; [by injection Hz as <-|].
  apply mapM_Some_1, Forall2_cons_inv_l in Hz as (r' & zone1 & Hr & Hz%mapM_Some_2 & ->).
  rewrite (IH zone1 Hz). destruct (readLine_print r); congruence.
Qed.

Lemma zone_other lines lines' domain index : Forall (λ l, rr_domain l ≠ domain) lines →
  zoneLookup (lines ++ lines') domain index = zoneLookup lines' domain index.
Proof.
  intros Hl. unfold zoneLookup. rewrite filter_app. replace (filter _ lines) with (@nil AAAA); [done|]. symmetry.
  induction Hl as [|l lines Hne _ IH]; [done|]. rewrite filter_cons_False; [done|]. by intros [? _].
Qed.
Lemma zone_imap k ips lines domain index : Forall (λ l, rr_domain l ≠ domain) lines →
  zoneLookup (imap (λ i, MkAAAA domain (k + i)) ips ++ lines) domain (k + index) = ips !! index.
Proof.
  intros Hl. revert k index. induction ips as [|ip ips IH]; intros k index.
  - cbn [imap app]. rewrite <- (app_nil_r lines). by rewrite zone_other.
  - rewrite imap_cons. cbn [app]. unfold zoneLookup. destruct index as [|index].
    + by rewrite filter_cons_True by done.
    + rewrite filter_cons_False by (cbn; intros [_ ?]; lia). specialize (IH (S k) index).
      change ((ip :: ips) !! S index) with (ips !! index). rewrite <- IH. unfold zoneLookup. replace (S k + index)%nat with (k + S index)%nat by lia. do 4 f_equal.
      apply imap_ext. intros i x _. cbn. f_equal. lia.
Qed.

Lemma bytes_string_bytes s : bytes_string (string_bytes s) = s.
Proof.
  unfold bytes_string, string_bytes. rewrite <- list_fmap_compose. rewrite <- (String.string_of_list_ascii_of_string s) at 2. f_equal.
  generalize (String.list_ascii_of_string s). intros l. induction l as [|c l IH]; [done|]. rewrite fmap_cons. f_equal; [|exact IH].
  cbn. by rewrite N2Z.id, ascii_N_embedding.
Qed.
Lemma linesOf_whole domain b : (length b mod IPv6len = 0)%nat → linesOf domain b = Ok (printAAAA <$> imap (MkAAAA domain) (chunks b)).
Proof. intros Hm. unfold linesOf, ToIPv6. rewrite decide_False by (intros Hn; done). cbn [result_bind]. by rewrite fmap_imap. Qed.
Lemma imap_domain d domain ips : d ≠ domain → Forall (λ l, rr_domain l ≠ domain) (imap (MkAAAA d) ips).
Proof.
  intros Hne. apply Forall_lookup. intros i l Hl. rewrite list_lookup_imap in Hl. apply fmap_Some in Hl as (ip & _ & ->). exact Hne.
Qed.
(** The bytes of one domain of the zone, whatever lines come before and after. *)
Lemma zone_FromDomain lookup lines1 lines2 domain b fuel : (length b mod IPv6len = 0)%nat → b ≠ [] →
  Forall (λ l, rr_domain l ≠ domain) lines1 → Forall (λ l, rr_domain l ≠ domain) lines2 →
  (∀ domain' index, served (lookup domain') index (zoneLookup (lines1 ++ imap (MkAAAA domain) (chunks b) ++ lines2) domain' index)) →
  (length (lines1 ++ imap (MkAAAA domain) (chunks b) ++ lines2) < fuel * concurrentNum)%nat →
  FromDomain fuel (lookup domain) = Some (Ok b).
Proof.
  intros Hm Hne H1l H2l Hs Hfuel. apply FromDomain_serves; [done..| |].
  - intros index. specialize (Hs domain index). rewrite zone_other in Hs by done.
    assert (zoneLookup (imap (MkAAAA domain) (chunks b) ++ lines2) domain index = chunks b !! index) as Hz
      by exact (zone_imap 0 (chunks b) lines2 domain index H2l).
    by rewrite Hz in Hs.
  - rewrite !length_app, length_imap in Hfuel. unfold chunks in Hfuel. rewrite length_fmap, length_seq in Hfuel.
    unfold IPv6len. lia.
Qed.

(** The conditions of [zone_FromDomain]: whole addresses, other domains, the zone. *)
Ltac zone_side :=
  match goal with
  | |- Forall _ _ => repeat (apply Forall_app; split); first [by apply Forall_nil|by apply imap_domain]
  | |- (_ mod _ = 0)%nat => first [done|by repeat match goal with Hz : length _ = _ |- _ => rewrite Hz; clear Hz end]
  | |- _ ≠ [] => let Hz := fresh in intros Hz; apply (f_equal length) in Hz; cbn [length] in Hz; unfold BlockSize, HashSize in *; lia
  | |- _ => by rewrite ?app_nil_r, <- ?app_assoc
  end.

Section roundtrip.
Context `{SeedEnv}.

(** C26: An identity published in DNS is read back.  For a node with a printed id, a key
    and a 256-bit nonce the zone is generated, and a client that asks a DNS that has
    loaded the zone (none of its addresses is printed as a dotted quad), and that
    answers every name of the zone within three attempts, and no name outside it,
    gets exactly the raw id, the id, the address, the key and the nonce of the node,
    after at most as many groups of five lookups as the zone has lines. *)
Theorem seed_roundtrip (node : Node) (id : Hash) (key : PublicKey) (domain : string) :
  valid_hash id → nd_ID node = Hash_String id → nd_PublicKey node = Some key → wf_Uint256 (nd_Nonce node) →
  ∃ lines, GenBPIPv6 node domain = Ok lines ∧
  ∀ lookup fuel, zoneServes lookup lines → (length lines < fuel * concurrentNum)%nat →
    GetBPFromDNSSeed fuel lookup domain =
      Some (Ok (id, MkNode (nd_ID node) Role_Unknown (nd_Addr node) "" (Some key) (nd_Nonce node))).
Proof.
  intros Hid Hnid Hkey Hnonce.
  assert (ToRawNodeID (nd_ID node) = Some id) as Hraw by (unfold ToRawNodeID, NewHashFromStr; by rewrite Hnid, Decode_Hash_String).
  pose proof Hid as [Hidl _].
  assert (length (Uint256_Bytes (nd_Nonce node)) = 32%nat) as Hnl.
  { unfold Uint256_Bytes. rewrite !length_app, !length_putBE. done. }
  pose proof (padding_whole (pub_Serialize key)) as [Hpm Hple]. pose proof (padding_whole (string_bytes (nd_Addr node))) as [Ham Hale].
  unfold GenBPIPv6. rewrite Hraw, Hkey. rewrite !linesOf_whole by (try done; rewrite ?Hidl, ?Hnl; done). cbn [result_bind].
  rewrite <- !fmap_app. eexists. split; [reflexivity|]. intros lookup fuel (zone & Hzone%readZone_print & Hs) Hfuel. subst zone.
  rewrite length_fmap in Hfuel. unfold GetBPFromDNSSeed.
  set (idLines := imap (MkAAAA (ID +:+ domain)) _) in *. set (pubLines := imap (MkAAAA (PUBKEY +:+ domain)) _) in *.
  set (nonceLines := imap (MkAAAA (NONCE +:+ domain)) _) in *. set (addrLines := imap (MkAAAA (ADDR +:+ domain)) _) in *.
  rewrite (zone_FromDomain lookup idLines (nonceLines ++ addrLines) (PUBKEY +:+ domain) (AddPKCSPadding (pub_Serialize key))); [|zone_side..].
  rewrite (zone_FromDomain lookup (idLines ++ pubLines) addrLines (NONCE +:+ domain) (Uint256_Bytes (nd_Nonce node))); [|zone_side..].
  rewrite (zone_FromDomain lookup (idLines ++ pubLines ++ nonceLines) [] (ADDR +:+ domain) (AddPKCSPadding (string_bytes (nd_Addr node)))); [|zone_side..].
  rewrite (zone_FromDomain lookup [] (pubLines ++ nonceLines ++ addrLines) (ID +:+ domain) id); [|zone_side..].
  cbn [result_bind]. unfold seedNode, pubKeyBytes.
  assert (length (AddPKCSPadding (pub_Serialize key)) = 48%nat) as Hp48.
  { unfold AddPKCSPadding. by rewrite length_app, length_replicate, pub_Serialize_length. }
  rewrite decide_False by (rewrite Hp48; done). rewrite decide_True by done. rewrite !RemovePKCSPadding_Add. cbn [ofCrypto result_bind].
  rewrite Uint256FromBytes_Bytes by done. cbn [result_bind]. unfold Hash_SetBytes. rewrite decide_True by done.
  unfold UnmarshalBinary. rewrite ParsePubKey_Serialize, bytes_string_bytes. by rewrite Hnid.
Qed.
End roundtrip.

(** * Concrete key files and DNS seeds

    A cipher that masks every byte with the sum of its key, keys of one byte in front of
    zeros, a DNS that fails every first attempt, and runs of the theorems about key
    files and seeds; also the domains and the keys that are read wrongly. *)

(** ** The key file *)

Definition mask (key : list Z) : Z := foldr Z.add 0 key mod 256.
Definition maskBytes (key b : list Z) : list Z := (λ z, Z.lxor z (mask key)) <$> b.

Lemma mask_byte key : is_byte (mask key).
Proof. apply Z.mod_pos_bound. done. Qed.
Lemma maskBytes_block key b : length b = BlockSize → Forall is_byte b →
  length (maskBytes key b) = BlockSize ∧ Forall is_byte (maskBytes key b).
Proof.
  intros Hl Hb. unfold maskBytes. rewrite length_fmap. split; [done|]. apply Forall_fmap. eapply Forall_impl; [exact Hb|].
  intros z Hz. apply is_byte_lxor; [done|apply mask_byte].
Qed.
Lemma maskBytes_twice key b : maskBytes key (maskBytes key b) = b.
Proof.
  unfold maskBytes. induction b as [|z b IH]; [done|]. rewrite !fmap_cons, IH. f_equal.
  by rewrite Z.lxor_assoc, Z.lxor_nilpotent, Z.lxor_0_r.
Qed.

#[export] Instance maskCipher : BlockCipher := {|
  aes_Encrypt := maskBytes;
  aes_Decrypt := maskBytes;
  DoubleHashB := firstBytes;
  aes_Encrypt_block := maskBytes_block;
  aes_Decrypt_Encrypt := λ key b _ _, maskBytes_twice key b;
|}.

Definition byteKey (c : ascii) : list Z := Z.of_N (N_of_ascii c) :: replicate 31 0.
Lemma byteKey_bytes c : length (byteKey c) = 32%nat ∧ Forall is_byte (byteKey c).
Proof.
  split; [done|]. apply Forall_cons. split; [|by apply Forall_replicate].
  pose proof (N_ascii_bounded c). unfold is_byte. lia.
Qed.
Lemma byteKey_read c : ascii_of_N (Z.to_N (default 0 (list.head (byteKey c)))) = c.
Proof. change (ascii_of_N (Z.to_N (Z.of_N (N_of_ascii c))) = c). by rewrite N2Z.id, ascii_N_embedding. Qed.
#[export] Instance byteKeyCodec : KeyCodec ascii ascii := {|
  key_Serialize := byteKey;
  PrivKeyFromBytes := λ b, ascii_of_N (Z.to_N (default 0 (list.head b)));
  key_Public := id;
  CheckEncode := λ data version, version :: data;
  CheckDecode := λ b, match b with [] => BadFormat | version :: data => Decoded data version end;
  key_Serialize_bytes := byteKey_bytes;
  PrivKeyFromBytes_Serialize := byteKey_read;
  CheckDecode_Encode := λ _ _, eq_refl;
|}.

Definition noKey : keyWorld (K := ascii) (P := ascii) := MkKeyWorld None ResetLocalKeyStore.
Lemma key_file_restart_witness : ∃ b,
  kw_file (InitLocalKeyPair true (Ok ("k"%char, "k"%char)) (Some (replicate 16 7)) None [1; 2] noKey).2 = Some b ∧
  ∀ generate fresh iv written,
    GetLocalPrivateKey (kw_local (InitLocalKeyPair generate fresh iv written [1; 2] (MkKeyWorld (Some b) ResetLocalKeyStore)).2) = Ok "k"%char.
Proof.
  pose proof (key_file_restart (replicate 16 7) "k"%char [1; 2] noKey ltac:(split; [reflexivity|by apply Forall_replicate]) eq_refl eq_refl) as Hk.
  change (key_Public "k"%char) with "k"%char in Hk.
  assert (∃ b, kw_file (InitLocalKeyPair true (Ok ("k"%char, "k"%char)) (Some (replicate 16 7)) None [1; 2] noKey).2 = Some b) as [b Hb]
    by (eexists; vm_compute; reflexivity).
  exists b. split; [exact Hb|]. destruct (InitLocalKeyPair _ _ _ _ _ noKey) as [r w'] eqn:He. cbn in Hb.
  destruct Hk as (_ & _ & _ & Hk). intros generate fresh iv written. specialize (Hk generate fresh iv written). rewrite Hb in Hk.
  destruct (InitLocalKeyPair generate fresh iv written [1; 2] _) as [r2 w2]. exact (proj1 (proj2 Hk)).
Defined.

(** The bytes of the padding are not looked at, and empty data has none. *)
Lemma padding_unchecked : RemovePKCSPadding (replicate 13 5 ++ [9; 8; 3]) = Ok (replicate 13 5).
Proof. vm_compute. reflexivity. Qed.
Lemma empty_padding_panics : RemovePKCSPadding [] = Panic.
Proof. vm_compute. reflexivity. Qed.

(** ** The seed *)

(** Keys of a number in front of zeros. *)
Definition numberKey (k : Z) : list Z := k :: replicate 32 0.
Definition seedSampleEnv : Env := {|
  PublicKey := Z;
  Signature := list Z;
  pub_Serialize := numberKey;
  sig_Verify := λ s h k, bool_decide (s = k :: h);
  THashH := firstBytes;
  THashH_valid := firstBytes_valid;
  MarshalHash_Header := λ h, Some [hd_Timestamp h];
  EncodeMsgPack_Block := λ b, Some (gb_DataHash b);
  float_overflow_u64 := λ _, 2 ^ 63;
  float_overflow_range := λ _, conj (ltac:(done) : 0 <= 2 ^ 63) (ltac:(done) : 2 ^ 63 < two64);
  conf_QPS := 10;
  conf_BillingBlockCount := 60;
  conf_MinProviderDeposit := 1000;
  conf_QPS_range := conj (ltac:(done) : 0 <= 10) (ltac:(done) : 10 < two32);
  conf_BillingBlockCount_range := conj (ltac:(done) : 0 <= 60) (ltac:(done) : 60 < two64);
  conf_MinProviderDeposit_range := conj (ltac:(done) : 0 <= 1000) (ltac:(done) : 1000 < two64);
|}.
Definition readNumber (b : list Z) : option Z := if (length b =? 33)%nat then list.head b else None.
Lemma readNumber_key k : readNumber (numberKey k) = Some k.
Proof. reflexivity. Qed.
Definition sampleSeed : @SeedEnv seedSampleEnv := {|
  ParsePubKey := readNumber : list Z → option (@PublicKey seedSampleEnv);
  zeroKey := 0 : @PublicKey seedSampleEnv;
  ParsePubKey_Serialize := readNumber_key;
  pub_Serialize_length := (λ _, eq_refl) : ∀ k : Z, length (numberKey k) = 33%nat;
|}.

Section seed_sample.
#[local] Existing Instance seedSampleEnv | 0.
#[local] Existing Instance sampleSeed.

Definition seedID : Hash := firstBytes [1; 2; 3].
Definition seedBP : @Node seedSampleEnv :=
  MkNode (Hash_String seedID) Role_Leader "127.0.0.1:2122" "" (Some (5 : @PublicKey seedSampleEnv)) (MkUint256 1 2 3 4).
(** The first attempt of every name fails. *)
Definition slowDNS (zone : list AAAA) (domain : string) (index r : nat) : answer :=
  match r with
  | O => inl (LookupError "timeout")
  | S _ => match zoneLookup zone domain index with Some ip => inr [ip] | None => inl (LookupError "no such host") end
  end.
Lemma slowDNS_serves lines zone : readZone lines = Some zone → zoneServes (slowDNS zone) lines.
Proof.
  intros Hread. exists zone. split; [done|]. intros domain index. unfold served. destruct (zoneLookup zone domain index) as [ip|] eqn:Hz.
  - exists 1%nat, []. unfold slowDNS at 1. rewrite Hz. split; [unfold retryCount; lia|]. split; [done|].
    intros [|r'] Hr; [by eexists|lia].
  - intros [|r] _; unfold slowDNS; [by eexists|]. rewrite Hz. by eexists.
Qed.
Lemma seed_roundtrip_witness : ∃ lines, length lines = 8%nat ∧ GenBPIPv6 seedBP "example.com" = Ok lines ∧
  GetBPFromDNSSeed 2 (slowDNS (default [] (readZone lines))) "example.com" =
    Some (Ok (seedID, MkNode (nd_ID seedBP) Role_Unknown "127.0.0.1:2122" "" (Some (5 : @PublicKey seedSampleEnv)) (MkUint256 1 2 3 4))).
Proof.
  destruct (seed_roundtrip seedBP seedID 5 "example.com" ltac:(apply firstBytes_valid) eq_refl eq_refl) as (lines & Hg & Hr).
  { repeat split; vm_compute; (reflexivity || discriminate). }
  assert (length lines = 8%nat) as Hl.
  { assert (match GenBPIPv6 seedBP "example.com" with Ok l => length l = 8%nat | _ => False end) as Hc by (vm_compute; reflexivity).
    rewrite Hg in Hc. exact Hc. }
  assert (is_Some (readZone lines)) as [zone Hzone].
  { assert (match GenBPIPv6 seedBP "example.com" with Ok l => bool_decide (is_Some (readZone l)) = true | _ => False end) as Hc
      by (vm_compute; reflexivity). rewrite Hg in Hc. by apply bool_decide_eq_true in Hc. }
  exists lines. split; [exact Hl|]. split; [exact Hg|]. rewrite Hzone. apply Hr; [by apply slowDNS_serves|]. rewrite Hl. unfold concurrentNum. lia.
Defined.

(** A nonce whose first half is an IPv4 address mapped to IPv6: the zone that is
    generated for the node cannot be loaded. *)
Lemma mapped_nonce_unreadable : match GenBPIPv6 (MkNode (Hash_String seedID) Role_Leader "127.0.0.1:2122" ""
    (Some (5 : @PublicKey seedSampleEnv)) (MkUint256 0 (65535 * 2 ^ 32 + 1) 3 4)) "example.com" with
  | Ok lines => readZone lines = None
  | _ => False
  end.
Proof. vm_compute. reflexivity. Qed.

(** A key that is no key is taken for the zero key. *)
Lemma bad_key_swallowed : ∃ n, seedNode (AddPKCSPadding (replicate 40 7)) (Uint256_Bytes zeroUint256) (AddPKCSPadding []) seedID = Ok (seedID, n) ∧
  nd_PublicKey n = Some zeroKey.
Proof. eexists. split; vm_compute; reflexivity. Qed.
End seed_sample.

(** A domain that answers every name is read for ever. *)
Lemma wildcard_never_ends (fuel : nat) : FromDomain fuel (λ _ _, inr [replicate 16 1]) = None.
Proof.
  unfold FromDomain. assert (∀ i acc, groups fuel i (λ _ _, inr [replicate 16 1]) acc = None) as Hg.
  { induction fuel as [|fuel IH]; intros i acc; [done|]. cbn [groups].
    change ((λ j, (host (λ _ _, inr [replicate 16 1]) (i * concurrentNum + j)).1) <$> seq 0 concurrentNum)
      with (replicate 5 (Some [replicate 16 1])).
    change (collect 0 _ (replicate 5 (Some [replicate 16 1]))) with (Ok (replicate 5 (replicate 16 1)) : GoResult seedError (list (list Z))).
    cbn iota. destruct (acc ++ replicate 5 (replicate 16 1)) as [|ip l] eqn:Ha; [by destruct acc|].
    rewrite decide_False; [apply IH|]. cbn. unfold concurrentNum. lia. }
  by rewrite Hg.
Qed.
(** The names after a missing one stand for nothing, and its place reads as empty. *)
Lemma hole_in_group : FromDomain 1 (λ index _, if decide (index = 1%nat) then inl (LookupError "no such host")
    else if decide (index < 3)%nat then inr [replicate 16 1] else inl (LookupError "no such host")) = Some (Err EmptyIPList).
Proof. vm_compute. reflexivity. Qed.
