(* ===== verification/Submit.v ===== *)
(** * Transactions of a client and the service of the block producer

    Models [src/blockproducer/rpc.go], the readers of [chain_io.go] it answers from,
    and the transactions of [src/client/driver.go]: creating a database, changing a
    permission, transferring tokens, and waiting for them.  The state is the chain of
    the block producer that is asked, its two queues, and the network, which may lose
    the request or the answer of any call.  The chain is running; the driver's own
    errors are values of [error]. *)
From S2P Require Import Prelude Hash Types Block MetaState MetaTx Storage Branch Chain.
From Stdlib Require Import String ZArith Lia.
From stdpp Require Import base list gmap strings.
Local Open Scope Z_scope.

(** ** The service *)

(** What happens to a call. *)
Inductive delivery := Delivered | NotSent (e : error) | AnswerLost (e : error).

Section submit.
Context `{BlockEnv} `{!MsgPack BPBlock}.
Implicit Types (c : Chain).

Record bpWorld := MkBpWorld {
  bw_chain : Chain;
  bw_pendingAddTxReqs : list AddTxReq;
  bw_pendingBlocks : list BPBlock;
  bw_net : nat → delivery;
  bw_calls : nat;  (* calls so far *)
}.
Implicit Types (w : bpWorld).
Abbreviation WM := (GoM bpWorld error).

Definition set_pending w (l : list AddTxReq) : bpWorld :=
  MkBpWorld (bw_chain w) l (bw_pendingBlocks w) (bw_net w) (bw_calls w).
Definition set_chain w c : bpWorld :=
  MkBpWorld c (bw_pendingAddTxReqs w) (bw_pendingBlocks w) (bw_net w) (bw_calls w).
Definition nextCall w : bpWorld :=
  MkBpWorld (bw_chain w) (bw_pendingAddTxReqs w) (bw_pendingBlocks w) (bw_net w) (S (bw_calls w)).

(** The preview of the head branch answers nonces, the immutable state the rest. *)
Definition Chain_nextNonce c (addr : AccountAddress) : GoResult error Z :=
  match headBranch c with Some b => (nextNonce addr (br_preview b)).1 | None => Panic end.
Definition Chain_loadAccountTokenBalance c (addr : AccountAddress) (tt : TokenType) : GoResult error (Z * bool) :=
  loadAccountTokenBalance (c_immutable c) addr tt.
Definition loadSQLChainProfile c (id : DatabaseID) : option SQLChainProfile * bool := loadSQLChainObject (c_immutable c) id.
Definition loadSQLChainProfiles c (addr : AccountAddress) : list SQLChainProfile := loadROSQLChains (c_immutable c) addr.

Definition AdviseNewBlock (b : BPBlock) : WM unit :=
  modifyS (λ w, MkBpWorld (bw_chain w) (bw_pendingAddTxReqs w) (bw_pendingBlocks w ++ [b]) (bw_net w) (bw_calls w)).
(** A node that is not there gives a nil block with zero counts. *)
Definition fetched (r : GoResult error (option (BPBlock * Z * Z))) : GoResult error (option BPBlock * Z * Z) :=
  result_bind r (λ o, Ok (match o with Some (b, count, height) => (Some b, count, height) | None => (None, 0, 0) end)).
Definition FetchBlock (height : Z) c : GoResult error (Z * Z * option BPBlock) :=
  result_bind (fetched (fetchBlockByHeight c height)) (λ '(b, count, _), Ok (height, count, b)).
Definition FetchBlockByCount (count : Z) c : GoResult error (Z * Z * option BPBlock) :=
  result_bind (fetched (fetchBlockByCount c count)) (λ '(b, _, height), Ok (count, height, b)).
Definition FetchLastIrreversibleBlock (addr : AccountAddress) c : GoResult error (option BPBlock * Z * Z * list SQLChainProfile) :=
  result_bind (fetched (fetchLastIrreversibleBlock c)) (λ '(b, count, height), Ok (b, count, height, loadSQLChainProfiles c addr)).
Definition NextAccountNonce (addr : AccountAddress) : WM Z := w ← getS; liftR (Chain_nextNonce (bw_chain w) addr).
Definition AddTx (req : AddTxReq) : WM unit := modifyS (λ w, set_pending w (bw_pendingAddTxReqs w ++ [req])).
Definition QueryAccountTokenBalance (addr : AccountAddress) (tt : TokenType) : WM (Z * bool) :=
  w ← getS; liftR (Chain_loadAccountTokenBalance (bw_chain w) addr tt).
(** A nil profile that is found is dereferenced. *)
Definition QuerySQLChainProfile (id : DatabaseID) : WM SQLChainProfile :=
  w ← getS;
  match loadSQLChainProfile (bw_chain w) id with
  | (Some p, true) => mret p
  | (None, true) => panic
  | (_, false) => throw (ErrWrap ErrDatabaseNotFound)
  end.
Definition QueryTxState (h : Hash) : WM TransactionState := w ← getS; deref (Chain_queryTxState (bw_chain w) h).
Definition QueryAccountSQLChainProfiles (addr : AccountAddress) : WM (list SQLChainProfile) :=
  w ← getS; mret (queryAccountSQLChainProfiles (bw_chain w) addr).

(** ** Transactions *)

Definition TransactionTypeTransfer : Z := 1.
Definition TransactionTypeCreateDatabase : Z := 8.
Definition TransactionTypeUpdatePermission : Z := 10.
Definition NewTransactionTypeMixin (txType clock : Z) : TransactionTypeMixin := MkMixin txType clock.
Definition zeroHSV : HSV := MkHSV zeroHash None None.
Definition NewTransfer (clock : Z) (h : TransferHeader) : Signed TransferHeader :=
  MkSigned h (NewTransactionTypeMixin TransactionTypeTransfer clock) zeroHSV.
Definition NewCreateDatabase (clock : Z) (h : CreateDatabaseHeader) : Signed CreateDatabaseHeader :=
  MkSigned h (NewTransactionTypeMixin TransactionTypeCreateDatabase clock) zeroHSV.
Definition NewUpdatePermission (clock : Z) (h : UpdatePermissionHeader) : Signed UpdatePermissionHeader :=
  MkSigned h (NewTransactionTypeMixin TransactionTypeUpdatePermission clock) zeroHSV.
(** [Sign] of a transaction of the kind [mk]. *)
Definition Tx_Sign {Hd} (mk : Signed Hd → Transaction) (t : Signed Hd) (signer : PrivateKey) : GoResult error (Signed Hd) :=
  result_bind (HSV_Sign (MarshalHash_Transaction (mk t)) signer (tx_HSV t)) (λ i, Ok (MkSigned (tx_Header t) (tx_Mixin t) i)).

(** ** The driver *)

(** Whether the driver is initialised, and the local keys. *)
Record driverState := MkDriverState {
  ds_initialized : bool;
  ds_privateKey : GoResult error PrivateKey;
  ds_publicKey : GoResult error PublicKey;
}.
Implicit Types (ds : driverState).

Definition ErrNotInitialized : error := ErrNew "driver not initialized".
Definition ErrNoSuchTokenBalance : error := ErrNew "no such token balance".

(** [requestBP]: not sent also when no block producer is known. *)
Definition requestBP {A} (method : WM A) : WM A := λ w,
  match bw_net w (bw_calls w) with
  | NotSent e => (Err e, nextCall w)
  | Delivered => method (nextCall w)
  | AnswerLost e =>
      match method (nextCall w) with (Panic, w) => (Panic, w) | (_, w) => (Err e, w) end
  end.
Definition getNonce (addr : AccountAddress) : WM Z := requestBP (NextAccountNonce addr).

Definition ifInitialized {A} ds (m : WM A) : WM A := if ds_initialized ds then m else throw ErrNotInitialized.
Definition wrapped {A} (m : WM A) : WM A := r ← attempt m; match r with inr a => mret a | inl e => throw (ErrWrap e) end.

(** [client.ResourceMeta] *)
Record CreateMeta := MkCreateMeta { cm_ResourceMeta : ResourceMeta; cm_GasPrice : Z; cm_AdvancePayment : Z }.
Definition DefaultGasPrice : Z := 1.
Definition DefaultAdvancePayment : Z := 20000000.
Definition orDefault (x d : Z) : Z := if decide (x = 0) then d else x.

(** The hash of the transaction and the database of the DSN. *)
Definition Create ds (clock : Z) (meta : CreateMeta) : WM (Hash * DatabaseID) :=
  ifInitialized ds (
    privateKey ← wrapped (liftR (ds_privateKey ds));
    clientAddr ← wrapped (liftR (PubKeyHash (Some (key_PubKey privateKey))));
    nonce ← wrapped (requestBP (NextAccountNonce clientAddr));
    let h := MkCreateDatabaseHeader clientAddr (cm_ResourceMeta meta) (orDefault (cm_GasPrice meta) DefaultGasPrice)
      (orDefault (cm_AdvancePayment meta) DefaultAdvancePayment) Particle nonce in
    tx ← wrapped (liftR (Tx_Sign TxCreateDatabase (NewCreateDatabase clock h) privateKey));
    wrapped (requestBP (AddTx (MkAddTxReq 1 (Some (TxCreateDatabase tx)))));;
    mret (Tx_Hash (TxCreateDatabase tx), FromAccountAndNonce clientAddr (u32 nonce))).

Definition keyPair ds : GoResult error (PublicKey * PrivateKey * AccountAddress) :=
  result_bind (ds_publicKey ds) (λ pubKey,
    result_bind (ds_privateKey ds) (λ privKey,
      result_bind (PubKeyHash (Some pubKey)) (λ addr, Ok (pubKey, privKey, addr)))).
Definition UpdatePermission ds (clock : Z) (targetUser targetChain : AccountAddress) (perm : option UserPermission) : WM Hash :=
  ifInitialized ds (
    '(_, privKey, addr) ← liftR (keyPair ds);
    nonce ← getNonce addr;
    up ← liftR (Tx_Sign TxUpdatePermission (NewUpdatePermission clock (MkUpdatePermissionHeader targetChain targetUser perm nonce)) privKey);
    requestBP (AddTx (MkAddTxReq 0 (Some (TxUpdatePermission up))));;
    mret (Tx_Hash (TxUpdatePermission up))).
Definition TransferToken ds (clock : Z) (targetUser : AccountAddress) (amount : Z) (tokenType : TokenType) : WM Hash :=
  ifInitialized ds (
    '(_, privKey, addr) ← liftR (keyPair ds);
    nonce ← getNonce addr;
    tran ← liftR (Tx_Sign TxTransfer (NewTransfer clock (MkTransferHeader addr targetUser nonce amount tokenType)) privKey);
    requestBP (AddTx (MkAddTxReq 0 (Some (TxTransfer tran))));;
    mret (Tx_Hash (TxTransfer tran))).
Definition GetTokenBalance ds (tt : TokenType) : WM Z :=
  ifInitialized ds (
    addr ← liftR (result_bind (ds_publicKey ds) (λ pubKey, PubKeyHash (Some pubKey)));
    '(balance, ok) ← requestBP (QueryAccountTokenBalance addr tt);
    if ok : bool then mret balance else throw ErrNoSuchTokenBalance).

(** ** Waiting *)

Definition final (s : TransactionState) : bool :=
  match s with TransactionStatePending | TransactionStatePacked => false | _ => true end.
(** [WaitTxConfirmation]: the answers of the block producer, each followed by a tick or
    by the error of the context; the last state that was read comes with an error.
    Nothing while there are no more answers. *)
Fixpoint WaitTxConfirmation (last : option TransactionState) (polls : list (GoResult error TransactionState * option error))
    : option (GoResult error (option TransactionState) * option TransactionState) :=
  match polls with
  | [] => None
  | (Panic, _) :: _ => Some (Panic, last)
  | (Err e, _) :: _ => Some (Err (ErrWrap e), last)
  | (Ok state, ctx) :: polls =>
      if final state then Some (Ok (Some state), Some state)
      else match ctx with Some e => Some (Err e, Some state) | None => WaitTxConfirmation (Some state) polls end
  end.

(** A tick with the answer about the profile and that of the database, or the end of
    the context. *)
Inductive creationEvent := Tick (profile : option error) (exec : option error) | Done (ctxErr : error).
(** The error text has that of [ErrDatabaseNotFound] in it. *)
Fixpoint isNotFound (e : error) : bool :=
  match e with
  | ErrDatabaseNotFound => true
  | ErrWrap e => isNotFound e
  | ErrNew msg => match String.index 0 "database not found" msg with Some _ => true | None => false end
  | _ => false
  end.
Fixpoint WaitBPDatabaseCreation (withDB : bool) (last : option error) (events : list creationEvent) : option (GoResult error unit) :=
  match events with
  | [] => None
  | Done e :: _ => Some (Err (match last with Some _ => ErrWrap e | None => e end))
  | Tick (Some e) _ :: events => if isNotFound e then WaitBPDatabaseCreation withDB (Some e) events else Some (Err e)
  | Tick None exec :: events =>
      if withDB then match exec with None => Some (Ok tt) | Some e => WaitBPDatabaseCreation withDB (Some e) events end
      else Some (Ok tt)
  end.
End submit.
