(* ===== verification/SubmitProps.v ===== *)
(** * Submitted transactions

    Whatever the network loses, a client puts a transaction at most once into the queue
    of the block producer, signed, with its own address and the nonce the block
    producer gave it; the chain admits it and reports it; and the database a client is
    told of is the one the ledger creates. *)
From S2P Require Import Prelude Hash Types Block MetaState MetaView MetaTx Ledger LedgerRefine Sample Supply Database.
From S2P Require Import Storage StorageProps Branch Chain ForkChoice ChainProps SqlTypes Submit.
From Stdlib Require Import String ZArith Lia.
From stdpp Require Import base list gmap strings.
Local Open Scope Z_scope.

(** The hash of a transaction is that of its header. *)
Class TxMarshal `{BlockEnv} := {
  marshal_transfer h m i i' : MarshalHash_Transaction (TxTransfer (MkSigned h m i)) = MarshalHash_Transaction (TxTransfer (MkSigned h m i'));
  marshal_create h m i i' : MarshalHash_Transaction (TxCreateDatabase (MkSigned h m i)) = MarshalHash_Transaction (TxCreateDatabase (MkSigned h m i'));
  marshal_permission h m i i' : MarshalHash_Transaction (TxUpdatePermission (MkSigned h m i)) = MarshalHash_Transaction (TxUpdatePermission (MkSigned h m i'));
}.

Section submissions.
Context `{TxMarshal}.
Implicit Types (w : bpWorld) (ds : driverState).

Inductive submission :=
| SubCreate (meta : CreateMeta)
| SubPermission (targetUser targetChain : AccountAddress) (perm : option UserPermission)
| SubTransfer (targetUser : AccountAddress) (amount : Z) (tokenType : TokenType).

Definition submit ds (clock : Z) (sub : submission) : GoM bpWorld error Hash :=
  match sub with
  | SubCreate meta => '(h, _) ← Create ds clock meta; mret h
  | SubPermission user chain perm => UpdatePermission ds clock user chain perm
  | SubTransfer user amount tokenType => TransferToken ds clock user amount tokenType
  end.

(** The transaction a submission asks for. *)
Definition createHeader (addr : AccountAddress) (meta : CreateMeta) (nonce : Z) : CreateDatabaseHeader :=
  MkCreateDatabaseHeader addr (cm_ResourceMeta meta) (orDefault (cm_GasPrice meta) DefaultGasPrice)
    (orDefault (cm_AdvancePayment meta) DefaultAdvancePayment) Particle nonce.
Definition asks (sub : submission) (addr : AccountAddress) (nonce : Z) (tx : Transaction) : Prop :=
  match sub, tx with
  | SubCreate meta, TxCreateDatabase t => tx_Header t = createHeader addr meta nonce
  | SubPermission user chain perm, TxUpdatePermission t => tx_Header t = MkUpdatePermissionHeader chain user perm nonce
  | SubTransfer user amount tokenType, TxTransfer t => tx_Header t = MkTransferHeader addr user nonce amount tokenType
  | _, _ => False
  end.
Definition addressOf (key : PrivateKey) : AccountAddress := THashH (pub_Serialize (key_PubKey key)).

(** ** Calls *)

Lemma nonceCall w addr r w' : requestBP (NextAccountNonce addr) w = (r, w') →
  bw_chain w' = bw_chain w ∧ bw_pendingAddTxReqs w' = bw_pendingAddTxReqs w ∧ (∀ n, r = Ok n → Chain_nextNonce (bw_chain w) addr = Ok n).
Proof.
  unfold requestBP, NextAccountNonce. go_unfold. change (bw_chain (nextCall w)) with (bw_chain w).
  destruct (bw_net w (bw_calls w)); [|intros [= <- <-]; split_and!; done|destruct (Chain_nextNonce _ _)];
    intros [= <- <-]; split_and!; done.
Qed.
Lemma addCall w req r w' : requestBP (AddTx req) w = (r, w') →
  bw_chain w' = bw_chain w ∧
  (bw_pendingAddTxReqs w' = bw_pendingAddTxReqs w ∧ (∀ a, r ≠ Ok a) ∨ bw_pendingAddTxReqs w' = bw_pendingAddTxReqs w ++ [req]).
Proof.
  unfold requestBP, AddTx. go_unfold. destruct (bw_net w (bw_calls w)); intros [= <- <-]; (split; [done|]); [by right|by left|by right].
Qed.
Lemma wrapped_inv {A} (m : GoM bpWorld error A) w r w' : wrapped m w = (r, w') → ∃ r0, m w = (r0, w') ∧ ∀ a, r = Ok a ↔ r0 = Ok a.
Proof.
  unfold wrapped. go_unfold. destruct (m w) as [[a|e|] w1]; intros [= <- <-]; eexists; (split; [done|]); intros a'; naive_solver.
Qed.

(** ** Signatures *)

Definition kind {Hd} (mk : Signed Hd → Transaction) : Prop :=
  (∀ h m i i', MarshalHash_Transaction (mk (MkSigned h m i)) = MarshalHash_Transaction (mk (MkSigned h m i'))) ∧
  (∀ t, Tx_Verify (mk t) = HSV_Verify (MarshalHash_Transaction (mk t)) (tx_HSV t)).
Lemma kind_create : kind TxCreateDatabase.
Proof. split; [apply marshal_create|done]. Qed.
Lemma kind_permission : kind TxUpdatePermission.
Proof. split; [apply marshal_permission|done]. Qed.
Lemma kind_transfer : kind TxTransfer.
Proof. split; [apply marshal_transfer|done]. Qed.

Lemma Tx_Sign_spec {Hd} (mk : Signed Hd → Transaction) t key t' : kind mk → Tx_Sign mk t key = Ok t' →
  Tx_Verify (mk t') = None ∧ tx_Header t' = tx_Header t ∧ hsv_Signee (tx_HSV t') = Some (key_PubKey key).
Proof.
  intros [Hm Hv] Hs. unfold Tx_Sign in Hs. destruct (HSV_Sign _ _ _) as [i| |] eqn:Hi; [|done..]. injection Hs as <-.
  split_and!; [|done|].
  - rewrite Hv. cbn [tx_HSV]. apply HSV_Sign_Verify in Hi. destruct t as [h m i0]. cbn [tx_Header tx_Mixin]. by rewrite (Hm h m i i0).
  - cbn [tx_HSV]. unfold HSV_Sign, HSV_SetHash, HSV_SignHash in Hi. destruct (MarshalHash_Transaction _); [|done].
    cbn [result_bind hsv_DataHash] in Hi. destruct (key_Sign _ _); [|done]. by injection Hi as <-.
Qed.

(** ** Sending *)

(** An error path that keeps values and effects. *)
Definition transparent (f : ∀ A, GoM bpWorld error A → GoM bpWorld error A) : Prop := ∀ A m w r w',
  f A m w = (r, w') → ∃ r0, m w = (r0, w') ∧ ∀ a, r = Ok a ↔ r0 = Ok a.
Lemma transparent_wrapped : transparent (@wrapped _).
Proof. intros A m w r w'. apply wrapped_inv. Qed.
Lemma transparent_id : transparent (λ _ m, m).
Proof. intros A m w r w' Hm. by exists r. Qed.

(** A request is queued at most once, and whenever the call succeeds. *)
Definition queued {A} (addr : AccountAddress) (ttl : Z) (form : Z → Transaction → Prop) (out : Z → Transaction → A → Prop)
    w (r : GoResult error A) w' : Prop :=
  bw_chain w' = bw_chain w ∧
  (bw_pendingAddTxReqs w' = bw_pendingAddTxReqs w ∧ (∀ a, r ≠ Ok a) ∨
   ∃ nonce tx, bw_pendingAddTxReqs w' = bw_pendingAddTxReqs w ++ [MkAddTxReq ttl (Some tx)] ∧
     Chain_nextNonce (bw_chain w) addr = Ok nonce ∧ form nonce tx ∧ Tx_Verify tx = None ∧ ∀ a, r = Ok a → out nonce tx a).

Lemma send_spec {Hd A} (f : ∀ A, GoM bpWorld error A → GoM bpWorld error A) (mk : Signed Hd → Transaction) (new : Z → Signed Hd) key (ttl : Z)
    (out : Z → Signed Hd → A) addr w r w' : transparent f → kind mk →
  (nonce ← f _ (requestBP (NextAccountNonce addr));
   tx ← f _ (liftR (Tx_Sign mk (new nonce) key));
   f _ (requestBP (AddTx (MkAddTxReq ttl (Some (mk tx)))));;
   mret (out nonce tx)) w = (r, w') →
  queued addr ttl
    (λ nonce tx, ∃ t, tx = mk t ∧ tx_Header t = tx_Header (new nonce) ∧ hsv_Signee (tx_HSV t) = Some (key_PubKey key))
    (λ nonce tx a, ∃ t, tx = mk t ∧ a = out nonce t) w r w'.
Proof.
  intros Hf Hk Hrun. apply bind_inv in Hrun as [(nonce & w1 & Hn & Hrun)|(r0 & Hn & Hr0 & Hr)].
  2:{ apply Hf in Hn as (r1 & Hn & _). apply nonceCall in Hn as (Hc & Hp & _). split; [done|]. by left. }
  apply Hf in Hn as (r1 & Hn & Hok). apply nonceCall in Hn as (Hc1 & Hp1 & Hn). specialize (Hn nonce (proj1 (Hok nonce) eq_refl)).
  apply bind_inv in Hrun as [(t & w2 & Hs & Hrun)|(r0 & Hs & Hr0 & Hr)].
  2:{ apply Hf in Hs as (r2 & [= <- <-] & _). split; [done|]. left. by rewrite Hp1. }
  apply Hf in Hs as (r2 & Hs & Hsok). rewrite (proj1 (Hsok t) eq_refl) in Hs. injection Hs as Hs <-.
  destruct (Tx_Sign_spec mk _ _ _ Hk Hs) as (Hv & Hh & Hsig).
  apply bind_inv in Hrun as [([] & w3 & Ha & Hrun)|(r0 & Ha & Hr0 & Hr)]; apply Hf in Ha as (r3 & Ha & Haok);
    apply addCall in Ha as (Hc3 & [(Hp3 & Hno)|Hp3]).
  - by destruct (Hno tt (proj1 (Haok tt) eq_refl)).
  - injection Hrun as <- <-. split; [by rewrite Hc3|]. right. exists nonce, (mk t). rewrite Hp3, Hp1. split_and!; [done|done|by exists t|done|].
    intros a [= <-]. by exists t.
  - split; [by rewrite Hc3|]. left. by rewrite Hp3, Hp1.
  - split; [by rewrite Hc3|]. right. exists nonce, (mk t). rewrite Hp3, Hp1. split_and!; [done|done|by exists t|done|].
    intros a Hra. by destruct (Hr a).
Qed.

(** The keys of the driver are a pair, and it is initialised. *)
Definition ready ds (key : PrivateKey) : Prop :=
  ds_initialized ds = true ∧ ds_privateKey ds = Ok key ∧ ds_publicKey ds = Ok (key_PubKey key).
Definition ttlOf (sub : submission) : Z := match sub with SubCreate _ => 1 | _ => 0 end.

(** What is queued is what was asked for, under the address of the key. *)
Definition asked (sub : submission) (key : PrivateKey) (nonce : Z) (tx : Transaction) : Prop :=
  asks sub (addressOf key) nonce tx ∧ GetAccountAddress tx = addressOf key ∧ GetAccountNonce tx = nonce.

Lemma queued_impl {A B} addr ttl (form form' : Z → Transaction → Prop) (out : Z → Transaction → A → Prop) (out' : Z → Transaction → B → Prop) w r r' w' :
  queued addr ttl form out w r w' → (∀ nonce tx, form nonce tx → form' nonce tx) →
  (∀ b, r' = Ok b → ∃ a, r = Ok a ∧ ∀ nonce tx, out nonce tx a → out' nonce tx b) → queued addr ttl form' out' w r' w'.
Proof.
  intros [Hc Hq] Hform Hr. split; [done|]. destruct Hq as [[Hp Hno]|(nonce & tx & Hp & Hn & Hf & Hv & Ho)].
  - left. split; [done|]. intros b Hb. destruct (Hr b Hb) as (a & Ha & _). by destruct (Hno a).
  - right. exists nonce, tx. split_and!; [done|done|auto|done|]. intros b Hb. destruct (Hr b Hb) as (a & Ha & Himp). eauto.
Qed.

(** The three submissions send the same way. *)
Lemma Create_send ds key clock meta w : ready ds key → Create ds clock meta w =
  (nonce ← wrapped (requestBP (NextAccountNonce (addressOf key)));
   tx ← wrapped (liftR (Tx_Sign TxCreateDatabase (NewCreateDatabase clock (createHeader (addressOf key) meta nonce)) key));
   wrapped (requestBP (AddTx (MkAddTxReq 1 (Some (TxCreateDatabase tx)))));;
   mret (Tx_Hash (TxCreateDatabase tx), FromAccountAndNonce (addressOf key) (u32 nonce))) w.
Proof. intros (Hi & Hpk & _). unfold Create, ifInitialized. by rewrite Hi, Hpk. Qed.
Lemma UpdatePermission_send ds key clock user chain perm w : ready ds key → UpdatePermission ds clock user chain perm w =
  (nonce ← requestBP (NextAccountNonce (addressOf key));
   tx ← liftR (Tx_Sign TxUpdatePermission (NewUpdatePermission clock (MkUpdatePermissionHeader chain user perm nonce)) key);
   requestBP (AddTx (MkAddTxReq 0 (Some (TxUpdatePermission tx))));;
   mret (Tx_Hash (TxUpdatePermission tx))) w.
Proof. intros (Hi & Hpk & Hpub). unfold UpdatePermission, ifInitialized, keyPair. by rewrite Hi, Hpk, Hpub. Qed.
Lemma TransferToken_send ds key clock user amount tokenType w : ready ds key → TransferToken ds clock user amount tokenType w =
  (nonce ← requestBP (NextAccountNonce (addressOf key));
   tx ← liftR (Tx_Sign TxTransfer (NewTransfer clock (MkTransferHeader (addressOf key) user nonce amount tokenType)) key);
   requestBP (AddTx (MkAddTxReq 0 (Some (TxTransfer tx))));;
   mret (Tx_Hash (TxTransfer tx))) w.
Proof. intros (Hi & Hpk & Hpub). unfold TransferToken, ifInitialized, keyPair. by rewrite Hi, Hpk, Hpub. Qed.

Lemma signee_address (i : HSV) key : hsv_Signee i = Some (key_PubKey key) → signeeAddress i = addressOf key.
Proof. intros Hs. unfold signeeAddress. by rewrite Hs. Qed.

(** What is queued, with the database a creation names. *)
Lemma Create_queued ds key clock meta w r w' : ready ds key → Create ds clock meta w = (r, w') →
  queued (addressOf key) 1 (asked (SubCreate meta) key)
    (λ nonce tx a, ∃ t, tx = TxCreateDatabase t ∧ a = (Tx_Hash tx, FromAccountAndNonce (addressOf key) (u32 nonce))) w r w'.
Proof.
  intros Hr Hrun. rewrite (Create_send _ _ _ _ _ Hr) in Hrun.
  apply (send_spec (@wrapped _) TxCreateDatabase (λ nonce, NewCreateDatabase clock (createHeader (addressOf key) meta nonce)) key 1
    (λ nonce t, (Tx_Hash (TxCreateDatabase t), FromAccountAndNonce (addressOf key) (u32 nonce)))) in Hrun;
    [|apply transparent_wrapped|apply kind_create].
  eapply queued_impl; [exact Hrun| |].
  - intros nonce tx (t & -> & Hh & Hs). split_and!; [done|by apply signee_address|]. cbn. by rewrite Hh.
  - intros b Hb. exists b. split; [done|]. intros nonce tx (t & -> & ->). by exists t.
Qed.
Lemma submit_queued ds key clock sub w r w' : ready ds key → submit ds clock sub w = (r, w') →
  queued (addressOf key) (ttlOf sub) (asked sub key) (λ _ tx h, h = Tx_Hash tx) w r w'.
Proof.
  intros Hr Hrun. destruct sub as [meta|user chain perm|user amount tokenType]; cbn [submit ttlOf] in *.
  - unfold mbind, gom_bind in Hrun. destruct (Create ds clock meta w) as [r0 w0] eqn:Hc. apply (Create_queued _ key) in Hc; [|done].
    assert (w0 = w') as <- by (destruct r0 as [[]| |]; by injection Hrun).
    eapply queued_impl; [exact Hc|done|]. intros b ->. destruct r0 as [[h id]| |]; [|done..]. injection Hrun as ->.
    exists (b, id). split; [done|]. by intros nonce tx (t & -> & [= -> _]).
  - rewrite (UpdatePermission_send _ _ _ _ _ _ _ Hr) in Hrun.
    apply (send_spec (λ _ m, m) TxUpdatePermission (λ nonce, NewUpdatePermission clock (MkUpdatePermissionHeader chain user perm nonce)) key 0
      (λ _ t, Tx_Hash (TxUpdatePermission t))) in Hrun; [|apply transparent_id|apply kind_permission].
    eapply queued_impl; [exact Hrun| |].
    + intros nonce tx (t & -> & Hh & Hs). split_and!; [done|by apply signee_address|]. cbn. by rewrite Hh.
    + intros b Hb. exists b. split; [done|]. by intros nonce tx (t & -> & ->).
  - rewrite (TransferToken_send _ _ _ _ _ _ _ Hr) in Hrun.
    apply (send_spec (λ _ m, m) TxTransfer (λ nonce, NewTransfer clock (MkTransferHeader (addressOf key) user nonce amount tokenType)) key 0
      (λ _ t, Tx_Hash (TxTransfer t))) in Hrun; [|apply transparent_id|apply kind_transfer].
    eapply queued_impl; [exact Hrun| |].
    + intros nonce tx (t & -> & Hh & Hs). split_and!; [done| |]; cbn; by rewrite Hh.
    + intros b Hb. exists b. split; [done|]. by intros nonce tx (t & -> & ->).
Qed.

(** ** Success *)

(** Nothing is lost, and the key can sign. *)
Definition reliable w : Prop := ∀ n, bw_net w n = Delivered.
Definition signing (key : PrivateKey) : Prop :=
  (∀ tx, is_Some (MarshalHash_Transaction tx)) ∧ ∀ h, is_Some (key_Sign key h).

Lemma Tx_Sign_ok {Hd} (mk : Signed Hd → Transaction) t key : signing key → ∃ t', Tx_Sign mk t key = Ok t'.
Proof.
  intros [Hm Hk]. unfold Tx_Sign, HSV_Sign, HSV_SetHash, HSV_SignHash. destruct (Hm (mk t)) as [b ->]. cbn [result_bind hsv_DataHash].
  destruct (Hk (THashH b)) as [sig ->]. by eexists.
Qed.
Lemma requestBP_delivered {A} (m : GoM bpWorld error A) w : reliable w → requestBP m w = m (nextCall w).
Proof. intros Hd. unfold requestBP. by rewrite Hd. Qed.
Lemma submit_ok ds key clock sub w nonce : ready ds key → reliable w → signing key → Chain_nextNonce (bw_chain w) (addressOf key) = Ok nonce →
  ∃ h, (submit ds clock sub w).1 = Ok h.
Proof.
  intros Hr Hd Hs Hn. assert (reliable (nextCall w)) as Hd' by done.
  assert (requestBP (NextAccountNonce (addressOf key)) w = (Ok nonce, nextCall w)) as Hnonce.
  { rewrite requestBP_delivered by done. unfold NextAccountNonce. go_unfold. cbn [nextCall bw_chain]. by rewrite Hn. }
  assert (∀ req, requestBP (AddTx req) (nextCall w) = (Ok tt, set_pending (nextCall (nextCall w)) (bw_pendingAddTxReqs w ++ [req]))) as Hadd.
  { intros req. by rewrite requestBP_delivered by done. }
  destruct sub as [meta|user chain perm|user amount tokenType]; cbn [submit].
  - destruct (Tx_Sign_ok TxCreateDatabase (NewCreateDatabase clock (createHeader (addressOf key) meta nonce)) key Hs) as [t Ht].
    unfold mbind at 1, gom_bind. rewrite (Create_send _ _ _ _ _ Hr). unfold wrapped. go_unfold. rewrite Hnonce. cbn beta iota.
    rewrite Ht. cbn beta iota. rewrite Hadd. by eexists.
  - destruct (Tx_Sign_ok TxUpdatePermission (NewUpdatePermission clock (MkUpdatePermissionHeader chain user perm nonce)) key Hs) as [t Ht].
    rewrite (UpdatePermission_send _ _ _ _ _ _ _ Hr). go_unfold. rewrite Hnonce. cbn beta iota. rewrite Ht. cbn beta iota. rewrite Hadd. by eexists.
  - destruct (Tx_Sign_ok TxTransfer (NewTransfer clock (MkTransferHeader (addressOf key) user nonce amount tokenType)) key Hs) as [t Ht].
    rewrite (TransferToken_send _ _ _ _ _ _ _ Hr). go_unfold. rewrite Hnonce. cbn beta iota. rewrite Ht. cbn beta iota. rewrite Hadd. by eexists.
Qed.

(** ** Admission *)

Lemma addTx_state b tx : ∃ st, queryTxState (Branch.addTx b tx) (Tx_Hash tx) = Some st ∧ final st = false.
Proof.
  unfold Branch.addTx. destruct (br_packed b !! Tx_Hash tx) eqn:Hp; [|destruct (br_unpacked b !! Tx_Hash tx) eqn:Hu]; unfold queryTxState; cbn.
  - case_decide; [by eexists|]. rewrite decide_True by done. by eexists.
  - rewrite decide_True by done. by eexists.
  - rewrite decide_True by (rewrite lookup_insert_eq; done). by eexists.
Qed.
Lemma pooled_state c tx db : is_Some (headBranch c) → ∃ st, Chain_queryTxState (pooled c tx db) (Tx_Hash tx) = Some st ∧ final st = false.
Proof.
  intros [b Hb]. destruct (addTx_state b tx) as (st & Hst & Hf). exists st. split; [|done]. unfold Chain_queryTxState.
  assert (headBranch (pooled c tx db) = Some (Branch.addTx b tx)) as ->.
  { unfold headBranch, pooled in *. destruct c. cbn in *. by rewrite list_lookup_fmap, Hb. }
  cbn. by rewrite Hst.
Qed.
End submissions.

(** C23: A client's transaction is queued at most once and is admitted.  Whatever the
    network loses, a submission leaves the chain alone and puts at most one request
    into the queue of the block producer, and exactly one when it succeeds; the
    transaction is the one asked for, signed, from the address of the client's key and
    with the nonce the block producer gave.  If that nonce is in the window of the
    pool, the chain pools the transaction, passes it on only if it creates a database,
    and then reports it as waiting.  With a reliable network, a key that signs and a
    known account the submission succeeds. *)
Theorem submission_admitted `{TxMarshal} `{!MsgPack Transaction} ds (key : PrivateKey) (clock : Z) (sub : submission) (w : bpWorld) r w' :
  ready ds key → submit ds clock sub w = (r, w') →
  let c := bw_chain w in
  bw_chain w' = c ∧
  (bw_pendingAddTxReqs w' = bw_pendingAddTxReqs w ∧ (∀ h, r ≠ Ok h) ∨
   ∃ nonce tx, bw_pendingAddTxReqs w' = bw_pendingAddTxReqs w ++ [MkAddTxReq (ttlOf sub) (Some tx)] ∧
     Chain_nextNonce c (addressOf key) = Ok nonce ∧ asked sub key nonce tx ∧ Tx_Verify tx = None ∧ (∀ h, r = Ok h → h = Tx_Hash tx) ∧
     ∀ base, (nextNonce (addressOf key) (c_immutable c)).1 = Ok base → base <= nonce < u32 (base + MaxPendingTxsPerAccount) →
       c_txPool c !! Tx_Hash tx = None → is_Some (EncodeMsgPack tx) →
       ∃ c' state, processAddTxReq (MkEngine true None) (Some (MkAddTxReq (ttlOf sub) (Some tx))) c =
           (Ok (match sub with SubCreate _ => Some 0 | _ => None end), c') ∧
         c_txPool c' !! Tx_Hash tx = Some tx ∧ Chain_queryTxState c' (Tx_Hash tx) = Some state ∧ final state = false) ∧
  (reliable w → signing key → ∀ nonce, Chain_nextNonce c (addressOf key) = Ok nonce → ∃ h, r = Ok h).
Proof.
  intros Hr Hrun c. pose proof (submit_queued _ _ _ _ _ _ _ Hr Hrun) as [Hc Hq]. split; [done|]. split.
  - destruct Hq as [Hq|(nonce & tx & Hp & Hn & (Hask & Ha & Hnon) & Hv & Hout)]; [by left|]. right. exists nonce, tx.
    split_and!; [done..|]. intros base Hb Hw Hpool Henc.
    destruct (admissible_pooled (ttlOf sub) tx c) as [db Hproc]; [|done|].
    { split; [done|]. split; [done|]. exists base. by rewrite Ha, Hnon. }
    destruct (pooled_state c tx db) as (st & Hst & Hf).
    { unfold Chain_nextNonce in Hn. fold c in Hn. destruct (headBranch c); [by eexists|done]. }
    exists (pooled c tx db), st. split_and!; [by destruct sub| |done|done].
    unfold pooled. destruct c. cbn. by rewrite lookup_insert_eq.
  - intros Hd Hs nonce Hn. destruct (submit_ok ds key clock sub w nonce Hr Hd Hs Hn) as [h Hh]. exists h. by rewrite Hrun in Hh.
Qed.

(** ** The database of a creation *)

Section creations.
Context `{Env}.

Lemma L_apply_databases t h l l' : L_apply t h l = (Ok tt, l') →
  ∃ l1, L_applyTransaction t h l = (Ok tt, l1) ∧ l_databases l' = l_databases l1.
Proof.
  unfold L_apply. intros Hrun. apply bind_Ok in Hrun as (n & l0 & Hn & Hrun).
  assert (l0 = l) as ->.
  { unfold L_expectedNonce in Hn. go_unfold in Hn. destruct (l_accounts l !! _); [by simplify_eq|]. destruct (decide (GetTransactionType t ≠ _)); by simplify_eq. }
  case_decide; [done|]. apply bind_Ok in Hrun as ([] & l1 & Ht & Hi). exists l1. split; [done|].
  unfold L_increaseNonce, L_getAccount in Hi. go_unfold in Hi. destruct (l_accounts l1 !! _); [|done]. by injection Hi as <-.
Qed.
(** A creation that is applied adds the database of its owner and nonce, or none. *)
Lemma create_applied (t : Signed CreateDatabaseHeader) h s s' : wf_state s → is_u64 (cd_AdvancePayment (tx_Header t)) →
  MetaTx.apply (TxCreateDatabase t) h s = (Ok tt, s') →
  l_databases (view s') = l_databases (view s) ∨
  l_databases (view s) !! databaseOf t = None ∧
  ∃ p, l_databases (view s') = <[databaseOf t := p]> (l_databases (view s)) ∧ sp_ID p = databaseOf t ∧ sp_Owner p = cd_Owner (tx_Header t) ∧
    (su_Address <$> sp_Users p) = [cd_Owner (tx_Header t)] ∧ length (sp_Miners p) = Z.to_nat (rm_Node (cd_ResourceMeta (tx_Header t))).
Proof.
  intros Hwf Ha Hrun. destruct (at_apply s (TxCreateDatabase t) h Hwf Ha) as (r & s1 & Hm & Hf & _).
  rewrite Hrun in Hm. injection Hm as <- <-. apply L_apply_databases in Hf as (l1 & Ht & ->). cbn [L_applyTransaction] in Ht.
  apply L_matchProviders_Ok in Ht as (_ & _ & Ht); [|by apply wf_view|done]. destruct Ht as [->|Ht]; [by left|]. right.
  destruct Ht as (ms & dbAddr & enc & a & b & Hlen & _ & _ & _ & _ & Hnone & _ & ->). split; [done|].
  eexists. split; [reflexivity|]. done.
Qed.
End creations.

(** C24: The database a client is told of is the one the ledger creates.  When creating
    a database succeeds, the transaction that is queued carries the client's address
    and, in every well-formed state of the ledger in which it is applied successfully,
    either adds no database or adds exactly the database of the DSN, which did not
    exist, with the wanted number of miners and the client as owner and only user. *)
Theorem create_names_database `{TxMarshal} ds (key : PrivateKey) (clock : Z) (meta : CreateMeta) (w : bpWorld) h dbID w' :
  ready ds key → is_u64 (cm_AdvancePayment meta) → Create ds clock meta w = (Ok (h, dbID), w') →
  ∃ t, bw_pendingAddTxReqs w' = bw_pendingAddTxReqs w ++ [MkAddTxReq 1 (Some (TxCreateDatabase t))] ∧ h = Tx_Hash (TxCreateDatabase t) ∧
  ∀ height s s', wf_state s → MetaTx.apply (TxCreateDatabase t) height s = (Ok tt, s') →
    l_databases (view s') = l_databases (view s) ∨
    l_databases (view s) !! dbID = None ∧
    ∃ p, l_databases (view s') = <[dbID := p]> (l_databases (view s)) ∧ sp_ID p = dbID ∧ sp_Owner p = addressOf key ∧
      (su_Address <$> sp_Users p) = [addressOf key] ∧ length (sp_Miners p) = Z.to_nat (rm_Node (cm_ResourceMeta meta)).
Proof.
  intros Hr Hadv Hrun. apply (Create_queued _ key) in Hrun as [_ [[_ Hno]|(nonce & tx & Hp & _ & (Hask & _) & _ & Hout)]]; [by destruct (Hno (h, dbID))| |done].
  destruct (Hout _ eq_refl) as (t & -> & [= -> ->]). cbn [asks] in Hask. exists t. split_and!; [done|done|].
  intros height s s' Hwf Happ. apply create_applied in Happ; [|done|].
  - assert (databaseOf t = FromAccountAndNonce (addressOf key) (u32 nonce)) as Hdb by (unfold databaseOf; by rewrite Hask).
    rewrite Hdb, Hask in Happ. exact Happ.
  - rewrite Hask. cbn [createHeader cd_AdvancePayment]. unfold orDefault. case_decide; [done|exact Hadv].
Qed.

(** * A client and a block producer, concretely

    A hash of headers, a codec for transfers, a block producer with the sample ledger,
    and runs of the theorems about submitted transactions: a transfer whose answer is
    lost, and a database that is created. *)

Lemma headSign_Verify (k : Z) (h sig : list Z) : Some (k :: h) = Some sig → bool_decide (sig = k :: h) = true.
Proof. intros [= <-]. by apply bool_decide_eq_true. Qed.
#[export] Instance nonceEnv : BlockEnv := {|
  MarshalHash_BPHeader := λ h, Some (bh_MerkleRoot h);
  MarshalHash_Transaction := λ t, Some [GetAccountNonce t];
  PrivateKey := Z;
  key_PubKey := λ k, k;
  key_Sign := λ k h, Some (k :: h);
  key_Sign_Verify := headSign_Verify;
|}.
#[export] Instance nonceMarshal : TxMarshal.
Proof. split; reflexivity. Defined.

(** ** A codec for transfers *)

Definition putList (l : list Z) : list Z := Z.of_nat (length l) :: l.
Definition getList (r : list Z) : list Z * list Z :=
  match r with n :: r => (take (Z.to_nat n) r, drop (Z.to_nat n) r) | [] => ([], []) end.
Lemma getList_put l r : getList (putList l ++ r) = (l, r).
Proof. cbn. by rewrite Nat2Z.id, take_app_length, drop_app_length. Qed.
Definition encodeTransfer (tx : Transaction) : option (list Z) :=
  match tx with
  | TxTransfer (MkSigned (MkTransferHeader from to nonce amount tk) (MkMixin ty ts) (MkHSV dh (Some k) (Some sig))) =>
      Some (nonce :: amount :: tk :: ty :: ts :: k :: putList from ++ putList to ++ putList dh ++ sig)
  | _ => None
  end.
Definition decodeTransfer (enc : list Z) : option Transaction :=
  match enc with
  | nonce :: amount :: tk :: ty :: ts :: k :: r =>
      let '(from, r) := getList r in
      let '(to, r) := getList r in
      let '(dh, sig) := getList r in
      Some (TxTransfer (MkSigned (MkTransferHeader from to nonce amount tk) (MkMixin ty ts) (MkHSV dh (Some k) (Some sig))))
  | _ => None
  end.
Lemma decode_encodeTransfer tx enc : encodeTransfer tx = Some enc → decodeTransfer enc = Some tx.
Proof.
  destruct tx as [[[from to nonce amount tk] [ty ts] [dh [k|] [sig|]]]| | | | | | | |]; try done. cbn [encodeTransfer]. intros Henc.
  apply (inj Some) in Henc. rewrite <- Henc. cbn [decodeTransfer]. repeat (rewrite getList_put; cbv beta iota). done.
Qed.
#[export] Instance transferCodec : MsgPack Transaction :=
  {| EncodeMsgPack := encodeTransfer; DecodeMsgPack := decodeTransfer; Decode_Encode := decode_encodeTransfer |}.

(** ** The block producer *)

Definition bpGenesis : BPBlock := MkBPBlock (MkBPSignedHeader (MkBPHeader 1 alice zeroHash zeroHash 0) (MkHSV (addr 10) None None)) [].
Definition bpNode : blockNode := newBlockNode 0 bpGenesis None.
Definition bpChain : Chain :=
  MkChain emptyTables alice 0 0 0 0 [] (MkBPInfo 0 0 "" "") "" 0 0 0 bpNode sampleState 0 [MkBranch bpNode sampleState ∅ ∅] ∅.
Definition bpWorldOf (net : nat → delivery) : bpWorld := MkBpWorld bpChain [] [] net 0.
Definition aliceKey : @PrivateKey _ nonceEnv := 1.
Definition aliceDriver : driverState := MkDriverState true (Ok aliceKey) (Ok (key_PubKey aliceKey)).
Lemma alice_ready : ready aliceDriver aliceKey.
Proof. done. Qed.

(** The answer of the second call, which adds the transaction, is lost. *)
Definition losing (n : nat) : delivery := match n with S O => AnswerLost (ErrNew "timeout") | _ => Delivered end.
Definition toCarol : submission := SubTransfer carol 300 Particle.
Definition encodable (l : list AddTxReq) : bool :=
  match l with [MkAddTxReq _ (Some tx)] => bool_decide (is_Some (EncodeMsgPack tx)) | _ => false end.
Lemma submission_admitted_witness : ∃ tx c' state,
  (submit aliceDriver 77 toCarol (bpWorldOf losing)).1 = Err (ErrNew "timeout") ∧
  bw_pendingAddTxReqs (submit aliceDriver 77 toCarol (bpWorldOf losing)).2 = [MkAddTxReq 0 (Some tx)] ∧
  processAddTxReq (MkEngine true None) (Some (MkAddTxReq 0 (Some tx))) bpChain = (Ok None, c') ∧
  Chain_queryTxState c' (Tx_Hash tx) = Some state ∧ final state = false.
Proof.
  assert ((submit aliceDriver 77 toCarol (bpWorldOf losing)).1 = Err (ErrNew "timeout")) as Herr by (vm_compute; reflexivity).
  assert (encodable (bw_pendingAddTxReqs (submit aliceDriver 77 toCarol (bpWorldOf losing)).2) = true) as Henc by (vm_compute; reflexivity).
  destruct (submit aliceDriver 77 toCarol (bpWorldOf losing)) as [r w'] eqn:Hrun. cbn [fst snd] in *.
  destruct (submission_admitted aliceDriver aliceKey 77 toCarol (bpWorldOf losing) r w' alice_ready Hrun)
    as (_ & [[Hp _]|(nonce & tx & Hp & Hn & _ & _ & _ & Hadm)] & _); [by rewrite Hp in Henc|].
  assert (nonce = 5) as ->.
  { assert (Chain_nextNonce bpChain (addressOf aliceKey) = Ok 5) as H5 by (vm_compute; reflexivity).
    change (bw_chain (bpWorldOf losing)) with bpChain in Hn. congruence. }
  destruct (Hadm 5) as (c' & state & Hproc & _ & Hst & Hf).
  - vm_compute. reflexivity.
  - unfold u32, MaxPendingTxsPerAccount. vm_compute. split; [discriminate|reflexivity].
  - done.
  - rewrite Hp in Henc. by apply bool_decide_eq_true in Henc.
  - exists tx, c', state. split_and!; done.
Defined.

(** A database of one node, with the default price and payment. *)
Definition oneNode : CreateMeta := MkCreateMeta (sampleMeta 1) 0 0.
Lemma oneNode_u64 : is_u64 (cm_AdvancePayment oneNode).
Proof. by split. Qed.
Definition creation : GoResult error (Hash * DatabaseID) * bpWorld := Create aliceDriver 77 oneNode (bpWorldOf (λ _, Delivered)).
(** The queued creation succeeds on the sample ledger, which then has two databases. *)
Definition second (l : list AddTxReq) : bool :=
  match l with
  | [MkAddTxReq _ (Some tx)] =>
      match MetaTx.apply tx 7 sampleState with (Ok _, s') => (size (l_databases (view s')) =? 2)%nat | _ => false end
  | _ => false
  end.
Lemma create_names_database_witness : ∃ h dbID t s' p,
  creation.1 = Ok (h, dbID) ∧ bw_pendingAddTxReqs creation.2 = [MkAddTxReq 1 (Some (TxCreateDatabase t))] ∧
  MetaTx.apply (TxCreateDatabase t) 7 sampleState = (Ok tt, s') ∧ l_databases (view s') !! dbID = Some p ∧ sp_Owner p = alice.
Proof.
  assert (second (bw_pendingAddTxReqs creation.2) = true) as Happ by (vm_compute; reflexivity).
  assert (match creation.1 with Ok _ => true | _ => false end = true) as Hok by (vm_compute; reflexivity).
  destruct creation as [r w'] eqn:Hrun. cbn [fst snd] in *. destruct r as [[h dbID]| |]; [|done..].
  unfold creation in Hrun.
  pose proof (create_names_database aliceDriver aliceKey 77 oneNode (bpWorldOf (λ _, Delivered)) h dbID w' alice_ready oneNode_u64 Hrun) as Hcr.
  destruct Hcr as (t & Hp & _ & Hcr).
  rewrite Hp in Happ. cbn [second app bpWorldOf bw_pendingAddTxReqs] in Happ.
  destruct (MetaTx.apply (TxCreateDatabase t) 7 sampleState) as [r' s'] eqn:Ha. destruct r' as [[]| |]; [|done..].
  destruct (Hcr 7 sampleState s' wf_sampleState Ha) as [Hsame|(Hnone & p & Hdb & _ & Ho & _)].
  - exfalso. rewrite Hsame in Happ. revert Happ. vm_compute. discriminate.
  - exists h, dbID, t, s', p. split_and!; [done|done|done|by rewrite Hdb, lookup_insert_eq|done].
Defined.
