(* ===== verification/Observer.v ===== *)
(** * The observer

    Models [src/sqlchain/observer/service.go] and [worker.go]: an observer follows the
    chains of databases block by block, keeps the blocks in a table and indexes their
    acknowledgements, requests and responses.  The tables are those of its SQL file;
    any statement may fail, and where a query can answer several rows the engine
    chooses one.  The answers of block producers and miners are arguments.  A pull is
    given the head its worker read before, so that other operations come in between. *)
From S2P Require Import Prelude Hash Types Block SqlTypes.
From Stdlib Require Import String ZArith Lia.
From stdpp Require Import base list gmap strings.
Local Open Scope Z_scope.

Inductive oerror :=
| ErrStopped | ErrNotFound | ErrInconsistentData | SqlFailed (msg : string) | RemoteFailed (msg : string)
| SignFailed | EncodeFailed | DecodeFailed | VerifyFailed (e : serror) | NilBlock.

(** ** Tables *)

(** The tables with the places of acknowledgements, requests and responses. *)
Inductive itable := TAck | TRequest | TResponse.
#[export] Instance itable_eq_dec : EqDecision itable.
Proof. solve_decision. Defined.
Definition itable_code (t : itable) : nat := match t with TAck => 0 | TRequest => 1 | TResponse => 2 end.
Definition itable_of (n : nat) : itable := match n with O => TAck | S O => TRequest | _ => TResponse end.
#[export] Instance itable_countable : Countable itable.
Proof. apply (inj_countable' itable_code itable_of). by intros []. Defined.

Record blockRow := MkBlockRow { br_db : DatabaseID; br_height : Z; br_count : Z; br_hash : string; br_block : list Z }.
#[export] Instance blockRow_eq_dec : EqDecision blockRow.
Proof. solve_decision. Defined.
Implicit Types (row : blockRow).

(** [subscription] has no key, so that replacing a row adds one. *)
Record obsTables := MkObsTables {
  ob_block : list blockRow;
  ob_index : gmap (itable * DatabaseID * string) (Z * Z);
  ob_subscriptions : list (DatabaseID * Z);
}.
Implicit Types (tb : obsTables).
Definition emptyObs : obsTables := MkObsTables [] ∅ [].

Definition saveSubscriptionSQL (id : DatabaseID) (count : Z) tb : obsTables :=
  MkObsTables (ob_block tb) (ob_index tb) (ob_subscriptions tb ++ [(id, count)]).
Definition saveIndexSQL (t : itable) (id : DatabaseID) (hash : string) (height offset : Z) tb : obsTables :=
  MkObsTables (ob_block tb) (<[(t, id, hash) := (height, offset)]> (ob_index tb)) (ob_subscriptions tb).
Definition saveBlockSQL row tb : obsTables :=
  MkObsTables (filter (λ r, ¬ (br_db r = br_db row ∧ br_hash r = br_hash row)) (ob_block tb) ++ [row]) (ob_index tb) (ob_subscriptions tb).

(** Which of several rows [LIMIT 1] answers. *)
Class RowChoice := {
  limit1 : list blockRow → option blockRow;
  limit1_in l row : limit1 l = Some row → row ∈ l;
  limit1_none l : limit1 l = None → l = [];
}.

(** ** The service *)

Section observer.
Context `{SqlEnv} `{!MsgPack Block} `{!RowChoice}.
Implicit Types (id : DatabaseID) (b : Block).

(** [subscribeWorker]; it runs while its channel is open. *)
Record subscribeWorker := MkWorker { wk_head : Z; wk_running : bool }.
(** What is used of [types.ServiceInstance]. *)
Record upstream := MkUpstream { up_Leader : NodeID; up_GenesisBlock : Block }.

Record Service := MkService {
  sv_subscription : gmap DatabaseID subscribeWorker;
  sv_upstreamServers : gmap DatabaseID upstream;
  sv_db : obsTables;
  sv_stopped : bool;
  sv_period : Z;  (* conf.GConf.SQLChainPeriod *)
  sv_faults : nat → option oerror;
  sv_stmts : nat;
}.
Implicit Types (s : Service).
Abbreviation OM := (GoM Service oerror).

Definition set_worker s id (w : subscribeWorker) : Service :=
  MkService (<[id := w]> (sv_subscription s)) (sv_upstreamServers s) (sv_db s) (sv_stopped s) (sv_period s) (sv_faults s) (sv_stmts s).
Definition set_upstream s id (u : upstream) : Service :=
  MkService (sv_subscription s) (<[id := u]> (sv_upstreamServers s)) (sv_db s) (sv_stopped s) (sv_period s) (sv_faults s) (sv_stmts s).
Definition set_db s tb : Service :=
  MkService (sv_subscription s) (sv_upstreamServers s) tb (sv_stopped s) (sv_period s) (sv_faults s) (sv_stmts s).
Definition set_period s (p : Z) : Service :=
  MkService (sv_subscription s) (sv_upstreamServers s) (sv_db s) (sv_stopped s) p (sv_faults s) (sv_stmts s).
Definition nextStmt s : Service :=
  MkService (sv_subscription s) (sv_upstreamServers s) (sv_db s) (sv_stopped s) (sv_period s) (sv_faults s) (S (sv_stmts s)).

(** A statement that writes, and one that reads; a stopped service has closed its file. *)
Definition failing s : option oerror := if sv_stopped s then Some (SqlFailed "sql: database is closed") else sv_faults s (sv_stmts s).
Definition exec (f : obsTables → obsTables) : OM unit := λ s,
  match failing s with Some e => (Err e, nextStmt s) | None => (Ok tt, set_db (nextStmt s) (f (sv_db s))) end.
Definition select {A} (f : obsTables → A) : OM A := λ s,
  match failing s with Some e => (Err e, nextStmt s) | None => (Ok (f (sv_db s)), nextStmt s) end.
Definition unlessStopped {A} (m : OM A) : OM A := s ← getS; if sv_stopped s then throw ErrStopped else m.

(** [NewService] on the tables of the file; a later row of a database wins. *)
Definition NewService (faults : nat → option oerror) (period : Z) tb : Service :=
  MkService (foldl (λ m kv, <[kv.1 := MkWorker kv.2 false]> m) ∅ (ob_subscriptions tb)) ∅ tb false period faults 0.

Definition saveSubscriptionStatus id (count : Z) : OM unit := unlessStopped (exec (saveSubscriptionSQL id count)).

(** *** Workers *)

Definition ReplicateFromBeginning : Z := 0.
Definition ReplicateFromNewest : Z := -1.
(** [subscribeWorker.start]: the error of saving is dropped. *)
Definition worker_start id : OM unit :=
  s ← getS;
  match sv_subscription s !! id with
  | None => panic
  | Some w =>
      attempt (saveSubscriptionStatus id (wk_head w));;
      modifyS (λ s, set_worker s id (MkWorker (wk_head w) true))
  end.
Definition worker_reset id (head : Z) : OM unit :=
  s ← getS;
  match sv_subscription s !! id with
  | None => panic
  | Some w => modifyS (λ s, set_worker s id (MkWorker head (wk_running w)));; worker_start id
  end.
Definition worker_stop (w : subscribeWorker) : subscribeWorker := MkWorker (wk_head w) false.
Definition loadOrStore id (head : Z) : OM unit :=
  s ← getS;
  match sv_subscription s !! id with Some _ => mret tt | None => modifyS (λ s, set_worker s id (MkWorker head false)) end.
Definition fromPosition (position : string) : Z :=
  if decide (position = "oldest"%string) then ReplicateFromBeginning else ReplicateFromNewest.
Definition subscribe id (resetSubscribePosition : string) : OM unit :=
  unlessStopped (
    if decide (resetSubscribePosition = ""%string) then loadOrStore id ReplicateFromNewest;; worker_start id
    else loadOrStore id (fromPosition resetSubscribePosition);; worker_reset id (fromPosition resetSubscribePosition)).
Fixpoint startAll (ids : list DatabaseID) : OM unit :=
  match ids with [] => mret tt | id :: ids => worker_start id;; startAll ids end.
Definition start : OM unit := unlessStopped (s ← getS; startAll (map_to_list (sv_subscription s)).*1).
Definition stop : OM unit :=
  unlessStopped (modifyS (λ s, MkService (worker_stop <$> sv_subscription s) (sv_upstreamServers s) (sv_db s) true (sv_period s) (sv_faults s) (sv_stmts s))).
Definition getAllSubscriptions s : gmap DatabaseID Z := wk_head <$> sv_subscription s.

(** *** Upstream *)

(** [getUpstream]: [profile] is the answer of the block producer, [sign] the error of
    signing the peers; a profile without miners is indexed out of range. *)
Definition getUpstream (profile : GoResult oerror SQLChainProfile) (sign : option oerror) id : OM upstream :=
  s ← getS;
  match sv_upstreamServers s !! id with
  | Some u => mret u
  | None =>
      p ← liftR profile;
      match mi_NodeID <$> sp_Miners p with
      | [] => panic
      | leader :: _ =>
          match sign with
          | Some e => throw e
          | None =>
              match DecodeMsgPack (sp_EncodedGenesis p) with
              | None => throw DecodeFailed
              | Some genesis =>
                  let u := MkUpstream leader genesis in
                  modifyS (λ s, set_upstream s id u);; mret u
              end
          end
      end
  end.
Definition minerRequest {A} (profile : GoResult oerror SQLChainProfile) (sign : option oerror) id (answer : GoResult oerror A) : OM A :=
  getUpstream profile sign id;; liftR answer.

(** *** Blocks *)

Definition verified (r : GoResult serror unit) : OM unit :=
  match r with Ok _ => mret tt | Err e => throw (VerifyFailed e) | Panic => panic end.
Definition addAck id (height offset : Z) (ack : SignedAckHeader) : OM unit :=
  unlessStopped (verified (Ack_Verify ack);; exec (saveIndexSQL TAck id (Hash_String (Ack_Hash ack)) height offset)).
Definition addQueryTracker id (height offset : Z) (qt : QueryAsTx) : OM unit :=
  unlessStopped (
    verified (Request_Verify (qt_Request qt));;
    verified (SignedResponseHeader_VerifyHash (qt_Response qt));;
    exec (saveIndexSQL TRequest id (Hash_String (Request_Hash (qt_Request qt))) height offset);;
    exec (saveIndexSQL TResponse id (Hash_String (sr_ResponseHash (qt_Response qt))) height offset)).
Fixpoint addAcks id (height : Z) (i : nat) (acks : list SignedAckHeader) : OM unit :=
  match acks with [] => mret tt | q :: acks => addAck id height (i32 (Z.of_nat i)) q;; addAcks id height (S i) acks end.
Fixpoint addQueries id (height : Z) (i : nat) (qts : list QueryAsTx) : OM unit :=
  match qts with [] => mret tt | q :: qts => addQueryTracker id height (i32 (Z.of_nat i)) q;; addQueries id height (S i) qts end.

(** A period of zero becomes one of three nanoseconds. *)
Definition periodOf (p : Z) : Z := if decide (p = 0) then 3 else p.
Definition heightIn (period : Z) (u : upstream) b : Z :=
  i32 (Z.quot (time_Sub (Block_Timestamp b) (Block_Timestamp (up_GenesisBlock u))) (periodOf period)).
Definition addBlock (profile : GoResult oerror SQLChainProfile) (sign : option oerror) id (count : Z) (ob : option Block) : OM unit :=
  u ← getUpstream profile sign id;
  match ob with
  | None => mret tt
  | Some b =>
      modifyS (λ s, set_period s (periodOf (sv_period s)));;
      s ← getS;
      let h := heightIn (sv_period s) u b in
      match EncodeMsgPack b with
      | None => throw EncodeFailed
      | Some bytes =>
          exec (saveBlockSQL (MkBlockRow id h count (Hash_String (Block_BlockHash b)) bytes));;
          addAcks id h 0 (sb_Acks b);;
          addQueries id h 0 (sb_QueryTxs b)
      end
  end.

(** [pull] of the block [count], which is the head its worker read. *)
Definition pull (profile : GoResult oerror SQLChainProfile) (sign : option oerror) (answer : GoResult oerror (option Block * Z)) id (count : Z) : OM unit :=
  '(ob, respCount) ← minerRequest profile sign id answer;
  match ob with
  | None => throw NilBlock
  | Some b =>
      addBlock profile sign id count (Some b);;
      let next := i32 ((if decide (count < 0) then respCount else count) + 1) in
      s ← getS;
      match sv_subscription s !! id with
      | None => panic
      | Some w =>
          if decide (wk_head w = count) then
            modifyS (λ s, set_worker s id (MkWorker next (wk_running w)));;
            attempt (saveSubscriptionStatus id next);;
            mret tt
          else mret tt
      end
  end.

(** *** Answers *)

Definition decodeRow (o : option blockRow) : OM (Z * Z * Block) :=
  match o with
  | None => throw ErrNotFound
  | Some row => match DecodeMsgPack (br_block row) with None => throw DecodeFailed | Some b => mret (br_height row, br_count row, b) end
  end.
Definition rowsOf id tb : list blockRow := filter (λ r, br_db r = id) (ob_block tb).
Definition byHeight id (height : Z) tb : option blockRow := limit1 (filter (λ r, br_height r = height) (rowsOf id tb)).
Definition byCount id (count : Z) tb : option blockRow := limit1 (filter (λ r, br_count r = count) (rowsOf id tb)).
Definition byHash id (h : Hash) tb : option blockRow := limit1 (filter (λ r, br_hash r = Hash_String h) (rowsOf id tb)).
Definition highest id tb : option blockRow :=
  limit1 (filter (λ r, Forall (λ r', br_count r' <= br_count r) (rowsOf id tb)) (rowsOf id tb)).
Definition getBlockByHeight id (height : Z) : OM (Z * Block) :=
  o ← select (byHeight id height); '(_, count, b) ← decodeRow o; mret (count, b).
Definition getBlockByCount id (count : Z) : OM (Z * Block) :=
  o ← select (byCount id count); '(height, _, b) ← decodeRow o; mret (height, b).
Definition getBlock id (h : Hash) : OM (Z * Z * Block) :=
  o ← select (byHash id h); '(height, count, b) ← decodeRow o; mret (count, height, b).
Definition getHighestBlockV2 id : OM (Z * Z * Block) :=
  o ← select (highest id); '(height, count, b) ← decodeRow o; mret (count, height, b).
Definition getHighestBlock id : OM (Z * Block) := '(_, height, b) ← getHighestBlockV2 id; mret (height, b).

(** The place of an entry. *)
Definition located (t : itable) id (h : Hash) : OM (Z * Z) :=
  o ← select (λ tb, ob_index tb !! (t, id, Hash_String h));
  match o with None => throw ErrNotFound | Some p => mret p end.
(** The entry of a list at a place, whose hash must be the one asked for. *)
Definition entryAt {A} (l : list A) (offset : Z) (hashOf : A → Hash) (h : Hash) : OM A :=
  if decide (offset < 0 ∨ i32 (Z.of_nat (length l)) <= offset) then throw ErrInconsistentData
  else
    match l !! Z.to_nat offset with
    | None => panic
    | Some a => if Hash_IsEqual (Some (hashOf a)) (Some h) then mret a else throw ErrInconsistentData
    end.
Definition getAck id (h : Hash) : OM SignedAckHeader :=
  '(height, offset) ← located TAck id h; '(_, b) ← getBlockByHeight id height; entryAt (sb_Acks b) offset Ack_Hash h.
Definition getRequest id (h : Hash) : OM Request :=
  '(height, offset) ← located TRequest id h; '(_, b) ← getBlockByHeight id height;
  qt ← entryAt (sb_QueryTxs b) offset (λ q, Request_Hash (qt_Request q)) h; mret (qt_Request qt).
Definition getResponseHeader id (h : Hash) : OM SignedResponseHeader :=
  '(height, offset) ← located TResponse id h; '(_, b) ← getBlockByHeight id height;
  qt ← entryAt (sb_QueryTxs b) offset (λ q, sr_ResponseHash (qt_Response q)) h; mret (qt_Response qt).
End observer.
