(* ===== verification/ObserverProps.v ===== *)
(** * What an observer answers

    The blocks of a database come from one chain with a block per height.  Then the
    index of an observer always points at the entries it names: a lookup answers the
    entry with the wanted hash, or that there is none, never inconsistent data; and
    what was pulled once is found from then on, across restarts. *)
From S2P Require Import Prelude Hash Types Block SqlTypes Observer.
From Stdlib Require Import String ZArith Lia.
From stdpp Require Import base list gmap strings relations.
Local Open Scope Z_scope.

Section props.
#[local] Opaque Hash_String.
Context `{SqlEnv} `{!MsgPack Block} `{!RowChoice}.
Implicit Types (id : DatabaseID) (b : Block) (s : Service) (tb : obsTables).

(** ** The chain that is observed *)

Definition entryHashes (t : itable) b : list Hash :=
  match t with
  | TAck => Ack_Hash <$> sb_Acks b
  | TRequest => (λ q, Request_Hash (qt_Request q)) <$> sb_QueryTxs b
  | TResponse => (λ q, sr_ResponseHash (qt_Response q)) <$> sb_QueryTxs b
  end.

Context (blockAt : DatabaseID → Z → option Block).
Record oneChain : Prop := {
  oc_small id h b t : blockAt id h = Some b → is_i32 (Z.of_nat (length (entryHashes t b)));
  oc_valid id h b : blockAt id h = Some b → valid_hash (Block_BlockHash b);
  oc_distinct id h h' b b' : blockAt id h = Some b → blockAt id h' = Some b' → Block_BlockHash b = Block_BlockHash b' → h = h';
}.

(** ** The tables *)

Definition hasRow id (h : Z) tb : Prop := ∃ row, row ∈ ob_block tb ∧ br_db row = id ∧ br_height row = h.
Record wfTables tb : Prop := {
  wt_rows row : row ∈ ob_block tb → ∃ b, DecodeMsgPack (br_block row) = Some b ∧ blockAt (br_db row) (br_height row) = Some b ∧
    br_hash row = Hash_String (Block_BlockHash b);
  wt_index t id hs h off : ob_index tb !! (t, id, hs) = Some (h, off) → hasRow id h tb ∧ ∃ b x, blockAt id h = Some b ∧ 0 <= off ∧
    entryHashes t b !! Z.to_nat off = Some x ∧ valid_hash x ∧ Hash_String x = hs;
}.
Definition indexed (t : itable) id (x : Hash) tb : Prop := valid_hash x ∧ is_Some (ob_index tb !! (t, id, Hash_String x)).
(** Nothing that was indexed or stored is lost. *)
Definition grows tb tb' : Prop :=
  (∀ t id x, indexed t id x tb → indexed t id x tb') ∧ (∀ id h, hasRow id h tb → hasRow id h tb').

Lemma wf_empty : wfTables emptyObs.
Proof. split; [intros row Hr; by apply not_elem_of_nil in Hr|]. intros t id hs h off Hl. cbn [emptyObs ob_index] in Hl. by rewrite lookup_empty in Hl. Qed.
#[local] Instance grows_preorder : PreOrder grows.
Proof. split; [by split|]. intros t1 t2 t3 [H1a H1b] [H2a H2b]. split; eauto. Qed.

Lemma saveSubscription_wf id count tb : wfTables tb → wfTables (saveSubscriptionSQL id count tb) ∧ grows tb (saveSubscriptionSQL id count tb).
Proof. intros [Hr Hi]. split; [by split|by split]. Qed.
Lemma saveIndex_wf t id x h off b tb : wfTables tb → hasRow id h tb → blockAt id h = Some b → 0 <= off →
  entryHashes t b !! Z.to_nat off = Some x → valid_hash x →
  let tb' := saveIndexSQL t id (Hash_String x) h off tb in wfTables tb' ∧ grows tb tb' ∧ indexed t id x tb'.
Proof.
  intros [Hr Hi] Hrow Hb Hoff He Hx tb'. assert (indexed t id x tb') as Hin by (split; [done|]; change (ob_index tb') with (<[(t, id, Hash_String x) := (h, off)]> (ob_index tb)); by rewrite lookup_insert_eq).
  split_and!; [|split; [|done]|done].
  - split; [done|]. intros t' id' hs' h' off' Hl. change (<[(t, id, Hash_String x) := (h, off)]> (ob_index tb) !! (t', id', hs') = Some (h', off')) in Hl. destruct (decide ((t, id, Hash_String x) = (t', id', hs'))) as [[= <- <- <-]|Hne].
    + rewrite lookup_insert_eq in Hl. injection Hl as <- <-. split; [done|]. by exists b, x.
    + rewrite lookup_insert_ne in Hl by done. destruct (Hi _ _ _ _ _ Hl) as (Hrow' & He'). done.
  - intros t' id' x' [Hv' Hx']. split; [done|]. change (ob_index tb') with (<[(t, id, Hash_String x) := (h, off)]> (ob_index tb)). destruct (decide ((t, id, Hash_String x) = (t', id', Hash_String x'))) as [[= <- <- <-]|Hne].
    + by rewrite lookup_insert_eq.
    + by rewrite lookup_insert_ne.
Qed.
Lemma saveBlock_wf id h count b bytes tb : oneChain → wfTables tb → blockAt id h = Some b → DecodeMsgPack bytes = Some b →
  let tb' := saveBlockSQL (MkBlockRow id h count (Hash_String (Block_BlockHash b)) bytes) tb in
  wfTables tb' ∧ grows tb tb' ∧ hasRow id h tb'.
Proof.
  intros Hoc [Hr Hi] Hb Hd tb'. set (row := MkBlockRow id h count (Hash_String (Block_BlockHash b)) bytes) in *.
  assert (row ∈ ob_block tb') as Hnew by (apply elem_of_app; right; by apply list_elem_of_singleton).
  assert (∀ id' h', hasRow id' h' tb → hasRow id' h' tb') as Hrows.
  { intros id' h' (r & Hin & Hdb & Hh). destruct (decide (br_db r = br_db row ∧ br_hash r = br_hash row)) as [[Ed Eh]|Hne].
    - exists row. split; [done|]. destruct (Hr r Hin) as (b' & _ & Hb' & Hs). change (br_db row) with id in Ed. change (br_hash row) with (Hash_String (Block_BlockHash b)) in Eh. rewrite Ed, Hh in *. split; [done|]. change (br_height row) with h. rewrite Hs in Eh.
      apply Hash_String_inj in Eh; [|by eapply oc_valid..]. symmetry. by eapply (oc_distinct Hoc).
    - exists r. split; [|done]. apply elem_of_app. left. by apply list_elem_of_filter. }
  split_and!; [|split; [done|done]|by exists row].
  split.
  - intros r Hin. apply elem_of_app in Hin as [Hin|Hin%list_elem_of_singleton].
    + apply list_elem_of_filter in Hin as [_ Hin]. by apply Hr.
    + subst r. by exists b.
  - intros t id' hs h' off Hl. destruct (Hi _ _ _ _ _ Hl) as (Hrow' & He'). split; [by apply Hrows|done].
Qed.

(** ** Operations *)

(** The tables are well formed and hold what [tb0] held. *)
Definition kept tb0 s : Prop := wfTables (sv_db s) ∧ grows tb0 (sv_db s).
Definition harmless (f : obsTables → obsTables) : Prop := ∀ tb, wfTables tb → wfTables (f tb) ∧ grows tb (f tb).

Lemma kept_exec tb0 f : harmless f → preserves (kept tb0) (exec f).
Proof.
  intros Hf s r s' [Hw Hg]. unfold exec. destruct (failing s); intros [= <- <-]; [by split|]. destruct (Hf _ Hw) as [Hw' Hg']. split; [done|].
  by etrans.
Qed.
Lemma kept_select {A} tb0 (f : obsTables → A) : preserves (kept tb0) (select f).
Proof. intros s r s' Hk. unfold select. destruct (failing s); by intros [= <- <-]. Qed.
Lemma kept_unlessStopped {A} tb0 (m : GoM Service oerror A) : preserves (kept tb0) m → preserves (kept tb0) (unlessStopped m).
Proof. intros Hm s r s' Hk. unfold unlessStopped. go_unfold. destruct (sv_stopped s); [by intros [= <- <-]|]. by apply Hm. Qed.
Lemma kept_modify tb0 f : (∀ s, sv_db (f s) = sv_db s) → preserves (kept tb0) (modifyS f : GoM Service oerror unit).
Proof. intros Hf. apply preserves_modifyS. intros s [Hw Hg]. unfold kept. by rewrite Hf. Qed.
Lemma kept_saveStatus tb0 id count : preserves (kept tb0) (saveSubscriptionStatus id count).
Proof. apply kept_unlessStopped, kept_exec. intros tb. apply saveSubscription_wf. Qed.
#[local] Hint Resolve kept_select kept_unlessStopped kept_saveStatus : gomach.
Lemma kept_worker_start tb0 id : preserves (kept tb0) (worker_start id).
Proof.
  unfold worker_start. apply preserves_bind; [apply preserves_getS|]. intros s0. destruct (sv_subscription s0 !! id); [|apply preserves_panic].
  apply preserves_bind; [by apply preserves_attempt, kept_saveStatus|]. intros _. by apply kept_modify.
Qed.
Lemma kept_worker_reset tb0 id head : preserves (kept tb0) (worker_reset id head).
Proof.
  unfold worker_reset. apply preserves_bind; [apply preserves_getS|]. intros s0. destruct (sv_subscription s0 !! id); [|apply preserves_panic].
  apply preserves_bind; [by apply kept_modify|]. intros _. apply kept_worker_start.
Qed.
Lemma kept_loadOrStore tb0 id head : preserves (kept tb0) (loadOrStore id head).
Proof.
  unfold loadOrStore. apply preserves_bind; [apply preserves_getS|]. intros s0. destruct (sv_subscription s0 !! id); [apply preserves_ret|by apply kept_modify].
Qed.
Lemma kept_subscribe tb0 id pos : preserves (kept tb0) (subscribe id pos).
Proof.
  apply kept_unlessStopped. destruct (decide (pos = ""%string)); (apply preserves_bind; [apply kept_loadOrStore|intros _]);
    [apply kept_worker_start|apply kept_worker_reset].
Qed.
Lemma kept_start tb0 : preserves (kept tb0) start.
Proof.
  apply kept_unlessStopped. apply preserves_bind; [apply preserves_getS|]. intros s0. generalize (map_to_list (sv_subscription s0)).*1.
  intros ids. induction ids as [|id ids IH]; [apply preserves_ret|]. apply preserves_bind; [apply kept_worker_start|done].
Qed.
Lemma kept_stop tb0 : preserves (kept tb0) stop.
Proof. apply kept_unlessStopped. by apply kept_modify. Qed.
Lemma getUpstream_spec profile sign id s r s' : getUpstream profile sign id s = (r, s') → sv_db s' = sv_db s ∧ sv_period s' = sv_period s ∧
  (∀ u, r = Ok u → sv_upstreamServers s' !! id = Some u) ∧ sv_subscription s' = sv_subscription s.
Proof.
  unfold getUpstream. go_unfold. destruct (sv_upstreamServers s !! id) as [u|] eqn:Hu; [intros [= <- <-]; naive_solver|].
  destruct profile as [p|e|]; [|by intros [= <- <-]..]. destruct (mi_NodeID <$> sp_Miners p); [by intros [= <- <-]|].
  destruct sign; [by intros [= <- <-]|]. destruct (DecodeMsgPack _); [|by intros [= <- <-]]. intros [= <- <-]. cbn [set_upstream sv_db sv_period sv_upstreamServers sv_subscription].
  split_and!; [done|done|intros u [= <-]; apply lookup_insert_eq|done].
Qed.

(** *** Entries *)

Lemma HSV_Verify_valid enc (i : HSV) : HSV_Verify enc i = None → valid_hash (hsv_DataHash i).
Proof.
  unfold HSV_Verify, VerifyHash. destruct enc as [enc|]; [|done]. case_bool_decide as Hh; [|done]. intros _. rewrite Hh. apply THashH_valid.
Qed.
Lemma Ack_Verify_valid a : Ack_Verify a = Ok tt → valid_hash (Ack_Hash a).
Proof. unfold Ack_Verify. destruct (HSV_Verify _ _) eqn:Hv; [done|]. intros _. by eapply HSV_Verify_valid. Qed.
Lemma Request_Verify_valid r : Request_Verify r = Ok tt → valid_hash (Request_Hash r).
Proof.
  unfold Request_Verify. destruct (verifyHash _ _); [|done..]. cbn [result_bind]. destruct (HSV_Verify _ _) eqn:Hv; [done|]. intros _.
  by eapply HSV_Verify_valid.
Qed.
Lemma Response_valid r : SignedResponseHeader_VerifyHash r = Ok tt → valid_hash (sr_ResponseHash r).
Proof.
  unfold SignedResponseHeader_VerifyHash, verifyHash, buildHash. destruct (MarshalHash_ResponseHeader _); [|done]. cbn [result_bind].
  destruct (Hash_IsEqual _ _) eqn:He; [|done]. intros _. cbn in He. apply bool_decide_eq_true in He. rewrite <- He. apply THashH_valid.
Qed.

(** From [s] to [s'] nothing is lost, and the tables stay well formed. *)
Definition evolves s s' : Prop := wfTables (sv_db s) → wfTables (sv_db s') ∧ grows (sv_db s) (sv_db s').
Lemma evolves_refl s : evolves s s.
Proof. by intros Hw. Qed.
Lemma evolves_trans s1 s2 s3 : evolves s1 s2 → evolves s2 s3 → evolves s1 s3.
Proof. intros H1e H2e Hw. destruct (H1e Hw) as [Hw2 Hg1]. destruct (H2e Hw2) as [Hw3 Hg2]. split; [done|]. by etrans. Qed.
Lemma kept_evolves {A} (m : GoM Service oerror A) s r s' : (∀ tb0, preserves (kept tb0) m) → m s = (r, s') → evolves s s'.
Proof. intros Hm Hrun Hw. by apply (Hm (sv_db s) s r s'). Qed.

Section entries.
Context (Hoc : oneChain) (id : DatabaseID) (h : Z) (b : Block) (Hb : blockAt id h = Some b).

Lemma exec_index t i x s r s' : hasRow id h (sv_db s) → entryHashes t b !! i = Some x → valid_hash x →
  exec (saveIndexSQL t id (Hash_String x) h (i32 (Z.of_nat i))) s = (r, s') →
  evolves s s' ∧ (wfTables (sv_db s) → r = Ok tt → indexed t id x (sv_db s')).
Proof.
  intros Hrow He Hx. unfold exec. destruct (failing s); intros [= <- <-]; [by split|].
  pose proof (oc_small Hoc id h b t Hb) as Hs. pose proof (lookup_lt_Some _ _ _ He) as Hlt.
  assert (i32 (Z.of_nat i) = Z.of_nat i) as -> by (apply i32_id; unfold is_i32 in *; lia).
  cbn [set_db sv_db]. split.
  - intros Hw. destruct (saveIndex_wf t id x h (Z.of_nat i) b (sv_db s) Hw Hrow Hb) as (Hw' & Hg & _); [lia|by rewrite Nat2Z.id|done|]. by split.
  - intros Hw _. destruct (saveIndex_wf t id x h (Z.of_nat i) b (sv_db s) Hw Hrow Hb) as (_ & _ & Hin); [lia|by rewrite Nat2Z.id|done|done].
Qed.
Lemma unlessStopped_inv {A} (m : GoM Service oerror A) s r s' : unlessStopped m s = (r, s') → (s' = s ∧ r = Err ErrStopped) ∨ m s = (r, s').
Proof. unfold unlessStopped. go_unfold. destruct (sv_stopped s); [intros [= <- <-]; by left|by right]. Qed.
Lemma verified_inv {A} v (m : GoM Service oerror A) s r s' : (verified v;; m) s = (r, s') → (s' = s ∧ ∀ a, r ≠ Ok a) ∨ (v = Ok tt ∧ m s = (r, s')).
Proof. unfold verified. destruct v as [[]|e|]; go_unfold; [by right|intros [= <- <-]; by left..]. Qed.

Lemma addAck_spec i ack s r s' : hasRow id h (sv_db s) → sb_Acks b !! i = Some ack → addAck id h (i32 (Z.of_nat i)) ack s = (r, s') →
  evolves s s' ∧ (wfTables (sv_db s) → r = Ok tt → indexed TAck id (Ack_Hash ack) (sv_db s')).
Proof.
  intros Hrow Hi Hrun. apply unlessStopped_inv in Hrun as [[-> ->]|Hrun]; [by split|].
  apply verified_inv in Hrun as [[-> Hr]|[Hv Hrun]]; [split; [apply evolves_refl|intros _ ?; by destruct (Hr tt)]|].
  eapply exec_index; [done| |by apply Ack_Verify_valid|exact Hrun]. cbn [entryHashes]. by rewrite list_lookup_fmap, Hi.
Qed.
Lemma addQuery_spec i qt s r s' : hasRow id h (sv_db s) → sb_QueryTxs b !! i = Some qt → addQueryTracker id h (i32 (Z.of_nat i)) qt s = (r, s') →
  evolves s s' ∧ (wfTables (sv_db s) → r = Ok tt →
    indexed TRequest id (Request_Hash (qt_Request qt)) (sv_db s') ∧ indexed TResponse id (sr_ResponseHash (qt_Response qt)) (sv_db s')).
Proof.
  intros Hrow Hi Hrun. apply unlessStopped_inv in Hrun as [[-> ->]|Hrun]; [by split|].
  apply verified_inv in Hrun as [[-> Hr]|[Hv1 Hrun]]; [split; [apply evolves_refl|intros _ ?; by destruct (Hr tt)]|].
  apply verified_inv in Hrun as [[-> Hr]|[Hv2 Hrun]]; [split; [apply evolves_refl|intros _ ?; by destruct (Hr tt)]|].
  assert (entryHashes TRequest b !! i = Some (Request_Hash (qt_Request qt))) as He1 by (cbn [entryHashes]; by rewrite list_lookup_fmap, Hi).
  assert (entryHashes TResponse b !! i = Some (sr_ResponseHash (qt_Response qt))) as He2 by (cbn [entryHashes]; by rewrite list_lookup_fmap, Hi).
  apply bind_inv in Hrun as [([] & s1 & H1e & H2e)|(r0 & H1e & Hr0 & Hr)].
  - apply (exec_index _ _ _ _ _ _ Hrow He1 (Request_Verify_valid _ Hv1)) in H1e as [Hev1 Hin1].
    assert (wfTables (sv_db s) → hasRow id h (sv_db s1)) as Hrow1 by (intros Hw; by apply Hev1).
    split.
    + intros Hw. specialize (Hrow1 Hw). apply (exec_index _ _ _ _ _ _ Hrow1 He2 (Response_valid _ Hv2)) in H2e as [Hev2 _].
      by apply (evolves_trans _ _ _ Hev1 Hev2).
    + intros Hw ->. specialize (Hrow1 Hw). apply (exec_index _ _ _ _ _ _ Hrow1 He2 (Response_valid _ Hv2)) in H2e as [Hev2 Hin2].
      destruct (Hev1 Hw) as [Hw1 _]. split; [|by apply Hin2]. apply (proj2 (Hev2 Hw1)). by apply Hin1.
  - apply (exec_index _ _ _ _ _ _ Hrow He1 (Request_Verify_valid _ Hv1)) in H1e as [Hev1 _]. split; [done|]. intros _ ->. by destruct (Hr tt).
Qed.

(** A list of entries, each stored at its place. *)
Lemma addAcks_spec acks i s r s' : hasRow id h (sv_db s) → (∀ j a, acks !! j = Some a → sb_Acks b !! (i + j)%nat = Some a) →
  addAcks id h i acks s = (r, s') →
  evolves s s' ∧ (wfTables (sv_db s) → r = Ok tt → Forall (λ a, indexed TAck id (Ack_Hash a) (sv_db s')) acks).
Proof.
  revert i s. induction acks as [|a acks IH]; intros i s Hrow Hall Hrun; [injection Hrun as <- <-; by split|].
  cbn [addAcks] in Hrun. pose proof (Hall 0%nat a eq_refl) as Ha. rewrite Nat.add_0_r in Ha.
  apply bind_inv in Hrun as [([] & s1 & H1e & H2e)|(r0 & H1e & Hr0 & Hr)]; apply (addAck_spec _ _ _ _ _ Hrow Ha) in H1e as [Hev1 Hin1].
  2:{ split; [done|]. intros _ ->. by destruct (Hr tt). }
  assert (∀ j a', acks !! j = Some a' → sb_Acks b !! (S i + j)%nat = Some a') as Hall'.
  { intros j a' Hj. rewrite Nat.add_succ_comm. by apply Hall. }
  split.
  - intros Hw. destruct (Hev1 Hw) as [Hw1 Hg1]. destruct (IH (S i) s1 (proj2 Hg1 _ _ Hrow) Hall' H2e) as [Hev2 _].
    by apply (evolves_trans _ _ _ Hev1 Hev2).
  - intros Hw ->. destruct (Hev1 Hw) as [Hw1 Hg1]. destruct (IH (S i) s1 (proj2 Hg1 _ _ Hrow) Hall' H2e) as [Hev2 Hin2].
    constructor; [|by apply Hin2]. apply (proj2 (Hev2 Hw1)). by apply Hin1.
Qed.
Lemma addQueries_spec qts i s r s' : hasRow id h (sv_db s) → (∀ j q, qts !! j = Some q → sb_QueryTxs b !! (i + j)%nat = Some q) →
  addQueries id h i qts s = (r, s') →
  evolves s s' ∧ (wfTables (sv_db s) → r = Ok tt → Forall (λ q, indexed TRequest id (Request_Hash (qt_Request q)) (sv_db s') ∧
    indexed TResponse id (sr_ResponseHash (qt_Response q)) (sv_db s')) qts).
Proof.
  revert i s. induction qts as [|q qts IH]; intros i s Hrow Hall Hrun; [injection Hrun as <- <-; by split|].
  cbn [addQueries] in Hrun. pose proof (Hall 0%nat q eq_refl) as Ha. rewrite Nat.add_0_r in Ha.
  apply bind_inv in Hrun as [([] & s1 & H1e & H2e)|(r0 & H1e & Hr0 & Hr)]; apply (addQuery_spec _ _ _ _ _ Hrow Ha) in H1e as [Hev1 Hin1].
  2:{ split; [done|]. intros _ ->. by destruct (Hr tt). }
  assert (∀ j q', qts !! j = Some q' → sb_QueryTxs b !! (S i + j)%nat = Some q') as Hall'.
  { intros j q' Hj. rewrite Nat.add_succ_comm. by apply Hall. }
  split.
  - intros Hw. destruct (Hev1 Hw) as [Hw1 Hg1]. destruct (IH (S i) s1 (proj2 Hg1 _ _ Hrow) Hall' H2e) as [Hev2 _].
    by apply (evolves_trans _ _ _ Hev1 Hev2).
  - intros Hw ->. destruct (Hev1 Hw) as [Hw1 Hg1]. destruct (IH (S i) s1 (proj2 Hg1 _ _ Hrow) Hall' H2e) as [Hev2 Hin2].
    constructor; [|by apply Hin2]. destruct (Hin1 Hw eq_refl). split; by apply (proj2 (Hev2 Hw1)).
Qed.
End entries.

(** ** Pulls *)

(** A block with all its entries is in the tables. *)
Definition recorded id b tb : Prop := ∃ h, blockAt id h = Some b ∧ hasRow id h tb ∧
  Forall (λ a, indexed TAck id (Ack_Hash a) tb) (sb_Acks b) ∧
  Forall (λ q, indexed TRequest id (Request_Hash (qt_Request q)) tb ∧ indexed TResponse id (sr_ResponseHash (qt_Response q)) tb) (sb_QueryTxs b).
Lemma recorded_grows id b tb tb' : grows tb tb' → recorded id b tb → recorded id b tb'.
Proof.
  intros [Hi Hr] (h & Hb & Hrow & Ha & Hq). exists h. split_and!; [done|by apply Hr|..]; (eapply Forall_impl; [eassumption|]); naive_solver.
Qed.

Lemma heightIn_period p u b : heightIn (periodOf p) u b = heightIn p u b.
Proof. unfold heightIn, periodOf. destruct (decide (p = 0)); [done|]. by rewrite decide_False. Qed.
(** The block is the one its chain has at the height it is stored under. *)
Definition ofChain profile sign id b s : Prop := ∀ u, (getUpstream profile sign id s).1 = Ok u → blockAt id (heightIn (sv_period s) u b) = Some b.

Lemma addBlock_spec profile sign id count b s r s' : oneChain → ofChain profile sign id b s →
  addBlock profile sign id count (Some b) s = (r, s') → evolves s s' ∧ (wfTables (sv_db s) → r = Ok tt → recorded id b (sv_db s')).
Proof.
  intros Hoc Hof Hrun. unfold addBlock in Hrun. apply bind_inv in Hrun as [(u & s1 & Hu & Hrun)|(r0 & Hu & Hr0 & Hr)].
  2:{ apply getUpstream_spec in Hu as (Hdb & _). split; [unfold evolves; rewrite Hdb; by intros|]. intros _ ->. by destruct (Hr tt). }
  unfold ofChain in Hof. rewrite Hu in Hof. specialize (Hof u eq_refl). apply getUpstream_spec in Hu as (Hdb & Hper & _). go_unfold in Hrun.
  cbn [set_period sv_period] in Hrun. rewrite Hper, heightIn_period in Hrun. set (h := heightIn (sv_period s) u b) in *.
  destruct (EncodeMsgPack b) as [bytes|] eqn:Henc.
  2:{ injection Hrun as <- <-. split; [|done]. unfold evolves. cbn [set_period sv_db]. rewrite Hdb. by intros. }
  pose proof (Decode_Encode _ _ Henc) as Hdec. set (s2 := set_period s1 (periodOf (sv_period s))) in *.
  assert (sv_db s2 = sv_db s) as Hdb2 by done. clearbody s2.
  destruct (exec _ s2) as [r3 s3] eqn:Hex.
  assert (evolves s s3 ∧ (wfTables (sv_db s) → r3 = Ok tt → hasRow id h (sv_db s3))) as [Hev3 Hrow3].
  { unfold exec in Hex. destruct (failing s2); injection Hex as <- <-.
    - split; [|done]. unfold evolves. cbn [nextStmt sv_db]. rewrite Hdb2. by intros.
    - cbn [set_db sv_db]. unfold evolves. cbn [set_db sv_db]. rewrite Hdb2.
      split; intros Hw; [|intros _]; destruct (saveBlock_wf id h count b bytes (sv_db s) Hoc Hw Hof Hdec) as (? & ? & ?); done. }
  destruct r3 as [[]|e|]; [|injection Hrun as <- <-; by split..].
  destruct (addAcks id h 0 (sb_Acks b) s3) as [r4 s4] eqn:Hacks.
  assert (wfTables (sv_db s) → evolves s3 s4 ∧ (r4 = Ok tt → Forall (λ a, indexed TAck id (Ack_Hash a) (sv_db s4)) (sb_Acks b))) as H4.
  { intros Hw. specialize (Hrow3 Hw eq_refl). destruct (Hev3 Hw) as [Hw3 _].
    destruct (addAcks_spec Hoc id h b Hof (sb_Acks b) 0 s3 r4 s4 Hrow3 ltac:(done) Hacks) as [Hev4 Hin4]. split; [done|]. intros ->. by apply Hin4. }
  destruct r4 as [[]|e|].
  2,3: injection Hrun as <- <-; split; [|done]; intros Hw; by apply (evolves_trans _ _ _ Hev3 (proj1 (H4 Hw))).
  assert (wfTables (sv_db s) → evolves s4 s' ∧ (r = Ok tt → Forall (λ q, indexed TRequest id (Request_Hash (qt_Request q)) (sv_db s') ∧
      indexed TResponse id (sr_ResponseHash (qt_Response q)) (sv_db s')) (sb_QueryTxs b))) as H5.
  { intros Hw. specialize (Hrow3 Hw eq_refl). destruct (Hev3 Hw) as [Hw3 _]. destruct (H4 Hw) as [Hev4 _]. destruct (Hev4 Hw3) as [Hw4 Hg4].
    destruct (addQueries_spec Hoc id h b Hof (sb_QueryTxs b) 0 s4 r s' (proj2 Hg4 _ _ Hrow3) ltac:(done) Hrun) as [Hev5 Hin5].
    split; [done|]. intros ->. by apply Hin5. }
  split.
  - intros Hw. destruct (H4 Hw) as [Hev4 _]. destruct (H5 Hw) as [Hev5 _]. by apply (evolves_trans _ _ _ Hev3 (evolves_trans _ _ _ Hev4 Hev5)).
  - intros Hw ->. destruct (H4 Hw) as [Hev4 Ha]. destruct (H5 Hw) as [Hev5 Hq]. destruct (Hev3 Hw) as [Hw3 Hg3]. destruct (Hev4 Hw3) as [Hw4 Hg4].
    destruct (Hev5 Hw4) as [_ Hg5]. exists h. split_and!; [done|apply Hg5, Hg4; by apply Hrow3| |by apply Hq].
    eapply Forall_impl; [by apply Ha|]. intros a Hin. by apply Hg5.
Qed.

Lemma pull_spec profile sign answer id count s r s' : oneChain → (∀ b n, answer = Ok (Some b, n) → ofChain profile sign id b s) →
  pull profile sign answer id count s = (r, s') →
  evolves s s' ∧ (wfTables (sv_db s) → r = Ok tt → ∃ b n, answer = Ok (Some b, n) ∧ recorded id b (sv_db s')).
Proof.
  intros Hoc Hof Hrun. unfold pull, minerRequest in Hrun. rewrite bind_assoc in Hrun.
  apply bind_inv in Hrun as [(u & s1 & Hu & Hrun)|(r0 & Hu & Hr0 & Hr)].
  2:{ apply getUpstream_spec in Hu as (Hdb & _). split; [unfold evolves; rewrite Hdb; by intros|]. intros _ ->. by destruct (Hr tt). }
  pose proof (getUpstream_spec _ _ _ _ _ _ Hu) as (Hdb & Hper & Hup & _). specialize (Hup u eq_refl).
  assert (evolves s s1) as Hev1 by (unfold evolves; rewrite Hdb; by intros).
  destruct answer as [[[b|] n]|e|]; go_unfold in Hrun; [|injection Hrun as <- <-; by split..].
  assert (ofChain profile sign id b s1) as Hof1.
  { intros u' Hu'. unfold getUpstream in Hu'. go_unfold in Hu'. rewrite Hup in Hu'. injection Hu' as <-. rewrite Hper. apply (Hof b n eq_refl). by rewrite Hu. }
  destruct (addBlock _ _ _ _ _ s1) as [r2 s2] eqn:Hadd. apply (addBlock_spec _ _ _ _ _ _ _ _ Hoc Hof1) in Hadd as [Hev2 Hrec].
  assert (evolves s s2) as Hev by (by eapply evolves_trans).
  destruct r2 as [[]|e|]; [|injection Hrun as <- <-; by split..].
  assert (evolves s2 s') as Hev3.
  { revert Hrun. destruct (sv_subscription s2 !! id) as [w|]; [|intros [= <- <-]; apply evolves_refl].
    destruct (decide (wk_head w = count)); [|intros [= <- <-]; apply evolves_refl].
    destruct (saveSubscriptionStatus _ _ _) as [r3 s3] eqn:Hsave. intros Hrun. assert (s3 = s') as <- by (by destruct r3; injection Hrun).
    apply (kept_evolves _ _ _ _ (λ tb0, kept_saveStatus tb0 _ _)) in Hsave. exact Hsave. }
  split; [by eapply evolves_trans|]. intros Hw _. exists b, n. split; [done|]. destruct (Hev1 Hw) as [Hw1 _]. destruct (Hev2 Hw1) as [Hw2 _].
  destruct (Hev3 Hw2) as [_ Hg]. eapply recorded_grows; [exact Hg|]. by apply Hrec.
Qed.

(** ** Runs *)

Inductive obsStep : Service → Service → Prop :=
| os_subscribe id position s : obsStep s (subscribe id position s).2
| os_start s : obsStep s (start s).2
| os_stop s : obsStep s (stop s).2
| os_restart faults period s : obsStep s (NewService faults period (sv_db s))
| os_pull profile sign answer id count s : (∀ b n, answer = Ok (Some b, n) → ofChain profile sign id b s) →
    obsStep s (pull profile sign answer id count s).2.

Lemma obsStep_evolves s s' : oneChain → obsStep s s' → evolves s s'.
Proof.
  intros Hoc [id pos s0|s0|s0|faults period s0|profile sign answer id count s0 Hof].
  - destruct (subscribe id pos s0) as [r s1] eqn:Hr. exact (kept_evolves _ _ _ _ (λ tb0, kept_subscribe tb0 _ _) Hr).
  - destruct (start s0) as [r s1] eqn:Hr. exact (kept_evolves _ _ _ _ kept_start Hr).
  - destruct (stop s0) as [r s1] eqn:Hr. exact (kept_evolves _ _ _ _ kept_stop Hr).
  - by intros Hw.
  - destruct (pull profile sign answer id count s0) as [r s1] eqn:Hr. by apply (pull_spec _ _ _ _ _ _ _ _ Hoc Hof Hr).
Qed.
Lemma run_evolves s s' : oneChain → rtc obsStep s s' → evolves s s'.
Proof. intros Hoc. induction 1 as [s|s1 s2 s3 Hstep _ IH]; [apply evolves_refl|]. eapply evolves_trans; [by apply obsStep_evolves|done]. Qed.

(** ** Lookups *)

(** A statement of the lookup failed. *)
Definition faulty s (e : oerror) : Prop := ∃ n, (sv_stmts s <= n)%nat ∧ (sv_faults s n = Some e ∨ sv_stopped s = true).

(** What looking up [x] in the table [t] leads to: the entry at its place. *)
Lemma lookup_spec {A} (t : itable) (l : Block → list A) (hashOf : A → Hash) id x s :
  oneChain → wfTables (sv_db s) → valid_hash x → (∀ b, entryHashes t b = hashOf <$> l b) →
  match (('(height, offset) ← located t id x; '(_, b) ← getBlockByHeight id height; entryAt (l b) offset hashOf x) s).1 with
  | Ok a => hashOf a = x ∧ ∃ h b, blockAt id h = Some b ∧ a ∈ l b
  | Err e => e = ErrNotFound ∧ ¬ indexed t id x (sv_db s) ∨ faulty s e
  | Panic => False
  end.
Proof.
  intros Hoc Hw Hx Hl. unfold located, select. go_unfold. unfold failing at 1.
  destruct (sv_stopped s) eqn:Hst; [right; exists (sv_stmts s); auto|].
  destruct (sv_faults s (sv_stmts s)) as [e|] eqn:Hf; [right; exists (sv_stmts s); auto|].
  destruct (ob_index (sv_db s) !! (t, id, Hash_String x)) as [[h off]|] eqn:Hin; [|left; split; [done|]; unfold indexed; rewrite Hin; by intros [_ []]].
  destruct (wt_index _ Hw _ _ _ _ _ Hin) as ((row & Hrow & Hdb & Hh) & b & y & Hb & Hoff & Hy & Hvy & Hxy).
  apply Hash_String_inj in Hxy as ->; [|done..].
  unfold getBlockByHeight, select. go_unfold. unfold failing. cbn [nextStmt sv_stopped sv_faults sv_stmts sv_db]. rewrite Hst.
  destruct (sv_faults s (S (sv_stmts s))) as [e|] eqn:Hf2; [right; exists (S (sv_stmts s)); auto|].
  unfold byHeight. destruct (limit1 _) as [row'|] eqn:Hlim.
  2:{ apply limit1_none in Hlim. exfalso. assert (row ∈ filter (λ r, br_height r = h) (rowsOf id (sv_db s))) as Hnil.
      { apply list_elem_of_filter. split; [done|]. by apply list_elem_of_filter. }
      rewrite Hlim in Hnil. by apply not_elem_of_nil in Hnil. }
  apply limit1_in, list_elem_of_filter in Hlim as [Hh' [Hdb' Hrow']%list_elem_of_filter].
  destruct (wt_rows _ Hw _ Hrow') as (b' & Hdec & Hb' & _). rewrite Hdb', Hh', Hb in Hb'. injection Hb' as <-.
  unfold decodeRow. rewrite Hdec. go_unfold. unfold entryAt. rewrite Hl, list_lookup_fmap in Hy.
  pose proof (oc_small Hoc id h b t Hb) as Hsmall. rewrite Hl, length_fmap in Hsmall.
  destruct (l b !! Z.to_nat off) as [a|] eqn:Ha; [|done]. pose proof (lookup_lt_Some _ _ _ Ha) as Hlt. injection Hy as Hy.
  rewrite decide_False by (rewrite i32_id by done; lia). rewrite Hy. assert (Hash_IsEqual (Some x) (Some x) = true) as -> by (by apply bool_decide_eq_true).
  cbn. split; [done|]. exists h, b. split; [done|]. by eapply list_elem_of_lookup_2.
Qed.

(** A lookup in a service that works: the entry. *)
Definition working s : Prop := sv_stopped s = false ∧ ∀ n, sv_faults s n = None.
Lemma not_faulty s e : working s → ¬ faulty s e.
Proof. intros [Hs Hf] (n & _ & [Hn|Hn]); congruence. Qed.

Lemma getAck_spec id x s : oneChain → wfTables (sv_db s) → valid_hash x →
  match (getAck id x s).1 with
  | Ok a => Ack_Hash a = x ∧ ∃ h b, blockAt id h = Some b ∧ a ∈ sb_Acks b
  | Err e => e = ErrNotFound ∧ ¬ indexed TAck id x (sv_db s) ∨ faulty s e
  | Panic => False
  end.
Proof. intros Hoc Hw Hx. by apply (lookup_spec TAck (λ b, sb_Acks b) Ack_Hash). Qed.
(** The two lookups of a query drop one half of what they find. *)
Lemma half_spec {A} (t : itable) (hashOf : QueryAsTx → Hash) (half : QueryAsTx → A) id x s :
  oneChain → wfTables (sv_db s) → valid_hash x → (∀ b, entryHashes t b = hashOf <$> sb_QueryTxs b) →
  match (('(height, offset) ← located t id x; '(_, b) ← getBlockByHeight id height;
          qt ← entryAt (sb_QueryTxs b) offset hashOf x; mret (half qt)) s).1 with
  | Ok a => ∃ q, a = half q ∧ hashOf q = x ∧ ∃ h b, blockAt id h = Some b ∧ q ∈ sb_QueryTxs b
  | Err e => e = ErrNotFound ∧ ¬ indexed t id x (sv_db s) ∨ faulty s e
  | Panic => False
  end.
Proof.
  intros Hoc Hw Hx Hl. pose proof (lookup_spec t (λ b, sb_QueryTxs b) hashOf id x s Hoc Hw Hx Hl) as Hs. revert Hs. go_unfold.
  destruct (located t id x s) as [[[h off]|e|] s1]; [|done..]. destruct (getBlockByHeight id h s1) as [[[c b]|e|] s2]; [|done..].
  destruct (entryAt (sb_QueryTxs b) off hashOf x s2) as [[q|e|] s3]; [|done..]. cbn. intros [Hq Hb]. by exists q.
Qed.
Lemma getRequest_spec id x s : oneChain → wfTables (sv_db s) → valid_hash x →
  match (getRequest id x s).1 with
  | Ok a => ∃ q, a = qt_Request q ∧ Request_Hash (qt_Request q) = x ∧ ∃ h b, blockAt id h = Some b ∧ q ∈ sb_QueryTxs b
  | Err e => e = ErrNotFound ∧ ¬ indexed TRequest id x (sv_db s) ∨ faulty s e
  | Panic => False
  end.
Proof. intros Hoc Hw Hx. by apply (half_spec TRequest (λ q, Request_Hash (qt_Request q)) qt_Request). Qed.
Lemma getResponse_spec id x s : oneChain → wfTables (sv_db s) → valid_hash x →
  match (getResponseHeader id x s).1 with
  | Ok a => ∃ q, a = qt_Response q ∧ sr_ResponseHash (qt_Response q) = x ∧ ∃ h b, blockAt id h = Some b ∧ q ∈ sb_QueryTxs b
  | Err e => e = ErrNotFound ∧ ¬ indexed TResponse id x (sv_db s) ∨ faulty s e
  | Panic => False
  end.
Proof. intros Hoc Hw Hx. by apply (half_spec TResponse (λ q, sr_ResponseHash (qt_Response q)) qt_Response). Qed.

Lemma getBlock_found id h b s : oneChain → wfTables (sv_db s) → working s → blockAt id h = Some b → hasRow id h (sv_db s) →
  ∃ count, (getBlock id (Block_BlockHash b) s).1 = Ok (count, h, b).
Proof.
  intros Hoc Hw [Hst Hf] Hb (row & Hrow & Hdb & Hh). unfold getBlock, select, failing. go_unfold. rewrite Hst, Hf. unfold byHash.
  destruct (wt_rows _ Hw _ Hrow) as (b0 & _ & Hb0 & Hs0). rewrite Hdb, Hh, Hb in Hb0. injection Hb0 as <-.
  destruct (limit1 _) as [row'|] eqn:Hlim.
  2:{ apply limit1_none in Hlim. exfalso. assert (row ∈ filter (λ r, br_hash r = Hash_String (Block_BlockHash b)) (rowsOf id (sv_db s))) as Hnil.
      { apply list_elem_of_filter. split; [done|]. by apply list_elem_of_filter. }
      rewrite Hlim in Hnil. by apply not_elem_of_nil in Hnil. }
  apply limit1_in, list_elem_of_filter in Hlim as [Hs' [Hdb' Hrow']%list_elem_of_filter].
  destruct (wt_rows _ Hw _ Hrow') as (b' & Hdec & Hb' & Hs''). rewrite Hdb' in Hb'. rewrite Hs' in Hs''.
  apply Hash_String_inj in Hs''; [|by eapply oc_valid..]. assert (br_height row' = h) as Hh' by (by eapply (oc_distinct Hoc)).
  rewrite Hh', Hb in Hb'. injection Hb' as <-. unfold decodeRow. rewrite Hdec. go_unfold. exists (br_count row'). by rewrite Hh'.
Qed.
(** What is recorded is found. *)
Lemma recorded_found id b s : oneChain → wfTables (sv_db s) → working s → recorded id b (sv_db s) →
  (∀ a, a ∈ sb_Acks b → ∃ a', (getAck id (Ack_Hash a) s).1 = Ok a' ∧ Ack_Hash a' = Ack_Hash a) ∧
  (∀ q, q ∈ sb_QueryTxs b → ∃ req resp, (getRequest id (Request_Hash (qt_Request q)) s).1 = Ok req ∧ Request_Hash req = Request_Hash (qt_Request q) ∧
     (getResponseHeader id (sr_ResponseHash (qt_Response q)) s).1 = Ok resp ∧ sr_ResponseHash resp = sr_ResponseHash (qt_Response q)) ∧
  ∃ count height, (getBlock id (Block_BlockHash b) s).1 = Ok (count, height, b).
Proof.
  intros Hoc Hw Hwork (h & Hb & Hrow & Hacks & Hqs). split_and!.
  - intros a Ha. rewrite Forall_forall in Hacks. specialize (Hacks a Ha) as [Hv Hin]. pose proof (getAck_spec id _ s Hoc Hw Hv) as Hs.
    destruct (getAck _ _ _).1 as [a'|e|]; [|destruct Hs as [[_ Hn]|Hn]; [by destruct Hn|by apply not_faulty in Hn]|done]. exists a'. by destruct Hs.
  - intros q Hq. rewrite Forall_forall in Hqs. specialize (Hqs q Hq) as [[Hv1 Hin1] [Hv2 Hin2]].
    pose proof (getRequest_spec id _ s Hoc Hw Hv1) as H1s. pose proof (getResponse_spec id _ s Hoc Hw Hv2) as H2s.
    destruct (getRequest _ _ _).1 as [req|e|]; [|destruct H1s as [[_ Hn]|Hn]; [by destruct Hn|by apply not_faulty in Hn]|done].
    destruct (getResponseHeader _ _ _).1 as [resp|e|]; [|destruct H2s as [[_ Hn]|Hn]; [by destruct Hn|by apply not_faulty in Hn]|done].
    destruct H1s as (q1 & -> & Hq1 & _), H2s as (q2 & -> & Hq2 & _). by exists (qt_Request q1), (qt_Response q2).
  - destruct (getBlock_found id h b s Hoc Hw Hwork Hb Hrow) as [count Hc]. by exists count, h.
Qed.
End props.

(** C27: An observer answers what it has observed.  Let the blocks miners hand out be
    those of one chain per database with one block per period: every block that is
    pulled is the one block [blockAt] has at the height the observer computes for it,
    blocks of different heights have different hashes of 32 bytes, and a block has
    less than 2^31 entries.  (A chain may have two blocks of one period, and then the
    lookups confuse them, see [siblings_confused].)  In any run of subscriptions, starts, stops,
    restarts and pulls, with statements that fail and calls that are lost: a lookup of
    an acknowledgement, a request or a response answers one with the hash asked for,
    out of a block of the chain, or that it is not there and then it was never
    indexed, or the error of a failing statement, and never inconsistent data or a
    panic.  And once a pull of a block has succeeded, in every later state in which
    the file works the block and all its entries are found by their hashes. *)
Theorem observer_answers `{SqlEnv} `{!MsgPack Block} `{!RowChoice} (blockAt : DatabaseID → Z → option Block) faults period (s : Service) :
  oneChain blockAt → rtc (obsStep blockAt) (NewService faults period emptyObs) s →
  (∀ id x, valid_hash x →
    match (getAck id x s).1 with
    | Ok a => Ack_Hash a = x ∧ ∃ h b, blockAt id h = Some b ∧ a ∈ sb_Acks b
    | Err e => e = ErrNotFound ∧ ¬ indexed TAck id x (sv_db s) ∨ faulty s e
    | Panic => False
    end ∧
    match (getRequest id x s).1 with
    | Ok r => ∃ q, r = qt_Request q ∧ Request_Hash (qt_Request q) = x ∧ ∃ h b, blockAt id h = Some b ∧ q ∈ sb_QueryTxs b
    | Err e => e = ErrNotFound ∧ ¬ indexed TRequest id x (sv_db s) ∨ faulty s e
    | Panic => False
    end ∧
    match (getResponseHeader id x s).1 with
    | Ok r => ∃ q, r = qt_Response q ∧ sr_ResponseHash (qt_Response q) = x ∧ ∃ h b, blockAt id h = Some b ∧ q ∈ sb_QueryTxs b
    | Err e => e = ErrNotFound ∧ ¬ indexed TResponse id x (sv_db s) ∨ faulty s e
    | Panic => False
    end) ∧
  (∀ profile sign b n id count s1 s2, ofChain blockAt profile sign id b s → pull profile sign (Ok (Some b, n)) id count s = (Ok tt, s1) →
    rtc (obsStep blockAt) s1 s2 → working s2 →
    (∀ a, a ∈ sb_Acks b → ∃ a', (getAck id (Ack_Hash a) s2).1 = Ok a' ∧ Ack_Hash a' = Ack_Hash a) ∧
    (∀ q, q ∈ sb_QueryTxs b → ∃ req resp, (getRequest id (Request_Hash (qt_Request q)) s2).1 = Ok req ∧ Request_Hash req = Request_Hash (qt_Request q) ∧
       (getResponseHeader id (sr_ResponseHash (qt_Response q)) s2).1 = Ok resp ∧ sr_ResponseHash resp = sr_ResponseHash (qt_Response q)) ∧
    ∃ c height, (getBlock id (Block_BlockHash b) s2).1 = Ok (c, height, b)).
Proof.
  intros Hoc Hrun. destruct (run_evolves _ _ _ Hoc Hrun) as [Hw _]; [apply wf_empty|]. split.
  - intros id x Hx. split_and!; [by apply getAck_spec|by apply getRequest_spec|by apply getResponse_spec].
  - intros profile sign b n id count s1 s2 Hof Hpull Hrun2 Hwork.
    destruct (pull_spec blockAt profile sign (Ok (Some b, n)) id count s (Ok tt) s1 Hoc) as [Hev Hrec]; [by intros b' n' [= <- <-]|done|].
    destruct (Hrec Hw eq_refl) as (b' & n' & [= <- <-] & Hr1). destruct (Hev Hw) as [Hw1 _].
    destruct (run_evolves _ _ _ Hoc Hrun2 Hw1) as [Hw2 Hg2]. apply (recorded_found blockAt); [done..|]. by eapply recorded_grows.
Qed.
