(* ===== verification/ObserverSample.v ===== *)
(** * An observer of one database

    A block with an acknowledgement and a query, an observer that pulls it, and its
    answers after a restart; also the block that is stored under the wrong count. *)
From S2P Require Import Prelude Hash Types Block Bytes SqlTypes Sample ChainSample XenoSample WireSample SqlSample.
From S2P Require Import WorkerSample Observer ObserverProps.
From Stdlib Require Import String ZArith Lia.
From stdpp Require Import base list gmap strings relations.
Local Open Scope Z_scope.

(** The first row. *)
Lemma head_in (l : list blockRow) row : list.head l = Some row → row ∈ l.
Proof. destruct l; [done|]. intros [= <-]. by left. Qed.
Lemma head_none (l : list blockRow) : list.head l = None → l = [].
Proof. by destruct l. Qed.
#[export] Instance firstRow : RowChoice := {| limit1 := λ l, list.head l; limit1_in := head_in; limit1_none := head_none |}.

(** ** The chain *)

Definition obsResponse : SignedResponseHeader :=
  let h := MkResponseHeader (rq_Header write1) (Request_Hash write1) "the leader" 12 0 3 0 2 zeroHash (addr 1) in
  match SignedResponseHeader_BuildHash h with Ok r => r | _ => MkSignedResponseHeader h zeroHash end.
Definition obsAck : SignedAckHeader :=
  let h := MkAckHeader (sr_Header obsResponse) (sr_ResponseHash obsResponse) "client" 13 in
  match HSV_Sign (MarshalHash_AckHeader h) sampleKey (MkHSV zeroHash None None) with
  | Ok i => MkSignedAckHeader h i
  | _ => MkSignedAckHeader h (MkHSV zeroHash None None)
  end.
Definition obsBlock : Block :=
  MkBlock (MkSignedHeader (MkHeader 1 "the leader" zeroHash (Block_BlockHash genesisBlock) zeroHash 12) (MkHSV (addr 40) None None))
    [] [MkQueryAsTx write1 obsResponse] [obsAck].
(** The block of the height 2, which is that of its time. *)
Definition obsChain (id : DatabaseID) (h : Z) : option Block := if decide (id = dbName ∧ h = 2) then Some obsBlock else None.

Lemma obs_oneChain : oneChain obsChain.
Proof.
  assert (∀ id h b, obsChain id h = Some b → b = obsBlock ∧ h = 2) as Hc.
  { intros id h b. unfold obsChain. case_decide as Hd; [|discriminate]. intros Hb. apply (inj Some) in Hb. destruct Hd as [_ Hd]. split; [symmetry; exact Hb|exact Hd]. }
  split.
  - intros id h b t [-> _]%Hc. destruct t; vm_compute; split; (discriminate || reflexivity).
  - intros id h b [-> _]%Hc. apply firstBytes_valid.
  - intros id h h' b b' [_ ->]%Hc [_ ->]%Hc. reflexivity.
Qed.

(** ** The observer *)

Definition noFault (_ : nat) : option oerror := None.
Definition obsStart : Service := NewService noFault 5 emptyObs.
Definition obsSubscribed : Service := (subscribe dbName "newest" obsStart).2.
Definition obsPulled : Service := (pull (Ok minerProfile) None (Ok (Some obsBlock, 1)) dbName (-1) obsSubscribed).2.
Definition obsRestarted : Service := NewService noFault 5 (sv_db obsPulled).

Definition heightOfPull (s : Service) : option Z :=
  match (getUpstream (Ok minerProfile) None dbName s).1 with Ok u => Some (heightIn (sv_period s) u obsBlock) | _ => None end.
Lemma obs_ofChain : ofChain obsChain (Ok minerProfile) None dbName obsBlock obsSubscribed.
Proof.
  intros u Hu. assert (heightOfPull obsSubscribed = Some 2) as Hh by (vm_compute; reflexivity). unfold heightOfPull in Hh. rewrite Hu in Hh.
  injection Hh as ->. unfold obsChain. rewrite decide_True; [reflexivity|split; reflexivity].
Qed.
Lemma observer_answers_witness :
  (∃ a, (getAck dbName (Ack_Hash obsAck) obsRestarted).1 = Ok a ∧ Ack_Hash a = Ack_Hash obsAck) ∧
  (∃ r, (getRequest dbName (Request_Hash write1) obsRestarted).1 = Ok r ∧ Request_Hash r = Request_Hash write1) ∧
  ∃ c h, (getBlock dbName (Block_BlockHash obsBlock) obsRestarted).1 = Ok (c, h, obsBlock).
Proof.
  assert (is_Ok (pull (Ok minerProfile) None (Ok (Some obsBlock, 1)) dbName (-1) obsSubscribed).1 = true) as Hok by (vm_compute; reflexivity).
  destruct (observer_answers obsChain noFault 5 obsSubscribed obs_oneChain) as [_ Hfound].
  { apply rtc_once. exact (os_subscribe obsChain dbName "newest" obsStart). }
  destruct (Hfound (Ok minerProfile) None obsBlock 1 dbName (-1) obsPulled obsRestarted obs_ofChain) as (Ha & Hq & Hb).
  - unfold obsPulled. destruct (pull _ _ _ _ _ obsSubscribed) as [r s1]. cbn [fst snd] in *. destruct r as [[]|e|]; [reflexivity|discriminate Hok..].
  - apply rtc_once. apply os_restart.
  - split; [reflexivity|intros k; reflexivity].
  - split; [apply Ha; left|]. split; [|exact Hb]. destruct (Hq (MkQueryAsTx write1 obsResponse)) as (req & resp & Hr & Hh & _); [left|]. exists req. exact (conj Hr Hh).
Defined.

(** ** What is stored wrongly *)

(** The newest block is stored under the count -1 it was asked for with, so that it is
    not found by the count 1 it has. *)
Definition countOf (r : GoResult oerror (Z * Z * Block)) : option Z := match r with Ok (c, _, _) => Some c | _ => None end.
Definition notFound {A} (r : GoResult oerror A) : bool := match r with Err ErrNotFound => true | _ => false end.
Lemma newest_count_lost :
  countOf (getBlock dbName (Block_BlockHash obsBlock) obsPulled).1 = Some (-1) ∧
  notFound (getBlockByCount dbName 1 obsPulled).1 = true ∧ wk_head <$> sv_subscription obsPulled !! dbName = Some 2.
Proof. split; [vm_compute; reflexivity|]. split; vm_compute; reflexivity. Qed.
(** Every saved position of a subscription is a row of its own. *)
Lemma positions_pile_up : length (ob_subscriptions (sv_db obsPulled)) = 2%nat.
Proof. vm_compute. reflexivity. Qed.

(** Two blocks of one period, which a chain may have, get the same height, and the rows
    of the blocks are looked up by height: an acknowledgement of the one is looked for in
    the other. *)
Definition obsSibling : Block :=
  MkBlock (MkSignedHeader (MkHeader 1 "the leader" zeroHash (Block_BlockHash genesisBlock) zeroHash 13) (MkHSV (addr 41) None None)) [] [] [].
Definition obsBoth : Service :=
  (pull (Ok minerProfile) None (Ok (Some obsBlock, 2)) dbName 2 (pull (Ok minerProfile) None (Ok (Some obsSibling, 1)) dbName (-1) obsSubscribed).2).2.
Definition inconsistentAnswer {A} (r : GoResult oerror A) : bool := match r with Err ErrInconsistentData => true | _ => false end.
Lemma siblings_confused : inconsistentAnswer (getAck dbName (Ack_Hash obsAck) obsBoth).1 = true.
Proof. vm_compute. reflexivity. Qed.
